(* ===== verification/_CoqProject ===== *)
-Q . S2P
Prelude.v
SdkMath.v
Bank.v
EnergyTypes.v
EnergyKeeper.v
EnergyAccrual.v
EnergyIndex.v
EnergyConsume.v
EnergySpending.v
EnergyDelegate.v
EnergyInvariant.v
EnergyLifecycle.v
EnergyAnte.v
EnergyMachine.v
EnergyGuarantees.v
AtoxIndex.v
AtoxKeeper.v
AtoxSolvency.v
AtoxHandlers.v
AtoxWrapper.v
AtoxMachine.v
BridgePayload.v
BridgeLimits.v
BridgeKeeper.v
BridgeSafety.v
OracleKeeper.v
OracleSafety.v
Sha256.v
TokenomicsKeeper.v
TokenomicsMerkle.v
TokenomicsSafety.v
TokenomicsStreak.v
Chain.v
ChainSafety.v
ChainExample.v
EvmStateDB.v
EvmJournal.v
EvmRevert.v
EvmSnapshot.v
EvmCommit.v
EvmKeeper.v
EvmExample.v
EvmTx.v
EvmVM.v
EvmFrames.v
EvmFramesExample.v
VestingSchedule.v
VestingAccount.v
VestingKeeper.v
VestingSafety.v
VestingExample.v
FeeMarket.v
EvmTransition.v
EvmGas.v
EvmAnte.v
EvmTxCost.v
EvmTxExample.v
CosmosAnte.v
CosmosSafety.v
Epochs.v
Inflation.v
InflationSafety.v
Erc20Types.v
Erc20Keeper.v
Erc20Convert.v
Erc20Registry.v
Erc20Safety.v
Erc20Example.v
PrecompileRun.v
AtoxPrecompile.v
TokenPrecompile.v
TokenAllowance.v
PrecompileExample.v
BridgePrecompile.v
FeeChecker.v
EvmParams.v
EvmGenesis.v
Upgrade.v
VestingPrecompile.v
Indexer.v
