(* ===== verification/Prelude.v ===== *)
(** * Atoshi chain: a verification of its state machine

    Atoshi is a Cosmos SDK chain derived from Evmos.  It adds five modules under
    src/x/ and their wiring in src/app/app.go; it inherits the EVM module and
    several others, some of them changed.  This library models the five modules,
    their composition, and the inherited parts that move money or gate
    transactions.

    ** The program

    - x/energy: accounts accrue an energy allowance from their balance and pay
      gas with it; energy can be lent against locked ATOS.
    - x/atox: ATOX is mined and converts into ATOS as a global index advances.
      Holders are settled before every ATOX transfer, by a hook of the bank.
    - x/oracle: allowed feeders report prices; the current price is a median.
    - x/tokenomics: block rewards with halvings; after enough days in a row with
      a price and volume above the tier's thresholds it authorises a release; it
      also refills the migration pool and pays the airdrop against a Merkle root.
    - x/bridgeadapter: announces authorised releases to Ethereum, applies
      Ethereum's receipts (which fund the conversion pool of x/atox and the
      project permission of x/tokenomics), and moves assets in both directions
      under daily limits.
    - x/evm: Ethereum transactions.  The ante handler charges the fee up front, the
      state transition runs the machine on a journaled state database and commits
      it, and the unused gas is paid back.  Precompiles (precompiles/) reach the
      other modules through a cache context of the state database.
    - x/feemarket: the base fee of EIP-1559.  x/vesting: clawback accounts.
      x/epochs: clocks with hooks; x/inflation mints at the end of an epoch.
    - x/erc20: pairs of coins and ERC-20 contracts, with conversions in both
      directions; x/ibc/transfer and the middleware convert on the way out and in.
    - app/ante/cosmos, app/post, x/staking: rules on the messages of Cosmos
      transactions, burning of their fees, delegation from vesting accounts.
    - app/upgrades: one-off handlers; v20.4 retunes the bridge, closes routes and
      moves funds that a replay had issued back to the migration pool.
    - cmd/migration-merkle makes the airdrop's root and proofs.  indexer, rpc/types
      and server/indexer_service.go follow the chain and index its Ethereum
      transactions by hash and by number.

    ** How it is modelled

    One store record per module ([EnergyStore], [AtoxStore], [OracleStore],
    [TokStore], [BridgeStore], [FeeStore], [VestingCtx], [EvmCtx], ...) and one
    definition per Go function, under the function's name (with a prefix where two
    packages share it).  A handler takes the states it touches and returns a
    [result] together with the states it leaves behind, on errors too; a panic is
    an error.  [math.Int] is [Z]; a nil one takes the branch of a negative one
    where the code tests both, and is an [option] where it matters.  [uint8],
    [uint32], [uint64] and [int64] arithmetic that can wrap is written with its
    wrap-around.  [LegacyDec] is a [Z] scaled by 10^18; its rounding operations are
    the class [LegacyDecOps] with error bounds [LegacyDecLaws] ([SdkMath]), with
    banker's rounding as an instance.  The bank is the class [BankOps] with laws
    [BankLaws] ([Bank]) and a ledger as an instance; accounts, governance and the
    store of the EVM are classes of the same kind ([AccountKeeper], [GovKeeper],
    [AuthKeeper], [StateKeeper]).  SHA-256, hex and uvarint of Go's library are
    executable definitions ([Sha256], [TokenomicsKeeper]).

    ** Files

    - [Prelude], [SdkMath], [Bank]: shared vocabulary, decimals, the bank.
    - [EnergyTypes] (types/helpers.go, pure parts of keeper/), [EnergyKeeper]
      (keeper.go, settle.go, send_restriction.go, staking_hooks.go,
      migrations.go), [EnergyConsume] (consume.go, pending_reservation.go),
      [EnergyDelegate] (delegation.go, abci.go, msg_server.go, genesis.go,
      grpc_query.go), [EnergyAnte] (ante/decorator.go, ante/post.go): the module.
      [EnergyAccrual], [EnergyIndex], [EnergySpending], [EnergyInvariant],
      [EnergyLifecycle], [EnergyMachine], [EnergyGuarantees]: its theorems.
    - [AtoxIndex] (types/helpers.go), [AtoxKeeper] (keeper/), [AtoxWrapper]
      (wrapper/): the module.  [AtoxSolvency], [AtoxHandlers], [AtoxMachine]:
      its theorems.
    - [BridgePayload] (codecs of types/helpers.go and types/ratelimit.go),
      [BridgeLimits] (parameters and limits), [BridgeKeeper] (keeper/), against
      the interface [BridgeEnv]; [BridgeSafety]: its theorems.
    - [OracleKeeper] (types/ and keeper/); [OracleSafety]: its theorems.
    - [TokenomicsKeeper] (types/ and keeper/), against the interface [TokEnv];
      [TokenomicsMerkle], [TokenomicsSafety] (with the laws [TokEnvLaws]),
      [TokenomicsStreak]: its theorems.  The Module [MerkleTool] of
      [TokenomicsMerkle]: cmd/migration-merkle.
    - [Chain]: the wiring of src/app/app.go; the interfaces instantiated with the
      modules and the laws proved.  [ChainSafety]: the composed machine.
      [ChainExample]: a concrete chain on which the theorems are evaluated.
    - [EvmStateDB]: x/evm/statedb and what all precompiles share
      (precompiles/common).  [EvmJournal], [EvmRevert], [EvmSnapshot]: reverting;
      [EvmCommit]: committing.  [EvmKeeper]: x/evm/keeper/statedb.go and the bank
      wrapper, which implement the interface [StateKeeper]; [EvmExample].
    - [EvmTx]: transaction data, its validation and fees (x/evm/types,
      app/ante/evm, x/evm/keeper/fees.go).  [EvmVM]: the frames of
      x/evm/core/vm/evm.go (calls, creations, hooks and access control), around an
      interpreter that is a parameter; [EvmFrames], [EvmFramesExample].
      [EvmTransition]: state_transition.go, gas.go and the gas meter; [EvmGas].
      [EvmAnte]: the decorator of app/ante/evm/mono.go with all its steps;
      [EvmTxCost], [EvmTxExample].
    - [VestingSchedule] (types/schedule.go), [VestingAccount]
      (types/clawback_vesting_account.go), [VestingKeeper] (messages and hooks);
      [VestingSafety], [VestingExample].
    - [FeeMarket], [Epochs], [Inflation]: the modules; [InflationSafety].
    - [CosmosAnte]: app/ante/cosmos, app/post/burn.go and x/staking;
      [CosmosSafety]: the fee decorator of x/energy composed with the burning.
    - [Erc20Types] (types/), [Erc20Keeper] (pairs, parameters, registration),
      [Erc20Convert] (conversions, IBC callbacks, the transfer message of
      x/ibc/transfer); [Erc20Registry], [Erc20Safety], [Erc20Example].
    - [PrecompileRun]: the run of a stateful precompile (precompiles/common), over
      which come [AtoxPrecompile] (precompiles/atox), [BridgePrecompile]
      (precompiles/bridgeadapter), [TokenPrecompile] (precompiles/erc20) with
      precompiles/werc20, [TokenAllowance] for its allowances, and
      [VestingPrecompile] (precompiles/vesting); [PrecompileExample].
    - [FeeChecker]: app/ante/evm/fee_checker.go.
    - [EvmParams]: parameters of x/evm, access control and active precompiles;
      [EvmGenesis]: its genesis.
    - [Upgrade]: app/upgrades/v20_4 and, at its end, v19_2 to v20_3.
    - [Indexer]: rpc/types/events.go and indexer/kv_indexer.go; its Module
      [IndexerService] is server/indexer_service.go, two goroutines as interleaved
      events.

    ** What the theorems show

    - x/energy: an invariant of all reachable states (counters agree with the
      delegation records, lent energy is in the bucket, the pool holds all locked
      ATOS); a transaction pays exactly the gas it used; delegation and its
      return; estimates agree with charges; fees of uncovered gas are bounded.
    - x/atox: in every reachable state all holders together can claim at once,
      issuance is within the cap; claims pay what the query says whatever their
      timing; fees; ATOX never reaches an IBC escrow; the sweep visits every
      account once per pass.
    - x/bridgeadapter: exact effect of each entry point and which messages are
      accepted; replays are harmless; the day's records add up; a halt closes
      everything; codecs are exact inverses.
    - x/oracle: median, deviation and quorum of reports; bounds of the TWAP.
    - x/tokenomics: emission and release bounds; the block end refines an
      abstract streak rule, and a release needs the whole streak; refills
      conserve; airdrop proofs; genesis round trip.
    - The composition: what reaches the conversion pool and the project
      permission was authorised and then confirmed by Ethereum.
    - x/evm: a revert restores the state of its snapshot whatever ran in between,
      a commit stores exactly the state, a precompile sees it; a failed call or
      creation is undone, to any depth; a transaction uses between the minimum
      share and all of its gas and gets the rest back; one that fails costs exactly
      its gas at the effective price.  One example shows what a failed precompile
      call leaves behind.
    - x/vesting: a grant is split exactly at any time; grants add up; a clawback
      takes exactly the unvested coins and only when it may; accounts stay
      well-formed.  x/feemarket: the EIP-1559 step, and no block fails unless the
      elasticity is zero.  x/epochs: clocks keep time.  x/inflation: what an epoch
      mints and who gets it.
    - Cosmos transactions: what passes the message rules is harmless at any
      nesting; unvested coins are not delegated; fees that energy covered are
      burned all the same.
    - x/erc20: a conversion moves exactly its amount, coins stay backed by escrowed
      tokens whatever conversions follow each other, registration keeps the
      registry well-formed, parameters are read back as set; an alias of ATOX
      passes the rule against IBC transfers.
    - Precompiles: a claim through the EVM commits what the message leaves; a bridge
      call is the signer's message; the grants of the ERC-20 precompile refine the
      allowance table of the standard and nobody spends more than was allowed; a
      call for a vesting funder is that funder's message and needs its consent.
    - Parameters and genesis of x/evm: an exported genesis validates and loads back;
      lists compare spellings.  The fee checker: the price charged is the effective
      one and never above the offered one.
    - Upgrades: v20.4 succeeds whatever holders have done, takes at most what was
      issued and at least what is within reach; each step is done whole or not at
      all.
    - The airdrop tool: its proofs are accepted, and nothing but its entries is.
    - The index: consecutive numbers, the same answer by number and by hash; blocks
      are indexed once and in order however headers arrive.

    ** Fuel and bounds

    Loops over lists are folds or structural.  [collapseLoop] has the length of
    its list as fuel and consumes at least one element per round; [uvarint] has
    one more than the bit length of its number.  [BinSearch] has 64 rounds for a
    range of less than 2^63, which halves each time.  [cutAddresses] and
    [stripPrefixes] have the length of their string and shorten it every round.
    [levelsFrom] has the number of leaves, and every level is shorter than the one
    before.  Theorems that need a counter not to wrap say so in their hypotheses.

    ** Not modelled

    Events, telemetry, gas metering of store accesses, command lines, gRPC
    registration and the wire format of protobuf messages: not state of the
    modules.  The instructions of the EVM and their gas, signatures and RLP, the
    Cosmos SDK, IBC and Hyperlane: dependencies, parameters where they are called.
    Of x/evm the queries and traces; the precompiles over modules of the SDK
    (staking, distribution, governance, ICS-20, bank, slashing, evidence) and the
    stateless ones (bech32, p256), whose work is in their dependencies; the account
    migration of v20 and the opcode changes of extra EIPs; EIP-712 signatures; the
    JSON-RPC backends and the server, which are network I/O.  In the composition of
    [Chain] the bank runs the send hook of x/atox; that of x/energy owns a store of
    its own and is verified in the Energy files. *)

From stdpp Require Import gmap strings list fin_maps sorting.
From Stdlib Require Import ZArith Lia.

Declare Scope atoshi_scope.
Delimit Scope atoshi_scope with atoshi.
Open Scope Z_scope.
#[export] Set Default Goal Selector "!".

(** ** Errors and results

    A Go function returning [(T, error)] returns a [result T] here.  An error
    made with [errorsmod.Register(codespace, code, ...)] is [Registered]; it
    keeps its identity through [%w] wrapping, which is what [errors.Is] sees.
    An error made with [fmt.Errorf] is [Plain]. *)
Inductive error : Type :=
  | Registered (codespace : string) (code : Z)
  | Plain (what : string).

#[export] Instance error_eq_dec : EqDecision error.
Proof. solve_decision. Defined.

Inductive result (A : Type) : Type :=
  | Ok (a : A)
  | Err (e : error).
Arguments Ok {A} a.
Arguments Err {A} e.

#[export] Instance result_ret : MRet result := fun A a => Ok a.
#[export] Instance result_bind : MBind result :=
  fun A B f m => match m with Ok a => f a | Err e => Err e end.

Definition is_ok {A} (r : result A) : bool :=
  match r with Ok _ => true | Err _ => false end.

(** [guard! b else e; k]: an early [return ..., e] unless [b] holds. *)
Notation "'guard!' b 'else' e ; k" :=
  (if b then k else Err e)
  (at level 10, b at level 100, e at level 100, k at level 200,
   format "'[v' 'guard!'  b  'else'  e ;  '/' k ']'") : atoshi_scope.
Open Scope atoshi_scope.

Section result_lemmas.
Context {A B : Type}.

Lemma bind_Ok (m : result A) (f : A → result B) (b : B) :
  m ≫= f = Ok b ↔ ∃ a, m = Ok a ∧ f a = Ok b.
Proof. destruct m; cbn; split; naive_solver. Qed.

Lemma guard_Ok (c : bool) (e : error) (k : result B) (b : B) :
  (guard! c else e; k) = Ok b ↔ c = true ∧ k = Ok b.
Proof. destruct c; naive_solver. Qed.
End result_lemmas.

(** ** Addresses, coins, block context

    An account address is represented by its canonical bech32 string, which is
    how every store of the chain keys it. *)
Abbreviation addr := string (only parsing).
Abbreviation denom := string (only parsing).
Abbreviation coins := (list (string * Z)) (only parsing).

(** [sdk.Coins.AmountOf]: coins hold each denom at most once, so the sum of the
    matching amounts is the amount of the only match, and 0 without one. *)
Definition AmountOf (cs : coins) (d : denom) : Z :=
  foldr (fun '(d', x) acc => if decide (d' = d) then x + acc else acc) 0 cs.

(** [sdk.NewCoins(sdk.NewCoin(d, x))] for a non-negative amount: zero coins
    are dropped. *)
Definition NewCoins (d : denom) (x : Z) : coins :=
  if x =? 0 then [] else [(d, x)].

Definition coins_valid (cs : coins) : Prop := Forall (fun c => 0 <= c.2) cs.

Lemma AmountOf_NewCoins d x d' :
  AmountOf (NewCoins d x) d' = if decide (d = d') then x else 0.
Proof.
  unfold NewCoins. destruct (x =? 0) eqn:E; simpl.
  - case_decide; lia.
  - case_decide; lia.
Qed.

Lemma NewCoins_valid d x : 0 <= x → coins_valid (NewCoins d x).
Proof. intros. unfold NewCoins, coins_valid. destruct (x =? 0); repeat constructor; simpl; lia. Qed.

Lemma append_length (a b : string) : String.length (a +:+ b)%string = (String.length a + String.length b)%nat.
Proof. induction a; simpl; auto. Qed.
Lemma append_assoc (a b c : string) : ((a +:+ b) +:+ c = a +:+ (b +:+ c))%string.
Proof. induction a as [|x a IH]; [done|]. exact (f_equal (String x) IH). Qed.

Lemma AmountOf_cons n x cs d : AmountOf ((n, x) :: cs) d = (if decide (n = d) then x else 0) + AmountOf cs d.
Proof. unfold AmountOf. cbn [foldr]. case_decide; lia. Qed.

Lemma AmountOf_nonneg cs d : coins_valid cs → 0 <= AmountOf cs d.
Proof. induction 1 as [|[d' x] cs Hx _ IH]; simpl in *; [lia|]. case_decide; lia. Qed.

(** What a handler reads from [sdk.Context]. *)
Record Ctx := mkCtx {
  BlockTime : Z;   (** [ctx.BlockTime().Unix()], an int64 *)
  BlockHeight : Z; (** [ctx.BlockHeight()], an int64 *)
}.

(** ** Machine integers

    Go's [uint64] values are elements of [Z] in [0, 2^64); arithmetic that can
    wrap is written with [u64], conversions to [int64] with [i64]. *)
Definition maxU64 : Z := 2 ^ 64 - 1.
Definition u64 (x : Z) : Z := x mod 2 ^ 64.
Definition i64 (x : Z) : Z := (x + 2 ^ 63) mod 2 ^ 64 - 2 ^ 63.
Definition is_u64 (x : Z) : Prop := 0 <= x <= maxU64.
Definition is_i64 (x : Z) : Prop := - 2 ^ 63 <= x < 2 ^ 63.

(** [math.Int.IsUint64]. *)
Definition IsUint64 (x : Z) : bool := (0 <=? x) && (x <=? maxU64).

Lemma u64_small x : is_u64 x → u64 x = x.
Proof. unfold is_u64, maxU64, u64. intros. apply Z.mod_small. lia. Qed.

Lemma u64_range x : is_u64 (u64 x).
Proof. unfold is_u64, maxU64, u64. pose proof (Z.mod_pos_bound x (2^64)). lia. Qed.

Lemma i64_small x : is_i64 x → i64 x = x.
Proof. unfold is_i64, i64. intros. rewrite Z.mod_small; lia. Qed.

Lemma u64_i64 x : is_i64 x → i64 (u64 x) = x.
Proof.
  unfold is_i64, i64, u64. intros Hx.
  rewrite Zplus_mod_idemp_l, Z.mod_small; lia.
Qed.

(** ** Automation *)

(** Case analysis on the discriminee of a [match] or [if]. *)
Ltac destr_match :=
  match goal with
  | |- context [ match ?x with _ => _ end ] =>
      lazymatch x with context [ match _ with _ => _ end ] => fail | _ => destruct x eqn:? end
  | H : context [ match ?x with _ => _ end ] |- _ =>
      lazymatch x with context [ match _ with _ => _ end ] => fail | _ => destruct x eqn:? end
  end.

(** Turn boolean comparisons on [Z] in hypotheses into propositions. *)
Ltac boolP :=
  repeat match goal with
  | H : (_ && _) = true |- _ => apply andb_true_iff in H; destruct H
  | H : (_ || _) = false |- _ => apply orb_false_iff in H; destruct H
  | H : negb _ = true |- _ => apply negb_true_iff in H
  | H : negb _ = false |- _ => apply negb_false_iff in H
  | H : (_ <=? _) = true |- _ => apply Z.leb_le in H
  | H : (_ <=? _) = false |- _ => apply Z.leb_gt in H
  | H : (_ <? _) = true |- _ => apply Z.ltb_lt in H
  | H : (_ <? _) = false |- _ => apply Z.ltb_ge in H
  | H : (_ =? _) = true |- _ => apply Z.eqb_eq in H
  | H : (_ =? _) = false |- _ => apply Z.eqb_neq in H
  end.

(** Split a successful run of a handler into the runs of its steps. *)
Ltac inv_ok :=
  repeat match goal with
  | H : Ok ?x = Ok ?x |- _ => clear H
  | H : Ok _ = Ok _ |- _ => injection H; clear H; intros; subst
  | H : Err _ = Ok _ |- _ => discriminate H
  | H : Ok _ = Err _ |- _ => discriminate H
  | H : (_ ≫= _) = Ok _ |- _ =>
      apply bind_Ok in H; destruct H as (? & ? & H)
  | H : (if ?b then Err _ else _) = Ok _ |- _ =>
      destruct b eqn:?; [discriminate H|]
  | H : (if ?b then _ else Err _) = Ok _ |- _ =>
      destruct b eqn:?; [|discriminate H]
  | H : (_, _) = (_, _) |- _ => injection H; clear H; intros; subst
  | H : context [let '(_, _) := ?p in _] |- _ =>
      is_var p; destruct p
  end.

Create HintDb atoshi discriminated.
#[export] Hint Resolve NewCoins_valid AmountOf_nonneg u64_range : atoshi.

(** ** Sums over finite maps *)
Section map_sum.
Context {K : Type} `{Countable K} {V : Type}.
Implicit Types m : gmap K V.

Definition map_sum (f : V → Z) m : Z :=
  map_fold (fun _ v acc => f v + acc) 0 m.

Lemma map_sum_empty f : map_sum f ∅ = 0.
Proof. apply map_fold_empty. Qed.

Lemma map_sum_insert_new f m k v :
  m !! k = None → map_sum f (<[k:=v]> m) = f v + map_sum f m.
Proof. intros Hk. unfold map_sum. rewrite map_fold_insert_L; [done|intros; lia|done]. Qed.

Lemma map_sum_delete f m k v :
  m !! k = Some v → map_sum f m = f v + map_sum f (delete k m).
Proof. intros Hk. unfold map_sum. rewrite (map_fold_delete_L _ _ k v m); [done|intros; lia|done]. Qed.

Lemma map_sum_insert f m k v :
  map_sum f (<[k:=v]> m) = map_sum f m - default 0 (f <$> m !! k) + f v.
Proof.
  destruct (m !! k) as [w|] eqn:E; simpl.
  - rewrite <- insert_delete_eq, map_sum_insert_new by apply lookup_delete_eq.
    rewrite (map_sum_delete f m k w E). lia.
  - rewrite map_sum_insert_new by done. lia.
Qed.

Lemma map_sum_le f g m :
  (∀ k v, m !! k = Some v → f v <= g v) → map_sum f m <= map_sum g m.
Proof.
  induction m as [|k v m Hk IH] using map_ind; intros Hfg.
  - rewrite !map_sum_empty. lia.
  - rewrite !map_sum_insert_new by done.
    specialize (Hfg k v (lookup_insert_eq _ _ _)) as Hv.
    assert (map_sum f m <= map_sum g m); [|lia].
    apply IH. intros k' v' Hk'. apply (Hfg k'). rewrite lookup_insert_ne; [done|congruence].
Qed.

Lemma map_sum_const0 m : map_sum (fun _ => 0) m = 0.
Proof.
  induction m as [|k v m Hk IH] using map_ind; [by rewrite map_sum_empty|].
  rewrite map_sum_insert_new by done. lia.
Qed.

Lemma map_sum_nonneg f m :
  (∀ k v, m !! k = Some v → 0 <= f v) → 0 <= map_sum f m.
Proof. intros. rewrite <- (map_sum_const0 m). by apply map_sum_le. Qed.

Lemma map_sum_lookup_le f m k v :
  (∀ k v, m !! k = Some v → 0 <= f v) → m !! k = Some v → f v <= map_sum f m.
Proof.
  intros Hf Hk. rewrite (map_sum_delete f m k v Hk).
  assert (0 <= map_sum f (delete k m)); [|lia].
  apply map_sum_nonneg. intros k' v' [_ ?]%lookup_delete_Some. eauto.
Qed.

Lemma map_sum_ext f g m :
  (∀ k v, m !! k = Some v → f v = g v) → map_sum f m = map_sum g m.
Proof. intros Hfg. apply Z.le_antisymm; apply map_sum_le; intros; rewrite (Hfg _ _ H0); lia. Qed.

Lemma map_sum_add f g m : map_sum (fun v => f v + g v) m = map_sum f m + map_sum g m.
Proof.
  induction m as [|k v m Hk IH] using map_ind; [by rewrite !map_sum_empty|].
  rewrite !map_sum_insert_new by done. lia.
Qed.
End map_sum.

Definition sumZ (l : list Z) : Z := foldr Z.add 0 l.

Lemma sumZ_app l1 l2 : sumZ (l1 ++ l2) = sumZ l1 + sumZ l2.
Proof. induction l1; simpl; lia. Qed.

(** ** Sums along lists of keys *)
Lemma sumZ_perm l1 l2 : l1 ≡ₚ l2 → sumZ l1 = sumZ l2.
Proof. induction 1; simpl; lia. Qed.

Lemma sumZ_nonneg l : Forall (fun x => 0 <= x) l → 0 <= sumZ l.
Proof. induction 1; simpl; lia. Qed.

Lemma sumZ_omap_sum {V} (f : V → Z) (ids : list Z) : ∀ (m : gmap Z V),
  NoDup ids → (∀ k v, m !! k = Some v → k ∉ ids → f v = 0) →
  sumZ (map f (omap (fun k => m !! k) ids)) = map_sum f m.
Proof.
induction ids as [|k ids IH]; intros m Hnd H.
- simpl. transitivity (map_sum (fun _ : V => 0) m); [by rewrite map_sum_const0|].
  symmetry. apply map_sum_ext. intros k v Hk. apply (H k v Hk), not_elem_of_nil.
- apply NoDup_cons in Hnd as [Hk Hnd].
  assert (Hdel : omap (λ k0, delete k m !! k0) ids = omap (λ k0, m !! k0) ids).
  { apply list_omap_ext. apply Forall2_same_length_lookup_2; [done|].
    intros i x y Hx Hy. rewrite Hx in Hy. injection Hy as <-. rewrite lookup_delete_ne; [done|].
    intros ->. by apply Hk, list_elem_of_lookup_2 with i. }
  assert (Hrec : sumZ (map f (omap (λ k0, m !! k0) ids)) = map_sum f (delete k m)).
  { rewrite <- Hdel. apply IH; [done|]. intros k' v [Hne Hv]%lookup_delete_Some Hn.
    apply (H k' v Hv). rewrite elem_of_cons. naive_solver. }
  assert (E0 : omap (λ k0, m !! k0) (k :: ids) = match m !! k with
    Some v => v :: omap (λ k0, m !! k0) ids | None => omap (λ k0, m !! k0) ids end) by done.
  rewrite E0. destruct (m !! k) as [v|] eqn:E.
  + cbn [map sumZ foldr]. fold (sumZ (map f (omap (λ k0, m !! k0) ids))). rewrite Hrec, (map_sum_delete f m k v E). done.
  + rewrite Hrec, delete_id by done. done.
Qed.

Lemma map_sum_fmap {V W} (f : W → Z) (g : V → W) (m : gmap Z V) :
  map_sum f (g <$> m) = map_sum (fun v => f (g v)) m.
Proof.
induction m as [|k v m Hk IH] using map_ind; [by rewrite fmap_empty, !map_sum_empty|].
rewrite fmap_insert, !map_sum_insert_new; [by rewrite IH|done|by rewrite lookup_fmap, Hk].
Qed.

(** ** Store keys

    Prefix iteration over a KV store visits keys in byte order. *)
Definition string_le (a b : string) : Prop := String.leb a b = true.
#[export] Instance string_le_dec : RelDecision string_le.
Proof. intros a b. unfold string_le. apply _. Defined.

Lemma string_le_spec a b : string_le a b ↔ String.le a b.
Proof. unfold string_le, String.le. symmetry. apply Is_true_true. Qed.
#[export] Instance string_le_trans : Transitive string_le.
Proof. intros a b c. rewrite !string_le_spec. by apply transitivity. Qed.
#[export] Instance string_le_antisym : AntiSymm (=) string_le.
Proof. intros a b. rewrite !string_le_spec. apply anti_symm, _. Qed.
#[export] Instance string_le_total : Total string_le.
Proof. intros a b. rewrite !string_le_spec. apply total, _. Qed.
