(* ===== verification/SdkMath.v ===== *)
(** * cosmossdk.io/math: the decimal type the chain computes with

    The package is a dependency, not part of this repository.  A [LegacyDec] is
    a fixed-point number with 18 decimals; it is represented by its value scaled
    by 10^18, so addition, subtraction, comparison, [MulInt], [TruncateInt] and
    [Ceil] have one possible meaning on the representation and are defined here.
    [Mul], [Quo] and [QuoInt] have to round: they are operations of the class
    [LegacyDecOps], and the only thing the development assumes of them is
    [LegacyDecLaws], that the result is off by less than one unit in the
    last (18th) place.  [bankers_dec] shows the laws can be met. *)

From stdpp Require Import base.
From Stdlib Require Import ZArith Lia.
From S2P Require Import Prelude.

Open Scope Z_scope.

(** Scaled representation of a [LegacyDec]. *)
Abbreviation Dec := Z (only parsing).

(** 10^18, the precision of [LegacyDec] and the scale of its representation. *)
Definition precision : Z := 10 ^ 18.

Lemma precision_pos : 0 < precision.
Proof. unfold precision. lia. Qed.
#[export] Hint Resolve precision_pos : atoshi.

(** [LegacyNewDec], [LegacyNewDecFromInt]. *)
Definition NewDec (n : Z) : Dec := n * precision.
Definition OneDec : Dec := precision.
Definition ZeroDec : Dec := 0.
(** [LegacyNewDecWithPrec(i, prec)]: i * 10^-prec. *)
Definition NewDecWithPrec (i prec : Z) : Dec := i * 10 ^ (18 - prec).

(** [MulInt], [MulInt64]: exact. *)
Definition MulInt (d : Dec) (n : Z) : Dec := d * n.
(** [TruncateInt]: towards zero. *)
Definition TruncateInt (d : Dec) : Z := Z.quot d precision.
(** [Ceil]: the smallest integral decimal not below [d]. *)
Definition Ceil (d : Dec) : Dec := - (- d / precision) * precision.

Class LegacyDecOps := {
  Dec_Mul : Dec → Dec → Dec;
  Dec_Quo : Dec → Dec → Dec;
  Dec_QuoInt : Dec → Z → Dec;
}.

Class LegacyDecLaws (D : LegacyDecOps) : Prop := {
  Dec_Mul_ulp a b : 0 <= a → 0 <= b → Z.abs (Dec_Mul a b * precision - a * b) < precision;
  Dec_Quo_ulp a b : 0 <= a → 0 < b → Z.abs (Dec_Quo a b * b - a * precision) < b;
  Dec_QuoInt_ulp a n : 0 <= a → 0 < n → Z.abs (Dec_QuoInt a n * n - a) < n;
}.

Section dec_lemmas.
Context {D : LegacyDecOps} {DL : LegacyDecLaws D}.

Lemma Dec_Quo_nonneg a b : 0 <= a → 0 < b → 0 <= Dec_Quo a b.
Proof. intros Ha Hb. pose proof (Dec_Quo_ulp a b Ha Hb). pose proof precision_pos. nia. Qed.

Lemma Dec_QuoInt_nonneg a n : 0 <= a → 0 < n → 0 <= Dec_QuoInt a n.
Proof. intros Ha Hn. pose proof (Dec_QuoInt_ulp a n Ha Hn). nia. Qed.

Lemma Dec_Mul_nonneg a b : 0 <= a → 0 <= b → 0 <= Dec_Mul a b.
Proof. intros Ha Hb. pose proof (Dec_Mul_ulp a b Ha Hb). pose proof precision_pos. nia. Qed.

(** Exact quotients are returned exactly. *)
Lemma Dec_Mul_NewDec_r p d : 0 <= p → 0 <= d → Dec_Mul p (NewDec d) = p * d.
Proof.
intros Hp Hd. unfold NewDec. pose proof (Dec_Mul_ulp p (d * precision) Hp ltac:(pose proof precision_pos; nia)) as H.
replace (Dec_Mul p (d * precision) * precision - p * (d * precision))
  with ((Dec_Mul p (d * precision) - p * d) * precision) in H by ring. pose proof precision_pos. nia.
Qed.

Lemma Dec_Mul_NewDec_l n m : 0 <= n → 0 <= m → Dec_Mul (NewDec n) m = n * m.
Proof.
intros Hn Hm. pose proof precision_pos as Hp. pose proof (Dec_Mul_ulp (NewDec n) m ltac:(unfold NewDec; nia) Hm) as Hu.
unfold NewDec in *. replace (Dec_Mul (n * precision) m * precision - n * precision * m)
  with ((Dec_Mul (n * precision) m - n * m) * precision) in Hu by ring. nia.
Qed.

Lemma Dec_Quo_exact q b : 0 <= q → 0 < b → Dec_Quo (q * b) b = q * precision.
Proof.
intros Hq Hb. pose proof (Dec_Quo_ulp (q * b) b ltac:(nia) Hb) as H.
replace (Dec_Quo (q * b) b * b - q * b * precision)
  with ((Dec_Quo (q * b) b - q * precision) * b) in H by ring.
nia.
Qed.
End dec_lemmas.

Lemma TruncateInt_div d : 0 <= d → TruncateInt d = d / precision.
Proof. intros. unfold TruncateInt. apply Z.quot_div_nonneg; [lia|apply precision_pos]. Qed.

Lemma TruncateInt_NewDec n : TruncateInt (NewDec n) = n.
Proof. unfold TruncateInt, NewDec. apply Z.quot_mul. pose proof precision_pos; lia. Qed.

(** [Ceil] then [TruncateInt]: the ceiling of the rational value. *)
Lemma TruncateInt_Ceil d : TruncateInt (Ceil d) = - (- d / precision).
Proof. unfold Ceil. apply (TruncateInt_NewDec (- (- d / precision))). Qed.

Lemma ceil_spec d : let c := TruncateInt (Ceil d) in (c - 1) * precision < d <= c * precision.
Proof.
simpl. rewrite TruncateInt_Ceil. pose proof precision_pos.
pose proof (Z.div_mod (- d) precision ltac:(lia)).
pose proof (Z.mod_pos_bound (- d) precision ltac:(lia)). nia.
Qed.

(** ** A concrete implementation

    Round half to even at the 18th place, after a truncating division carried
    to 36 places. *)
Definition round_half_even (x p : Z) : Z :=
  let q := x / p in
  match (2 * (x mod p) ?= p) with
  | Lt => q
  | Gt => q + 1
  | Eq => if Z.even q then q else q + 1
  end.

Definition bankers_dec : LegacyDecOps := {|
  Dec_Mul a b := round_half_even (a * b) precision;
  Dec_Quo a b := round_half_even (a * precision * precision / b) precision;
  Dec_QuoInt a n := Z.quot a n;
|}.

Lemma round_half_even_spec x p :
  0 < p → 2 * Z.abs (round_half_even x p * p - x) <= p.
Proof.
intros Hp. unfold round_half_even.
pose proof (Z.div_mod x p ltac:(lia)). pose proof (Z.mod_pos_bound x p Hp).
destruct (2 * (x mod p) ?= p) eqn:E.
- apply Z.compare_eq in E. destruct (Z.even _); nia.
- rewrite Z.compare_lt_iff in E. nia.
- rewrite Z.compare_gt_iff in E. nia.
Qed.

Lemma bankers_dec_laws : LegacyDecLaws bankers_dec.
Proof.
split; simpl.
- intros a b Ha Hb. pose proof (round_half_even_spec (a * b) precision precision_pos).
  unfold precision in *. lia.
- intros a b Ha Hb. pose proof precision_pos as Hp.
  set (t := a * precision * precision / b).
  pose proof (round_half_even_spec t precision Hp) as Hr.
  set (q := round_half_even t precision) in *.
  pose proof (Z.div_mod (a * precision * precision) b ltac:(lia)) as Hd. fold t in Hd.
  pose proof (Z.mod_pos_bound (a * precision * precision) b Hb) as Hm.
  set (m := (a * precision * precision) mod b) in *.
  assert (2 * Z.abs ((q * b - a * precision) * precision) <= precision * b + 2 * m).
  { replace ((q * b - a * precision) * precision) with ((q * precision - t) * b - m) by lia. nia. }
  assert (precision > 4) by (unfold precision; lia). nia.
- intros a n Ha Hn. rewrite Z.quot_div_nonneg by lia.
  pose proof (Z.div_mod a n ltac:(lia)). pose proof (Z.mod_pos_bound a n Hn). nia.
Qed.
