(* ===== verification/Bank.v ===== *)
(** * x/bank as its clients see it

    The bank keeper of the (forked) Cosmos SDK is a dependency.  [BankOps] lists
    the methods the modules of this repository call, [BankLaws] what they rely
    on.  A send runs the chain of send restrictions between the debit of the
    sender and the credit of the receiver, in the order documented in
    src/x/energy/keeper/send_restriction.go (lines 92-102).  The [ledger]
    instance at the end meets the laws and lets theorems be evaluated. *)

From stdpp Require Import gmap strings list.
From Stdlib Require Import ZArith Lia.
From S2P Require Import Prelude.

Open Scope Z_scope.

(** The state a send touches: the bank's, and the one [S] the restrictions own. *)
Definition Restriction (B S : Type) : Type :=
  B * S → addr → addr → coins → result addr * (B * S).

Class BankOps (B : Type) := {
  GetBalance : B → addr → denom → Z;
  GetSupply : B → denom → Z;
  ModuleAddress : string → addr;
  BlockedAddr : addr → bool;
  subUnlockedCoins : B → addr → coins → result B;
  addCoins : B → addr → coins → result B;
  MintCoins : B → string → coins → result B;
  BurnCoins : B → string → coins → result B;
  SendCoins {S} : Restriction B S → B * S → addr → addr → coins → result unit * (B * S);
  SendCoinsFromAccountToModule {S} :
    Restriction B S → B * S → addr → string → coins → result unit * (B * S);
  SendCoinsFromModuleToAccount {S} :
    Restriction B S → B * S → string → addr → coins → result unit * (B * S);
  SendCoinsFromModuleToModule {S} :
    Restriction B S → B * S → string → string → coins → result unit * (B * S);
}.

(** Change of one account's coins: [cs] times [sign], at address [a] only. *)
Definition at_addr (a a' : addr) (x : Z) : Z := if decide (a' = a) then x else 0.

Lemma at_addr_eq a x : at_addr a a x = x.
Proof. unfold at_addr. by rewrite decide_True. Qed.
Lemma at_addr_ne a a' x : a' ≠ a → at_addr a a' x = 0.
Proof. intros. unfold at_addr. by rewrite decide_False. Qed.

Class BankLaws {B} (ops : BankOps B) : Prop := {
  balance_nonneg b a d : 0 <= GetBalance b a d;
  ModuleAddress_inj m m' : ModuleAddress m = ModuleAddress m' → m = m';
  sub_spec b a cs b' :
    coins_valid cs → subUnlockedCoins b a cs = Ok b' →
    (∀ d, AmountOf cs d <= GetBalance b a d) ∧
    (∀ a' d, GetBalance b' a' d = GetBalance b a' d - at_addr a a' (AmountOf cs d)) ∧
    (∀ d, GetSupply b' d = GetSupply b d);
  (** module accounts have no vesting locks *)
  sub_module_ok b m cs :
    coins_valid cs → (∀ d, AmountOf cs d <= GetBalance b (ModuleAddress m) d) →
    ∃ b', subUnlockedCoins b (ModuleAddress m) cs = Ok b';
  add_spec b a cs b' :
    coins_valid cs → addCoins b a cs = Ok b' →
    (∀ a' d, GetBalance b' a' d = GetBalance b a' d + at_addr a a' (AmountOf cs d)) ∧
    (∀ d, GetSupply b' d = GetSupply b d);
  add_ok b a cs : coins_valid cs → ∃ b', addCoins b a cs = Ok b';
  mint_spec b m cs b' :
    coins_valid cs → MintCoins b m cs = Ok b' →
    (∀ a' d, GetBalance b' a' d = GetBalance b a' d + at_addr (ModuleAddress m) a' (AmountOf cs d)) ∧
    (∀ d, GetSupply b' d = GetSupply b d + AmountOf cs d);
  burn_spec b m cs b' :
    coins_valid cs → BurnCoins b m cs = Ok b' →
    (∀ d, AmountOf cs d <= GetBalance b (ModuleAddress m) d) ∧
    (∀ a' d, GetBalance b' a' d = GetBalance b a' d - at_addr (ModuleAddress m) a' (AmountOf cs d)) ∧
    (∀ d, GetSupply b' d = GetSupply b d - AmountOf cs d);
  send_spec {S} (r : Restriction B S) b s from to cs w' :
    SendCoins r (b, s) from to cs = (Ok tt, w') ↔
    ∃ b1 to' b2 s2 b3,
      subUnlockedCoins b from cs = Ok b1 ∧
      r (b1, s) from to cs = (Ok to', (b2, s2)) ∧
      addCoins b2 to' cs = Ok b3 ∧ w' = (b3, s2);
  (** a send fails at the debit, leaving nothing behind, or in a restriction *)
  send_fail {S} (r : Restriction B S) b s from to cs e w' :
    coins_valid cs → SendCoins r (b, s) from to cs = (Err e, w') →
    w' = (b, s) ∨ ∃ b1, subUnlockedCoins b from cs = Ok b1 ∧ r (b1, s) from to cs = (Err e, w');
  send_to_module {S} (r : Restriction B S) w from m cs :
    SendCoinsFromAccountToModule r w from m cs = SendCoins r w from (ModuleAddress m) cs;
  send_from_module {S} (r : Restriction B S) w m to cs :
    BlockedAddr to = false →
    SendCoinsFromModuleToAccount r w m to cs = SendCoins r w (ModuleAddress m) to cs;
  (** a blocked receiver is refused before anything moves *)
  send_from_module_blocked {S} (r : Restriction B S) w m to cs :
    BlockedAddr to = true → ∃ e, SendCoinsFromModuleToAccount r w m to cs = (Err e, w);
  send_module_module {S} (r : Restriction B S) w m m' cs :
    SendCoinsFromModuleToModule r w m m' cs = SendCoins r w (ModuleAddress m) (ModuleAddress m') cs;
}.

(** ** A reference ledger *)
Record ledger := mkLedger {
  bal : gmap (string * string) N;
  sup : gmap string N;
}.

Definition l_balance (b : ledger) (a : addr) (d : denom) : Z :=
  Z.of_N (default 0%N (bal b !! (a, d))).
Definition l_supply (b : ledger) (d : denom) : Z := Z.of_N (default 0%N (sup b !! d)).
Definition l_set (b : ledger) (a : addr) (d : denom) (x : Z) : ledger :=
  mkLedger (<[(a, d) := Z.to_N x]> (bal b)) (sup b).
Definition l_set_supply (b : ledger) (d : denom) (x : Z) : ledger :=
  mkLedger (bal b) (<[d := Z.to_N x]> (sup b)).

Fixpoint l_sub (b : ledger) (a : addr) (cs : coins) : result ledger :=
  match cs with
  | [] => Ok b
  | (d, x) :: cs =>
      guard! (0 <=? x) && (x <=? l_balance b a d) else Plain "insufficient funds";
      l_sub (l_set b a d (l_balance b a d - x)) a cs
  end.

Fixpoint l_add (b : ledger) (a : addr) (cs : coins) : result ledger :=
  match cs with
  | [] => Ok b
  | (d, x) :: cs =>
      guard! 0 <=? x else Plain "invalid coins";
      l_add (l_set b a d (l_balance b a d + x)) a cs
  end.

Fixpoint l_supply_change (sign : Z) (b : ledger) (cs : coins) : result ledger :=
  match cs with
  | [] => Ok b
  | (d, x) :: cs =>
      guard! 0 <=? l_supply b d + sign * x else Plain "negative supply";
      l_supply_change sign (l_set_supply b d (l_supply b d + sign * x)) cs
  end.

Definition l_module (m : string) : addr := ("module/" +:+ m)%string.
Definition l_blocked (a : addr) : bool := String.prefix "module/" a.

Definition l_send {S} (r : Restriction ledger S) (w : ledger * S) (from to : addr) (cs : coins)
    : result unit * (ledger * S) :=
  match l_sub w.1 from cs with
  | Err e => (Err e, w)
  | Ok b1 =>
      match r (b1, w.2) from to cs with
      | (Err e, w2) => (Err e, w2)
      | (Ok to', w2) =>
          match l_add w2.1 to' cs with
          | Err e => (Err e, w2)
          | Ok b3 => (Ok tt, (b3, w2.2))
          end
      end
  end.

#[export] Instance ledger_ops : BankOps ledger := {
  GetBalance := l_balance;
  GetSupply := l_supply;
  ModuleAddress := l_module;
  BlockedAddr := l_blocked;
  subUnlockedCoins := l_sub;
  addCoins := l_add;
  MintCoins b m cs := b' ← l_add b (l_module m) cs; l_supply_change 1 b' cs;
  BurnCoins b m cs := b' ← l_sub b (l_module m) cs; l_supply_change (-1) b' cs;
  SendCoins := @l_send;
  SendCoinsFromAccountToModule S r w from m cs := l_send r w from (l_module m) cs;
  SendCoinsFromModuleToAccount S r w m to cs :=
    if l_blocked to then (Err (Plain "blocked"), w) else l_send r w (l_module m) to cs;
  SendCoinsFromModuleToModule S r w m m' cs := l_send r w (l_module m) (l_module m') cs;
}.

Lemma l_balance_nonneg b a d : 0 <= l_balance b a d.
Proof. unfold l_balance. lia. Qed.

Lemma l_balance_set b a d x a' d' :
  0 <= x → l_balance (l_set b a d x) a' d' = if decide (a' = a ∧ d' = d) then x else l_balance b a' d'.
Proof.
intros Hx. unfold l_balance, l_set; simpl. case_decide as E.
- destruct E as [-> ->]. rewrite lookup_insert_eq. simpl. lia.
- rewrite lookup_insert_ne; [done|]. intros [= -> ->]. by apply E.
Qed.

Lemma l_supply_set b d x d' :
  0 <= x → l_supply (l_set_supply b d x) d' = if decide (d' = d) then x else l_supply b d'.
Proof.
intros Hx. unfold l_supply, l_set_supply; simpl. case_decide as E.
- subst. rewrite lookup_insert_eq. simpl. lia.
- by rewrite lookup_insert_ne.
Qed.

Lemma l_sub_spec cs : ∀ b a b', l_sub b a cs = Ok b' →
  (∀ d, AmountOf cs d <= l_balance b a d) ∧
  (∀ a' d, l_balance b' a' d = l_balance b a' d - at_addr a a' (AmountOf cs d)) ∧
  (∀ d, l_supply b' d = l_supply b d).
Proof.
unfold at_addr. induction cs as [|[d x] cs IH]; simpl; intros b a b' H.
- injection H as <-. split_and!; intros; [apply l_balance_nonneg|case_decide; lia|done].
- inv_ok. boolP. pose proof (l_balance_nonneg b a d).
  apply IH in H as (E1 & E2 & E3). split_and!.
  + intros d'. specialize (E1 d'). rewrite l_balance_set in E1 by lia.
    repeat case_decide; naive_solver lia.
  + intros a' d'. rewrite E2, l_balance_set by lia. repeat case_decide; naive_solver lia.
  + intros d'. by rewrite E3.
Qed.

Lemma l_sub_ok cs : ∀ b a,
  coins_valid cs → (∀ d, AmountOf cs d <= l_balance b a d) → ∃ b', l_sub b a cs = Ok b'.
Proof.
induction cs as [|[d x] cs IH]; simpl; intros b a Hv H; [by eexists|].
inversion_clear Hv as [|? ? Hx Hv']; simpl in Hx.
assert (Hd := H d). rewrite decide_True in Hd by done.
pose proof (AmountOf_nonneg cs d Hv').
replace ((0 <=? x) && (x <=? l_balance b a d)) with true by (symmetry; apply andb_true_iff; lia).
apply IH; [done|]. intros d'. rewrite l_balance_set by lia.
specialize (H d'). repeat case_decide; naive_solver lia.
Qed.

Lemma l_add_spec cs : ∀ b a b', l_add b a cs = Ok b' →
  (∀ a' d, l_balance b' a' d = l_balance b a' d + at_addr a a' (AmountOf cs d)) ∧
  (∀ d, l_supply b' d = l_supply b d).
Proof.
unfold at_addr. induction cs as [|[d x] cs IH]; simpl; intros b a b' H.
- injection H as <-. split; intros; [case_decide; lia|done].
- inv_ok. boolP. pose proof (l_balance_nonneg b a d).
  apply IH in H as (E2 & E3). split; [|intros; by rewrite E3].
  intros a' d'. rewrite E2, l_balance_set by lia. repeat case_decide; naive_solver lia.
Qed.

Lemma l_add_ok cs : ∀ b a, coins_valid cs → ∃ b', l_add b a cs = Ok b'.
Proof.
induction cs as [|[d x] cs IH]; simpl; intros b a Hv; [by eexists|].
inversion_clear Hv as [|? ? Hx Hv']; simpl in Hx.
rewrite (proj2 (Z.leb_le 0 x)) by lia. by apply IH.
Qed.

Lemma l_supply_change_spec sign cs : ∀ b b', l_supply_change sign b cs = Ok b' →
  (∀ a d, l_balance b' a d = l_balance b a d) ∧
  (∀ d, l_supply b' d = l_supply b d + sign * AmountOf cs d).
Proof.
induction cs as [|[d x] cs IH]; simpl; intros b b' H.
- injection H as <-. split; intros; lia.
- inv_ok. boolP. apply IH in H as [E1 E2]. split; [done|].
  intros d'. rewrite E2, l_supply_set by lia. repeat case_decide; subst; try lia; done.
Qed.

#[export] Instance ledger_laws : BankLaws ledger_ops.
Proof.
split; simpl.
- apply l_balance_nonneg.
- intros m m' H. by apply (inj (String.append "module/")) in H.
- intros b a cs b' _. apply l_sub_spec.
- intros b m cs. apply l_sub_ok.
- intros b a cs b' _. apply l_add_spec.
- intros b a cs. apply l_add_ok.
- intros b m cs b' _ H. inv_ok. apply l_add_spec in H0 as [A1 A2].
  apply l_supply_change_spec in H as [B1 B2]. split; intros; rewrite ?B1, ?B2, ?A1, ?A2; lia.
- intros b m cs b' _ H. inv_ok. apply l_sub_spec in H0 as (A0 & A1 & A2).
  apply l_supply_change_spec in H as [B1 B2].
  split_and!; intros; rewrite ?B1, ?B2, ?A1, ?A2; try lia. apply A0.
- intros S r b s from to cs w'. unfold l_send; simpl. split.
  + intros H. repeat case_match; simplify_eq. destruct p; by eauto 10.
  + intros (b1 & to' & b2 & s2 & b3 & -> & -> & E & ->). simpl. by rewrite E.
- intros S r b s from to cs e w' Hv. unfold l_send; simpl. destruct (l_sub b from cs) as [b1|]; [|intros [= _ <-]; by left].
  destruct (r (b1, s) from to cs) as [[to'|] w2] eqn:E; [|intros [= <- <-]; right; eauto].
  destruct (l_add_ok cs w2.1 to' Hv) as [b3 ->]. done.
- done.
- intros S r w m to cs ->. done.
- intros S r w m to cs ->. eauto.
- done.
Qed.

(** ** Consequences of the laws *)
Section bank_lemmas.
Context {B : Type} {ops : BankOps B} {laws : BankLaws ops}.

(** A send through restrictions that leave the bank alone moves the coins. *)
Lemma send_balances {S} (r : Restriction B S) b s from to cs b' s' :
  coins_valid cs →
  (∀ w from to cs x w', r w from to cs = (Ok x, w') → x = to ∧ w'.1 = w.1) →
  SendCoins r (b, s) from to cs = (Ok tt, (b', s')) →
  (∀ d, AmountOf cs d <= GetBalance b from d) ∧
  (∀ a d, GetBalance b' a d =
    GetBalance b a d - at_addr from a (AmountOf cs d) + at_addr to a (AmountOf cs d)) ∧
  (∀ d, GetSupply b' d = GetSupply b d).
Proof.
intros Hv Hr H. apply send_spec in H as (b1 & to' & b2 & s2 & b3 & Hs & Hr' & Ha & [= <- <-]).
apply Hr in Hr' as [-> Hb]. simpl in Hb. subst b2.
apply sub_spec in Hs as (H1 & H2 & H3); [|done].
apply add_spec in Ha as (H4 & H5); [|done].
split_and!; [done| |]; intros; by rewrite ?H4, ?H2, ?H5, ?H3.
Qed.
End bank_lemmas.
