(* ===== verification/EnergyTypes.v ===== *)
(** * x/energy/types: parameters, records, saturating arithmetic, capacity

    Models src/x/energy/types/helpers.go, keys.go, errors.go, the records of
    energy.pb.go and the saturating helpers of keeper/settle.go.  A [math.Int]
    or [LegacyDec] field of [Params] that [Validate] tests for nil is an
    [option]; the integer fields of stored accounts and delegations are [Z],
    with nil read as 0 as every use of them does. *)

From stdpp Require Import gmap strings list.
From Stdlib Require Import ZArith Lia.
From S2P Require Import Prelude SdkMath.

Open Scope Z_scope.

Definition EnergyModule : string := "energy".
Definition LockedEnergyPoolName : string := "energy_locked_pool".
Definition DefaultDelegationDurationSeconds : Z := 24 * 60 * 60.
Definition AtoxBaseDenom : denom := "aatox".

Definition ErrInsufficientEnergy := Registered EnergyModule 2.
Definition ErrInsufficientBalance := Registered EnergyModule 3.
Definition ErrInvalidAmount := Registered EnergyModule 4.
Definition ErrInvalidDuration := Registered EnergyModule 5.
Definition ErrDelegationNotFound := Registered EnergyModule 6.
Definition ErrUnauthorized := Registered EnergyModule 7.
Definition ErrEnergyDisabled := Registered EnergyModule 8.
Definition ErrSelfDelegation := Registered EnergyModule 9.

Record Params := mkParams {
  EnergyEnabled : bool;
  TxEnergyHoldingThreshold : option Z;
  TxEnergyPerThreshold : Z;
  TxEnergyMaxAccrueWindow : Z;
  DeployHoldingThreshold : option Z;
  DeployEnergyCapacity : Z;
  DeployRecoverDays : Z;
  InsufficientGasPrice : option Dec;
  SubsidizedMsgTypeUrls : list string;
  PrivacyRelayerWhitelist : list string;
  pDefaultDelegationDurationSeconds : Z;
  MaxDelegationDurationSeconds : Z;
}.

Definition atosUnit : Z := 10 ^ 18.

Definition DefaultParams : Params := {|
  EnergyEnabled := true;
  TxEnergyHoldingThreshold := Some (atosUnit * 30000);
  TxEnergyPerThreshold := 50000;
  TxEnergyMaxAccrueWindow := 86400;
  DeployHoldingThreshold := Some (atosUnit * 1000000);
  DeployEnergyCapacity := 800000;
  DeployRecoverDays := 10;
  InsufficientGasPrice := Some (NewDecWithPrec 21 4);
  SubsidizedMsgTypeUrls :=
    [ "/atoshi.tokenomics.v1.MsgClaimMigrationTokens";
      "/atoshi.oracle.v1.MsgReportPrice";
      "/atoshi.energy.v1.MsgDelegateEnergy";
      "/atoshi.energy.v1.MsgUndelegateEnergy" ]%string;
  PrivacyRelayerWhitelist := [];
  pDefaultDelegationDurationSeconds := 86400;
  MaxDelegationDurationSeconds := 86400;
|}.

(** [x.IsNil() || !x.IsPositive()] is the negation of this. *)
Definition opt_positive (x : option Z) : bool :=
  match x with Some n => 0 <? n | None => false end.

Section validate.
(** [sdk.AccAddressFromBech32], returning the canonical form of the address. *)
Variable AccAddressFromBech32 : string → option addr.

Definition bech32_ok (a : string) : bool := bool_decide (is_Some (AccAddressFromBech32 a)).

Definition Validate (p : Params) : result unit :=
  guard! opt_positive (TxEnergyHoldingThreshold p) else Plain "tx_energy_holding_threshold";
  guard! negb (TxEnergyPerThreshold p =? 0) else Plain "tx_energy_per_threshold";
  guard! 0 <? TxEnergyMaxAccrueWindow p else Plain "tx_energy_max_accrue_window";
  guard! opt_positive (DeployHoldingThreshold p) else Plain "deploy_holding_threshold";
  guard! negb (DeployEnergyCapacity p =? 0) else Plain "deploy_energy_capacity";
  guard! 0 <? DeployRecoverDays p else Plain "deploy_recover_days";
  guard! match InsufficientGasPrice p with Some g => 0 <=? g | None => false end
    else Plain "insufficient_gas_price";
  guard! forallb bech32_ok (PrivacyRelayerWhitelist p) else Plain "privacy relayer address";
  guard! 0 <=? pDefaultDelegationDurationSeconds p else Plain "default_delegation_duration_seconds";
  guard! 0 <=? MaxDelegationDurationSeconds p else Plain "max_delegation_duration_seconds";
  guard! negb ((0 <? MaxDelegationDurationSeconds p) &&
               (MaxDelegationDurationSeconds p <? pDefaultDelegationDurationSeconds p))
    else Plain "default exceeds max";
  Ok tt.
End validate.

Definition IsSubsidizedMsg (p : Params) (typeUrl : string) : bool :=
  existsb (fun t => bool_decide (t = typeUrl)) (SubsidizedMsgTypeUrls p).

Definition allSubsidized (p : Params) (urls : list string) : bool :=
  match urls with
  | [] => false
  | _ => forallb (IsSubsidizedMsg p) urls
  end.

(** ** Stored records *)
Record EnergyAccount := mkEnergyAccount {
  Address : string;
  TxEnergyAccrued : Z;      (** uint64 *)
  DeployEnergyAccrued : Z;  (** uint64 *)
  LastBalanceSnapshot : Z;
  LastUpdatedTime : Z;      (** int64 *)
  DelegatedOut : Z;         (** uint64 *)
  DelegatedInUsable : Z;    (** uint64 *)
  LockedAtos : Z;
  StakedSnapshot : Z;
}.

Definition NewEnergyAccount (a : addr) : EnergyAccount :=
  mkEnergyAccount a 0 0 0 0 0 0 0 0.

Definition with_TxEnergyAccrued (x : Z) (a : EnergyAccount) : EnergyAccount :=
  mkEnergyAccount (Address a) x (DeployEnergyAccrued a) (LastBalanceSnapshot a)
    (LastUpdatedTime a) (DelegatedOut a) (DelegatedInUsable a) (LockedAtos a) (StakedSnapshot a).
Definition with_DeployEnergyAccrued (x : Z) (a : EnergyAccount) : EnergyAccount :=
  mkEnergyAccount (Address a) (TxEnergyAccrued a) x (LastBalanceSnapshot a)
    (LastUpdatedTime a) (DelegatedOut a) (DelegatedInUsable a) (LockedAtos a) (StakedSnapshot a).
Definition with_LastBalanceSnapshot (x : Z) (a : EnergyAccount) : EnergyAccount :=
  mkEnergyAccount (Address a) (TxEnergyAccrued a) (DeployEnergyAccrued a) x
    (LastUpdatedTime a) (DelegatedOut a) (DelegatedInUsable a) (LockedAtos a) (StakedSnapshot a).
Definition with_LastUpdatedTime (x : Z) (a : EnergyAccount) : EnergyAccount :=
  mkEnergyAccount (Address a) (TxEnergyAccrued a) (DeployEnergyAccrued a) (LastBalanceSnapshot a)
    x (DelegatedOut a) (DelegatedInUsable a) (LockedAtos a) (StakedSnapshot a).
Definition with_DelegatedOut (x : Z) (a : EnergyAccount) : EnergyAccount :=
  mkEnergyAccount (Address a) (TxEnergyAccrued a) (DeployEnergyAccrued a) (LastBalanceSnapshot a)
    (LastUpdatedTime a) x (DelegatedInUsable a) (LockedAtos a) (StakedSnapshot a).
Definition with_DelegatedInUsable (x : Z) (a : EnergyAccount) : EnergyAccount :=
  mkEnergyAccount (Address a) (TxEnergyAccrued a) (DeployEnergyAccrued a) (LastBalanceSnapshot a)
    (LastUpdatedTime a) (DelegatedOut a) x (LockedAtos a) (StakedSnapshot a).
Definition with_LockedAtos (x : Z) (a : EnergyAccount) : EnergyAccount :=
  mkEnergyAccount (Address a) (TxEnergyAccrued a) (DeployEnergyAccrued a) (LastBalanceSnapshot a)
    (LastUpdatedTime a) (DelegatedOut a) (DelegatedInUsable a) x (StakedSnapshot a).
Definition with_StakedSnapshot (x : Z) (a : EnergyAccount) : EnergyAccount :=
  mkEnergyAccount (Address a) (TxEnergyAccrued a) (DeployEnergyAccrued a) (LastBalanceSnapshot a)
    (LastUpdatedTime a) (DelegatedOut a) (DelegatedInUsable a) (LockedAtos a) x.

Record EnergyDelegation := mkEnergyDelegation {
  Id : Z;             (** uint64 *)
  Delegator : string;
  Delegatee : string;
  Amount : Z;         (** uint64 *)
  dLockedAtos : Z;
  StartTime : Z;      (** int64 *)
  ExpiresAt : Z;      (** int64 *)
  Used : Z;           (** uint64 *)
}.

Definition with_Used (x : Z) (d : EnergyDelegation) : EnergyDelegation :=
  mkEnergyDelegation (Id d) (Delegator d) (Delegatee d) (Amount d) (dLockedAtos d)
    (StartTime d) (ExpiresAt d) x.

Record GenesisState := mkGenesisState {
  gsParams : Params;
  gsAccounts : list EnergyAccount;
  gsDelegations : list EnergyDelegation;
  gsNextDelegationId : Z;
}.

Definition DefaultGenesisState : GenesisState := mkGenesisState DefaultParams [] [] 1.

Definition GenesisState_Validate (bech32 : string → option addr) (gs : GenesisState) : result unit :=
  _ ← Validate bech32 (gsParams gs);
  guard! forallb (fun a => bech32_ok bech32 (Address a)) (gsAccounts gs) else Plain "bad address";
  guard! forallb (fun d => negb (Id d =? 0) && bech32_ok bech32 (Delegator d)
                           && bech32_ok bech32 (Delegatee d)) (gsDelegations gs)
    else Plain "bad delegation";
  Ok tt.

(** ** Messages *)
Record MsgDelegateEnergy := mkMsgDelegateEnergy {
  mDelegator : string; mDelegatee : string; mAmount : Z; mDurationSeconds : Z;
}.
Record MsgUndelegateEnergy := mkMsgUndelegateEnergy { uDelegator : string; uDelegationId : Z }.
Record MsgUpdateParams := mkMsgUpdateParams { upAuthority : string; upParams : Params }.

Definition MsgDelegateEnergy_ValidateBasic (bech32 : string → option addr)
    (m : MsgDelegateEnergy) : result unit :=
  guard! bech32_ok bech32 (mDelegator m) else Plain "bech32";
  guard! bech32_ok bech32 (mDelegatee m) else Plain "bech32";
  guard! negb (bool_decide (mDelegator m = mDelegatee m)) else ErrSelfDelegation;
  guard! negb (mAmount m =? 0) else ErrInvalidAmount;
  guard! 0 <=? mDurationSeconds m else ErrInvalidDuration;
  Ok tt.

Definition MsgUndelegateEnergy_ValidateBasic (bech32 : string → option addr)
    (m : MsgUndelegateEnergy) : result unit :=
  guard! bech32_ok bech32 (uDelegator m) else Plain "bech32";
  guard! negb (uDelegationId m =? 0) else ErrDelegationNotFound;
  Ok tt.

Definition MsgUpdateParams_ValidateBasic (bech32 : string → option addr)
    (m : MsgUpdateParams) : result unit :=
  guard! bech32_ok bech32 (upAuthority m) else Plain "bech32";
  Validate bech32 (upParams m).

(** ** Saturating uint64 arithmetic *)
Definition saturatingAdd (a b : Z) : Z := if maxU64 - b <? a then maxU64 else u64 (a + b).

Definition saturatingMul (a b : Z) : Z :=
  if (a =? 0) || (b =? 0) then 0
  else if maxU64 / b <? a then maxU64
  else u64 (a * b).

Definition saturatingMulU64 (a b : Z) : Z :=
  if (a =? 0) || (b =? 0) then 0
  else if maxU64 / b <? a then maxU64
  else u64 (a * b).

Definition minU64 (a b : Z) : Z := if a <? b then a else b.

Definition safeIntToUint64 (i : Z) : Z :=
  if negb (0 <? i) then 0 else if negb (IsUint64 i) then maxU64 else i.

(** ** Capacity *)
Definition TxEnergyCapacity (eligibleBalance : Z) (p : Params) : Z :=
  if negb (0 <? eligibleBalance) then 0
  else match TxEnergyHoldingThreshold p with
  | None => 0
  | Some threshold =>
      if negb (0 <? threshold) then 0
      else
        let units := Z.quot eligibleBalance threshold in
        if negb (IsUint64 units) then maxU64
        else saturatingMulU64 units (TxEnergyPerThreshold p)
  end.

Definition deployAddOverElapsed (eligibleBalance elapsed : Z) (p : Params) : Z :=
  match DeployHoldingThreshold p with
  | None => 0
  | Some threshold =>
      if negb (0 <? eligibleBalance) || negb (0 <? threshold) then 0
      else
        let units := Z.quot eligibleBalance threshold in
        if (units =? 0) || negb (IsUint64 units)
        then (if negb (units =? 0) then maxU64 else 0)
        else
          let den := u64 (u64 (DeployRecoverDays p) * 86400) in
          if den =? 0 then 0
          else
            let num := saturatingMul (saturatingMul units (DeployEnergyCapacity p)) elapsed in
            num / den
  end.

(** ** Theorems *)
Lemma minU64_min a b : minU64 a b = Z.min a b.
Proof. unfold minU64. destruct (a <? b) eqn:?; boolP; lia. Qed.

Lemma saturatingAdd_spec a b :
  is_u64 a → is_u64 b → saturatingAdd a b = Z.min (a + b) maxU64.
Proof.
unfold saturatingAdd, is_u64. intros Ha Hb.
destruct (maxU64 - b <? a) eqn:E; boolP; [lia|].
rewrite u64_small by (unfold is_u64; lia). lia.
Qed.

Lemma saturatingMul_spec a b :
  is_u64 a → is_u64 b → saturatingMul a b = Z.min (a * b) maxU64.
Proof.
unfold saturatingMul, is_u64. intros Ha Hb.
destruct (a =? 0) eqn:Ea; boolP; [by subst|].
destruct (b =? 0) eqn:Eb; boolP; [subst; by rewrite Z.mul_0_r|]. simpl.
assert (Hb' : 0 < b) by lia.
pose proof (Z.div_mod maxU64 b ltac:(lia)). pose proof (Z.mod_pos_bound maxU64 b Hb').
destruct (maxU64 / b <? a) eqn:E; boolP; [nia|].
assert (a * b <= maxU64) by nia.
rewrite u64_small by (unfold is_u64; nia). lia.
Qed.

Lemma saturatingMulU64_spec a b :
  is_u64 a → is_u64 b → saturatingMulU64 a b = Z.min (a * b) maxU64.
Proof. exact (saturatingMul_spec a b). Qed.

Lemma saturatingAdd_u64 a b : is_u64 a → is_u64 b → is_u64 (saturatingAdd a b).
Proof. intros Ha Hb. rewrite saturatingAdd_spec by done. unfold is_u64, maxU64 in *. lia. Qed.

Lemma saturatingMul_u64 a b : is_u64 a → is_u64 b → is_u64 (saturatingMul a b).
Proof. intros Ha Hb. rewrite saturatingMul_spec by done. unfold is_u64, maxU64 in *. nia. Qed.

Lemma Z_div_u64 a b : is_u64 a → 0 < b → is_u64 (a / b).
Proof.
unfold is_u64. intros Ha Hb. split; [apply Z.div_pos; lia|].
transitivity a; [apply Z.div_le_upper_bound; nia|lia].
Qed.

(** Parameters that passed [Validate], as stored: the widths are those of the
    protobuf fields. *)
Record params_wf (p : Params) : Prop := {
  wf_threshold : ∃ t, TxEnergyHoldingThreshold p = Some t ∧ 0 < t;
  wf_per : 0 < TxEnergyPerThreshold p <= maxU64;
  wf_window : 0 < TxEnergyMaxAccrueWindow p < 2 ^ 63;
  wf_dthreshold : ∃ t, DeployHoldingThreshold p = Some t ∧ 0 < t;
  wf_dcap : 0 < DeployEnergyCapacity p <= maxU64;
  wf_days : 0 < DeployRecoverDays p < 2 ^ 63;
  wf_price : ∃ g, InsufficientGasPrice p = Some g ∧ 0 <= g;
}.

(** The widths of the integer fields, which the Go types enforce. *)
Definition params_typed (p : Params) : Prop :=
  is_u64 (TxEnergyPerThreshold p) ∧ is_i64 (TxEnergyMaxAccrueWindow p) ∧
  is_u64 (DeployEnergyCapacity p) ∧ is_i64 (DeployRecoverDays p).

Lemma Validate_wf bech32 p : params_typed p → Validate bech32 p = Ok tt → params_wf p.
Proof.
intros (T1 & T2 & T3 & T4) HV. unfold Validate in HV. inv_ok. unfold opt_positive, is_u64, is_i64 in *.
repeat match goal with H : context [match ?o with Some _ => _ | None => _ end] |- _ =>
  destruct o eqn:?; [|done] end.
boolP. split; (eexists; split; [done|lia]) || lia.
Qed.

Lemma DefaultParams_wf : params_wf DefaultParams.
Proof.
split; simpl; try (eexists; split; [reflexivity|]); unfold atosUnit, maxU64, NewDecWithPrec; lia.
Qed.

Section capacity.
Context (p : Params) (Hp : params_wf p).

(** The capacity is [floor(balance / threshold) * per] clamped to uint64: the
    saturation never wraps to a small number. *)
Lemma TxEnergyCapacity_spec bal t :
  TxEnergyHoldingThreshold p = Some t →
  TxEnergyCapacity bal p = Z.min (Z.max bal 0 / t * TxEnergyPerThreshold p) maxU64.
Proof.
intros Ht. destruct (wf_threshold p Hp) as (t' & Ht' & Hpos). rewrite Ht' in Ht. injection Ht as ->.
pose proof (wf_per p Hp) as Hper. unfold TxEnergyCapacity. rewrite Ht'.
destruct (0 <? bal) eqn:Hb; boolP; simpl.
2:{ rewrite Z.max_r by lia. rewrite Z.div_0_l by lia. unfold maxU64. lia. }
rewrite (proj2 (Z.ltb_lt 0 t) Hpos), Z.quot_div_nonneg by lia. simpl. rewrite Z.max_l by lia.
pose proof (Z.div_pos bal t ltac:(lia) Hpos). unfold IsUint64.
destruct (bal / t <=? maxU64) eqn:E; boolP.
- rewrite (proj2 (Z.leb_le 0 _)) by lia. simpl. apply saturatingMulU64_spec; unfold is_u64; lia.
- rewrite andb_false_r. simpl. nia.
Qed.

Lemma TxEnergyCapacity_u64 bal : is_u64 (TxEnergyCapacity bal p).
Proof.
destruct (wf_threshold p Hp) as (t & Ht & Hpos). rewrite (TxEnergyCapacity_spec bal t Ht).
pose proof (wf_per p Hp). pose proof (Z.div_pos (Z.max bal 0) t ltac:(lia) Hpos).
unfold is_u64, maxU64 in *. nia.
Qed.

(** More balance never means less capacity. *)
Lemma TxEnergyCapacity_mono b1 b2 : b1 <= b2 → TxEnergyCapacity b1 p <= TxEnergyCapacity b2 p.
Proof.
intros Hle. destruct (wf_threshold p Hp) as (t & Ht & Hpos).
rewrite !(TxEnergyCapacity_spec _ t Ht). pose proof (wf_per p Hp).
assert (Z.max b1 0 / t <= Z.max b2 0 / t) by (apply Z.div_le_mono; lia). nia.
Qed.

Lemma deployAdd_u64 bal elapsed :
  is_u64 elapsed → is_u64 (deployAddOverElapsed bal elapsed p).
Proof.
intros He. unfold deployAddOverElapsed. destruct (wf_dthreshold p Hp) as (t & -> & Hpos).
assert (H0 : is_u64 0) by (unfold is_u64, maxU64; lia).
assert (Hm : is_u64 maxU64) by (unfold is_u64, maxU64; lia).
case_match; [exact H0|]. cbv zeta. case_match eqn:E2; [case_match; [exact Hm|exact H0]|].
case_match eqn:E3; [exact H0|]. unfold IsUint64 in *. boolP.
apply Z_div_u64; [|unfold is_u64 in *; pose proof (u64_range (u64 (DeployRecoverDays p) * 86400)); unfold is_u64 in *; lia].
apply saturatingMul_u64; [|done]. apply saturatingMul_u64; unfold is_u64; [lia|].
pose proof (wf_dcap p Hp). lia.
Qed.
End capacity.

#[export] Hint Resolve TxEnergyCapacity_u64 deployAdd_u64 saturatingAdd_u64 saturatingMul_u64
  DefaultParams_wf : atoshi.
