(* ===== verification/EnergyKeeper.v ===== *)
(** * x/energy/keeper: store, lazy settlement, balance hooks

    Models src/x/energy/keeper/keeper.go, settle.go, send_restriction.go,
    staking_hooks.go and migrations.go.  The KV store of the module is the
    record [EnergyStore]: one finite map per key prefix, and one finite set per
    secondary index.  A handler takes the bank state [b] and the store [s];
    nothing in this file changes the bank. *)

From stdpp Require Import gmap strings list sorting.
From Stdlib Require Import ZArith Lia.
From S2P Require Import Prelude SdkMath Bank EnergyTypes.

Open Scope Z_scope.

(** ** Consumption records, kept in the pending-reservation markers *)
Record DelegationConsumption := mkDelegationConsumption { DelegationID : Z; cAmount : Z }.

Record ConsumeResult := mkConsumeResult {
  EnergyDeducted : Z;
  OwnDeducted : Z;
  DelegatedDeducted : Z;
  DeployEnergyUsed : Z;
  ShortfallGas : Z;
  Free : bool;
  DelegationConsumptions : list DelegationConsumption;
}.

(** [ConsumeResult{}]. *)
Definition zeroResult : ConsumeResult := mkConsumeResult 0 0 0 0 0 false [].

(** The on-disk form of the two records above. *)
Record DelegationConsumptionJSON := mkDelegationConsumptionJSON { jDelegationID : Z; jAmount : Z }.

Record ConsumeResultJSON := mkConsumeResultJSON {
  jEnergyDeducted : Z;
  jOwnDeducted : Z;
  jDelegatedDeducted : Z;
  jDeployEnergyUsed : Z;
  jShortfallGas : Z;
  jFree : bool;
  jDelegationConsumptions : list DelegationConsumptionJSON;
}.

Definition consumeResultToJSON (r : ConsumeResult) : ConsumeResultJSON :=
  mkConsumeResultJSON (EnergyDeducted r) (OwnDeducted r) (DelegatedDeducted r)
    (DeployEnergyUsed r) (ShortfallGas r) (Free r)
    (map (fun c => mkDelegationConsumptionJSON (DelegationID c) (cAmount c)) (DelegationConsumptions r)).

Definition consumeResultFromJSON (j : ConsumeResultJSON) : ConsumeResult :=
  mkConsumeResult (jEnergyDeducted j) (jOwnDeducted j) (jDelegatedDeducted j)
    (jDeployEnergyUsed j) (jShortfallGas j) (jFree j)
    (map (fun c => mkDelegationConsumption (jDelegationID c) (jAmount c)) (jDelegationConsumptions j)).

Lemma consumeResult_JSON r : consumeResultFromJSON (consumeResultToJSON r) = r.
Proof.
destruct r as [? ? ? ? ? ? l]. unfold consumeResultFromJSON, consumeResultToJSON; simpl. f_equal.
rewrite map_map. rewrite <- (map_id l) at 2. apply map_ext. by intros [].
Qed.

Record pendingReservation := mkPendingReservation {
  prSigner : string;
  prGasLimit : Z;
  prResult : ConsumeResultJSON;
}.

(** ** The store *)
Record EnergyStore := mkEnergyStore {
  sParams : option Params;
  sAccounts : gmap string EnergyAccount;
  sDelegations : gmap Z EnergyDelegation;
  (** rows [uint64(expires_at) | id] *)
  sByExpiry : gset (Z * Z);
  (** rows [delegator "/" id] and [delegatee "/" id] *)
  sByDelegator : gset (string * Z);
  sByDelegatee : gset (string * Z);
  sNextDelegationID : option Z;
  (** keyed by the transaction hash *)
  sPending : gmap string pendingReservation;
}.

Definition emptyStore : EnergyStore := mkEnergyStore None ∅ ∅ ∅ ∅ ∅ None ∅.

Definition set_accounts (m : gmap string EnergyAccount) (s : EnergyStore) : EnergyStore :=
  mkEnergyStore (sParams s) m (sDelegations s) (sByExpiry s) (sByDelegator s) (sByDelegatee s)
    (sNextDelegationID s) (sPending s).
Definition set_pending (m : gmap string pendingReservation) (s : EnergyStore) : EnergyStore :=
  mkEnergyStore (sParams s) (sAccounts s) (sDelegations s) (sByExpiry s) (sByDelegator s)
    (sByDelegatee s) (sNextDelegationID s) m.
Definition set_next (n : Z) (s : EnergyStore) : EnergyStore :=
  mkEnergyStore (sParams s) (sAccounts s) (sDelegations s) (sByExpiry s) (sByDelegator s)
    (sByDelegatee s) (Some n) (sPending s).
Definition set_params (p : Params) (s : EnergyStore) : EnergyStore :=
  mkEnergyStore (Some p) (sAccounts s) (sDelegations s) (sByExpiry s) (sByDelegator s)
    (sByDelegatee s) (sNextDelegationID s) (sPending s).

(** ** The keeper's collaborators *)
Record StakingKeeper := mkStakingKeeper {
  (** [None] inside [Ok] is a nil [math.Int] *)
  GetDelegatorBonded : addr → result (option Z);
  GetDelegatorUnbonding : addr → result (option Z);
}.

Record Keeper := mkKeeper {
  stakingKeeper : option StakingKeeper;
  (** [GetMinGasPrice] of the fee market, when wired *)
  feemarketKeeper : option Dec;
  authority : string;
  BaseDenom : denom;
  (** [sdk.AccAddressFromBech32]; an address is its canonical string *)
  AccAddressFromBech32 : string → option addr;
}.

(** ** Params *)
Definition GetParams (s : EnergyStore) : Params :=
  match sParams s with Some p => p | None => DefaultParams end.

Definition SetParams (k : Keeper) (s : EnergyStore) (p : Params) : result EnergyStore :=
  _ ← Validate (AccAddressFromBech32 k) p; Ok (set_params p s).

(** ** Accounts *)
Definition GetEnergyAccount (s : EnergyStore) (a : addr) : EnergyAccount :=
  match sAccounts s !! a with Some acct => acct | None => NewEnergyAccount a end.

Definition SetEnergyAccount (s : EnergyStore) (acct : EnergyAccount) : EnergyStore :=
  set_accounts (<[Address acct := acct]> (sAccounts s)) s.

Definition IterateAccounts (s : EnergyStore) : list EnergyAccount :=
  omap (fun a => sAccounts s !! a) (merge_sort string_le (elements (dom (sAccounts s)))).

(** ** Delegations *)
Definition GetDelegation (s : EnergyStore) (id : Z) : option EnergyDelegation :=
  sDelegations s !! id.

Definition setDelegation (s : EnergyStore) (d : EnergyDelegation) : EnergyStore :=
  mkEnergyStore (sParams s) (sAccounts s)
    (<[Id d := d]> (sDelegations s))
    ({[(u64 (ExpiresAt d), Id d)]} ∪ sByExpiry s)
    ({[(Delegator d, Id d)]} ∪ sByDelegator s)
    ({[(Delegatee d, Id d)]} ∪ sByDelegatee s)
    (sNextDelegationID s) (sPending s).

Definition removeDelegation (s : EnergyStore) (d : EnergyDelegation) : EnergyStore :=
  mkEnergyStore (sParams s) (sAccounts s)
    (delete (Id d) (sDelegations s))
    (sByExpiry s ∖ {[(u64 (ExpiresAt d), Id d)]})
    (sByDelegator s ∖ {[(Delegator d, Id d)]})
    (sByDelegatee s ∖ {[(Delegatee d, Id d)]})
    (sNextDelegationID s) (sPending s).

(** Returns the id and the store with the counter advanced. *)
Definition nextDelegationID (s : EnergyStore) : Z * EnergyStore :=
  let id := match sNextDelegationID s with Some n => n | None => 1 end in
  (id, set_next (u64 (id + 1)) s).

Definition setNextDelegationID (s : EnergyStore) (id : Z) : EnergyStore := set_next id s.

(** Ids of the index rows of one address, in key order (big-endian ids), then
    the records behind them; a row without a record is skipped. *)
Definition indexIds (idx : gset (string * Z)) (a : addr) : list Z :=
  merge_sort Z.le ((filter (fun r : string * Z => r.1 = a) (elements idx)).*2).

Definition iterateDelegationsByIndex (s : EnergyStore) (idx : gset (string * Z)) (a : addr)
    : list EnergyDelegation := omap (GetDelegation s) (indexIds idx a).

Definition IterateDelegationsByDelegator (s : EnergyStore) (a : addr) : list EnergyDelegation :=
  iterateDelegationsByIndex s (sByDelegator s) a.
Definition IterateDelegationsByDelegatee (s : EnergyStore) (a : addr) : list EnergyDelegation :=
  iterateDelegationsByIndex s (sByDelegatee s) a.

Section keeper.
Context {B : Type} {bank : BankOps B}.
Implicit Types (k : Keeper) (ctx : Ctx) (b : B) (s : EnergyStore) (a : addr).

(** ** Eligible balance *)

(** One staking read: an error or a nil or non-positive answer counts 0. *)
Definition stakedTerm (r : result (option Z)) : Z :=
  match r with
  | Ok (Some x) => if 0 <? x then x else 0
  | _ => 0
  end.

Definition stakedAtos k a : Z :=
  match stakingKeeper k with
  | None => 0
  | Some sk => stakedTerm (GetDelegatorBonded sk a) + stakedTerm (GetDelegatorUnbonding sk a)
  end.

Definition heldAtox b a : Z := GetBalance b a AtoxBaseDenom.

Definition lockedAtosOf (acct : EnergyAccount) : Z :=
  if 0 <? LockedAtos acct then LockedAtos acct else 0.

Definition cachedStakedAtos (acct : EnergyAccount) : Z :=
  if 0 <? StakedSnapshot acct then StakedSnapshot acct else 0.

Definition EligibleBalance k b s a : Z :=
  let total := GetBalance b a (BaseDenom k) in
  let acct := GetEnergyAccount s a in
  let total := if 0 <? LockedAtos acct then total + LockedAtos acct else total in
  total + stakedAtos k a + heldAtox b a.

(** ** Settle *)

(** The TxEnergy refill of [Settle]. *)
Definition refillTx (p : Params) (elapsed : Z) (acct : EnergyAccount) : EnergyAccount :=
  let txCap := TxEnergyCapacity (LastBalanceSnapshot acct) p in
  if (0 <? txCap) && (TxEnergyAccrued acct <? txCap) && (0 <? TxEnergyMaxAccrueWindow p) then
    let add := saturatingMul elapsed txCap / u64 (TxEnergyMaxAccrueWindow p) in
    let newAccrued := saturatingAdd (TxEnergyAccrued acct) add in
    let newAccrued := if txCap <? newAccrued then txCap else newAccrued in
    with_TxEnergyAccrued newAccrued acct
  else acct.

(** The DeployEnergy refill of [Settle]. *)
Definition refillDeploy (p : Params) (elapsed : Z) (acct : EnergyAccount) : EnergyAccount :=
  if DeployEnergyAccrued acct <? DeployEnergyCapacity p then
    let add := deployAddOverElapsed (LastBalanceSnapshot acct) elapsed p in
    if 0 <? add then
      let newAccrued := saturatingAdd (DeployEnergyAccrued acct) add in
      let newAccrued := if DeployEnergyCapacity p <? newAccrued then DeployEnergyCapacity p else newAccrued in
      with_DeployEnergyAccrued newAccrued acct
    else acct
  else acct.

Definition Settle k ctx b s a : EnergyAccount * EnergyStore :=
  let acct := GetEnergyAccount s a in
  let now := BlockTime ctx in
  if LastUpdatedTime acct =? 0 then
    let acct := with_LastBalanceSnapshot (EligibleBalance k b s a) acct in
    let acct := with_StakedSnapshot (stakedAtos k a) acct in
    let acct := with_LastUpdatedTime now acct in
    (acct, SetEnergyAccount s acct)
  else if now <=? LastUpdatedTime acct then (acct, s)
  else
    let params := GetParams s in
    let elapsed := u64 (now - LastUpdatedTime acct) in
    let acct := refillTx params elapsed acct in
    let acct := refillDeploy params elapsed acct in
    let acct := with_LastUpdatedTime now acct in
    (acct, SetEnergyAccount s acct).

(** The cap-down common to [ApplyBalanceChange] and [ApplyStakedChange]. *)
Definition capDown (p : Params) (newEligible : Z) (acct : EnergyAccount) : EnergyAccount :=
  let newTxCap := TxEnergyCapacity newEligible p in
  let effectiveCap := if newTxCap <? DelegatedOut acct then DelegatedOut acct else newTxCap in
  let acct := if effectiveCap <? TxEnergyAccrued acct
              then with_TxEnergyAccrued effectiveCap acct else acct in
  if DeployEnergyCapacity p <? DeployEnergyAccrued acct
  then with_DeployEnergyAccrued (DeployEnergyCapacity p) acct else acct.

Definition ApplyBalanceChange k ctx b s a (newEligible : Z) : EnergyStore :=
  let newEligible := if newEligible <? 0 then 0 else newEligible in
  let '(acct, s) := Settle k ctx b s a in
  let acct := with_LastBalanceSnapshot newEligible acct in
  let acct := with_LastUpdatedTime (BlockTime ctx) acct in
  SetEnergyAccount s (capDown (GetParams s) newEligible acct).

Definition ApplyStakedChange k ctx b s a (staked : Z) : EnergyStore :=
  let staked := if staked <? 0 then 0 else staked in
  let '(acct, s) := Settle k ctx b s a in
  let newEligible := GetBalance b a (BaseDenom k) + GetBalance b a AtoxBaseDenom + staked in
  let newEligible := if 0 <? LockedAtos acct then newEligible + LockedAtos acct else newEligible in
  let acct := with_LastBalanceSnapshot newEligible acct in
  let acct := with_StakedSnapshot staked acct in
  let acct := with_LastUpdatedTime (BlockTime ctx) acct in
  SetEnergyAccount s (capDown (GetParams s) newEligible acct).

Definition SimulateSettle ctx s a : EnergyAccount :=
  let acct := GetEnergyAccount s a in
  let now := BlockTime ctx in
  if (LastUpdatedTime acct =? 0) || (now <=? LastUpdatedTime acct) then acct
  else
    let params := GetParams s in
    let elapsed := u64 (now - LastUpdatedTime acct) in
    let txCap := TxEnergyCapacity (LastBalanceSnapshot acct) params in
    let acct :=
      if (0 <? txCap) && (TxEnergyAccrued acct <? txCap) && (0 <? TxEnergyMaxAccrueWindow params) then
        let add := saturatingMul elapsed txCap / u64 (TxEnergyMaxAccrueWindow params) in
        with_TxEnergyAccrued (minU64 (saturatingAdd (TxEnergyAccrued acct) add) txCap) acct
      else acct in
    if DeployEnergyAccrued acct <? DeployEnergyCapacity params then
      let add := deployAddOverElapsed (LastBalanceSnapshot acct) elapsed params in
      if 0 <? add then
        with_DeployEnergyAccrued
          (minU64 (saturatingAdd (DeployEnergyAccrued acct) add) (DeployEnergyCapacity params)) acct
      else acct
    else acct.

Definition CurrentTxCapacity k b s a : Z := TxEnergyCapacity (EligibleBalance k b s a) (GetParams s).

(** ** Hooks *)
Definition nonBankTerms k (acct : EnergyAccount) a : Z :=
  if LastUpdatedTime acct =? 0 then lockedAtosOf acct + stakedAtos k a
  else lockedAtosOf acct + cachedStakedAtos acct.

(** Registered with the bank; never blocks or redirects a send. *)
Definition SendRestriction k ctx : Restriction B EnergyStore := fun '(b, s) from to amt =>
  let moved := AmountOf amt (BaseDenom k) + AmountOf amt AtoxBaseDenom in
  if negb (0 <? moved) then (Ok to, (b, s))
  else if decide (from = to) then (Ok to, (b, s))
  else
    let fromBefore := GetBalance b from (BaseDenom k) + GetBalance b from AtoxBaseDenom in
    let toBefore := GetBalance b to (BaseDenom k) + GetBalance b to AtoxBaseDenom in
    let fromAcct := GetEnergyAccount s from in
    let toAcct := GetEnergyAccount s to in
    let s := ApplyBalanceChange k ctx b s from (fromBefore + nonBankTerms k fromAcct from) in
    let s := ApplyBalanceChange k ctx b s to (toBefore + moved + nonBankTerms k toAcct to) in
    (Ok to, (b, s)).

(** [Hooks.refresh], run by [AfterDelegationModified] and
    [BeforeDelegationRemoved]. *)
Definition Hooks_refresh k ctx b s a : EnergyStore :=
  if BlockHeight ctx =? 0 then s
  else if negb (EnergyEnabled (GetParams s)) then s
  else ApplyStakedChange k ctx b s a (stakedAtos k a).

Definition AfterDelegationModified k ctx b s a : EnergyStore := Hooks_refresh k ctx b s a.
Definition BeforeDelegationRemoved k ctx b s a : EnergyStore := Hooks_refresh k ctx b s a.

(** ** Snapshot migration *)
Definition refreshSnapshot k ctx b s a : EnergyStore :=
  let acct := GetEnergyAccount s a in
  let acct := with_LastBalanceSnapshot (EligibleBalance k b s a) acct in
  let acct := with_LastUpdatedTime (BlockTime ctx) acct in
  let params := GetParams s in
  let newTxCap := TxEnergyCapacity (LastBalanceSnapshot acct) params in
  let acct := if newTxCap <? TxEnergyAccrued acct then with_TxEnergyAccrued newTxCap acct else acct in
  let acct := if DeployEnergyCapacity params <? DeployEnergyAccrued acct
              then with_DeployEnergyAccrued (DeployEnergyCapacity params) acct else acct in
  SetEnergyAccount s acct.

Definition RefreshAllSnapshots k ctx b s : Z * EnergyStore :=
  let addrs := omap (fun acct => AccAddressFromBech32 k (Address acct)) (IterateAccounts s) in
  (Z.of_nat (length addrs), foldl (refreshSnapshot k ctx b) s addrs).
End keeper.

(** ** Account and store well-formedness *)

(** The uint64 fields are in range, amounts are not negative. *)
Record account_wf (acct : EnergyAccount) : Prop := {
  wf_tx : is_u64 (TxEnergyAccrued acct);
  wf_deploy : is_u64 (DeployEnergyAccrued acct);
  wf_out : is_u64 (DelegatedOut acct);
  wf_in : is_u64 (DelegatedInUsable acct);
  wf_locked : 0 <= LockedAtos acct;
  wf_staked : 0 <= StakedSnapshot acct;
}.

Definition accounts_keyed (s : EnergyStore) : Prop :=
  ∀ a acct, sAccounts s !! a = Some acct → Address acct = a.

(** Everything in the store but the accounts. *)
Definition rest (s : EnergyStore) : EnergyStore := set_accounts ∅ s.

(** What [Settle] does not touch in an account. *)
Definition same_counters (x y : EnergyAccount) : Prop :=
  Address x = Address y ∧ DelegatedOut x = DelegatedOut y ∧
  DelegatedInUsable x = DelegatedInUsable y ∧ LockedAtos x = LockedAtos y.

(** [s'] is [s] with the account of [a] replaced by [acct]. *)
Record updates (s : EnergyStore) (a : addr) (acct : EnergyAccount) (s' : EnergyStore) : Prop := {
  up_keyed : accounts_keyed s';
  up_get a' : GetEnergyAccount s' a' = if decide (a' = a) then acct else GetEnergyAccount s a';
  up_rest : rest s' = rest s;
}.

#[export] Instance same_counters_refl : Reflexive same_counters.
Proof. by intros x. Qed.
#[export] Instance same_counters_trans : Transitive same_counters.
Proof. intros x y z (?&?&?&?) (?&?&?&?). split_and!; congruence. Qed.

Lemma account_wf_new a : account_wf (NewEnergyAccount a).
Proof. split; simpl; unfold is_u64, maxU64; lia. Qed.

Lemma GetEnergyAccount_Address s a : accounts_keyed s → Address (GetEnergyAccount s a) = a.
Proof. intros H. unfold GetEnergyAccount. destruct (_ !! a) eqn:E; [by apply H|done]. Qed.

Lemma GetParams_rest s s' : rest s' = rest s → GetParams s' = GetParams s.
Proof. intros H. apply (f_equal sParams) in H. unfold GetParams. simpl in H. by rewrite H. Qed.

Lemma rest_trans s1 s2 s3 : rest s2 = rest s1 → rest s3 = rest s2 → rest s3 = rest s1.
Proof. congruence. Qed.

Lemma Set_updates s acct a :
  accounts_keyed s → Address acct = a → updates s a acct (SetEnergyAccount s acct).
Proof.
intros Hs <-. split.
- intros a x Hx. unfold SetEnergyAccount in Hx. simpl in Hx.
  apply lookup_insert_Some in Hx as [[<- <-]|[_ Hx]]; [done|by apply Hs].
- intros a'. unfold GetEnergyAccount at 1. simpl. case_decide as E.
  + subst. by rewrite lookup_insert_eq.
  + by rewrite lookup_insert_ne.
- done.
Qed.

Lemma updates_get s a acct s' : updates s a acct s' → GetEnergyAccount s' a = acct.
Proof. intros U. rewrite (up_get _ _ _ _ U). by rewrite decide_True. Qed.

Lemma updates_get_ne s a acct s' a' :
  updates s a acct s' → a' ≠ a → GetEnergyAccount s' a' = GetEnergyAccount s a'.
Proof. intros U ?. rewrite (up_get _ _ _ _ U). by rewrite decide_False. Qed.

Lemma updates_Set s a acct s' acct' :
  updates s a acct s' → Address acct' = a → updates s a acct' (SetEnergyAccount s' acct').
Proof.
intros U Ha. pose proof (Set_updates s' acct' a (up_keyed _ _ _ _ U) Ha) as V. split.
- apply V.
- intros a'. rewrite (up_get _ _ _ _ V), (up_get _ _ _ _ U). by case_decide.
- eapply rest_trans; [apply U|apply V].
Qed.

(** The parts of a store that are not accounts, through an update. *)
Lemma rest_parts s s' : rest s' = rest s →
  sParams s' = sParams s ∧ sDelegations s' = sDelegations s ∧ sByExpiry s' = sByExpiry s ∧
  sByDelegator s' = sByDelegator s ∧ sByDelegatee s' = sByDelegatee s ∧
  sNextDelegationID s' = sNextDelegationID s ∧ sPending s' = sPending s.
Proof. destruct s, s'. unfold rest, set_accounts; simpl. intros [= -> -> -> -> -> -> ->]. done. Qed.

(** ** Accrual *)
Section accrual.
Context (p : Params) (Hp : params_wf p).

Definition txAdd (p : Params) (elapsed snapshot : Z) : Z :=
  Z.min (elapsed * TxEnergyCapacity snapshot p) maxU64 / TxEnergyMaxAccrueWindow p.

Lemma txAdd_nonneg e bal : is_u64 e → 0 <= txAdd p e bal.
Proof.
intros He. pose proof (TxEnergyCapacity_u64 p Hp bal). pose proof (wf_window p Hp).
unfold txAdd, is_u64, maxU64 in *. apply Z.div_pos; [nia|lia].
Qed.

(** The refill in closed form: a min/max of mathematical integers. *)
Lemma refillTx_spec e acct :
  is_u64 e → is_u64 (TxEnergyAccrued acct) →
  let cap := TxEnergyCapacity (LastBalanceSnapshot acct) p in
  refillTx p e acct =
  with_TxEnergyAccrued
    (Z.max (TxEnergyAccrued acct) (Z.min cap (TxEnergyAccrued acct + txAdd p e (LastBalanceSnapshot acct)))) acct.
Proof.
intros He Ha cap. pose proof (TxEnergyCapacity_u64 p Hp (LastBalanceSnapshot acct)) as Hc.
pose proof (wf_window p Hp) as Hw. pose proof (txAdd_nonneg e (LastBalanceSnapshot acct) He) as Hadd.
unfold refillTx. fold cap in Hc |- *.
rewrite (proj2 (Z.ltb_lt 0 (TxEnergyMaxAccrueWindow p))) by lia. rewrite andb_true_r.
rewrite (u64_small (TxEnergyMaxAccrueWindow p)) by (unfold is_u64, maxU64; lia).
rewrite saturatingMul_spec by done. unfold txAdd in *. fold cap in Hadd |- *.
set (add := Z.min (e * cap) maxU64 / TxEnergyMaxAccrueWindow p) in *.
assert (is_u64 add).
{ apply Z_div_u64; [unfold is_u64 in *; unfold maxU64 in *; nia|lia]. }
rewrite saturatingAdd_spec by done. unfold is_u64 in *.
destruct (0 <? cap) eqn:E1; [destruct (TxEnergyAccrued acct <? cap) eqn:E2|]; boolP; simpl.
- f_equal. destruct (cap <? Z.min (TxEnergyAccrued acct + add) maxU64) eqn:E3; boolP; lia.
- rewrite Z.max_l by lia. by destruct acct.
- rewrite Z.max_l by lia. by destruct acct.
Qed.

Lemma refillDeploy_spec e acct :
  is_u64 e → is_u64 (DeployEnergyAccrued acct) →
  let add := deployAddOverElapsed (LastBalanceSnapshot acct) e p in
  refillDeploy p e acct =
  with_DeployEnergyAccrued
    (Z.max (DeployEnergyAccrued acct)
       (Z.min (DeployEnergyCapacity p) (DeployEnergyAccrued acct + add))) acct.
Proof.
intros He Ha add. pose proof (deployAdd_u64 p Hp (LastBalanceSnapshot acct) e He) as Hadd.
fold add in Hadd. pose proof (wf_dcap p Hp). unfold refillDeploy. fold add. cbv zeta.
rewrite saturatingAdd_spec by done. unfold is_u64 in *.
destruct (DeployEnergyAccrued acct <? DeployEnergyCapacity p) eqn:E1; boolP.
- destruct (0 <? add) eqn:E2; boolP.
  + f_equal. destruct (DeployEnergyCapacity p <? _) eqn:E3; boolP; lia.
  + replace (Z.max _ _) with (DeployEnergyAccrued acct) by lia. by destruct acct.
- replace (Z.max _ _) with (DeployEnergyAccrued acct) by lia. by destruct acct.
Qed.

(** An account brought from its last update to [now], past the first touch. *)
Definition accrue (p : Params) (now : Z) (acct : EnergyAccount) : EnergyAccount :=
  let e := u64 (now - LastUpdatedTime acct) in
  with_LastUpdatedTime now (refillDeploy p e (refillTx p e acct)).

Lemma refillTx_counters e acct : same_counters (refillTx p e acct) acct.
Proof. unfold refillTx. destr_match; done. Qed.

Lemma refillDeploy_counters e acct : same_counters (refillDeploy p e acct) acct.
Proof. unfold refillDeploy. repeat destr_match; done. Qed.

Lemma accrue_counters now acct : same_counters (accrue p now acct) acct.
Proof.
unfold accrue. etrans; [|apply refillTx_counters]. etrans; [|apply refillDeploy_counters]. done.
Qed.

Lemma accrue_spec now acct : account_wf acct →
  let e := u64 (now - LastUpdatedTime acct) in
  accrue p now acct =
  mkEnergyAccount (Address acct)
    (Z.max (TxEnergyAccrued acct) (Z.min (TxEnergyCapacity (LastBalanceSnapshot acct) p)
       (TxEnergyAccrued acct + txAdd p e (LastBalanceSnapshot acct))))
    (Z.max (DeployEnergyAccrued acct) (Z.min (DeployEnergyCapacity p)
       (DeployEnergyAccrued acct + deployAddOverElapsed (LastBalanceSnapshot acct) e p)))
    (LastBalanceSnapshot acct) now (DelegatedOut acct) (DelegatedInUsable acct)
    (LockedAtos acct) (StakedSnapshot acct).
Proof.
intros W e. unfold accrue. fold e. assert (He : is_u64 e) by apply u64_range.
rewrite refillTx_spec by (done || apply W). rewrite refillDeploy_spec by (done || apply W). done.
Qed.

Lemma accrue_wf now acct : account_wf acct → account_wf (accrue p now acct).
Proof.
intros W. rewrite accrue_spec by done.
pose proof (TxEnergyCapacity_u64 p Hp (LastBalanceSnapshot acct)).
pose proof (txAdd_nonneg (u64 (now - LastUpdatedTime acct)) (LastBalanceSnapshot acct) (u64_range _)).
pose proof (deployAdd_u64 p Hp (LastBalanceSnapshot acct) _ (u64_range (now - LastUpdatedTime acct))).
pose proof (wf_dcap p Hp). destruct W. split; simpl; unfold is_u64 in *; lia.
Qed.
End accrual.

(** ** Settle *)
Section settle.
Context {B : Type} {bank : BankOps B}.
Implicit Types (k : Keeper) (ctx : Ctx) (b : B) (s : EnergyStore) (a : addr).

Lemma Settle_updates k ctx b s a acct s' :
  accounts_keyed s → Settle k ctx b s a = (acct, s') → updates s a acct s'.
Proof.
intros Hs. unfold Settle. pose proof (GetEnergyAccount_Address s a Hs) as Ha.
repeat destr_match; intros [= <- <-].
- by apply Set_updates.
- split; [done| |done]. intros a'. by case_decide; subst.
- apply Set_updates; [done|]. simpl.
  destruct (refillDeploy_counters (GetParams s) (u64 (BlockTime ctx - LastUpdatedTime (GetEnergyAccount s a)))
    (refillTx (GetParams s) (u64 (BlockTime ctx - LastUpdatedTime (GetEnergyAccount s a))) (GetEnergyAccount s a))) as [-> _].
  by destruct (refillTx_counters (GetParams s) (u64 (BlockTime ctx - LastUpdatedTime (GetEnergyAccount s a)))
    (GetEnergyAccount s a)) as [-> _].
Qed.

(** The account [Settle] returns, by cases. *)
Lemma Settle_account k ctx b s a :
  let old := GetEnergyAccount s a in
  (Settle k ctx b s a).1 =
  if LastUpdatedTime old =? 0 then
    with_LastUpdatedTime (BlockTime ctx) (with_StakedSnapshot (stakedAtos k a)
      (with_LastBalanceSnapshot (EligibleBalance k b s a) old))
  else if BlockTime ctx <=? LastUpdatedTime old then old
  else accrue (GetParams s) (BlockTime ctx) old.
Proof. unfold Settle. by repeat destr_match. Qed.

Lemma Settle_counters k ctx b s a :
  same_counters (Settle k ctx b s a).1 (GetEnergyAccount s a).
Proof.
rewrite Settle_account. repeat destr_match; [done|done|apply accrue_counters].
Qed.

Lemma stakedTerm_nonneg r : 0 <= stakedTerm r.
Proof. unfold stakedTerm. repeat destr_match; boolP; lia. Qed.

Lemma stakedAtos_nonneg k a : 0 <= stakedAtos k a.
Proof.
unfold stakedAtos. destruct (stakingKeeper k) as [sk|]; [|lia].
pose proof (stakedTerm_nonneg (GetDelegatorBonded sk a)).
pose proof (stakedTerm_nonneg (GetDelegatorUnbonding sk a)). lia.
Qed.

Lemma Settle_wf k ctx b s a :
  params_wf (GetParams s) → account_wf (GetEnergyAccount s a) →
  account_wf (Settle k ctx b s a).1.
Proof.
intros Hp Ha. rewrite Settle_account. repeat destr_match; [|done|by apply accrue_wf].
destruct Ha. split; simpl; try done. apply stakedAtos_nonneg.
Qed.

(** [EligibleBalance] as a sum. *)
Lemma EligibleBalance_sum k b s a :
  EligibleBalance k b s a =
  GetBalance b a (BaseDenom k) + lockedAtosOf (GetEnergyAccount s a) + stakedAtos k a +
  GetBalance b a AtoxBaseDenom.
Proof. unfold EligibleBalance, lockedAtosOf, heldAtox. destr_match; lia. Qed.

Lemma lockedAtosOf_counters x y : same_counters x y → lockedAtosOf x = lockedAtosOf y.
Proof. intros (_ & _ & _ & E). unfold lockedAtosOf. by rewrite E. Qed.

Lemma lockedAtosOf_wf x : account_wf x → lockedAtosOf x = LockedAtos x.
Proof. intros W. pose proof (wf_locked x W). unfold lockedAtosOf. destruct (0 <? _) eqn:E; boolP; lia. Qed.

(** Energy only accrues, and never past the capacity of the snapshot. *)
Lemma Settle_bounds k ctx b s a :
  params_wf (GetParams s) → account_wf (GetEnergyAccount s a) →
  let old := GetEnergyAccount s a in
  let acct := (Settle k ctx b s a).1 in
  TxEnergyAccrued old <= TxEnergyAccrued acct <=
    Z.max (TxEnergyAccrued old) (TxEnergyCapacity (LastBalanceSnapshot old) (GetParams s)) ∧
  DeployEnergyAccrued old <= DeployEnergyAccrued acct <=
    Z.max (DeployEnergyAccrued old) (DeployEnergyCapacity (GetParams s)).
Proof.
intros Hp Ha old acct. unfold acct. rewrite Settle_account. fold old.
repeat destr_match; [simpl; lia|lia|].
rewrite (accrue_spec _ Hp) by done. simpl.
pose proof (txAdd_nonneg _ Hp (u64 (BlockTime ctx - LastUpdatedTime old)) (LastBalanceSnapshot old) (u64_range _)).
pose proof (deployAdd_u64 _ Hp (LastBalanceSnapshot old) _ (u64_range (BlockTime ctx - LastUpdatedTime old))) as Hd.
unfold is_u64 in Hd. lia.
Qed.

(** Settling twice in one block is settling once. *)
Lemma Settle_again k ctx b s a acct s' :
  accounts_keyed s → 0 < BlockTime ctx →
  Settle k ctx b s a = (acct, s') → Settle k ctx b s' a = (acct, s').
Proof.
intros Hs Hnow H. pose proof (Settle_updates _ _ _ _ _ _ _ Hs H) as U.
pose proof (updates_get _ _ _ _ U) as Hg. unfold Settle in H |- *. rewrite Hg.
destruct (LastUpdatedTime (GetEnergyAccount s a) =? 0) eqn:E0;
  [|destruct (BlockTime ctx <=? LastUpdatedTime (GetEnergyAccount s a)) eqn:E1];
  injection H as Hacct Hs'.
- assert (LastUpdatedTime acct = BlockTime ctx) as -> by (by rewrite <- Hacct).
  rewrite Z.leb_refl. by rewrite (proj2 (Z.eqb_neq _ _)) by lia.
- rewrite Hacct in E0, E1. by rewrite E0, E1.
- assert (LastUpdatedTime acct = BlockTime ctx) as -> by (by rewrite <- Hacct).
  rewrite Z.leb_refl. by rewrite (proj2 (Z.eqb_neq _ _)) by lia.
Qed.

Lemma clamp_minU64 x c : (if c <? x then c else x) = minU64 x c.
Proof. unfold minU64. destruct (c <? x) eqn:?, (x <? c) eqn:?; boolP; lia. Qed.

Lemma SimulateSettle_Settle k ctx b s a :
  LastUpdatedTime (GetEnergyAccount s a) ≠ 0 →
  SimulateSettle ctx s a =
  with_LastUpdatedTime (LastUpdatedTime (GetEnergyAccount s a)) (Settle k ctx b s a).1.
Proof.
intros H0. rewrite Settle_account. unfold SimulateSettle. set (old := GetEnergyAccount s a) in *.
rewrite (proj2 (Z.eqb_neq _ _) H0). simpl.
destruct (BlockTime ctx <=? LastUpdatedTime old); [by destruct old|].
unfold accrue, refillTx, refillDeploy. rewrite !clamp_minU64.
destruct old. cbn -[saturatingAdd saturatingMul deployAddOverElapsed Z.ltb minU64].
destruct (_ && _); cbn -[saturatingAdd saturatingMul deployAddOverElapsed Z.ltb minU64];
  repeat match goal with |- context [if ?c then _ else _] => destruct c end; done.
Qed.
End settle.

(** ** Balance changes *)
Section hooks.
Context {B : Type} {bank : BankOps B}.
Implicit Types (k : Keeper) (ctx : Ctx) (b : B) (s : EnergyStore) (a : addr).

Lemma capDown_spec p e acct :
  capDown p e acct =
  with_TxEnergyAccrued (Z.min (TxEnergyAccrued acct) (Z.max (TxEnergyCapacity e p) (DelegatedOut acct)))
    (with_DeployEnergyAccrued (Z.min (DeployEnergyAccrued acct) (DeployEnergyCapacity p)) acct).
Proof.
unfold capDown. destruct (_ <? DelegatedOut acct) eqn:E1; boolP;
  destruct (_ <? TxEnergyAccrued acct) eqn:E2; boolP; simpl;
  destruct (_ <? DeployEnergyAccrued acct) eqn:E3; boolP;
  destruct acct; unfold with_TxEnergyAccrued, with_DeployEnergyAccrued; simpl in *; f_equal; lia.
Qed.

(** An account after its eligible balance became [e]. *)
Definition rebalanced (p : Params) (now e : Z) (acct : EnergyAccount) : EnergyAccount :=
  capDown p e (with_LastUpdatedTime now (with_LastBalanceSnapshot e acct)).

Lemma rebalanced_counters p now e acct : same_counters (rebalanced p now e acct) acct.
Proof. unfold rebalanced. rewrite capDown_spec. done. Qed.

Lemma rebalanced_wf p now e acct :
  params_wf p → account_wf acct → account_wf (rebalanced p now e acct).
Proof.
intros Hp Ha. unfold rebalanced. rewrite capDown_spec.
pose proof (TxEnergyCapacity_u64 p Hp e). pose proof (wf_dcap p Hp).
destruct Ha. split; simpl; unfold is_u64 in *; lia.
Qed.

Lemma ApplyBalanceChange_updates k ctx b s a e :
  accounts_keyed s →
  updates s a (rebalanced (GetParams s) (BlockTime ctx) (Z.max 0 e) (Settle k ctx b s a).1)
    (ApplyBalanceChange k ctx b s a e).
Proof.
intros Hs. unfold ApplyBalanceChange. destruct (Settle k ctx b s a) as [acct s1] eqn:E. simpl.
pose proof (Settle_updates _ _ _ _ _ _ _ Hs E) as U.
assert (Hmax : (if e <? 0 then 0 else e) = Z.max 0 e) by (destruct (e <? 0) eqn:?; boolP; lia).
rewrite Hmax. rewrite (GetParams_rest _ _ (up_rest _ _ _ _ U)).
apply (updates_Set _ _ _ _ _ U). pose proof (Settle_counters k ctx b s a) as C. rewrite E in C. simpl in C.
transitivity (Address acct); [|destruct C as [-> _]; by apply GetEnergyAccount_Address].
apply (rebalanced_counters (GetParams s) (BlockTime ctx) (Z.max 0 e)).
Qed.

Lemma ApplyStakedChange_updates k ctx b s a staked :
  accounts_keyed s → 0 <= staked →
  let acct := (Settle k ctx b s a).1 in
  updates s a
    (with_StakedSnapshot staked
      (rebalanced (GetParams s) (BlockTime ctx)
        (GetBalance b a (BaseDenom k) + GetBalance b a AtoxBaseDenom + staked + lockedAtosOf acct) acct))
    (ApplyStakedChange k ctx b s a staked).
Proof.
intros Hs Hpos. unfold ApplyStakedChange. destruct (Settle k ctx b s a) as [acct s1] eqn:E. simpl.
pose proof (Settle_updates _ _ _ _ _ _ _ Hs E) as U.
rewrite (proj2 (Z.ltb_ge staked 0) Hpos). rewrite (GetParams_rest _ _ (up_rest _ _ _ _ U)).
pose proof (Settle_counters k ctx b s a) as C. rewrite E in C. simpl in C.
set (new := with_StakedSnapshot _ _).
set (ne := if 0 <? LockedAtos acct then _ else _).
assert (Hne : ne = GetBalance b a (BaseDenom k) + GetBalance b a AtoxBaseDenom + staked + lockedAtosOf acct).
{ unfold ne, lockedAtosOf. destr_match; lia. }
assert (Hnew : capDown (GetParams s) ne (with_LastUpdatedTime (BlockTime ctx)
    (with_StakedSnapshot staked (with_LastBalanceSnapshot ne acct))) = new).
{ unfold new, rebalanced. rewrite !capDown_spec, Hne. done. }
rewrite Hnew. apply (updates_Set _ _ _ _ _ U).
transitivity (Address acct); [|destruct C as [-> _]; by apply GetEnergyAccount_Address].
apply (rebalanced_counters (GetParams s) (BlockTime ctx)
  (GetBalance b a (BaseDenom k) + GetBalance b a AtoxBaseDenom + staked + lockedAtosOf acct) acct).
Qed.

(** The non-bank part of an account's eligible balance survives a settle. *)
Lemma nonBankTerms_settled k ctx b s a :
  nonBankTerms k (GetEnergyAccount s a) a =
  lockedAtosOf (GetEnergyAccount s a) + cachedStakedAtos (Settle k ctx b s a).1.
Proof.
unfold nonBankTerms. rewrite Settle_account. destruct (_ =? 0); simpl.
- unfold cachedStakedAtos. simpl. pose proof (stakedAtos_nonneg k a).
  destruct (0 <? _) eqn:?; boolP; lia.
- destruct (_ <=? _); [done|]. unfold cachedStakedAtos.
  assert (StakedSnapshot (accrue (GetParams s) (BlockTime ctx) (GetEnergyAccount s a)) =
    StakedSnapshot (GetEnergyAccount s a)) as ->; [|done].
  unfold accrue, refillDeploy, refillTx. by repeat destr_match.
Qed.

(** [SendRestriction] updates at most the accounts of the two parties; when it
    acts, it rebalances both. *)
Lemma SendRestriction_acts k ctx b s from to amt :
  accounts_keyed s →
  from ≠ to → 0 < AmountOf amt (BaseDenom k) + AmountOf amt AtoxBaseDenom →
  ∃ s1 s2,
    SendRestriction k ctx (b, s) from to amt = (Ok to, (b, s2)) ∧
    let ef := GetBalance b from (BaseDenom k) + GetBalance b from AtoxBaseDenom +
              nonBankTerms k (GetEnergyAccount s from) from in
    let et := GetBalance b to (BaseDenom k) + GetBalance b to AtoxBaseDenom +
              (AmountOf amt (BaseDenom k) + AmountOf amt AtoxBaseDenom) +
              nonBankTerms k (GetEnergyAccount s to) to in
    updates s from (rebalanced (GetParams s) (BlockTime ctx) (Z.max 0 ef) (Settle k ctx b s from).1) s1 ∧
    updates s1 to (rebalanced (GetParams s) (BlockTime ctx) (Z.max 0 et) (Settle k ctx b s1 to).1) s2.
Proof.
intros Hs Hne Hpos. unfold SendRestriction.
rewrite (proj2 (Z.ltb_lt _ _) Hpos). simpl. rewrite decide_False by done.
set (ef := GetBalance b from (BaseDenom k) + _ + _). set (et := GetBalance b to (BaseDenom k) + _ + _ + _).
pose proof (ApplyBalanceChange_updates k ctx b s from ef Hs) as U.
eexists _, _. split; [done|]. split; [exact U|].
rewrite <- (GetParams_rest _ _ (up_rest _ _ _ _ U)). apply ApplyBalanceChange_updates, U.
Qed.

Lemma SendRestriction_to k ctx w from to amt x w' :
  SendRestriction k ctx w from to amt = (Ok x, w') → x = to ∧ w'.1 = w.1.
Proof. destruct w as [b s]. unfold SendRestriction. repeat destr_match; naive_solver. Qed.
End hooks.
