(* ===== verification/EnergyAccrual.v ===== *)
(** * Energy accrual: what settlement and the balance hooks guarantee

    Properties of [Settle], [SimulateSettle], [ApplyBalanceChange] and
    [SendRestriction] (src/x/energy/keeper/settle.go, send_restriction.go). *)

From stdpp Require Import gmap strings list.
From Stdlib Require Import ZArith Lia.
From S2P Require Import Prelude SdkMath Bank EnergyTypes EnergyKeeper.

Open Scope Z_scope.

(** A concrete keeper, bank and store used to evaluate the theorems. *)
Module Sample.
Definition keeper : Keeper := mkKeeper None None "gov" "liao" (fun a => Some a).
Definition alice : EnergyAccount :=
  mkEnergyAccount "alice" 10000 0 (60000 * atosUnit) 1000 0 0 0 0.
Definition store : EnergyStore := set_accounts {["alice" := alice]} emptyStore.
Definition bank : ledger :=
  mkLedger {[("alice", "liao") := Z.to_N (60000 * atosUnit)]} {["liao" := Z.to_N (60000 * atosUnit)]}.
Lemma store_keyed : accounts_keyed store.
Proof. intros a x. simpl. intros [<- <-]%lookup_singleton_Some. done. Qed.
Lemma alice_wf : account_wf (GetEnergyAccount store "alice").
Proof. split; vm_compute; intuition discriminate. Qed.
Lemma alice_touched : LastUpdatedTime (GetEnergyAccount store "alice") ≠ 0.
Proof. by vm_compute. Qed.
End Sample.

Section accrual_props.
Context {B : Type} {bank : BankOps B} {laws : BankLaws bank}.
Implicit Types (k : Keeper) (ctx : Ctx) (b : B) (s : EnergyStore) (a : addr).

(** settling an account never takes energy away and never accrues past the
    capacity of the recorded snapshot (TxEnergy) or the configured capacity
    (DeployEnergy); balances lent, borrowed and locked are left alone, and no
    other account and no other part of the store changes. *)
Theorem Settle_monotone_capped k ctx b s a acct s' :
  params_wf (GetParams s) → accounts_keyed s → account_wf (GetEnergyAccount s a) →
  Settle k ctx b s a = (acct, s') →
  let old := GetEnergyAccount s a in
  TxEnergyAccrued old <= TxEnergyAccrued acct <=
    Z.max (TxEnergyAccrued old) (TxEnergyCapacity (LastBalanceSnapshot old) (GetParams s)) ∧
  DeployEnergyAccrued old <= DeployEnergyAccrued acct <=
    Z.max (DeployEnergyAccrued old) (DeployEnergyCapacity (GetParams s)) ∧
  same_counters acct old ∧ account_wf acct ∧ updates s a acct s'.
Proof.
intros Hp Hs Ha E. pose proof (Settle_bounds k ctx b s a Hp Ha) as [H1 H2].
pose proof (Settle_counters k ctx b s a) as H3. pose proof (Settle_wf k ctx b s a Hp Ha) as H4.
rewrite E in H1, H2, H3, H4. simpl in H1, H2, H3, H4.
split_and!; try done; try lia. by eapply Settle_updates.
Qed.

(** settling is idempotent: a second [Settle] in the same block returns the
    same account and writes the same store. *)
Theorem Settle_idempotent k ctx b s a acct s' :
  accounts_keyed s → 0 < BlockTime ctx →
  Settle k ctx b s a = (acct, s') → Settle k ctx b s' a = (acct, s').
Proof. apply Settle_again. Qed.

(** the query path [SimulateSettle] shows, for an account that has been
    touched before, exactly the account [Settle] would store, except for the
    update time which it does not advance. *)
Theorem SimulateSettle_agrees k ctx b s a acct s' :
  LastUpdatedTime (GetEnergyAccount s a) ≠ 0 →
  Settle k ctx b s a = (acct, s') →
  SimulateSettle ctx s a = with_LastUpdatedTime (LastUpdatedTime (GetEnergyAccount s a)) acct.
Proof. intros H E. rewrite (SimulateSettle_Settle k ctx b s a H). by rewrite E. Qed.

(** Two settlements against one, for one account. *)
Lemma accrue_split p acct t1 t2 :
  params_wf p → account_wf acct →
  LastUpdatedTime acct < t1 < t2 → is_i64 (LastUpdatedTime acct) → is_i64 t2 →
  (t2 - LastUpdatedTime acct) * TxEnergyCapacity (LastBalanceSnapshot acct) p <= maxU64 →
  TxEnergyAccrued (accrue p t2 acct) - 1 <=
    TxEnergyAccrued (accrue p t2 (accrue p t1 acct)) <= TxEnergyAccrued (accrue p t2 acct).
Proof.
intros Hp W Ht I1 I2 Hno. rewrite (accrue_spec p Hp t2 (accrue p t1 acct)) by (by apply accrue_wf).
rewrite !(accrue_spec p Hp) by done. simpl. set (cap := TxEnergyCapacity _ p) in *.
set (t0 := LastUpdatedTime acct) in *. unfold is_i64 in *.
rewrite !(u64_small) by (unfold is_u64, maxU64; lia). unfold txAdd. fold cap.
assert (Hc : is_u64 cap) by (by apply TxEnergyCapacity_u64). unfold is_u64 in Hc.
assert (Hmin : ∀ e, 0 <= e <= t2 - t0 → Z.min (e * cap) maxU64 = e * cap) by (intros; nia).
rewrite !Hmin by lia. pose proof (wf_window p Hp) as Hw. set (w := TxEnergyMaxAccrueWindow p) in *.
pose proof (Z.div_mod ((t1 - t0) * cap) w ltac:(lia)).
pose proof (Z.div_mod ((t2 - t1) * cap) w ltac:(lia)).
pose proof (Z.div_mod ((t2 - t0) * cap) w ltac:(lia)).
pose proof (Z.mod_pos_bound ((t1 - t0) * cap) w ltac:(lia)).
pose proof (Z.mod_pos_bound ((t2 - t1) * cap) w ltac:(lia)).
pose proof (Z.mod_pos_bound ((t2 - t0) * cap) w ltac:(lia)).
assert ((t1 - t0) * cap + (t2 - t1) * cap = (t2 - t0) * cap) by ring.
set (q1 := (t1 - t0) * cap / w) in *. set (q2 := (t2 - t1) * cap / w) in *. set (q := (t2 - t0) * cap / w) in *.
assert (0 <= q1) by (apply Z.div_pos; nia). assert (0 <= q2) by (apply Z.div_pos; nia).
assert (q - 1 <= q1 + q2 <= q) by nia. lia.
Qed.

(** settling often neither earns nor costs energy: with an intermediate
    settlement at [t1] the TxEnergy at [t2] is at most what a single settlement
    gives, and at most one unit less (the rounding of one division). *)
Theorem Settle_split k b s a h t1 t2 :
  params_wf (GetParams s) → accounts_keyed s → account_wf (GetEnergyAccount s a) →
  0 < LastUpdatedTime (GetEnergyAccount s a) < t1 → t1 < t2 < 2 ^ 63 →
  (t2 - LastUpdatedTime (GetEnergyAccount s a)) *
    TxEnergyCapacity (LastBalanceSnapshot (GetEnergyAccount s a)) (GetParams s) <= maxU64 →
  let once := (Settle k (mkCtx t2 h) b s a).1 in
  let twice := (Settle k (mkCtx t2 h) b (Settle k (mkCtx t1 h) b s a).2 a).1 in
  TxEnergyAccrued once - 1 <= TxEnergyAccrued twice <= TxEnergyAccrued once.
Proof.
intros Hp Hs W H1 H2 Hno. destruct (Settle k (mkCtx t1 h) b s a) as [x s1] eqn:E. simpl.
pose proof (Settle_updates _ _ _ _ _ _ _ Hs E) as U.
rewrite !Settle_account, (updates_get _ _ _ _ U), (GetParams_rest _ _ (up_rest _ _ _ _ U)).
assert (Hx : x = accrue (GetParams s) t1 (GetEnergyAccount s a)).
{ change x with (x, s1).1. rewrite <- E, Settle_account. simpl.
  rewrite (proj2 (Z.eqb_neq _ 0)), (proj2 (Z.leb_gt _ _)) by lia. done. }
rewrite Hx. simpl.
rewrite (proj2 (Z.eqb_neq (LastUpdatedTime (GetEnergyAccount s a)) 0)) by lia.
rewrite (proj2 (Z.leb_gt t2 (LastUpdatedTime (GetEnergyAccount s a)))) by lia.
rewrite (proj2 (Z.eqb_neq t1 0)) by lia. rewrite (proj2 (Z.leb_gt t2 t1)) by lia.
apply accrue_split; try done; unfold is_i64; lia.
Qed.

(** What a settled snapshot should be: the eligible balance. *)
Definition stake_cache_current k s : Prop :=
  ∀ a, LastUpdatedTime (GetEnergyAccount s a) ≠ 0 →
       StakedSnapshot (GetEnergyAccount s a) = stakedAtos k a.

Lemma stake_cache_settled k ctx b s a :
  stake_cache_current k s → cachedStakedAtos (Settle k ctx b s a).1 = stakedAtos k a.
Proof.
intros Hc. pose proof (nonBankTerms_settled k ctx b s a) as H. unfold nonBankTerms in H.
destruct (_ =? 0) eqn:E in H; boolP; [lia|].
specialize (Hc a E). unfold cachedStakedAtos in *. pose proof (stakedAtos_nonneg k a).
rewrite Hc in H. destruct (0 <? stakedAtos k a) eqn:?; boolP; lia.
Qed.

(** after any transfer of ATOS or ATOX between two accounts, the snapshot
    energy accrues against is, for both parties, exactly the eligible balance
    read after the transfer (bank, locked, staked and ATOX): the amount moved is
    counted once, although the hook runs between the debit and the credit. *)
Theorem transfer_snapshots_eligible k ctx b s from to amt b' s' :
  accounts_keyed s → coins_valid amt → BaseDenom k ≠ AtoxBaseDenom →
  stake_cache_current k s →
  from ≠ to → 0 < AmountOf amt (BaseDenom k) + AmountOf amt AtoxBaseDenom →
  SendCoins (SendRestriction k ctx) (b, s) from to amt = (Ok tt, (b', s')) →
  LastBalanceSnapshot (GetEnergyAccount s' from) = EligibleBalance k b' s' from ∧
  LastBalanceSnapshot (GetEnergyAccount s' to) = EligibleBalance k b' s' to.
Proof.
intros Hs Hv Hd Hc Hne Hm H. pose proof H as Hbal.
apply (send_balances _ b s from to amt b' s' Hv) in Hbal as (_ & Hbal & _); [|apply SendRestriction_to].
apply send_spec in H as (b1 & to' & b2 & s2 & b3 & Hsub & Hr & Hadd & [= <- <-]).
apply sub_spec in Hsub as (Hle & Hsub & _); [|done].
destruct (SendRestriction_acts k ctx b1 s from to amt Hs Hne Hm) as (s1 & s2' & Hr' & U1 & U2).
rewrite Hr in Hr'. injection Hr' as -> -> ->.
assert (Hc1 : cachedStakedAtos (Settle k ctx b1 s1 to).1 = stakedAtos k to).
{ pose proof (stake_cache_settled k ctx b1 s to Hc) as E. rewrite Settle_account in E |- *.
  rewrite (updates_get_ne _ _ _ _ _ U1) by done. rewrite (GetParams_rest _ _ (up_rest _ _ _ _ U1)).
  by rewrite !EligibleBalance_sum, (updates_get_ne _ _ _ _ _ U1) in *. }
assert (Hlk : ∀ p s a e, lockedAtosOf (rebalanced p (BlockTime ctx) e (Settle k ctx b1 s a).1) =
  lockedAtosOf (GetEnergyAccount s a)).
{ intros. rewrite (lockedAtosOf_counters _ _ (rebalanced_counters _ _ _ _)).
  apply lockedAtosOf_counters, Settle_counters. }
rewrite !EligibleBalance_sum. rewrite (updates_get _ _ _ _ U2).
rewrite (updates_get_ne _ _ _ _ from U2) by done. rewrite (updates_get _ _ _ _ U1).
rewrite !Hlk.
rewrite (updates_get_ne _ _ _ _ to U1) by done.
rewrite !Hbal. rewrite !at_addr_eq, !at_addr_ne by done.
unfold rebalanced. rewrite !capDown_spec. simpl.
pose proof (nonBankTerms_settled k ctx b1 s from) as N1. rewrite (stake_cache_settled k ctx b1 s from Hc) in N1.
pose proof (nonBankTerms_settled k ctx b1 s to) as N2. rewrite (stake_cache_settled k ctx b1 s to Hc) in N2.
rewrite N1, N2. rewrite !Hsub. rewrite !at_addr_eq, !at_addr_ne by done.
pose proof (Hle (BaseDenom k)). pose proof (Hle AtoxBaseDenom).
pose proof (balance_nonneg b to (BaseDenom k)). pose proof (balance_nonneg b to AtoxBaseDenom).
pose proof (stakedAtos_nonneg k from). pose proof (stakedAtos_nonneg k to).
assert (∀ x, 0 <= lockedAtosOf x) as Hl by (intros x; unfold lockedAtosOf; destruct (0 <? _) eqn:?; boolP; lia).
pose proof (Hl (GetEnergyAccount s from)). pose proof (Hl (GetEnergyAccount s to)). lia.
Qed.
End accrual_props.

Lemma Settle_monotone_capped_witness :
  let r := Settle Sample.keeper (mkCtx 44200 10) Sample.bank Sample.store "alice" in
  TxEnergyAccrued r.1 = 60000 ∧ updates Sample.store "alice" r.1 r.2.
Proof.
split; [by vm_compute|].
refine (proj2 (proj2 (proj2 (proj2 (Settle_monotone_capped Sample.keeper (mkCtx 44200 10) Sample.bank
  Sample.store "alice" _ _ _ Sample.store_keyed Sample.alice_wf _))))); [exact DefaultParams_wf|].
by destruct (Settle _ _ _ _ _).
Defined.

Lemma Settle_idempotent_witness :
  let r := Settle Sample.keeper (mkCtx 44200 10) Sample.bank Sample.store "alice" in
  Settle Sample.keeper (mkCtx 44200 10) Sample.bank r.2 "alice" = r.
Proof.
intros r. rewrite (surjective_pairing r).
apply (Settle_idempotent Sample.keeper (mkCtx 44200 10) Sample.bank Sample.store "alice" r.1 r.2);
  [apply Sample.store_keyed|reflexivity|]. by destruct r eqn:E.
Defined.

Lemma SimulateSettle_agrees_witness :
  TxEnergyAccrued (SimulateSettle (mkCtx 44200 10) Sample.store "alice") = 60000.
Proof.
rewrite (SimulateSettle_agrees Sample.keeper (mkCtx 44200 10) Sample.bank Sample.store "alice" _ _
  Sample.alice_touched (surjective_pairing _)). by vm_compute.
Defined.

Lemma Settle_split_witness :
  let once := (Settle Sample.keeper (mkCtx 1003 10) Sample.bank Sample.store "alice").1 in
  let twice := (Settle Sample.keeper (mkCtx 1003 10) Sample.bank
    (Settle Sample.keeper (mkCtx 1001 10) Sample.bank Sample.store "alice").2 "alice").1 in
  TxEnergyAccrued once = 10003 ∧ TxEnergyAccrued once - 1 <= TxEnergyAccrued twice <= TxEnergyAccrued once.
Proof.
split; [by vm_compute|].
apply (Settle_split Sample.keeper Sample.bank Sample.store "alice" 10 1001 1003);
  [exact DefaultParams_wf|exact Sample.store_keyed|exact Sample.alice_wf|..];
  vm_compute; intuition discriminate.
Defined.

Lemma transfer_snapshots_eligible_witness :
  let amt := [("liao", 1000 * atosUnit)]%string in
  let r := SendCoins (SendRestriction Sample.keeper (mkCtx 44200 10)) (Sample.bank, Sample.store) "alice" "bob" amt in
  r.1 = Ok tt ∧ LastBalanceSnapshot (GetEnergyAccount r.2.2 "bob") = EligibleBalance Sample.keeper r.2.1 r.2.2 "bob".
Proof.
intros amt r. assert (Hr : r.1 = Ok tt) by (by vm_compute). split; [done|].
apply (transfer_snapshots_eligible Sample.keeper (mkCtx 44200 10) Sample.bank Sample.store "alice" "bob" amt r.2.1 r.2.2).
- apply Sample.store_keyed.
- repeat constructor; simpl; unfold atosUnit; lia.
- done.
- intros a. unfold GetEnergyAccount. simpl. destruct (_ !! a) eqn:E; [|done].
  apply lookup_singleton_Some in E as [<- <-]. done.
- done.
- done.
- rewrite <- Hr, <- !surjective_pairing. done.
Defined.
