(* ===== verification/EnergyIndex.v ===== *)
(** * The delegation tables of x/energy

    The primary record of a delegation and its three secondary index rows are
    written and deleted together ([setDelegation], [removeDelegation] of
    src/x/energy/keeper/keeper.go).  [index_wf] is the consistency of the four
    tables; the lemmas show that the operations keep it and that iterating an
    index visits exactly the records of an address. *)

From stdpp Require Import gmap strings list sorting.
From Stdlib Require Import ZArith Lia.
From S2P Require Import Prelude SdkMath Bank EnergyTypes EnergyKeeper.

Open Scope Z_scope.

(** A stored delegation: lent something, used no more than lent. *)
Record delegation_wf (d : EnergyDelegation) : Prop := {
  dwf_used : 0 <= Used d <= Amount d;
  dwf_amount : 0 < Amount d <= maxU64;
  dwf_locked : 0 <= dLockedAtos d;
}.

Record index_wf (s : EnergyStore) : Prop := {
  iw_id id d : sDelegations s !! id = Some d → Id d = id;
  iw_del id d : sDelegations s !! id = Some d → delegation_wf d;
  iw_delegatee a id :
    (a, id) ∈ sByDelegatee s ↔ ∃ d, sDelegations s !! id = Some d ∧ Delegatee d = a;
  iw_delegator a id :
    (a, id) ∈ sByDelegator s ↔ ∃ d, sDelegations s !! id = Some d ∧ Delegator d = a;
  iw_expiry e id :
    (e, id) ∈ sByExpiry s ↔ ∃ d, sDelegations s !! id = Some d ∧ u64 (ExpiresAt d) = e;
}.

Definition set_delegations (m : gmap Z EnergyDelegation) (s : EnergyStore) : EnergyStore :=
  mkEnergyStore (sParams s) (sAccounts s) m (sByExpiry s) (sByDelegator s) (sByDelegatee s)
    (sNextDelegationID s) (sPending s).

(** Quantities summed over the delegations. *)
Definition availOf (a : addr) (d : EnergyDelegation) : Z :=
  if decide (Delegatee d = a) then Amount d - Used d else 0.
Definition outOf (a : addr) (d : EnergyDelegation) : Z :=
  if decide (Delegator d = a) then Amount d else 0.
Definition lockOf (a : addr) (d : EnergyDelegation) : Z :=
  if decide (Delegator d = a) then dLockedAtos d else 0.

(** Borrowed energy [a] can still use; energy [a] lent; ATOS [a] locked. *)
Definition availIn (s : EnergyStore) (a : addr) : Z := map_sum (availOf a) (sDelegations s).
Definition lentBy (s : EnergyStore) (a : addr) : Z := map_sum (outOf a) (sDelegations s).
Definition lockedBy (s : EnergyStore) (a : addr) : Z := map_sum (lockOf a) (sDelegations s).
(** All ATOS locked by delegations. *)
Definition lockedTotal (s : EnergyStore) : Z := map_sum dLockedAtos (sDelegations s).

Section index.
Implicit Types (s : EnergyStore) (d : EnergyDelegation) (a : addr).

Lemma index_wf_accounts m s : index_wf s → index_wf (set_accounts m s).
Proof. intros []; by split. Qed.

Lemma index_wf_pending m s : index_wf s → index_wf (set_pending m s).
Proof. intros []; by split. Qed.

Lemma index_wf_next n s : index_wf s → index_wf (set_next n s).
Proof. intros []; by split. Qed.

Lemma index_wf_rest s s' : rest s' = rest s → index_wf s → index_wf s'.
Proof.
intros H W. assert (s' = set_accounts (sAccounts s') s) as ->; [|by apply index_wf_accounts].
destruct s, s'. unfold rest, set_accounts in *; simpl in *. congruence.
Qed.

(** Rewriting only [Used] of a stored record leaves the index rows as they are. *)
Lemma setDelegation_used s id d u :
  index_wf s → sDelegations s !! id = Some d →
  setDelegation s (with_Used u d) = set_delegations (<[id := with_Used u d]> (sDelegations s)) s.
Proof.
intros W Hd. pose proof (iw_id s W id d Hd) as Hid.
unfold setDelegation, set_delegations. simpl. rewrite Hid. f_equal.
- apply subseteq_union_1_L, singleton_subseteq_l, (iw_expiry s W); eauto.
- apply subseteq_union_1_L, singleton_subseteq_l, (iw_delegator s W); eauto.
- apply subseteq_union_1_L, singleton_subseteq_l, (iw_delegatee s W); eauto.
Qed.

Lemma index_wf_used s id d u :
  index_wf s → sDelegations s !! id = Some d → 0 <= u <= Amount d →
  index_wf (set_delegations (<[id := with_Used u d]> (sDelegations s)) s).
Proof.
intros [W1 W2 W3 W4 W5] Hd Hu.
assert (Hl : ∀ id' (P : EnergyDelegation → Prop), P d ↔ P (with_Used u d) →
  (∃ x, sDelegations s !! id' = Some x ∧ P x) ↔
  (∃ x, <[id:=with_Used u d]> (sDelegations s) !! id' = Some x ∧ P x)).
{ intros id' P HP. destruct (decide (id' = id)) as [->|].
  - rewrite lookup_insert_eq. split; intros (x & Hx & Hp); simplify_eq; eauto; naive_solver.
  - by rewrite lookup_insert_ne. }
split; simpl.
- intros id' x [[<- <-]|[_ Hx]]%lookup_insert_Some; simpl; eauto.
- intros id' x [[<- <-]|[_ Hx]]%lookup_insert_Some; [|eauto].
  destruct (W2 _ _ Hd). by split.
- intros a id'. by rewrite W3, (Hl id' (fun x => Delegatee x = a)).
- intros a id'. by rewrite W4, (Hl id' (fun x => Delegator x = a)).
- intros e id'. by rewrite W5, (Hl id' (fun x => u64 (ExpiresAt x) = e)).
Qed.

Lemma index_wf_set s d :
  index_wf s → delegation_wf d → sDelegations s !! Id d = None → index_wf (setDelegation s d).
Proof.
intros [W1 W2 W3 W4 W5] Hd Hn.
assert (Hl : ∀ id' (P : EnergyDelegation → Prop),
  (∃ x, <[Id d := d]> (sDelegations s) !! id' = Some x ∧ P x) ↔
  (id' = Id d ∧ P d) ∨ (∃ x, sDelegations s !! id' = Some x ∧ P x)).
{ intros id' P. destruct (decide (id' = Id d)) as [->|].
  - rewrite lookup_insert_eq, Hn. naive_solver.
  - rewrite lookup_insert_ne by done. naive_solver. }
split; simpl.
- intros id' x [[<- <-]|[_ Hx]]%lookup_insert_Some; eauto.
- intros id' x [[<- <-]|[_ Hx]]%lookup_insert_Some; eauto.
- intros a id'. rewrite elem_of_union, elem_of_singleton, W3, Hl. naive_solver.
- intros a id'. rewrite elem_of_union, elem_of_singleton, W4, Hl. naive_solver.
- intros e id'. rewrite elem_of_union, elem_of_singleton, W5, Hl. naive_solver.
Qed.

Lemma index_wf_remove s d :
  index_wf s → sDelegations s !! Id d = Some d → index_wf (removeDelegation s d).
Proof.
intros [W1 W2 W3 W4 W5] Hd.
assert (Hl : ∀ id' (P : EnergyDelegation → Prop),
  (∃ x, delete (Id d) (sDelegations s) !! id' = Some x ∧ P x) ↔
  id' ≠ Id d ∧ (∃ x, sDelegations s !! id' = Some x ∧ P x)).
{ intros id' P. setoid_rewrite lookup_delete_Some. naive_solver. }
split; simpl.
- intros id' x [_ Hx]%lookup_delete_Some. eauto.
- intros id' x [_ Hx]%lookup_delete_Some. eauto.
- intros a id'. rewrite elem_of_difference, elem_of_singleton, W3, Hl. naive_solver.
- intros a id'. rewrite elem_of_difference, elem_of_singleton, W4, Hl. naive_solver.
- intros e id'. rewrite elem_of_difference, elem_of_singleton, W5, Hl. naive_solver.
Qed.

(** *** Iteration by index *)
Lemma indexIds_NoDup (idx : gset (string * Z)) a : NoDup (indexIds idx a).
Proof.
unfold indexIds. rewrite merge_sort_Permutation. apply NoDup_fmap_2_strong.
- intros [x1 x2] [y1 y2] [Hx _]%list_elem_of_filter [Hy _]%list_elem_of_filter. simpl in *. congruence.
- apply NoDup_filter, NoDup_elements.
Qed.

Lemma elem_of_indexIds (idx : gset (string * Z)) a id : id ∈ indexIds idx a ↔ (a, id) ∈ idx.
Proof.
unfold indexIds. rewrite merge_sort_Permutation, list_elem_of_fmap.
setoid_rewrite list_elem_of_filter. setoid_rewrite elem_of_elements. split.
- intros ([x y] & -> & Hx & Hin). simpl in *. by subst.
- intros H. exists (a, id). done.
Qed.

Lemma elem_of_IterateByDelegatee s a d :
  index_wf s → d ∈ IterateDelegationsByDelegatee s a ↔ sDelegations s !! Id d = Some d ∧ Delegatee d = a.
Proof.
intros W. unfold IterateDelegationsByDelegatee, iterateDelegationsByIndex, GetDelegation.
rewrite list_elem_of_omap. setoid_rewrite elem_of_indexIds. setoid_rewrite (iw_delegatee s W). split.
- intros (id & (d' & Hd' & Ha) & Hd). pose proof (iw_id s W id d Hd). subst id. by simplify_eq.
- intros [Hd Ha]. exists (Id d). split; [by exists d|done].
Qed.

Lemma IterateByDelegatee_NoDup s a :
  index_wf s → NoDup (Id <$> IterateDelegationsByDelegatee s a).
Proof.
intros W. unfold IterateDelegationsByDelegatee, iterateDelegationsByIndex, GetDelegation.
induction (indexIds_NoDup (sByDelegatee s) a) as [|id ids Hn _ IH]; simpl; [constructor|].
destruct (sDelegations s !! id) as [d|] eqn:E; [|exact IH]. simpl. constructor; [|exact IH].
rewrite (iw_id s W id d E), list_elem_of_fmap. intros (d' & -> & Hd').
apply list_elem_of_omap in Hd' as (id' & Hin & Hd'). by rewrite (iw_id s W id' d' Hd') in Hn.
Qed.

Lemma IterateByDelegatee_sum s a f :
  index_wf s →
  sumZ (map f (IterateDelegationsByDelegatee s a)) =
  map_sum (fun d => if decide (Delegatee d = a) then f d else 0) (sDelegations s).
Proof.
intros W. rewrite <- (sumZ_omap_sum _ (indexIds (sByDelegatee s) a)).
- unfold IterateDelegationsByDelegatee, iterateDelegationsByIndex, GetDelegation.
  f_equal. apply map_ext_in. intros d Hd. rewrite decide_True; [done|].
  apply list_elem_of_In in Hd. by apply (elem_of_IterateByDelegatee s a d W) in Hd as [_ ?].
- apply indexIds_NoDup.
- intros id d Hd Hn. case_decide; [|done]. exfalso. apply Hn, elem_of_indexIds, (iw_delegatee s W). eauto.
Qed.
End index.

Lemma index_wf_empty : index_wf emptyStore.
Proof.
assert (H : ∀ id, sDelegations emptyStore !! id = None) by (intros; apply lookup_empty).
split; intros *; rewrite ?H; try done.
- split; [by intros ?%not_elem_of_empty|by intros (? & ? & _)].
- split; [by intros ?%not_elem_of_empty|by intros (? & ? & _)].
- split; [by intros ?%not_elem_of_empty|by intros (? & ? & _)].
Qed.
