(* ===== verification/EnergyConsume.v ===== *)
(** * x/energy/keeper: spending and refunding energy

    Models src/x/energy/keeper/consume.go and pending_reservation.go: [Consume]
    with its attribution of borrowed energy to delegations, the last-in
    first-out [RefundEnergy], [EstimateConsume] and the per-transaction
    reservation markers.  Subtractions on uint64 are written with [-]: each is
    bounded by the [minU64] or comparison in front of it. *)

From stdpp Require Import gmap strings list sorting.
From Stdlib Require Import ZArith Lia.
From S2P Require Import Prelude SdkMath Bank EnergyTypes EnergyKeeper EnergyIndex.

Open Scope Z_scope.

(** ** Attribution *)

(** The order of [sort.Slice]: by expiry, ties by id. *)
Definition expires_le (d1 d2 : EnergyDelegation) : Prop :=
  ExpiresAt d1 < ExpiresAt d2 ∨ (ExpiresAt d1 = ExpiresAt d2 ∧ Id d1 <= Id d2).
#[export] Instance expires_le_dec : RelDecision expires_le.
Proof. intros d1 d2. unfold expires_le. apply _. Defined.

(** Phase 3: what is left, the delegations to write back, the attribution. *)
Fixpoint attributeLoop (remaining : Z) (candidates : list EnergyDelegation)
    : Z * list EnergyDelegation * list DelegationConsumption :=
  match candidates with
  | [] => (remaining, [], [])
  | d :: ds =>
      if remaining =? 0 then (remaining, [], [])
      else
        let avail := Amount d - Used d in
        let take := minU64 remaining avail in
        let '(r, toUpdate, attribution) := attributeLoop (remaining - take) ds in
        (r, with_Used (Used d + take) d :: toUpdate,
         mkDelegationConsumption (Id d) take :: attribution)
  end.

(** Phases 1 and 2. *)
Definition candidatesOf (s : EnergyStore) (delegatee : addr) : list EnergyDelegation :=
  merge_sort expires_le
    (filter (fun d => Used d < Amount d) (IterateDelegationsByDelegatee s delegatee)).

Definition attributeDelegatedConsumption (s : EnergyStore) (delegatee : addr) (amount : Z)
    : result (list DelegationConsumption) * EnergyStore :=
  if amount =? 0 then (Ok [], s)
  else
    let '(remaining, toUpdate, attribution) := attributeLoop amount (candidatesOf s delegatee) in
    let s := foldl setDelegation s toUpdate in
    if 0 <? remaining then (Err (Plain "delegated_in_usable accounting drift"), s)
    else (Ok attribution, s).

(** ** Consume *)

(** Own energy that is not lent out. *)
Definition ownAvailable (acct : EnergyAccount) : Z :=
  if DelegatedOut acct <? TxEnergyAccrued acct then TxEnergyAccrued acct - DelegatedOut acct else 0.

Section consume.
Context {B : Type} {bank : BankOps B}.

Definition Consume (k : Keeper) (ctx : Ctx) (b : B) (s : EnergyStore) (signer : addr)
    (gasNeeded : Z) (isDeploy : bool) (msgTypeUrls : list string)
    : result ConsumeResult * EnergyStore :=
  let params := GetParams s in
  if allSubsidized params msgTypeUrls then (Ok (mkConsumeResult 0 0 0 0 0 true []), s)
  else if negb (EnergyEnabled params) then (Ok (mkConsumeResult 0 0 0 0 gasNeeded false []), s)
  else if gasNeeded =? 0 then (Ok zeroResult, s)
  else
    let '(acct, s) := Settle k ctx b s signer in
    let remaining := gasNeeded in
    (* deploy bucket *)
    let deployTake :=
      if isDeploy && (0 <? DeployEnergyAccrued acct)
      then minU64 remaining (DeployEnergyAccrued acct) else 0 in
    let acct := with_DeployEnergyAccrued (DeployEnergyAccrued acct - deployTake) acct in
    let remaining := remaining - deployTake in
    (* own bucket *)
    let ownAvail := ownAvailable acct in
    let ownTake := if (0 <? remaining) && (0 <? ownAvail) then minU64 remaining ownAvail else 0 in
    let acct := with_TxEnergyAccrued (TxEnergyAccrued acct - ownTake) acct in
    let remaining := remaining - ownTake in
    (* delegated-in pool *)
    if (0 <? remaining) && (0 <? DelegatedInUsable acct) then
      let take := minU64 remaining (DelegatedInUsable acct) in
      let acct := with_DelegatedInUsable (DelegatedInUsable acct - take) acct in
      match attributeDelegatedConsumption s signer take with
      | (Err e, s) => (Err e, s)
      | (Ok attrib, s) =>
          let remaining := remaining - take in
          (Ok (mkConsumeResult (ownTake + take) ownTake take deployTake remaining false attrib),
           SetEnergyAccount s acct)
      end
    else
      (Ok (mkConsumeResult ownTake ownTake 0 deployTake remaining false []), SetEnergyAccount s acct).

Definition EstimateConsume (ctx : Ctx) (s : EnergyStore) (signer : addr)
    (gasNeeded : Z) (isDeploy : bool) (msgTypeUrls : list string) : ConsumeResult :=
  let params := GetParams s in
  if allSubsidized params msgTypeUrls then mkConsumeResult 0 0 0 0 0 true []
  else if negb (EnergyEnabled params) then mkConsumeResult 0 0 0 0 gasNeeded false []
  else
    let acct := SimulateSettle ctx s signer in
    let remaining := gasNeeded in
    let deployTake :=
      if isDeploy && (0 <? DeployEnergyAccrued acct)
      then minU64 remaining (DeployEnergyAccrued acct) else 0 in
    let remaining := remaining - deployTake in
    let own := ownAvailable acct in
    let ownTake := if (0 <? remaining) && (0 <? own) then minU64 remaining own else 0 in
    let remaining := remaining - ownTake in
    let inTake := if (0 <? remaining) && (0 <? DelegatedInUsable acct)
                  then minU64 remaining (DelegatedInUsable acct) else 0 in
    let remaining := remaining - inTake in
    mkConsumeResult (ownTake + inTake) 0 0 deployTake remaining false [].
End consume.

(** ** Refund *)

(** Phase 1 of [RefundEnergy], over the consumptions last to first: how much
    was rolled back, and the store. *)
Fixpoint refundLoop (s : EnergyStore) (delTarget undone : Z) (cs : list DelegationConsumption)
    : Z * EnergyStore :=
  match cs with
  | [] => (undone, s)
  | c :: cs =>
      if negb (undone <? delTarget) then (undone, s)
      else match GetDelegation s (DelegationID c) with
      | None => refundLoop s delTarget undone cs
      | Some d =>
          let step := minU64 (delTarget - undone) (cAmount c) in
          let step := if Used d <? step then Used d else step in
          if step =? 0 then refundLoop s delTarget undone cs
          else refundLoop (setDelegation s (with_Used (Used d - step) d)) delTarget (undone + step) cs
      end
  end.

Definition RefundEnergy (s : EnergyStore) (signer : addr) (amount : Z) (res : ConsumeResult)
    : EnergyStore :=
  if amount =? 0 then s
  else
    let maxRefund := saturatingAdd (OwnDeducted res) (DelegatedDeducted res) in
    let amount := if maxRefund <? amount then maxRefund else amount in
    if amount =? 0 then s
    else
      let acct := GetEnergyAccount s signer in
      let delTarget := minU64 amount (DelegatedDeducted res) in
      let ownRefund := minU64 (amount - delTarget) (OwnDeducted res) in
      let '(acct, s) :=
        if 0 <? delTarget then
          let '(undone, s) := refundLoop s delTarget 0 (rev (DelegationConsumptions res)) in
          (with_DelegatedInUsable (saturatingAdd (DelegatedInUsable acct) undone) acct, s)
        else (acct, s) in
      let acct :=
        if 0 <? ownRefund then
          let cap := TxEnergyCapacity (LastBalanceSnapshot acct) (GetParams s) in
          with_TxEnergyAccrued (minU64 (saturatingAdd (TxEnergyAccrued acct) ownRefund) cap) acct
        else acct in
      SetEnergyAccount s acct.

(** ** Pending-reservation markers *)
Definition SetPendingReservation (s : EnergyStore) (txHash : string) (signer : addr)
    (gasLimit : Z) (res : ConsumeResult) : EnergyStore :=
  if decide (txHash = ""%string) then s
  else set_pending (<[txHash := mkPendingReservation signer gasLimit (consumeResultToJSON res)]> (sPending s)) s.

Definition DeletePendingReservation (s : EnergyStore) (txHash : string) : EnergyStore :=
  if decide (txHash = ""%string) then s
  else set_pending (delete txHash (sPending s)) s.

(** The markers in key order; a marker whose signer does not parse is skipped. *)
Definition IteratePendingReservations (k : Keeper) (s : EnergyStore)
    : list (string * addr * Z * ConsumeResult) :=
  omap (fun h =>
      p ← sPending s !! h;
      signer ← AccAddressFromBech32 k (prSigner p);
      Some (h, signer, prGasLimit p, consumeResultFromJSON (prResult p)))
    (merge_sort string_le (elements (dom (sPending s)))).

(** ** Attribution: lemmas *)

(** The delegations after a list of consumptions, and after undoing it. *)
Definition charge (c : DelegationConsumption) (m : gmap Z EnergyDelegation) : gmap Z EnergyDelegation :=
  alter (fun d => with_Used (Used d + cAmount c) d) (DelegationID c) m.
Definition uncharge (c : DelegationConsumption) (m : gmap Z EnergyDelegation) : gmap Z EnergyDelegation :=
  alter (fun d => with_Used (Used d - cAmount c) d) (DelegationID c) m.
Definition chargeAll (m : gmap Z EnergyDelegation) (cs : list DelegationConsumption) :=
  foldl (fun m c => charge c m) m cs.
Definition unchargeAll (m : gmap Z EnergyDelegation) (cs : list DelegationConsumption) :=
  foldl (fun m c => uncharge c m) m cs.

(** A consumption that fits what is left of its delegation. *)
Definition fits (d : EnergyDelegation) (c : DelegationConsumption) : Prop :=
  DelegationID c = Id d ∧ 0 < cAmount c <= Amount d - Used d.

Definition leftOf (d : EnergyDelegation) : Z := Amount d - Used d.

Lemma attributeLoop_spec : ∀ cands r r' up att,
  0 <= r → Forall (fun d => Used d < Amount d) cands →
  attributeLoop r cands = (r', up, att) →
  r' = Z.max 0 (r - sumZ (map leftOf cands)) ∧
  sumZ (map cAmount att) = r - r' ∧
  Forall2 fits (take (length att) cands) att ∧
  up = zip_with (fun d c => with_Used (Used d + cAmount c) d) cands att.
Proof.
induction cands as [|d ds IH]; simpl; intros r r' up att Hr Hf H.
- injection H as <- <- <-. simpl. split_and!; [lia|lia|constructor|done].
- inversion_clear Hf as [|? ? Hd Hds].
  assert (0 <= sumZ (map leftOf ds)).
  { apply sumZ_nonneg, Forall_map. eapply Forall_impl; [exact Hds|]. unfold leftOf. simpl. lia. }
  destruct (r =? 0) eqn:E; boolP.
  { injection H as <- <- <-. unfold leftOf in *. simpl. split_and!; [lia|lia|constructor|done]. }
  rewrite minU64_min in H. destruct (attributeLoop _ ds) as [[r1 up1] att1] eqn:E1.
  injection H as <- <- <-. apply IH in E1 as (H1 & H2 & H3 & H4); [|lia|done].
  unfold leftOf in *. simpl. split_and!; [lia|lia| |by rewrite H4].
  constructor; [|done]. split; simpl; [done|lia].
Qed.

Lemma candidatesOf_elem s a d : index_wf s →
  d ∈ candidatesOf s a ↔ sDelegations s !! Id d = Some d ∧ Delegatee d = a ∧ Used d < Amount d.
Proof.
intros W. unfold candidatesOf. rewrite merge_sort_Permutation, list_elem_of_filter.
rewrite (elem_of_IterateByDelegatee s a d W). naive_solver.
Qed.

Lemma NoDup_fmap_filter {A} (f : A → Z) (P : A → Prop) `{!∀ x, Decision (P x)} l :
  NoDup (f <$> l) → NoDup (f <$> filter P l).
Proof.
intros Hnd. eapply sublist_NoDup; [exact Hnd|]. apply fmap_sublist. clear Hnd.
induction l as [|x l IH]; simpl; [constructor|]. rewrite filter_cons.
case_decide; by constructor.
Qed.

Lemma candidatesOf_NoDup s a : index_wf s → NoDup (Id <$> candidatesOf s a).
Proof.
intros W. unfold candidatesOf. rewrite merge_sort_Permutation.
by apply NoDup_fmap_filter, IterateByDelegatee_NoDup.
Qed.

Lemma candidatesOf_sum s a : index_wf s → sumZ (map leftOf (candidatesOf s a)) = availIn s a.
Proof.
intros W. unfold candidatesOf.
rewrite (sumZ_perm _ _ (Permutation_map leftOf (merge_sort_Permutation _ _))).
transitivity (sumZ (map leftOf (IterateDelegationsByDelegatee s a))).
- assert (H : Forall (fun d => 0 <= leftOf d) (IterateDelegationsByDelegatee s a)).
  { apply Forall_forall. intros d [Hd _]%(elem_of_IterateByDelegatee s a d W).
    apply (iw_del s W) in Hd. destruct Hd. unfold leftOf. lia. }
  induction H as [|d l Hd _ IH]; simpl; [done|]. rewrite filter_cons. unfold leftOf in *.
  case_decide; simpl; lia.
- by rewrite IterateByDelegatee_sum.
Qed.

Section charging.
Implicit Types (s : EnergyStore) (m : gmap Z EnergyDelegation) (a : addr).

Lemma charge_insert m c d :
  m !! DelegationID c = Some d →
  charge c m = <[DelegationID c := with_Used (Used d + cAmount c) d]> m.
Proof.
intros H. apply map_eq. intros id. unfold charge. destruct (decide (id = DelegationID c)) as [->|].
- by rewrite lookup_alter_eq, H, lookup_insert_eq.
- by rewrite lookup_alter_ne, lookup_insert_ne.
Qed.

Lemma uncharge_insert m c d :
  m !! DelegationID c = Some d →
  uncharge c m = <[DelegationID c := with_Used (Used d - cAmount c) d]> m.
Proof.
intros H. apply map_eq. intros id. unfold uncharge. destruct (decide (id = DelegationID c)) as [->|].
- by rewrite lookup_alter_eq, H, lookup_insert_eq.
- by rewrite lookup_alter_ne, lookup_insert_ne.
Qed.

Lemma uncharge_charge m c : uncharge c (charge c m) = m.
Proof.
apply map_eq. intros id. unfold charge, uncharge. destruct (decide (id = DelegationID c)) as [->|].
- rewrite !lookup_alter_eq. destruct (m !! DelegationID c) as [d|]; simpl; [|done].
  destruct d. unfold with_Used. simpl. do 2 f_equal. lia.
- by rewrite !lookup_alter_ne.
Qed.

(** Undoing the consumptions last to first restores the delegations. *)
Lemma uncharge_chargeAll m cs : unchargeAll (chargeAll m cs) (rev cs) = m.
Proof.
revert m. induction cs as [|c cs IH] using rev_ind; intros m; [done|].
unfold chargeAll, unchargeAll in *. rewrite foldl_app, rev_unit. simpl. by rewrite uncharge_charge.
Qed.

Lemma chargeAll_lookup_ne cs id : ∀ m, id ∉ map DelegationID cs → chargeAll m cs !! id = m !! id.
Proof.
induction cs as [|c cs IH]; intros m Hn; simpl; [done|].
simpl in Hn. apply not_elem_of_cons in Hn as [Hne Hn]. unfold chargeAll in *. rewrite IH by done.
unfold charge. by rewrite lookup_alter_ne.
Qed.

(** A consumption only rewrites [Used]. *)
Lemma chargeAll_shape cs : ∀ m id d',
  chargeAll m cs !! id = Some d' → ∃ d, m !! id = Some d ∧ d' = with_Used (Used d') d.
Proof.
induction cs as [|c cs IH]; intros m id d' H; simpl in H.
- exists d'. split; [done|]. by destruct d'.
- apply IH in H as (d & Hd & ->). simpl. unfold charge in Hd.
  apply lookup_alter_Some in Hd as [(_ & d0 & Hd0 & ->)|[_ Hd]]; eauto.
Qed.

Lemma map_sum_charge (f : EnergyDelegation → Z) m c :
  (∀ d u, f (with_Used u d) = f d) → map_sum f (charge c m) = map_sum f m.
Proof.
intros Hf. destruct (m !! DelegationID c) as [d|] eqn:E.
- rewrite (charge_insert m c d E), map_sum_insert, E. simpl. rewrite Hf. lia.
- unfold charge. rewrite alter_id; [done|]. intros x Hx. by rewrite E in Hx.
Qed.

Lemma map_sum_chargeAll (f : EnergyDelegation → Z) cs : ∀ m,
  (∀ d u, f (with_Used u d) = f d) → map_sum f (chargeAll m cs) = map_sum f m.
Proof.
induction cs as [|c cs IH]; intros m Hf; simpl; [done|].
unfold chargeAll in *. rewrite IH by done. by apply map_sum_charge.
Qed.
End charging.

Section attribution.
Implicit Types (s : EnergyStore) (a : addr).

(** Writing back the charged delegations touches their [Used] and nothing else. *)
Lemma foldl_setDelegation ds cs : ∀ s,
  index_wf s → Forall2 fits ds cs → NoDup (Id <$> ds) →
  Forall (fun d => sDelegations s !! Id d = Some d) ds →
  let s' := foldl setDelegation s (zip_with (fun d c => with_Used (Used d + cAmount c) d) ds cs) in
  s' = set_delegations (chargeAll (sDelegations s) cs) s ∧ index_wf s'.
Proof.
intros s W F. revert s W. induction F as [|d c ds cs [Hid Hc] _ IH]; intros s W Hnd Hst; simpl.
- split; [by destruct s|done].
- rewrite fmap_cons in Hnd. apply NoDup_cons in Hnd as [Hn Hnd].
  inversion_clear Hst as [|? ? Hd Hst']. destruct (iw_del s W _ _ Hd) as [Hu _ _].
  rewrite (setDelegation_used s (Id d) d) by done.
  assert (W' : index_wf (set_delegations (<[Id d:=with_Used (Used d + cAmount c) d]> (sDelegations s)) s))
    by (apply index_wf_used; [done..|lia]).
  destruct (IH _ W' Hnd) as [IH1 IH2].
  { rewrite Forall_forall in *. intros d' Hin. simpl. rewrite lookup_insert_ne; [by apply Hst'|].
    intros Heq. apply Hn. rewrite Heq. by apply list_elem_of_fmap_2. }
  split; [|exact IH2]. rewrite IH1. unfold set_delegations at 1. simpl.
  rewrite (charge_insert (sDelegations s) c d) by congruence. by rewrite Hid.
Qed.

Lemma availOf_used a d u :
  availOf a (with_Used u d) = availOf a d - (if decide (Delegatee d = a) then u - Used d else 0).
Proof. unfold availOf. simpl. case_decide; lia. Qed.

Lemma availIn_chargeAll a x ds cs : ∀ m,
  Forall2 fits ds cs → NoDup (Id <$> ds) →
  Forall (fun d => m !! Id d = Some d ∧ Delegatee d = a) ds →
  map_sum (availOf x) (chargeAll m cs) =
  map_sum (availOf x) m - (if decide (a = x) then sumZ (map cAmount cs) else 0).
Proof.
intros m F. revert m. induction F as [|d c ds cs [Hid Hc] _ IH]; intros m Hnd Hst; simpl.
- case_decide; lia.
- rewrite fmap_cons in Hnd. apply NoDup_cons in Hnd as [Hn Hnd].
  inversion_clear Hst as [|? ? [Hd Ha] Hst'].
  unfold chargeAll in IH |- *. rewrite IH; [|done|].
  + rewrite (charge_insert m c d) by congruence. rewrite map_sum_insert, Hid, Hd. simpl.
    rewrite availOf_used, Ha. case_decide; lia.
  + rewrite Forall_forall in *. intros d' Hin. destruct (Hst' d' Hin) as [H1 H2]. split; [|done].
    unfold charge. rewrite lookup_alter_ne; [done|]. rewrite Hid. intros Heq.
    apply Hn. rewrite Heq. by apply list_elem_of_fmap_2.
Qed.

(** What the consumptions of an account refer to. *)
Definition charges (m : gmap Z EnergyDelegation) (a : addr) (cs : list DelegationConsumption) : Prop :=
  ∃ ds, Forall2 fits ds cs ∧ NoDup (Id <$> ds) ∧
        Forall (fun d => m !! Id d = Some d ∧ Delegatee d = a) ds.

Lemma zip_with_take {A X Y} (f : A → X → Y) l l' :
  zip_with f l l' = zip_with f (take (length l') l) l'.
Proof. revert l. induction l' as [|x l' IH]; intros [|y l]; simpl; [done..|]. by rewrite <- IH. Qed.

(** Attribution succeeds exactly when the inbound delegations can cover the
    amount, charges that amount, and writes only [Used] fields. *)
Lemma attribute_spec s a amount :
  index_wf s → 0 <= amount →
  match attributeDelegatedConsumption s a amount with
  | (Ok cs, s') =>
      amount <= availIn s a ∧ sumZ (map cAmount cs) = amount ∧ charges (sDelegations s) a cs ∧
      s' = set_delegations (chargeAll (sDelegations s) cs) s ∧ index_wf s'
  | (Err _, _) => availIn s a < amount
  end.
Proof.
intros W Ha. unfold attributeDelegatedConsumption.
assert (Hnn : 0 <= availIn s a).
{ apply map_sum_nonneg. intros id d Hd. destruct (iw_del s W _ _ Hd). unfold availOf. case_decide; lia. }
destruct (amount =? 0) eqn:E0; boolP.
{ subst. simpl. split_and!; [lia|done| |by destruct s|done]. exists []. split_and!; constructor. }
destruct (attributeLoop amount (candidatesOf s a)) as [[r up] att] eqn:E.
apply attributeLoop_spec in E as (Hr & Hsum & HF & Hup); [|done|].
2:{ apply Forall_forall. intros d Hd. apply candidatesOf_elem in Hd; naive_solver. }
rewrite (candidatesOf_sum s a W) in Hr. destruct (0 <? r) eqn:Er; boolP; [lia|].
assert (Hnd : NoDup (Id <$> take (length att) (candidatesOf s a))).
{ rewrite fmap_take. eapply sublist_NoDup; [by apply (candidatesOf_NoDup s a)|apply sublist_take]. }
assert (Hin : Forall (fun d => sDelegations s !! Id d = Some d ∧ Delegatee d = a)
  (take (length att) (candidatesOf s a))).
{ apply Forall_take, Forall_forall. intros d Hd. apply candidatesOf_elem in Hd; naive_solver. }
rewrite Hup, zip_with_take.
destruct (foldl_setDelegation _ _ s W HF Hnd) as [H1 H2].
{ eapply Forall_impl; [exact Hin|]. naive_solver. }
split_and!; [lia|lia|by eexists|done|done].
Qed.
End attribution.

(** ** Consume: lemmas *)
Section consume_lemmas.
Context {B : Type} {bank : BankOps B}.
Implicit Types (k : Keeper) (ctx : Ctx) (b : B) (s : EnergyStore) (a : addr).

(** How a charge [res] relates to the settled account [acct] and the request. *)
Record paid (acct : EnergyAccount) (gas : Z) (isDeploy : bool) (res : ConsumeResult) : Prop := {
  paid_deploy : 0 <= DeployEnergyUsed res <= DeployEnergyAccrued acct;
  paid_own : 0 <= OwnDeducted res <= ownAvailable acct;
  paid_in : 0 <= DelegatedDeducted res <= DelegatedInUsable acct;
  paid_energy : EnergyDeducted res = OwnDeducted res + DelegatedDeducted res;
  paid_gas : gas = DeployEnergyUsed res + OwnDeducted res + DelegatedDeducted res + ShortfallGas res;
  paid_shortfall : 0 <= ShortfallGas res;
  paid_not_free : Free res = false;
  (** energy first: a later source is drawn on only when the earlier ones are empty *)
  paid_order_own : 0 < DelegatedDeducted res + ShortfallGas res → OwnDeducted res = ownAvailable acct;
  paid_order_in : 0 < ShortfallGas res → DelegatedDeducted res = DelegatedInUsable acct;
  paid_deploy_only : isDeploy = false → DeployEnergyUsed res = 0;
  paid_order_deploy : isDeploy = true → 0 < OwnDeducted res + DelegatedDeducted res + ShortfallGas res →
    DeployEnergyUsed res = DeployEnergyAccrued acct;
}.

(** The account after the charge. *)
Definition charged (acct : EnergyAccount) (res : ConsumeResult) : EnergyAccount :=
  mkEnergyAccount (Address acct) (TxEnergyAccrued acct - OwnDeducted res)
    (DeployEnergyAccrued acct - DeployEnergyUsed res) (LastBalanceSnapshot acct)
    (LastUpdatedTime acct) (DelegatedOut acct) (DelegatedInUsable acct - DelegatedDeducted res)
    (LockedAtos acct) (StakedSnapshot acct).

Lemma take_spec x y :
  0 <= x → 0 <= y →
  (if (0 <? x) && (0 <? y) then minU64 x y else 0) = Z.min x y.
Proof. intros. rewrite minU64_min. destruct (0 <? x) eqn:?, (0 <? y) eqn:?; boolP; simpl; lia. Qed.

Lemma deployTake_spec (isDeploy : bool) x y :
  0 <= x → 0 <= y →
  (if isDeploy && (0 <? y) then minU64 x y else 0) = if isDeploy then Z.min x y else 0.
Proof. intros. rewrite minU64_min. destruct isDeploy, (0 <? y) eqn:?; boolP; simpl; lia. Qed.

Lemma ownAvailable_max acct : ownAvailable acct = Z.max 0 (TxEnergyAccrued acct - DelegatedOut acct).
Proof. unfold ownAvailable. destruct (_ <? _) eqn:?; boolP; lia. Qed.

Lemma SetEnergyAccount_delegations m s acct :
  SetEnergyAccount (set_delegations m s) acct = set_delegations m (SetEnergyAccount s acct).
Proof. done. Qed.

(** The main branch of [Consume], with its outcome. *)
Lemma Consume_main k ctx b s a gas isDeploy urls :
  accounts_keyed s → index_wf s → account_wf (Settle k ctx b s a).1 →
  allSubsidized (GetParams s) urls = false → EnergyEnabled (GetParams s) = true → 0 < gas →
  let acct := (Settle k ctx b s a).1 in
  let s1 := (Settle k ctx b s a).2 in
  match Consume k ctx b s a gas isDeploy urls with
  | (Ok res, s') =>
      paid acct gas isDeploy res ∧ charges (sDelegations s) a (DelegationConsumptions res) ∧
      sumZ (map cAmount (DelegationConsumptions res)) = DelegatedDeducted res ∧
      s' = SetEnergyAccount
             (set_delegations (chargeAll (sDelegations s) (DelegationConsumptions res)) s1)
             (charged acct res) ∧ index_wf s'
  | (Err e, s') => availIn s a < DelegatedInUsable acct
  end.
Proof.
intros Hs W Wa Hsub Hen Hgas acct s1. unfold Consume. rewrite Hsub, Hen. cbn [negb].
rewrite (proj2 (Z.eqb_neq gas 0)) by lia.
destruct (Settle k ctx b s a) as [acct0 s0] eqn:E. subst acct s1. cbn [fst snd] in *.
pose proof (Settle_updates _ _ _ _ _ _ _ Hs E) as U.
pose proof (index_wf_rest _ _ (up_rest _ _ _ _ U) W) as W0.
destruct (rest_parts _ _ (up_rest _ _ _ _ U)) as (_ & Hdel & _).
destruct Wa as [Wt Wd Wo Wi Wl Ws]. unfold is_u64 in *.
rewrite deployTake_spec by lia. set (dt := if isDeploy then _ else 0).
assert (Hdt : 0 <= dt <= DeployEnergyAccrued acct0 ∧ dt <= gas ∧
  (isDeploy = true → dt < gas → dt = DeployEnergyAccrued acct0) ∧ (isDeploy = false → dt = 0))
  by (unfold dt; destruct isDeploy; split_and!; intros; done || lia).
clearbody dt. set (acct1 := with_DeployEnergyAccrued _ _).
replace (ownAvailable acct1) with (ownAvailable acct0) by done.
pose proof (ownAvailable_max acct0) as Hown. rewrite take_spec by (done || lia).
set (ot := Z.min (gas - dt) (ownAvailable acct0)) in *. set (acct2 := with_TxEnergyAccrued _ acct1).
change (DelegatedInUsable acct2) with (DelegatedInUsable acct0).
assert (Hidx : ∀ s x, index_wf s → index_wf (SetEnergyAccount s x)) by (intros; by apply index_wf_accounts).
destruct ((0 <? gas - dt - ot) && (0 <? DelegatedInUsable acct0)) eqn:Ein.
- boolP. rewrite minU64_min. set (it := Z.min (gas - dt - ot) (DelegatedInUsable acct0)) in *.
  pose proof (attribute_spec s0 a it W0 ltac:(lia)) as A.
  destruct (attributeDelegatedConsumption s0 a it) as [[cs|e] s2].
  + destruct A as (A1 & A2 & A3 & A4 & A5). rewrite Hdel in *.
    split_and!; try done; [|by rewrite A4|by apply Hidx]. split; simpl; try done; intros; first [lia | apply Hdt; first [done|lia]].
  + unfold availIn in A |- *. rewrite Hdel in A. lia.
- split_and!; try done.
  + apply andb_false_iff in Ein. rewrite !Z.ltb_ge in Ein. split; simpl; try done; intros; first [lia | apply Hdt; first [done|lia]].
  + exists []. split_and!; constructor.
  + unfold charged, acct2, acct1, with_TxEnergyAccrued, with_DeployEnergyAccrued. simpl.
    rewrite <- Hdel, Z.sub_0_r. by destruct s0.
  + by apply Hidx.
Qed.

(** The branches of [Consume] that leave the store alone. *)
Lemma Consume_idle k ctx b s a gas isDeploy urls :
  allSubsidized (GetParams s) urls = true ∨ EnergyEnabled (GetParams s) = false ∨ gas = 0 →
  ∃ res, Consume k ctx b s a gas isDeploy urls = (Ok res, s) ∧
    EnergyDeducted res = 0 ∧ OwnDeducted res = 0 ∧ DelegatedDeducted res = 0 ∧ DeployEnergyUsed res = 0 ∧
    DelegationConsumptions res = [] ∧
    Free res = allSubsidized (GetParams s) urls ∧
    ShortfallGas res = if allSubsidized (GetParams s) urls then 0 else gas.
Proof.
intros H. unfold Consume. destruct (allSubsidized _ _) eqn:E1; [by eexists|].
destruct (EnergyEnabled _) eqn:E2; simpl; [|by eexists].
destruct H as [H|[H| ->]]; [done|done|]. simpl. by eexists.
Qed.
End consume_lemmas.

(** ** Refund: lemmas *)
Section refund_lemmas.
Implicit Types (s : EnergyStore) (m : gmap Z EnergyDelegation) (a : addr).

(** The delegations with [Used] forgotten: what consumption and refund leave alone. *)
Definition unused m : gmap Z EnergyDelegation := with_Used 0 <$> m.

Lemma unused_lookup m m' id d :
  unused m' = unused m → m' !! id = Some d → ∃ d0, m !! id = Some d0 ∧ with_Used 0 d = with_Used 0 d0.
Proof.
intros H Hd. apply (f_equal (lookup id)) in H. unfold unused in H. rewrite !lookup_fmap, Hd in H.
destruct (m !! id) as [d0|]; [|done]. exists d0. split; [done|]. simpl in H. by apply (inj Some) in H.
Qed.

Lemma unused_sum (f : EnergyDelegation → Z) m m' :
  (∀ d u, f (with_Used u d) = f d) → unused m' = unused m → map_sum f m' = map_sum f m.
Proof.
intros Hf H. rewrite <- (map_sum_ext (fun d => f (with_Used 0 d)) f m) by (intros; apply Hf).
rewrite <- (map_sum_ext (fun d => f (with_Used 0 d)) f m') by (intros; apply Hf).
rewrite <- !(map_sum_fmap f (with_Used 0)). unfold unused in H. by rewrite H.
Qed.

Lemma unused_insert m id d u :
  m !! id = Some d → unused (<[id := with_Used u d]> m) = unused m.
Proof.
intros H. unfold unused. rewrite fmap_insert. apply insert_id. rewrite lookup_fmap, H. done.
Qed.

Lemma unused_chargeAll cs : ∀ m, unused (chargeAll m cs) = unused m.
Proof.
induction cs as [|c cs IH]; intros m; simpl; [done|]. unfold chargeAll in *. rewrite IH.
destruct (m !! DelegationID c) as [d|] eqn:E.
- by rewrite (charge_insert m c d E), unused_insert.
- unfold charge. rewrite alter_id; [done|]. intros x Hx. by rewrite E in Hx.
Qed.

(** What a refund knows of its consumptions: they belong to [a]'s delegations. *)
Definition consumed_from m a (cs : list DelegationConsumption) : Prop :=
  Forall (fun c => 0 <= cAmount c ∧ ∀ d, m !! DelegationID c = Some d → Delegatee d = a) cs.

Lemma consumed_from_unused m m' a cs :
  unused m' = unused m → consumed_from m a cs → consumed_from m' a cs.
Proof.
intros H F. eapply Forall_impl; [exact F|]. intros c [Hc Hd]. split; [done|]. intros d Hl.
destruct (unused_lookup m m' _ d H Hl) as (d0 & H0 & He). specialize (Hd d0 H0).
apply (f_equal Delegatee) in He. simpl in He. congruence.
Qed.

Lemma refundLoop_spec a cs : ∀ s T u u' s',
  index_wf s → 0 <= u <= T → consumed_from (sDelegations s) a cs →
  refundLoop s T u cs = (u', s') →
  u <= u' <= T ∧ index_wf s' ∧ s' = set_delegations (sDelegations s') s ∧
  unused (sDelegations s') = unused (sDelegations s) ∧
  (∀ x, availIn s' x = availIn s x + if decide (a = x) then u' - u else 0).
Proof.
induction cs as [|c cs IH]; simpl; intros s T u u' s' W Hu F H.
- injection H as <- <-. split_and!; try done; [lia|by destruct s|]. intros; case_decide; lia.
- inversion_clear F as [|? ? [Hc Hd] F']. destruct (u <? T) eqn:E; boolP; simpl in H.
  2:{ injection H as <- <-. split_and!; try done; [lia|by destruct s|]. intros; case_decide; lia. }
  unfold GetDelegation in H. destruct (sDelegations s !! DelegationID c) as [d|] eqn:El; [|by eapply IH].
  rewrite minU64_min in H. set (step := if Used d <? _ then _ else _) in H.
  destruct (iw_del s W _ _ El) as [Wu Wam _].
  assert (Hstep : 0 <= step <= Used d ∧ step <= T - u)
    by (unfold step; destruct (_ <? _) eqn:?; boolP; lia).
  destruct (step =? 0) eqn:E0; boolP; [by eapply IH|].
  rewrite (setDelegation_used s _ d _ W El) in H.
  pose proof (unused_insert (sDelegations s) _ d (Used d - step) El) as Hun.
  apply IH in H; [|apply index_wf_used; [done..|lia]|lia|by eapply consumed_from_unused].
  destruct H as (H1 & H2 & H3 & H4 & H5). split_and!; [lia|lia|done|by rewrite H3 at 1|by rewrite H4|].
  intros y. rewrite H5. unfold availIn. simpl. rewrite map_sum_insert, El. simpl.
  rewrite availOf_used, (Hd d eq_refl). case_decide; lia.
Qed.

Lemma chargeAll_used cs : ∀ m id d,
  (∀ id d, m !! id = Some d → 0 <= Used d) → Forall (fun c => 0 <= cAmount c) cs →
  chargeAll m cs !! id = Some d → 0 <= Used d.
Proof.
induction cs as [|c cs IH]; intros m id d Hm F H; simpl in H; [by eapply Hm|].
inversion_clear F. eapply (IH (charge c m)); [|done|exact H].
intros id' d' Hd. unfold charge in Hd.
apply lookup_alter_Some in Hd as [(_ & d0 & Hd0 & ->)|[_ Hd]]; [|by eapply Hm].
specialize (Hm _ _ Hd0). simpl. lia.
Qed.

(** Refunding everything undoes the charge exactly. *)
Lemma refundLoop_full cs : ∀ s m T u,
  index_wf (set_delegations (chargeAll m cs) s) →
  (∀ id d, m !! id = Some d → 0 <= Used d) →
  Forall (fun c => 0 < cAmount c ∧ is_Some (m !! DelegationID c)) cs →
  0 <= u → u + sumZ (map cAmount cs) <= T →
  refundLoop (set_delegations (chargeAll m cs) s) T u (rev cs) =
  (u + sumZ (map cAmount cs), set_delegations m s).
Proof.
induction cs as [|c cs IH] using rev_ind; intros s m T u W Hm F Hu HT.
- simpl in *. f_equal. lia.
- apply Forall_app in F as [F [[Hc Hin] _]%Forall_cons]. rewrite map_app, sumZ_app in *. simpl in *.
  assert (Hnn : 0 <= sumZ (map cAmount cs)).
  { apply sumZ_nonneg, Forall_map. eapply Forall_impl; [exact F|]. simpl. naive_solver lia. }
  rewrite rev_unit. simpl. rewrite (proj2 (Z.ltb_lt u T)) by lia. simpl.
  unfold chargeAll in *. rewrite foldl_app in *. simpl in *.
  set (m1 := foldl (fun m c => charge c m) m cs) in *.
  destruct (m1 !! DelegationID c) as [d1|] eqn:E1.
  2:{ exfalso. destruct Hin as [d Hd]. pose proof (unused_chargeAll cs m) as Hun.
      destruct (unused_lookup m1 m _ d (eq_sym Hun) Hd) as (d0 & H0 & _). congruence. }
  assert (Hu1 : 0 <= Used d1).
  { apply (chargeAll_used cs m (DelegationID c)); [done| |done].
    eapply Forall_impl; [exact F|]. simpl. naive_solver lia. }
  pose proof (charge_insert m1 c d1 E1) as Hch. rewrite Hch in W |- *.
  unfold GetDelegation. simpl. rewrite lookup_insert_eq. simpl. rewrite minU64_min.
  rewrite Z.min_r by lia. rewrite (proj2 (Z.ltb_ge (Used d1 + cAmount c) (cAmount c))) by lia.
  rewrite (proj2 (Z.eqb_neq (cAmount c) 0)) by lia.
  rewrite (setDelegation_used _ (DelegationID c) (with_Used (Used d1 + cAmount c) d1)); [|done|apply lookup_insert_eq].
  simpl. rewrite insert_insert_eq.
  assert (Hd1 : with_Used (Used d1 + cAmount c - cAmount c) (with_Used (Used d1 + cAmount c) d1) = d1).
  { destruct d1. unfold with_Used. simpl. f_equal. lia. }
  rewrite Hd1, (insert_id m1) by done.
  replace (set_delegations m1 (set_delegations (<[DelegationID c:=with_Used (Used d1 + cAmount c) d1]> m1) s))
    with (set_delegations m1 s) by done.
  unfold m1. rewrite IH; [f_equal; lia| |done|done|lia|lia]. fold m1.
  pose proof (index_wf_used _ (DelegationID c) _ (Used d1) W (lookup_insert_eq _ _ _)) as W'.
  simpl in W'. rewrite insert_insert_eq in W'.
  assert (Hd2 : with_Used (Used d1) (with_Used (Used d1 + cAmount c) d1) = d1) by (by destruct d1).
  rewrite Hd2, insert_id in W' by done.
  destruct (iw_del _ W _ _ (lookup_insert_eq _ _ _)) as [Wu _ _]. simpl in Wu. apply W'. lia.
Qed.
End refund_lemmas.

(** ** RefundEnergy in closed form *)
Section refund_energy.
Implicit Types (s : EnergyStore) (a : addr).

Lemma refundLoop_zero s cs : refundLoop s 0 0 cs = (0, s).
Proof. by destruct cs. Qed.

Lemma with_DelegatedInUsable_id acct : with_DelegatedInUsable (DelegatedInUsable acct) acct = acct.
Proof. by destruct acct. Qed.
Lemma with_TxEnergyAccrued_id acct : with_TxEnergyAccrued (TxEnergyAccrued acct) acct = acct.
Proof. by destruct acct. Qed.

(** The amounts a refund of [amount] sends to the delegations and to the signer. *)
Definition delPart (amount : Z) (res : ConsumeResult) : Z := Z.min amount (DelegatedDeducted res).
Definition ownPart (amount : Z) (res : ConsumeResult) : Z :=
  Z.min (amount - delPart amount res) (OwnDeducted res).

Definition refunded (p : Params) (amount undone : Z) (res : ConsumeResult) (acct : EnergyAccount)
    : EnergyAccount :=
  let own := ownPart amount res in
  let cap := TxEnergyCapacity (LastBalanceSnapshot acct) p in
  with_TxEnergyAccrued
    (if 0 <? own then Z.min (Z.min (TxEnergyAccrued acct + own) maxU64) cap else TxEnergyAccrued acct)
    (with_DelegatedInUsable (Z.min (DelegatedInUsable acct + undone) maxU64) acct).

Lemma RefundEnergy_spec s a amount0 res undone s2 :
  is_u64 (OwnDeducted res) → is_u64 (DelegatedDeducted res) → 0 <= amount0 →
  let acct := GetEnergyAccount s a in
  account_wf acct →
  let amount := Z.min amount0 (Z.min (OwnDeducted res + DelegatedDeducted res) maxU64) in
  refundLoop s (delPart amount res) 0 (rev (DelegationConsumptions res)) = (undone, s2) →
  0 <= undone <= maxU64 → GetParams s2 = GetParams s →
  RefundEnergy s a amount0 res =
  if amount =? 0 then s else SetEnergyAccount s2 (refunded (GetParams s) amount undone res acct).
Proof.
intros Ho Hd H0 acct Wa amount Hloop Hun Hpar. unfold RefundEnergy.
rewrite saturatingAdd_spec by done. destruct Wa as [Wt _ _ Wi _ _]. unfold is_u64 in *.
assert (Hpos : 0 <= amount) by (unfold amount, maxU64; lia).
assert (Hamt : (if Z.min (OwnDeducted res + DelegatedDeducted res) maxU64 <? amount0
  then Z.min (OwnDeducted res + DelegatedDeducted res) maxU64 else amount0) = amount).
{ unfold amount. destruct (_ <? amount0) eqn:?; boolP; lia. }
destruct (amount0 =? 0) eqn:E0; boolP.
{ subst amount0. replace amount with 0 by (unfold amount, maxU64; lia). done. }
rewrite Hamt. destruct (amount =? 0) eqn:E1; boolP; [done|].
rewrite !minU64_min. fold (delPart amount res). fold (ownPart amount res). fold acct.
assert (Hown : 0 <= ownPart amount res <= maxU64) by (unfold ownPart, delPart; lia).
unfold refunded. destruct (0 <? delPart amount res) eqn:E2; boolP.
- rewrite Hloop, Hpar, (saturatingAdd_spec (DelegatedInUsable acct)) by (unfold is_u64; lia).
  cbn [TxEnergyAccrued LastBalanceSnapshot with_DelegatedInUsable].
  rewrite (saturatingAdd_spec (TxEnergyAccrued acct)), minU64_min by (unfold is_u64; lia).
  by destruct (0 <? ownPart amount res).
- assert (delPart amount res = 0) as Hz by (unfold delPart in *; lia).
  rewrite Hz, refundLoop_zero in Hloop. injection Hloop as <- <-.
  rewrite Z.add_0_r, (Z.min_l (DelegatedInUsable acct)), with_DelegatedInUsable_id by lia.
  destruct (0 <? ownPart amount res); [|by rewrite with_TxEnergyAccrued_id].
  by rewrite saturatingAdd_spec, minU64_min by (unfold is_u64; lia).
Qed.

Lemma fits_pos ds cs : Forall2 fits ds cs → Forall (fun c => 0 < cAmount c) cs.
Proof. induction 1 as [|d c ds cs [_ Hc] _ IH]; constructor; [lia|done]. Qed.

Lemma charges_pos m a cs :
  charges m a cs → Forall (fun c => 0 < cAmount c ∧ is_Some (m !! DelegationID c)) cs.
Proof.
intros (ds & F & _ & F3). induction F as [|d c ds cs [Hid Hc] _ IH]; [constructor|].
inversion_clear F3 as [|? ? [Hd _] F3']. constructor; [|by apply IH].
split; [lia|]. by rewrite Hid, Hd.
Qed.

Lemma charges_nil m a cs : charges m a cs → sumZ (map cAmount cs) = 0 → cs = [].
Proof.
intros Hc Hs. apply charges_pos in Hc. destruct Hc as [|c cs [Hp _] F]; [done|]. simpl in Hs.
assert (0 <= sumZ (map cAmount cs)); [|lia]. apply sumZ_nonneg, Forall_map.
eapply Forall_impl; [exact F|]. simpl. naive_solver lia.
Qed.
End refund_energy.
