(* ===== verification/EnergySpending.v ===== *)
(** * Spending energy: what [Consume] and [RefundEnergy] guarantee

    Properties of src/x/energy/keeper/consume.go. *)

From stdpp Require Import gmap strings list sorting.
From Stdlib Require Import ZArith Lia.
From S2P Require Import Prelude SdkMath Bank EnergyTypes EnergyKeeper EnergyIndex EnergyConsume.

Open Scope Z_scope.

(** ** The order of attribution *)

(** Every charged delegation but the last is charged in full. *)
Lemma attributeLoop_greedy : ∀ cands r r' up att i j d c,
  Forall (fun d => Used d < Amount d) cands → 0 <= r →
  attributeLoop r cands = (r', up, att) →
  (i < j < length att)%nat → cands !! i = Some d → att !! i = Some c → cAmount c = leftOf d.
Proof.
induction cands as [|d0 ds IH]; intros r r' up att i j d c Hf Hr H Hij Hd Hc; [done|].
simpl in H. inversion_clear Hf as [|? ? Hd0 Hds].
destruct (r =? 0) eqn:E; boolP; [injection H as <- <- <-; simpl in Hij; lia|].
rewrite minU64_min in H. destruct (attributeLoop _ ds) as [[r1 up1] att1] eqn:E1.
injection H as <- <- <-. destruct i as [|i]; simpl in *.
- injection Hd as <-. injection Hc as <-. simpl. unfold leftOf.
  destruct (decide (r <= Amount d0 - Used d0)) as [Hle|]; [|lia]. exfalso.
  rewrite Z.min_l, Z.sub_diag in E1 by lia. destruct ds; simpl in E1; injection E1 as <- <- <-; simpl in Hij; lia.
- destruct j as [|j]; [lia|]. eapply (IH _ _ _ _ i j); [done| |exact E1|lia|done|done]. lia.
Qed.

Lemma expires_le_total d1 d2 : expires_le d1 d2 ∨ expires_le d2 d1.
Proof. unfold expires_le. lia. Qed.
#[local] Instance expires_le_Total : Total expires_le.
Proof. exact expires_le_total. Qed.
#[local] Instance expires_le_Trans : Transitive expires_le.
Proof. intros x y z. unfold expires_le. lia. Qed.

Lemma StronglySorted_lookup_le {A} (R : relation A) l i j x y :
  StronglySorted R l → (i < j)%nat → l !! i = Some x → l !! j = Some y → R x y.
Proof.
intros HS. revert i j. induction HS as [|z l HS IH HF]; intros i j Hij Hx Hy; [done|].
destruct j as [|j]; [lia|]. simpl in Hy. destruct i as [|i]; simpl in Hx.
- injection Hx as <-. rewrite Forall_forall in HF. apply HF. by apply list_elem_of_lookup_2 in Hy.
- eapply (IH i j); [lia|done|done].
Qed.

Lemma candidatesOf_order s a i j d1 d2 :
  candidatesOf s a !! i = Some d1 → candidatesOf s a !! j = Some d2 →
  ExpiresAt d1 < ExpiresAt d2 → (i < j)%nat.
Proof.
intros H1 H2 Hlt. destruct (decide (i < j)%nat) as [|Hn]; [done|].
destruct (decide (i = j)) as [->|]; [simplify_eq; lia|].
assert (R : expires_le d2 d1).
{ eapply (StronglySorted_lookup_le _ (candidatesOf s a) j i); [|lia|done|done].
  apply StronglySorted_merge_sort; apply _. }
unfold expires_le in R. lia.
Qed.

Lemma chargeAll_lookup cs : ∀ m i c d,
  NoDup (map DelegationID cs) → cs !! i = Some c → m !! DelegationID c = Some d →
  chargeAll m cs !! DelegationID c = Some (with_Used (Used d + cAmount c) d).
Proof.
induction cs as [|c0 cs IH]; intros m i c d Hnd Hi Hd; [done|].
simpl in *. apply NoDup_cons in Hnd as [Hn Hnd]. destruct i as [|i]; simpl in Hi.
- injection Hi as ->. rewrite chargeAll_lookup_ne by done. unfold charge. by rewrite lookup_alter_eq, Hd.
- apply (IH (charge c0 m) i c d); [done|done|]. unfold charge. rewrite lookup_alter_ne; [done|].
  intros Heq. apply Hn. rewrite Heq. apply list_elem_of_fmap. exists c. split; [done|].
  by apply list_elem_of_lookup_2 in Hi.
Qed.

Section spending.
Context {B : Type} {bank : BankOps B}.
Implicit Types (k : Keeper) (ctx : Ctx) (b : B) (s : EnergyStore) (a : addr).

Lemma fits_ids ds cs : Forall2 fits ds cs → map DelegationID cs = Id <$> ds.
Proof. induction 1 as [|d c ds cs [Hid _] _ IH]; [done|]. simpl. f_equal; [exact Hid|exact IH]. Qed.

(** borrowed energy is spent soonest-to-expire first: if a later-expiring
    delegation was charged, every earlier-expiring inbound delegation of the
    same account has been used up. *)
Theorem attribution_soonest_first s a amount cs s' d1 d2 d2' :
  index_wf s → 0 <= amount →
  attributeDelegatedConsumption s a amount = (Ok cs, s') →
  sDelegations s !! Id d1 = Some d1 → Delegatee d1 = a →
  sDelegations s !! Id d2 = Some d2 → Delegatee d2 = a →
  ExpiresAt d1 < ExpiresAt d2 →
  sDelegations s' !! Id d2 = Some d2' → Used d2 < Used d2' →
  sDelegations s' !! Id d1 = Some (with_Used (Amount d1) d1).
Proof.
intros W Ha H Hd1 A1 Hd2 A2 Hexp Hd2' Hused.
pose proof (attribute_spec s a amount W Ha) as Sp. rewrite H in Sp.
destruct Sp as (_ & _ & _ & -> & _). simpl in *.
unfold attributeDelegatedConsumption in H. destruct (amount =? 0) eqn:E0.
{ injection H as <- Hs. simpl in Hd2'. simplify_eq. lia. }
destruct (attributeLoop amount (candidatesOf s a)) as [[r up] att] eqn:E.
assert (HF : Forall (fun d => Used d < Amount d) (candidatesOf s a)).
{ apply Forall_forall. intros d Hd. apply candidatesOf_elem in Hd; naive_solver. }
pose proof (attributeLoop_spec _ _ _ _ _ Ha HF E) as (_ & _ & Hfit & _).
destruct (0 <? r); [done|]. injection H as <- _.
pose proof (fits_ids _ _ Hfit) as Hids.
assert (Hnd : NoDup (map DelegationID att)).
{ rewrite Hids, fmap_take. eapply sublist_NoDup; [by apply (candidatesOf_NoDup s a)|apply sublist_take]. }
(* d2 was charged, so it is at some position j of the attribution *)
destruct (decide (Id d2 ∈ map DelegationID att)) as [Hin2|Hn2].
2:{ rewrite chargeAll_lookup_ne in Hd2' by done. simplify_eq. lia. }
rewrite Hids in Hin2. apply list_elem_of_fmap in Hin2 as (x & Hx & [j Hj]%list_elem_of_lookup_1).
apply lookup_take_Some in Hj as [Hj Hjl].
assert (x = d2) as ->.
{ apply list_elem_of_lookup_2 in Hj. apply candidatesOf_elem in Hj; [|done]. rewrite <- Hx in Hj. naive_solver. }
destruct (decide (Used d1 < Amount d1)) as [Hlt|Hge].
- assert (Hin1 : d1 ∈ candidatesOf s a) by (by apply candidatesOf_elem).
  apply list_elem_of_lookup_1 in Hin1 as [i Hi].
  pose proof (candidatesOf_order s a i j d1 d2 Hi Hj Hexp) as Hij.
  destruct (lookup_lt_is_Some_2 att i ltac:(lia)) as [c Hc].
  pose proof (attributeLoop_greedy _ _ _ _ _ i j d1 c HF Ha E ltac:(lia) Hi Hc) as Hfull.
  assert (Hidc : DelegationID c = Id d1).
  { destruct (Forall2_lookup_r _ _ _ _ _ Hfit Hc) as (d & Hd & [Hid _]).
    apply lookup_take_Some in Hd as [Hd _]. congruence. }
  rewrite <- Hidc. rewrite (chargeAll_lookup att _ i c d1) by congruence.
  unfold leftOf in Hfull. do 2 f_equal. lia.
- destruct (iw_del s W _ _ Hd1) as [Hu _ _]. rewrite chargeAll_lookup_ne.
  + rewrite Hd1. f_equal. destruct d1; unfold with_Used; simpl in *. f_equal. lia.
  + rewrite Hids. intros Hin.
    apply list_elem_of_fmap in Hin as (y & Hy & [n [Hn _]%lookup_take_Some]%list_elem_of_lookup_1).
    apply list_elem_of_lookup_2 in Hn. apply candidatesOf_elem in Hn as (Hn & _ & Hlt); [|done].
    rewrite <- Hy in Hn. simplify_eq. lia.
Qed.

(** gas is accounted for exactly once: every unit asked for is paid from the
    deploy bucket, the signer's own unlent energy, borrowed energy or is
    returned as shortfall, in that order of preference; the signer's buckets are
    reduced by exactly those amounts and the delegations charged add up to the
    borrowed part. *)
Theorem Consume_accounts_for_gas k ctx b s a gas isDeploy urls res s' :
  params_wf (GetParams s) → accounts_keyed s → index_wf s → account_wf (GetEnergyAccount s a) →
  allSubsidized (GetParams s) urls = false → EnergyEnabled (GetParams s) = true → 0 < gas →
  Consume k ctx b s a gas isDeploy urls = (Ok res, s') →
  let acct := (Settle k ctx b s a).1 in
  paid acct gas isDeploy res ∧
  GetEnergyAccount s' a = charged acct res ∧
  (∀ x, x ≠ a → GetEnergyAccount s' x = GetEnergyAccount s x) ∧
  sumZ (map cAmount (DelegationConsumptions res)) = DelegatedDeducted res ∧
  (∀ x, availIn s' x = availIn s x - if decide (a = x) then DelegatedDeducted res else 0) ∧
  index_wf s'.
Proof.
intros Hp Hs W Wa Hsub Hen Hg H acct. pose proof (Settle_wf k ctx b s a Hp Wa) as Ws.
pose proof (Consume_main k ctx b s a gas isDeploy urls Hs W Ws Hsub Hen Hg) as M. rewrite H in M.
cbv zeta in M. fold acct in M. destruct M as (M1 & (ds & F1 & F2 & F3) & M3 & M4 & M5).
destruct (Settle k ctx b s a) as [acct0 s1] eqn:E. simpl in *. subst acct.
pose proof (Settle_updates _ _ _ _ _ _ _ Hs E) as U.
assert (Ha : Address acct0 = a).
{ pose proof (Settle_counters k ctx b s a) as [C _]. rewrite E in C. simpl in C. rewrite C.
  by apply GetEnergyAccount_Address. }
rewrite SetEnergyAccount_delegations in M4.
pose proof (updates_Set _ _ _ _ (charged acct0 res) U Ha) as U'.
split_and!; [done| | |done| |done].
- rewrite M4. exact (updates_get _ _ _ _ U').
- intros x Hx. rewrite M4. exact (updates_get_ne _ _ _ _ _ U' Hx).
- intros x. rewrite M4. unfold availIn. simpl. rewrite <- M3. by apply availIn_chargeAll with ds.
Qed.

(** With the borrowed total backed by the records the charge goes through. *)
Lemma Consume_ok k ctx b s a gas isDeploy urls :
  params_wf (GetParams s) → accounts_keyed s → index_wf s → account_wf (GetEnergyAccount s a) →
  0 <= gas → DelegatedInUsable (GetEnergyAccount s a) <= availIn s a →
  ∃ res s', Consume k ctx b s a gas isDeploy urls = (Ok res, s').
Proof.
intros Hp Hs W Wa Hg Hin. pose proof (Settle_wf k ctx b s a Hp Wa) as Ws.
pose proof (Consume_main k ctx b s a gas isDeploy urls Hs W Ws) as M.
pose proof (Consume_idle k ctx b s a gas isDeploy urls) as I.
destruct (allSubsidized (GetParams s) urls); [destruct I as (? & ? & _); eauto|].
destruct (EnergyEnabled (GetParams s)); [|destruct I as (? & ? & _); eauto].
destruct (decide (gas = 0)); [destruct I as (? & ? & _); eauto|].
specialize (M eq_refl eq_refl ltac:(lia)). cbv zeta in M.
destruct (Consume _ _ _ _ _ _ _ _) as [[res|e] s']; [eauto|].
destruct (Settle_counters k ctx b s a) as (_ & _ & C & _). lia.
Qed.

(** spending never fails as long as the cached borrowed total of the signer
    does not exceed what its inbound delegations have left. *)
Theorem Consume_no_drift k ctx b s a gas isDeploy urls :
  params_wf (GetParams s) → accounts_keyed s → index_wf s → account_wf (GetEnergyAccount s a) → 0 <= gas →
  is_ok (Consume k ctx b s a gas isDeploy urls).1 = true ∨ availIn s a < DelegatedInUsable (GetEnergyAccount s a).
Proof.
intros Hp Hs W Wa Hg. destruct (decide (DelegatedInUsable (GetEnergyAccount s a) <= availIn s a)) as [Hin|Hin]; [left|right; lia].
by destruct (Consume_ok k ctx b s a gas isDeploy urls Hp Hs W Wa Hg Hin) as (res & s' & ->).
Qed.

(** the fee estimate agrees with what will be charged: for an account that
    has been touched before, [EstimateConsume] predicts the energy, the deploy
    energy, the shortfall and the subsidy of [Consume]. *)
Theorem EstimateConsume_agrees k ctx b s a gas isDeploy urls res s' :
  params_wf (GetParams s) → accounts_keyed s → index_wf s → account_wf (GetEnergyAccount s a) →
  LastUpdatedTime (GetEnergyAccount s a) ≠ 0 → 0 <= gas →
  Consume k ctx b s a gas isDeploy urls = (Ok res, s') →
  let est := EstimateConsume ctx s a gas isDeploy urls in
  EnergyDeducted est = EnergyDeducted res ∧ DeployEnergyUsed est = DeployEnergyUsed res ∧
  ShortfallGas est = ShortfallGas res ∧ Free est = Free res.
Proof.
intros Hp Hs W Wa Ht Hg H. pose proof (Settle_wf k ctx b s a Hp Wa) as Ws.
pose proof (Consume_main k ctx b s a gas isDeploy urls Hs W Ws) as M.
pose proof (Consume_idle k ctx b s a gas isDeploy urls) as I. rewrite H in M, I.
unfold EstimateConsume. rewrite (SimulateSettle_Settle k ctx b s a Ht).
destruct (allSubsidized (GetParams s) urls) eqn:E1.
{ destruct I as (r & Hr & I1 & I2 & I3 & I4 & I5 & I6 & I7); [by left|]. injection Hr as <- _. done. }
destruct (EnergyEnabled (GetParams s)) eqn:E2; simpl.
2:{ destruct I as (r & Hr & I1 & I2 & I3 & I4 & I5 & I6 & I7); [by right; left|]. injection Hr as <- _. done. }
destruct (Settle k ctx b s a).1 as [ad tx dp snap lu out inn lk sk] eqn:E. simpl in *.
destruct Ws as [Wt Wd Wo Wi _ _]. simpl in *. unfold is_u64 in *.
unfold with_LastUpdatedTime. simpl. rewrite !(deployTake_spec isDeploy gas dp) by lia. unfold ownAvailable. cbn [DelegatedOut TxEnergyAccrued with_LastUpdatedTime].
pose proof (ownAvailable_max (mkEnergyAccount ad tx dp snap lu out inn lk sk)) as Hown. unfold ownAvailable in *.
simpl in *. set (oa := if out <? tx then tx - out else 0) in *.
set (dt := if isDeploy then Z.min gas dp else 0).
assert (Hdt : 0 <= dt <= gas ∧ dt <= dp) by (unfold dt; destruct isDeploy; lia).
rewrite take_spec by (done || lia). rewrite take_spec by (done || lia).
destruct (decide (gas = 0)) as [->|].
{ destruct I as (r & Hr & I1 & I2 & I3 & I4 & I5 & I6 & I7); [by right; right|]. injection Hr as <- _.
  rewrite I1, I4, I6, I7. split_and!; lia || done. }
destruct (M eq_refl eq_refl ltac:(lia)) as ([P1 P2 P3 P4 P5 P6 P7 P8 P9 P11 P10] & _).
simpl in *. unfold ownAvailable in *; simpl in *. fold oa in P2, P8.
assert (Hd : DeployEnergyUsed res = dt).
{ destruct isDeploy; [specialize (P10 eq_refl)|specialize (P11 eq_refl)]; lia. }
split_and!; try done; lia.
Qed.

(** A charge leaves a well-formed account. *)
Lemma charged_wf acct gas isDeploy res :
  account_wf acct → paid acct gas isDeploy res → account_wf (charged acct res).
Proof.
intros [Wt Wd Wo Wi Wl Ws] [P1 P2 P3 P4 P5 P6 P7 P8 P9 P11 P10].
pose proof (ownAvailable_max acct). split; simpl; unfold is_u64 in *; lia.
Qed.

Lemma paid_bounds acct gas isDeploy res :
  account_wf acct → gas <= maxU64 → paid acct gas isDeploy res →
  is_u64 (OwnDeducted res) ∧ is_u64 (DelegatedDeducted res) ∧ is_u64 (EnergyDeducted res).
Proof.
intros [Wt Wd Wo Wi Wl Ws] Hg [P1 P2 P3 P4 P5 P6 P7 P8 P9 P11 P10].
pose proof (ownAvailable_max acct). unfold is_u64 in *. lia.
Qed.

Lemma refunded_charged p acct gas res :
  account_wf acct → gas <= maxU64 → paid acct gas false res →
  TxEnergyAccrued acct <= TxEnergyCapacity (LastBalanceSnapshot acct) p →
  refunded p (EnergyDeducted res) (DelegatedDeducted res) res (charged acct res) = acct.
Proof.
intros [Wt Wd Wo Wi Wl Ws] Hg [P1 P2 P3 P4 P5 P6 P7 P8 P9 P11 P10] Hcap.
pose proof (ownAvailable_max acct). specialize (P11 eq_refl).
unfold refunded, ownPart, delPart, charged. unfold is_u64 in *. simpl.
rewrite P4, P11. destruct acct; unfold with_TxEnergyAccrued, with_DelegatedInUsable; simpl in *.
destruct (0 <? _) eqn:?; boolP; f_equal; lia.
Qed.

(** a reservation that is refunded in full leaves no trace: after [Consume]
    and [RefundEnergy] of all energy deducted, the store is the settled one, with
    every delegation's usage, the borrowed total and the own bucket restored. *)
Theorem Consume_refund_roundtrip k ctx b s a gas urls res s' :
  params_wf (GetParams s) → accounts_keyed s → index_wf s → account_wf (GetEnergyAccount s a) →
  allSubsidized (GetParams s) urls = false → EnergyEnabled (GetParams s) = true →
  0 < gas <= maxU64 →
  let acct := (Settle k ctx b s a).1 in
  TxEnergyAccrued acct <= TxEnergyCapacity (LastBalanceSnapshot acct) (GetParams s) →
  Consume k ctx b s a gas false urls = (Ok res, s') →
  RefundEnergy s' a (EnergyDeducted res) res = SetEnergyAccount (Settle k ctx b s a).2 acct.
Proof.
intros Hp Hs W Wa Hsub Hen Hg acct Hcap H. pose proof (Settle_wf k ctx b s a Hp Wa) as Ws.
pose proof (Consume_main k ctx b s a gas false urls Hs W Ws Hsub Hen ltac:(lia)) as M. rewrite H in M.
cbv zeta in M. fold acct in M, Ws. destruct M as (Hpaid & Hch & Hsum & Hs' & W').
destruct (Settle k ctx b s a) as [acct0 s1] eqn:E. simpl in *. subst acct.
pose proof (Settle_updates _ _ _ _ _ _ _ Hs E) as U.
destruct (rest_parts _ _ (up_rest _ _ _ _ U)) as (_ & Hdel & _).
assert (Ha : Address acct0 = a).
{ pose proof (Settle_counters k ctx b s a) as [C _]. rewrite E in C. simpl in C. rewrite C.
  by apply GetEnergyAccount_Address. }
rewrite SetEnergyAccount_delegations in Hs'.
pose proof (updates_Set _ _ _ _ (charged acct0 res) U Ha) as U'.
assert (Hget : GetEnergyAccount s' a = charged acct0 res) by (rewrite Hs'; exact (updates_get _ _ _ _ U')).
assert (Hpar : GetParams s' = GetParams s).
{ rewrite Hs'. exact (GetParams_rest _ _ (up_rest _ _ _ _ U')). }
pose proof (paid_bounds acct0 gas false res Ws ltac:(lia) Hpaid) as (Ho & Hd & He).
pose proof (refunded_charged (GetParams s) acct0 gas res Ws ltac:(lia) Hpaid Hcap) as Hback.
assert (Hs1 : set_delegations (sDelegations s) (SetEnergyAccount s1 (charged acct0 res)) =
  SetEnergyAccount s1 (charged acct0 res)) by (rewrite <- Hdel; by destruct s1).
assert (Hamt : Z.min (EnergyDeducted res) (Z.min (OwnDeducted res + DelegatedDeducted res) maxU64) =
  EnergyDeducted res) by (pose proof (paid_energy _ _ _ _ Hpaid); unfold is_u64 in *; lia).
rewrite (RefundEnergy_spec s' a _ res (DelegatedDeducted res) (SetEnergyAccount s1 (charged acct0 res)));
  rewrite ?Hamt, ?Hget; [|done|done|unfold is_u64 in *; lia|by eapply charged_wf| |exact Hd|].
- rewrite Hpar, Hback. destruct (EnergyDeducted res =? 0) eqn:E0; boolP.
  + assert (Hz : OwnDeducted res = 0 ∧ DelegatedDeducted res = 0).
    { pose proof (paid_energy _ _ _ _ Hpaid). unfold is_u64 in *. lia. }
    rewrite Hs', (charges_nil _ _ _ Hch) by lia.
    transitivity (SetEnergyAccount s1 (charged acct0 res)); [exact Hs1|]. f_equal. unfold charged.
    rewrite (proj1 Hz), (proj2 Hz), (paid_deploy_only _ _ _ _ Hpaid eq_refl), !Z.sub_0_r. by destruct acct0.
  + unfold SetEnergyAccount, set_accounts. simpl. by rewrite insert_insert_eq.
- replace (delPart (EnergyDeducted res) res) with (DelegatedDeducted res).
  2:{ unfold delPart. rewrite (paid_energy _ _ _ _ Hpaid). unfold is_u64 in *. lia. }
  rewrite Hs', refundLoop_full; rewrite ?Hsum; [by rewrite Hs1|by rewrite <- Hs'| |by eapply charges_pos|lia|lia].
  intros id d Hid. destruct (iw_del s W _ _ Hid) as [Hused _ _]. lia.
- rewrite Hpar. exact (GetParams_rest _ _ (up_rest _ _ _ _ U')).
Qed.

(** a refund never turns borrowed energy into own energy: whatever happened
    to the delegations in the meantime, the own bucket grows by at most the part
    of the refund that exceeds the borrowed part, and the borrowed total grows by
    exactly the usage that was rolled back on live delegations. *)
Theorem RefundEnergy_no_spill s a amount res :
  params_wf (GetParams s) → accounts_keyed s → index_wf s → account_wf (GetEnergyAccount s a) →
  is_u64 (OwnDeducted res) → is_u64 (DelegatedDeducted res) → is_u64 amount →
  consumed_from (sDelegations s) a (DelegationConsumptions res) →
  availIn s a + DelegatedDeducted res <= maxU64 →
  DelegatedInUsable (GetEnergyAccount s a) <= availIn s a →
  let s' := RefundEnergy s a amount res in
  let acct := GetEnergyAccount s a in
  let acct' := GetEnergyAccount s' a in
  TxEnergyAccrued acct' <= TxEnergyAccrued acct + Z.min (OwnDeducted res) (Z.max 0 (amount - DelegatedDeducted res)) ∧
  DelegatedInUsable acct' - DelegatedInUsable acct = availIn s' a - availIn s a ∧
  0 <= availIn s' a - availIn s a <= Z.min amount (DelegatedDeducted res) ∧
  index_wf s'.
Proof.
intros Hp Hs W Wa Ho Hd Ha Hc Hmax Hin s' acct acct'.
set (amt := Z.min amount (Z.min (OwnDeducted res + DelegatedDeducted res) maxU64)).
destruct (refundLoop s (delPart amt res) 0 (rev (DelegationConsumptions res))) as [u s2] eqn:E.
assert (Hamt : 0 <= amt) by (unfold amt, is_u64, maxU64 in *; lia).
assert (Hdp : 0 <= 0 <= delPart amt res) by (unfold delPart, is_u64 in *; lia).
pose proof (refundLoop_spec a _ _ _ _ _ _ W Hdp (Forall_rev Hc) E)
  as (Hu & W2 & Hs2 & _ & Hav).
assert (Hpar : GetParams s2 = GetParams s) by (by rewrite Hs2).
assert (Hu' : 0 <= u <= DelegatedDeducted res ∧ u <= amt ∧ amt <= amount) by (unfold delPart, amt in *; lia).
pose proof (RefundEnergy_spec s a amount res u s2 Ho Hd ltac:(unfold is_u64 in *; lia) Wa E
  ltac:(unfold is_u64 in *; lia) Hpar) as Hr.
fold s' amt acct in Hr. subst acct'. destruct (amt =? 0) eqn:E0; boolP.
{ rewrite Hr. fold acct. assert (u = 0) by lia. unfold is_u64 in *. split_and!; try done; lia. }
specialize (Hav a). rewrite decide_True in Hav by done.
assert (K2 : accounts_keyed s2) by (rewrite Hs2; exact Hs).
assert (Ha2 : Address acct = a) by (by apply GetEnergyAccount_Address).
pose proof (Set_updates s2 (refunded (GetParams s) amt u res acct) a K2 Ha2) as U. rewrite <- Hr in U.
assert (Hav' : availIn s' a = availIn s2 a) by (by rewrite Hr).
rewrite (updates_get _ _ _ _ U), Hav', Hav. destruct Wa as [Wt _ _ Wi _ _]. fold acct in Wt, Wi, Hin.
unfold refunded, ownPart, delPart in *. simpl. unfold is_u64, amt in *.
split_and!; [|lia|lia|lia|].
- destruct (0 <? _) eqn:?; boolP; lia.
- rewrite Hr. by apply index_wf_accounts.
Qed.
End spending.

(** Concrete inputs: bob has 100 units of his own and has borrowed 40 units
    until 2000 and 30 until 1500. *)
Module Lent.
Definition keeper : Keeper := mkKeeper None None "gov" "liao" (fun a => Some a).
Definition d1 : EnergyDelegation := mkEnergyDelegation 1 "alice" "bob" 40 10 900 2000 0.
Definition d2 : EnergyDelegation := mkEnergyDelegation 2 "carol" "bob" 30 10 900 1500 0.
Definition bob : EnergyAccount := mkEnergyAccount "bob" 100 0 (60000 * atosUnit) 1000 0 70 0 0.
Definition store : EnergyStore :=
  set_accounts {["bob" := bob]} (setDelegation (setDelegation emptyStore d1) d2).
Definition bank : ledger := mkLedger ∅ ∅.
Definition ctx : Ctx := mkCtx 1000 7.
Definition outcome := Consume keeper ctx bank store "bob" 140 false ["/cosmos.bank.v1beta1.MsgSend"%string].

Lemma store_index : index_wf store.
Proof.
apply index_wf_accounts, index_wf_set; [|split; vm_compute; intuition discriminate|done].
apply index_wf_set; [apply index_wf_empty|split; vm_compute; intuition discriminate|done].
Qed.
Lemma lent_keyed : accounts_keyed store.
Proof. intros a x. simpl. intros [<- <-]%lookup_singleton_Some. done. Qed.
Lemma bob_wf : account_wf (GetEnergyAccount store "bob").
Proof. split; vm_compute; intuition discriminate. Qed.
End Lent.

Lemma attribution_soonest_first_witness :
  ∃ cs s', attributeDelegatedConsumption Lent.store "bob" 35 = (Ok cs, s') ∧
  sDelegations s' !! 2 = Some (with_Used 30 Lent.d2).
Proof.
eexists _, _. split; [vm_compute; reflexivity|].
eapply (attribution_soonest_first Lent.store "bob" 35 _ _ Lent.d2 Lent.d1 (with_Used 5 Lent.d1));
  [exact Lent.store_index|lia|vm_compute; reflexivity|..]; by vm_compute.
Defined.

Lemma Consume_accounts_for_gas_witness :
  ∃ res s', Lent.outcome = (Ok res, s') ∧ OwnDeducted res = 100 ∧ DelegatedDeducted res = 40 ∧
  GetEnergyAccount s' "bob" = charged (Settle Lent.keeper Lent.ctx Lent.bank Lent.store "bob").1 res.
Proof.
eexists _, _. split; [vm_compute; reflexivity|]. do 2 (split; [reflexivity|]).
refine (proj1 (proj2 (Consume_accounts_for_gas Lent.keeper Lent.ctx Lent.bank Lent.store "bob" 140 false
  ["/cosmos.bank.v1beta1.MsgSend"%string] _ _ _ Lent.lent_keyed Lent.store_index Lent.bob_wf _ _ _ _)));
  [exact DefaultParams_wf|reflexivity|reflexivity|lia|vm_compute; reflexivity].
Defined.

Lemma Consume_no_drift_witness :
  is_ok (Consume Lent.keeper Lent.ctx Lent.bank Lent.store "bob" 500 false []).1 = true.
Proof.
destruct (Consume_no_drift Lent.keeper Lent.ctx Lent.bank Lent.store "bob" 500 false []
  DefaultParams_wf Lent.lent_keyed Lent.store_index Lent.bob_wf ltac:(lia)) as [H|H]; [exact H|by vm_compute in H].
Defined.

Lemma EstimateConsume_agrees_witness :
  ShortfallGas (EstimateConsume Lent.ctx Lent.store "bob" 500 false []) = 330.
Proof.
transitivity (match (Consume Lent.keeper Lent.ctx Lent.bank Lent.store "bob" 500 false []).1 with
  Ok r => ShortfallGas r | Err _ => 0 end); [|by vm_compute].
destruct (Consume Lent.keeper Lent.ctx Lent.bank Lent.store "bob" 500 false []) as [[res|e] s'] eqn:E;
  [|by vm_compute in E].
apply (EstimateConsume_agrees Lent.keeper Lent.ctx Lent.bank Lent.store "bob" 500 false [] res s'
  DefaultParams_wf Lent.lent_keyed Lent.store_index Lent.bob_wf); [by vm_compute|lia|done].
Defined.

Lemma Consume_refund_roundtrip_witness :
  ∃ res s', Lent.outcome = (Ok res, s') ∧
  RefundEnergy s' "bob" (EnergyDeducted res) res = SetEnergyAccount Lent.store Lent.bob.
Proof.
eexists _, _. split; [vm_compute; reflexivity|].
apply (Consume_refund_roundtrip Lent.keeper Lent.ctx Lent.bank Lent.store "bob" 140
  ["/cosmos.bank.v1beta1.MsgSend"%string] _ _ DefaultParams_wf Lent.lent_keyed Lent.store_index Lent.bob_wf);
  [reflexivity|reflexivity|vm_compute; intuition discriminate|vm_compute; discriminate|vm_compute; reflexivity].
Defined.

Lemma RefundEnergy_no_spill_witness :
  let res := mkConsumeResult 90 50 40 0 0 false [mkDelegationConsumption 9 40] in
  TxEnergyAccrued (GetEnergyAccount (RefundEnergy Lent.store "bob" 90 res) "bob") <= 100 + 50.
Proof.
intros res. etransitivity.
- refine (proj1 (RefundEnergy_no_spill Lent.store "bob" 90 res DefaultParams_wf Lent.lent_keyed
    Lent.store_index Lent.bob_wf _ _ _ _ _ _)); try (vm_compute; intuition discriminate).
  repeat constructor; simpl; [lia|]. intros d Hd. by vm_compute in Hd.
- by vm_compute.
Defined.
