(* ===== verification/EnergyDelegate.v ===== *)
(** * x/energy: delegation lifecycle, block hooks, messages, genesis, queries

    Models src/x/energy/keeper/delegation.go, abci.go, msg_server.go,
    genesis.go and grpc_query.go.  A handler takes the pair of the bank state
    and the energy store and returns an outcome together with the pair it leaves
    behind: on an error the store keeps the writes made before it, which is what
    a caller that only logs the error (the expiry sweep) continues with; a
    transaction that fails is reverted by its caller. *)

From stdpp Require Import gmap strings list sorting.
From Stdlib Require Import ZArith Lia.
From S2P Require Import Prelude SdkMath Bank EnergyTypes EnergyKeeper EnergyIndex EnergyConsume.

Open Scope Z_scope.

Section delegation.
Context {B : Type} {bank : BankOps B}.
Implicit Types (k : Keeper) (ctx : Ctx) (w : B * EnergyStore) (b : B) (s : EnergyStore).

(** ATOS to lock for lending [amount]: whole threshold blocks, rounded up.
    uint64 arithmetic, then a conversion to int64. *)
Definition lockedFor (per threshold amount : Z) : Z :=
  let thresholdUnits := u64 (amount + per - 1) / per in
  threshold * i64 thresholdUnits.

(** A nil or zero threshold is refused; [sdk.NewCoin] panics on a negative
    amount, which fails the transaction. *)
Definition Delegate k ctx w (delegator delegatee : addr) (amount durationSeconds : Z)
    : result (Z * Z) * (B * EnergyStore) :=
  let '(b, s) := w in
  if amount =? 0 then (Err ErrInvalidAmount, w)
  else if durationSeconds <=? 0 then (Err ErrInvalidDuration, w)
  else if decide (delegator = delegatee) then (Err ErrSelfDelegation, w)
  else
    let params := GetParams s in
    let threshold := default 0 (TxEnergyHoldingThreshold params) in
    if (TxEnergyPerThreshold params =? 0) || (threshold =? 0) then (Err (Plain "invalid params"), w)
    else
      let lockedATOS := lockedFor (TxEnergyPerThreshold params) threshold amount in
      let '(delAcct, s) := Settle k ctx b s delegator in
      let freeEnergy :=
        if TxEnergyAccrued delAcct <? DelegatedOut delAcct then 0
        else TxEnergyAccrued delAcct - DelegatedOut delAcct in
      if freeEnergy <? amount then (Err ErrInsufficientEnergy, (b, s))
      else if GetBalance b delegator (BaseDenom k) <? lockedATOS then (Err ErrInsufficientBalance, (b, s))
      else
        let delAcct := with_DelegatedOut (u64 (DelegatedOut delAcct + amount)) delAcct in
        let delAcct := with_LockedAtos (LockedAtos delAcct + lockedATOS) delAcct in
        let s := SetEnergyAccount s delAcct in
        if lockedATOS <? 0 then (Err (Plain "negative coin amount"), (b, s))
        else
          match SendCoinsFromAccountToModule (SendRestriction k ctx) (b, s) delegator
                  LockedEnergyPoolName (NewCoins (BaseDenom k) lockedATOS) with
          | (Err e, w) => (Err e, w)
          | (Ok _, (b, s)) =>
              let '(deeAcct, s) := Settle k ctx b s delegatee in
              let s := SetEnergyAccount s
                (with_DelegatedInUsable (saturatingAdd (DelegatedInUsable deeAcct) amount) deeAcct) in
              let '(id, s) := nextDelegationID s in
              let now := BlockTime ctx in
              let d := mkEnergyDelegation id delegator delegatee amount lockedATOS now
                         (i64 (now + durationSeconds)) 0 in
              (Ok (id, lockedATOS), (b, setDelegation s d))
          end.

(** The delegator's counters when a delegation is released. *)
Definition releaseCounters (d : EnergyDelegation) (acct : EnergyAccount) : EnergyAccount :=
  let acct :=
    if 0 <? Used d then
      with_TxEnergyAccrued
        (if Used d <=? TxEnergyAccrued acct then TxEnergyAccrued acct - Used d else 0) acct
    else acct in
  let acct := with_DelegatedOut
    (if Amount d <=? DelegatedOut acct then DelegatedOut acct - Amount d else 0) acct in
  with_LockedAtos (if dLockedAtos d <=? LockedAtos acct then LockedAtos acct - dLockedAtos d else 0) acct.

Definition releaseDelegation k ctx w (d : EnergyDelegation) : result unit * (B * EnergyStore) :=
  let '(b, s) := w in
  match AccAddressFromBech32 k (Delegator d) with
  | None => (Err (Plain "bech32"), w)
  | Some delegator =>
  match AccAddressFromBech32 k (Delegatee d) with
  | None => (Err (Plain "bech32"), w)
  | Some delegatee =>
      let remaining := if Used d <? Amount d then Amount d - Used d else 0 in
      let '(delAcct, s) := Settle k ctx b s delegator in
      let s := SetEnergyAccount s (releaseCounters d delAcct) in
      let '(r, (b, s)) :=
        if 0 <? dLockedAtos d then
          SendCoinsFromModuleToAccount (SendRestriction k ctx) (b, s) LockedEnergyPoolName delegator
            (NewCoins (BaseDenom k) (dLockedAtos d))
        else (Ok tt, (b, s)) in
      match r with
      | Err e => (Err e, (b, s))
      | Ok _ =>
          let '(deeAcct, s) := Settle k ctx b s delegatee in
          let s := SetEnergyAccount s
            (with_DelegatedInUsable
              (if remaining <=? DelegatedInUsable deeAcct then DelegatedInUsable deeAcct - remaining else 0)
              deeAcct) in
          (Ok tt, (b, removeDelegation s d))
      end
  end
  end.

Definition Undelegate k ctx w (delegator : addr) (id : Z) : result unit * (B * EnergyStore) :=
  match GetDelegation w.2 id with
  | None => (Err ErrDelegationNotFound, w)
  | Some d =>
      if decide (Delegator d = delegator) then releaseDelegation k ctx w d
      else (Err ErrUnauthorized, w)
  end.

(** ** Expiry sweep *)
Definition row_le (r1 r2 : Z * Z) : Prop := r1.1 < r2.1 ∨ (r1.1 = r2.1 ∧ r1.2 <= r2.2).
#[local] Instance row_le_dec : RelDecision row_le.
Proof. intros r1 r2. unfold row_le. apply _. Defined.

(** The rows of the expiry index up to the first one expiring after [now]. *)
Fixpoint expiredPrefix (now : Z) (rows : list (Z * Z)) : list Z :=
  match rows with
  | [] => []
  | (e, id) :: rows => if now <? i64 e then [] else id :: expiredPrefix now rows
  end.

Definition expiredIds (now : Z) s : list Z :=
  expiredPrefix now (merge_sort row_le (elements (sByExpiry s))).

(** One round of the release loop; an error is logged and the loop goes on. *)
Definition sweepOne k ctx w (id : Z) : B * EnergyStore :=
  match GetDelegation w.2 id with
  | None => w
  | Some d => (releaseDelegation k ctx w d).2
  end.

Definition SweepExpiredDelegations k ctx w : B * EnergyStore :=
  foldl (sweepOne k ctx) w (expiredIds (BlockTime ctx) w.2).

(** ** EndBlocker *)
Definition refundOne s (e : string * addr * Z * ConsumeResult) : EnergyStore :=
  let '(txHash, signer, _, res) := e in
  let refund := saturatingAdd (OwnDeducted res) (DelegatedDeducted res) in
  let s := if 0 <? refund then RefundEnergy s signer refund res else s in
  DeletePendingReservation s txHash.

Definition refundFailedTxReservations k s : EnergyStore :=
  foldl refundOne s (IteratePendingReservations k s).

Definition EndBlocker k ctx w : B * EnergyStore :=
  if negb (EnergyEnabled (GetParams w.2)) then w
  else
    let w := SweepExpiredDelegations k ctx w in
    (w.1, refundFailedTxReservations k w.2).

(** ** Message server *)
Definition effectiveDuration (p : Params) (duration : Z) : Z :=
  if duration =? 0 then
    if 0 <? pDefaultDelegationDurationSeconds p then pDefaultDelegationDurationSeconds p
    else DefaultDelegationDurationSeconds
  else duration.

Definition DelegateEnergy k ctx w (msg : MsgDelegateEnergy) : result (Z * Z) * (B * EnergyStore) :=
  match AccAddressFromBech32 k (mDelegator msg) with
  | None => (Err (Plain "bech32"), w)
  | Some delegator =>
  match AccAddressFromBech32 k (mDelegatee msg) with
  | None => (Err (Plain "bech32"), w)
  | Some delegatee =>
      let params := GetParams w.2 in
      let duration := effectiveDuration params (mDurationSeconds msg) in
      if (0 <? MaxDelegationDurationSeconds params) && (MaxDelegationDurationSeconds params <? duration)
      then (Err (Plain "duration exceeds max"), w)
      else Delegate k ctx w delegator delegatee (mAmount msg) duration
  end
  end.

Definition UndelegateEnergy k ctx w (msg : MsgUndelegateEnergy) : result unit * (B * EnergyStore) :=
  match AccAddressFromBech32 k (uDelegator msg) with
  | None => (Err (Plain "bech32"), w)
  | Some delegator => Undelegate k ctx w delegator (uDelegationId msg)
  end.

Definition UpdateParams k s (msg : MsgUpdateParams) : result EnergyStore :=
  guard! bool_decide (authority k = upAuthority msg) else Plain "unauthorized";
  SetParams k s (upParams msg).

(** ** Genesis *)

(** [poolRegistered]: the module account of the locked pool exists; a panic of
    [InitGenesis] is an error here. *)
Definition InitGenesis k (poolRegistered : bool) s (gs : GenesisState) : result EnergyStore :=
  s ← SetParams k s (gsParams gs);
  let s := foldl SetEnergyAccount s (gsAccounts gs) in
  let s := foldl setDelegation s (gsDelegations gs) in
  let next := if gsNextDelegationId gs =? 0 then 1 else gsNextDelegationId gs in
  let s := setNextDelegationID s next in
  guard! poolRegistered else Plain "module account not registered";
  Ok s.

Definition ExportGenesis s : GenesisState :=
  let next := match sNextDelegationID s with Some n => n | None => 1 end in
  mkGenesisState (GetParams s) (IterateAccounts s)
    (omap (fun id => GetDelegation s (Z.of_nat id)) (seq 1 (Z.to_nat (next - 1)))) next.

(** ** Queries *)
Definition QueryAccount k ctx s (address : string) : result (EnergyAccount * Z * Z) :=
  guard! negb (bool_decide (address = ""%string)) else Plain "address required";
  match AccAddressFromBech32 k address with
  | None => Err (Plain "bad address")
  | Some a =>
      let settled := SimulateSettle ctx s a in
      let params := GetParams s in
      Ok (settled, TxEnergyCapacity (LastBalanceSnapshot settled) params, DeployEnergyCapacity params)
  end.

Definition QueryDelegations k s (address direction : string)
    : result (list EnergyDelegation * list EnergyDelegation) :=
  guard! negb (bool_decide (address = ""%string)) else Plain "address required";
  match AccAddressFromBech32 k address with
  | None => Err (Plain "bad address")
  | Some a =>
      let all := bool_decide (direction = ""%string) || bool_decide (direction = "all"%string) in
      Ok (if all || bool_decide (direction = "out"%string) then IterateDelegationsByDelegator s a else [],
          if all || bool_decide (direction = "in"%string) then IterateDelegationsByDelegatee s a else [])
  end.

(** Energy used, shortfall gas, ATOS fee, free. *)
Definition QueryEstimateFee k ctx s (signer : string) (gasLimit : Z) (isDeploy : bool)
    : result (Z * Z * Dec * bool) :=
  guard! negb (bool_decide (signer = ""%string)) else Plain "signer required";
  match AccAddressFromBech32 k signer with
  | None => Err (Plain "bad signer")
  | Some a =>
      let r := EstimateConsume ctx s a gasLimit isDeploy [] in
      let fee :=
        if 0 <? ShortfallGas r then
          let gasPrice := match feemarketKeeper k with Some g => g | None => ZeroDec end in
          let gasPrice :=
            if negb (0 <? gasPrice) && opt_positive (InsufficientGasPrice (GetParams s))
            then default 0 (InsufficientGasPrice (GetParams s)) else gasPrice in
          if 0 <? gasPrice then Ceil (MulInt gasPrice (i64 (ShortfallGas r))) else ZeroDec
        else ZeroDec in
      Ok (EnergyDeducted r + DeployEnergyUsed r, ShortfallGas r, fee, Free r)
  end.
End delegation.
