(* ===== verification/EnergyInvariant.v ===== *)
(** * The energy module's invariant

    [energy_inv] ties the three ledgers of the module together: the per-account
    counters, the delegation records and the bank balance of the locked pool.
    This file shows that every operation keeps it; EnergyMachine.v composes the
    operations into blocks. *)

From stdpp Require Import gmap strings list sorting.
From Stdlib Require Import ZArith Lia.
From S2P Require Import Prelude SdkMath Bank EnergyTypes EnergyKeeper EnergyIndex EnergyConsume EnergySpending EnergyDelegate.

Open Scope Z_scope.

(** ** Accounts *)

(** [o] units lent and [l] ATOS locked; the energy lent is still accrued. *)
Record pre_ok (o l : Z) (acct : EnergyAccount) : Prop := {
  pre_wf : account_wf acct;
  pre_out : DelegatedOut acct = o;
  pre_lock : LockedAtos acct = l;
  pre_free : o <= TxEnergyAccrued acct;
}.

(** In addition the snapshot covers the locked ATOS, and the accrued energy is
    within the capacity of the snapshot. *)
Record acct_ok (p : Params) (o l : Z) (acct : EnergyAccount) : Prop := {
  ok_pre : pre_ok o l acct;
  ok_snap : l <= LastBalanceSnapshot acct;
  ok_cap : TxEnergyAccrued acct <= TxEnergyCapacity (LastBalanceSnapshot acct) p;
  ok_fresh : LastUpdatedTime acct = 0 → LastBalanceSnapshot acct = 0;
}.

(** The energy lent fits the capacity of the ATOS locked for it. *)
Definition covered (p : Params) (o l : Z) : Prop := o <= TxEnergyCapacity l p.

Section accounts.
Context {B : Type} {bank : BankOps B} {laws : BankLaws bank}.
Context (p : Params) (Hp : params_wf p).
Implicit Types (k : Keeper) (ctx : Ctx) (b : B) (s : EnergyStore) (a : addr).

Lemma TxEnergyCapacity_zero : TxEnergyCapacity 0 p = 0.
Proof. done. Qed.

Lemma settled_pre o l k ctx b s a :
  GetParams s = p → pre_ok o l (GetEnergyAccount s a) → pre_ok o l (Settle k ctx b s a).1.
Proof.
intros HP [W Ho Hl Hf]. rewrite <- HP in Hp.
destruct (Settle_counters k ctx b s a) as (_ & C1 & _ & C2).
destruct (Settle_bounds k ctx b s a Hp W) as [Hb _].
split; [by apply Settle_wf|congruence|congruence|]. lia.
Qed.

Lemma EligibleBalance_locked k b s a :
  account_wf (GetEnergyAccount s a) → LockedAtos (GetEnergyAccount s a) <= EligibleBalance k b s a.
Proof.
intros W. rewrite EligibleBalance_sum, lockedAtosOf_wf by done.
pose proof (balance_nonneg b a (BaseDenom k)). pose proof (balance_nonneg b a AtoxBaseDenom).
pose proof (stakedAtos_nonneg k a). lia.
Qed.

Lemma settled_ok o l k ctx b s a :
  GetParams s = p → 0 < BlockTime ctx →
  acct_ok p o l (GetEnergyAccount s a) → acct_ok p o l (Settle k ctx b s a).1.
Proof.
intros HP Hnow [Hpre Hs Hc Hf]. pose proof (settled_pre o l k ctx b s a HP Hpre) as Hpre'.
pose proof (pre_wf _ _ _ Hpre) as W. rewrite Settle_account in *.
destruct (_ =? 0) eqn:E0; boolP; [|destruct (_ <=? _) eqn:E1; boolP].
- split; [done| | |simpl; lia]; simpl.
  + rewrite <- (pre_lock _ _ _ Hpre). by apply EligibleBalance_locked.
  + rewrite (Hf E0), TxEnergyCapacity_zero in Hc. pose proof (TxEnergyCapacity_u64 p Hp (EligibleBalance k b s a)).
    unfold is_u64 in *. lia.
- by split.
- rewrite HP in *. rewrite (accrue_spec p Hp) in * by done. split; [done|done| |simpl; lia]. simpl. lia.
Qed.

(** A rebalanced account is in order, even if the snapshot was not before. *)
Lemma rebalanced_ok o l now e acct :
  0 < now → covered p o l → l <= e → pre_ok o l acct → acct_ok p o l (rebalanced p now e acct).
Proof.
intros Hnow Hcov He [W Ho Hl Hf].
pose proof (rebalanced_wf p now e acct Hp W) as W'. unfold rebalanced in *. rewrite capDown_spec in *.
unfold covered in Hcov. pose proof (TxEnergyCapacity_mono p Hp l e He). simpl in *.
assert (Hmax : Z.max (TxEnergyCapacity e p) (DelegatedOut acct) = TxEnergyCapacity e p) by lia.
rewrite Hmax in *. split; [split|..]; simpl; try done; lia.
Qed.

Lemma pre_ok_In o l acct x : is_u64 x → pre_ok o l acct → pre_ok o l (with_DelegatedInUsable x acct).
Proof. intros Hx [[] ? ? ?]. split; [split|..]; simpl; done. Qed.

Lemma acct_ok_In o l acct x :
  is_u64 x → acct_ok p o l acct → acct_ok p o l (with_DelegatedInUsable x acct).
Proof. intros Hx [? ? ? ?]. split; try done. by apply pre_ok_In. Qed.

Lemma acct_ok_new a : acct_ok p 0 0 (NewEnergyAccount a).
Proof. split; [split; [apply account_wf_new|done..]|done..]. Qed.
End accounts.

(** ** Hooks over all accounts *)
Section hooks_ok.
Context {B : Type} {bank : BankOps B} {laws : BankLaws bank}.
Context (p : Params) (Hp : params_wf p).
Implicit Types (k : Keeper) (ctx : Ctx) (b : B) (s : EnergyStore) (a : addr) (o l : addr → Z).

Definition all_pre o l s : Prop := ∀ a, pre_ok (o a) (l a) (GetEnergyAccount s a).
Definition all_ok o l s : Prop := ∀ a, acct_ok p (o a) (l a) (GetEnergyAccount s a).
Definition all_covered o l : Prop := ∀ a, covered p (o a) (l a).

(** Counters of borrowed energy are the same in both stores. *)
Definition same_in s s' : Prop :=
  ∀ a, DelegatedInUsable (GetEnergyAccount s' a) = DelegatedInUsable (GetEnergyAccount s a).

(** Accounts already settled in this block gain no energy. *)
Definition no_gain ctx s s' : Prop :=
  ∀ a, 0 < BlockTime ctx <= LastUpdatedTime (GetEnergyAccount s a) →
       TxEnergyAccrued (GetEnergyAccount s' a) <= TxEnergyAccrued (GetEnergyAccount s a).

Lemma Settle_settled k ctx b s a :
  0 < BlockTime ctx → BlockTime ctx <= LastUpdatedTime (Settle k ctx b s a).1.
Proof.
intros Hnow. rewrite Settle_account. repeat destr_match; boolP; simpl; lia.
Qed.

Lemma Settle_noop k ctx b s a :
  0 < BlockTime ctx <= LastUpdatedTime (GetEnergyAccount s a) →
  (Settle k ctx b s a).1 = GetEnergyAccount s a.
Proof.
intros H. rewrite Settle_account. rewrite (proj2 (Z.eqb_neq _ 0)), (proj2 (Z.leb_le _ _)) by lia. done.
Qed.

Lemma rebalanced_le now e acct : TxEnergyAccrued (rebalanced p now e acct) <= TxEnergyAccrued acct.
Proof. unfold rebalanced. rewrite capDown_spec. simpl. lia. Qed.

Lemma all_ok_pre o l s : all_ok o l s → all_pre o l s.
Proof. intros H a. apply (ok_pre _ _ _ _ (H a)). Qed.

(** One update of an account, seen from all of them. *)
Lemma updates_ok o l s a acct s' :
  updates s a acct s' → (∀ x, x ≠ a → acct_ok p (o x) (l x) (GetEnergyAccount s x)) →
  acct_ok p (o a) (l a) acct → all_ok o l s'.
Proof. intros U H Ha x. rewrite (up_get _ _ _ _ U). case_decide; subst; auto. Qed.

Lemma Settle_all_ok o l k ctx b s a acct s' :
  accounts_keyed s → GetParams s = p → 0 < BlockTime ctx → all_ok o l s →
  Settle k ctx b s a = (acct, s') →
  all_ok o l s' ∧ same_in s s' ∧ updates s a acct s' ∧ acct_ok p (o a) (l a) acct ∧
  DelegatedInUsable acct = DelegatedInUsable (GetEnergyAccount s a).
Proof.
intros Hs HP Hnow Hok E. pose proof (Settle_updates _ _ _ _ _ _ _ Hs E) as U.
pose proof (settled_ok p Hp (o a) (l a) k ctx b s a HP Hnow (Hok a)) as Ha. rewrite E in Ha.
destruct (Settle_counters k ctx b s a) as (_ & _ & C & _). rewrite E in C. simpl in *.
split_and!; [|intros x; rewrite (up_get _ _ _ _ U); by case_decide; subst|done|done|done].
by apply (updates_ok _ _ _ _ _ _ U).
Qed.

Lemma nonBankTerms_locked k acct a :
  account_wf acct → LockedAtos acct <= nonBankTerms k acct a.
Proof.
intros W. unfold nonBankTerms. rewrite lockedAtosOf_wf by done. pose proof (stakedAtos_nonneg k a).
unfold cachedStakedAtos. destruct (_ =? 0); [lia|]. destruct (0 <? _) eqn:?; boolP; lia.
Qed.

(** The hook rebalances two accounts; each may be out of order before. *)
Lemma SendRestriction_ok o l k ctx b s from to amt x b' s' :
  accounts_keyed s → GetParams s = p → 0 < BlockTime ctx → coins_valid amt → all_covered o l →
  all_pre o l s → (∀ a, a ≠ from → acct_ok p (o a) (l a) (GetEnergyAccount s a)) →
  (acct_ok p (o from) (l from) (GetEnergyAccount s from) ∨
   (from ≠ to ∧ 0 < AmountOf amt (BaseDenom k) + AmountOf amt AtoxBaseDenom)) →
  SendRestriction k ctx (b, s) from to amt = (Ok x, (b', s')) →
  x = to ∧ b' = b ∧ all_ok o l s' ∧ same_in s s' ∧ rest s' = rest s ∧ accounts_keyed s' ∧ no_gain ctx s s'.
Proof.
intros Hs HP Hnow Hv Hcov Hpre Hok Hfrom H.
destruct (SendRestriction_to k ctx (b, s) from to amt x (b', s') H) as [-> Hb]. simpl in Hb. subst b'.
destruct (decide (from = to ∨ ¬ 0 < AmountOf amt (BaseDenom k) + AmountOf amt AtoxBaseDenom)) as [Hno|Hact].
- assert (s' = s) as ->.
  { unfold SendRestriction in H. destruct (0 <? _) eqn:E; boolP; simpl in H; [|by inv_ok].
    destruct (decide (from = to)); [by inv_ok|naive_solver lia]. }
  split_and!; try done; [|intros a _; lia]. intros a. destruct (decide (a = from)) as [->|]; [|by apply Hok].
  destruct Hfrom as [?|[? ?]]; [done|naive_solver].
- assert (Hact' : from ≠ to ∧ 0 < AmountOf amt (BaseDenom k) + AmountOf amt AtoxBaseDenom).
  { split; [naive_solver|]. destruct (decide (0 < AmountOf amt (BaseDenom k) + AmountOf amt AtoxBaseDenom)); naive_solver. }
  destruct (SendRestriction_acts k ctx b s from to amt Hs (proj1 Hact') (proj2 Hact')) as (s1 & s2 & Hr & U1 & U2).
  rewrite H in Hr. injection Hr as ->. cbv zeta in U1, U2. rewrite HP in *.
  assert (Hbank : ∀ a d, 0 <= GetBalance b a d) by (intros; apply balance_nonneg).
  assert (Hle : ∀ a, l a <= nonBankTerms k (GetEnergyAccount s a) a).
  { intros a. rewrite <- (pre_lock _ _ _ (Hpre a)). apply nonBankTerms_locked, (pre_wf _ _ _ (Hpre a)). }
  pose proof (Hbank from (BaseDenom k)). pose proof (Hbank from AtoxBaseDenom).
  pose proof (Hbank to (BaseDenom k)). pose proof (Hbank to AtoxBaseDenom).
  pose proof (Hle from). pose proof (Hle to).
  assert (Hok1 : all_ok o l s1).
  { apply (updates_ok _ _ _ _ _ _ U1); [by auto|].
    apply rebalanced_ok; [done..|lia|]. by apply (settled_pre p). }
  assert (HP1 : GetParams s1 = p) by (by rewrite (GetParams_rest _ _ (up_rest _ _ _ _ U1))).
  assert (Hin : ∀ s a e, same_counters (rebalanced p (BlockTime ctx) e (Settle k ctx b s a).1) (GetEnergyAccount s a)).
  { intros. etrans; [apply rebalanced_counters|apply Settle_counters]. }
  split_and!; try done.
  + apply (updates_ok _ _ _ _ _ _ U2); [by auto|].
    apply rebalanced_ok; [done..|lia|]. apply (settled_pre p); [done..|]. apply (all_ok_pre _ _ _ Hok1).
  + intros a. rewrite (up_get _ _ _ _ U2). case_decide as Ea.
    * subst a. rewrite (proj1 (proj2 (proj2 (Hin _ _ _)))). rewrite (updates_get_ne _ _ _ _ _ U1); [done|]. intros ->. by destruct Hact'.
    * rewrite (up_get _ _ _ _ U1). case_decide; [|done]. subst a. apply (Hin _ _ _).
  + eapply rest_trans; [apply U1|apply U2].
  + apply U2.
  + intros a Hla. rewrite (up_get _ _ _ _ U2). case_decide as Ea.
    * subst a. assert (Hne : to ≠ from) by (intros ->; by destruct Hact').
      rewrite rebalanced_le, Settle_noop; rewrite (updates_get_ne _ _ _ _ _ U1) by done; [lia|done].
    * rewrite (up_get _ _ _ _ U1). case_decide; [|lia]. subst a. rewrite rebalanced_le, Settle_noop; [lia|done].
Qed.
End hooks_ok.

(** ** The invariant *)

(** Lent energy is backed by whole locked blocks. *)
Definition backed (p : Params) (d : EnergyDelegation) : Prop :=
  ∃ u, 0 <= u ∧ dLockedAtos d = default 0 (TxEnergyHoldingThreshold p) * u ∧
       Amount d <= TxEnergyPerThreshold p * u.

Definition nextId (s : EnergyStore) : Z := default 1 (sNextDelegationID s).

(** A consumption the module may be asked to undo. *)
Record reservation_wf (s : EnergyStore) (signer : addr) (res : ConsumeResult) : Prop := {
  rw_own : is_u64 (OwnDeducted res);
  rw_del : is_u64 (DelegatedDeducted res);
  rw_from : consumed_from (sDelegations s) signer (DelegationConsumptions res);
  rw_ids : Forall (fun c => DelegationID c < nextId s) (DelegationConsumptions res);
}.

Section inv.
Context {B : Type} {bank : BankOps B} {laws : BankLaws bank}.
Context (base : denom) (bech32 : string → option addr) (p : Params).

Definition pool : addr := ModuleAddress LockedEnergyPoolName.

(** A delegator is a user account: it can receive its ATOS back. *)
Record parties_wf (d : EnergyDelegation) : Prop := {
  pw_delegator : bech32 (Delegator d) = Some (Delegator d);
  pw_delegatee : bech32 (Delegatee d) = Some (Delegatee d);
  pw_distinct : Delegator d ≠ Delegatee d;
  pw_user : BlockedAddr (Delegator d) = false;
  pw_not_pool : Delegator d ≠ pool;
}.

Record energy_inv (b : B) (s : EnergyStore) : Prop := {
  inv_params : GetParams s = p;
  inv_keyed : accounts_keyed s;
  inv_index : index_wf s;
  (** counters agree with the records, and the accounts are in order *)
  inv_accounts : all_ok p (lentBy s) (lockedBy s) s;
  (** the borrowed total never exceeds what the records have left *)
  inv_borrowed a : DelegatedInUsable (GetEnergyAccount s a) <= availIn s a;
  inv_backed id d : sDelegations s !! id = Some d → backed p d;
  inv_parties id d : sDelegations s !! id = Some d → parties_wf d;
  inv_ids id d : sDelegations s !! id = Some d → 0 < id < nextId s;
  inv_next : 0 < nextId s <= maxU64;
  (** solvency: the pool holds what the records say is locked *)
  inv_pool : lockedTotal s <= GetBalance b pool base;
  inv_pending h r : sPending s !! h = Some r →
    h ≠ ""%string ∧ reservation_wf s (prSigner r) (consumeResultFromJSON (prResult r)) ∧
    bech32 (prSigner r) = Some (prSigner r);
}.
End inv.

Section sums.
Context (p : Params) (Hp : params_wf p).
Implicit Types (s : EnergyStore) (m : gmap Z EnergyDelegation) (a : addr).

Lemma backed_sum m a :
  (∀ id d, m !! id = Some d → backed p d) →
  ∃ u, 0 <= u ∧ map_sum (lockOf a) m = default 0 (TxEnergyHoldingThreshold p) * u ∧
       map_sum (outOf a) m <= TxEnergyPerThreshold p * u.
Proof.
induction m as [|id d m Hid IH] using map_ind; intros H.
- exists 0. rewrite !map_sum_empty. lia.
- rewrite !map_sum_insert_new by done.
  destruct IH as (u & Hu & H1 & H2).
  { intros id' d' Hd'. apply (H id' d'). rewrite lookup_insert_ne; [done|congruence]. }
  destruct (H id d (lookup_insert_eq _ _ _)) as (v & Hv & H3 & H4).
  unfold lockOf, outOf in *. case_decide; [exists (u + v)|exists u]; lia.
Qed.

(** The energy an account lent is within the capacity of the ATOS it locked. *)
Lemma lent_covered s a :
  (∀ id d, sDelegations s !! id = Some d → backed p d) → lentBy s a <= maxU64 →
  covered p (lentBy s a) (lockedBy s a).
Proof.
intros H Hmax. destruct (backed_sum (sDelegations s) a H) as (u & Hu & H1 & H2).
fold (lentBy s a) in H2. fold (lockedBy s a) in H1.
destruct (wf_threshold p Hp) as (t & Ht & Hpos). unfold covered.
rewrite (TxEnergyCapacity_spec p Hp _ t Ht), H1, Ht. simpl.
rewrite Z.max_l by nia. rewrite (Z.mul_comm t u), Z.div_mul by lia. lia.
Qed.

Lemma sum_insert_new (f : EnergyDelegation → Z) s d :
  sDelegations s !! Id d = None →
  map_sum f (sDelegations (setDelegation s d)) = f d + map_sum f (sDelegations s).
Proof. intros. simpl. by rewrite map_sum_insert_new. Qed.

Lemma sum_remove (f : EnergyDelegation → Z) s d :
  sDelegations s !! Id d = Some d →
  map_sum f (sDelegations (removeDelegation s d)) = map_sum f (sDelegations s) - f d.
Proof. intros H. simpl. rewrite (map_sum_delete f _ _ _ H). lia. Qed.

Lemma outOf_used a d u : outOf a (with_Used u d) = outOf a d.
Proof. done. Qed.
Lemma lockOf_used a d u : lockOf a (with_Used u d) = lockOf a d.
Proof. done. Qed.

Lemma availIn_nonneg s a : index_wf s → 0 <= availIn s a.
Proof.
intros W. apply map_sum_nonneg. intros id d Hd. destruct (iw_del s W _ _ Hd).
unfold availOf. case_decide; lia.
Qed.
End sums.

(** Stores that differ in accounts and in [Used] fields only. *)
Record usage_only (s s' : EnergyStore) : Prop := {
  uo_params : sParams s' = sParams s;
  uo_unused : unused (sDelegations s') = unused (sDelegations s);
  uo_next : sNextDelegationID s' = sNextDelegationID s;
}.

#[export] Instance usage_only_refl : Reflexive usage_only.
Proof. by intros s. Qed.
#[export] Instance usage_only_trans : Transitive usage_only.
Proof. intros x y z [] []. split; congruence. Qed.

Lemma rest_usage_only s s' : rest s' = rest s → usage_only s s'.
Proof. intros H. destruct (rest_parts _ _ H) as (H1 & H2 & _ & _ & _ & H3 & _). split; [done|by rewrite H2|done]. Qed.

Lemma lentBy_usage s s' a : usage_only s s' → lentBy s' a = lentBy s a.
Proof. intros U. apply unused_sum; [done|apply U]. Qed.
Lemma lockedBy_usage s s' a : usage_only s s' → lockedBy s' a = lockedBy s a.
Proof. intros U. apply unused_sum; [done|apply U]. Qed.
Lemma lockedTotal_usage s s' : usage_only s s' → lockedTotal s' = lockedTotal s.
Proof. intros U. apply unused_sum; [done|apply U]. Qed.
Lemma nextId_usage s s' : usage_only s s' → nextId s' = nextId s.
Proof. intros U. unfold nextId. by rewrite (uo_next _ _ U). Qed.
Lemma GetParams_usage s s' : usage_only s s' → GetParams s' = GetParams s.
Proof. intros U. unfold GetParams. by rewrite (uo_params _ _ U). Qed.

Lemma reservation_usage s s' a res :
  usage_only s s' → reservation_wf s a res → reservation_wf s' a res.
Proof.
intros U []. split; try done.
- eapply consumed_from_unused; [apply U|done].
- by rewrite (nextId_usage _ _ U).
Qed.

(** ** Preservation *)
Section preserve.
Context {B : Type} {bank : BankOps B} {laws : BankLaws bank}.
Context (base : denom) (bech32 : string → option addr) (p : Params) (Hp : params_wf p).
Implicit Types (k : Keeper) (ctx : Ctx) (b : B) (s : EnergyStore) (a : addr).
Local Abbreviation Inv := (energy_inv base bech32 p).

(** A keeper of this chain: it measures energy in [base] and parses addresses
    with [bech32]; its staking reads may differ from block to block. *)
Definition keeper_of k : Prop := BaseDenom k = base ∧ AccAddressFromBech32 k = bech32.

Lemma lentBy_max b s a : Inv b s → lentBy s a <= maxU64.
Proof.
intros I. destruct (ok_pre _ _ _ _ (inv_accounts _ _ _ _ _ I a)) as [W Ho _ _].
destruct (wf_out _ W). lia.
Qed.

Lemma inv_covered b s : Inv b s → all_covered p (lentBy s) (lockedBy s).
Proof. intros I a. apply (lent_covered p Hp); [apply I|by apply (lentBy_max b)]. Qed.

Lemma inv_wf b s a : Inv b s → account_wf (GetEnergyAccount s a).
Proof. intros I. apply (pre_wf _ _ _ (ok_pre _ _ _ _ (inv_accounts _ _ _ _ _ I a))). Qed.

(** The invariant after a change of accounts and usage. *)
Lemma inv_usage b s b' s' :
  Inv b s → usage_only s s' → accounts_keyed s' → index_wf s' →
  all_ok p (lentBy s) (lockedBy s) s' →
  (∀ a, DelegatedInUsable (GetEnergyAccount s' a) <= availIn s' a) →
  lockedTotal s <= GetBalance b' (pool) base →
  (∀ h r, sPending s' !! h = Some r → sPending s !! h = Some r ∨
     (h ≠ ""%string ∧ reservation_wf s (prSigner r) (consumeResultFromJSON (prResult r)) ∧
      bech32 (prSigner r) = Some (prSigner r))) →
  Inv b' s'.
Proof.
intros I U K W A Hin Hpool Hpend.
assert (Hd : ∀ id d', sDelegations s' !! id = Some d' → ∃ d, sDelegations s !! id = Some d ∧
  with_Used 0 d' = with_Used 0 d).
{ intros id d' H. by apply (unused_lookup _ _ _ _ (uo_unused _ _ U)). }
split; try done.
- by rewrite (GetParams_usage _ _ U), (inv_params _ _ _ _ _ I).
- intros a. rewrite (lentBy_usage _ _ _ U), (lockedBy_usage _ _ _ U). apply A.
- intros id d' H. destruct (Hd id d' H) as (d & H0 & He).
  destruct (inv_backed _ _ _ _ _ I id d H0) as (u & ? & ? & ?). exists u.
  pose proof (f_equal dLockedAtos He). pose proof (f_equal Amount He). simpl in *. naive_solver lia.
- intros id d' H. destruct (Hd id d' H) as (d & H0 & He).
  destruct (inv_parties _ _ _ _ _ I id d H0).
  pose proof (f_equal Delegator He) as E1. pose proof (f_equal Delegatee He) as E2. simpl in *.
  split; rewrite ?E1, ?E2; done.
- intros id d' H. destruct (Hd id d' H) as (d & H0 & _). rewrite (nextId_usage _ _ U). by apply (inv_ids _ _ _ _ _ I id d).
- rewrite (nextId_usage _ _ U). apply (inv_next _ _ _ _ _ I).
- by rewrite (lockedTotal_usage _ _ U).
- intros h r Hr. destruct (Hpend h r Hr) as [H|(H0 & H1 & H2)].
  + destruct (inv_pending _ _ _ _ _ I h r H) as (H0 & H1 & H2). split_and!; [done|by eapply reservation_usage|done].
  + split_and!; [done|by eapply reservation_usage|done].
Qed.

(** Account changes that leave the rest of the store alone. *)
Lemma inv_accounts_only b s b' s' :
  Inv b s → rest s' = rest s → accounts_keyed s' → all_ok p (lentBy s) (lockedBy s) s' →
  (∀ a, DelegatedInUsable (GetEnergyAccount s' a) <= DelegatedInUsable (GetEnergyAccount s a)) →
  GetBalance b pool base <= GetBalance b' pool base →
  Inv b' s'.
Proof.
intros I R K A Hin Hpool. destruct (rest_parts _ _ R) as (_ & Hd & _ & _ & _ & _ & Hp').
apply (inv_usage b s); try done.
- by apply rest_usage_only.
- apply (index_wf_rest _ _ R), I.
- intros a. unfold availIn. rewrite Hd. pose proof (inv_borrowed _ _ _ _ _ I a) as Hb.
  unfold availIn in Hb. specialize (Hin a). lia.
- pose proof (inv_pool _ _ _ _ _ I). lia.
- intros h r Hr. rewrite Hp' in Hr. by left.
Qed.

(** The environment may change the bank as long as the pool is not debited. *)
Lemma inv_bank b b' s : Inv b s → GetBalance b pool base <= GetBalance b' pool base → Inv b' s.
Proof.
intros I H. apply (inv_accounts_only b s b' s I); try done.
- apply I.
- apply I.
Qed.

Lemma inv_settle k ctx b s a acct s' :
  0 < BlockTime ctx → Inv b s → Settle k ctx b s a = (acct, s') →
  Inv b s' ∧ updates s a acct s' ∧ acct_ok p (lentBy s a) (lockedBy s a) acct ∧
  DelegatedInUsable acct = DelegatedInUsable (GetEnergyAccount s a).
Proof.
intros Hnow I E.
destruct (Settle_all_ok p Hp _ _ k ctx b s a acct s' (inv_keyed _ _ _ _ _ I) (inv_params _ _ _ _ _ I) Hnow
  (inv_accounts _ _ _ _ _ I) E) as (A & Hin & U & Ha & Hi).
split_and!; try done. apply (inv_accounts_only b s b s' I); try done.
- apply U.
- apply U.
- intros x. by rewrite (Hin x).
Qed.

(** Transfers: any send that does not take from the pool. *)
Lemma inv_send k ctx b s from to amt b' s' :
  keeper_of k → 0 < BlockTime ctx → coins_valid amt → Inv b s → from ≠ pool →
  SendCoins (SendRestriction k ctx) (b, s) from to amt = (Ok tt, (b', s')) → Inv b' s'.
Proof.
intros [Hb _] Hnow Hv I Hf H. pose proof H as Hbal.
apply (send_balances _ b s from to amt b' s' Hv) in Hbal as (_ & Hbal & _); [|apply SendRestriction_to].
apply send_spec in H as (b1 & to' & b2 & s2 & b3 & Hsub & Hr & Hadd & [= -> ->]).
destruct (SendRestriction_ok p Hp (lentBy s) (lockedBy s) k ctx b1 s from to amt to' b2 s2)
  as (-> & -> & A & Hin & R & K & _); try done.
- apply I.
- apply I.
- by apply (inv_covered b).
- apply (all_ok_pre p), I.
- intros a _. apply I.
- left. apply I.
- apply (inv_accounts_only b s b3 s2 I); try done.
  + intros a. by rewrite (Hin a).
  + rewrite Hbal, at_addr_ne by done. unfold at_addr. pose proof (AmountOf_nonneg amt base Hv). case_decide; lia.
Qed.

(** The staking hooks. *)
Lemma inv_hooks_refresh k ctx b s a :
  keeper_of k → 0 < BlockTime ctx → Inv b s → Inv b (Hooks_refresh k ctx b s a).
Proof.
intros [Hb _] Hnow I. unfold Hooks_refresh. destruct (_ =? 0); [done|]. destruct (negb _); [done|].
pose proof (ApplyStakedChange_updates k ctx b s a (stakedAtos k a) (inv_keyed _ _ _ _ _ I) (stakedAtos_nonneg k a)) as U.
cbv zeta in U. rewrite (inv_params _ _ _ _ _ I) in U.
pose proof (Settle_counters k ctx b s a) as (_ & C1 & C2 & C3).
pose proof (settled_pre p Hp _ _ k ctx b s a (inv_params _ _ _ _ _ I) (all_ok_pre p _ _ _ (inv_accounts _ _ _ _ _ I) a)) as Hpre.
set (acct := (Settle k ctx b s a).1) in *. set (e := _ + lockedAtosOf acct) in *.
assert (Hr : acct_ok p (lentBy s a) (lockedBy s a) (rebalanced p (BlockTime ctx) e acct)).
{ apply rebalanced_ok; try done; [by apply (inv_covered b)|]. unfold e.
  rewrite (lockedAtosOf_wf acct (pre_wf _ _ _ Hpre)), (pre_lock _ _ _ Hpre).
  pose proof (balance_nonneg b a (BaseDenom k)). pose proof (balance_nonneg b a AtoxBaseDenom).
  pose proof (stakedAtos_nonneg k a). lia. }
apply (inv_accounts_only b s b _ I); [apply U|apply U| | |lia].
- apply (updates_ok p _ _ _ _ _ _ U); [intros; apply I|].
  destruct Hr as [[[] ? ? ?] ? ? ?]. split; [split; [split|..]|..]; try done. apply stakedAtos_nonneg.
- intros x. rewrite (up_get _ _ _ _ U). case_decide; [subst x|done].
  rewrite <- C2. simpl.
  destruct (rebalanced_counters p (BlockTime ctx) e acct) as (_ & _ & E & _). by rewrite <- E.
Qed.

(** *** Spending *)
Lemma charges_consumed m a cs : charges m a cs → consumed_from m a cs.
Proof.
intros (ds & F & _ & F3). induction F as [|d c ds cs [Hid Hc] _ IH]; [constructor|].
inversion_clear F3 as [|? ? [Hd Ha] F3']. constructor; [|by apply IH].
split; [lia|]. intros d' Hd'. rewrite Hid, Hd in Hd'. by simplify_eq.
Qed.

Lemma charged_ok o l acct gas isDeploy res :
  paid acct gas isDeploy res → acct_ok p o l acct → acct_ok p o l (charged acct res).
Proof.
intros P [[W Ho Hl Hf] Hs Hc Hfr]. pose proof (charged_wf _ _ _ _ W P) as W'.
pose proof (ownAvailable_max acct). pose proof (paid_own _ _ _ _ P).
split; [split|..]; simpl; try done; lia.
Qed.

Lemma inv_consume k ctx b s a gas isDeploy urls :
  0 < BlockTime ctx → 0 <= gas <= maxU64 → Inv b s →
  ∃ res s', Consume k ctx b s a gas isDeploy urls = (Ok res, s') ∧
    Inv b s' ∧ usage_only s s' ∧ sPending s' = sPending s ∧ reservation_wf s' a res.
Proof.
intros Hnow Hgas I. pose proof (inv_params _ _ _ _ _ I) as HP.
destruct (Consume_ok k ctx b s a gas isDeploy urls) as (res & s' & H).
{ by rewrite HP. } { apply I. } { apply I. } { by apply (inv_wf b). } { lia. } { apply I. }
exists res, s'. split; [done|].
destruct (decide (allSubsidized (GetParams s) urls = true ∨ EnergyEnabled (GetParams s) = false ∨ gas = 0)) as [Hi|Hn].
{ destruct (Consume_idle k ctx b s a gas isDeploy urls Hi) as (r & Hr & R1 & R2 & R3 & R4 & R5 & _).
  rewrite Hr in H. injection H as <- <-. split_and!; try done.
  split; rewrite ?R2, ?R3, ?R5; unfold is_u64, maxU64; [lia|lia|constructor|constructor]. }
assert (Hc : allSubsidized (GetParams s) urls = false ∧ EnergyEnabled (GetParams s) = true ∧ 0 < gas).
{ split_and!; [apply not_true_is_false|apply not_false_is_true|]; [naive_solver|naive_solver|].
  assert (gas ≠ 0) by naive_solver. lia. }
destruct Hc as (Hsub & Hen & Hg).
destruct (Settle k ctx b s a) as [acct s1] eqn:E.
destruct (inv_settle k ctx b s a acct s1 Hnow I E) as (I1 & U & Hok & Hi).
pose proof (Consume_main k ctx b s a gas isDeploy urls) as M. rewrite E in M. simpl in M.
specialize (M (inv_keyed _ _ _ _ _ I) (inv_index _ _ _ _ _ I) (pre_wf _ _ _ (ok_pre _ _ _ _ Hok)) Hsub Hen Hg).
rewrite H in M. destruct M as (P & Hch & Hsum & Hs' & W').
destruct (rest_parts _ _ (up_rest _ _ _ _ U)) as (R1 & R2 & _ & _ & _ & R6 & R7).
assert (Ha : Address acct = a).
{ destruct (Settle_counters k ctx b s a) as (C & _). rewrite E in C. simpl in C. rewrite C.
  apply GetEnergyAccount_Address, I. }
pose proof (updates_Set _ _ _ _ (charged acct res) U Ha) as U'.
rewrite SetEnergyAccount_delegations in Hs'.
assert (UO : usage_only s s').
{ rewrite Hs'. split; simpl; [done|apply unused_chargeAll|done]. }
assert (Hget : ∀ x, GetEnergyAccount s' x = GetEnergyAccount (SetEnergyAccount s1 (charged acct res)) x)
  by (intros x; by rewrite Hs').
split_and!; [|done|by rewrite Hs'|].
- apply (inv_usage b s); try done.
  + rewrite Hs'. apply U'.
  + intros x. rewrite Hget. apply (updates_ok p _ _ _ _ _ _ U'); [intros; apply I|by eapply charged_ok].
  + intros x. rewrite Hget, (up_get _ _ _ _ U'). pose proof (inv_borrowed _ _ _ _ _ I x) as Hb.
    destruct Hch as (ds & F1 & F2 & F3). unfold availIn. rewrite Hs'. simpl.
    rewrite (availIn_chargeAll a x ds _ _ F1 F2 F3). fold (availIn s x). rewrite Hsum.
    case_decide; case_decide; subst; try done; simpl; lia.
  + apply I.
  + intros h r Hr. left. rewrite Hs' in Hr. simpl in Hr. congruence.
- apply (reservation_usage s s' a res UO).
  destruct (paid_bounds acct gas isDeploy res (pre_wf _ _ _ (ok_pre _ _ _ _ Hok)) ltac:(lia) P) as (B1 & B2 & _).
  split; [done|done|by apply charges_consumed|].
  pose proof (charges_pos _ _ _ Hch) as F. eapply Forall_impl; [exact F|].
  intros c [_ [d Hd]]. by apply (inv_ids _ _ _ _ _ I _ d Hd).
Qed.

(** *** Refunds *)
Lemma refunded_ok o l amount u res acct :
  0 <= amount → 0 <= u → is_u64 (OwnDeducted res) → is_u64 (DelegatedDeducted res) → covered p o l →
  acct_ok p o l acct → acct_ok p o l (refunded p amount u res acct).
Proof.
intros Ha Hu Ho Hd Hcov [[W Hout Hl Hf] Hs Hc Hfr]. unfold refunded.
pose proof (TxEnergyCapacity_u64 p Hp (LastBalanceSnapshot acct)) as Hcap.
pose proof (TxEnergyCapacity_mono p Hp _ _ Hs). unfold covered in Hcov.
destruct W. unfold is_u64 in *.
destruct (0 <? ownPart amount res) eqn:E; boolP;
  (split; [split; [split|..]|..]; simpl; try done; unfold is_u64; lia).
Qed.

Lemma inv_refund b s a amount res :
  0 <= amount → Inv b s → reservation_wf s a res →
  Inv b (RefundEnergy s a amount res) ∧ usage_only s (RefundEnergy s a amount res) ∧
  sPending (RefundEnergy s a amount res) = sPending s.
Proof.
intros Hamt I [Ro Rd Rf Ri].
set (amt := Z.min amount (Z.min (OwnDeducted res + DelegatedDeducted res) maxU64)).
assert (Hamt' : 0 <= amt) by (unfold amt, is_u64, maxU64 in *; lia).
destruct (refundLoop s (delPart amt res) 0 (rev (DelegationConsumptions res))) as [u s2] eqn:E.
assert (Hdp : 0 <= 0 <= delPart amt res) by (unfold delPart, is_u64 in *; lia).
pose proof (refundLoop_spec a _ _ _ _ _ _ (inv_index _ _ _ _ _ I) Hdp (Forall_rev Rf) E) as (Hu & W2 & Hs2 & Hun & Hav).
assert (Hpar : GetParams s2 = GetParams s) by (by rewrite Hs2).
assert (Hu' : 0 <= u <= maxU64) by (unfold delPart, is_u64 in *; lia).
pose proof (RefundEnergy_spec s a amount res u s2 Ro Rd Hamt (inv_wf b s a I) E Hu' Hpar) as Hr.
fold amt in Hr. rewrite (inv_params _ _ _ _ _ I) in Hr. destruct (amt =? 0); [by rewrite Hr|].
assert (K2 : accounts_keyed s2) by (rewrite Hs2; apply I).
assert (Ha : Address (GetEnergyAccount s a) = a) by (apply GetEnergyAccount_Address, I).
pose proof (Set_updates s2 (refunded p amt u res (GetEnergyAccount s a)) a K2 Ha) as U.
set (s' := SetEnergyAccount s2 _) in *. rewrite Hr.
assert (Hget : ∀ x, GetEnergyAccount s2 x = GetEnergyAccount s x) by (intros; by rewrite Hs2).
assert (UO : usage_only s s').
{ split; simpl; [by rewrite Hs2|exact Hun|by rewrite Hs2]. }
split_and!; [|done|simpl; by rewrite Hs2]. apply (inv_usage b s); try done.
- apply U.
- by apply index_wf_accounts.
- apply (updates_ok p _ _ _ _ _ _ U).
  + intros x _. rewrite Hget. apply I.
  + apply refunded_ok; try done; [lia|by apply (inv_covered b)|apply I].
- intros x. rewrite (up_get _ _ _ _ U), Hget.
  change (availIn s' x) with (availIn s2 x). rewrite Hav. pose proof (inv_borrowed _ _ _ _ _ I x) as Hb.
  case_decide; case_decide; subst; try done; simpl; lia.
- apply I.
- intros h r Hh. left. simpl in Hh. by rewrite Hs2 in Hh.
Qed.

(** *** Markers *)
Lemma inv_pending_insert b s h a gas res :
  Inv b s → reservation_wf s a res → bech32 a = Some a →
  Inv b (SetPendingReservation s h a gas res).
Proof.
intros I R Ha. unfold SetPendingReservation. case_decide; [done|].
apply (inv_usage b s); try done; try apply I; [by apply index_wf_pending, I|].
simpl. intros h' r [[<- <-]|[_ Hr]]%lookup_insert_Some; [right|by left].
simpl. by rewrite consumeResult_JSON.
Qed.

Lemma inv_pending_delete b s h : Inv b s → Inv b (DeletePendingReservation s h).
Proof.
intros I. unfold DeletePendingReservation. case_decide; [done|].
apply (inv_usage b s); try done; try apply I; [by apply index_wf_pending, I|].
simpl. intros h' r [_ Hr]%lookup_delete_Some. by left.
Qed.

(** *** Delegation *)
Lemma lockedFor_spec per t amount :
  0 < per → 0 < amount → amount + per <= 2 ^ 63 →
  ∃ u, 0 < u ∧ lockedFor per t amount = t * u ∧ per * (u - 1) < amount <= per * u.
Proof.
intros Hper Ha Hb. unfold lockedFor. rewrite u64_small by (unfold is_u64, maxU64; lia).
pose proof (Z.div_mod (amount + per - 1) per ltac:(lia)).
pose proof (Z.mod_pos_bound (amount + per - 1) per Hper).
set (u := (amount + per - 1) / per) in *. assert (0 < u) by nia.
rewrite i64_small by (unfold is_i64; nia). exists u. nia.
Qed.

(** A reservation made before a delegation with a new id. *)
Lemma reservation_new s d a res :
  Id d = nextId s → nextId s < maxU64 → reservation_wf s a res →
  reservation_wf (setDelegation (set_next (u64 (nextId s + 1)) s) d) a res.
Proof.
intros Hid Hmax [R1 R2 R3 R4]. split; try done.
- simpl. apply Forall_forall. intros c Hc. unfold consumed_from in R3. rewrite Forall_forall in R3, R4.
  specialize (R4 c Hc). destruct (R3 c Hc) as [H1 H2]. split; [done|].
  intros d'. rewrite lookup_insert_ne by (simpl in *; lia). apply H2.
- eapply Forall_impl; [exact R4|]. intros c Hc.
  assert (Hn : nextId (setDelegation (set_next (u64 (nextId s + 1)) s) d) = u64 (nextId s + 1)) by done.
  rewrite Hn. clear Hn. cbv beta in Hc.
  assert (0 <= nextId s ∨ nextId s < 0) as [|] by lia.
  + rewrite u64_small by (unfold is_u64; lia). lia.
  + pose proof (u64_range (nextId s + 1)). unfold is_u64 in *. lia.
Qed.

(** What a successful [Delegate] did. *)
Lemma Delegate_inversion k ctx b s delegator delegatee amount duration id locked b' s' :
  Delegate k ctx (b, s) delegator delegatee amount duration = (Ok (id, locked), (b', s')) →
  let params := GetParams s in
  locked = lockedFor (TxEnergyPerThreshold params) (default 0 (TxEnergyHoldingThreshold params)) amount ∧
  amount ≠ 0 ∧ 0 < duration ∧ delegator ≠ delegatee ∧ 0 <= locked <= GetBalance b delegator (BaseDenom k) ∧
  ∃ acct s1 b3 s3 dee s4,
    Settle k ctx b s delegator = (acct, s1) ∧
    amount <= Z.max 0 (TxEnergyAccrued acct - DelegatedOut acct) ∧
    SendCoinsFromAccountToModule (SendRestriction k ctx)
      (b, SetEnergyAccount s1 (with_LockedAtos (LockedAtos acct + locked)
            (with_DelegatedOut (u64 (DelegatedOut acct + amount)) acct)))
      delegator LockedEnergyPoolName (NewCoins (BaseDenom k) locked) = (Ok tt, (b3, s3)) ∧
    Settle k ctx b3 s3 delegatee = (dee, s4) ∧ b' = b3 ∧
    let s5 := SetEnergyAccount s4 (with_DelegatedInUsable (saturatingAdd (DelegatedInUsable dee) amount) dee) in
    id = nextId s5 ∧
    s' = setDelegation (set_next (u64 (id + 1)) s5)
           (mkEnergyDelegation id delegator delegatee amount locked (BlockTime ctx)
              (i64 (BlockTime ctx + duration)) 0).
Proof.
unfold Delegate. intros H.
destruct (amount =? 0) eqn:E1; [by inv_ok|]. destruct (duration <=? 0) eqn:E2; [by inv_ok|].
destruct (decide (delegator = delegatee)) as [|E3]; [by inv_ok|]. destruct (_ || _); [by inv_ok|].
cbv zeta in H |- *. set (lk := lockedFor _ _ _) in *.
destruct (Settle k ctx b s delegator) as [acct s1] eqn:ES.
destruct (_ <? amount) eqn:E4 in H; [by inv_ok|]. destruct (_ <? lk) eqn:E5 in H; [by inv_ok|].
destruct (lk <? 0) eqn:E6 in H; [by inv_ok|].
destruct (SendCoinsFromAccountToModule _ _ _ _ _) as [[[]|e] [b3 s3]] eqn:ESend; [|by inv_ok].
destruct (Settle k ctx b3 s3 delegatee) as [dee s4] eqn:ES2. unfold nextDelegationID in H. inv_ok. boolP.
split_and!; try done; try lia.
eexists _, _, _, _, _, _. split_and!; try done.
destruct (_ <? DelegatedOut acct) eqn:E7 in E4; boolP; lia.
Qed.
End preserve.
