(* ===== verification/EnergyLifecycle.v ===== *)
(** * Delegation lifecycle and the energy invariant

    [Delegate], [releaseDelegation], the expiry sweep and [EndBlocker] keep
    [energy_inv]; under it a release cannot fail. *)

From stdpp Require Import gmap strings list sorting.
From Stdlib Require Import ZArith Lia.
From S2P Require Import Prelude SdkMath Bank EnergyTypes EnergyKeeper EnergyIndex EnergyConsume EnergySpending EnergyDelegate EnergyInvariant.

Open Scope Z_scope.

Section lifecycle.
Context {B : Type} {bank : BankOps B} {laws : BankLaws bank}.
Context (base : denom) (bech32 : string → option addr) (p : Params) (Hp : params_wf p).
Context (Hbase : base ≠ AtoxBaseDenom).
Implicit Types (k : Keeper) (ctx : Ctx) (b : B) (s : EnergyStore) (a : addr).
Local Abbreviation Inv := (energy_inv base bech32 p).

(** The quantity [f] at [a], plus [x] when [a] is [a0]. *)
Definition bump (f : addr → Z) (a0 : addr) (x : Z) (a : addr) : Z := f a + at_addr a0 a x.

Lemma NewCoins_base k x : BaseDenom k = base →
  AmountOf (NewCoins (BaseDenom k) x) (BaseDenom k) + AmountOf (NewCoins (BaseDenom k) x) AtoxBaseDenom = x.
Proof. intros ->. rewrite !AmountOf_NewCoins, decide_True, decide_False by done. lia. Qed.

(** A send of base coins between a user whose account may be out of order and
    the pool puts the accounts in order. *)
Lemma send_base_ok o l k ctx b s from to x b' s' :
  keeper_of base bech32 k → 0 < BlockTime ctx → 0 < x → from ≠ to →
  accounts_keyed s → GetParams s = p → all_covered p o l → all_pre o l s →
  (∀ a, a ≠ from → acct_ok p (o a) (l a) (GetEnergyAccount s a)) →
  SendCoins (SendRestriction k ctx) (b, s) from to (NewCoins (BaseDenom k) x) = (Ok tt, (b', s')) →
  all_ok p o l s' ∧ same_in s s' ∧ rest s' = rest s ∧ accounts_keyed s' ∧ no_gain ctx s s' ∧
  (∀ a, GetBalance b' a base = GetBalance b a base - at_addr from a x + at_addr to a x) ∧
  (∀ a d, d ≠ base → GetBalance b' a d = GetBalance b a d).
Proof.
intros [Hb _] Hnow Hx Hne K HP Hcov Hpre Hok H.
assert (Hv : coins_valid (NewCoins (BaseDenom k) x)) by (apply NewCoins_valid; lia).
pose proof H as Hbal.
apply (send_balances _ b s from to _ b' s' Hv) in Hbal as (_ & Hbal & _); [|apply SendRestriction_to].
apply send_spec in H as (b1 & to' & b2 & s2 & b3 & Hsub & Hr & Hadd & [= -> ->]).
destruct (SendRestriction_ok p Hp o l k ctx b1 s from to _ to' b2 s2 K HP Hnow Hv Hcov Hpre Hok)
  as (-> & -> & A & Hin & R & K2 & Hng); [|done|].
- right. split; [done|]. rewrite NewCoins_base by done. lia.
- split_and!; try done; intros a *.
  + rewrite Hbal, Hb, AmountOf_NewCoins, decide_True by done. lia.
  + intros Hd. rewrite Hbal, Hb, AmountOf_NewCoins, decide_False by done. unfold at_addr. repeat case_decide; lia.
Qed.

Lemma bump_lent s d a :
  sDelegations s !! Id d = None → lentBy (setDelegation s d) a = bump (lentBy s) (Delegator d) (Amount d) a.
Proof.
intros H. unfold lentBy, bump, at_addr. rewrite sum_insert_new by done. unfold outOf at 1.
repeat case_decide; subst; try done; lia.
Qed.

Lemma bump_locked s d a :
  sDelegations s !! Id d = None →
  lockedBy (setDelegation s d) a = bump (lockedBy s) (Delegator d) (dLockedAtos d) a.
Proof.
intros H. unfold lockedBy, bump, at_addr. rewrite sum_insert_new by done. unfold lockOf at 1.
repeat case_decide; subst; try done; lia.
Qed.

(** The delegator's account after [Delegate] wrote its counters. *)
Lemma delegate_pre o l acct amount locked :
  0 <= amount → 0 <= locked → amount <= Z.max 0 (TxEnergyAccrued acct - DelegatedOut acct) →
  acct_ok p o l acct →
  pre_ok (o + amount) (l + locked)
    (with_LockedAtos (LockedAtos acct + locked)
      (with_DelegatedOut (u64 (DelegatedOut acct + amount)) acct)).
Proof.
intros Ha Hl Hfree [[W Ho Hlk Hf] _ _ _]. pose proof (wf_tx _ W) as Ht. pose proof (wf_out _ W) as Hout.
unfold is_u64 in *. rewrite u64_small by (unfold is_u64; lia).
destruct W. split; [split|..]; simpl; try done; unfold is_u64; lia.
Qed.

Lemma backed_new k ctx b s delegator delegatee amount duration id locked t :
  TxEnergyHoldingThreshold p = Some t → 0 < amount → amount + TxEnergyPerThreshold p <= 2 ^ 63 →
  locked = lockedFor (TxEnergyPerThreshold p) t amount →
  backed p (mkEnergyDelegation id delegator delegatee amount locked (BlockTime ctx)
              (i64 (BlockTime ctx + duration)) 0) ∧ 0 < locked.
Proof.
intros Ht Ha Hb ->. destruct (wf_threshold p Hp) as (t' & Ht' & Hpos). rewrite Ht in Ht'. injection Ht' as <-.
destruct (lockedFor_spec (TxEnergyPerThreshold p) t amount) as (u & Hu & -> & H1); [apply Hp|done|done|].
split; [|nia]. exists u. simpl. rewrite Ht. simpl. lia.
Qed.

(** Who may delegate: a user account, in canonical form. *)
Record user (a : addr) : Prop := {
  user_canon : bech32 a = Some a;
  user_open : BlockedAddr a = false;
  user_not_pool : a ≠ pool;
}.

Lemma inv_fresh b s : Inv b s → sDelegations s !! nextId s = None.
Proof.
intros I. destruct (sDelegations s !! nextId s) as [d|] eqn:E; [|done].
apply (inv_ids _ _ _ _ _ I) in E. lia.
Qed.

Lemma covered_new b s d :
  Inv b s → Id d = nextId s → backed p d →
  (∀ a, bump (lentBy s) (Delegator d) (Amount d) a <= maxU64) →
  all_covered p (bump (lentBy s) (Delegator d) (Amount d)) (bump (lockedBy s) (Delegator d) (dLockedAtos d)).
Proof.
intros I Hid Hb Hmax a. pose proof (inv_fresh b s I) as Hn. rewrite <- Hid in Hn.
rewrite <- bump_lent, <- bump_locked by done. apply (lent_covered p Hp).
- intros id' d' Hd'. simpl in Hd'. apply lookup_insert_Some in Hd' as [[_ <-]|[_ Hd']]; [done|].
  by apply (inv_backed _ _ _ _ _ I id').
- rewrite bump_lent by done. apply Hmax.
Qed.

(** Adding a record whose counters and coins are in place. *)
Lemma inv_new b s b' s5 d :
  Inv b s → rest s5 = rest s → accounts_keyed s5 →
  Id d = nextId s → nextId s < maxU64 →
  all_ok p (bump (lentBy s) (Delegator d) (Amount d)) (bump (lockedBy s) (Delegator d) (dLockedAtos d)) s5 →
  (∀ a, DelegatedInUsable (GetEnergyAccount s5 a) <=
        DelegatedInUsable (GetEnergyAccount s a) + at_addr (Delegatee d) a (Amount d)) →
  backed p d → parties_wf bech32 d → delegation_wf d → Used d = 0 →
  GetBalance b pool base + dLockedAtos d <= GetBalance b' pool base →
  Inv b' (setDelegation (set_next (u64 (nextId s + 1)) s5) d).
Proof.
intros I R K Hid Hmax A Hin Hb Hpw Hdw Hu Hpool.
destruct (rest_parts _ _ R) as (Q1 & Q2 & Q3 & Q4 & Q5 & Q6 & Q7).
pose proof (inv_next _ _ _ _ _ I) as Hn. pose proof (inv_fresh b s I) as Hf.
assert (Hf5 : sDelegations s5 !! Id d = None) by (by rewrite Q2, Hid).
assert (Hnx : nextId (setDelegation (set_next (u64 (nextId s + 1)) s5) d) = nextId s + 1).
{ transitivity (u64 (nextId s + 1)); [done|]. apply u64_small. unfold is_u64. lia. }
assert (Hsum : ∀ f, map_sum f (sDelegations (setDelegation (set_next (u64 (nextId s + 1)) s5) d)) =
  f d + map_sum f (sDelegations s)) by (intros; rewrite sum_insert_new by done; simpl; by rewrite Q2).
assert (Hcase : ∀ id' d', sDelegations (setDelegation (set_next (u64 (nextId s + 1)) s5) d) !! id' = Some d' →
  (id' = nextId s ∧ d' = d) ∨ sDelegations s !! id' = Some d').
{ intros id' d' H. simpl in H. rewrite Q2, Hid in H. apply lookup_insert_Some in H. naive_solver. }
split.
- rewrite <- (inv_params _ _ _ _ _ I). apply (GetParams_rest s s5 R).
- exact K.
- apply index_wf_set; [|done|done]. apply index_wf_next, (index_wf_rest s s5 R), I.
- intros a. unfold lentBy, lockedBy. rewrite !Hsum. specialize (A a). unfold bump, at_addr in A.
  unfold outOf at 1, lockOf at 1. unfold lentBy, lockedBy in A.
  repeat case_decide; subst; try done; rewrite ?(Z.add_comm (Amount d)), ?(Z.add_comm (dLockedAtos d));
    rewrite ?Z.add_0_l, ?Z.add_0_r in *; done.
- intros a. unfold availIn. rewrite Hsum. pose proof (inv_borrowed _ _ _ _ _ I a) as Hbw.
  unfold availIn in Hbw. specialize (Hin a). unfold availOf at 1. unfold at_addr in Hin.
  change (GetEnergyAccount (setDelegation (set_next (u64 (nextId s + 1)) s5) d) a) with (GetEnergyAccount s5 a).
  repeat case_decide; subst; try done; lia.
- intros id' d' H. destruct (Hcase id' d' H) as [[_ ->]|H0]; [done|by apply (inv_backed _ _ _ _ _ I id')].
- intros id' d' H. destruct (Hcase id' d' H) as [[_ ->]|H0]; [done|by apply (inv_parties _ _ _ _ _ I id')].
- intros id' d' H. rewrite Hnx. destruct (Hcase id' d' H) as [[-> _]|H0]; [lia|].
  pose proof (inv_ids _ _ _ _ _ I id' d' H0). lia.
- rewrite Hnx. lia.
- unfold lockedTotal. rewrite Hsum. pose proof (inv_pool _ _ _ _ _ I) as Hpl. unfold lockedTotal in Hpl. lia.
- intros h r Hr. simpl in Hr. rewrite Q7 in Hr. destruct (inv_pending _ _ _ _ _ I h r Hr) as (H0 & H1 & H2).
  split_and!; [done| |done]. assert (Hn5 : nextId s5 = nextId s) by (unfold nextId; by rewrite Q6).
  rewrite <- Hn5. apply reservation_new; [congruence|lia|].
  eapply reservation_usage; [by apply rest_usage_only|done].
Qed.

(** The record a successful [Delegate] stores. *)
Definition newDelegation ctx s delegator delegatee amount duration locked : EnergyDelegation :=
  mkEnergyDelegation (nextId s) delegator delegatee amount locked (BlockTime ctx)
    (i64 (BlockTime ctx + duration)) 0.

(** A delegator writing its counters leaves the accounts fit for the hook. *)
Lemma delegate_counters b s s1 delegator acct amount locked d :
  Inv b s → updates s delegator acct s1 → acct_ok p (lentBy s delegator) (lockedBy s delegator) acct →
  Address acct = delegator → 0 <= amount → 0 <= locked →
  amount <= Z.max 0 (TxEnergyAccrued acct - DelegatedOut acct) →
  DelegatedInUsable acct = DelegatedInUsable (GetEnergyAccount s delegator) →
  Id d = nextId s → Delegator d = delegator → Amount d = amount → dLockedAtos d = locked → backed p d →
  let o := bump (lentBy s) delegator amount in
  let l := bump (lockedBy s) delegator locked in
  let s2 := SetEnergyAccount s1 (with_LockedAtos (LockedAtos acct + locked)
              (with_DelegatedOut (u64 (DelegatedOut acct + amount)) acct)) in
  accounts_keyed s2 ∧ rest s2 = rest s ∧ same_in s s2 ∧ all_covered p o l ∧ all_pre o l s2 ∧
  (∀ a, a ≠ delegator → acct_ok p (o a) (l a) (GetEnergyAccount s2 a)).
Proof.
intros I U1 Hok1 Ha1 Ham Hlk Hfree Hin Hid Hdor Hdam Hdlk Hbk o l s2.
pose proof (delegate_pre _ _ acct amount locked Ham Hlk Hfree Hok1) as Hpre1.
pose proof (updates_Set _ _ _ _ (with_LockedAtos (LockedAtos acct + locked)
  (with_DelegatedOut (u64 (DelegatedOut acct + amount)) acct)) U1 Ha1) as U2. fold s2 in U2.
assert (Hother : ∀ a, a ≠ delegator → acct_ok p (o a) (l a) (GetEnergyAccount s2 a)).
{ intros a Hne. unfold o, l, bump. rewrite !at_addr_ne, !Z.add_0_r by done.
  rewrite (updates_get_ne _ _ _ _ _ U2) by done. apply I. }
assert (Hpre : all_pre o l s2).
{ intros a. destruct (decide (a = delegator)) as [->|Hne]; [|by apply (ok_pre p), Hother].
  rewrite (updates_get _ _ _ _ U2). unfold o, l, bump. by rewrite !at_addr_eq. }
split_and!; [apply U2|apply U2| | |done|done].
- intros a. rewrite (up_get _ _ _ _ U2). case_decide; [subst; exact Hin|done].
- pose proof (covered_new b s d I Hid Hbk) as Hc. rewrite Hdor, Hdam, Hdlk in Hc. apply Hc.
  intros a. destruct (Hpre a) as [W Ho _ _]. fold o. rewrite <- Ho. apply (wf_out _ W).
Qed.

(** The state a successful [Delegate] builds, before the record is added. *)
Lemma delegate_stage k ctx b s delegator delegatee amount duration id locked b' s' :
  keeper_of base bech32 k → 0 < BlockTime ctx → Inv b s → user delegator →
  0 <= amount → amount + TxEnergyPerThreshold p <= 2 ^ 63 →
  Delegate k ctx (b, s) delegator delegatee amount duration = (Ok (id, locked), (b', s')) →
  let d := newDelegation ctx s delegator delegatee amount duration locked in
  0 < amount ∧ 0 < locked ∧ delegator ≠ delegatee ∧ id = nextId s ∧ backed p d ∧
  locked = lockedFor (TxEnergyPerThreshold p) (default 0 (TxEnergyHoldingThreshold p)) amount ∧
  (∀ a, GetBalance b' a base = GetBalance b a base - at_addr delegator a locked + at_addr pool a locked) ∧
  (∀ a d, d ≠ base → GetBalance b' a d = GetBalance b a d) ∧
  ∃ s5, s' = setDelegation (set_next (u64 (nextId s + 1)) s5) d ∧ rest s5 = rest s ∧ accounts_keyed s5 ∧
    all_ok p (bump (lentBy s) delegator amount) (bump (lockedBy s) delegator locked) s5 ∧
    (∀ a, DelegatedInUsable (GetEnergyAccount s5 a) =
          if decide (a = delegatee) then Z.min (DelegatedInUsable (GetEnergyAccount s a) + amount) maxU64
          else DelegatedInUsable (GetEnergyAccount s a)).
Proof.
intros Hk Hnow I [Uc Uo Up] Ham Hbound H d. pose proof (inv_params _ _ _ _ _ I) as HP.
apply Delegate_inversion in H as (Hlk & Hne0 & Hdur & Hself & Hbal & acct & s1 & b3 & s3 & dee & s4 & ES & Hfree & ESend & ES2 & -> & Hid & Hs').
rewrite HP in Hlk. pose proof Hlk as Hlk'. destruct (wf_threshold p Hp) as (t & Ht & Hpos). rewrite Ht in Hlk. simpl in Hlk.
destruct (backed_new k ctx b s delegator delegatee amount duration (nextId s) locked t Ht ltac:(lia) Hbound Hlk) as [Hbk Hpos'].
destruct (inv_settle base bech32 p Hp k ctx b s delegator acct s1 Hnow I ES) as (I1 & U1 & Hok1 & Hin1).
assert (Ha1 : Address acct = delegator).
{ destruct (Settle_counters k ctx b s delegator) as [C _]. rewrite ES in C. simpl in *. rewrite C.
  apply GetEnergyAccount_Address, I. }
destruct (delegate_counters b s s1 delegator acct amount locked d I U1 Hok1 Ha1 Ham ltac:(lia) Hfree Hin1
  eq_refl eq_refl eq_refl eq_refl Hbk) as (K2 & R2 & Hin2 & Hcov & Hpre & Hother).
set (s2 := SetEnergyAccount s1 _) in *. rewrite send_to_module in ESend. fold (@pool B bank) in ESend.
assert (HP2 : GetParams s2 = p) by (by rewrite (GetParams_rest _ _ R2)).
destruct (send_base_ok _ _ k ctx b s2 delegator pool locked b3 s3 Hk Hnow Hpos' Up K2 HP2
  Hcov Hpre Hother ESend) as (A3 & Hin3 & R3 & K3 & _ & Hbal3 & Hoth3).
assert (HP3 : GetParams s3 = p) by (by rewrite (GetParams_rest _ _ R3)).
destruct (Settle_all_ok p Hp _ _ k ctx b3 s3 delegatee dee s4 K3 HP3 Hnow A3 ES2) as (A4 & Hin4 & U4 & Hdok & Hdin).
set (dee' := with_DelegatedInUsable _ dee) in *.
assert (Had : Address dee' = delegatee).
{ destruct (Settle_counters k ctx b3 s3 delegatee) as [C _]. rewrite ES2 in C. simpl in *. rewrite C.
  by apply GetEnergyAccount_Address. }
pose proof (updates_Set _ _ _ _ dee' U4 Had) as U5. set (s5 := SetEnergyAccount s4 dee') in *.
assert (R5 : rest s5 = rest s) by (eapply rest_trans; [|apply U5]; by eapply rest_trans).
assert (Hn5 : nextId s5 = nextId s) by (by apply nextId_usage, rest_usage_only).
assert (Hau : is_u64 amount) by (pose proof (wf_per p Hp); unfold is_u64, maxU64 in *; lia).
pose proof (wf_in _ (pre_wf _ _ _ (ok_pre _ _ _ _ Hdok))) as Hdu.
rewrite Hn5 in Hid. rewrite Hid in Hs'. split_and!; try done; [lia|]. exists s5. split_and!; try done.
- apply U5.
- apply (updates_ok p _ _ _ _ _ _ U5); [intros; apply A3|]. apply acct_ok_In; [by apply saturatingAdd_u64|done].
- intros a. rewrite (up_get _ _ _ _ U5). case_decide; [subst a|by rewrite Hin3, Hin2].
  simpl. by rewrite saturatingAdd_spec, Hdin, Hin3, Hin2.
Qed.

Lemma inv_delegate k ctx b s delegator delegatee amount duration id locked b' s' :
  keeper_of base bech32 k → 0 < BlockTime ctx → Inv b s →
  user delegator → bech32 delegatee = Some delegatee →
  0 <= amount → amount + TxEnergyPerThreshold p <= 2 ^ 63 → nextId s < maxU64 →
  Delegate k ctx (b, s) delegator delegatee amount duration = (Ok (id, locked), (b', s')) →
  Inv b' s' ∧ (∀ a res, reservation_wf s a res → reservation_wf s' a res).
Proof.
intros Hk Hnow I Hu Hdee Ham Hbound Hnext H.
destruct (delegate_stage k ctx b s delegator delegatee amount duration id locked b' s' Hk Hnow I Hu Ham Hbound H)
  as (Hpa & Hpl & Hself & Hid & Hbk & _ & Hbal & _ & s5 & -> & R5 & K5 & A5 & Hin).
set (d := newDelegation ctx s delegator delegatee amount duration locked) in *. destruct Hu as [Uc Uo Up]. split.
- apply (inv_new b s b' s5 d); try done.
  + intros a. rewrite Hin. unfold at_addr. simpl. repeat case_decide; try done; lia.
  + pose proof (wf_per p Hp). split; simpl; unfold maxU64; lia.
  + simpl. rewrite Hbal, at_addr_eq, at_addr_ne by done. lia.
- intros a res Hr. assert (Hn5 : nextId s5 = nextId s) by (by apply nextId_usage, rest_usage_only).
  rewrite <- Hn5. apply reservation_new; [by rewrite Hn5|lia|].
  eapply reservation_usage; [by apply rest_usage_only|done].
Qed.

(** *** Release *)
Lemma SendRestriction_total k ctx b s from to amt :
  ∃ s', SendRestriction k ctx (b, s) from to amt = (Ok to, (b, s')).
Proof. unfold SendRestriction. repeat destr_match; eauto. Qed.

Lemma releaseCounters_spec o l d acct :
  delegation_wf d → acct_ok p o l acct → Amount d <= o → dLockedAtos d <= l →
  acct_ok p (o - Amount d) (l - dLockedAtos d) (releaseCounters d acct) ∧
  Address (releaseCounters d acct) = Address acct ∧
  TxEnergyAccrued (releaseCounters d acct) = TxEnergyAccrued acct - Used d ∧
  DelegatedInUsable (releaseCounters d acct) = DelegatedInUsable acct.
Proof.
intros [Du Da Dl] [[W Ho Hl Hf] Hs Hc Hfr] H1 H2. subst o l. unfold releaseCounters.
destruct W as [Wt Wd Wo Wi Wl Ws]. unfold is_u64 in *.
destruct (0 <? Used d) eqn:E; boolP; cbn [DelegatedOut LockedAtos TxEnergyAccrued with_TxEnergyAccrued with_DelegatedOut];
  rewrite ?(proj2 (Z.leb_le (Used d) _)), (proj2 (Z.leb_le (Amount d) _)), (proj2 (Z.leb_le (dLockedAtos d) _)) by lia;
  (split; [split; [split; [split|..]|..]; simpl; unfold is_u64; try done; lia|split_and!; simpl; try done; lia]).
Qed.

Lemma dropped_lent s d a :
  sDelegations s !! Id d = Some d →
  lentBy (removeDelegation s d) a = bump (lentBy s) (Delegator d) (- Amount d) a.
Proof.
intros H. unfold lentBy, bump, at_addr. rewrite sum_remove by done. unfold outOf at 2.
repeat case_decide; subst; try done; lia.
Qed.

Lemma dropped_locked s d a :
  sDelegations s !! Id d = Some d →
  lockedBy (removeDelegation s d) a = bump (lockedBy s) (Delegator d) (- dLockedAtos d) a.
Proof.
intros H. unfold lockedBy, bump, at_addr. rewrite sum_remove by done. unfold lockOf at 2.
repeat case_decide; subst; try done; lia.
Qed.

Lemma stored_le_sum (f : EnergyDelegation → Z) s d :
  index_wf s → (∀ d, delegation_wf d → 0 <= f d) → sDelegations s !! Id d = Some d →
  f d <= map_sum f (sDelegations s).
Proof.
intros W Hf Hd. apply (map_sum_lookup_le f _ (Id d)); [|done].
intros id' d' Hd'. by apply Hf, (iw_del s W id').
Qed.

Lemma covered_dropped b s d :
  Inv b s → sDelegations s !! Id d = Some d →
  all_covered p (bump (lentBy s) (Delegator d) (- Amount d)) (bump (lockedBy s) (Delegator d) (- dLockedAtos d)).
Proof.
intros I Hd a. rewrite <- dropped_lent, <- dropped_locked by done. apply (lent_covered p Hp).
- simpl. intros id' d' [_ Hd']%lookup_delete_Some. by apply (inv_backed _ _ _ _ _ I id').
- rewrite dropped_lent by done. unfold bump, at_addr. pose proof (lentBy_max base bech32 p b s a I).
  destruct (dwf_amount d (iw_del s (inv_index _ _ _ _ _ I) _ _ Hd)). case_decide; lia.
Qed.

(** Dropping a record whose counters and coins have been given back. *)
Lemma inv_dropped b s b' s5 d :
  Inv b s → rest s5 = rest s → accounts_keyed s5 → sDelegations s !! Id d = Some d →
  all_ok p (bump (lentBy s) (Delegator d) (- Amount d)) (bump (lockedBy s) (Delegator d) (- dLockedAtos d)) s5 →
  (∀ a, DelegatedInUsable (GetEnergyAccount s5 a) <=
        Z.max 0 (DelegatedInUsable (GetEnergyAccount s a) - at_addr (Delegatee d) a (Amount d - Used d))) →
  GetBalance b pool base - dLockedAtos d <= GetBalance b' pool base →
  Inv b' (removeDelegation s5 d).
Proof.
intros I R K Hd A Hin Hpool. destruct (rest_parts _ _ R) as (Q1 & Q2 & Q3 & Q4 & Q5 & Q6 & Q7).
assert (Hd5 : sDelegations s5 !! Id d = Some d) by (by rewrite Q2).
assert (Hsum : ∀ f, map_sum f (sDelegations (removeDelegation s5 d)) = map_sum f (sDelegations s) - f d)
  by (intros; rewrite sum_remove by done; by rewrite Q2).
assert (Hsub : ∀ id' d', sDelegations (removeDelegation s5 d) !! id' = Some d' → sDelegations s !! id' = Some d').
{ intros id' d' H. simpl in H. apply lookup_delete_Some in H as [_ H]. congruence. }
assert (Hnx : nextId (removeDelegation s5 d) = nextId s) by (unfold nextId; simpl; by rewrite Q6).
assert (Wr : index_wf (removeDelegation s5 d)) by (apply index_wf_remove; [apply (index_wf_rest s s5 R), I|done]).
split; try done.
- rewrite <- (inv_params _ _ _ _ _ I). apply (GetParams_rest s s5 R).
- intros a. specialize (A a). rewrite <- dropped_lent, <- dropped_locked in A by done.
  unfold lentBy, lockedBy in *. rewrite !Hsum. rewrite !sum_remove in A by done. exact A.
- intros a. pose proof (availIn_nonneg _ a Wr) as H0. unfold availIn in *. rewrite Hsum in *.
  pose proof (inv_borrowed _ _ _ _ _ I a) as Hbw. unfold availIn in Hbw. specialize (Hin a).
  change (GetEnergyAccount (removeDelegation s5 d) a) with (GetEnergyAccount s5 a).
  unfold availOf at 2. unfold availOf at 2 in H0. unfold at_addr in Hin.
  repeat case_decide; subst; try done; lia.
- intros id' d' H. by apply (inv_backed _ _ _ _ _ I id'), Hsub.
- intros id' d' H. by apply (inv_parties _ _ _ _ _ I id'), Hsub.
- intros id' d' H. rewrite Hnx. by apply (inv_ids _ _ _ _ _ I id' d'), Hsub.
- rewrite Hnx. apply I.
- unfold lockedTotal. rewrite Hsum. pose proof (inv_pool _ _ _ _ _ I) as Hpl. unfold lockedTotal in Hpl. lia.
- intros h r Hr. simpl in Hr. rewrite Q7 in Hr. destruct (inv_pending _ _ _ _ _ I h r Hr) as (H0 & [R1 R2 R3 R4] & H2).
  split_and!; [done| |done]. split; [done|done| |by rewrite Hnx].
  eapply Forall_impl; [exact R3|]. intros c [Hc Hc']. split; [done|]. intros d' H. by apply Hc', Hsub.
Qed.

(** Paying [x] back from the pool cannot fail while the pool holds it. *)
Lemma pool_refund o l k ctx b s to x :
  keeper_of base bech32 k → 0 < BlockTime ctx → 0 < x <= GetBalance b pool base →
  BlockedAddr to = false → to ≠ pool →
  accounts_keyed s → GetParams s = p → all_covered p o l → all_ok p o l s →
  ∃ b' s', SendCoinsFromModuleToAccount (SendRestriction k ctx) (b, s) LockedEnergyPoolName to
             (NewCoins (BaseDenom k) x) = (Ok tt, (b', s')) ∧
    all_ok p o l s' ∧ same_in s s' ∧ rest s' = rest s ∧ accounts_keyed s' ∧ no_gain ctx s s' ∧
    (∀ a, GetBalance b' a base = GetBalance b a base - at_addr pool a x + at_addr to a x) ∧
    (∀ a d, d ≠ base → GetBalance b' a d = GetBalance b a d).
Proof.
intros Hk Hnow [Hx Hle] Hopen Hne K HP Hcov A. rewrite send_from_module by done. fold (@pool B bank).
assert (Hv : coins_valid (NewCoins (BaseDenom k) x)) by (apply NewCoins_valid; lia).
destruct (sub_module_ok b LockedEnergyPoolName (NewCoins (BaseDenom k) x) Hv) as [b1 Hsub].
{ intros d. rewrite AmountOf_NewCoins, (proj1 Hk). fold (@pool B bank). case_decide; [by subst|apply balance_nonneg]. }
destruct (SendRestriction_total k ctx b1 s pool to (NewCoins (BaseDenom k) x)) as [s' Hr].
destruct (add_ok b1 to (NewCoins (BaseDenom k) x) Hv) as [b' Hadd].
assert (H : SendCoins (SendRestriction k ctx) (b, s) pool to (NewCoins (BaseDenom k) x) = (Ok tt, (b', s'))).
{ apply send_spec. by eexists _, _, _, _, _. }
exists b', s'. split; [done|].
apply (send_base_ok o l k ctx b s pool to x b' s'); try done.
- by apply (all_ok_pre p).
Qed.

(** The two accounts a release touches, before and after the refund. *)
Lemma release_succeeds k ctx b s d :
  keeper_of base bech32 k → 0 < BlockTime ctx → Inv b s → sDelegations s !! Id d = Some d →
  ∃ b' s', releaseDelegation k ctx (b, s) d = (Ok tt, (b', s')) ∧ Inv b' s' ∧
    sDelegations s' = delete (Id d) (sDelegations s) ∧ sPending s' = sPending s ∧ nextId s' = nextId s ∧
    (TxEnergyAccrued (GetEnergyAccount s' (Delegator d)) <=
      TxEnergyAccrued (Settle k ctx b s (Delegator d)).1 - Used d) ∧
    (∀ a, GetBalance b' a base = GetBalance b a base - at_addr pool a (dLockedAtos d)
            + at_addr (Delegator d) a (dLockedAtos d)) ∧
    (∀ a d, d ≠ base → GetBalance b' a d = GetBalance b a d).
Proof.
intros Hk Hnow I Hd. destruct (inv_parties _ _ _ _ _ I _ _ Hd) as [P1 P2 P3 P4 P5].
pose proof (iw_del s (inv_index _ _ _ _ _ I) _ _ Hd) as Dw. destruct (dwf_used d Dw) as [Du1 Du2].
unfold releaseDelegation. rewrite (proj2 Hk), P1, P2.
destruct (Settle k ctx b s (Delegator d)) as [acct s1] eqn:ES.
destruct (inv_settle base bech32 p Hp k ctx b s (Delegator d) acct s1 Hnow I ES) as (I1 & U1 & Hok1 & Hin1).
destruct (releaseCounters_spec _ _ d acct Dw Hok1) as (Hok2 & Ha2 & Htx & Hin2).
{ unfold lentBy. transitivity (outOf (Delegator d) d); [unfold outOf; by rewrite decide_True|].
  apply (stored_le_sum _ s d); [apply I| |done]. intros d' [_ ? _]. unfold outOf. case_decide; lia. }
{ unfold lockedBy. transitivity (lockOf (Delegator d) d); [unfold lockOf; by rewrite decide_True|].
  apply (stored_le_sum _ s d); [apply I| |done]. intros d' [_ _ ?]. unfold lockOf. case_decide; lia. }
assert (Ha1 : Address (releaseCounters d acct) = Delegator d).
{ destruct (Settle_counters k ctx b s (Delegator d)) as [C _]. rewrite ES in C. simpl in *. rewrite Ha2, C.
  apply GetEnergyAccount_Address, I. }
pose proof (updates_Set _ _ _ _ (releaseCounters d acct) U1 Ha1) as U2.
set (s2 := SetEnergyAccount s1 (releaseCounters d acct)) in *.
set (o := bump (lentBy s) (Delegator d) (- Amount d)). set (l := bump (lockedBy s) (Delegator d) (- dLockedAtos d)).
assert (A2 : all_ok p o l s2).
{ apply (updates_ok p o l _ _ _ _ U2); unfold o, l, bump; [|by rewrite !at_addr_eq].
  intros a Hne. rewrite !at_addr_ne, !Z.add_0_r by done. apply I. }
assert (HP2 : GetParams s2 = p) by (by rewrite (GetParams_rest _ _ (up_rest _ _ _ _ U2)), (inv_params _ _ _ _ _ I)).
assert (Hpay : ∃ b3 s3,
  (if 0 <? dLockedAtos d then SendCoinsFromModuleToAccount (SendRestriction k ctx) (b, s2) LockedEnergyPoolName
     (Delegator d) (NewCoins (BaseDenom k) (dLockedAtos d)) else (Ok tt, (b, s2))) = (Ok tt, (b3, s3)) ∧
  all_ok p o l s3 ∧ same_in s2 s3 ∧ rest s3 = rest s2 ∧ accounts_keyed s3 ∧ no_gain ctx s2 s3 ∧
  (∀ a, GetBalance b3 a base = GetBalance b a base - at_addr pool a (dLockedAtos d)
            + at_addr (Delegator d) a (dLockedAtos d)) ∧
  (∀ a d, d ≠ base → GetBalance b3 a d = GetBalance b a d)).
{ destruct (0 <? dLockedAtos d) eqn:E; boolP.
  - apply pool_refund; try done; [|apply U2|by apply (covered_dropped b)]. split; [done|].
    transitivity (lockedTotal s); [|apply I]. apply (stored_le_sum dLockedAtos s d); [apply I|by intros ? []|done].
  - exists b, s2. split_and!; try done; [apply U2|intros a _; lia|]. assert (dLockedAtos d = 0) as -> by (destruct Dw; lia).
    intros a. unfold at_addr. repeat case_decide; lia. }
destruct Hpay as (b3 & s3 & -> & A3 & Hin3 & R3 & K3 & Hng & Hbal & Hoth).
destruct (Settle k ctx b3 s3 (Delegatee d)) as [dee s4] eqn:ES2.
assert (HP3 : GetParams s3 = p) by (by rewrite (GetParams_rest _ _ R3)).
destruct (Settle_all_ok p Hp o l k ctx b3 s3 (Delegatee d) dee s4 K3 HP3 Hnow A3 ES2) as (A4 & _ & U4 & Hdok & Hdin).
set (dee' := with_DelegatedInUsable _ dee) in *.
assert (Had : Address dee' = Delegatee d).
{ destruct (Settle_counters k ctx b3 s3 (Delegatee d)) as [C _]. rewrite ES2 in C. simpl in *. rewrite C.
  by apply GetEnergyAccount_Address. }
pose proof (updates_Set _ _ _ _ dee' U4 Had) as U5. set (s5 := SetEnergyAccount s4 dee') in *.
assert (R5 : rest s5 = rest s).
{ eapply rest_trans; [|apply U5]. eapply rest_trans; [apply U2|done]. }
destruct (rest_parts _ _ R5) as (_ & Q2 & Q3 & _ & _ & Q6 & Q7).
assert (Hin' : ∀ a, DelegatedInUsable (GetEnergyAccount s3 a) = DelegatedInUsable (GetEnergyAccount s a)).
{ intros a. rewrite Hin3, (up_get _ _ _ _ U2). case_decide; [subst; by rewrite Hin2, Hin1|done]. }
pose proof (wf_in _ (pre_wf _ _ _ (ok_pre _ _ _ _ Hdok))) as Hdu.
exists b3, (removeDelegation s5 d).
split_and!; [done| |exact (f_equal (delete (Id d)) Q2)|exact Q7|exact (f_equal (default 1) Q6)
  | |done|done].
2:{ change (GetEnergyAccount (removeDelegation s5 d) (Delegator d)) with (GetEnergyAccount s5 (Delegator d)).
  rewrite (updates_get_ne _ _ _ _ _ U5) by done.
  etransitivity; [apply Hng|]; rewrite (updates_get _ _ _ _ U2); [|rewrite Htx; cbn [fst]; lia].
  split; [done|]. pose proof (Settle_settled k ctx b s (Delegator d) Hnow) as HS. rewrite ES in HS.
  unfold releaseCounters. by destruct (0 <? Used d). }
set (rem := if Used d <? Amount d then Amount d - Used d else 0) in *.
assert (Hrem : rem = Amount d - Used d) by (unfold rem; destruct (_ <? _) eqn:?; boolP; lia).
apply (inv_dropped b s b3 s5 d); try done.
- apply U5.
- apply (updates_ok p o l _ _ _ _ U5); [intros; apply A3|]. apply acct_ok_In; [|done].
  unfold is_u64 in *. destruct (_ <=? _) eqn:?; boolP; lia.
- intros a. rewrite (up_get _ _ _ _ U5). unfold at_addr. case_decide.
  + subst a. simpl. rewrite <- Hin', <- Hdin. destruct (_ <=? _) eqn:?; boolP; lia.
  + rewrite Hin'. lia.
- rewrite Hbal, at_addr_eq, at_addr_ne by done. lia.
Qed.

(** *** Sweep *)
Lemma sweep_all k ctx ids : ∀ b s,
  keeper_of base bech32 k → 0 < BlockTime ctx → Inv b s →
  ∃ b' s', foldl (sweepOne k ctx) (b, s) ids = (b', s') ∧ Inv b' s' ∧ sPending s' = sPending s ∧
    nextId s' = nextId s ∧
    ∀ id, sDelegations s' !! id = if decide (id ∈ ids) then None else sDelegations s !! id.
Proof.
induction ids as [|id ids IH]; intros b s Hk Hnow I; cbn [foldl].
- exists b, s. split_and!; try done.
- destruct (sDelegations s !! id) as [d|] eqn:Hd.
  + pose proof (iw_id s (inv_index _ _ _ _ _ I) _ _ Hd) as Hid. subst id.
    destruct (release_succeeds k ctx b s d Hk Hnow I Hd) as (b1 & s1 & Hrel & I1 & D1 & P1 & N1 & _ & _ & _).
    assert (Hone : sweepOne k ctx (b, s) (Id d) = (b1, s1)).
    { unfold sweepOne, GetDelegation. cbn [snd]. by rewrite Hd, Hrel. }
    rewrite Hone. destruct (IH b1 s1 Hk Hnow I1) as (b' & s' & H & I' & P' & N' & D'). exists b', s'.
    split_and!; [done|done|congruence|congruence|]. intros id. rewrite D', D1.
    destruct (decide (id = Id d)) as [->|Hne].
    * rewrite lookup_delete_eq. rewrite (decide_True (P := Id d ∈ Id d :: ids)) by set_solver. by case_decide.
    * rewrite lookup_delete_ne by done. repeat case_decide; set_solver.
  + assert (Hone : sweepOne k ctx (b, s) id = (b, s)).
    { unfold sweepOne, GetDelegation. cbn [snd]. by rewrite Hd. }
    rewrite Hone. destruct (IH b s Hk Hnow I) as (b' & s' & H & I' & P' & N' & D'). exists b', s'.
    split_and!; try done. intros id'. rewrite D'.
    destruct (decide (id' = id)) as [->|]; repeat case_decide; set_solver.
Qed.

Lemma expiredPrefix_spec now rows :
  Forall (fun r => 0 <= r.1 < 2 ^ 63) rows → StronglySorted row_le rows →
  ∀ id, id ∈ expiredPrefix now rows ↔ ∃ e, (e, id) ∈ rows ∧ e <= now.
Proof.
intros F. induction F as [|[e id0] rows He F IH]; intros HS id; simpl.
- split; [by intros ?%not_elem_of_nil|by intros (? & ?%not_elem_of_nil & _)].
- inversion_clear HS as [|? ? HS' Hle]. simpl in He. rewrite i64_small by (unfold is_i64; lia).
  destruct (now <? e) eqn:E; boolP.
  + split; [by intros ?%not_elem_of_nil|]. intros (e' & [[= -> ->]|Hin]%elem_of_cons & Hle'); [lia|].
    rewrite Forall_forall in Hle. apply Hle in Hin. unfold row_le in Hin. simpl in Hin. lia.
  + rewrite elem_of_cons, (IH HS'). setoid_rewrite elem_of_cons. naive_solver.
Qed.

(** Expiry times that did not wrap around int64. *)
Definition expiries_ok s : Prop := ∀ id d, sDelegations s !! id = Some d → 0 <= ExpiresAt d < 2 ^ 63.

#[local] Instance row_le_Total : Total row_le.
Proof. intros r1 r2. unfold row_le. lia. Qed.
#[local] Instance row_le_Trans : Transitive row_le.
Proof. intros r1 r2 r3. unfold row_le. lia. Qed.

Lemma expiredIds_spec now s id :
  index_wf s → expiries_ok s →
  id ∈ expiredIds now s ↔ ∃ d, sDelegations s !! id = Some d ∧ ExpiresAt d <= now.
Proof.
intros W Hex. unfold expiredIds. rewrite expiredPrefix_spec.
- setoid_rewrite merge_sort_Permutation. setoid_rewrite elem_of_elements. setoid_rewrite (iw_expiry s W). split.
  + intros (e & (d & Hd & He) & Hle). exists d. split; [done|]. pose proof (Hex _ _ Hd).
    rewrite u64_small in He by (unfold is_u64, maxU64; lia). lia.
  + intros (d & Hd & Hle). exists (ExpiresAt d). split; [|done]. exists d. split; [done|].
    pose proof (Hex _ _ Hd). apply u64_small. unfold is_u64, maxU64. lia.
- rewrite Forall_forall. intros [e id'] Hin. rewrite merge_sort_Permutation, elem_of_elements in Hin.
  apply (iw_expiry s W) in Hin as (d & Hd & <-). pose proof (Hex _ _ Hd). simpl.
  rewrite u64_small by (unfold is_u64, maxU64; lia). done.
- apply StronglySorted_merge_sort; apply _.
Qed.

(** *** Refunds of failed transactions *)
Lemma refund_all l : ∀ b s,
  Inv b s →
  Forall (fun e : string * addr * Z * ConsumeResult => e.1.1.1 ≠ ""%string ∧ reservation_wf s e.1.1.2 e.2) l →
  let s' := foldl refundOne s l in
  Inv b s' ∧ usage_only s s' ∧
  ∀ h, sPending s' !! h = if decide (h ∈ map (fun e => e.1.1.1) l) then None else sPending s !! h.
Proof.
induction l as [|[[[h a] g] res] l IH]; intros b s I F; simpl; [done|].
inversion_clear F as [|? ? [Hh Hr] F']. simpl in *.
set (rf := saturatingAdd (OwnDeducted res) (DelegatedDeducted res)).
assert (Hs1 : ∃ s1, (if 0 <? rf then RefundEnergy s a rf res else s) = s1 ∧ Inv b s1 ∧ usage_only s s1 ∧ sPending s1 = sPending s).
{ destruct (0 <? rf) eqn:E; boolP; [|by exists s]. eexists. split; [done|]. apply inv_refund; try done. lia. }
destruct Hs1 as (s1 & -> & I1 & U1 & P1).
pose proof (inv_pending_delete base bech32 p b s1 h I1) as I2.
assert (U2 : usage_only s (DeletePendingReservation s1 h)).
{ unfold DeletePendingReservation. case_decide; [done|]. destruct U1. by split. }
destruct (IH b _ I2) as (I' & U' & P').
{ eapply Forall_impl; [exact F'|]. intros e [? ?]. split; [done|]. by eapply reservation_usage. }
assert (Hdel : sPending (DeletePendingReservation s1 h) = delete h (sPending s)).
{ unfold DeletePendingReservation. rewrite decide_False by done. simpl. by rewrite P1. }
split_and!; [done|by etrans|]. intros h'. rewrite P', Hdel. destruct (decide (h' = h)) as [->|].
- rewrite lookup_delete_eq. rewrite (decide_True (P := h ∈ h :: _)) by set_solver. by case_decide.
- rewrite lookup_delete_ne by done. repeat case_decide; set_solver.
Qed.

Lemma pending_listed k b s h :
  keeper_of base bech32 k → Inv b s →
  h ∈ map (fun e => e.1.1.1) (IteratePendingReservations k s) ↔ is_Some (sPending s !! h).
Proof.
intros Hk I. rewrite list_elem_of_In, in_map_iff. setoid_rewrite <- list_elem_of_In.
unfold IteratePendingReservations. setoid_rewrite list_elem_of_omap. split.
- intros (e & <- & h' & _ & He). destruct (sPending s !! h') as [r|] eqn:E; [|done]. simpl in He.
  destruct (AccAddressFromBech32 k (prSigner r)); [|done]. injection He as <-. simpl. by rewrite E.
- intros [r Hr]. destruct (inv_pending _ _ _ _ _ I h r Hr) as (_ & _ & Hb).
  exists (h, prSigner r, prGasLimit r, consumeResultFromJSON (prResult r)). split; [done|]. exists h. split.
  + rewrite merge_sort_Permutation, elem_of_elements, elem_of_dom. eauto.
  + rewrite Hr. simpl. by rewrite (proj2 Hk), Hb.
Qed.

Lemma inv_refund_failed k b s :
  keeper_of base bech32 k → Inv b s →
  let s' := refundFailedTxReservations k s in
  Inv b s' ∧ usage_only s s' ∧ sPending s' = ∅.
Proof.
intros Hk I. unfold refundFailedTxReservations.
destruct (refund_all (IteratePendingReservations k s) b s I) as (I' & U' & P').
- rewrite Forall_forall. intros e He. unfold IteratePendingReservations in He.
  apply list_elem_of_omap in He as (h & _ & He). destruct (sPending s !! h) as [r|] eqn:E; [|done]. simpl in He.
  destruct (inv_pending _ _ _ _ _ I h r E) as (Hh & Hr & Hb). rewrite (proj2 Hk), Hb in He.
  injection He as <-. done.
- split_and!; [done|done|]. apply map_eq. intros h. rewrite P', lookup_empty. case_decide as E; [done|].
  rewrite (pending_listed k b s h Hk I) in E. by destruct (sPending s !! h); [destruct E|].
Qed.
End lifecycle.
