(* ===== verification/EnergyAnte.v ===== *)
(** * x/energy/ante: charging a transaction and refunding what it did not use

    Models src/x/energy/ante/decorator.go and post.go.  The decorators call the
    next handler of the chain, which is a parameter [next]; the values they put
    into the Go context for each other are the fields of [TxCtx].  Fee grants,
    the fee checker, account existence and sha256 are dependencies. *)

From stdpp Require Import gmap strings list.
From Stdlib Require Import ZArith Lia.
From S2P Require Import Prelude SdkMath Bank EnergyTypes EnergyKeeper EnergyIndex EnergyConsume.

Open Scope Z_scope.

Definition FeeCollectorName : string := "fee_collector".

(** What the decorators read from a transaction. *)
Record Tx := mkTx {
  IsFeeTx : bool;          (** the Go value implements [sdk.FeeTx] *)
  GetGas : Z;              (** uint64 *)
  GetMsgs : list string;   (** the type URLs of its messages *)
  GetFee : coins;
  FeePayer : addr;
  FeeGranter : addr;       (** "" when there is none *)
}.

(** The part of [sdk.Context] the decorators use. *)
Record TxCtx := mkTxCtx {
  tcCtx : Ctx;
  TxBytes : string;
  GasConsumed : Z;
  tcReserved : option ConsumeResult; (** [CtxKeyEnergyReserved] *)
  tcSigner : option addr;            (** [CtxKeyEnergySigner] *)
  tcPriority : Z;
}.

Definition WithReserved (r : ConsumeResult) (a : addr) (c : TxCtx) : TxCtx :=
  mkTxCtx (tcCtx c) (TxBytes c) (GasConsumed c) (Some r) (Some a) (tcPriority c).
Definition WithPriority (x : Z) (c : TxCtx) : TxCtx :=
  mkTxCtx (tcCtx c) (TxBytes c) (GasConsumed c) (tcReserved c) (tcSigner c) x.

Record EnergyDeductDecorator := mkEnergyDeductDecorator {
  energyKeeper : Keeper;
  GetAccount : addr → bool;
  UseGrantedFees : option (addr → addr → coins → list string → result unit);
  txFeeChecker : Ctx → Tx → result unit;
}.

Definition isContractDeployMsg (msgs : list string) : bool :=
  existsb (fun u => bool_decide (u ∈ ["/cosmwasm.wasm.v1.MsgInstantiateContract";
                                      "/cosmwasm.wasm.v1.MsgInstantiateContract2";
                                      "/cosmwasm.wasm.v1.MsgStoreCode"]%string)) msgs.

(** ** The ATOS charged for gas that energy does not cover *)
Section fee.
Context {D : LegacyDecOps}.

Definition computeShortfallFee (params : Params) (base : denom) (shortfallGas : Z) (fee : coins)
    (gasLimit : Z) : coins :=
  if (shortfallGas =? 0) || (gasLimit =? 0) then []
  else
    let offered := AmountOf fee base in
    let gasLimitDec := NewDec (i64 gasLimit) in
    let offeredPerGas := if 0 <? offered then Dec_Quo (NewDec offered) gasLimitDec else ZeroDec in
    let offeredPerGas :=
      if opt_positive (InsufficientGasPrice params) &&
         (offeredPerGas <? default 0 (InsufficientGasPrice params))
      then default 0 (InsufficientGasPrice params) else offeredPerGas in
    if negb (0 <? offeredPerGas) then []
    else
      let amt := TruncateInt (Ceil (MulInt offeredPerGas (i64 shortfallGas))) in
      if negb (0 <? amt) then [] else NewCoins base amt.

Definition maxInt64Priority : Z := 2 ^ 63 - 1.

(** The loop of [getTxPriority]. *)
Definition getTxPriority (fee : coins) (gas : Z) (baseDenom : denom) : Z :=
  foldl (fun priority '(d, amount) =>
    if decide (d = baseDenom) then
      let gasPrice := Z.quot amount gas in
      let p := if (- 2 ^ 63 <=? gasPrice) && (gasPrice <? 2 ^ 63) then gasPrice else maxInt64Priority in
      if (priority =? 0) || (p <? priority) then p else priority
    else priority) 0 fee.
End fee.

Section ante.
Context {B : Type} {bank : BankOps B} {D : LegacyDecOps}.
(** [sha256.Sum256], as a string of 32 bytes. *)
Context (sha256 : string → string).

Definition World : Type := B * EnergyStore.

Definition txHashFromCtx (c : TxCtx) : string :=
  if decide (TxBytes c = ""%string) then ""%string else sha256 (TxBytes c).

Definition AnteHandle (d : EnergyDeductDecorator)
    (next : TxCtx → World → result TxCtx * World)
    (c : TxCtx) (tx : Tx) (simulate : bool) (w : World) : result TxCtx * World :=
  let k := energyKeeper d in
  let ctx := tcCtx c in
  if negb (IsFeeTx tx) then (Err (Plain "tx decode"), w)
  else if negb simulate && (0 <? BlockHeight ctx) && (GetGas tx =? 0)
  then (Err (Plain "invalid gas limit"), w)
  else
    let gasLimit := GetGas tx in
    let feePayer := FeePayer tx in
    let feeGranter := FeeGranter tx in
    let deductFrom := if decide (feeGranter = ""%string) then feePayer else feeGranter in
    if decide (deductFrom = ""%string) then (Err (Plain "invalid address"), w)
    else if negb (GetAccount d deductFrom) then (Err (Plain "unknown address"), w)
    else
      let probeGas := if simulate && (gasLimit =? 0) then 1 else gasLimit in
      match Consume k ctx w.1 w.2 deductFrom probeGas (isContractDeployMsg (GetMsgs tx)) (GetMsgs tx) with
      | (Err e, s) => (Err e, (w.1, s))
      | (Ok consumed, s) =>
          let c := WithReserved consumed deductFrom c in
          let s := if negb (Free consumed) && negb simulate
                   then SetPendingReservation s (txHashFromCtx c) deductFrom gasLimit consumed else s in
          let w := (w.1, s) in
          if Free consumed then next c w
          else
            match (if simulate then Ok tt else txFeeChecker d ctx tx) with
            | Err e => (Err e, w)
            | Ok _ =>
                if ShortfallGas consumed =? 0 then next c w
                else
                  let chargeAtos := computeShortfallFee (GetParams s) (BaseDenom k)
                                      (ShortfallGas consumed) (GetFee tx) gasLimit in
                  if decide (chargeAtos = []) then next c w
                  else
                    match (if negb (bool_decide (feeGranter = ""%string)) && negb (bool_decide (feeGranter = feePayer)) then
                             match UseGrantedFees d with
                             | None => Err (Plain "fee grants are not enabled")
                             | Some use => use feeGranter feePayer chargeAtos (GetMsgs tx)
                             end
                           else Ok tt) with
                    | Err e => (Err e, w)
                    | Ok _ =>
                        match SendCoinsFromAccountToModule (SendRestriction k ctx) w deductFrom
                                FeeCollectorName chargeAtos with
                        | (Err e, w) => (Err (Plain "insufficient fee"), w)
                        | (Ok _, w) =>
                            let priority := getTxPriority chargeAtos (i64 (ShortfallGas consumed)) (BaseDenom k) in
                            next (WithPriority priority c) w
                        end
                    end
            end
      end.

(** The energy to give back after the transaction ran. *)
Definition postRefund (c : TxCtx) (tx : Tx) : option (addr * Z * ConsumeResult) :=
  match tcReserved c, tcSigner c with
  | Some reserved, Some signer =>
      if Free reserved then None
      else if negb (IsFeeTx tx) then None
      else
        let gasUsed := GasConsumed c in
        if GetGas tx <=? gasUsed then None
        else
          let total := EnergyDeducted reserved in
          if total =? 0 then None
          else
            let energyUsed := if total <=? gasUsed then total else gasUsed in
            let refund := total - energyUsed in
            if refund =? 0 then None else Some (signer, refund, reserved)
  | _, _ => None
  end.

(** The marker is deleted by a deferred call, after [next] returned. *)
Definition PostHandle (next : TxCtx → World → result TxCtx * World)
    (c : TxCtx) (tx : Tx) (w : World) : result TxCtx * World :=
  let w := match postRefund c tx with
           | Some (signer, refund, reserved) => (w.1, RefundEnergy w.2 signer refund reserved)
           | None => w
           end in
  let '(r, w) := next c w in
  (r, (w.1, DeletePendingReservation w.2 (txHashFromCtx c))).
End ante.

(** ** Theorems about the fee *)
Section fee_props.
Context {D : LegacyDecOps} {DL : LegacyDecLaws D}.

Lemma NewCoins_amount base x : AmountOf (NewCoins base x) base = x.
Proof. rewrite AmountOf_NewCoins. by rewrite decide_True. Qed.

(** a transaction cannot evade the fee for gas its energy does not cover: the
    charge is at least the floor price times that gas, whatever fee was declared,
    and at most one liao above what was declared when the declared fee is at or
    above the floor. *)
Theorem shortfall_fee_bounds params base shortfall fee gasLimit g :
  coins_valid fee → InsufficientGasPrice params = Some g → 0 < g →
  0 < shortfall <= gasLimit → gasLimit < precision →
  let charge := AmountOf (computeShortfallFee params base shortfall fee gasLimit) base in
  g * shortfall <= charge * precision ∧
  (g * gasLimit <= AmountOf fee base * precision - gasLimit → charge <= AmountOf fee base + 1).
Proof.
intros Hv Hg Hpos Hs Hlim. unfold computeShortfallFee. pose proof precision_pos as HP.
rewrite (proj2 (Z.eqb_neq shortfall 0)), (proj2 (Z.eqb_neq gasLimit 0)) by lia. cbn [orb].
rewrite Hg. change (default 0 (Some g)) with g. cbn [opt_positive]. rewrite (proj2 (Z.ltb_lt 0 g) Hpos). cbn [andb].
assert (Hi : precision < 2 ^ 63) by (unfold precision; lia).
rewrite (i64_small gasLimit), (i64_small shortfall) by (unfold is_i64; lia).
pose proof (AmountOf_nonneg fee base Hv) as Hoff. set (off := AmountOf fee base) in *.
set (q := if 0 <? off then Dec_Quo (NewDec off) (NewDec gasLimit) else ZeroDec).
assert (Hq : 0 <= q ∧ q * gasLimit < off * precision + gasLimit ∧ off * precision - gasLimit < q * gasLimit).
{ unfold q. destruct (0 <? off) eqn:E; boolP.
  - assert (Hn : 0 <= NewDec off) by (unfold NewDec; nia).
    assert (Hd : 0 < NewDec gasLimit) by (unfold NewDec; nia).
    pose proof (Dec_Quo_nonneg _ _ Hn Hd). pose proof (Dec_Quo_ulp _ _ Hn Hd) as U.
    unfold NewDec in *. set (x := Dec_Quo _ _) in *.
    assert (Z.abs (x * gasLimit - off * precision) < gasLimit) by nia. lia.
  - unfold ZeroDec. nia. }
set (rate := if q <? g then g else q).
assert (Hr : rate = Z.max q g) by (unfold rate; destruct (q <? g) eqn:?; boolP; lia).
rewrite (proj2 (Z.ltb_lt 0 rate)) by lia. cbn [negb].
pose proof (ceil_spec (MulInt rate shortfall)) as Hc. cbv zeta in Hc.
set (amt := TruncateInt (Ceil (MulInt rate shortfall))) in *. unfold MulInt in Hc.
assert (Hamt : 0 < amt) by nia. rewrite (proj2 (Z.ltb_lt 0 amt) Hamt). cbn [negb].
rewrite NewCoins_amount. split; [nia|]. intros Hfloor.
assert (q >= g) by nia. assert (rate = q) by lia. nia.
Qed.
End fee_props.

Lemma shortfall_fee_bounds_witness :
  let charge := AmountOf (computeShortfallFee (D := bankers_dec) DefaultParams "liao" 3 [("liao"%string, 2)] 3) "liao" in
  charge = 3 ∧ NewDecWithPrec 21 4 * 3 <= charge * precision ∧ charge <= 2 + 1.
Proof.
split; [by vm_compute|].
pose proof (shortfall_fee_bounds (D := bankers_dec) (DL := bankers_dec_laws) DefaultParams "liao" 3
  [("liao"%string, 2)] 3 (NewDecWithPrec 21 4)) as H.
destruct H as [H1 H2].
- repeat constructor; simpl; lia.
- reflexivity.
- reflexivity.
- lia.
- reflexivity.
- split; [exact H1|]. apply H2. by vm_compute.
Defined.

(** ** Net charge of a transaction *)
Section net.
Implicit Types (s : EnergyStore).

(** Undoing part of a charge on live delegations undoes exactly that part. *)
Lemma refundLoop_exact cs : ∀ s T u,
  index_wf s → NoDup (map DelegationID cs) → 0 <= u <= T →
  Forall (fun c => 0 < cAmount c ∧ ∃ d, sDelegations s !! DelegationID c = Some d ∧ cAmount c <= Used d) cs →
  (refundLoop s T u cs).1 = Z.min T (u + sumZ (map cAmount cs)).
Proof.
induction cs as [|c cs IH]; intros s T u W Hnd Hu F; simpl; [lia|].
fold (sumZ (map cAmount cs)).
apply NoDup_cons in Hnd as [Hn Hnd]. apply Forall_cons in F as [[Hc (d & Hd & Hused)] F'].
assert (Hsum : 0 <= sumZ (map cAmount cs)).
{ apply sumZ_nonneg, Forall_map. eapply Forall_impl; [exact F'|]. simpl. naive_solver lia. }
destruct (u <? T) eqn:E; boolP; simpl; [|lia]. unfold GetDelegation. rewrite Hd, minU64_min.
set (step := Z.min (T - u) (cAmount c)). rewrite (proj2 (Z.ltb_ge (Used d) step)) by lia.
rewrite (proj2 (Z.eqb_neq step 0)) by lia. rewrite (setDelegation_used s _ d _ W Hd).
destruct (iw_del s W _ _ Hd) as [Hw _ _]. rewrite IH; [lia| |done|lia|].
- apply index_wf_used; [done|done|lia].
- rewrite Forall_forall in F' |- *. intros c' Hc'. destruct (F' c' Hc') as [H1 (d' & H2 & H3)].
  split; [done|]. exists d'. split; [|done]. simpl. rewrite lookup_insert_ne; [done|].
  intros Heq. apply Hn. rewrite Heq. apply list_elem_of_In, in_map, list_elem_of_In. done.
Qed.
End net.
