(* ===== verification/EnergyMachine.v ===== *)
(** * The energy module as a state machine

    Transactions and blocks as steps over the bank and the energy store: ante
    handler, messages, post handler, staking hooks, transfers and [EndBlocker].
    The invariant of EnergyInvariant.v holds in every reachable state; locked
    ATOS can always be recovered; a block leaves no expired delegation and no
    unresolved reservation behind. *)

From stdpp Require Import gmap strings list sorting relations.
From Stdlib Require Import ZArith Lia.
From S2P Require Import Prelude SdkMath Bank EnergyTypes EnergyKeeper EnergyIndex EnergyConsume EnergySpending EnergyDelegate EnergyInvariant EnergyLifecycle EnergyAnte.

Open Scope Z_scope.

Section machine.
Context {B : Type} {bank : BankOps B} {laws : BankLaws bank} {D : LegacyDecOps}.
Context (sha256 : string → string).
Context (base : denom) (bech32 : string → option addr) (p : Params) (Hp : params_wf p).
Context (Hbase : base ≠ AtoxBaseDenom).
(** Parsing an address yields its canonical form. *)
Context (Hcanon : ∀ x a, bech32 x = Some a → bech32 a = Some a).
Implicit Types (k : Keeper) (ctx : Ctx) (b : B) (s : EnergyStore) (w : B * EnergyStore).

(** The end of a handler chain. *)
Definition done_ (c : TxCtx) w : result TxCtx * (B * EnergyStore) := (Ok c, w).

(** What the messages of a transaction may do.  Each step may see a different
    block time and different staking reads. *)
Inductive msg_step : B * EnergyStore → B * EnergyStore → Prop :=
| msg_transfer k ctx b s from to amt w' :
    keeper_of base bech32 k → 0 < BlockTime ctx → coins_valid amt → from ≠ pool →
    SendCoins (SendRestriction k ctx) (b, s) from to amt = (Ok tt, w') →
    msg_step (b, s) w'
| msg_staking k ctx b s a :
    keeper_of base bech32 k → 0 < BlockTime ctx →
    msg_step (b, s) (b, Hooks_refresh k ctx b s a)
| msg_delegate k ctx w msg r w' :
    keeper_of base bech32 k → 0 < BlockTime ctx →
    (∀ a, bech32 (mDelegator msg) = Some a → user bech32 a) →
    0 <= mAmount msg → mAmount msg + TxEnergyPerThreshold p <= 2 ^ 63 →
    BlockTime ctx + effectiveDuration p (mDurationSeconds msg) < 2 ^ 63 →
    nextId w.2 < maxU64 →
    DelegateEnergy k ctx w msg = (Ok r, w') →
    msg_step w w'
| msg_undelegate k ctx w msg w' :
    keeper_of base bech32 k → 0 < BlockTime ctx →
    UndelegateEnergy k ctx w msg = (Ok tt, w') →
    msg_step w w'
| msg_environment b b' s :
    GetBalance b pool base <= GetBalance b' pool base →
    msg_step (b, s) (b', s).

(** A block: transactions that succeed (ante, messages, post), transactions whose
    messages fail (only the ante state is kept), work outside transactions, and
    the end of the block. *)
Inductive step : B * EnergyStore → B * EnergyStore → Prop :=
| step_msg w w' : msg_step w w' → step w w'
| step_tx d c tx w c1 w1 w2 gasUsed c3 w3 :
    keeper_of base bech32 (energyKeeper d) → 0 < BlockTime (tcCtx c) → 0 <= GetGas tx <= maxU64 →
    0 <= gasUsed →
    (∀ a, a = FeePayer tx ∨ a = FeeGranter tx → a ≠ ""%string → bech32 a = Some a ∧ a ≠ pool) →
    AnteHandle sha256 d done_ c tx false w = (Ok c1, w1) →
    rtc msg_step w1 w2 →
    PostHandle sha256 done_ (mkTxCtx (tcCtx c1) (TxBytes c1) gasUsed (tcReserved c1) (tcSigner c1) (tcPriority c1))
      tx w2 = (Ok c3, w3) →
    step w w3
| step_failed_tx d c tx w c1 w1 :
    keeper_of base bech32 (energyKeeper d) → 0 < BlockTime (tcCtx c) → 0 <= GetGas tx <= maxU64 →
    (∀ a, a = FeePayer tx ∨ a = FeeGranter tx → a ≠ ""%string → bech32 a = Some a ∧ a ≠ pool) →
    AnteHandle sha256 d done_ c tx false w = (Ok c1, w1) →
    step w w1
| step_end k ctx w :
    keeper_of base bech32 k → 0 < BlockTime ctx → step w (EndBlocker k ctx w).

(** ** Messages *)
Definition good w : Prop := energy_inv base bech32 p w.1 w.2 ∧ expiries_ok w.2.

Lemma expiries_usage s s' : usage_only s s' → expiries_ok s → expiries_ok s'.
Proof.
intros U H id d Hd. destruct (unused_lookup _ _ _ _ (uo_unused _ _ U) Hd) as (d0 & H0 & He).
apply (f_equal ExpiresAt) in He. simpl in He. rewrite He. by apply (H id).
Qed.

Lemma good_rest b s b' s' : energy_inv base bech32 p b' s' → rest s' = rest s → expiries_ok s → good (b', s').
Proof. intros I R H. split; [done|]. eapply expiries_usage; [by apply rest_usage_only|done]. Qed.

Lemma reservation_rest s s' a res : rest s' = rest s → reservation_wf s a res → reservation_wf s' a res.
Proof. intros R. apply reservation_usage. by apply rest_usage_only. Qed.

Lemma send_rest k ctx b s from to amt b' s' :
  accounts_keyed s →
  SendCoins (SendRestriction k ctx) (b, s) from to amt = (Ok tt, (b', s')) → rest s' = rest s.
Proof.
intros K H. apply send_spec in H as (b1 & to' & b2 & s2 & b3 & _ & Hr & _ & [= -> ->]).
unfold SendRestriction in Hr. destruct (negb _); [by inv_ok|]. destruct (decide _); [by inv_ok|].
injection Hr as _ _ <-.
pose proof (ApplyBalanceChange_updates k ctx b1 s from) as U1.
match goal with |- rest (ApplyBalanceChange _ _ _ (ApplyBalanceChange _ _ _ _ _ ?e1) _ ?e2) = _ =>
  specialize (U1 e1 K);
  pose proof (ApplyBalanceChange_updates k ctx b1 _ to e2 (up_keyed _ _ _ _ U1)) as U2 end.
eapply rest_trans; [apply U1|apply U2].
Qed.

Lemma hooks_rest k ctx b s a : accounts_keyed s → rest (Hooks_refresh k ctx b s a) = rest s.
Proof.
intros K. unfold Hooks_refresh. repeat destr_match; try done.
apply (ApplyStakedChange_updates k ctx b s a (stakedAtos k a) K (stakedAtos_nonneg k a)).
Qed.

Lemma reservation_dropped s s' id a res :
  sDelegations s' = delete id (sDelegations s) → nextId s' = nextId s →
  reservation_wf s a res → reservation_wf s' a res.
Proof.
intros Hd Hn [R1 R2 R3 R4]. split; [done|done| |by rewrite Hn].
eapply Forall_impl; [exact R3|]. intros c [Hc H]. split; [done|].
intros d. rewrite Hd. intros [_ Hl]%lookup_delete_Some. by apply H.
Qed.

Lemma msg_step_good w w' :
  msg_step w w' → good w →
  good w' ∧ ∀ a res, reservation_wf w.2 a res → reservation_wf w'.2 a res.
Proof.
intros Hst [I E].
destruct Hst as [k ctx b s from to amt [b' s'] Hk Hnow Hv Hf H|k ctx b s a Hk Hnow|
  k ctx [b s] msg [id locked] [b' s'] Hk Hnow Hu Ha Hb He Hn H|k ctx [b s] msg [b' s'] Hk Hnow H|b b' s Hpl]; simpl in *.
- pose proof (send_rest _ _ _ _ _ _ _ _ _ (inv_keyed _ _ _ _ _ I) H) as R. split.
  + apply (good_rest b s); try done. by apply (inv_send base bech32 p Hp k ctx b s from to amt).
  + intros x res. by apply reservation_rest.
- pose proof (hooks_rest k ctx b s a (inv_keyed _ _ _ _ _ I)) as R. split.
  + apply (good_rest b s); try done. by apply inv_hooks_refresh.
  + intros x res. by apply reservation_rest.
- unfold DelegateEnergy in H. rewrite (proj2 Hk) in H.
  destruct (bech32 (mDelegator msg)) as [dor|] eqn:E1; [|done]. destruct (bech32 (mDelegatee msg)) as [dee|] eqn:E2; [|done].
  destruct (_ && _) in H; [done|]. cbn [snd] in H. rewrite (inv_params _ _ _ _ _ I) in H.
  pose proof (delegate_stage base bech32 p Hp Hbase k ctx b s dor dee _ _ id locked b' s' Hk Hnow I (Hu _ eq_refl) Ha Hb H)
    as (_ & _ & _ & _ & _ & _ & _ & _ & s5 & Hs' & R5 & _).
  destruct (inv_delegate base bech32 p Hp Hbase k ctx b s dor dee _ _ id locked b' s' Hk Hnow I (Hu _ eq_refl)
    (Hcanon _ _ E2) Ha Hb Hn H) as [I' Hr].
  split; [|done]. split; [done|]. intros id' d'. rewrite Hs'. simpl.
  destruct (rest_parts _ _ R5) as (_ & -> & _).
  intros [[_ <-]|[_ Hd']]%lookup_insert_Some; [|by apply (E id')]. simpl.
  assert (0 < effectiveDuration p (mDurationSeconds msg)).
  { apply Delegate_inversion in H as (_ & _ & Hd & _). done. }
  rewrite i64_small by (unfold is_i64; lia). lia.
- unfold UndelegateEnergy in H. destruct (AccAddressFromBech32 k (uDelegator msg)) as [a|]; [|done].
  unfold Undelegate, GetDelegation in H. cbn [snd] in H. destruct (sDelegations s !! uDelegationId msg) as [d|] eqn:Ed; [|done].
  destruct (decide _); [|done]. pose proof (iw_id s (inv_index _ _ _ _ _ I) _ _ Ed) as Hid. rewrite <- Hid in Ed.
  destruct (release_succeeds base bech32 p Hp Hbase k ctx b s d Hk Hnow I Ed) as (b1 & s1 & Hrel & I1 & D1 & P1 & N1 & _).
  rewrite Hrel in H. injection H as <- <-. split.
  + split; [done|]. intros id' d'. simpl. rewrite D1. intros [_ Hd']%lookup_delete_Some. by apply (E id').
  + intros x res. by eapply reservation_dropped.
- split; [|done]. split; [|done]. by eapply inv_bank.
Qed.

Lemma msg_steps_good w w' :
  rtc msg_step w w' → good w →
  good w' ∧ ∀ a res, reservation_wf w.2 a res → reservation_wf w'.2 a res.
Proof.
induction 1 as [|w1 w2 w3 Hst _ IH]; intros G; [done|].
destruct (msg_step_good _ _ Hst G) as [G2 R2]. destruct (IH G2) as [G3 R3]. split; [done|]. eauto.
Qed.

(** ** Transactions *)
Lemma computeShortfallFee_valid q bs sf fee gl : coins_valid (computeShortfallFee q bs sf fee gl).
Proof.
unfold computeShortfallFee. destruct (_ || _); [constructor|]. cbv zeta.
destruct (negb _) at 1; [constructor|]. destruct (negb _) eqn:E; [constructor|]. boolP. apply NewCoins_valid. lia.
Qed.

Lemma set_pending_good b s h a gas res :
  good (b, s) → reservation_wf s a res → bech32 a = Some a →
  good (b, SetPendingReservation s h a gas res) ∧ usage_only s (SetPendingReservation s h a gas res).
Proof.
intros [I E] R Ha. simpl in *.
assert (U : usage_only s (SetPendingReservation s h a gas res)).
{ unfold SetPendingReservation. by case_decide. }
split; [|done]. split; [by apply inv_pending_insert|by eapply expiries_usage].
Qed.

Lemma ante_good d c tx w c1 w1 :
  keeper_of base bech32 (energyKeeper d) → 0 < BlockTime (tcCtx c) → 0 <= GetGas tx <= maxU64 →
  (∀ a, a = FeePayer tx ∨ a = FeeGranter tx → a ≠ ""%string → bech32 a = Some a ∧ a ≠ pool) →
  good w → AnteHandle sha256 d done_ c tx false w = (Ok c1, w1) →
  good w1 ∧ ∃ a res, tcReserved c1 = Some res ∧ tcSigner c1 = Some a ∧ reservation_wf w1.2 a res.
Proof.
intros Hk Hnow Hgas Hpay G H. destruct w as [b s]. unfold AnteHandle in H.
destruct (negb (IsFeeTx tx)); [done|]. destruct (_ && _) in H; [done|].
set (from := if decide (FeeGranter tx = ""%string) then FeePayer tx else FeeGranter tx) in H.
destruct (decide (from = ""%string)) as [|Hne]; [done|]. destruct (negb (GetAccount d from)); [done|].
assert (Hfrom : bech32 from = Some from ∧ from ≠ pool).
{ apply Hpay; [|done]. unfold from. case_decide; naive_solver. }
destruct Hfrom as [Hfc Hfp]. cbn [fst snd andb] in H. pose proof G as [I E]. simpl in I, E.
destruct (inv_consume base bech32 p Hp (energyKeeper d) (tcCtx c) b s from (GetGas tx)
  (isContractDeployMsg (GetMsgs tx)) (GetMsgs tx) Hnow Hgas I) as (res & s1 & Hc & I1 & U1 & P1 & R1).
rewrite Hc in H. set (c' := WithReserved res from c) in H.
set (s2 := if negb (Free res) && negb false then _ else s1) in H.
assert (G2 : good (b, s2) ∧ usage_only s1 s2).
{ unfold s2. destruct (_ && _); [apply set_pending_good; try done|].
  - split; [done|by eapply expiries_usage].
  - split; [|done]. split; [done|by eapply expiries_usage]. }
destruct G2 as [G2 U2]. pose proof (reservation_usage _ _ from res U2 R1) as R2.
assert (Hnext : ∀ x w', (Ok x, w') = (Ok c1, w1) → tcReserved x = Some res → tcSigner x = Some from →
  good w' → reservation_wf w'.2 from res →
  good w1 ∧ ∃ a res, tcReserved c1 = Some res ∧ tcSigner c1 = Some a ∧ reservation_wf w1.2 a res).
{ intros x w' [= -> ->] ? ? ? ?. split; [done|]. by exists from, res. }
destruct (Free res); [by eapply Hnext|]. destruct (txFeeChecker d (tcCtx c) tx); [|done].
destruct (ShortfallGas res =? 0); [by eapply Hnext|].
set (charge := computeShortfallFee _ _ _ _ _) in H. destruct (decide (charge = [])); [by eapply Hnext|].
destruct (if negb (bool_decide (FeeGranter tx = ""%string)) && _ then _ else _) as [[]|]; [|done].
rewrite send_to_module in H.
destruct (SendCoins _ (b, s2) from _ charge) as [[[]|] [b3 s3]] eqn:ES; [|done].
destruct (msg_step_good (b, s2) (b3, s3)) as [G3 R3]; [|done|].
- by apply (msg_transfer (energyKeeper d) (tcCtx c) b s2 from (ModuleAddress FeeCollectorName) charge);
    try done; apply computeShortfallFee_valid.
- eapply Hnext; [exact H|done|done|done|by apply R3].
Qed.

Lemma post_good c tx w c3 w3 :
  good w → (∀ a res, tcReserved c = Some res → tcSigner c = Some a → reservation_wf w.2 a res) →
  0 <= GasConsumed c →
  PostHandle sha256 done_ c tx w = (Ok c3, w3) → good w3.
Proof.
intros G R Hg H. unfold PostHandle in H. destruct w as [b s]. cbn [fst snd] in H. destruct G as [I E]. simpl in *.
assert (Hdel : ∀ b s h, good (b, s) → good (b, DeletePendingReservation s h)).
{ intros b' s' h [I' E']. split; [by apply inv_pending_delete|]. simpl. unfold DeletePendingReservation. by case_decide. }
destruct (postRefund c tx) as [[[a amt] res]|] eqn:Ep; unfold done_ in H; injection H as _ <-; apply Hdel; [|done].
assert (Hamt : 0 <= amt ∧ reservation_wf s a res).
{ unfold postRefund in Ep. destruct (tcReserved c) as [r|] eqn:E1; [|done]. destruct (tcSigner c) as [sg|] eqn:E2; [|done].
  destruct (Free r); [done|]. destruct (negb _); [done|]. destruct (_ <=? GasConsumed c) eqn:E3; [done|].
  destruct (EnergyDeducted r =? 0); [done|]. destruct (_ - _ =? 0) eqn:E4; [done|]. injection Ep as <- <- <-.
  split; [|by apply R]. destruct (EnergyDeducted r <=? GasConsumed c) eqn:E5; boolP; lia. }
destruct (inv_refund base bech32 p Hp b s a amt res (proj1 Hamt) I (proj2 Hamt)) as (I' & U' & _).
split; [done|by eapply expiries_usage].
Qed.

(** ** End of block *)
Lemma sweep_good k ctx b s :
  keeper_of base bech32 k → 0 < BlockTime ctx → good (b, s) →
  ∃ b' s', SweepExpiredDelegations k ctx (b, s) = (b', s') ∧ good (b', s') ∧
    ∀ id d, sDelegations s' !! id = Some d ↔ sDelegations s !! id = Some d ∧ BlockTime ctx < ExpiresAt d.
Proof.
intros Hk Hnow [I E]. simpl in *. unfold SweepExpiredDelegations. cbn [snd].
destruct (sweep_all base bech32 p Hp Hbase k ctx (expiredIds (BlockTime ctx) s) b s Hk Hnow I)
  as (b' & s' & -> & I' & _ & _ & D').
assert (Hd : ∀ id d, sDelegations s' !! id = Some d ↔ sDelegations s !! id = Some d ∧ BlockTime ctx < ExpiresAt d).
{ intros id d. rewrite D'. case_decide as Hin; rewrite expiredIds_spec in Hin by (done || apply I).
  - split; [done|]. intros [Hd Hlt]. destruct Hin as (d' & Hd' & Hle). simplify_eq. lia.
  - split; [|by intros [? _]]. intros Hd. split; [done|]. apply Z.nle_gt. intros Hle. apply Hin. eauto. }
exists b', s'. split_and!; [done| |done]. split; [done|]. intros id d Hdd. apply Hd in Hdd as [Hdd _]. by apply (E id).
Qed.

Lemma end_good k ctx w :
  keeper_of base bech32 k → 0 < BlockTime ctx → good w → good (EndBlocker k ctx w).
Proof.
intros Hk Hnow G. unfold EndBlocker. destruct (negb _); [done|]. destruct w as [b s].
destruct (sweep_good k ctx b s Hk Hnow G) as (b' & s' & -> & [I' E'] & _). cbn [fst snd] in *.
destruct (inv_refund_failed base bech32 p Hp Hbase k b' s' Hk I') as (I2 & U2 & _).
split; [done|by eapply expiries_usage].
Qed.

Lemma step_good w w' : step w w' → good w → good w'.
Proof.
intros Hst G. destruct Hst as [w w' Hm|d c tx w c1 w1 w2 gu c3 w3 Hk Hnow Hgas Hgu Hpay Ha Hms Hpost|
  d c tx w c1 w1 Hk Hnow Hgas Hpay Ha|k ctx w Hk Hnow].
- by apply (msg_step_good w w').
- destruct (ante_good d c tx w c1 w1 Hk Hnow Hgas Hpay G Ha) as (G1 & a & res & E1 & E2 & R1).
  destruct (msg_steps_good w1 w2 Hms G1) as [G2 R2].
  eapply (post_good (mkTxCtx (tcCtx c1) (TxBytes c1) gu (tcReserved c1) (tcSigner c1) (tcPriority c1)) tx w2 c3 w3 G2);
    [|exact Hgu|exact Hpost]. simpl. intros a' res' Hr' Ha'.
  rewrite E1 in Hr'. rewrite E2 in Ha'. simplify_eq. by apply R2.
- by destruct (ante_good d c tx w c1 w1 Hk Hnow Hgas Hpay G Ha) as [G1 _].
- by apply end_good.
Qed.
End machine.
