(* ===== verification/EnergyGuarantees.v ===== *)
(** * What the energy module guarantees

    The invariant in every reachable state, the delegation lifecycle (lock,
    release, expiry), and the net energy charge of a transaction. *)

From stdpp Require Import gmap strings list sorting relations.
From Stdlib Require Import ZArith Lia.
From S2P Require Import Prelude SdkMath Bank EnergyTypes EnergyKeeper EnergyIndex EnergyConsume EnergySpending EnergyDelegate EnergyInvariant EnergyLifecycle EnergyAnte EnergyMachine.

Open Scope Z_scope.

Section guarantees.
Context {B : Type} {bank : BankOps B} {laws : BankLaws bank} {D : LegacyDecOps}.
Context (sha256 : string → string).
Context (base : denom) (bech32 : string → option addr) (p : Params) (Hp : params_wf p).
Context (Hbase : base ≠ AtoxBaseDenom).
Context (Hcanon : ∀ x a, bech32 x = Some a → bech32 a = Some a).
Implicit Types (k : Keeper) (ctx : Ctx) (b : B) (s : EnergyStore) (w : B * EnergyStore).
Local Abbreviation good := (good base bech32 p).

(** Genesis without accounts is in order, whatever the bank holds. *)
Lemma good_genesis k registered n b s :
  0 <= n <= maxU64 → InitGenesis k registered emptyStore (mkGenesisState p [] [] n) = Ok s → good (b, s).
Proof.
intros Hn H. unfold InitGenesis, SetParams in H. inv_ok. simpl. set (nx := if n =? 0 then 1 else n).
assert (Hnx : 0 < nx <= maxU64) by (unfold nx, maxU64 in *; destruct (n =? 0) eqn:?; boolP; lia).
assert (Hd : ∀ id, (∅ : gmap Z EnergyDelegation) !! id = None) by (intros; apply lookup_empty).
split; [split|]; simpl; unfold lockedTotal, lentBy, lockedBy, availIn; simpl;
  rewrite ?map_sum_empty; try done; try (intros *; rewrite Hd; done).
- apply index_wf_next. by destruct index_wf_empty; split.
- apply balance_nonneg.
Qed.

Lemma reachable_good w w' : rtc (step sha256 base bech32 p) w w' → good w → good w'.
Proof. induction 1; [done|]. intros. by eapply IHrtc, step_good. Qed.


(** C12: the owner of a delegation can always take it back, and gets exactly the
    ATOS it locked: [Undelegate] succeeds, moves the locked coins out of the pool
    and nothing else, drops the record, and burns what the borrower used from the
    lender's bucket. *)
Theorem Undelegate_returns_lock k ctx b s d :
  keeper_of base bech32 k → 0 < BlockTime ctx → good (b, s) → GetDelegation s (Id d) = Some d →
  ∃ b' s', Undelegate k ctx (b, s) (Delegator d) (Id d) = (Ok tt, (b', s')) ∧ good (b', s') ∧
    sDelegations s' = delete (Id d) (sDelegations s) ∧
    TxEnergyAccrued (GetEnergyAccount s' (Delegator d)) <=
      TxEnergyAccrued (Settle k ctx b s (Delegator d)).1 - Used d ∧
    GetBalance b' (Delegator d) base = GetBalance b (Delegator d) base + dLockedAtos d ∧
    GetBalance b' pool base = GetBalance b pool base - dLockedAtos d ∧
    ∀ a d', d' ≠ base ∨ (a ≠ Delegator d ∧ a ≠ pool) → GetBalance b' a d' = GetBalance b a d'.
Proof.
intros Hk Hnow [I E] Hd. unfold Undelegate. cbn [fst snd] in *. rewrite Hd, decide_True by done.
destruct (release_succeeds base bech32 p Hp Hbase k ctx b s d Hk Hnow I Hd)
  as (b' & s' & -> & I' & Hdel & _ & _ & Htx & Hbal & Hoth).
destruct (inv_parties _ _ _ _ _ I _ _ Hd) as [_ _ _ _ Hnp].
exists b', s'. split_and!; try done.
- split; [done|]. intros id x. cbn [snd]. rewrite Hdel. intros [_ Hx]%lookup_delete_Some. by apply (E id).
- rewrite Hbal, at_addr_eq, at_addr_ne by done. lia.
- rewrite Hbal, at_addr_eq, at_addr_ne by done. lia.
- intros a d' H. destruct (decide (d' = base)) as [->|]; [|by apply Hoth].
  destruct H as [H|[H1 H2]]; [done|]. rewrite Hbal, !at_addr_ne by done. lia.
Qed.

(** a successful [Delegate] locks whole threshold blocks, rounded up, and
    nothing else leaves the delegator; it stores one fresh, unused record that
    expires after the requested time, adds it to the lender's lent total, and
    makes the amount usable by the borrower. *)
Theorem Delegate_effects k ctx b s delegator delegatee amount duration id locked b' s' :
  keeper_of base bech32 k → 0 < BlockTime ctx → good (b, s) → user bech32 delegator →
  0 <= amount → amount + TxEnergyPerThreshold p <= 2 ^ 63 →
  BlockTime ctx + duration < 2 ^ 63 →
  Delegate k ctx (b, s) delegator delegatee amount duration = (Ok (id, locked), (b', s')) →
  let t := default 0 (TxEnergyHoldingThreshold p) in
  (∃ u, locked = t * u ∧ (u - 1) * TxEnergyPerThreshold p < amount <= u * TxEnergyPerThreshold p) ∧
  sDelegations s !! id = None ∧
  sDelegations s' = <[id := mkEnergyDelegation id delegator delegatee amount locked (BlockTime ctx)
                              (BlockTime ctx + duration) 0]> (sDelegations s) ∧
  DelegatedOut (GetEnergyAccount s' delegator) = DelegatedOut (GetEnergyAccount s delegator) + amount ∧
  LockedAtos (GetEnergyAccount s' delegator) = LockedAtos (GetEnergyAccount s delegator) + locked ∧
  DelegatedInUsable (GetEnergyAccount s' delegatee) =
    Z.min (DelegatedInUsable (GetEnergyAccount s delegatee) + amount) maxU64 ∧
  (∀ a, GetBalance b' a base = GetBalance b a base - at_addr delegator a locked + at_addr pool a locked) ∧
  (∀ a d, d ≠ base → GetBalance b' a d = GetBalance b a d).
Proof.
intros Hk Hnow [I E] Hu Ha Hb He H t. cbn [fst snd] in *.
pose proof H as H0. apply Delegate_inversion in H0 as (_ & _ & Hdur & _).
destruct (delegate_stage base bech32 p Hp Hbase k ctx b s delegator delegatee amount duration id locked b' s'
  Hk Hnow I Hu Ha Hb H) as (Hpos & _ & Hself & -> & _ & Hlk & Hbal & Hoth & s5 & -> & R & K & A & Hin).
destruct (rest_parts _ _ R) as (_ & Q2 & _).
destruct (A delegator) as [[_ Ho Hl _] _ _ _]. unfold bump in Ho, Hl. rewrite at_addr_eq in Ho, Hl.
destruct (inv_accounts _ _ _ _ _ I delegator) as [[_ Ho0 Hl0 _] _ _ _].
split_and!; try done.
- destruct (lockedFor_spec (TxEnergyPerThreshold p) t amount) as (u & Hu' & Hloc & H1); [apply Hp|lia|lia|].
  exists u. rewrite Hlk. split; [done|]. lia.
- by apply (inv_fresh base bech32 p b).
- simpl. unfold newDelegation. rewrite Q2, i64_small by (unfold is_i64; lia). done.
- transitivity (lentBy s delegator + amount); [exact Ho|congruence].
- transitivity (lockedBy s delegator + locked); [exact Hl|congruence].
- transitivity (DelegatedInUsable (GetEnergyAccount s5 delegatee)); [done|]. rewrite Hin, decide_True by done. done.
Qed.

(** delegating energy and taking it back unused is free: every balance of
    every account, the delegation records, and each account's lent and locked
    totals are what they were before. *)
Theorem delegate_undelegate_roundtrip k ctx ctx' b s msg id locked b' s' :
  keeper_of base bech32 k → 0 < BlockTime ctx → 0 < BlockTime ctx' → good (b, s) →
  (∀ a, bech32 (mDelegator msg) = Some a → user bech32 a) →
  0 <= mAmount msg → mAmount msg + TxEnergyPerThreshold p <= 2 ^ 63 →
  BlockTime ctx + effectiveDuration p (mDurationSeconds msg) < 2 ^ 63 → nextId s < maxU64 →
  DelegateEnergy k ctx (b, s) msg = (Ok (id, locked), (b', s')) →
  ∃ b2 s2, UndelegateEnergy k ctx' (b', s') (mkMsgUndelegateEnergy (mDelegator msg) id) = (Ok tt, (b2, s2)) ∧
    (∀ a d, GetBalance b2 a d = GetBalance b a d) ∧ sDelegations s2 = sDelegations s ∧
    ∀ a, DelegatedOut (GetEnergyAccount s2 a) = DelegatedOut (GetEnergyAccount s a) ∧
         LockedAtos (GetEnergyAccount s2 a) = LockedAtos (GetEnergyAccount s a).
Proof.
intros Hk Hnow Hnow' G Hu Ha Hb He Hn H.
destruct (msg_step_good base bech32 p Hp Hbase Hcanon (b, s) (b', s')) as [[I1 _] _]; 
  [by apply (msg_delegate base bech32 p k ctx (b, s) msg (id, locked) (b', s'))|done|].
destruct G as [I E]. cbn [fst snd] in *.
unfold DelegateEnergy in H. rewrite (proj2 Hk) in H. destruct (bech32 (mDelegator msg)) as [dor|] eqn:E1; [|done].
destruct (bech32 (mDelegatee msg)) as [dee|]; [|done]. destruct (_ && _) in H; [done|].
cbn [snd] in H. rewrite (inv_params _ _ _ _ _ I) in H.
destruct (delegate_stage base bech32 p Hp Hbase k ctx b s dor dee _ _ id locked b' s' Hk Hnow I (Hu _ eq_refl) Ha Hb H)
  as (_ & _ & _ & -> & _ & _ & Hbal & Hoth & s5 & Hs' & R & _).
set (d := newDelegation ctx s dor dee (mAmount msg) (effectiveDuration p (mDurationSeconds msg)) locked) in *.
destruct (rest_parts _ _ R) as (_ & Q2 & _).
assert (Hdel : sDelegations s' = <[nextId s := d]> (sDelegations s)) by (rewrite Hs', <- Q2; done).
assert (Hd : sDelegations s' !! Id d = Some d) by (rewrite Hdel; apply lookup_insert_eq).
destruct (release_succeeds base bech32 p Hp Hbase k ctx' b' s' d Hk Hnow' I1 Hd)
  as (b2 & s2 & Hrel & I2 & Hdel2 & _ & _ & _ & Hbal2 & Hoth2).
unfold UndelegateEnergy, Undelegate, GetDelegation. cbn [uDelegator uDelegationId snd].
rewrite (proj2 Hk), E1. change (nextId s) with (Id d). rewrite Hd, decide_True, Hrel by done.
assert (Hback : sDelegations s2 = sDelegations s).
{ rewrite Hdel2, Hdel. apply delete_insert_id. by apply (inv_fresh base bech32 p b). }
exists b2, s2. split_and!; [done| |done|].
- intros a x. destruct (decide (x = base)) as [->|]; [|by rewrite Hoth2, Hoth].
  rewrite Hbal2, Hbal. change (Delegator d) with dor. change (dLockedAtos d) with locked. lia.
- intros a. destruct (inv_accounts _ _ _ _ _ I a) as [[_ Ho Hl _] _ _ _].
  destruct (inv_accounts _ _ _ _ _ I2 a) as [[_ Ho2 Hl2 _] _ _ _].
  unfold lentBy, lockedBy in *. rewrite Hback in Ho2, Hl2. split; congruence.
Qed.

(** at the end of a block every delegation that has expired is gone and every
    other one is kept, no reservation of a failed transaction is left unresolved,
    and the state is still in order. *)
Theorem EndBlocker_cleans k ctx b s :
  keeper_of base bech32 k → 0 < BlockTime ctx → good (b, s) → EnergyEnabled p = true →
  ∃ b' s', EndBlocker k ctx (b, s) = (b', s') ∧ good (b', s') ∧ sPending s' = ∅ ∧
    ∀ id, is_Some (sDelegations s' !! id) ↔
      ∃ d, sDelegations s !! id = Some d ∧ BlockTime ctx < ExpiresAt d.
Proof.
intros Hk Hnow G Hen. pose proof (end_good base bech32 p Hp Hbase k ctx (b, s) Hk Hnow G) as G'.
destruct (sweep_good base bech32 p Hp Hbase k ctx b s Hk Hnow G) as (b1 & s1 & Hsw & [I1 E1] & Hd1).
unfold EndBlocker in *. destruct G as [I E]. cbn [fst snd] in *.
rewrite (inv_params _ _ _ _ _ I), Hen in *. cbn [negb] in *. rewrite Hsw in *. cbn [fst snd] in *.
destruct (inv_refund_failed base bech32 p Hp Hbase k b1 s1 Hk I1) as (_ & U2 & P2).
exists b1, (refundFailedTxReservations k s1). split_and!; [done|done|done|]. intros id.
transitivity (is_Some (sDelegations s1 !! id)).
- pose proof (f_equal (lookup id) (uo_unused _ _ U2)) as Hu. unfold unused in Hu. rewrite !lookup_fmap in Hu.
  destruct (sDelegations s1 !! id), (sDelegations (refundFailedTxReservations k s1) !! id); simpl in Hu; done.
- split.
  + intros [d Hd]. apply Hd1 in Hd. eauto.
  + intros (d & Hd). exists d. by apply Hd1.
Qed.

(** ** Net charge of a transaction *)

(** Each consumption is recorded in the [Used] field it was charged to. *)
Lemma charges_used a cs : ∀ m,
  (∀ id d, m !! id = Some d → 0 <= Used d) → charges m a cs →
  NoDup (map DelegationID cs) ∧
  Forall (fun c => 0 < cAmount c ∧ ∃ d, chargeAll m cs !! DelegationID c = Some d ∧ cAmount c <= Used d) cs.
Proof.
induction cs as [|c cs IH]; intros m Hm (ds & F & Hnd & F3).
{ split; constructor. }
inversion F as [|d ? ds' ? [Hid Hc] F' E1 E2]; subst; clear F. rewrite fmap_cons in Hnd.
apply NoDup_cons in Hnd as [Hnin Hnd]. apply Forall_cons in F3 as [[Hd Hda] F3].
assert (Hids : map DelegationID cs = Id <$> ds').
{ clear -F'. induction F' as [|? ? ? ? [Hf _] _ IH]; simpl; [done|]. by rewrite Hf, IH. }
assert (Hc0 : charge c m !! DelegationID c = Some (with_Used (Used d + cAmount c) d)).
{ unfold charge. by rewrite lookup_alter_eq, Hid, Hd. }
destruct (IH (charge c m)) as [N1 F1].
- intros id d'. unfold charge. intros [(<- & d0 & H0 & ->)|[_ H0]]%lookup_alter_Some; [|by eapply Hm].
  specialize (Hm _ _ H0). simpl. lia.
- exists ds'. split_and!; [done|done|]. rewrite Forall_forall in F3 |- *. intros d' Hd'. destruct (F3 d' Hd') as [H1 H2].
  split; [|done]. unfold charge. rewrite lookup_alter_ne; [done|]. rewrite Hid. intros Heq. apply Hnin.
  rewrite Heq. by apply list_elem_of_fmap_2.
- split; [simpl; rewrite Hids, Hid; by apply NoDup_cons|]. constructor; [|done]. split; [lia|].
  exists (with_Used (Used d + cAmount c) d). simpl. specialize (Hm _ _ Hd). split; [|lia].
  unfold chargeAll in *. fold (chargeAll (charge c m) cs). rewrite chargeAll_lookup_ne; [done|].
  by rewrite Hids, Hid.
Qed.

(** What the account can spend: its own energy and what it borrowed. *)
Definition holdings (acct : EnergyAccount) : Z := TxEnergyAccrued acct + DelegatedInUsable acct.

(** A partial refund right after the charge gives back exactly its amount. *)
Lemma refund_exact k ctx b s a gas isDeploy urls res s1 :
  0 < BlockTime ctx → good (b, s) →
  allSubsidized p urls = false → EnergyEnabled p = true → 0 < gas <= maxU64 →
  Consume k ctx b s a gas isDeploy urls = (Ok res, s1) →
  Free res = false ∧ 0 <= EnergyDeducted res <= gas ∧
  holdings (GetEnergyAccount s1 a) = holdings (Settle k ctx b s a).1 - EnergyDeducted res ∧
  ∀ amount, 0 <= amount <= EnergyDeducted res →
    holdings (GetEnergyAccount (RefundEnergy s1 a amount res) a) =
    holdings (Settle k ctx b s a).1 - (EnergyDeducted res - amount).
Proof.
intros Hnow [I E] Hsub Hen Hg H. cbn [fst snd] in *. pose proof (inv_params _ _ _ _ _ I) as HP.
pose proof (inv_index _ _ _ _ _ I) as W. pose proof (inv_keyed _ _ _ _ _ I) as K.
destruct (Settle k ctx b s a) as [acct s0] eqn:ES.
destruct (inv_settle base bech32 p Hp k ctx b s a acct s0 Hnow I ES) as (_ & U & [Hpre _ Hcap _] & _).
pose proof (pre_wf _ _ _ Hpre) as Wa.
pose proof (Consume_main k ctx b s a gas isDeploy urls K W) as M. rewrite ES, H, HP in M. cbv zeta in M.
destruct (M Wa Hsub Hen ltac:(lia)) as (Hpaid & Hch & Hsum & Hs1 & W1). clear M.
assert (Ha : Address acct = a).
{ pose proof (Settle_counters k ctx b s a) as [C _]. rewrite ES in C. simpl in C. rewrite C.
  by apply GetEnergyAccount_Address. }
cbn [fst snd] in *. rewrite SetEnergyAccount_delegations in Hs1.
pose proof (updates_Set _ _ _ _ (charged acct res) U Ha) as U'.
assert (Hget : GetEnergyAccount s1 a = charged acct res) by (rewrite Hs1; exact (updates_get _ _ _ _ U')).
assert (Hpar : GetParams s1 = p) by (rewrite Hs1, <- HP; exact (GetParams_rest _ _ (up_rest _ _ _ _ U'))).
assert (K1 : accounts_keyed s1) by (rewrite Hs1; apply U').
pose proof (paid_bounds acct gas isDeploy res Wa ltac:(lia) Hpaid) as (Ho & Hd & He).
pose proof (charged_wf acct gas isDeploy res Wa Hpaid) as Wc.
pose proof (paid_energy _ _ _ _ Hpaid) as Hen2. pose proof (paid_gas _ _ _ _ Hpaid) as Hgas.
pose proof (paid_shortfall _ _ _ _ Hpaid). pose proof (paid_deploy _ _ _ _ Hpaid).
pose proof (paid_own _ _ _ _ Hpaid). pose proof (paid_in _ _ _ _ Hpaid).
assert (Hnow' : holdings (charged acct res) = holdings acct - EnergyDeducted res) by (unfold holdings; simpl; lia).
split_and!; [apply Hpaid|unfold is_u64 in *; lia|lia|by rewrite Hget|]. intros amount Hamt.
destruct (charges_used a (DelegationConsumptions res) (sDelegations s)) as [Hnd Hfit]; [|done|].
{ intros id d Hid. apply (iw_del s W _ _ Hid). }
set (cs := DelegationConsumptions res) in *.
assert (Hdel1 : sDelegations s1 = chargeAll (sDelegations s) cs) by (by rewrite Hs1).
assert (Hrev : Permutation (rev cs) cs) by (symmetry; apply Permutation_rev).
pose proof (refundLoop_exact (rev cs) s1 (delPart amount res) 0 W1) as Hloop.
destruct (refundLoop s1 (delPart amount res) 0 (rev cs)) as [u s2] eqn:EL. cbn [fst] in Hloop.
assert (Hu : u = delPart amount res).
{ rewrite Hloop; [|by rewrite Hrev|unfold delPart, is_u64 in *; lia|by rewrite Hrev, Hdel1].
  replace (sumZ (map cAmount (rev cs))) with (DelegatedDeducted res).
  - unfold delPart, is_u64 in *. lia.
  - rewrite <- Hsum. apply sumZ_perm. by rewrite Hrev. }
assert (Hc : consumed_from (sDelegations s1) a cs).
{ rewrite Hdel1. eapply consumed_from_unused; [apply unused_chargeAll|by apply charges_consumed]. }
assert (Hdp : 0 <= 0 <= delPart amount res) by (unfold delPart, is_u64 in *; lia).
destruct (refundLoop_spec a _ _ _ _ _ _ W1 Hdp (Forall_rev Hc) EL) as (_ & _ & Hs2 & _).
assert (Hamt' : Z.min amount (Z.min (OwnDeducted res + DelegatedDeducted res) maxU64) = amount)
  by (unfold is_u64 in *; lia).
rewrite (RefundEnergy_spec s1 a amount res u s2); rewrite ?Hamt', ?Hget; try done;
  [|lia|unfold delPart, is_u64 in *; lia|by rewrite Hs2].
destruct (amount =? 0) eqn:E0; boolP; [rewrite Hget; lia|].
assert (K2 : accounts_keyed s2) by (rewrite Hs2; exact K1).
pose proof (Set_updates s2 (refunded (GetParams s1) amount u res (charged acct res)) a K2 Ha) as U2.
rewrite (updates_get _ _ _ _ U2), Hpar. destruct Wa as [Wt _ _ Wi _ _].
pose proof (ownAvailable_max acct). rewrite Hu. unfold holdings, refunded, ownPart, delPart, is_u64 in *. simpl.
destruct (0 <? _) eqn:?; boolP; lia.
Qed.

(** C4: a transaction pays energy for the gas it used, not for the gas it
    reserved: after [Consume] for the gas limit and [PostHandle] with the gas
    actually used, the signer's own and borrowed energy together are down by
    min(energy reserved, gas used). *)
Theorem transaction_net_charge k ctx b s a gas isDeploy urls res s1 c tx :
  0 < BlockTime ctx → good (b, s) → allSubsidized p urls = false → EnergyEnabled p = true → 0 < gas <= maxU64 →
  Consume k ctx b s a gas isDeploy urls = (Ok res, s1) →
  tcReserved c = Some res → tcSigner c = Some a → IsFeeTx tx = true → GetGas tx = gas →
  0 <= GasConsumed c →
  let s2 := (PostHandle sha256 done_ c tx (b, s1)).2.2 in
  holdings (GetEnergyAccount s2 a) =
    holdings (Settle k ctx b s a).1 - Z.min (EnergyDeducted res) (GasConsumed c).
Proof.
intros Hnow G Hsub Hen Hg H Hr Hsg Hfee Hgas Hused s2.
assert (Hacc : ∀ s' h, GetEnergyAccount (DeletePendingReservation s' h) a = GetEnergyAccount s' a).
{ intros. unfold DeletePendingReservation. by case_decide. }
destruct (refund_exact k ctx b s a gas isDeploy urls res s1 Hnow G Hsub Hen Hg H) as (Hfree & Hle & Hh & Hx).
unfold s2, PostHandle, postRefund. rewrite Hr, Hsg, Hfree, Hfee, Hgas. cbn [negb].
destruct (gas <=? GasConsumed c) eqn:E1; boolP; [simpl; rewrite Hacc; lia|].
destruct (EnergyDeducted res =? 0) eqn:E2; boolP; [simpl; rewrite Hacc; lia|].
destruct (EnergyDeducted res <=? GasConsumed c) eqn:E3; boolP.
- rewrite Z.sub_diag. simpl. rewrite Hacc. lia.
- rewrite (proj2 (Z.eqb_neq (EnergyDeducted res - GasConsumed c) 0)) by lia. simpl. rewrite Hacc, Hx by lia. lia.
Qed.
End guarantees.

(** ** Concrete runs *)

(** alice holds 200,000 ATOS from time 1000; a day later she lends bob energy. *)
#[local] Existing Instance bankers_dec.
Module Chain.
Definition bech32 (x : string) : option addr := Some x.
Definition keeper : Keeper := mkKeeper None None "gov" "liao" bech32.
Definition bank : ledger := mkLedger {[("alice", "liao") := Z.to_N (200000 * atosUnit)]}%string ∅.
Definition genesis : EnergyStore :=
  match InitGenesis keeper true emptyStore (mkGenesisState DefaultParams [] [] 0) with Ok s => s | Err _ => emptyStore end.
Definition day1 : Ctx := mkCtx 1000 7.
Definition day2 : Ctx := mkCtx (1000 + 86400) 8.
Definition day9 : Ctx := mkCtx (1000 + 9 * 86400) 9.
Definition w1 : ledger * EnergyStore := (bank, Hooks_refresh keeper day1 bank genesis "alice").
Definition msg : MsgDelegateEnergy := mkMsgDelegateEnergy "alice" "bob" 60000 86400.
Definition lend := DelegateEnergy keeper day2 w1 msg.
Definition w2 : ledger * EnergyStore := lend.2.

Definition sha256 (x : string) : string := ("#" +:+ x)%string.
Definition good := EnergyMachine.good (bank := ledger_ops) "liao" bech32 DefaultParams.
Definition step := EnergyMachine.step (bank := ledger_ops) (D := bankers_dec) sha256 "liao" bech32 DefaultParams.

Lemma base_ok : "liao"%string ≠ AtoxBaseDenom.
Proof. done. Qed.
Lemma canon x a : bech32 x = Some a → bech32 a = Some a.
Proof. done. Qed.
Lemma keeper_ok : keeper_of "liao" bech32 keeper.
Proof. done. Qed.
Lemma alice_user : user (bank := ledger_ops) bech32 "alice".
Proof. by split. Qed.
Lemma genesis_ok : InitGenesis keeper true emptyStore (mkGenesisState DefaultParams [] [] 0) = Ok genesis.
Proof. by vm_compute. Qed.

Lemma refresh_step : step (bank, genesis) (w1.1, w1.2).
Proof. change (w1.1, w1.2) with w1. by apply step_msg, msg_staking. Qed.
Lemma lend_ok : DelegateEnergy keeper day2 (w1.1, w1.2) msg = (Ok (1, 60000 * atosUnit), (w2.1, w2.2)).
Proof. by vm_compute. Qed.
Lemma lend_step : step (w1.1, w1.2) (w2.1, w2.2).
Proof.
apply step_msg, (msg_delegate "liao" bech32 DefaultParams keeper day2 (w1.1, w1.2) msg (1, 60000 * atosUnit) (w2.1, w2.2)).
- exact keeper_ok.
- done.
- intros a [= <-]. exact alice_user.
- done.
- by vm_compute.
- by vm_compute.
- by vm_compute.
- exact lend_ok.
Qed.

Lemma genesis_good : good (bank, genesis).
Proof. by apply (good_genesis "liao" bech32 DefaultParams keeper true 0 bank genesis); [|exact genesis_ok]. Qed.
Lemma w1_good : good (w1.1, w1.2).
Proof. exact (step_good sha256 _ bech32 _ DefaultParams_wf base_ok canon _ _ refresh_step genesis_good). Qed.
Lemma w2_good : good (w2.1, w2.2).
Proof. exact (step_good sha256 _ bech32 _ DefaultParams_wf base_ok canon _ _ lend_step w1_good). Qed.
Definition loan : EnergyDelegation :=
  mkEnergyDelegation 1 "alice" "bob" 60000 (60000 * atosUnit) 87400 173800 0.
End Chain.


Lemma Undelegate_returns_lock_witness :
  ∃ b s, Undelegate Chain.keeper Chain.day2 (Chain.w2.1, Chain.w2.2) "alice" 1 = (Ok tt, (b, s)) ∧
    l_balance b "alice" "liao" = l_balance Chain.w2.1 "alice" "liao" + 60000 * atosUnit.
Proof.
destruct (Undelegate_returns_lock "liao" Chain.bech32 DefaultParams DefaultParams_wf Chain.base_ok
  Chain.keeper Chain.day2 Chain.w2.1 Chain.w2.2 Chain.loan) as (b & s & H1 & _ & _ & _ & H5 & _).
- exact Chain.keeper_ok.
- done.
- exact Chain.w2_good.
- by vm_compute.
- exists b, s. split; [exact H1|exact H5].
Defined.

Lemma Delegate_effects_witness :
  sDelegations Chain.w2.2 = <[1 := Chain.loan]> (sDelegations Chain.w1.2).
Proof.
refine (proj1 (proj2 (proj2 (Delegate_effects "liao" Chain.bech32 DefaultParams DefaultParams_wf Chain.base_ok
  Chain.keeper Chain.day2 Chain.w1.1 Chain.w1.2 "alice" "bob" 60000 86400 1 (60000 * atosUnit) Chain.w2.1 Chain.w2.2
  Chain.keeper_ok _ Chain.w1_good Chain.alice_user _ _ _ _)))); by vm_compute.
Defined.

Lemma delegate_undelegate_roundtrip_witness :
  ∃ b s, UndelegateEnergy Chain.keeper Chain.day9 (Chain.w2.1, Chain.w2.2) (mkMsgUndelegateEnergy "alice" 1) = (Ok tt, (b, s)) ∧
    l_balance b "alice" "liao" = 200000 * atosUnit.
Proof.
destruct (delegate_undelegate_roundtrip "liao" Chain.bech32 DefaultParams DefaultParams_wf Chain.base_ok Chain.canon
  Chain.keeper Chain.day2 Chain.day9 Chain.w1.1 Chain.w1.2 Chain.msg 1 (60000 * atosUnit) Chain.w2.1 Chain.w2.2)
  as (b & s & H1 & H2 & _).
- exact Chain.keeper_ok.
- done.
- done.
- exact Chain.w1_good.
- intros a [= <-]. exact Chain.alice_user.
- done.
- by vm_compute.
- by vm_compute.
- by vm_compute.
- exact Chain.lend_ok.
- exists b, s. split; [exact H1|]. etransitivity; [exact (H2 "alice"%string "liao"%string)|by vm_compute].
Defined.

Lemma EndBlocker_cleans_witness :
  sDelegations Chain.w2.2 !! 1 = Some Chain.loan ∧
  ¬ is_Some (sDelegations (EndBlocker Chain.keeper Chain.day9 (Chain.w2.1, Chain.w2.2)).2 !! 1).
Proof.
split; [by vm_compute|].
destruct (EndBlocker_cleans "liao" Chain.bech32 DefaultParams DefaultParams_wf Chain.base_ok Chain.keeper
  Chain.day9 Chain.w2.1 Chain.w2.2) as (b & s & H1 & _ & _ & H4).
- exact Chain.keeper_ok.
- done.
- exact Chain.w2_good.
- done.
- intros H. rewrite H1 in H. apply H4 in H as (d & Hd & Hlt).
  vm_compute in Hd. injection Hd as <-. by vm_compute in Hlt.
Defined.

Lemma transaction_net_charge_witness :
  let urls := ["/cosmos.bank.v1beta1.MsgSend"%string] in
  ∃ res s1, Consume Chain.keeper Chain.day2 Chain.w2.1 Chain.w2.2 "bob" 1000 false urls = (Ok res, s1) ∧
  let c := mkTxCtx Chain.day2 "tx" 300 (Some res) (Some "bob"%string) 0 in
  let tx := mkTx true 1000 urls [] "bob" "" in
  holdings (GetEnergyAccount (PostHandle Chain.sha256 done_ c tx (Chain.w2.1, s1)).2.2 "bob") = 60000 - 300.
Proof.
intros urls. assert (Hg : 0 < 1000 <= maxU64) by done. assert (Hused : 0 <= 300) by done.
assert (Hsub : allSubsidized DefaultParams urls = false) by (by vm_compute).
destruct (Consume Chain.keeper Chain.day2 Chain.w2.1 Chain.w2.2 "bob" 1000 false urls) as [[res|] s1] eqn:E;
  [|by vm_compute in E].
exists res, s1. split; [reflexivity|]. intros c tx.
pose proof (transaction_net_charge Chain.sha256 "liao" Chain.bech32 DefaultParams DefaultParams_wf
  Chain.keeper Chain.day2 Chain.w2.1 Chain.w2.2 "bob" 1000 false urls res s1 c tx
  eq_refl Chain.w2_good Hsub eq_refl Hg E eq_refl eq_refl eq_refl eq_refl Hused) as H.
cbv zeta in H. etransitivity; [exact H|].
assert (Hr : EnergyDeducted res = 1000) by (vm_compute in E; by injection E as <- _).
rewrite Hr. clear. by vm_compute.
Defined.
