(* ===== verification/AtoxIndex.v ===== *)
(** * x/atox/types: the conversion index

    Models src/x/atox/types/helpers.go, with the records of atox.pb.go: how a
    release of ATOS advances the global index, what a holder is owed over a span
    of the index, the transfer fee, and the validations.  A nil [math.Int] takes
    in each of these functions the branch of a negative value (validation and
    amounts) or of zero (balances, totals), so it is not a value of its own. *)

From stdpp Require Import gmap strings list sorting.
From Stdlib Require Import ZArith Lia Sorted.
From S2P Require Import Prelude SdkMath.

Open Scope Z_scope.

Definition AtoxModuleName : string := "atox".
Definition ExchangePoolName : string := "atox_exchange_pool".
Definition AtoxErr (code : Z) : error := Registered AtoxModuleName code.
Definition ErrAtoxDisabled : error := AtoxErr 2.
Definition ErrNothingToClaim : error := AtoxErr 3.
Definition ErrInvalidAmount : error := AtoxErr 5.
Definition ErrSupplyCapReached : error := AtoxErr 6.
Definition ErrPoolInsolvent : error := AtoxErr 7.
Definition ErrAtoxCannotLeave : error := AtoxErr 9.

Definition MaxAutoSettlePerBlock : Z := 1000.
Definition MaxTransferFeeBps : Z := 3000.
Definition BpsDenominator : Z := 10000.
Definition IndexPrecision : Z := 10 ^ 18.

(** ** Records *)
Record Params := mkParams {
  Enabled : bool;
  SupplyCap : Z;
  AutoSettlePerBlock : Z; (** uint32 *)
  MinAutoPayout : Z;
  pTransferFeeBps : Z;    (** uint32 *)
}.

Record GlobalState := mkGlobalState {
  GlobalIndex : Dec;
  IndexRemainder : Z;
  TotalReleasedToPool : Z;
  TotalPending : Z;
  TotalPaidOut : Z;
  TotalFeeBurned : Z;
  TotalBurned : Z;
}.

Record AtoxAccount := mkAtoxAccount {
  Address : string;
  Index : Dec;
  Pending : Z;
  TotalClaimed : Z;
}.

Record GenesisState := mkGenesisState {
  gsParams : Params;
  gsGlobalState : GlobalState;
  gsAccounts : list AtoxAccount;
  gsScanCursor : string;
  gsSweptIndex : Dec;
}.

Definition DefaultParams : Params := mkParams true (10 ^ 30) 50 (10 ^ 15) 1000.
Definition DefaultGlobalState : GlobalState := mkGlobalState ZeroDec 0 0 0 0 0 0.
Definition NewAtoxAccount (a : string) (index : Dec) : AtoxAccount := mkAtoxAccount a index 0 0.
Definition DefaultGenesisState : GenesisState :=
  mkGenesisState DefaultParams DefaultGlobalState [] "" ZeroDec.

(** ** Index arithmetic *)

(** The increment of the index and the remainder to carry. *)
Definition ComputeIndexDelta (amount remainderIn supplyCap : Z) : result (Dec * Z) :=
  guard! 0 <=? amount else ErrInvalidAmount;
  guard! 0 <? supplyCap else Plain "supply cap must be positive";
  guard! 0 <=? remainderIn else Plain "index remainder must not be negative";
  let scaled := amount * IndexPrecision + remainderIn in
  Ok (Z.quot scaled supplyCap, scaled mod supplyCap).

Definition ComputeTransferFee (amount feeBps : Z) : Z :=
  if (feeBps =? 0) || negb (0 <? amount) then 0
  else
    let num := amount * feeBps in
    let fee := Z.quot num BpsDenominator in
    if negb (num mod BpsDenominator =? 0) then fee + 1 else fee.

(** The walk back of [MaxSendableWithFee]; [fuel] bounds the number of steps. *)
Fixpoint walkBack (fuel : nat) (balance feeBps a : Z) : Z :=
  match fuel with
  | O => a
  | S fuel => if (0 <? a) && (balance <? a + ComputeTransferFee a feeBps)
              then walkBack fuel balance feeBps (a - 1) else a
  end.

Definition MaxSendableWithFee (balance feeBps : Z) : Z :=
  if negb (0 <? balance) then 0
  else if feeBps =? 0 then balance
  else
    let a := Z.quot (balance * BpsDenominator) (BpsDenominator + feeBps) in
    let a := walkBack (Z.to_nat a) balance feeBps a in
    if a <? 0 then 0 else a.

Section owed.
Context {D : LegacyDecOps}.

(** The ATOS owed over a span of the index, and the ATOX burned for it. *)
Definition ComputeOwed (atoxBalance : Z) (accountIndex globalIndex : Dec) : Z * Z :=
  if negb (0 <? atoxBalance) then (0, 0)
  else if negb (accountIndex <? globalIndex) then (0, 0)
  else if OneDec <=? accountIndex then (0, 0)
  else
    let delta := globalIndex - accountIndex in
    let remaining := OneDec - accountIndex in
    let owed := TruncateInt (Dec_Quo (MulInt delta atoxBalance) remaining) in
    let owed := if atoxBalance <? owed then atoxBalance else owed in
    (owed, owed).
End owed.

(** ** Validation *)
Definition Params_Validate (p : Params) : result unit :=
  guard! 0 <? SupplyCap p else Plain "supply cap must be positive";
  guard! AutoSettlePerBlock p <=? MaxAutoSettlePerBlock else Plain "auto settle per block";
  guard! 0 <=? MinAutoPayout p else Plain "min auto payout must not be negative";
  guard! pTransferFeeBps p <=? MaxTransferFeeBps else Plain "transfer fee bps";
  Ok tt.

Definition GlobalState_Validate (s : GlobalState) : result unit :=
  guard! 0 <=? GlobalIndex s else Plain "global_index must not be negative";
  guard! forallb (Z.leb 0) [IndexRemainder s; TotalReleasedToPool s; TotalPending s; TotalPaidOut s;
                            TotalFeeBurned s; TotalBurned s] else Plain "must not be negative";
  guard! TotalPending s + TotalPaidOut s <=? TotalReleasedToPool s
    else Plain "total_pending + total_paid_out exceeds total_released_to_pool";
  Ok tt.

Definition AtoxAccount_Validate (bech32 : string → option addr) (a : AtoxAccount) : result unit :=
  guard! bool_decide (is_Some (bech32 (Address a))) else Plain "address";
  guard! 0 <=? Index a else Plain "index must not be negative";
  guard! 0 <=? Pending a else Plain "pending must not be negative";
  guard! 0 <=? TotalClaimed a else Plain "total_claimed must not be negative";
  Ok tt.

(** The loop over the accounts; returns the sum of their pending amounts. *)
Fixpoint accountsValidate (bech32 : string → option addr) (globalIndex : Dec) (seen : gset string) (sum : Z)
    (accts : list AtoxAccount) : result Z :=
  match accts with
  | [] => Ok sum
  | a :: accts =>
      _ ← AtoxAccount_Validate bech32 a;
      guard! negb (bool_decide (Address a ∈ seen)) else Plain "duplicate address";
      guard! Index a <=? globalIndex else Plain "index exceeds global_index";
      accountsValidate bech32 globalIndex ({[Address a]} ∪ seen) (sum + Pending a) accts
  end.

Definition GenesisState_Validate (bech32 : string → option addr) (gs : GenesisState) : result unit :=
  _ ← Params_Validate (gsParams gs);
  _ ← GlobalState_Validate (gsGlobalState gs);
  guard! 0 <=? gsSweptIndex gs else Plain "invalid swept_index";
  guard! gsSweptIndex gs <=? GlobalIndex (gsGlobalState gs) else Plain "swept_index exceeds global_index";
  sum ← accountsValidate bech32 (GlobalIndex (gsGlobalState gs)) ∅ 0 (gsAccounts gs);
  guard! sum =? TotalPending (gsGlobalState gs) else Plain "total_pending does not match";
  Ok tt.

Record MsgClaimAtos := mkMsgClaimAtos { Claimer : string }.
Record MsgUpdateParams := mkMsgUpdateParams { Authority : string; uParams : Params }.

Definition MsgClaimAtos_ValidateBasic (bech32 : string → option addr) (m : MsgClaimAtos) : result unit :=
  guard! bool_decide (is_Some (bech32 (Claimer m))) else Plain "bech32"; Ok tt.
Definition MsgUpdateParams_ValidateBasic (bech32 : string → option addr) (m : MsgUpdateParams) : result unit :=
  guard! bool_decide (is_Some (bech32 (Authority m))) else Plain "bech32"; Params_Validate (uParams m).

(** ** Lemmas *)

(** Ceiling division. *)
Definition cdiv (a b : Z) : Z := - (- a / b).
Lemma cdiv_spec a b : 0 < b → (cdiv a b - 1) * b < a <= cdiv a b * b.
Proof.
intros Hb. unfold cdiv. pose proof (Z.div_mod (- a) b ltac:(lia)). pose proof (Z.mod_pos_bound (- a) b Hb). nia.
Qed.

Lemma ComputeTransferFee_cdiv amount bps :
  0 <= amount → 0 <= bps → ComputeTransferFee amount bps = cdiv (amount * bps) BpsDenominator.
Proof.
intros Ha Hb. unfold ComputeTransferFee, cdiv, BpsDenominator.
destruct (bps =? 0) eqn:E1; boolP; [subst; simpl; by rewrite Z.mul_0_r|]. destruct (0 <? amount) eqn:E2; boolP; simpl.
2:{ assert (amount = 0) as -> by lia. done. }
rewrite Z.quot_div_nonneg by lia. pose proof (Z.div_mod (amount * bps) 10000 ltac:(lia)).
pose proof (Z.mod_pos_bound (amount * bps) 10000 ltac:(lia)).
destruct (_ =? 0) eqn:E3; boolP; simpl.
- rewrite Z_div_zero_opp_full by lia. lia.
- rewrite Z_div_nz_opp_full by lia. lia.
Qed.

Section owed_lemmas.
Context {D : LegacyDecOps} {DL : LegacyDecLaws D}.

(** The rounding of [Quo] never reaches the next integer: what is owed is the
    exact floor. *)
Lemma ComputeOwed_spec b i g :
  0 <= b → 0 <= i → i < OneDec →
  ComputeOwed b i g =
  let owed := if i <? g then Z.min b (b * (g - i) / (OneDec - i)) else 0 in (owed, owed).
Proof.
intros Hb Hi H1. unfold ComputeOwed. pose proof precision_pos as HP. unfold OneDec in *.
destruct (0 <? b) eqn:E0; boolP; cbn [negb]; cbv zeta.
2:{ assert (b = 0) as -> by lia. rewrite Z.mul_0_l, Z.div_0_l by lia. by destruct (i <? g). }
destruct (i <? g) eqn:E1; boolP; cbn [negb]; [|done]. rewrite (proj2 (Z.leb_gt precision i)) by lia.
unfold MulInt. set (r := precision - i). set (n := (g - i) * b). set (q := Dec_Quo n r).
assert (Hr : 0 < r <= precision) by (unfold r; lia). assert (Hn : 0 <= n) by (unfold n; nia).
pose proof (Dec_Quo_ulp n r Hn (proj1 Hr)) as Hq. fold q in Hq.
pose proof (Dec_Quo_nonneg n r Hn (proj1 Hr)) as Hq0. fold q in Hq0.
assert (Hfl : TruncateInt q = n / r).
{ rewrite TruncateInt_div by done. pose proof (Z.div_mod n r ltac:(lia)) as Hd.
  pose proof (Z.mod_pos_bound n r (proj1 Hr)) as Hm. symmetry. apply (Z.div_unique_pos q precision (n / r) (q - precision * (n / r))); [|lia].
  assert (precision * (n / r) <= q) by nia. assert (q < precision * (n / r) + precision) by nia. lia. }
rewrite Hfl. unfold n. rewrite (Z.mul_comm (g - i) b).
destruct (b <? _) eqn:E2; boolP; f_equal; lia.
Qed.

(** What is left after a settlement: the ceiling of the undrawn share. *)
Lemma ComputeOwed_left b i g :
  0 <= b → 0 <= i → i < OneDec → i <= g <= OneDec →
  b - (ComputeOwed b i g).1 = cdiv (b * (OneDec - g)) (OneDec - i).
Proof.
intros Hb Hi H1 Hg. rewrite ComputeOwed_spec by done. simpl.
assert (Hc : cdiv (b * (OneDec - g)) (OneDec - i) = b - b * (g - i) / (OneDec - i)).
{ unfold cdiv. replace (- (b * (OneDec - g))) with (b * (g - i) + (- b) * (OneDec - i)) by ring.
  rewrite Z.div_add by lia. lia. }
rewrite Hc. destruct (i <? g) eqn:E; boolP.
- assert (b * (g - i) / (OneDec - i) <= b); [|lia]. apply Z.div_le_upper_bound; nia.
- assert (g = i) as -> by lia. rewrite Z.sub_diag, Z.mul_0_r, Z.div_0_l by lia. lia.
Qed.

Lemma ComputeOwed_bounds b i g : 0 <= b → 0 <= i →
  0 <= (ComputeOwed b i g).1 <= b ∧ (ComputeOwed b i g).2 = (ComputeOwed b i g).1.
Proof.
intros Hb Hi. destruct (decide (i < OneDec)) as [H1|H1].
- rewrite ComputeOwed_spec by done. simpl. split; [|done]. destruct (i <? g) eqn:E; boolP; [|lia].
  assert (0 <= b * (g - i) / (OneDec - i)) by (apply Z.div_pos; nia). lia.
- unfold ComputeOwed. rewrite (proj2 (Z.leb_le OneDec i)) by lia.
  destruct (negb _); [simpl; lia|]. destruct (negb _); simpl; lia.
Qed.

Lemma ComputeOwed_full b i g : 0 <= b → 0 <= i → i < OneDec → OneDec <= g → (ComputeOwed b i g).1 = b.
Proof.
intros Hb Hi H1 Hg. rewrite ComputeOwed_spec by done. simpl. rewrite (proj2 (Z.ltb_lt i g)) by lia.
assert (b <= b * (g - i) / (OneDec - i)); [|lia]. apply Z.div_le_lower_bound; nia.
Qed.
End owed_lemmas.

(** ** Claiming more than once *)
Section timing.
Context {D : LegacyDecOps} {DL : LegacyDecLaws D}.

(** A holder with [b] ATOX at index [i] settles at each index of [gs]; every
    settlement burns what it pays.  The result is the ATOS paid in total. *)
Fixpoint claims (b : Z) (i : Dec) (gs : list Dec) : Z :=
  match gs with
  | [] => 0
  | g :: gs => let owed := (ComputeOwed b i g).1 in owed + claims (b - owed) g gs
  end.

Lemma two_claims b i g l :
  0 <= b → 0 <= i → i <= g → g < OneDec → g <= l →
  let o1 := (ComputeOwed b i g).1 in
  let o2 := (ComputeOwed (b - o1) g l).1 in
  o1 + o2 <= (ComputeOwed b i l).1 <= o1 + o2 + 1 ∧ (OneDec <= l → o1 + o2 = b).
Proof.
intros Hb Hi Hig Hg Hl o1 o2. destruct (ComputeOwed_bounds b i g Hb Hi) as [Ho1 _]. fold o1 in Ho1.
destruct (decide (OneDec <= l)) as [H1|H1].
{ unfold o2. rewrite (ComputeOwed_full _ g l), (ComputeOwed_full b i l) by lia. lia. }
pose proof (ComputeOwed_left b i g Hb Hi ltac:(lia) ltac:(lia)) as E1. fold o1 in E1.
pose proof (ComputeOwed_left (b - o1) g l ltac:(lia) ltac:(lia) Hg ltac:(lia)) as E2. fold o2 in E2.
pose proof (ComputeOwed_left b i l Hb Hi ltac:(lia) ltac:(lia)) as E3.
set (b1 := b - o1) in *. set (c2 := b1 - o2) in *. set (c3 := b - (ComputeOwed b i l).1) in *.
pose proof (cdiv_spec (b * (OneDec - g)) (OneDec - i) ltac:(lia)) as S1. rewrite <- E1 in S1.
pose proof (cdiv_spec (b1 * (OneDec - l)) (OneDec - g) ltac:(lia)) as S2. rewrite <- E2 in S2.
pose proof (cdiv_spec (b * (OneDec - l)) (OneDec - i) ltac:(lia)) as S3. rewrite <- E3 in S3.
set (x := OneDec - i) in *. set (y := OneDec - g) in *. set (z := OneDec - l) in *.
assert (Hx : 0 < z <= y ∧ y <= x) by (unfold x, y, z; lia). clear E1 E2 E3.
assert (L1 : b * z <= c2 * x).
{ assert (b * y * z <= c2 * y * x) by nia. nia. }
assert (L2 : (c2 - 2) * x < b * z).
{ assert (H2 : (c2 - 1) * y * x < b1 * z * x) by nia.
  assert (H3 : b1 * x * z < (b * y + x) * z) by nia. assert (H4 : x * z <= x * y) by nia.
  assert ((c2 - 1) * x * y < (b * z + x) * y) by nia. nia. }
assert (c3 <= c2 <= c3 + 1) by nia. unfold c2, c3, b1 in *. lia.
Qed.

(** when a holder claims does not change what it gets: claiming along the way
    pays at most one liao less per extra claim than claiming once, never more, and
    once the index reaches 1 every ATOX has been converted to exactly one ATOS. *)
Theorem claim_timing_independent b i gs last :
  0 <= b → 0 <= i → i < OneDec →
  StronglySorted Z.le (i :: gs ++ [last]) → Forall (fun g => g < OneDec) gs →
  let total := claims b i (gs ++ [last]) in
  let once := (ComputeOwed b i last).1 in
  total <= once <= total + Z.of_nat (length gs) ∧ (OneDec <= last → total = b).
Proof.
revert b i. induction gs as [|g gs IH]; intros b i Hb Hi H1 Hs Hlt total once.
- simpl in total. subst total. rewrite Z.add_0_r. fold once. simpl. split; [lia|].
  intros. by apply ComputeOwed_full.
- apply StronglySorted_inv in Hs as [Hs Hall]. apply Forall_cons in Hlt as [Hg Hlt].
  rewrite <- app_comm_cons in Hs, Hall. pose proof Hall as Hall'. apply Forall_cons in Hall' as [Hig _].
  assert (Hgl : g <= last).
  { apply StronglySorted_inv in Hs as [_ Hf]. rewrite Forall_app in Hf. destruct Hf as [_ Hf].
    by inversion Hf. }
  destruct (two_claims b i g last Hb Hi Hig Hg Hgl) as [T1 T2].
  destruct (ComputeOwed_bounds b i g Hb Hi) as [Ho _].
  assert (Hb' : 0 <= b - (ComputeOwed b i g).1) by lia. assert (Hg0 : 0 <= g) by (transitivity i; done).
  destruct (IH (b - (ComputeOwed b i g).1) g Hb' Hg0 Hg Hs Hlt) as [I1 I2].
  cbv zeta in T1, I1, I2. unfold total, once. clear total once. rewrite <- app_comm_cons. cbn [claims length].
  rewrite Nat2Z.inj_succ. split; [lia|]. intros Hone. rewrite I2 by done. lia.
Qed.

(** ** Releases *)

(** The index and remainder after a sequence of releases. *)
Definition releases (cap : Z) (st : Dec * Z) (amounts : list Z) : result (Dec * Z) :=
  foldl (fun acc amount =>
    '(index, rem) ← acc; '(delta, rem) ← ComputeIndexDelta amount rem cap; Ok (index + delta, rem)) (Ok st) amounts.

Lemma ComputeIndexDelta_spec amount rem cap delta rem' :
  ComputeIndexDelta amount rem cap = Ok (delta, rem') →
  cap * delta + rem' = amount * IndexPrecision + rem ∧ 0 <= rem' < cap ∧ 0 <= delta.
Proof.
unfold ComputeIndexDelta. cbv zeta. intros H. inv_ok. boolP. unfold IndexPrecision in *.
rewrite Z.quot_div_nonneg by lia. pose proof (Z.div_mod (amount * 10 ^ 18 + rem) cap ltac:(lia)).
pose proof (Z.mod_pos_bound (amount * 10 ^ 18 + rem) cap ltac:(lia)).
pose proof (Z.div_pos (amount * 10 ^ 18 + rem) cap ltac:(lia) ltac:(lia)). lia.
Qed.

(** no liao released to the pool is ever lost to rounding: after any sequence
    of releases the index times the supply cap, plus the remainder carried, is
    exactly the total released, and the remainder stays below one index tick. *)
Theorem releases_conserve cap st amounts :
  0 <= st.2 < cap → Forall (fun x => 0 <= x) amounts →
  ∃ st', releases cap st amounts = Ok st' ∧
    cap * st'.1 + st'.2 = cap * st.1 + st.2 + sumZ amounts * IndexPrecision ∧
    0 <= st'.2 < cap ∧ st.1 <= st'.1.
Proof.
revert st. induction amounts as [|a amounts IH]; intros [i r] Hr F; simpl in *.
- exists (i, r). split; [done|]. change (sumZ []) with 0. cbn [fst snd]. lia.
- apply Forall_cons in F as [Ha F]. unfold releases. simpl.
  assert (Hok : ∃ d r', ComputeIndexDelta a r cap = Ok (d, r')).
  { unfold ComputeIndexDelta. rewrite (proj2 (Z.leb_le 0 a)), (proj2 (Z.ltb_lt 0 cap)), (proj2 (Z.leb_le 0 r)) by lia. eauto. }
  destruct Hok as (d & r' & E). rewrite E. simpl. apply ComputeIndexDelta_spec in E as (E1 & E2 & E3).
  destruct (IH (i + d, r') E2 F) as ([i' r''] & H1 & H2 & H3 & H4). exists (i', r''). simpl in *.
  change (sumZ (a :: amounts)) with (a + sumZ amounts). split_and!; try done; lia.
Qed.
End timing.

(** ** The transfer fee *)

(** the transfer fee cannot be avoided by splitting a transfer: the fees of the
    parts add up to at least the fee of the whole, and every fee is the exact
    percentage rounded up. *)
Theorem fee_no_split_evasion bps parts :
  0 <= bps → Forall (fun x => 0 <= x) parts →
  let fee := ComputeTransferFee (sumZ parts) bps in
  sumZ parts * bps <= fee * BpsDenominator < sumZ parts * bps + BpsDenominator ∧
  fee <= sumZ (map (fun x => ComputeTransferFee x bps) parts).
Proof.
intros Hb F fee. pose proof (sumZ_nonneg parts F) as Hs. unfold fee. rewrite ComputeTransferFee_cdiv by done.
pose proof (cdiv_spec (sumZ parts * bps) BpsDenominator ltac:(done)) as Hc.
assert (Hge : sumZ parts * bps <= sumZ (map (fun x => ComputeTransferFee x bps) parts) * BpsDenominator).
{ clear fee Hs Hc. induction F as [|x parts Hx F IH]; simpl; [lia|].
  rewrite ComputeTransferFee_cdiv by done. pose proof (cdiv_spec (x * bps) BpsDenominator ltac:(done)).
  fold (sumZ parts). fold (sumZ (map (fun x => ComputeTransferFee x bps) parts)). unfold BpsDenominator in *. lia. }
unfold BpsDenominator in *. lia.
Qed.

Lemma walkBack_stop fuel balance bps a :
  a + ComputeTransferFee a bps <= balance → walkBack fuel balance bps a = a.
Proof. intros H. destruct fuel; simpl; [done|]. rewrite (proj2 (Z.ltb_ge _ _) H), andb_false_r. done. Qed.

(** [MaxSendableWithFee] is the largest amount a balance covers together with
    an on-top fee; the walk back never takes a step. *)
Theorem MaxSendable_maximal balance bps :
  0 <= balance → 0 <= bps →
  let a := MaxSendableWithFee balance bps in
  0 <= a ∧ a + ComputeTransferFee a bps <= balance ∧
  ∀ a', a < a' → balance < a' + ComputeTransferFee a' bps.
Proof.
intros HB Hb. assert (Hle : ∀ x, 0 <= x → (x + ComputeTransferFee x bps <= balance ↔
    x * (BpsDenominator + bps) <= balance * BpsDenominator)).
{ intros x Hx. rewrite ComputeTransferFee_cdiv by done.
  pose proof (cdiv_spec (x * bps) BpsDenominator ltac:(done)). unfold BpsDenominator in *. nia. }
unfold MaxSendableWithFee. destruct (0 <? balance) eqn:E0; boolP; cbn [negb].
2:{ assert (balance = 0) as -> by lia. simpl. split; [lia|]. split; [unfold ComputeTransferFee; by destruct (_ =? _)|].
  intros a' Ha. apply Z.nle_gt. rewrite Hle by lia. unfold BpsDenominator. nia. }
destruct (bps =? 0) eqn:E1; boolP.
{ subst bps. simpl. split; [lia|]. unfold ComputeTransferFee. simpl. split; [lia|]. intros; lia. }
rewrite Z.quot_div_nonneg by (unfold BpsDenominator in *; lia).
set (a := balance * BpsDenominator / (BpsDenominator + bps)).
assert (Ha : 0 <= a) by (apply Z.div_pos; unfold BpsDenominator; lia).
pose proof (Z.div_mod (balance * BpsDenominator) (BpsDenominator + bps) ltac:(unfold BpsDenominator; lia)) as Hd.
pose proof (Z.mod_pos_bound (balance * BpsDenominator) (BpsDenominator + bps) ltac:(unfold BpsDenominator; lia)) as Hm.
fold a in Hd. assert (Hf : a + ComputeTransferFee a bps <= balance) by (apply Hle; [done|nia]).
rewrite walkBack_stop by done. cbv zeta. rewrite (proj2 (Z.ltb_ge a 0) Ha). split_and!; [done|done|].
intros a' Ha'. apply Z.nle_gt. rewrite Hle by lia. nia.
Qed.

(** ** Witnesses *)
Lemma claim_timing_independent_witness :
  claims (D := bankers_dec) 100 0 [10 ^ 17; 5 * 10 ^ 17; OneDec] = 100.
Proof.
refine (proj2 (claim_timing_independent (D := bankers_dec) (DL := bankers_dec_laws) 100 0
  [10 ^ 17; 5 * 10 ^ 17] OneDec _ _ _ _ _) _); unfold OneDec, precision; try lia;
  repeat constructor; lia.
Defined.

Lemma releases_conserve_witness :
  ∃ st', releases 7 (0, 0) [1; 1; 5] = Ok st' ∧ 7 * st'.1 + st'.2 = 7 * IndexPrecision.
Proof.
destruct (releases_conserve 7 (0, 0) [1; 1; 5]) as (st' & H1 & H2 & _); [simpl; lia|repeat constructor; lia|].
exists st'. split; [exact H1|exact H2].
Defined.

Lemma fee_no_split_evasion_witness :
  ComputeTransferFee 10 1000 <= sumZ (map (fun x => ComputeTransferFee x 1000) [3; 3; 4]) ∧
  sumZ (map (fun x => ComputeTransferFee x 1000) [3; 3; 4]) = 3.
Proof.
split; [|reflexivity].
refine (proj2 (fee_no_split_evasion 1000 [3; 3; 4] _ _)); [lia|repeat constructor; lia].
Defined.

Lemma MaxSendable_maximal_witness :
  MaxSendableWithFee 100 1000 = 90 ∧ 100 < 91 + ComputeTransferFee 91 1000.
Proof.
split; [reflexivity|]. refine (proj2 (proj2 (MaxSendable_maximal 100 1000 _ _)) 91 _); [lia|lia|reflexivity].
Defined.
