(* ===== verification/AtoxKeeper.v ===== *)
(** * x/atox/keeper: settlement, payouts, minting, the sweep

    Models src/x/atox/keeper/ (settle.go, keeper.go, send_restriction.go,
    abci.go, msg_server.go, genesis.go, grpc_query.go).  A store key under the
    account prefix is represented by what follows the prefix byte, the address.
    Handlers take the pair of the bank state and the module's store and return an
    outcome with the pair they leave behind, on errors too.

    The send restriction re-enters the bank: settling burns ATOX by a send, which
    runs the restriction again.  The Go code stops the recursion with a flag on
    the context; here the body of the restriction is [restrict], parameterised by
    the settlement it calls, and the nested send uses it with the flag set. *)

From stdpp Require Import gmap strings list sorting.
From Stdlib Require Import ZArith Lia.
From S2P Require Import Prelude SdkMath Bank AtoxIndex.

Open Scope Z_scope.

(** ** Store and collaborators *)
Record AtoxStore := mkAtoxStore {
  sParams : option Params;
  sGlobalState : option GlobalState;
  sAccounts : gmap string AtoxAccount;
  sScanCursor : option string;
  sSweptIndex : option Dec;
}.

Definition emptyAtoxStore : AtoxStore := mkAtoxStore None None ∅ None None.

Record Keeper := mkKeeper {
  (** [accountKeeper.GetAccount]: [None] when there is no such account, else
      whether it is a module account *)
  GetAccount : addr → option bool;
  (** [GetAllChannels] as (port, channel); [None] is a nil channel keeper *)
  channelKeeper : option (list (string * string));
  GetEscrowAddress : string → string → addr;
  AccAddressFromBech32 : string → option addr;
  authority : string;
  baseDenom : denom;
  atoxDenom : denom;
}.

Definition GetParams (s : AtoxStore) : Params := default DefaultParams (sParams s).
Definition SetParams (s : AtoxStore) (p : Params) : result AtoxStore :=
  _ ← Params_Validate p; Ok (mkAtoxStore (Some p) (sGlobalState s) (sAccounts s) (sScanCursor s) (sSweptIndex s)).

Definition GetGlobalState (s : AtoxStore) : GlobalState := default DefaultGlobalState (sGlobalState s).
Definition SetGlobalState (s : AtoxStore) (g : GlobalState) : AtoxStore :=
  mkAtoxStore (sParams s) (Some g) (sAccounts s) (sScanCursor s) (sSweptIndex s).

(** The record of an address and whether it was stored. *)
Definition getAtoxAccount (s : AtoxStore) (a : addr) : AtoxAccount * bool :=
  match sAccounts s !! a with
  | Some acct => (acct, true)
  | None => (NewAtoxAccount a ZeroDec, false)
  end.
Definition GetAtoxAccount (s : AtoxStore) (a : addr) : AtoxAccount := (getAtoxAccount s a).1.
Definition SetAtoxAccount (s : AtoxStore) (acct : AtoxAccount) : AtoxStore :=
  mkAtoxStore (sParams s) (sGlobalState s) (<[Address acct := acct]> (sAccounts s)) (sScanCursor s) (sSweptIndex s).

Definition accountKeys (s : AtoxStore) : list string := merge_sort string_le (elements (dom (sAccounts s))).
Definition IterateAccounts (s : AtoxStore) : list AtoxAccount := 
  omap (fun a => sAccounts s !! a) (accountKeys s).

Definition GetScanCursor (s : AtoxStore) : string := default ""%string (sScanCursor s).
Definition SetScanCursor (s : AtoxStore) (cursor : string) : AtoxStore :=
  mkAtoxStore (sParams s) (sGlobalState s) (sAccounts s)
    (if decide (cursor = ""%string) then None else Some cursor) (sSweptIndex s).
Definition GetSweptIndex (s : AtoxStore) : Dec := default ZeroDec (sSweptIndex s).
Definition SetSweptIndex (s : AtoxStore) (i : Dec) : AtoxStore :=
  mkAtoxStore (sParams s) (sGlobalState s) (sAccounts s) (sScanCursor s) (Some i).

(** ** Field updates *)
Definition with_Index (i : Dec) (a : AtoxAccount) : AtoxAccount :=
  mkAtoxAccount (Address a) i (Pending a) (TotalClaimed a).
Definition with_Pending (x : Z) (a : AtoxAccount) : AtoxAccount :=
  mkAtoxAccount (Address a) (Index a) x (TotalClaimed a).
Definition with_TotalClaimed (x : Z) (a : AtoxAccount) : AtoxAccount :=
  mkAtoxAccount (Address a) (Index a) (Pending a) x.

Section keeper.
Context {B : Type} {bank : BankOps B} {D : LegacyDecOps}.
Implicit Types (k : Keeper) (b : B) (s : AtoxStore) (w : B * AtoxStore) (a : addr).

Definition AtoxBalance k b a : Z := GetBalance b a (atoxDenom k).
Definition AtoxSupply k b : Z := GetSupply b (atoxDenom k).
Definition ExchangePoolAddress : addr := ModuleAddress ExchangePoolName.
Definition ExchangePoolBalance k b : Z := GetBalance b ExchangePoolAddress (baseDenom k).

Definition isModuleAccount k a : bool :=
  match GetAccount k a with None => false | Some isModule => isModule end.

(** ** The send restriction *)
Definition rejectIBCEscrow k (to : addr) : result unit :=
  match channelKeeper k with
  | None => Ok tt
  | Some chs =>
      if existsb (fun ch => bool_decide (to = GetEscrowAddress k ch.1 ch.2)) chs
      then Err ErrAtoxCannotLeave else Ok tt
  end.

Definition restrict k (settle : B * AtoxStore → addr → Z → result Z * (B * AtoxStore)) (feeInProgress : bool)
    : Restriction B AtoxStore := fun w from to amt =>
  let moved := AmountOf amt (atoxDenom k) in
  if negb (0 <? moved) then (Ok to, w)
  else
    match rejectIBCEscrow k to with
    | Err e => (Err e, w)
    | Ok _ =>
        if decide (from = to) then (Ok to, w)
        else if feeInProgress then (Ok to, w)
        else
          let fromPre := AtoxBalance k w.1 from + moved in
          let toPre := AtoxBalance k w.1 to in
          match settle w from fromPre with
          | (Err e, w) => (Err e, w)
          | (Ok _, w) =>
              match settle w to toPre with
              | (Err e, w) => (Err e, w)
              | (Ok _, w) => (Ok to, w)
              end
          end
    end.

(** With the flag set no settlement runs. *)
Definition nestedRestriction k : Restriction B AtoxStore := restrict k (fun w _ _ => (Ok 0, w)) true.

(** ** Settlement *)
Definition burnAtoxFor k w a (amount : Z) : result unit * (B * AtoxStore) :=
  let cs := NewCoins (atoxDenom k) amount in
  match SendCoinsFromAccountToModule (nestedRestriction k) w a AtoxModuleName cs with
  | (Err e, w) => (Err e, w)
  | (Ok _, (b, s)) =>
      match BurnCoins b AtoxModuleName cs with
      | Err e => (Err e, (b, s))
      | Ok b => (Ok tt, (b, s))
      end
  end.

(** Book [owed] against [acct], whose ATOX has just been burned. *)
Definition bookOwed s (gs : GlobalState) (acct : AtoxAccount) (owed burn : Z) : AtoxStore :=
  let s := SetAtoxAccount s (with_Index (GlobalIndex gs) (with_Pending (Pending acct + owed) acct)) in
  SetGlobalState s
    (mkGlobalState (GlobalIndex gs) (IndexRemainder gs) (TotalReleasedToPool gs) (TotalPending gs + owed)
       (TotalPaidOut gs) (TotalFeeBurned gs) (TotalBurned gs + burn)).

Definition SettleAccountWithBalance k w a (atoxBalance : Z) : result Z * (B * AtoxStore) :=
  if isModuleAccount k a then (Ok 0, w)
  else
    let '(b, s) := w in
    let gs := GetGlobalState s in
    let '(acct, found) := getAtoxAccount s a in
    if GlobalIndex gs <? Index acct then (Ok 0, (b, SetAtoxAccount s (with_Index (GlobalIndex gs) acct)))
    else
      let '(owed, burn) := ComputeOwed atoxBalance (Index acct) (GlobalIndex gs) in
      if negb (0 <? owed) then
        if negb found || negb (Index acct =? GlobalIndex gs)
        then (Ok 0, (b, SetAtoxAccount s (with_Index (GlobalIndex gs) acct)))
        else (Ok 0, w)
      else
        match (if 0 <? burn then burnAtoxFor k w a burn else (Ok tt, w)) with
        | (Err e, w) => (Err e, w)
        | (Ok _, (b, s)) => (Ok owed, (b, bookOwed s gs acct owed burn))
        end.

Definition SettleAccount k w a : result Z * (B * AtoxStore) :=
  SettleAccountWithBalance k w a (AtoxBalance k w.1 a).

(** The hook registered with the bank. *)
Definition SendRestriction k : Restriction B AtoxStore := restrict k (SettleAccountWithBalance k) false.

Definition Claimable k w a : Z * Z :=
  let '(b, s) := w in
  let acct := GetAtoxAccount s a in
  if isModuleAccount k a then (Pending acct, 0)
  else if GlobalIndex (GetGlobalState s) <=? Index acct then (Pending acct, 0)
  else (Pending acct, (ComputeOwed (AtoxBalance k b a) (Index acct) (GlobalIndex (GetGlobalState s))).1).

(** ** Funding and minting *)
Definition AddToExchangePool k w (fromModule : string) (amount : Z) : result unit * (B * AtoxStore) :=
  let params := GetParams w.2 in
  if negb (Enabled params) then (Err ErrAtoxDisabled, w)
  else if negb (0 <? amount) then (Err ErrInvalidAmount, w)
  else
    let gs := GetGlobalState w.2 in
    match ComputeIndexDelta amount (IndexRemainder gs) (SupplyCap params) with
    | Err e => (Err e, w)
    | Ok (delta, remainder) =>
        match SendCoinsFromModuleToModule (SendRestriction k) w fromModule ExchangePoolName
                (NewCoins (baseDenom k) amount) with
        | (Err e, w) => (Err e, w)
        | (Ok _, (b, s)) =>
            (Ok tt, (b, SetGlobalState s
              (mkGlobalState (GlobalIndex gs + delta) remainder (TotalReleasedToPool gs + amount)
                 (TotalPending gs) (TotalPaidOut gs) (TotalFeeBurned gs) (TotalBurned gs))))
        end
    end.

Definition MintedAgainstCap k w : Z := AtoxSupply k w.1 + TotalBurned (GetGlobalState w.2).
Definition AtoxSupplyCap s : Z := SupplyCap (GetParams s).
Definition AtoxEnabled s : bool := Enabled (GetParams s).

Definition MintAtox k w (recipient : addr) (amount : Z) : result unit * (B * AtoxStore) :=
  let params := GetParams w.2 in
  if negb (Enabled params) then (Err ErrAtoxDisabled, w)
  else if negb (0 <? amount) then (Err ErrInvalidAmount, w)
  else if SupplyCap params <? MintedAgainstCap k w + amount then (Err ErrSupplyCapReached, w)
  else
    match SettleAccountWithBalance k w recipient (AtoxBalance k w.1 recipient) with
    | (Err e, w) => (Err e, w)
    | (Ok _, (b, s)) =>
        let cs := NewCoins (atoxDenom k) amount in
        match MintCoins b AtoxModuleName cs with
        | Err e => (Err e, (b, s))
        | Ok b => SendCoinsFromModuleToAccount (SendRestriction k) (b, s) AtoxModuleName recipient cs
        end
    end.

Definition MintAtoxToModule k w (module : string) (amount : Z) : result unit * (B * AtoxStore) :=
  if negb (Enabled (GetParams w.2)) then (Err ErrAtoxDisabled, w)
  else if negb (0 <? amount) then (Err ErrInvalidAmount, w)
  else if SupplyCap (GetParams w.2) <? MintedAgainstCap k w + amount then (Err ErrSupplyCapReached, w)
  else
    let cs := NewCoins (atoxDenom k) amount in
    match MintCoins w.1 AtoxModuleName cs with
    | Err e => (Err e, w)
    | Ok b => SendCoinsFromModuleToModule (SendRestriction k) (b, w.2) AtoxModuleName module cs
    end.

(** ** Payout *)
Definition PayoutPending k w a (minPayout : Z) : result Z * (B * AtoxStore) :=
  match SettleAccount k w a with
  | (Err e, w) => (Err e, w)
  | (Ok _, (b, s)) =>
      let acct := GetAtoxAccount s a in
      let amount := Pending acct in
      if negb (0 <? amount) then (Ok 0, (b, s))
      else if (0 <? minPayout) && (amount <? minPayout) then (Ok 0, (b, s))
      else if ExchangePoolBalance k b <? amount then (Err ErrPoolInsolvent, (b, s))
      else
        match SendCoinsFromModuleToAccount (SendRestriction k) (b, s) ExchangePoolName a
                (NewCoins (baseDenom k) amount) with
        | (Err e, w) => (Err e, w)
        | (Ok _, (b, s)) =>
            let s := SetAtoxAccount s (with_TotalClaimed (TotalClaimed acct + amount) (with_Pending 0 acct)) in
            let gs := GetGlobalState s in
            if TotalPending gs <? amount then (Err (Plain "total_pending is below the payout"), (b, s))
            else
              (Ok amount, (b, SetGlobalState s
                (mkGlobalState (GlobalIndex gs) (IndexRemainder gs) (TotalReleasedToPool gs)
                   (TotalPending gs - amount) (TotalPaidOut gs + amount) (TotalFeeBurned gs) (TotalBurned gs))))
        end
  end.

Definition RecordFeeBurn s (fee : Z) : AtoxStore :=
  let gs := GetGlobalState s in
  SetGlobalState s
    (mkGlobalState (GlobalIndex gs) (IndexRemainder gs) (TotalReleasedToPool gs) (TotalPending gs)
       (TotalPaidOut gs) (TotalFeeBurned gs + fee) (TotalBurned gs)).

Definition TransferFeeBps s : Z := pTransferFeeBps (GetParams s).

(** ** The sweep *)

(** Up to [limit] account keys from the cursor, and whether more remain. *)
Definition collectSweepBatch s (limit : Z) : list string * bool :=
  let keys := filter (fun key => string_le (GetScanCursor s) key) (accountKeys s) in
  (take (Z.to_nat limit) keys, limit <? Z.of_nat (length keys)).

(** One key of the batch; an error is logged and the loop goes on. *)
Definition sweepKey k (minPayout : Z) w (key : string) : B * AtoxStore :=
  match AccAddressFromBech32 k key with
  | None => w
  | Some a => (PayoutPending k w a minPayout).2
  end.

(** Just after [key] in byte order. *)
Definition afterKey (key : string) : string := (key +:+ String Ascii.zero "")%string.

Definition EndBlocker k w : B * AtoxStore :=
  let params := GetParams w.2 in
  if negb (Enabled params) || (AutoSettlePerBlock params =? 0) then w
  else
    let globalIndex := GlobalIndex (GetGlobalState w.2) in
    let idle := bool_decide (GetScanCursor w.2 = ""%string) in
    if idle && (GetSweptIndex w.2 =? globalIndex) then w
    else
      let w := if idle then (w.1, SetSweptIndex w.2 globalIndex) else w in
      let '(keys, hasMore) := collectSweepBatch w.2 (AutoSettlePerBlock params) in
      let w := foldl (sweepKey k (MinAutoPayout params)) w keys in
      (w.1, SetScanCursor w.2 (if hasMore then afterKey (List.last keys ""%string) else ""%string)).

(** ** Messages, genesis, queries *)
Definition ClaimAtos k w (msg : MsgClaimAtos) : result Z * (B * AtoxStore) :=
  if negb (Enabled (GetParams w.2)) then (Err ErrAtoxDisabled, w)
  else
    match AccAddressFromBech32 k (Claimer msg) with
    | None => (Err (Plain "bech32"), w)
    | Some claimer =>
        match PayoutPending k w claimer 0 with
        | (Err e, w) => (Err e, w)
        | (Ok paid, w) => if negb (0 <? paid) then (Err ErrNothingToClaim, w) else (Ok paid, w)
        end
    end.

Definition UpdateParams k s (msg : MsgUpdateParams) : result AtoxStore :=
  guard! bool_decide (authority k = Authority msg) else Plain "unauthorized";
  guard! SupplyCap (uParams msg) =? SupplyCap (GetParams s) else Plain "supply_cap is immutable";
  SetParams s (uParams msg).

(** A panic of [InitGenesis] is an error here. *)
Definition InitGenesis (poolRegistered : bool) s (gs : GenesisState) : result AtoxStore :=
  guard! poolRegistered else Plain "module account not registered";
  s ← SetParams s (gsParams gs);
  let s := SetGlobalState s (gsGlobalState gs) in
  let s := foldl SetAtoxAccount s (gsAccounts gs) in
  let s := SetScanCursor s (gsScanCursor gs) in
  Ok (SetSweptIndex s (gsSweptIndex gs)).

Definition ExportGenesis s : GenesisState :=
  mkGenesisState (GetParams s) (GetGlobalState s) (IterateAccounts s) (GetScanCursor s) (GetSweptIndex s).

Inductive ClaimBlockedReason := module_disabled | module_account | nothing_to_claim | pool_insufficient.

(** [None]: the claim would succeed. *)
Definition claimStatus k w a (claimable : Z) : option ClaimBlockedReason :=
  if negb (Enabled (GetParams w.2)) then Some module_disabled
  else if isModuleAccount k a then Some module_account
  else if negb (0 <? claimable) then Some nothing_to_claim
  else if ExchangePoolBalance k w.1 <? claimable then Some pool_insufficient
  else None.

(** Unsettled, claimable, claim status, largest amount that can be sent. *)
Definition QueryAccount k w (address : string) : result (Z * Z * option ClaimBlockedReason * Z) :=
  match AccAddressFromBech32 k address with
  | None => Err (Plain "invalid argument")
  | Some a =>
      let '(pending, unsettled) := Claimable k w a in
      let claimable := pending + unsettled in
      let sendable := AtoxBalance k w.1 a - unsettled in
      Ok (unsettled, claimable, claimStatus k w a claimable, if sendable <? 0 then 0 else sendable)
  end.
End keeper.
