(* ===== verification/AtoxSolvency.v ===== *)
(** * x/atox: why the exchange pool can always pay

    The argument on balances and records, before any handler: [solvent] says that
    what has been booked plus what every holder could still settle is covered by
    the index, for every finite set of holders.  The share of a holder is a real
    number, [accrued]; settlement books its floor.  AtoxHandlers.v shows that the
    handlers perform these steps. *)

From stdpp Require Import gmap strings list.
From Stdlib Require Import ZArith Lia Reals Lra.
From S2P Require Import Prelude SdkMath Bank AtoxIndex AtoxKeeper.

Open Scope Z_scope.

(** ** Sums over finite sets of addresses *)
Section sums.
Local Open Scope R_scope.

Definition sumR (f : string → R) (X : gset string) : R := foldr Rplus 0 (map f (elements X)).

Lemma foldr_Rplus_perm (l l' : list R) : l ≡ₚ l' → foldr Rplus 0 l = foldr Rplus 0 l'.
Proof. induction 1; simpl; lra. Qed.

Lemma sumR_insert f X a : a ∉ X → sumR f ({[a]} ∪ X) = f a + sumR f X.
Proof.
intros Ha. unfold sumR. rewrite (foldr_Rplus_perm _ (map f (a :: elements X))); [done|].
apply Permutation_map. by apply elements_union_singleton.
Qed.

Lemma sumR_ext f g X : (∀ a, a ∈ X → f a = g a) → sumR f X = sumR g X.
Proof.
intros H. unfold sumR. f_equal. apply map_ext_in. intros a Ha. apply H.
by apply elem_of_elements, list_elem_of_In.
Qed.

Lemma sumR_le f g X : (∀ a, a ∈ X → f a <= g a) → sumR f X <= sumR g X.
Proof.
intros H. assert (Hl : ∀ a, a ∈ elements X → f a <= g a) by (intros a Ha; by apply H, elem_of_elements).
unfold sumR. revert Hl. generalize (elements X). induction l as [|a l IH]; intros Hl; simpl; [lra|].
assert (f a <= g a) by (apply Hl; set_solver). assert (foldr Rplus 0 (map f l) <= foldr Rplus 0 (map g l)); [|lra].
apply IH. intros. apply Hl. set_solver.
Qed.

Lemma sumR_nonneg f X : (∀ a, a ∈ X → 0 <= f a) → 0 <= sumR f X.
Proof.
intros H. transitivity (sumR (fun _ => 0) X); [|by apply sumR_le].
unfold sumR. generalize (elements X). induction l; simpl; lra.
Qed.

Lemma sumR_linear f g (x : R) X : sumR (fun a => f a + x * g a) X = sumR f X + x * sumR g X.
Proof. unfold sumR. generalize (elements X). induction l; simpl; lra. Qed.

(** The set with [a] added: its sum changes by [f a] at most once. *)
Lemma sumR_cases f X a :
  (a ∈ X ∧ ∃ Y, (a ∉ Y) ∧ X = ({[a]} ∪ Y) ∧ sumR f X = (f a + sumR f Y)) ∨
  ((a ∉ X) ∧ sumR f ({[a]} ∪ X) = (f a + sumR f X)).
Proof.
destruct (decide (a ∈ X)) as [Ha|Ha]; [left|right; split; [done|by apply sumR_insert]].
split; [done|]. exists (X ∖ {[a]}). assert (HX : X = {[a]} ∪ X ∖ {[a]}) by (by apply union_difference_singleton_L).
split_and!; [set_solver|done|]. rewrite HX at 1. apply sumR_insert. set_solver.
Qed.
End sums.

(** ** What a holder has accrued *)
Definition accrued (b i g : Z) : R := (IZR b * IZR (g - i) / IZR (OneDec - i))%R.

Section accrued_lemmas.
Local Open Scope R_scope.

Lemma accrued_nonneg b i g : (0 <= b)%Z → (i <= g)%Z → (i < OneDec)%Z → 0 <= accrued b i g.
Proof.
intros Hb Hi H1. unfold accrued. apply Rmult_le_pos.
- apply Rmult_le_pos; apply IZR_le; lia.
- left. apply Rinv_0_lt_compat, IZR_lt. lia.
Qed.

Lemma accrued_mono b b' i g :
  (b' <= b)%Z → (i <= g)%Z → (i < OneDec)%Z → accrued b' i g <= accrued b i g.
Proof.
intros Hb Hi H1. unfold accrued. apply Rmult_le_compat_r; [left; apply Rinv_0_lt_compat, IZR_lt; lia|].
apply Rmult_le_compat_r; apply IZR_le; lia.
Qed.

Lemma accrued_zero b g : accrued b g g = 0.
Proof. unfold accrued. rewrite Z.sub_diag. lra. Qed.

Lemma accrued_no_balance i g : accrued 0 i g = 0.
Proof. unfold accrued. lra. Qed.

(** A settlement books at most what accrued. *)
Lemma owed_le_accrued {D : LegacyDecOps} {DL : LegacyDecLaws D} b i g :
  (0 <= b)%Z → (0 <= i <= g)%Z → (g < OneDec)%Z → IZR (ComputeOwed b i g).1 <= accrued b i g.
Proof.
intros Hb Hi Hg. rewrite ComputeOwed_spec by lia. cbn [fst]. destruct (i <? g)%Z eqn:E; boolP.
2:{ apply accrued_nonneg; lia. }
unfold accrued. rewrite <- mult_IZR. set (n := (b * (g - i))%Z). set (r := (OneDec - i)%Z).
assert (Hr : (0 < r)%Z) by (unfold r; lia). transitivity (IZR (n / r)%Z); [apply IZR_le; lia|].
apply (Rmult_le_reg_r (IZR r)); [by apply IZR_lt|].
unfold Rdiv. rewrite Rmult_assoc, Rinv_l, Rmult_1_r, <- mult_IZR by (apply not_0_IZR; lia).
apply IZR_le. pose proof (Z.mul_div_le n r Hr). lia.
Qed.

(** When the index advances, the undrawn part shrinks in proportion. *)
Lemma accrued_advance b i g g' :
  (i <= g)%Z → (g < OneDec)%Z →
  accrued b i g' = accrued b i g + IZR (g' - g) / IZR (OneDec - g) * (IZR b - accrued b i g).
Proof.
intros Hi Hg. unfold accrued. rewrite !minus_IZR.
assert (IZR i < IZR OneDec) by (apply IZR_lt; lia). assert (IZR g < IZR OneDec) by (apply IZR_lt; lia).
field. lra.
Qed.
End accrued_lemmas.

(** ** The solvency invariant *)
Definition booked (g : GlobalState) : Z := TotalPending g + TotalPaidOut g.
Definition indexOf (s : AtoxStore) (a : addr) : Dec := Index (GetAtoxAccount s a).
Definition pendingOf (s : AtoxStore) (a : addr) : Z := Pending (GetAtoxAccount s a).

(** Every finite set of balances fits the supply. *)
Definition covers (bal : addr → Z) (sup : Z) : Prop := ∀ X, (sumR (fun a => IZR (bal a)) X <= IZR sup)%R.

Record solvent (isMod : addr → bool) (cap : Z) (bal : addr → Z) (sup pool : Z) (s : AtoxStore) : Prop := {
  so_keyed a x : sAccounts s !! a = Some x → Address x = a;
  so_params : SupplyCap (GetParams s) = cap;
  so_bal a : 0 <= bal a;
  so_covers : covers bal sup;
  (** issued, counting what conversion burned, within the cap *)
  so_cap : sup + TotalBurned (GetGlobalState s) <= cap;
  (** one ATOX burned per ATOS booked *)
  so_burned : TotalBurned (GetGlobalState s) = booked (GetGlobalState s);
  so_paid : 0 <= TotalPaidOut (GetGlobalState s);
  so_pending a : 0 <= pendingOf s a;
  so_pendings X : (sumR (fun a => IZR (pendingOf s a)) X <= IZR (TotalPending (GetGlobalState s)))%R;
  so_index a : 0 <= indexOf s a <= GlobalIndex (GetGlobalState s);
  (** the index is the total released, up to the remainder carried *)
  so_released : cap * GlobalIndex (GetGlobalState s) + IndexRemainder (GetGlobalState s) =
    TotalReleasedToPool (GetGlobalState s) * OneDec;
  so_remainder : 0 <= IndexRemainder (GetGlobalState s) < cap;
  (** booked, plus what any holders could still settle, is covered by the index *)
  so_accrued X : GlobalIndex (GetGlobalState s) < OneDec → (∀ a, a ∈ X → isMod a = false) →
    (IZR (booked (GetGlobalState s)) +
       sumR (fun a => accrued (bal a) (indexOf s a) (GlobalIndex (GetGlobalState s))) X <=
     IZR (cap * GlobalIndex (GetGlobalState s)) / IZR OneDec)%R;
  (** the pool holds what was released and not paid out *)
  so_pool : TotalReleasedToPool (GetGlobalState s) <= pool + TotalPaidOut (GetGlobalState s);
}.

Lemma sumR_empty f : sumR f ∅ = 0%R.
Proof. unfold sumR. by rewrite elements_empty. Qed.

Section covers.
Implicit Types (bal : addr → Z).

(** Changing one balance together with the supply keeps the supply covered. *)
Lemma sumR_at bal c x X :
  sumR (fun a => IZR (bal a + at_addr c a x)) X =
  (sumR (fun a => IZR (bal a)) X + if decide (c ∈ X) then IZR x else 0)%R.
Proof.
destruct (sumR_cases (fun a => IZR (bal a + at_addr c a x)) X c) as [(Hc & Y & HY & -> & ->)|[Hc _]].
- rewrite decide_True by done. rewrite sumR_insert by done. rewrite at_addr_eq, plus_IZR.
  rewrite (sumR_ext _ (fun a => IZR (bal a))); [lra|]. intros a Ha. rewrite at_addr_ne, Z.add_0_r by set_solver. done.
- rewrite decide_False by done. rewrite Rplus_0_r. apply sumR_ext. intros a Ha.
  rewrite at_addr_ne, Z.add_0_r by set_solver. done.
Qed.

Lemma covers_shift bal sup c x bal' :
  covers bal sup → 0 <= bal c + x → (∀ a, bal' a = bal a + at_addr c a x) → covers bal' (sup + x).
Proof.
intros H Hx He X. rewrite (sumR_ext _ (fun a => IZR (bal a + at_addr c a x))) by (intros; by rewrite He).
rewrite sumR_at, plus_IZR. apply IZR_le in Hx. rewrite plus_IZR in Hx.
pose proof (H X) as HX. pose proof (H ({[c]} ∪ X)) as HX'.
destruct (decide (c ∈ X)); [lra|]. rewrite sumR_insert in HX' by done. lra.
Qed.

Lemma covers_move bal sup from to x bal' :
  covers bal sup → 0 <= x <= bal from → (∀ a, 0 <= bal a) →
  (∀ a, bal' a = bal a - at_addr from a x + at_addr to a x) → covers bal' sup.
Proof.
intros H Hx Hnn He. replace sup with (sup + - x + x) by lia.
apply (covers_shift (fun a => bal a + at_addr from a (- x)) _ to x).
- apply (covers_shift bal sup from (- x)); [done|lia|done].
- specialize (Hnn to). unfold at_addr. case_decide; subst; lia.
- intros a. rewrite He. unfold at_addr. repeat case_decide; lia.
Qed.

End covers.

Section solvency.
Context (isMod : addr → bool) (cap : Z).
Local Abbreviation solv := (solvent isMod cap).
Implicit Types (bal : addr → Z) (s : AtoxStore).

Lemma covers_nonneg bal sup : covers bal sup → 0 <= sup.
Proof. intros H. specialize (H ∅). rewrite sumR_empty in H. apply le_IZR. simpl. lra. Qed.

(** The books never exceed what was released, and the pool covers them. *)
Lemma solvent_booked bal sup pool s :
  solv bal sup pool s →
  booked (GetGlobalState s) <= TotalReleasedToPool (GetGlobalState s) ∧ TotalPending (GetGlobalState s) <= pool.
Proof.
intros S. pose proof (so_released _ _ _ _ _ _ S) as Hr. pose proof (so_remainder _ _ _ _ _ _ S) as Hm.
pose proof (so_pool _ _ _ _ _ _ S) as Hp. set (g := GetGlobalState s) in *.
assert (Hb : booked g <= TotalReleasedToPool g); [|unfold booked in *; lia].
assert (HP : 0 < OneDec) by apply precision_pos.
destruct (decide (GlobalIndex g < OneDec)) as [H1|H1].
- pose proof (so_accrued _ _ _ _ _ _ S ∅ H1 ltac:(set_solver)) as Ha. fold g in Ha. rewrite sumR_empty, Rplus_0_r in Ha.
  assert (HR : (0 < IZR OneDec)%R) by (by apply IZR_lt).
  apply (Rmult_le_compat_r (IZR OneDec)) in Ha; [|lra]. unfold Rdiv in Ha.
  rewrite Rmult_assoc, Rinv_l, Rmult_1_r, <- mult_IZR in Ha by lra. apply le_IZR in Ha.
  apply (Zmult_le_reg_r _ _ OneDec); lia.
- pose proof (so_cap _ _ _ _ _ _ S) as Hc. rewrite (so_burned _ _ _ _ _ _ S) in Hc. fold g in Hc.
  pose proof (covers_nonneg _ _ (so_covers _ _ _ _ _ _ S)). apply (Zmult_le_reg_r _ _ OneDec); nia.
Qed.

Lemma pending_le bal sup pool s a : solv bal sup pool s → pendingOf s a <= TotalPending (GetGlobalState s).
Proof.
intros S. pose proof (so_pendings _ _ _ _ _ _ S ({[a]} ∪ ∅)) as H. rewrite sumR_insert, sumR_empty in H by set_solver.
apply le_IZR. lra.
Qed.

(** An address whose balance may change: it is not accruing anything. *)
Definition pinned s a : Prop := isMod a = true ∨ indexOf s a = GlobalIndex (GetGlobalState s).

Lemma solvent_balances bal sup pool s bal' sup' :
  solv bal sup pool s → (∀ a, bal' a <= bal a ∨ pinned s a) → (∀ a, 0 <= bal' a) → covers bal' sup' →
  sup' + TotalBurned (GetGlobalState s) <= cap → solv bal' sup' pool s.
Proof.
intros [] Hpin Hnn Hcov Hcap. split; try done. intros X Hg HX.
specialize (so_accrued0 X Hg HX).
assert (Hle : (sumR (fun a => accrued (bal' a) (indexOf s a) (GlobalIndex (GetGlobalState s))) X <=
  sumR (fun a => accrued (bal a) (indexOf s a) (GlobalIndex (GetGlobalState s))) X)%R); [|lra].
apply sumR_le. intros a Ha. specialize (so_index0 a). destruct (Hpin a) as [Hle|[Hm|Hi]].
- apply accrued_mono; lia.
- by rewrite (HX a Ha) in Hm.
- rewrite Hi, !accrued_zero. lra.
Qed.

(** ** Settlement *)
Definition settledGlobal (g : GlobalState) (owed : Z) : GlobalState :=
  mkGlobalState (GlobalIndex g) (IndexRemainder g) (TotalReleasedToPool g) (TotalPending g + owed)
    (TotalPaidOut g) (TotalFeeBurned g) (TotalBurned g + owed).

(** [s'] is [s] with [a] settled for [owed]. *)
Record settled s a (owed : Z) s' : Prop := {
  st_params : GetParams s' = GetParams s;
  st_cursor : sScanCursor s' = sScanCursor s;
  st_swept : sSweptIndex s' = sSweptIndex s;
  st_keyed x acct : sAccounts s' !! x = Some acct → Address acct = x;
  st_global : GetGlobalState s' = settledGlobal (GetGlobalState s) owed;
  st_account x : GetAtoxAccount s' x =
    if decide (x = a)
    then with_Index (GlobalIndex (GetGlobalState s)) (with_Pending (pendingOf s a + owed) (GetAtoxAccount s a))
    else GetAtoxAccount s x;
}.

Lemma settled_pending s a owed s' x : settled s a owed s' → pendingOf s' x = pendingOf s x + at_addr a x owed.
Proof. intros S. unfold pendingOf. rewrite (st_account _ _ _ _ S). unfold at_addr. case_decide; subst; simpl; [done|lia]. Qed.

Lemma settled_index s a owed s' x :
  settled s a owed s' → indexOf s' x = if decide (x = a) then GlobalIndex (GetGlobalState s) else indexOf s x.
Proof. intros S. unfold indexOf. rewrite (st_account _ _ _ _ S). by case_decide. Qed.

Lemma settled_pinned s a owed s' : settled s a owed s' → pinned s' a.
Proof. intros S. right. rewrite (settled_index _ _ _ _ _ S), decide_True, (st_global _ _ _ _ S); done. Qed.

Lemma pinned_settled s a owed s' c : settled s a owed s' → pinned s c → pinned s' c.
Proof.
intros S [H|H]; [by left|]. right. rewrite (settled_index _ _ _ _ _ S), (st_global _ _ _ _ S). simpl. by case_decide.
Qed.

Section settle.
Context {D : LegacyDecOps} {DL : LegacyDecLaws D}.

Definition owedOf bal s a : Z := (ComputeOwed (bal a) (indexOf s a) (GlobalIndex (GetGlobalState s))).1.

Lemma owedOf_bounds bal sup pool s a : solv bal sup pool s → 0 <= owedOf bal s a <= bal a.
Proof.
intros S. apply ComputeOwed_bounds; [apply S|]. pose proof (so_index _ _ _ _ _ _ S a). lia.
Qed.

Lemma solvent_settle bal sup pool s a bal' s' :
  solv bal sup pool s → isMod a = false →
  settled s a (owedOf bal s a) s' → (∀ x, bal' x = bal x + at_addr a x (- owedOf bal s a)) →
  solv bal' (sup - owedOf bal s a) pool s'.
Proof.
intros S Hm St Hb. pose proof (owedOf_bounds _ _ _ _ a S) as Ho. set (o := owedOf bal s a) in *.
pose proof (st_global _ _ _ _ St) as Hg. pose proof S as [].
assert (Hbk : booked (GetGlobalState s') = booked (GetGlobalState s) + o) by (rewrite Hg; unfold booked; simpl; lia).
split; try (rewrite Hg; simpl); try done.
- apply St.
- by rewrite (st_params _ _ _ _ St).
- intros x. rewrite Hb. unfold at_addr. specialize (so_bal0 x). case_decide; subst; lia.
- rewrite <- Z.add_opp_r. apply (covers_shift bal sup a); [done|lia|done].
- lia.
- unfold booked in *. simpl. lia.
- intros x. rewrite (settled_pending _ _ _ _ _ St). specialize (so_pending0 x). unfold at_addr. case_decide; lia.
- intros X. rewrite (sumR_ext _ (fun x => IZR (pendingOf s x + at_addr a x o))) by (intros; by rewrite (settled_pending _ _ _ _ _ St)).
  rewrite sumR_at, plus_IZR. pose proof (IZR_le _ _ (proj1 Ho)). specialize (so_pendings0 X). case_decide; lra.
- intros x. rewrite (settled_index _ _ _ _ _ St). specialize (so_index0 x). case_decide; lia.
- intros X HG HX. fold (booked (settledGlobal (GetGlobalState s) o)). rewrite <- Hg, Hbk, plus_IZR.
  pose proof (owed_le_accrued (bal a) (indexOf s a) (GlobalIndex (GetGlobalState s)) (so_bal0 a) (so_index0 a) HG) as Hoa.
  change (ComputeOwed _ _ _).1 with o in Hoa.
  set (f := fun x => accrued (bal x) (indexOf s x) (GlobalIndex (GetGlobalState s))) in *.
  assert (Hf : ∀ x, x ≠ a → accrued (bal' x) (indexOf s' x) (GlobalIndex (GetGlobalState s)) = f x).
  { intros x Hx. unfold f. rewrite Hb, (settled_index _ _ _ _ _ St), decide_False, at_addr_ne, Z.add_0_r by done. done. }
  destruct (sumR_cases (fun x => accrued (bal' x) (indexOf s' x) (GlobalIndex (GetGlobalState s))) X a)
    as [(Ha & Y & HY & -> & ->)|[Ha _]].
  + rewrite (settled_index _ _ _ _ _ St), decide_True, accrued_zero by done.
    rewrite (sumR_ext _ f Y) by (intros; apply Hf; set_solver).
    pose proof (so_accrued0 ({[a]} ∪ Y) HG HX) as Hs. fold f in Hs. rewrite sumR_insert in Hs by done.
    change (f a) with (accrued (bal a) (indexOf s a) (GlobalIndex (GetGlobalState s))) in Hs. lra.
  + rewrite (sumR_ext _ f X) by (intros; apply Hf; set_solver).
    pose proof (so_accrued0 ({[a]} ∪ X) HG ltac:(set_solver)) as Hs. fold f in Hs. rewrite sumR_insert in Hs by done.
    change (f a) with (accrued (bal a) (indexOf s a) (GlobalIndex (GetGlobalState s))) in Hs. lra.
Qed.
End settle.

(** ** Releases and payouts *)

Lemma release_bound (bk V S sup l c x y P : R) :
  (0 < P -> x < P -> 0 <= y -> x + y <= P -> l = y / (P - x) -> bk + V <= c * x / P -> V <= S -> S <= sup ->
   bk + sup <= c -> bk + (V + l * (S - V)) <= c * (x + y) / P)%R.
Proof.
intros HP Hx Hy Hxy -> H1 HV HS H2. assert (Hd : (0 < P - x)%R) by lra. set (l := (y / (P - x))%R).
assert (Hl : (0 <= l <= 1)%R).
{ unfold l. split; [apply Rmult_le_pos; [done|left; by apply Rinv_0_lt_compat]|].
  apply (Rmult_le_reg_r (P - x)); [done|]. unfold Rdiv. rewrite Rmult_assoc, Rinv_l, Rmult_1_r by lra. lra. }
replace (c * (x + y) / P)%R with ((1 - l) * (c * x / P) + l * c)%R by (unfold l; field; lra).
replace (bk + (V + l * (S - V)))%R with ((1 - l) * (bk + V) + l * (bk + S))%R by ring.
apply Rplus_le_compat; apply Rmult_le_compat_l; lra.
Qed.

Lemma solvent_release bal sup pool s s' amount delta rem pool' :
  solv bal sup pool s → 0 <= amount → 0 <= delta →
  cap * delta + rem = amount * OneDec + IndexRemainder (GetGlobalState s) → 0 <= rem < cap →
  pool + amount <= pool' →
  (let g := GetGlobalState s in
   s' = SetGlobalState s (mkGlobalState (GlobalIndex g + delta) rem (TotalReleasedToPool g + amount)
          (TotalPending g) (TotalPaidOut g) (TotalFeeBurned g) (TotalBurned g))) →
  solv bal sup pool' s'.
Proof.
intros S Ha Hd He Hr Hp ->. pose proof S as []. set (g := GetGlobalState s) in *.
match goal with |- context [SetGlobalState s ?h] => set (g' := h) end.
assert (Hg' : GetGlobalState (SetGlobalState s g') = g') by done.
split; try done; rewrite ?Hg'; unfold g';
  cbn [GlobalIndex IndexRemainder TotalReleasedToPool TotalPending TotalPaidOut TotalBurned]; try lia.
- intros a. specialize (so_index0 a). change (indexOf (SetGlobalState s _) a) with (indexOf s a). fold g. lia.
- intros X HG HX. change (indexOf (SetGlobalState s _)) with (indexOf s). unfold booked. cbn [TotalPending TotalPaidOut].
  fold (booked g). rewrite mult_IZR, plus_IZR.
  assert (HG' : GlobalIndex g < OneDec) by lia. pose proof (so_accrued0 X HG' HX) as H1.
  set (f := fun a => accrued (bal a) (indexOf s a) (GlobalIndex g)) in *.
  set (l := (IZR delta / IZR (OneDec - GlobalIndex g))%R).
  rewrite (sumR_ext _ (fun a => f a + l * (IZR (bal a) + -1 * f a))%R).
  2:{ intros a _. rewrite (accrued_advance _ _ (GlobalIndex g)) by (done || apply so_index0).
      fold (f a). unfold l. replace (GlobalIndex g + delta - GlobalIndex g) with delta by lia.
      replace (IZR (bal a) - f a)%R with (IZR (bal a) + -1 * f a)%R by lra. done. }
  rewrite (sumR_linear f), (sumR_linear (fun a => IZR (bal a)) f).
  replace (sumR (fun a => IZR (bal a)) X + -1 * sumR f X)%R with (sumR (fun a => IZR (bal a)) X - sumR f X)%R by lra.
  rewrite mult_IZR in H1. pose proof (so_covers0 X) as HS. rewrite so_burned0 in so_cap0. apply IZR_le in so_cap0. rewrite plus_IZR in so_cap0.
  apply (release_bound _ _ _ (IZR sup)); try (unfold l; rewrite ?minus_IZR; done); try (apply IZR_lt; lia); try (apply IZR_le; lia).
  + by apply IZR_lt, precision_pos.
  + rewrite <- plus_IZR. apply IZR_le. lia.
  + apply sumR_le. intros a _. unfold f, accrued. specialize (so_index0 a). specialize (so_bal0 a).
    assert (HR : (0 < IZR (OneDec - indexOf s a))%R) by (apply IZR_lt; lia).
    apply (Rmult_le_reg_r (IZR (OneDec - indexOf s a))); [done|]. unfold Rdiv.
    rewrite Rmult_assoc, Rinv_l, Rmult_1_r, <- !mult_IZR by lra. apply IZR_le. nia.
  + lra.
Qed.

(** Paying out what is pending for [a]. *)
Lemma solvent_payout bal sup pool s s' a acct pool' :
  solv bal sup pool s → 0 < pendingOf s a → pool - pendingOf s a <= pool' →
  acct = with_TotalClaimed (TotalClaimed (GetAtoxAccount s a) + pendingOf s a) (with_Pending 0 (GetAtoxAccount s a)) →
  (let g := GetGlobalState s in
   s' = SetGlobalState (SetAtoxAccount s acct)
     (mkGlobalState (GlobalIndex g) (IndexRemainder g) (TotalReleasedToPool g) (TotalPending g - pendingOf s a)
        (TotalPaidOut g + pendingOf s a) (TotalFeeBurned g) (TotalBurned g))) →
  solv bal sup pool' s'.
Proof.
intros S Hpos Hp -> ->. pose proof S as []. set (g := GetGlobalState s) in *. set (x := pendingOf s a) in *.
set (acct := with_TotalClaimed _ _).
assert (Haddr : Address acct = a).
{ unfold acct. simpl. unfold GetAtoxAccount, getAtoxAccount. destruct (sAccounts s !! a) eqn:E; [by apply so_keyed0 in E|done]. }
set (s' := SetGlobalState _ _).
assert (Hget : ∀ c, GetAtoxAccount s' c = if decide (c = a) then acct else GetAtoxAccount s c).
{ intros c. unfold s', GetAtoxAccount, getAtoxAccount. cbn [sAccounts SetGlobalState SetAtoxAccount]. rewrite Haddr. case_decide as Hc.
  - subst c. by rewrite lookup_insert_eq.
  - by rewrite lookup_insert_ne. }
assert (Hpen : ∀ c, pendingOf s' c = pendingOf s c + at_addr a c (- x)).
{ intros c. unfold pendingOf at 1. rewrite Hget. unfold at_addr. case_decide as Hc; [|unfold pendingOf; lia].
  rewrite Hc. change (0 = x + - x). lia. }
assert (Hidx : ∀ c, indexOf s' c = indexOf s c).
{ intros c. unfold indexOf. rewrite Hget. case_decide as Hc; [by rewrite Hc|done]. }
split; try done; try (unfold booked in *; simpl; lia).
- intros c y. unfold s'. cbn [sAccounts SetGlobalState SetAtoxAccount]. rewrite Haddr. intros [[<- <-]|[_ Hc]]%lookup_insert_Some; [done|by apply so_keyed0].
- intros c. rewrite Hpen. specialize (so_pending0 c). unfold at_addr. case_decide as Hc; [rewrite Hc in *; fold x in so_pending0|]; fold x; lia.
- intros X. rewrite (sumR_ext _ (fun c => IZR (pendingOf s c + at_addr a c (- x)))) by (intros; by rewrite Hpen).
  exact (covers_shift (pendingOf s) (TotalPending g) a (- x) _ so_pendings0 ltac:(unfold x; lia) (fun _ => eq_refl) X).
- intros c. rewrite Hidx. apply so_index0.
- intros X HG HX. rewrite (sumR_ext _ (fun c => accrued (bal c) (indexOf s c) (GlobalIndex g))) by (intros; by rewrite Hidx).
  specialize (so_accrued0 X HG HX). unfold booked, s' in *. simpl. replace (TotalPending g - x + (TotalPaidOut g + x))
    with (TotalPending g + TotalPaidOut g) by lia. exact so_accrued0.
Qed.

(** More coins in the pool, or a different fee counter, change nothing. *)
Lemma solvent_pool bal sup pool s pool' : solv bal sup pool s → pool <= pool' → solv bal sup pool' s.
Proof. intros [] H. split; try done. lia. Qed.

Lemma solvent_fee bal sup pool s fee : solv bal sup pool s → solv bal sup pool (RecordFeeBurn s fee).
Proof. intros []. by split. Qed.

(** Records of the sweep change nothing. *)
Lemma solvent_sweep bal sup pool s s' :
  sParams s' = sParams s → sGlobalState s' = sGlobalState s → sAccounts s' = sAccounts s →
  solv bal sup pool s → solv bal sup pool s'.
Proof. destruct s, s'. simpl. intros -> -> -> []. by split. Qed.
End solvency.
