(* ===== verification/AtoxHandlers.v ===== *)
(** * x/atox: the handlers keep the pool solvent

    Each handler of AtoxKeeper.v, run on a bank that meets [BankLaws], performs
    the steps of AtoxSolvency.v. *)

From stdpp Require Import gmap strings list sorting relations.
From Stdlib Require Import ZArith Lia Reals Lra.
From S2P Require Import Prelude SdkMath Bank AtoxIndex AtoxKeeper AtoxSolvency.

Open Scope Z_scope.

Section handlers.
Context {B : Type} {bank : BankOps B} {laws : BankLaws bank} {D : LegacyDecOps} {DL : LegacyDecLaws D}.
Context (k : Keeper) (cap : Z).
(** The module's two accounts are registered module accounts, and the two denoms
    differ (checked by [NewKeeper]). *)
Context (Hatox : isModuleAccount k (ModuleAddress AtoxModuleName) = true).
Context (Hpool : isModuleAccount k ExchangePoolAddress = true).
Context (Hdenoms : baseDenom k ≠ atoxDenom k).
Implicit Types (b : B) (s : AtoxStore) (a : addr).
Local Abbreviation isMod := (isModuleAccount k).
Local Abbreviation solv := (solvent (isModuleAccount k) cap).

(** The invariant of a state. *)
Definition safe (w : B * AtoxStore) : Prop :=
  solv (AtoxBalance k w.1) (AtoxSupply k w.1) (ExchangePoolBalance k w.1) w.2.

(** [x] ATOX of [a] destroyed. *)
Record burned b a (x : Z) b' : Prop := {
  bu_bal c d : GetBalance b' c d = GetBalance b c d - (if decide (d = atoxDenom k) then at_addr a c x else 0);
  bu_sup d : GetSupply b' d = GetSupply b d - (if decide (d = atoxDenom k) then x else 0);
}.

Lemma burned_zero b a : burned b a 0 b.
Proof. split; intros; unfold at_addr; repeat case_decide; lia. Qed.

Lemma nested_passes w from to amt x w' : nestedRestriction k w from to amt = (Ok x, w') → x = to ∧ w' = w.
Proof.
unfold nestedRestriction, restrict. destruct (negb _); [by intros [= <- <-]|].
destruct (rejectIBCEscrow k to); [|done]. case_decide; by intros [= <- <-].
Qed.

Lemma burn_effect b s a x b' s' :
  0 <= x → a ≠ ModuleAddress AtoxModuleName → burnAtoxFor k (b, s) a x = (Ok tt, (b', s')) →
  s' = s ∧ x <= AtoxBalance k b a ∧ burned b a x b'.
Proof.
intros Hx Ha H. unfold burnAtoxFor in H. rewrite send_to_module in H.
assert (Hv : coins_valid (NewCoins (atoxDenom k) x)) by (by apply NewCoins_valid).
destruct (SendCoins _ (b, s) a _ _) as [[[]|] [b1 s1]] eqn:ES; [|done].
assert (Hs : s1 = s).
{ apply send_spec in ES as (? & ? & ? & ? & ? & _ & Hr & _ & [= -> ->]). apply nested_passes in Hr as [_ [= _ ->]]. done. }
apply send_balances in ES as (H1 & H2 & H3); [|done|intros ? ? ? ? ? ? Hr; apply nested_passes in Hr as [-> ->]; done].
destruct (BurnCoins b1 _ _) as [b2|] eqn:EB; [|done]. injection H as <- <-.
apply burn_spec in EB as (H4 & H5 & H6); [|done]. split_and!; [done| |].
- specialize (H1 (atoxDenom k)). rewrite AmountOf_NewCoins, decide_True in H1 by done. exact H1.
- split; intros *; rewrite ?H5, ?H6, ?H2, ?H3, !AmountOf_NewCoins; repeat case_decide; subst; try done; lia || (unfold at_addr; repeat case_decide; lia).
Qed.

(** *** One settlement *)
Lemma settled_same s a :
  (∀ x acct, sAccounts s !! x = Some acct → Address acct = x) →
  sAccounts s !! a = Some (GetAtoxAccount s a) → indexOf s a = GlobalIndex (GetGlobalState s) → settled s a 0 s.
Proof.
intros K Hf Hi. split; try done.
- destruct (GetGlobalState s). unfold settledGlobal. simpl. f_equal; lia.
- intros x. case_decide; [subst|done]. unfold pendingOf, indexOf in *. rewrite <- Hi.
  destruct (GetAtoxAccount s a). unfold with_Index, with_Pending. simpl. f_equal; lia.
Qed.

Lemma settled_write s a acct owed g :
  (∀ x acct, sAccounts s !! x = Some acct → Address acct = x) →
  acct = with_Index (GlobalIndex (GetGlobalState s)) (with_Pending (pendingOf s a + owed) (GetAtoxAccount s a)) →
  (∀ s1, GetGlobalState (g s1) = settledGlobal (GetGlobalState s) owed) →
  (∀ s1, sParams (g s1) = sParams s1 ∧ sAccounts (g s1) = sAccounts s1 ∧ sScanCursor (g s1) = sScanCursor s1 ∧
         sSweptIndex (g s1) = sSweptIndex s1) →
  settled s a owed (g (SetAtoxAccount s acct)).
Proof.
intros K -> Hg Hrest. set (acct := with_Index _ _). destruct (Hrest (SetAtoxAccount s acct)) as (P1 & P2 & P3 & P4).
assert (Ha : Address acct = a).
{ unfold acct. simpl. unfold GetAtoxAccount, getAtoxAccount. destruct (sAccounts s !! a) eqn:E; [by apply K in E|done]. }
split; try (rewrite ?P3, ?P4; done).
- unfold GetParams. by rewrite P1.
- intros x y. rewrite P2. cbn [sAccounts SetAtoxAccount]. rewrite Ha.
  intros [[<- <-]|[_ Hc]]%lookup_insert_Some; [done|by apply K].
- intros x. unfold GetAtoxAccount at 1, getAtoxAccount. rewrite P2. cbn [sAccounts SetAtoxAccount]. rewrite Ha.
  case_decide as Hx; [rewrite Hx, lookup_insert_eq; done|]. by rewrite lookup_insert_ne.
Qed.

Lemma settle_step bal sup pool b s a v r b' s' :
  solv bal sup pool s → v = bal a → SettleAccountWithBalance k (b, s) a v = (Ok r, (b', s')) →
  ∃ o, 0 <= o <= bal a ∧ (o = 0 ∨ o <= AtoxBalance k b a) ∧ burned b a o b' ∧
    solv (fun x => bal x + at_addr a x (- o)) (sup - o) pool s' ∧
    pinned isMod s' a ∧ (∀ c, pinned isMod s c → pinned isMod s' c) ∧ r = o ∧
    (if isMod a then o = 0 ∧ s' = s else o = owedOf bal s a ∧ settled s a o s').
Proof.
intros S -> H. unfold SettleAccountWithBalance in H. destruct (isMod a) eqn:Em.
{ injection H as <- <- <-. exists 0. pose proof (so_bal _ _ _ _ _ _ S a) as Hnn.
  split; [lia|]. split; [by left|]. split; [apply burned_zero|]. split; [|split_and!; [by left|done..]].
  rewrite Z.sub_0_r. assert (He : ∀ c, bal c + at_addr a c (- 0) = bal c) by (intros; unfold at_addr; case_decide; lia).
  apply (solvent_balances isMod cap bal sup); try apply S; intros c.
  - left. by rewrite He.
  - rewrite He. apply S.
  - rewrite (sumR_ext _ (fun a => IZR (bal a))); [apply (so_covers _ _ _ _ _ _ S)|]. intros. by rewrite He. }
assert (K := so_keyed _ _ _ _ _ _ S). pose proof (so_index _ _ _ _ _ _ S a) as Hi. pose proof (owedOf_bounds isMod cap _ _ _ _ a S) as Ho.
assert (Hacct : ∃ found, getAtoxAccount s a = (GetAtoxAccount s a, found) ∧
  (found = true → sAccounts s !! a = Some (GetAtoxAccount s a))).
{ unfold GetAtoxAccount, getAtoxAccount. destruct (sAccounts s !! a) as [x|] eqn:E; simpl.
  - by exists true.
  - by exists false. }
destruct Hacct as (found & Hfd & Hfound). rewrite Hfd in H. fold (indexOf s a) in H. cbv zeta in H.
rewrite (proj2 (Z.ltb_ge _ _) (proj2 Hi)) in H.
assert (Hco : ComputeOwed (bal a) (indexOf s a) (GlobalIndex (GetGlobalState s)) = (owedOf bal s a, owedOf bal s a)).
{ unfold owedOf. destruct (ComputeOwed_bounds (bal a) (indexOf s a) (GlobalIndex (GetGlobalState s))) as [_ E]; [apply S|lia|].
  destruct (ComputeOwed _ _ _); simpl in *; congruence. }
rewrite Hco in H. set (ow := owedOf bal s a) in *.
assert (Hfin : ∀ b1 s1, settled s a ow s1 → burned b a ow b1 → (ow = 0 ∨ ow <= AtoxBalance k b a) → r = ow → (b', s') = (b1, s1) →
  ∃ o, 0 <= o <= bal a ∧ (o = 0 ∨ o <= AtoxBalance k b a) ∧ burned b a o b' ∧
    solv (fun x => bal x + at_addr a x (- o)) (sup - o) pool s' ∧
    pinned isMod s' a ∧ (∀ c, pinned isMod s c → pinned isMod s' c) ∧ r = o ∧ (o = ow ∧ settled s a o s')).
{ intros b1 s1 St Hbu Hle Hr [= -> ->]. exists ow. split_and!; try done; try lia.
  - by apply (solvent_settle isMod cap bal sup pool s a).
  - by apply (settled_pinned isMod s a ow).
  - intros c. by apply (pinned_settled isMod s a ow). }
destruct (0 <? ow) eqn:E0; boolP; cbn [negb] in H.
- assert (Hne : a ≠ ModuleAddress AtoxModuleName) by (intros ->; congruence).
  destruct (burnAtoxFor k (b, s) a ow) as [[[]|] [b1 s1]] eqn:EB; [|done].
  apply burn_effect in EB as (-> & Hle & Hbu); [|lia|done]. injection H as <- Hb Hs.
  apply (Hfin b1 (bookOwed s (GetGlobalState s) (GetAtoxAccount s a) ow ow)); try done; [|by right|by rewrite Hb, Hs].
  unfold bookOwed. by apply (settled_write s a _ ow (fun s1 => SetGlobalState s1 _)).
- assert (ow = 0) as Hz by lia. rewrite Hz in *.
  assert (Hsg : settledGlobal (GetGlobalState s) 0 = GetGlobalState s).
  { destruct (GetGlobalState s). unfold settledGlobal. simpl. f_equal; lia. }
  destruct (negb found || _) eqn:E1; injection H as <- Hb Hs.
  + apply (Hfin b (SetAtoxAccount s (with_Index (GlobalIndex (GetGlobalState s)) (GetAtoxAccount s a)))); try done;
      [|apply burned_zero|by left|by rewrite Hb, Hs].
    apply (settled_write s a _ 0 (fun s1 => mkAtoxStore (sParams s1) (sGlobalState s) (sAccounts s1) (sScanCursor s1) (sSweptIndex s1))); try done.
    unfold pendingOf. destruct (GetAtoxAccount s a). unfold with_Index, with_Pending. simpl. f_equal; lia.
  + boolP. apply (Hfin b s); try done; [|apply burned_zero|by left|by rewrite Hb, Hs]. by apply settled_same; [|apply Hfound|].
Qed.

Lemma solv_ext bal sup pool s bal' sup' pool' :
  solv bal sup pool s → (∀ a, bal' a = bal a) → sup' = sup → pool <= pool' → solv bal' sup' pool' s.
Proof.
intros S He -> Hp. apply (solvent_pool isMod cap _ _ pool); [|done].
apply (solvent_balances isMod cap bal sup); try apply S; intros c.
- left. by rewrite He.
- rewrite He. apply S.
- rewrite (sumR_ext _ (fun a => IZR (bal a))); [apply (so_covers _ _ _ _ _ _ S)|]. intros. by rewrite He.
Qed.

(** *** Sends *)

(** What a send with the hook did: [o1] and [o2] are the ATOX converted by the
    settlements of the sender and the receiver. *)
Record sent b s from to (amt : coins) b' s' (o1 o2 : Z) : Prop := {
  se_bal c d : GetBalance b' c d = GetBalance b c d - at_addr from c (AmountOf amt d) + at_addr to c (AmountOf amt d)
    - (if decide (d = atoxDenom k) then at_addr from c o1 + at_addr to c o2 else 0);
  se_sup d : GetSupply b' d = GetSupply b d - (if decide (d = atoxDenom k) then o1 + o2 else 0);
  se_owed : 0 <= o1 ∧ 0 <= o2;
  se_quiet : AmountOf amt (atoxDenom k) = 0 ∨ from = to → o1 = 0 ∧ o2 = 0 ∧ s' = s;
  se_settle : 0 < AmountOf amt (atoxDenom k) → from ≠ to →
    AmountOf amt (atoxDenom k) + o1 <= AtoxBalance k b from ∧
    o1 = (if isMod from then 0 else owedOf (AtoxBalance k b) s from) ∧
    (∃ s1, (if isMod from then s1 = s else settled s from o1 s1) ∧
           (if isMod to then s' = s1 ∧ o2 = 0 else settled s1 to o2 s' ∧ o2 = owedOf (AtoxBalance k b) s to)) ∧
    pinned isMod s' from ∧ pinned isMod s' to;
}.

Lemma restriction_passes w from to amt :
  AmountOf amt (atoxDenom k) <= 0 ∨ from = to → ∀ x w', SendRestriction k w from to amt = (Ok x, w') → x = to ∧ w' = w.
Proof.
intros H x w'. unfold SendRestriction, restrict. destruct (0 <? _) eqn:E; boolP; cbn [negb]; [|by intros [= <- <-]].
destruct (rejectIBCEscrow k to); [|done]. destruct H as [H|H]; [lia|]. rewrite decide_True by done. by intros [= <- <-].
Qed.

Lemma owedOf_index (bal bal' : addr → Z) s s1 from o1 to :
  settled s from o1 s1 → to ≠ from → bal' to = bal to → owedOf bal' s1 to = owedOf bal s to.
Proof.
intros St Hne Hb. unfold owedOf. rewrite Hb, (settled_index _ _ _ _ _ St), decide_False, (st_global _ _ _ _ St) by done. done.
Qed.

Lemma send_step b s from to amt b' s' :
  safe (b, s) → coins_valid amt → (from = ExchangePoolAddress → AmountOf amt (baseDenom k) = 0) →
  SendCoins (SendRestriction k) (b, s) from to amt = (Ok tt, (b', s')) →
  safe (b', s') ∧ ∃ o1 o2, sent b s from to amt b' s' o1 o2.
Proof.
intros S Hv Hp H. unfold safe in *. cbn [fst snd] in *. set (moved := AmountOf amt (atoxDenom k)).
assert (Hmv : 0 <= moved) by (by apply AmountOf_nonneg). pose proof (AmountOf_nonneg amt (baseDenom k) Hv) as Hbase.
apply send_spec in H as (b1 & to' & b2 & s2 & b3 & Hsub & Hr & Hadd & [= -> ->]).
apply sub_spec in Hsub as (Hle & Hb1 & Hs1); [|done].
destruct (decide (moved = 0 ∨ from = to)) as [Hq|Hq].
- apply restriction_passes in Hr as [-> [= -> ->]]; [|fold moved; destruct Hq; [left; lia|by right]].
  apply add_spec in Hadd as (Hb3 & Hs3); [|done]. split.
  + apply (solv_ext (AtoxBalance k b) (AtoxSupply k b) (ExchangePoolBalance k b)); [done| | |].
    * intros a. unfold AtoxBalance. rewrite Hb3, Hb1. fold moved.
      destruct Hq as [->|<-]; unfold at_addr; repeat case_decide; lia.
    * unfold AtoxSupply. by rewrite Hs3, Hs1.
    * unfold ExchangePoolBalance. rewrite Hb3, Hb1. unfold at_addr. repeat case_decide; subst; try lia.
      rewrite Hp by done. lia.
  + exists 0, 0. split; [| |done|done|].
    * intros c d. rewrite Hb3, Hb1. unfold at_addr. repeat case_decide; lia.
    * intros d. rewrite Hs3, Hs1. case_decide; lia.
    * fold moved. intros H0 H1. exfalso. destruct Hq; [lia|done].
- assert (Hne : from ≠ to) by tauto. assert (Hpos : 0 < moved) by (destruct (decide (moved = 0)); [tauto|lia]).
  unfold SendRestriction, restrict in Hr. fold moved in Hr. rewrite (proj2 (Z.ltb_lt 0 moved) Hpos) in Hr. cbn [negb] in Hr.
  destruct (rejectIBCEscrow k to) as [[]|]; [|done]. rewrite decide_False in Hr by done. cbn [fst snd] in Hr.
  assert (Hpre : AtoxBalance k b1 from + moved = AtoxBalance k b from).
  { unfold AtoxBalance. rewrite Hb1, at_addr_eq. fold moved. lia. }
  assert (Hto : AtoxBalance k b1 to = AtoxBalance k b to).
  { unfold AtoxBalance. rewrite Hb1, at_addr_ne by done. lia. }
  rewrite Hpre, Hto in Hr.
  destruct (SettleAccountWithBalance k (b1, s) from _) as [[r1|] [b4 s4]] eqn:E1; [|done].
  destruct (settle_step (AtoxBalance k b) (AtoxSupply k b) (ExchangePoolBalance k b) b1 s from _ r1 b4 s4 S eq_refl E1)
    as (o1 & Ho1 & Hle1 & Bu1 & S1 & Pin1 & Keep1 & -> & Eff1).
  destruct (SettleAccountWithBalance k (b4, s4) to _) as [[r2|] [b5 s5]] eqn:E2; [|done].
  injection Hr as <- <- <-. set (bal1 := fun x => AtoxBalance k b x + at_addr from x (- o1)) in *.
  assert (Hb1to : AtoxBalance k b to = bal1 to) by (unfold bal1; rewrite at_addr_ne by done; lia).
  destruct (settle_step bal1 (AtoxSupply k b - o1) (ExchangePoolBalance k b) b4 s4 to _ r2 b5 s5 S1 Hb1to E2)
    as (o2 & Ho2 & Hle2 & Bu2 & S2 & Pin2 & Keep2 & -> & Eff2).
  apply add_spec in Hadd as (Hb3 & Hs3); [|done].
  assert (Hmax : moved + o1 <= AtoxBalance k b from).
  { pose proof (balance_nonneg b1 from (atoxDenom k)) as Hn. fold (AtoxBalance k b1 from) in Hn.
    destruct Hle1 as [->|Hle1]; lia. }
  assert (Hbal : ∀ c d, GetBalance b3 c d = GetBalance b c d - at_addr from c (AmountOf amt d) + at_addr to c (AmountOf amt d)
    - (if decide (d = atoxDenom k) then at_addr from c o1 + at_addr to c o2 else 0)).
  { intros c d. rewrite Hb3, (bu_bal _ _ _ _ Bu2), (bu_bal _ _ _ _ Bu1), Hb1. case_decide; lia. }
  assert (Hsup : ∀ d, GetSupply b3 d = GetSupply b d - (if decide (d = atoxDenom k) then o1 + o2 else 0)).
  { intros d. rewrite Hs3, (bu_sup _ _ _ _ Bu2), (bu_sup _ _ _ _ Bu1), Hs1. case_decide; lia. }
  set (bal2 := fun x => bal1 x + at_addr to x (- o2)) in *.
  assert (Hfin : ∀ a, AtoxBalance k b3 a = bal2 a - at_addr from a moved + at_addr to a moved).
  { intros a. unfold AtoxBalance, bal2, bal1, AtoxBalance. rewrite Hbal, decide_True by done. fold moved.
    unfold at_addr. repeat case_decide; lia. }
  assert (Hmove : 0 <= moved <= bal2 from) by (unfold bal2, bal1; rewrite at_addr_eq, at_addr_ne by done; lia).
  split.
  + apply (solv_ext (fun a => bal2 a - at_addr from a moved + at_addr to a moved) (AtoxSupply k b - o1 - o2) (ExchangePoolBalance k b)).
    * apply (solvent_balances isMod cap bal2 (AtoxSupply k b - o1 - o2)); [done| | | |apply S2].
      -- intros c. destruct (decide (c = from)) as [->|]; [by right; apply Keep2|].
         destruct (decide (c = to)) as [->|]; [by right|]. left. rewrite !at_addr_ne by done. lia.
      -- intros c. pose proof (so_bal _ _ _ _ _ _ S2 c). unfold at_addr. repeat case_decide; subst; lia.
      -- eapply covers_move; [exact (so_covers _ _ _ _ _ _ S2)|exact Hmove|apply S2|done].
    * done.
    * unfold AtoxSupply. rewrite Hsup, decide_True by done. lia.
    * unfold ExchangePoolBalance. rewrite Hbal, decide_False by done. unfold at_addr. repeat case_decide; subst; try lia.
      rewrite Hp by done. lia.
  + exists o1, o2. split; [done|done|lia|fold moved; tauto|]. intros _ _. fold moved. split_and!; [done| | |by apply Keep2|done].
    * destruct (isMod from); tauto.
    * exists s4. split; [destruct (isMod from); tauto|]. destruct (isMod to); [tauto|].
      destruct Eff2 as [-> Eff2]. split; [done|]. destruct (isMod from).
      -- destruct Eff1 as [-> ->]. unfold owedOf. by rewrite <- Hb1to.
      -- destruct Eff1 as [_ Eff1]. by apply (owedOf_index _ _ _ _ from o1).
Qed.

(** *** Failed settlements *)

(** A settlement that fails leaves the state, or the ATOX moved but not burned. *)
Lemma settle_fail b s a e w' :
  safe (b, s) → SettleAccount k (b, s) a = (Err e, w') → safe w'.
Proof.
intros S H. unfold SettleAccount, SettleAccountWithBalance in H. cbn [fst] in H. destruct (isMod a); [done|].
destruct (getAtoxAccount s a) as [acct found]. destruct (_ <? _); [done|].
destruct (ComputeOwed _ _ _) as [owed burn]. destruct (negb _); [by destruct (_ || _)|].
destruct (0 <? burn) eqn:E0; [|done]. boolP.
destruct (burnAtoxFor k (b, s) a burn) as [[[]|] w1] eqn:EB; [by destruct w1|]. injection H as <- <-.
unfold burnAtoxFor in EB. rewrite send_to_module in EB.
assert (Hv : coins_valid (NewCoins (atoxDenom k) burn)) by (apply NewCoins_valid; lia).
destruct (SendCoins _ (b, s) a _ _) as [[[]|] [b1 s1]] eqn:ES.
- assert (Hs : s1 = s).
  { apply send_spec in ES as (? & ? & ? & ? & ? & _ & Hr & _ & [= -> ->]). by apply nested_passes in Hr as [_ [= _ ->]]. }
  apply send_balances in ES as (H1 & H2 & H3); [|done|intros ? ? ? ? ? ? Hr; apply nested_passes in Hr as [-> ->]; done].
  destruct (BurnCoins b1 _ _) as [b2|]; [done|]. injection EB as <- <-. subst s1. unfold safe in *. cbn [fst snd] in *.
  assert (Hbal : ∀ c, AtoxBalance k b1 c = AtoxBalance k b c - at_addr a c burn + at_addr (ModuleAddress AtoxModuleName) c burn).
  { intros c. unfold AtoxBalance. by rewrite H2, AmountOf_NewCoins, decide_True. }
  specialize (H1 (atoxDenom k)). rewrite AmountOf_NewCoins, decide_True in H1 by done.
  apply (solvent_pool isMod cap _ _ (ExchangePoolBalance k b)).
  2:{ unfold ExchangePoolBalance. rewrite H2, AmountOf_NewCoins, decide_False by done. unfold at_addr. repeat case_decide; lia. }
  apply (solvent_balances isMod cap (AtoxBalance k b) (AtoxSupply k b)); [done| | | |].
  + intros c. destruct (decide (c = ModuleAddress AtoxModuleName)) as [->|Hc]; [right; by left|left].
    rewrite Hbal, (at_addr_ne (ModuleAddress AtoxModuleName)) by done. unfold at_addr. case_decide; lia.
  + intros c. apply balance_nonneg.
  + unfold AtoxSupply. rewrite H3. eapply covers_move; [exact (so_covers _ _ _ _ _ _ S)| |apply S|exact Hbal]. split; [lia|exact H1].
  + unfold AtoxSupply. rewrite H3. apply S.
- injection EB as _ <-. destruct (send_fail _ _ _ _ _ _ _ _ Hv ES) as [->|(b2 & Hsub & Hr)]; [done|].
  unfold nestedRestriction, restrict in Hr. destruct (negb _); [done|].
  destruct (rejectIBCEscrow k _) as [|e'] eqn:Ej; [by case_decide|]. injection Hr as _ <- <-.
  unfold safe in *. cbn [fst snd] in *. apply sub_spec in Hsub as (H1 & H2 & H3); [|done].
  assert (Hbal : ∀ c, AtoxBalance k b2 c = AtoxBalance k b c - at_addr a c burn).
  { intros c. unfold AtoxBalance. by rewrite H2, AmountOf_NewCoins, decide_True. }
  apply (solvent_pool isMod cap _ _ (ExchangePoolBalance k b)).
  2:{ unfold ExchangePoolBalance. rewrite H2, AmountOf_NewCoins, decide_False by done. unfold at_addr. case_decide; lia. }
  apply (solvent_balances isMod cap (AtoxBalance k b) (AtoxSupply k b)); [done| | | |].
  + intros c. left. rewrite Hbal. unfold at_addr. case_decide; lia.
  + intros c. apply balance_nonneg.
  + intros X. unfold AtoxSupply. rewrite H3. etransitivity; [|exact (so_covers _ _ _ _ _ _ S X)].
    apply sumR_le. intros c _. apply IZR_le. rewrite Hbal. unfold at_addr. case_decide; lia.
  + unfold AtoxSupply. rewrite H3. apply S.
Qed.

(** *** Payouts *)
Lemma settle_safe b s a r b' s' :
  safe (b, s) → SettleAccount k (b, s) a = (Ok r, (b', s')) →
  safe (b', s') ∧ burned b a r b' ∧ pendingOf s' a = pendingOf s a + r ∧
  r = (if isMod a then 0 else owedOf (AtoxBalance k b) s a) ∧ pinned isMod s' a ∧
  (∀ c, pendingOf s' c = pendingOf s c + at_addr a c r).
Proof.
intros S H. unfold SettleAccount in H. cbn [fst] in H.
destruct (settle_step _ _ _ b s a _ r b' s' S eq_refl H) as (o & Ho & _ & Bu & S' & Pin & _ & -> & Eff).
assert (Hpen : ∀ c, pendingOf s' c = pendingOf s c + at_addr a c o).
{ intros c. destruct (isMod a); [destruct Eff as [-> ->]; unfold at_addr; case_decide; lia|].
  by apply (settled_pending s a o), Eff. }
split_and!; try done.
- unfold safe in *. cbn [fst snd] in *. apply (solv_ext _ _ _ _ _ _ _ S').
  + intros c. unfold AtoxBalance. rewrite (bu_bal _ _ _ _ Bu), decide_True by done. unfold at_addr. case_decide; lia.
  + unfold AtoxSupply. rewrite (bu_sup _ _ _ _ Bu), decide_True by done. lia.
  + unfold ExchangePoolBalance. rewrite (bu_bal _ _ _ _ Bu), decide_False by done. lia.
- by rewrite Hpen, at_addr_eq.
- destruct (isMod a); tauto.
Qed.

(** Coins other than ATOX pass the hook untouched. *)
Lemma base_send b s from to x b' s' :
  0 <= x → SendCoins (SendRestriction k) (b, s) from to (NewCoins (baseDenom k) x) = (Ok tt, (b', s')) →
  s' = s ∧ (∀ c d, GetBalance b' c d = GetBalance b c d +
    (if decide (d = baseDenom k) then at_addr to c x - at_addr from c x else 0)) ∧
  (∀ d, GetSupply b' d = GetSupply b d) ∧ x <= GetBalance b from (baseDenom k).
Proof.
intros Hx H. assert (Hv : coins_valid (NewCoins (baseDenom k) x)) by (by apply NewCoins_valid).
assert (Hz : AmountOf (NewCoins (baseDenom k) x) (atoxDenom k) <= 0) by (rewrite AmountOf_NewCoins, decide_False by done; lia).
apply send_spec in H as (b1 & to' & b2 & s2 & b3 & Hsub & Hr & Hadd & [= -> ->]).
apply restriction_passes in Hr as [-> [= -> ->]]; [|by left].
apply sub_spec in Hsub as (Hle & Hb1 & Hs1); [|done]. apply add_spec in Hadd as (Hb3 & Hs3); [|done].
split_and!; [done| | |].
- intros c d. rewrite Hb3, Hb1, AmountOf_NewCoins. unfold at_addr. repeat case_decide; subst; try done; lia.
- intros d. by rewrite Hs3, Hs1.
- specialize (Hle (baseDenom k)). by rewrite AmountOf_NewCoins, decide_True in Hle.
Qed.

(** The pool can always make a payout that is covered. *)
Lemma base_send_ok b s to x :
  0 <= x <= ExchangePoolBalance k b →
  ∃ b', SendCoins (SendRestriction k) (b, s) ExchangePoolAddress to (NewCoins (baseDenom k) x) = (Ok tt, (b', s)).
Proof.
intros Hx. assert (Hv : coins_valid (NewCoins (baseDenom k) x)) by (apply NewCoins_valid; lia).
destruct (sub_module_ok b ExchangePoolName (NewCoins (baseDenom k) x) Hv) as [b1 H1].
{ intros d. rewrite AmountOf_NewCoins. case_decide; [subst; apply Hx|apply balance_nonneg]. }
destruct (add_ok b1 to (NewCoins (baseDenom k) x) Hv) as [b2 H2]. exists b2. apply send_spec.
exists b1, to, b1, s, b2. split_and!; try done. unfold SendRestriction, restrict.
rewrite AmountOf_NewCoins, decide_False by done. done.
Qed.

(** What a payout transfers: all of it, unless it is below the threshold. *)
Definition payable (minPayout x : Z) : Z := if (0 <? minPayout) && (x <? minPayout) then 0 else x.

Lemma payout_cases b s a m r b1 s1 :
  safe (b, s) → SettleAccount k (b, s) a = (Ok r, (b1, s1)) →
  let x := payable m (pendingOf s a + r) in
  (∃ e, PayoutPending k (b, s) a m = (Err e, (b1, s1)) ∧ BlockedAddr a = true) ∨
  ∃ b' s', PayoutPending k (b, s) a m = (Ok x, (b', s')) ∧ safe (b', s') ∧
    (∀ c d, GetBalance b' c d = GetBalance b1 c d +
       (if decide (d = baseDenom k) then at_addr a c x - at_addr ExchangePoolAddress c x else 0)) ∧
    (∀ d, GetSupply b' d = GetSupply b1 d) ∧
    pendingOf s' a = pendingOf s a + r - x ∧
    TotalPaidOut (GetGlobalState s') = TotalPaidOut (GetGlobalState s1) + x.
Proof.
intros S HS x. destruct (settle_safe b s a r b1 s1 S HS) as (S1 & _ & Hpen & _ & _).
unfold PayoutPending. rewrite HS. fold (pendingOf s1 a). rewrite Hpen. set (amt := pendingOf s a + r) in *.
assert (H0 : 0 <= amt) by (rewrite <- Hpen; apply S1).
assert (Hnone : ∀ c d, GetBalance b1 c d = GetBalance b1 c d +
  (if decide (d = baseDenom k) then at_addr a c 0 - at_addr ExchangePoolAddress c 0 else 0))
  by (intros; unfold at_addr; repeat case_decide; lia).
destruct (0 <? amt) eqn:E0; boolP; cbn [negb].
2:{ right. assert (amt = 0) as Hz by lia. assert (x = 0) as -> by (unfold x, payable; rewrite Hz; by destruct (_ && _)).
  exists b1, s1. split_and!; try done; lia. }
fold x. unfold x, payable. destruct ((0 <? m) && (amt <? m)) eqn:E1.
{ right. exists b1, s1. split_and!; try done; lia. }
destruct (solvent_booked isMod cap _ _ _ _ S1) as [_ Hpl]. cbn [fst snd] in Hpl.
pose proof (pending_le isMod cap _ _ _ _ a S1) as Hle. cbn [snd] in Hle. rewrite Hpen in Hle.
rewrite (proj2 (Z.ltb_ge (ExchangePoolBalance k b1) amt)) by lia.
destruct (BlockedAddr a) eqn:EB.
{ left. destruct (send_from_module_blocked (SendRestriction k) (b1, s1) ExchangePoolName a (NewCoins (baseDenom k) amt) EB) as [e ->].
  by exists e. }
right. rewrite send_from_module by done. fold (@ExchangePoolAddress B bank).
destruct (base_send_ok b1 s1 a amt ltac:(lia)) as [b2 Hsend]. rewrite Hsend.
apply base_send in Hsend as (_ & Hb2 & Hs2 & _); [|done].
change (GetGlobalState (SetAtoxAccount s1 _)) with (GetGlobalState s1).
rewrite (proj2 (Z.ltb_ge (TotalPending (GetGlobalState s1)) amt)) by lia.
eexists b2, _. split; [reflexivity|]. split.
- unfold safe in *. cbn [fst snd] in *.
  apply (solv_ext (AtoxBalance k b1) (AtoxSupply k b1) (ExchangePoolBalance k b2)); [|intros c|by unfold AtoxSupply; rewrite Hs2|done].
  2:{ unfold AtoxBalance. rewrite Hb2, decide_False by (intros Heq; by apply Hdenoms). lia. }
  eapply (solvent_payout isMod cap _ _ (ExchangePoolBalance k b1) s1 _ a); [done| | |reflexivity|]; rewrite ?Hpen.
  + done.
  + unfold ExchangePoolBalance. rewrite Hb2, decide_True by done. unfold at_addr. repeat case_decide; lia.
  + done.
- split_and!; [done|done| |done]. unfold pendingOf, GetAtoxAccount at 1, getAtoxAccount. simpl.
  assert (Ha : Address (GetAtoxAccount s1 a) = a).
  { unfold GetAtoxAccount, getAtoxAccount. destruct (sAccounts s1 !! a) eqn:E; [by apply (so_keyed _ _ _ _ _ _ S1) in E|done]. }
  rewrite Ha, lookup_insert_eq. simpl. lia.
Qed.

Lemma payout_safe b s a m : safe (b, s) → safe (PayoutPending k (b, s) a m).2.
Proof.
intros S. destruct (SettleAccount k (b, s) a) as [[r|e] [b1 s1]] eqn:E.
- destruct (settle_safe b s a r b1 s1 S E) as (S1 & _).
  destruct (payout_cases b s a m r b1 s1 S E) as [(e & -> & _)|(b' & s' & -> & S' & _)]; done.
- unfold PayoutPending. rewrite E. by apply (settle_fail b s a e).
Qed.

(** *** The sweep *)
Lemma safe_records b s s' :
  sParams s' = sParams s → sGlobalState s' = sGlobalState s → sAccounts s' = sAccounts s → safe (b, s) → safe (b, s').
Proof. intros. by apply (solvent_sweep isMod cap _ _ _ s). Qed.

Lemma sweep_safe w : safe w → safe (EndBlocker k w).
Proof.
intros S. unfold EndBlocker. destruct (_ || _); [done|]. destruct (_ && _); [done|].
set (w1 := if bool_decide _ then _ else w).
assert (S1 : safe w1) by (unfold w1; case_bool_decide; [by apply (safe_records w.1 w.2)|done]).
destruct (collectSweepBatch w1.2 _) as [keys more]. set (m := MinAutoPayout (GetParams w.2)).
assert (S2 : safe (foldl (sweepKey k m) w1 keys)).
{ clearbody w1. clear -S1 laws DL Hatox Hdenoms. revert w1 S1. induction keys as [|key keys IH]; intros [b s] S1; simpl; [done|].
  apply IH. unfold sweepKey. destruct (AccAddressFromBech32 k key); [by apply payout_safe|done]. }
by apply (safe_records _ (foldl (sweepKey k m) w1 keys).2).
Qed.

(** *** Issuance and funding *)
Lemma mint_step b s x b' :
  safe (b, s) → 0 < x → MintedAgainstCap k (b, s) + x <= cap →
  MintCoins b AtoxModuleName (NewCoins (atoxDenom k) x) = Ok b' →
  safe (b', s) ∧ (∀ c d, GetBalance b' c d = GetBalance b c d +
    (if decide (d = atoxDenom k) then at_addr (ModuleAddress AtoxModuleName) c x else 0)) ∧
  (∀ d, GetSupply b' d = GetSupply b d + (if decide (d = atoxDenom k) then x else 0)).
Proof.
intros S Hx Hc H. apply mint_spec in H as (H1 & H2); [|apply NewCoins_valid; lia].
assert (Hb : ∀ c d, GetBalance b' c d = GetBalance b c d +
    (if decide (d = atoxDenom k) then at_addr (ModuleAddress AtoxModuleName) c x else 0)).
{ intros c d. rewrite H1, AmountOf_NewCoins. unfold at_addr. repeat case_decide; subst; try done; lia. }
assert (Hs : ∀ d, GetSupply b' d = GetSupply b d + (if decide (d = atoxDenom k) then x else 0)).
{ intros d. rewrite H2, AmountOf_NewCoins. repeat case_decide; subst; try done; lia. }
split_and!; [|done|done]. unfold safe, MintedAgainstCap in *. cbn [fst snd] in *.
assert (Hbal : ∀ c, AtoxBalance k b' c = AtoxBalance k b c + at_addr (ModuleAddress AtoxModuleName) c x)
  by (intros c; unfold AtoxBalance; by rewrite Hb, decide_True).
assert (Hsup : AtoxSupply k b' = AtoxSupply k b + x) by (unfold AtoxSupply; by rewrite Hs, decide_True).
apply (solvent_pool isMod cap _ _ (ExchangePoolBalance k b)).
2:{ unfold ExchangePoolBalance. rewrite Hb, decide_False by done. lia. }
apply (solvent_balances isMod cap (AtoxBalance k b) (AtoxSupply k b)); [done| | | |lia].
- intros c. destruct (decide (c = ModuleAddress AtoxModuleName)) as [->|Hne]; [right; by left|left].
  rewrite Hbal, at_addr_ne by done. lia.
- intros c. apply balance_nonneg.
- rewrite Hsup. apply (covers_shift (AtoxBalance k b) _ (ModuleAddress AtoxModuleName)); [apply S| |done].
  pose proof (so_bal _ _ _ _ _ _ S (ModuleAddress AtoxModuleName)). lia.
Qed.

Lemma atox_not_pool : ModuleAddress AtoxModuleName ≠ ExchangePoolAddress.
Proof. intros H%ModuleAddress_inj. done. Qed.
End handlers.
