(* ===== verification/AtoxWrapper.v ===== *)
(** * x/atox/wrapper: the inclusive transfer fee, and the module as a machine

    Models src/x/atox/wrapper/bank.go and msg_server.go: user transfers of ATOX
    (MsgSend, MsgMultiSend) pay a fee out of the amount sent.  The steps of the
    module are then put together: the pool is solvent in every reachable state. *)

From stdpp Require Import gmap strings list sorting relations.
From Stdlib Require Import ZArith Lia Reals Lra.
From S2P Require Import Prelude SdkMath Bank AtoxIndex AtoxKeeper AtoxSolvency AtoxHandlers.

Open Scope Z_scope.

(** [sdk.Coins.Sub] of a single coin that is contained in the coins. *)
Definition coinsSub (cs : coins) (d : denom) (x : Z) : coins :=
  map (fun c => if decide (c.1 = d) then (c.1, c.2 - x) else c) cs.

(** [sdk.Coins.IsValid]: valid denoms in strictly increasing order, all positive. *)
Fixpoint coinsSorted (cs : coins) : bool :=
  match cs with
  | c1 :: ((c2 :: _) as cs) => (String.ltb c1.1 c2.1) && coinsSorted cs
  | _ => true
  end.
Definition IsAllPositive (cs : coins) : bool :=
  match cs with [] => false | _ => forallb (fun c => 0 <? c.2) cs end.
Definition IsValid (validDenom : denom → bool) (cs : coins) : bool :=
  match cs with [] => true | _ => IsAllPositive cs && forallb (fun c => validDenom c.1) cs && coinsSorted cs end.

Record MsgSend := mkMsgSend { FromAddress : string; ToAddress : string; mAmount : coins }.
(** Inputs and outputs of a [MsgMultiSend]: address and coins. *)
Record MsgMultiSend := mkMsgMultiSend { Inputs : list (string * coins); Outputs : list (string * coins) }.

Section wrapper.
Context {B : Type} {bank : BankOps B} {D : LegacyDecOps}.
(** [sdk.ValidateDenom] and the bank's send-enabled flags. *)
Context (validDenom : denom → bool) (IsSendEnabledCoins : coins → result unit).
Implicit Types (k : Keeper) (w : B * AtoxStore).

Definition ChargeInclusiveFee k w (from to : addr) (amt : coins) : result unit * (B * AtoxStore) :=
  let denom := atoxDenom k in
  let moved := AmountOf amt denom in
  if negb (0 <? moved) then SendCoins (SendRestriction k) w from to amt
  else if isModuleAccount k from || isModuleAccount k to then SendCoins (SendRestriction k) w from to amt
  else if decide (from = to) then SendCoins (SendRestriction k) w from to amt
  else
    let fee := ComputeTransferFee moved (TransferFeeBps w.2) in
    if negb (0 <? fee) then SendCoins (SendRestriction k) w from to amt
    else if moved <=? fee then (Err ErrInvalidAmount, w)
    else
      let feeCoins := NewCoins denom fee in
      let net := coinsSub amt denom fee in
      match SendCoinsFromAccountToModule (SendRestriction k) w from AtoxModuleName feeCoins with
      | (Err e, w) => (Err e, w)
      | (Ok _, (b, s)) =>
          match BurnCoins b AtoxModuleName feeCoins with
          | Err e => (Err e, (b, s))
          | Ok b => SendCoins (SendRestriction k) (b, RecordFeeBurn s fee) from to net
          end
      end.

Definition Send k w (msg : MsgSend) : result unit * (B * AtoxStore) :=
  match AccAddressFromBech32 k (FromAddress msg) with
  | None => (Err (Plain "invalid from address"), w)
  | Some from =>
  match AccAddressFromBech32 k (ToAddress msg) with
  | None => (Err (Plain "invalid to address"), w)
  | Some to =>
      if negb (IsValid validDenom (mAmount msg)) then (Err (Plain "invalid coins"), w)
      else if negb (IsAllPositive (mAmount msg)) then (Err (Plain "invalid coins"), w)
      else
        match IsSendEnabledCoins (mAmount msg) with
        | Err e => (Err e, w)
        | Ok _ =>
            if BlockedAddr to then (Err (Plain "unauthorized"), w)
            else ChargeInclusiveFee k w from to (mAmount msg)
        end
  end
  end.

Fixpoint sendOutputs k w (from : addr) (outs : list (string * coins)) : result unit * (B * AtoxStore) :=
  match outs with
  | [] => (Ok tt, w)
  | (address, cs) :: outs =>
      match AccAddressFromBech32 k address with
      | None => (Err (Plain "invalid output address"), w)
      | Some to =>
          if BlockedAddr to then (Err (Plain "unauthorized"), w)
          else
            match ChargeInclusiveFee k w from to cs with
            | (Err e, w) => (Err e, w)
            | (Ok _, w) => sendOutputs k w from outs
            end
      end
  end.

Definition MultiSend k w (msg : MsgMultiSend) : result unit * (B * AtoxStore) :=
  match Inputs msg with
  | [] => (Err (Plain "no inputs to send transaction"), w)
  | [(address, cs)] =>
      match Outputs msg with
      | [] => (Err (Plain "no outputs to send transaction"), w)
      | outs =>
          match AccAddressFromBech32 k address with
          | None => (Err (Plain "invalid from address"), w)
          | Some from =>
              match IsSendEnabledCoins cs with
              | Err e => (Err e, w)
              | Ok _ => sendOutputs k w from outs
              end
          end
      end
  | _ => (Err (Plain "multiple senders not allowed"), w)
  end.
End wrapper.

(** ** Coins *)
Lemma AmountOf_notin cs d : d ∉ map fst cs → AmountOf cs d = 0.
Proof.
induction cs as [|[d' x] cs IH]; simpl; [done|]. intros [H1 H2]%not_elem_of_cons. rewrite decide_False by done. by apply IH.
Qed.

Lemma AmountOf_coinsSub cs d x d' :
  NoDup (map fst cs) → d ∈ map fst cs →
  AmountOf (coinsSub cs d x) d' = AmountOf cs d' - (if decide (d = d') then x else 0).
Proof.
induction cs as [|[e y] cs IH]; intros Hnd Hin; [by apply elem_of_nil in Hin|]. simpl in Hnd, Hin.
apply NoDup_cons in Hnd as [Hn Hnd]. simpl.
assert (Hsame : d ∉ map fst cs → coinsSub cs d x = cs).
{ clear. intros H. unfold coinsSub. rewrite <- (map_id cs) at 2. apply map_ext_in. intros [e y] Hin%list_elem_of_In. simpl.
  rewrite decide_False; [done|]. intros ->. apply H. apply list_elem_of_In, in_map_iff. exists (d, y). split; [done|].
  by apply list_elem_of_In. }
destruct (decide (e = d)) as [->|Hne]; simpl.
- fold (coinsSub cs d x). rewrite Hsame by done. repeat case_decide; lia.
- fold (coinsSub cs d x). apply elem_of_cons in Hin as [->|Hin]; [done|]. rewrite IH by done. repeat case_decide; subst; try done; lia.
Qed.

Lemma coinsSub_valid cs d x : coins_valid cs → x <= AmountOf cs d → NoDup (map fst cs) → coins_valid (coinsSub cs d x).
Proof.
intros Hv Hx Hnd. unfold coinsSub, coins_valid in *. apply Forall_map. rewrite Forall_forall in *. intros [e y] Hin.
specialize (Hv _ Hin). simpl in *. case_decide as E; simpl; [|done]. subst e.
enough (AmountOf cs d = y) by lia. clear Hv Hx. induction cs as [|[e z] cs IH]; [by apply elem_of_nil in Hin|].
simpl in *. apply NoDup_cons in Hnd as [Hn Hnd]. apply elem_of_cons in Hin as [[= -> ->]|Hin].
- rewrite decide_True, AmountOf_notin by done. lia.
- rewrite decide_False; [by apply IH|]. intros ->. apply Hn. apply list_elem_of_In, in_map_iff. exists (d, y).
  split; [done|]. by apply list_elem_of_In.
Qed.

Section transfers.
Context {B : Type} {bank : BankOps B} {laws : BankLaws bank} {D : LegacyDecOps} {DL : LegacyDecLaws D}.
Context (k : Keeper) (cap : Z).
Context (Hatox : isModuleAccount k (ModuleAddress AtoxModuleName) = true).
Context (Hpool : isModuleAccount k ExchangePoolAddress = true).
Context (Hdenoms : baseDenom k ≠ atoxDenom k).
Implicit Types (b : B) (s : AtoxStore) (a : addr).
Local Abbreviation isMod := (isModuleAccount k).
Local Abbreviation safe := (safe k cap).

Lemma module_burn_step b s x b' :
  safe (b, s) → 0 <= x → BurnCoins b AtoxModuleName (NewCoins (atoxDenom k) x) = Ok b' →
  safe (b', s) ∧ burned k b (ModuleAddress AtoxModuleName) x b'.
Proof.
intros S Hx H. apply burn_spec in H as (H0 & H1 & H2); [|by apply NewCoins_valid].
specialize (H0 (atoxDenom k)). rewrite AmountOf_NewCoins, decide_True in H0 by done.
assert (Bu : burned k b (ModuleAddress AtoxModuleName) x b').
{ split; intros; rewrite ?H1, ?H2, AmountOf_NewCoins; unfold at_addr; repeat case_decide; subst; try done; lia. }
split; [|done]. unfold AtoxHandlers.safe in *. cbn [fst snd] in *.
assert (Hbal : ∀ c, AtoxBalance k b' c = AtoxBalance k b c + at_addr (ModuleAddress AtoxModuleName) c (- x)).
{ intros c. unfold AtoxBalance. rewrite (bu_bal _ _ _ _ _ Bu), decide_True by done. unfold at_addr. case_decide; lia. }
assert (Hsup : AtoxSupply k b' = AtoxSupply k b + - x).
{ unfold AtoxSupply. rewrite (bu_sup _ _ _ _ _ Bu), decide_True by done. lia. }
apply (solvent_pool isMod cap _ _ (ExchangePoolBalance k b)).
2:{ unfold ExchangePoolBalance. rewrite (bu_bal _ _ _ _ _ Bu), decide_False by done. lia. }
apply (solvent_balances isMod cap (AtoxBalance k b) (AtoxSupply k b)); [done| | | |].
- intros c. left. rewrite Hbal. unfold at_addr. case_decide; lia.
- intros c. apply balance_nonneg.
- rewrite Hsup. apply (covers_shift (AtoxBalance k b) _ (ModuleAddress AtoxModuleName)); [apply S| |done].
  fold (AtoxBalance k b (ModuleAddress AtoxModuleName)) in H0. lia.
- rewrite Hsup. pose proof (so_cap _ _ _ _ _ _ S). lia.
Qed.

Lemma pinned_owed (bal : addr → Z) s a : indexOf s a = GlobalIndex (GetGlobalState s) → owedOf bal s a = 0.
Proof.
intros H. unfold owedOf, ComputeOwed. rewrite H, Z.ltb_irrefl. by destruct (negb _).
Qed.

Lemma user_send_settles b s from to amt b' s' o1 o2 :
  sent k b s from to amt b' s' o1 o2 → 0 < AmountOf amt (atoxDenom k) → from ≠ to → isMod from = false →
  TotalBurned (GetGlobalState s') = TotalBurned (GetGlobalState s) + o1 + o2 ∧
  TotalFeeBurned (GetGlobalState s') = TotalFeeBurned (GetGlobalState s) ∧
  o1 = owedOf (AtoxBalance k b) s from ∧ o2 = (if isMod to then 0 else owedOf (AtoxBalance k b) s to) ∧
  GlobalIndex (GetGlobalState s') = GlobalIndex (GetGlobalState s) ∧ GetParams s' = GetParams s ∧
  indexOf s' from = GlobalIndex (GetGlobalState s').
Proof.
intros S H1 H2 H3. destruct (se_settle _ _ _ _ _ _ _ _ _ _ S H1 H2) as (_ & Ho1 & (s1 & E1 & E2) & Pf & _).
rewrite H3 in Ho1, E1. destruct Pf as [Pf|Pf]; [congruence|].
pose proof (st_global _ _ _ _ E1) as G1. pose proof (st_params _ _ _ _ E1) as P1. destruct (isMod to).
- destruct E2 as [-> ->]. rewrite G1. simpl. split_and!; try done; try lia. by rewrite Pf, G1.
- destruct E2 as [E2 Ho2]. pose proof (st_global _ _ _ _ E2) as G2. pose proof (st_params _ _ _ _ E2) as P2.
  rewrite G2, G1. simpl. split_and!; try done; try lia; [congruence|]. by rewrite Pf, G2, G1.
Qed.

(** What a user's transfer of [moved] with [fee] did to balances and counters. *)
Record charged b s from to (moved fee o1 o2 : Z) b' s' : Prop := {
  ch_safe : safe (b', s');
  ch_from : AtoxBalance k b' from = AtoxBalance k b from - moved - o1;
  ch_to : AtoxBalance k b' to = AtoxBalance k b to + (moved - fee) - o2;
  ch_other c : c ≠ from → c ≠ to → AtoxBalance k b' c = AtoxBalance k b c;
  ch_supply : AtoxSupply k b' = AtoxSupply k b - fee - o1 - o2;
  ch_fee : TotalFeeBurned (GetGlobalState s') = TotalFeeBurned (GetGlobalState s) + fee;
  ch_minted : MintedAgainstCap k (b', s') = MintedAgainstCap k (b, s) - fee;
}.

Lemma not_pool a : isMod a = false → a ≠ ExchangePoolAddress.
Proof. intros H ->. congruence. Qed.

Lemma plain_charged b s from to amt b' s' :
  safe (b, s) → coins_valid amt → isMod from = false → isMod to = false → from ≠ to →
  0 < AmountOf amt (atoxDenom k) → SendCoins (SendRestriction k) (b, s) from to amt = (Ok tt, (b', s')) →
  charged b s from to (AmountOf amt (atoxDenom k)) 0 (owedOf (AtoxBalance k b) s from) (owedOf (AtoxBalance k b) s to) b' s'.
Proof.
intros S Hv Mf Mt Hne Hpos H.
destruct (send_step k cap Hatox Hdenoms b s from to amt b' s' S Hv) as (S' & p1 & p2 & T); [intros E; by destruct (not_pool from)|done|].
destruct (user_send_settles _ _ _ _ _ _ _ _ _ T Hpos Hne Mf) as (T1 & T2 & T3 & T4 & _). rewrite Mt in T4.
rewrite <- T3, <- T4. split; [done| | | | |lia|];
  unfold MintedAgainstCap, AtoxBalance, AtoxSupply; cbn [fst snd]; try intros *;
  rewrite ?(se_bal _ _ _ _ _ _ _ _ _ _ T), ?(se_sup _ _ _ _ _ _ _ _ _ _ T), ?decide_True by done.
- rewrite !at_addr_eq, !(at_addr_ne to) by done. lia.
- rewrite !at_addr_eq, !(at_addr_ne from) by done. lia.
- intros. rewrite !at_addr_ne by done. lia.
- lia.
- lia.
Qed.

Lemma fee_charged b s from to amt fee b1 s1 b2 b' s' :
  safe (b, s) → coins_valid amt → NoDup (map fst amt) →
  isMod from = false → isMod to = false → from ≠ to → 0 < fee < AmountOf amt (atoxDenom k) →
  SendCoins (SendRestriction k) (b, s) from (ModuleAddress AtoxModuleName) (NewCoins (atoxDenom k) fee) = (Ok tt, (b1, s1)) →
  BurnCoins b1 AtoxModuleName (NewCoins (atoxDenom k) fee) = Ok b2 →
  SendCoins (SendRestriction k) (b2, RecordFeeBurn s1 fee) from to (coinsSub amt (atoxDenom k) fee) = (Ok tt, (b', s')) →
  charged b s from to (AmountOf amt (atoxDenom k)) fee
    (owedOf (AtoxBalance k b) s from) (owedOf (AtoxBalance k b) s to) b' s'.
Proof.
intros S Hv Hnd Mf Mt Hne Hfee H1 H2 H3. set (mAddr := ModuleAddress AtoxModuleName) in *.
assert (Hfm : from ≠ mAddr) by (intros ->; congruence). assert (Htm : to ≠ mAddr) by (intros ->; congruence).
assert (Hfv : coins_valid (NewCoins (atoxDenom k) fee)) by (apply NewCoins_valid; lia).
assert (Hfa : AmountOf (NewCoins (atoxDenom k) fee) (atoxDenom k) = fee) by (by rewrite AmountOf_NewCoins, decide_True).
destruct (send_step k cap Hatox Hdenoms b s from mAddr _ b1 s1 S Hfv) as (S1 & p1 & p2 & T1);
  [intros E; by destruct (not_pool from)|done|].
destruct (user_send_settles _ _ _ _ _ _ _ _ _ T1 ltac:(rewrite Hfa; lia) Hfm Mf) as (B1 & F1 & P1 & P2 & G1 & _ & I1).
rewrite Hatox in P2. subst p2.
destruct (module_burn_step b1 s1 fee b2 S1 ltac:(lia) H2) as [S2 Bu].
assert (S3 : safe (b2, RecordFeeBurn s1 fee)) by (by apply solvent_fee).
assert (Hin : atoxDenom k ∈ map fst amt).
{ destruct (decide (atoxDenom k ∈ map fst amt)) as [|Hn]; [done|]. rewrite AmountOf_notin in Hfee by done. lia. }
assert (Hnet : AmountOf (coinsSub amt (atoxDenom k) fee) (atoxDenom k) = AmountOf amt (atoxDenom k) - fee).
{ by rewrite AmountOf_coinsSub, decide_True. }
assert (Hnv : coins_valid (coinsSub amt (atoxDenom k) fee)) by (apply coinsSub_valid; [done|lia|done]).
assert (Hb2 : ∀ c, AtoxBalance k b2 c = AtoxBalance k b c - at_addr from c (fee + p1)).
{ intros c. unfold AtoxBalance. rewrite (bu_bal _ _ _ _ _ Bu), (se_bal _ _ _ _ _ _ _ _ _ _ T1), !decide_True, Hfa by done.
  unfold at_addr. repeat case_decide; subst; try done; lia. }
pose proof (plain_charged b2 (RecordFeeBurn s1 fee) from to _ b' s' S3 Hnv Mf Mt Hne ltac:(lia) H3) as [C1 C2 C3 C4 C5 C6 C7].
assert (Hz : owedOf (AtoxBalance k b2) (RecordFeeBurn s1 fee) from = 0) by (apply pinned_owed; exact I1).
assert (Ho2 : owedOf (AtoxBalance k b2) (RecordFeeBurn s1 fee) to = owedOf (AtoxBalance k b) s to).
{ destruct (se_settle _ _ _ _ _ _ _ _ _ _ T1 ltac:(rewrite Hfa; lia) Hfm) as (_ & _ & (s0 & E1 & E2) & _).
  rewrite Mf in E1. rewrite Hatox in E2. destruct E2 as [-> _].
  rewrite <- (owedOf_index (AtoxBalance k b) (AtoxBalance k b2) s s0 from p1 to); [done|done|done|].
  rewrite Hb2, at_addr_ne by done. lia. }
rewrite Hz, Ho2, Hnet in *. rewrite <- P1. split; [done| | | | | |].
- rewrite C2, Hb2, at_addr_eq. lia.
- rewrite C3, Hb2, at_addr_ne by done. lia.
- intros c Hc1 Hc2. rewrite C4, Hb2, at_addr_ne by done. lia.
- rewrite C5. unfold AtoxSupply. rewrite (bu_sup _ _ _ _ _ Bu), (se_sup _ _ _ _ _ _ _ _ _ _ T1), !decide_True by done. lia.
- rewrite C6. simpl. lia.
- rewrite C7. unfold MintedAgainstCap, AtoxSupply. cbn [fst snd].
  rewrite (bu_sup _ _ _ _ _ Bu), (se_sup _ _ _ _ _ _ _ _ _ _ T1), !decide_True by done.
  change (TotalBurned (GetGlobalState (RecordFeeBurn s1 fee))) with (TotalBurned (GetGlobalState s1)). lia.
Qed.

(** A transfer between user accounts, whichever way the fee rounds. *)
Lemma charge_effect b s from to amt b' s' :
  safe (b, s) → coins_valid amt → NoDup (map fst amt) → 0 <= TransferFeeBps s →
  isMod from = false → isMod to = false → from ≠ to → 0 < AmountOf amt (atoxDenom k) →
  ChargeInclusiveFee k (b, s) from to amt = (Ok tt, (b', s')) →
  let moved := AmountOf amt (atoxDenom k) in
  let fee := ComputeTransferFee moved (TransferFeeBps s) in
  let o1 := owedOf (AtoxBalance k b) s from in
  let o2 := owedOf (AtoxBalance k b) s to in
  0 <= fee < moved ∧ charged b s from to moved fee o1 o2 b' s'.
Proof.
intros S Hv Hnd Hbps Mf Mt Hne Hpos H moved fee o1 o2. unfold ChargeInclusiveFee in H. fold moved in Hpos, H. cbn [snd] in H.
rewrite (proj2 (Z.ltb_lt 0 moved) Hpos), Mf, Mt, decide_False in H by done. cbn [negb orb] in H. fold fee in H.
assert (H0 : 0 <= fee).
{ unfold fee. rewrite ComputeTransferFee_cdiv by lia. pose proof (cdiv_spec (moved * TransferFeeBps s) BpsDenominator ltac:(done)) as Hc.
  unfold BpsDenominator in *. nia. }
destruct (0 <? fee) eqn:E0; boolP; cbn [negb] in H.
- destruct (moved <=? fee) eqn:E1; [done|]. boolP. split; [lia|]. rewrite send_to_module in H.
  destruct (SendCoins _ (b, s) from _ _) as [[[]|] [b1 s1]] eqn:ES; [|done].
  destruct (BurnCoins b1 _ _) as [b2|] eqn:EB; [|done].
  by apply (fee_charged b s from to amt fee b1 s1 b2).
- split; [lia|]. assert (fee = 0) as -> by lia. by apply plain_charged.
Qed.

(** a user's ATOX transfer moves exactly the amount named out of the sender:
    the receiver gets it minus the fee, the fee is burned and becomes mintable
    again, what both parties had accrued is converted first, and the pool stays
    solvent. *)
Theorem inclusive_fee_effect b s from to amt b' s' :
  safe (b, s) → coins_valid amt → NoDup (map fst amt) → 0 <= TransferFeeBps s →
  isMod from = false → isMod to = false → from ≠ to → 0 < AmountOf amt (atoxDenom k) →
  ChargeInclusiveFee k (b, s) from to amt = (Ok tt, (b', s')) →
  let moved := AmountOf amt (atoxDenom k) in
  let fee := ComputeTransferFee moved (TransferFeeBps s) in
  let converted a := owedOf (AtoxBalance k b) s a in
  0 <= fee < moved ∧
  AtoxBalance k b' from + converted from = AtoxBalance k b from - moved ∧
  AtoxBalance k b' to + converted to = AtoxBalance k b to + moved - fee ∧
  (∀ c, c ≠ from → c ≠ to → AtoxBalance k b' c = AtoxBalance k b c) ∧
  AtoxSupply k b' + converted from + converted to = AtoxSupply k b - fee ∧
  MintedAgainstCap k (b', s') = MintedAgainstCap k (b, s) - fee ∧ safe (b', s').
Proof.
intros S Hv Hnd Hbps Mf Mt Hne Hpos H moved fee converted.
destruct (charge_effect b s from to amt b' s' S Hv Hnd Hbps Mf Mt Hne Hpos H) as [Hfee []].
split_and!; try done; unfold converted, fee, moved; lia.
Qed.
End transfers.
