(* ===== verification/AtoxMachine.v ===== *)
(** * x/atox: guarantees in every reachable state

    The steps of the module (transfers, issuance, releases, claims, the sweep,
    parameter changes, and whatever else happens on the chain without touching
    ATOX) from genesis, and what holds after any sequence of them. *)

From stdpp Require Import gmap strings list sorting relations.
From Stdlib Require Import ZArith Lia Reals Lra.
From S2P Require Import Prelude SdkMath Bank AtoxIndex AtoxKeeper AtoxSolvency AtoxHandlers AtoxWrapper.

Open Scope Z_scope.

Section machine.
Context {B : Type} {bank : BankOps B} {laws : BankLaws bank} {D : LegacyDecOps} {DL : LegacyDecLaws D}.
Context (k : Keeper) (cap : Z).
Context (Hatox : isModuleAccount k (ModuleAddress AtoxModuleName) = true).
Context (Hpool : isModuleAccount k ExchangePoolAddress = true).
Context (Hdenoms : baseDenom k ≠ atoxDenom k).
Implicit Types (b : B) (s : AtoxStore) (w : B * AtoxStore) (a : addr).
Local Abbreviation isMod := (isModuleAccount k).
Local Abbreviation safe := (safe k cap).

(** ** Steps *)
Inductive step : B * AtoxStore → B * AtoxStore → Prop :=
| step_send w from to amt w' :
    coins_valid amt → from ≠ ExchangePoolAddress →
    SendCoins (SendRestriction k) w from to amt = (Ok tt, w') → step w w'
| step_transfer w from to amt w' :
    coins_valid amt → NoDup (map fst amt) → 0 <= TransferFeeBps w.2 → from ≠ ExchangePoolAddress →
    ChargeInclusiveFee k w from to amt = (Ok tt, w') → step w w'
| step_mint w recipient amount w' : MintAtox k w recipient amount = (Ok tt, w') → step w w'
| step_mint_module w module amount w' : MintAtoxToModule k w module amount = (Ok tt, w') → step w w'
| step_release w fromModule amount w' :
    fromModule ≠ ExchangePoolName → AddToExchangePool k w fromModule amount = (Ok tt, w') → step w w'
| step_claim w msg paid w' : ClaimAtos k w msg = (Ok paid, w') → step w w'
| step_params b s msg s' : UpdateParams k s msg = Ok s' → step (b, s) (b, s')
| step_end w : step w (EndBlocker k w)
| step_environment b s b' :
    (∀ a, AtoxBalance k b' a = AtoxBalance k b a) → AtoxSupply k b' = AtoxSupply k b →
    ExchangePoolBalance k b <= ExchangePoolBalance k b' → step (b, s) (b', s).

Lemma send_safe b s from to amt w' :
  safe (b, s) → coins_valid amt → from ≠ ExchangePoolAddress →
  SendCoins (SendRestriction k) (b, s) from to amt = (Ok tt, w') → safe w'.
Proof.
intros S Hv Hne H. destruct w' as [b' s'].
by destruct (send_step k cap Hatox Hdenoms b s from to amt b' s' S Hv) as (S' & _); [|done|].
Qed.

Lemma charge_safe b s from to amt w' :
  safe (b, s) → coins_valid amt → NoDup (map fst amt) → 0 <= TransferFeeBps s → from ≠ ExchangePoolAddress →
  ChargeInclusiveFee k (b, s) from to amt = (Ok tt, w') → safe w'.
Proof.
intros S Hv Hnd Hb Hne H. destruct w' as [b' s'].
destruct (0 <? AmountOf amt (atoxDenom k)) eqn:E0.
2:{ unfold ChargeInclusiveFee in H. rewrite E0 in H. exact (send_safe b s from to amt _ S Hv Hne H). }
destruct (isMod from || isMod to) eqn:E1.
{ unfold ChargeInclusiveFee in H. rewrite E0, E1 in H. exact (send_safe b s from to amt _ S Hv Hne H). }
destruct (decide (from = to)) as [->|E2].
{ unfold ChargeInclusiveFee in H. rewrite E0, E1, decide_True in H by done. exact (send_safe b s to to amt _ S Hv Hne H). }
boolP. by destruct (charge_effect k cap Hatox Hpool Hdenoms b s from to amt b' s') as (_ & []).
Qed.

Lemma mint_safe b s recipient amount w' : safe (b, s) → MintAtox k (b, s) recipient amount = (Ok tt, w') → safe w'.
Proof.
intros S H. unfold MintAtox in H. cbn [fst snd] in H. destruct (negb _); [done|]. destruct (0 <? amount) eqn:E0; boolP; [|done].
destruct (_ <? _) eqn:E1 in H; boolP; [done|]. cbn [negb] in H.
change (SettleAccountWithBalance k (b, s) recipient _) with (SettleAccount k (b, s) recipient) in H.
destruct (SettleAccount k (b, s) recipient) as [[r|] [b1 s1]] eqn:ES; [|done].
pose proof (so_params _ _ _ _ _ _ S) as HP. cbn [snd] in HP. rewrite HP in E1.
assert (Hm : MintedAgainstCap k (b1, s1) = MintedAgainstCap k (b, s)).
{ unfold MintedAgainstCap, AtoxSupply. cbn [fst snd].
  unfold SettleAccount in ES. cbn [fst] in ES.
  destruct (settle_step k cap Hatox _ _ _ b s recipient _ r b1 s1 S eq_refl ES) as (o & _ & _ & Bu & _ & _ & _ & _ & Eff).
  rewrite (bu_sup _ _ _ _ _ Bu), decide_True by done. destruct (isMod recipient).
  - destruct Eff as [-> ->]. lia.
  - rewrite (st_global _ _ _ _ (proj2 Eff)). simpl. lia. }
destruct (settle_safe k cap Hatox Hdenoms b s recipient r b1 s1 S ES) as (S1 & _).
destruct (MintCoins b1 _ _) as [b2|] eqn:EM; [|done].
assert (Hc : MintedAgainstCap k (b1, s1) + amount <= cap) by (rewrite Hm; exact E1).
destruct (mint_step k cap Hatox Hdenoms b1 s1 amount b2 S1 E0 Hc EM) as (S2 & _).
destruct (BlockedAddr recipient) eqn:EB.
{ destruct (send_from_module_blocked (SendRestriction k) (b2, s1) AtoxModuleName recipient (NewCoins (atoxDenom k) amount) EB) as [e He].
  by rewrite He in H. }
rewrite send_from_module in H by done. 
eapply (send_safe b2 _ _ _ (NewCoins (atoxDenom k) amount)); [exact S2|apply NewCoins_valid; lia|apply atox_not_pool|exact H].
Qed.

Lemma mint_module_safe b s module amount w' : safe (b, s) → MintAtoxToModule k (b, s) module amount = (Ok tt, w') → safe w'.
Proof.
intros S H. unfold MintAtoxToModule in H. cbn [fst snd] in H. destruct (negb _); [done|]. destruct (0 <? amount) eqn:E0; boolP; [|done].
destruct (_ <? _) eqn:E1 in H; boolP; [done|]. cbn [negb] in H.
pose proof (so_params _ _ _ _ _ _ S) as HP. cbn [snd] in HP. rewrite HP in E1.
destruct (MintCoins b _ _) as [b2|] eqn:EM; [|done].
destruct (mint_step k cap Hatox Hdenoms b s amount b2 S E0 E1 EM) as (S2 & _).
rewrite send_module_module in H. 
eapply (send_safe b2 _ _ _ (NewCoins (atoxDenom k) amount)); [exact S2|apply NewCoins_valid; lia|apply atox_not_pool|exact H].
Qed.

Lemma release_safe b s fromModule amount w' :
  safe (b, s) → fromModule ≠ ExchangePoolName → AddToExchangePool k (b, s) fromModule amount = (Ok tt, w') → safe w'.
Proof.
intros S Hne H. unfold AddToExchangePool in H. cbn [fst snd] in H. destruct (negb _); [done|].
destruct (0 <? amount) eqn:E0; boolP; [|done]. cbn [negb] in H.
pose proof (so_params _ _ _ _ _ _ S) as HP. cbn [snd] in HP. rewrite HP in H.
destruct (ComputeIndexDelta _ _ _) as [[delta rem]|] eqn:ED; [|done]. rewrite send_module_module in H.
fold (@ExchangePoolAddress B bank) in H.
destruct (SendCoins _ _ _ _ _) as [[[]|] [b1 s1]] eqn:ES; [|done]. injection H as <-.
apply base_send in ES as (-> & Hb & Hs & _); [|done|lia]. apply ComputeIndexDelta_spec in ED as (D1 & D2 & D3).
unfold AtoxHandlers.safe in *. cbn [fst snd] in *.
apply (solv_ext k cap (AtoxBalance k b) (AtoxSupply k b) (ExchangePoolBalance k b1)); [|intros c|by unfold AtoxSupply; rewrite Hs|done].
2:{ unfold AtoxBalance. rewrite Hb, decide_False by (intros Heq; by apply Hdenoms). lia. }
eapply (solvent_release isMod cap _ _ (ExchangePoolBalance k b) s _ amount delta rem); [done|lia|done| |done| |reflexivity].
- change IndexPrecision with OneDec in D1. lia.
- unfold ExchangePoolBalance. rewrite Hb, decide_True, at_addr_eq by done. rewrite at_addr_ne; [lia|].
  intros Heq%ModuleAddress_inj. congruence.
Qed.

Lemma step_safe w w' : step w w' → safe w → safe w'.
Proof.
destruct 1 as [[b s] from to amt w' Hv Hne H|[b s] from to amt w' Hv Hnd Hb Hne H|[b s] r x w' H|[b s] m x w' H|
  [b s] m x w' Hne H|[b s] msg paid w' H|b s msg s' H|w|b s b' H1 H2 H3]; intros S.
- exact (send_safe b s from to amt w' S Hv Hne H).
- exact (charge_safe b s from to amt w' S Hv Hnd Hb Hne H).
- exact (mint_safe b s r x w' S H).
- exact (mint_module_safe b s m x w' S H).
- exact (release_safe b s m x w' S Hne H).
- unfold ClaimAtos in H. destruct (negb _); [done|]. destruct (AccAddressFromBech32 k _) as [a|]; [|done].
  pose proof (payout_safe k cap Hatox Hdenoms b s a 0 S) as S'. destruct (PayoutPending k (b, s) a 0) as [[x|] w1]; [|done].
  destruct (negb _); [done|]. injection H as <- <-. exact S'.
- unfold UpdateParams, SetParams in H. inv_ok. boolP. unfold AtoxHandlers.safe in *. cbn [fst snd] in *. destruct S. split; try done.
  transitivity (SupplyCap (uParams msg)); [done|]. by etransitivity.
- by apply sweep_safe.
- unfold AtoxHandlers.safe in *. cbn [fst snd] in *. by apply (solv_ext k cap (AtoxBalance k b) (AtoxSupply k b) (ExchangePoolBalance k b)).
Qed.

(** ** Genesis *)
Lemma safe_genesis registered p s b :
  InitGenesis registered emptyAtoxStore (mkGenesisState p DefaultGlobalState [] "" ZeroDec) = Ok s →
  SupplyCap p = cap → (∀ a, AtoxBalance k b a = 0) → AtoxSupply k b = 0 → safe (b, s).
Proof.
intros H Hc Hb Hs. unfold InitGenesis, SetParams, Params_Validate in H. inv_ok. boolP. simpl in *.
unfold AtoxHandlers.safe. cbn [fst snd]. rewrite Hs.
assert (H0 : ∀ (X : gset string) f, (∀ a, f a = 0%R) → sumR f X = 0%R).
{ intros X f Hf. unfold sumR. generalize (elements X). induction l; simpl; [done|]. rewrite Hf, IHl. lra. }
split; simpl; try done; try lia.
- intros a. by rewrite Hb.
- intros X. rewrite H0; [simpl; lra|]. intros. by rewrite Hb.
- intros X. rewrite H0; [simpl; lra|done].
- change ZeroDec with 0. lia.
- intros X _ _. rewrite H0; [|intros; by rewrite Hb, accrued_no_balance].
  change (0 + 0 <= IZR (SupplyCap p * 0) / IZR OneDec)%R. rewrite Z.mul_0_r. unfold Rdiv. lra.
- unfold GetGlobalState. simpl. pose proof (balance_nonneg b ExchangePoolAddress (baseDenom k)). unfold ExchangePoolBalance. lia.
Qed.

Lemma atox_reachable w w' : rtc step w w' → safe w → safe w'.
Proof. induction 1; [done|]. intros. by eapply IHrtc, step_safe. Qed.

(** ** Everyone can be paid *)
Definition claimable w a : Z := (Claimable k w a).1 + (Claimable k w a).2.

Lemma claimable_spec b s a :
  safe (b, s) → claimable (b, s) a = pendingOf s a + (if isMod a then 0 else owedOf (AtoxBalance k b) s a).
Proof.
intros S. unfold claimable, Claimable. fold (pendingOf s a) (indexOf s a). destruct (isMod a); [done|].
destruct (_ <=? _) eqn:E; boolP; [|done]. cbn [fst snd]. f_equal.
rewrite pinned_owed; [done|]. pose proof (so_index _ _ _ _ _ _ S a). simpl in *. lia.
Qed.

Lemma sumR_list (f : string → Z) l :
  NoDup l → sumR (fun a => IZR (f a)) (list_to_set l) = IZR (sumZ (map f l)).
Proof.
intros Hl. unfold sumR. rewrite (foldr_Rplus_perm _ (map (fun a => IZR (f a)) l)) by (by rewrite elements_list_to_set).
clear. induction l as [|a l IH]; simpl; [done|]. rewrite IH. unfold sumZ. simpl. by rewrite plus_IZR.
Qed.

Lemma owed_covered b s (X : gset string) :
  safe (b, s) → (∀ a, a ∈ X → isMod a = false) →
  (IZR (TotalPending (GetGlobalState s)) + sumR (fun a => IZR (owedOf (AtoxBalance k b) s a)) X <= IZR (ExchangePoolBalance k b))%R.
Proof.
intros S HX. pose proof S as []. cbn [fst snd] in *. set (g := GetGlobalState s) in *.
assert (HP : 0 < OneDec) by apply precision_pos. assert (HR : (0 < IZR OneDec)%R) by (by apply IZR_lt).
apply IZR_le in so_pool. rewrite plus_IZR in so_pool. unfold booked in *. rewrite plus_IZR in so_accrued.
set (V := sumR _ X). enough (Hb : (IZR (TotalPending g) + IZR (TotalPaidOut g) + V <= IZR (TotalReleasedToPool g))%R) by lra.
destruct (decide (GlobalIndex g < OneDec)) as [H1|H1].
- specialize (so_accrued X H1 HX).
  assert (HV : (V <= sumR (fun a => accrued (AtoxBalance k b a) (indexOf s a) (GlobalIndex g)) X)%R).
  { apply sumR_le. intros a _. by apply owed_le_accrued. }
  assert (Hrel : (IZR (cap * GlobalIndex g) / IZR OneDec <= IZR (TotalReleasedToPool g))%R); [|lra].
  apply (Rmult_le_reg_r (IZR OneDec)); [done|]. unfold Rdiv. rewrite Rmult_assoc, Rinv_l, Rmult_1_r, <- mult_IZR by lra.
  apply IZR_le. lia.
- assert (HV : (V <= IZR (AtoxSupply k b))%R).
  { etransitivity; [|apply (so_covers X)]. apply sumR_le. intros a _. apply IZR_le.
    unfold owedOf. apply ComputeOwed_bounds; [done|apply so_index]. }
  assert (Hc : AtoxSupply k b + (TotalPending g + TotalPaidOut g) <= TotalReleasedToPool g).
  { apply (Zmult_le_reg_r _ _ OneDec); [lia|]. pose proof (covers_nonneg _ _ so_covers). nia. }
  apply IZR_le in Hc. rewrite !plus_IZR in Hc. lra.
Qed.

(** C2: from genesis, after any sequence of transfers, issuance, releases, claims,
    sweeps and parameter changes, all holders together could claim everything
    they are owed right now and the exchange pool would cover it; and everything
    ever booked is covered by what was released. *)
Theorem everyone_can_claim registered p s0 b0 b s holders :
  InitGenesis registered emptyAtoxStore (mkGenesisState p DefaultGlobalState [] "" ZeroDec) = Ok s0 →
  SupplyCap p = cap → (∀ a, AtoxBalance k b0 a = 0) → AtoxSupply k b0 = 0 →
  rtc step (b0, s0) (b, s) →
  NoDup holders → Forall (fun a => isMod a = false) holders →
  sumZ (map (claimable (b, s)) holders) <= ExchangePoolBalance k b ∧
  booked (GetGlobalState s) <= TotalReleasedToPool (GetGlobalState s) ∧
  MintedAgainstCap k (b, s) <= cap.
Proof.
intros Hg Hc Hb Hs Hrun Hnd HX.
pose proof (atox_reachable _ _ Hrun (safe_genesis _ _ _ _ Hg Hc Hb Hs)) as S.
split_and!; [|exact (proj1 (solvent_booked isMod cap _ _ _ _ S))|exact (so_cap _ _ _ _ _ _ S)].
pose proof (owed_covered b s (list_to_set holders) S) as Ho. 
assert (HX' : ∀ a, a ∈ (list_to_set holders : gset string) → isMod a = false).
{ intros a. rewrite elem_of_list_to_set. rewrite Forall_forall in HX. apply HX. }
specialize (Ho HX').
pose proof (so_pendings _ _ _ _ _ _ S (list_to_set holders)) as Hp. cbn [snd] in Hp.
rewrite !sumR_list in Ho, Hp by done. apply le_IZR.
enough (IZR (sumZ (map (claimable (b, s)) holders)) = IZR (sumZ (map (pendingOf s) holders)) +
  IZR (sumZ (map (owedOf (AtoxBalance k b) s) holders)))%R by lra.
clear Ho Hp Hnd HX'. rewrite <- plus_IZR. f_equal. induction HX as [|a l Ha HX IH]; [done|].
cbn [map]. unfold sumZ in *. cbn [foldr]. rewrite IH, (claimable_spec b s a S), Ha. lia.
Qed.

(** C5: a claim pays exactly what the account query shows as claimable, in full:
    once the settlement burn goes through, [ClaimAtos] succeeds, the pool pays the
    claimable amount, and nothing is left pending. *)
Theorem claim_pays_claimable b s msg a r b1 s1 :
  safe (b, s) → Enabled (GetParams s) = true → AccAddressFromBech32 k (Claimer msg) = Some a →
  BlockedAddr a = false → isMod a = false → 0 < claimable (b, s) a →
  SettleAccount k (b, s) a = (Ok r, (b1, s1)) →
  ∃ b' s', ClaimAtos k (b, s) msg = (Ok (claimable (b, s) a), (b', s')) ∧ safe (b', s') ∧
    GetBalance b' a (baseDenom k) = GetBalance b a (baseDenom k) + claimable (b, s) a ∧
    AtoxBalance k b' a = AtoxBalance k b a - (claimable (b, s) a - pendingOf s a) ∧
    pendingOf s' a = 0.
Proof.
intros S He Ha Hbl Hm Hpos HS. destruct (settle_safe k cap Hatox Hdenoms b s a r b1 s1 S HS) as (_ & Bu & _ & Hr & _).
rewrite Hm in Hr. assert (Hcl : claimable (b, s) a = pendingOf s a + r) by (rewrite claimable_spec, Hm by done; congruence).
destruct (payout_cases k cap Hatox Hdenoms b s a 0 r b1 s1 S HS) as [(e & _ & Hbl')|(b' & s' & HP & S' & Hb' & _ & Hpen & _)]; [congruence|].
change (payable 0 (pendingOf s a + r)) with (pendingOf s a + r) in *. rewrite <- Hcl in *.
exists b', s'. split_and!.
- unfold ClaimAtos. cbn [snd]. rewrite He, Ha, HP. cbn [negb]. by rewrite (proj2 (Z.ltb_lt 0 _) Hpos).
- done.
- rewrite Hb', decide_True, at_addr_eq, at_addr_ne by (done || (intros ->; congruence)).
  rewrite (bu_bal _ _ _ _ _ Bu), decide_False by done. lia.
- unfold AtoxBalance. rewrite Hb', decide_False by (intros Heq; by apply Hdenoms).
  rewrite (bu_bal _ _ _ _ _ Bu), decide_True, at_addr_eq by done. lia.
- rewrite Hpen. lia.
Qed.

(** ** Issuance *)

(** issuance never exceeds the cap (counting what conversion burned), and new
    coins carry no claim on past releases: after [MintAtox] the recipient has been
    credited for exactly the span it held before, and nothing is unsettled. *)
Theorem mint_no_history b s recipient amount b' s' :
  safe (b, s) → isMod recipient = false →
  MintAtox k (b, s) recipient amount = (Ok tt, (b', s')) →
  let owed := owedOf (AtoxBalance k b) s recipient in
  0 < amount ∧
  MintedAgainstCap k (b', s') = MintedAgainstCap k (b, s) + amount ∧ MintedAgainstCap k (b', s') <= cap ∧
  AtoxBalance k b' recipient = AtoxBalance k b recipient - owed + amount ∧
  Claimable k (b', s') recipient = (pendingOf s recipient + owed, 0).
Proof.
intros S Hm H owed. pose proof (mint_safe b s recipient amount _ S H) as S'.
unfold MintAtox in H. cbn [fst snd] in H. destruct (negb _); [done|]. destruct (0 <? amount) eqn:E0; boolP; [|done].
destruct (_ <? _) eqn:E1 in H; boolP; [done|]. cbn [negb] in H.
destruct (SettleAccountWithBalance k (b, s) recipient _) as [[r|] [b1 s1]] eqn:ES; [|done].
destruct (settle_step k cap Hatox _ _ _ b s recipient _ r b1 s1 S eq_refl ES) as (o & Ho & _ & Bu & _ & Pin & _ & _ & Eff).
rewrite Hm in Eff. destruct Eff as [-> St]. cbn [fst snd] in St, Bu, Ho. fold owed in St, Bu, Ho.
destruct (settle_safe k cap Hatox Hdenoms b s recipient r b1 s1 S ES) as (S1 & _).
destruct (MintCoins b1 _ _) as [b2|] eqn:EM; [|done].
assert (HP : SupplyCap (GetParams s) = cap) by apply S.
assert (Hc : MintedAgainstCap k (b1, s1) = MintedAgainstCap k (b, s)).
{ unfold MintedAgainstCap, AtoxSupply. cbn [fst snd]. rewrite (bu_sup _ _ _ _ _ Bu), decide_True, (st_global _ _ _ _ St) by done.
  simpl. lia. }
destruct (mint_step k cap Hatox Hdenoms b1 s1 amount b2 S1 E0 ltac:(rewrite Hc, <- HP; exact E1) EM) as (S2 & Hb2 & Hs2).
destruct (BlockedAddr recipient) eqn:EB.
{ destruct (send_from_module_blocked (SendRestriction k) (b2, s1) AtoxModuleName recipient (NewCoins (atoxDenom k) amount) EB) as [e He].
  by rewrite He in H. }
rewrite send_from_module in H by done. set (m := ModuleAddress AtoxModuleName) in *.
assert (Hmr : recipient ≠ m) by (intros ->; congruence).
assert (Hv : coins_valid (NewCoins (atoxDenom k) amount)) by (apply NewCoins_valid; lia).
assert (Ha : AmountOf (NewCoins (atoxDenom k) amount) (atoxDenom k) = amount) by (by rewrite AmountOf_NewCoins, decide_True).
destruct (send_step k cap Hatox Hdenoms b2 s1 m recipient _ b' s' S2 Hv) as (_ & o1 & o2 & T);
  [intros E; by destruct atox_not_pool|done|].
destruct (se_settle _ _ _ _ _ _ _ _ _ _ T ltac:(rewrite Ha; lia) (not_eq_sym Hmr)) as (_ & Ho1 & (s2 & E2 & E3) & _ & Pt).
rewrite Hatox in Ho1, E2. rewrite Hm in E3. subst o1 s2. destruct E3 as [St2 Ho2].
assert (Hidx : indexOf s1 recipient = GlobalIndex (GetGlobalState s1)) by (destruct Pin as [Pin|]; [congruence|done]).
rewrite pinned_owed in Ho2 by done. subst o2.
assert (HM : MintedAgainstCap k (b', s') = MintedAgainstCap k (b1, s1) + amount).
{ unfold MintedAgainstCap, AtoxSupply. cbn [fst snd].
  rewrite (se_sup _ _ _ _ _ _ _ _ _ _ T), Hs2, !decide_True, (st_global _ _ _ _ St2) by done. simpl. lia. }
split_and!; [done|lia|lia| |].
- unfold AtoxBalance. rewrite (se_bal _ _ _ _ _ _ _ _ _ _ T), Hb2, (bu_bal _ _ _ _ _ Bu), !decide_True, Ha by done.
  rewrite !at_addr_eq, !(at_addr_ne m) by done. lia.
- unfold Claimable. rewrite Hm. fold (pendingOf s' recipient) (indexOf s' recipient).
  destruct Pt as [Pt|Pt]; [congruence|]. rewrite Pt, Z.leb_refl. f_equal.
  rewrite (settled_pending _ _ _ _ _ St2), (settled_pending _ _ _ _ _ St), !at_addr_eq. lia.
Qed.

(** a holder can send at most what the account query reports as sendable:
    its balance less what settling converts. *)
Theorem transfer_within_sendable b s from to amt w' address unsettled cl st sendable :
  safe (b, s) → coins_valid amt → isMod from = false → from ≠ to → 0 < AmountOf amt (atoxDenom k) →
  AccAddressFromBech32 k address = Some from →
  SendCoins (SendRestriction k) (b, s) from to amt = (Ok tt, w') →
  QueryAccount k (b, s) address = Ok (unsettled, cl, st, sendable) →
  AmountOf amt (atoxDenom k) <= sendable ∧ sendable = AtoxBalance k b from - owedOf (AtoxBalance k b) s from.
Proof.
intros S Hv Hm Hne Hpos Ha H HQ. destruct w' as [b' s'].
destruct (send_step k cap Hatox Hdenoms b s from to amt b' s' S Hv) as (_ & o1 & o2 & T);
  [intros E; by destruct (not_pool k Hpool from)|done|].
destruct (se_settle _ _ _ _ _ _ _ _ _ _ T Hpos Hne) as (Hle & Ho1 & _). rewrite Hm in Ho1. subst o1.
unfold QueryAccount in HQ. rewrite Ha in HQ.
pose proof (claimable_spec b s from S) as Hcl. rewrite Hm in Hcl. unfold claimable in Hcl.
assert (Hp : (Claimable k (b, s) from).1 = pendingOf s from).
{ unfold Claimable. rewrite Hm. by destruct (_ <=? _). }
destruct (Claimable k (b, s) from) as [p u]. cbn [fst snd] in Hcl, Hp, HQ. subst p.
assert (u = owedOf (AtoxBalance k b) s from) as -> by lia.
destruct (_ <? 0) eqn:E in HQ; boolP; injection HQ as <- <- <- <-; lia.
Qed.

(** the escrow account of an IBC channel can never receive ATOX, whatever the
    route: a send of a positive amount to it fails. *)
Theorem escrow_never_receives w from port channel chs amt w' :
  channelKeeper k = Some chs → (port, channel) ∈ chs → 0 < AmountOf amt (atoxDenom k) →
  SendCoins (SendRestriction k) w from (GetEscrowAddress k port channel) amt ≠ (Ok tt, w').
Proof.
intros Hc Hin Hpos H. destruct w as [b s]. apply send_spec in H as (b1 & to' & b2 & s2 & b3 & _ & Hr & _).
unfold SendRestriction, restrict in Hr. rewrite (proj2 (Z.ltb_lt 0 _) Hpos) in Hr. cbn [negb] in Hr.
unfold rejectIBCEscrow in Hr. rewrite Hc in Hr.
assert (E : existsb (fun ch => bool_decide (GetEscrowAddress k port channel = GetEscrowAddress k ch.1 ch.2)) chs = true).
{ apply existsb_exists. exists (port, channel). split; [by apply list_elem_of_In|]. by rewrite bool_decide_true. }
by rewrite E in Hr.
Qed.
End machine.

(** ** The sweep visits every account *)
Lemma string_compare_zero key : ∀ x, String.leb (afterKey key) x = true ↔ String.leb key x = true ∧ x ≠ key.
Proof.
unfold afterKey, String.leb. induction key as [|c key IH]; intros [|c' x]; simpl.
- split; [done|by intros [_ []]].
- unfold Ascii.compare. destruct (N.compare_spec (Ascii.N_of_ascii Ascii.zero) (Ascii.N_of_ascii c')) as [E|E|E].
  + split; [done|]. by destruct x.
  + done.
  + change (Ascii.N_of_ascii Ascii.zero) with 0%N in E. lia.
- split; [done|by intros []].
- specialize (IH x). destruct (Ascii.compare c c') eqn:E.
  + assert (c = c') as -> by (by apply Ascii.compare_eq_iff). rewrite IH.
    split; intros [H1 H2]; (split; [done|congruence]).
  + split; [intros _; split; [done|]|done]. intros [= <- <-]. unfold Ascii.compare in E. by rewrite N.compare_refl in E.
  + split; [done|by intros []].
Qed.

Lemma filter_tail (P : string → Prop) `{∀ x, Decision (P x)} pre post :
  Forall (fun x => ¬ P x) pre → Forall P post → filter P (pre ++ post) = post.
Proof.
intros H1 H2. rewrite filter_app.
assert (filter P pre = []) as ->; [|assert (filter P post = post) as ->; [|done]].
- induction H1; [done|]. by rewrite filter_cons_False.
- induction H2; [done|]. rewrite filter_cons_True by done. by f_equal.
Qed.

Lemma filter_after keys cursor pre y post :
  StronglySorted string_le keys → NoDup keys → filter (fun x => string_le cursor x) keys = pre ++ y :: post →
  filter (fun x => string_le (afterKey y) x) keys = post.
Proof.
intros Hs Hnd H.
assert (Hcy : string_le cursor y).
{ assert (Hin : y ∈ filter (fun x => string_le cursor x) keys) by (rewrite H; set_solver).
  by apply list_elem_of_filter in Hin as [? _]. }
rewrite <- (list_filter_filter_l (fun x => string_le (afterKey y) x) (fun x => string_le cursor x)).
2:{ intros x [Hx _]%string_compare_zero. by etransitivity. }
assert (Hs' : StronglySorted string_le (pre ++ y :: post)).
{ rewrite <- H. clear -Hs. induction Hs as [|x l _ IH Hall]; [constructor|]. rewrite filter_cons. case_decide; [|done].
  constructor; [done|]. rewrite Forall_forall in *. intros z [_ Hz]%list_elem_of_filter. by apply Hall. }
assert (Hnd' : NoDup (pre ++ y :: post)) by (rewrite <- H; by apply NoDup_filter).
rewrite H. replace (pre ++ y :: post) with ((pre ++ [y]) ++ post) in * by (by rewrite <- app_assoc).
apply filter_tail; rewrite Forall_forall; intros x Hx.
- intros [H1 H2]%string_compare_zero. apply H2. apply elem_of_app in Hx as [Hx|Hx]; [|by apply list_elem_of_singleton in Hx].
  apply (anti_symm string_le); [|done]. rewrite <- app_assoc in Hs'.
  by eapply StronglySorted_app_1_elem_of in Hs'; [exact Hs'|done|set_solver].
- apply string_compare_zero. split.
  + eapply StronglySorted_app_1_elem_of in Hs'; [exact Hs'|set_solver|done].
  + intros ->. apply NoDup_app in Hnd' as (_ & Hd & _). apply (Hd y); [set_solver|done].
Qed.

Lemma accountKeys_sorted s : StronglySorted string_le (accountKeys s) ∧ NoDup (accountKeys s).
Proof.
unfold accountKeys. split; [apply StronglySorted_merge_sort; apply _|]. rewrite merge_sort_Permutation. apply NoDup_elements.
Qed.


(** ** A concrete chain

    A cap of 1000 aatox; alice mines 100; then 500 liao are released, which moves
    the index to one half. *)
#[local] Existing Instance bankers_dec.
#[local] Existing Instance bankers_dec_laws.
Module AtoxChain.
Definition keeper : Keeper :=
  mkKeeper (fun a => Some (String.prefix "module/" a)) (Some [("transfer", "channel-0")%string])
    (fun p c => ("escrow/" +:+ c)%string) (fun x => Some x) "gov" "liao" "aatox".
Definition params : Params := mkParams true 1000 50 0 1000.
Definition genesis : AtoxStore :=
  match InitGenesis true emptyAtoxStore (mkGenesisState params DefaultGlobalState [] "" ZeroDec) with
  | Ok s => s | Err _ => emptyAtoxStore end.
Definition bank0 : ledger := mkLedger {[("module/bridge", "liao") := 10000%N]}%string {["liao" := 10000%N]}%string.
Definition mined := MintAtox keeper (bank0, genesis) "alice" 100.
Definition released := AddToExchangePool keeper (mined.2.1, mined.2.2) "bridge" 500.
Definition b2 : ledger := released.2.1.
Definition s2 : AtoxStore := released.2.2.

Lemma atox_registered : isModuleAccount keeper (ModuleAddress AtoxModuleName) = true.
Proof. done. Qed.
Lemma pool_registered : isModuleAccount keeper ExchangePoolAddress = true.
Proof. done. Qed.
Lemma denoms : baseDenom keeper ≠ atoxDenom keeper.
Proof. done. Qed.
Lemma atox_genesis_ok : InitGenesis true emptyAtoxStore (mkGenesisState params DefaultGlobalState [] "" ZeroDec) = Ok genesis.
Proof. done. Qed.
Lemma no_atox a : AtoxBalance keeper bank0 a = 0.
Proof. unfold AtoxBalance, GetBalance. simpl. unfold l_balance. simpl. rewrite lookup_singleton_ne; [done|]. by intros [= ]. Qed.
Lemma no_supply : AtoxSupply keeper bank0 = 0.
Proof. done. Qed.
Lemma mined_ok : MintAtox keeper (bank0, genesis) "alice" 100 = (Ok tt, (mined.2.1, mined.2.2)).
Proof. by vm_compute. Qed.
Lemma released_ok : AddToExchangePool keeper (mined.2.1, mined.2.2) "bridge" 500 = (Ok tt, (b2, s2)).
Proof. by vm_compute. Qed.
Lemma run : rtc (step keeper) (bank0, genesis) (b2, s2).
Proof.
eapply rtc_l; [exact (step_mint keeper _ _ _ _ mined_ok)|].
eapply rtc_l; [|apply rtc_refl]. by apply (step_release keeper _ "bridge" 500); [|exact released_ok].
Qed.
Lemma genesis_safe : safe keeper 1000 (bank0, genesis).
Proof. exact (safe_genesis keeper 1000 true params genesis bank0 atox_genesis_ok eq_refl no_atox no_supply). Qed.
Lemma safe2 : safe keeper 1000 (b2, s2).
Proof. exact (atox_reachable keeper 1000 atox_registered pool_registered denoms _ _ run genesis_safe). Qed.
End AtoxChain.

Lemma everyone_can_claim_witness :
  sumZ (map (claimable AtoxChain.keeper (AtoxChain.b2, AtoxChain.s2)) ["alice"; "bob"]%string)
    <= ExchangePoolBalance AtoxChain.keeper AtoxChain.b2 ∧
  claimable AtoxChain.keeper (AtoxChain.b2, AtoxChain.s2) "alice" = 50.
Proof.
split; [|by vm_compute].
refine (proj1 (everyone_can_claim AtoxChain.keeper 1000 AtoxChain.atox_registered AtoxChain.pool_registered AtoxChain.denoms
  true AtoxChain.params AtoxChain.genesis AtoxChain.bank0 AtoxChain.b2 AtoxChain.s2 ["alice"; "bob"]%string
  AtoxChain.atox_genesis_ok eq_refl AtoxChain.no_atox AtoxChain.no_supply AtoxChain.run _ _)).
- by vm_compute; repeat constructor; set_solver.
- by repeat constructor.
Defined.

Lemma claim_pays_claimable_witness :
  ∃ b' s', ClaimAtos AtoxChain.keeper (AtoxChain.b2, AtoxChain.s2) (mkMsgClaimAtos "alice") =
    (Ok (claimable AtoxChain.keeper (AtoxChain.b2, AtoxChain.s2) "alice"), (b', s')) ∧ pendingOf s' "alice" = 0.
Proof.
assert (Hpos : 0 < claimable AtoxChain.keeper (AtoxChain.b2, AtoxChain.s2) "alice") by (by vm_compute).
assert (Hen : Enabled (GetParams AtoxChain.s2) = true) by (by vm_compute).
destruct (SettleAccount AtoxChain.keeper (AtoxChain.b2, AtoxChain.s2) "alice") as [[r|e] [b1 s1]] eqn:E; [|by vm_compute in E].
destruct (claim_pays_claimable AtoxChain.keeper 1000 AtoxChain.atox_registered AtoxChain.pool_registered AtoxChain.denoms
  AtoxChain.b2 AtoxChain.s2 (mkMsgClaimAtos "alice") "alice" r b1 s1 AtoxChain.safe2 Hen eq_refl eq_refl eq_refl Hpos E)
  as (b' & s' & H1 & _ & _ & _ & H5).
exists b', s'. split; [exact H1|exact H5].
Defined.

Lemma mint_no_history_witness :
  MintedAgainstCap AtoxChain.keeper (AtoxChain.mined.2.1, AtoxChain.mined.2.2) <= 1000 ∧
  AtoxBalance AtoxChain.keeper AtoxChain.mined.2.1 "alice" = 100.
Proof.
destruct (mint_no_history AtoxChain.keeper 1000 AtoxChain.atox_registered AtoxChain.pool_registered AtoxChain.denoms
  AtoxChain.bank0 AtoxChain.genesis "alice" 100 AtoxChain.mined.2.1 AtoxChain.mined.2.2 AtoxChain.genesis_safe eq_refl
  AtoxChain.mined_ok) as (_ & _ & H3 & _).
split; [exact H3|by vm_compute].
Defined.

Lemma transfer_within_sendable_witness :
  ∃ w', SendCoins (SendRestriction AtoxChain.keeper) (AtoxChain.b2, AtoxChain.s2) "alice" "bob" [("aatox", 30)]%string = (Ok tt, w') ∧
  30 <= 50.
Proof.
destruct (SendCoins (SendRestriction AtoxChain.keeper) (AtoxChain.b2, AtoxChain.s2) "alice" "bob" [("aatox", 30)]%string)
  as [[[]|e] w'] eqn:E; [|by vm_compute in E].
exists w'. split; [reflexivity|].
assert (HQ : QueryAccount AtoxChain.keeper (AtoxChain.b2, AtoxChain.s2) "alice" = Ok (50, 50, None, 50)) by (by vm_compute).
assert (Hv : coins_valid [("aatox", 30)]%string) by (repeat constructor; simpl; lia).
assert (Hpos : 0 < AmountOf [("aatox", 30)]%string (atoxDenom AtoxChain.keeper)) by (by vm_compute).
exact (proj1 (transfer_within_sendable AtoxChain.keeper 1000 AtoxChain.atox_registered AtoxChain.pool_registered AtoxChain.denoms
  AtoxChain.b2 AtoxChain.s2 "alice" "bob" [("aatox", 30)]%string w' "alice" 50 50 None 50 AtoxChain.safe2 Hv eq_refl
  ltac:(discriminate) Hpos eq_refl E HQ)).
Defined.

Lemma escrow_never_receives_witness :
  SendCoins (SendRestriction AtoxChain.keeper) (AtoxChain.b2, AtoxChain.s2) "alice" "escrow/channel-0" [("aatox", 30)]%string
    ≠ (Ok tt, (AtoxChain.b2, AtoxChain.s2)).
Proof.
refine (escrow_never_receives AtoxChain.keeper (AtoxChain.b2, AtoxChain.s2) "alice" "transfer" "channel-0"
  [("transfer", "channel-0")%string] [("aatox", 30)]%string (AtoxChain.b2, AtoxChain.s2) eq_refl _ _); [set_solver|by vm_compute].
Defined.


Lemma inclusive_fee_effect_witness :
  ∃ b' s', ChargeInclusiveFee AtoxChain.keeper (AtoxChain.b2, AtoxChain.s2) "alice" "bob" [("aatox", 30)]%string = (Ok tt, (b', s')) ∧
  AtoxBalance AtoxChain.keeper b' "alice" = 100 - 30 - 50.
Proof.
assert (Hv : coins_valid [("aatox", 30)]%string) by (repeat constructor; simpl; lia).
assert (Hpos : 0 < AmountOf [("aatox", 30)]%string (atoxDenom AtoxChain.keeper)) by (by vm_compute).
assert (Hnd : NoDup (map fst [("aatox"%string, 30)])) by (apply NoDup_singleton).
assert (Hb : 0 <= TransferFeeBps AtoxChain.s2) by (by vm_compute).
destruct (ChargeInclusiveFee AtoxChain.keeper (AtoxChain.b2, AtoxChain.s2) "alice" "bob" [("aatox", 30)]%string)
  as [[[]|e] [b' s']] eqn:E; [|by vm_compute in E].
exists b', s'. split; [reflexivity|].
destruct (inclusive_fee_effect AtoxChain.keeper 1000 AtoxChain.atox_registered AtoxChain.pool_registered AtoxChain.denoms
  AtoxChain.b2 AtoxChain.s2 "alice" "bob" [("aatox", 30)]%string b' s' AtoxChain.safe2 Hv Hnd Hb eq_refl eq_refl
  ltac:(discriminate) Hpos E) as (_ & H & _).
assert (Ho : owedOf (AtoxBalance AtoxChain.keeper AtoxChain.b2) AtoxChain.s2 "alice" = 50) by (clear; by vm_compute).
assert (Hb0 : AtoxBalance AtoxChain.keeper AtoxChain.b2 "alice" = 100) by (clear; by vm_compute).
assert (Hm : AmountOf [("aatox"%string, 30)] (atoxDenom AtoxChain.keeper) = 30) by (clear; by vm_compute).
rewrite Ho, Hb0, Hm in H. clear -H. lia.
Defined.

(** [MultiSend] asks whether the input's coins may be sent, and then sends the
    outputs' coins: a denom that is switched off moves when only an output names
    it. *)
Example MultiSend_ignores_output_denoms :
  let enabled cs := if bool_decide ("frozen"%string ∈ map fst cs) then Err (Plain "send disabled") else Ok tt in
  let bank := mkLedger {[("alice", "frozen")%string := 5%N]} ∅ in
  let msg := mkMsgMultiSend [("alice", [])]%string [("bob", [("frozen", 5)])]%string in
  ∃ w, MultiSend enabled AtoxChain.keeper (bank, AtoxChain.genesis) msg = (Ok tt, w) ∧
    enabled [("frozen"%string, 5)] = Err (Plain "send disabled") ∧ l_balance w.1 "bob" "frozen" = 5.
Proof. eexists. split; [vm_compute; reflexivity|]. by vm_compute. Qed.
