(* ===== verification/BridgePayload.v ===== *)
(** * x/bridgeadapter/types: wire formats and the peg

    Models the pure part of src/x/bridgeadapter/types/helpers.go (tier-release
    messages, [Erc20ToAtos]) and src/x/bridgeadapter/types/ratelimit.go (asset
    payload, addresses, [AtosToErc20]).  Byte strings are lists of bytes; the
    [math/big] conversions [Bytes] and [SetBytes] are big-endian, so they are
    the reversals of coqutil's little-endian splitting and combining. *)

From stdpp Require Import base list option strings.
From coqutil Require Import Byte.
From coqutil Require LittleEndianList.
From Stdlib Require Import ZArith Lia.
From S2P Require Import Prelude.
Import LittleEndianList.

Open Scope Z_scope.

Abbreviation bytes := (list Byte.byte) (only parsing).
#[export] Instance byte_eq_dec : EqDecision Byte.byte := Byte.byte_eq_dec.

Definition zeroByte : Byte.byte := Byte.x00.

(** ** Errors (types/errors.go) *)
Definition ModuleName : string := "bridgeadapter".
Definition ErrDisabled := Registered ModuleName 2.
Definition ErrWrongOrigin := Registered ModuleName 4.
Definition ErrWrongSender := Registered ModuleName 5.
Definition ErrInvalidPayload := Registered ModuleName 6.
Definition ErrTargetWentBackward := Registered ModuleName 7.
Definition ErrExceedsAuthorized := Registered ModuleName 8.
Definition ErrUnknownRecipient := Registered ModuleName 9.
Definition ErrAppNotInitialized := Registered ModuleName 10.
Definition ErrBridgeDisabled := Registered ModuleName 11.
Definition ErrInvalidAmount := Registered ModuleName 12.
Definition ErrBelowMinimum := Registered ModuleName 13.
Definition ErrDailyCapReached := Registered ModuleName 14.
Definition ErrLargeQuotaReached := Registered ModuleName 15.
Definition ErrAddressCapReached := Registered ModuleName 16.
Definition ErrCrisisMode := Registered ModuleName 17.
Definition ErrIndivisibleAmount := Registered ModuleName 18.
Definition ErrPoolInsufficient := Registered ModuleName 19.
Definition ErrNotConfigured := Registered ModuleName 20.
Definition ErrInboundCapReached := Registered ModuleName 21.
Definition ErrWrongMailbox := Registered ModuleName 22.
Definition ErrIsmNotConfigured := Registered ModuleName 23.
Definition ErrAboveMaximum := Registered ModuleName 24.
Definition ErrNotGuardian := Registered ModuleName 25.

(** ** Constants (types/keys.go) *)
Definition TierMessagePayloadLen : nat := 96.
Definition AssetPayloadLen : nat := 64.
Definition HexAddressLen : nat := 32.
Definition MsgTypeTierRelease : Z := 1.
Definition MsgTypeReleaseReceipt : Z := 2.
Definition BpsDenominator : Z := 10000.
Definition MaxInt64 : Z := 2 ^ 63 - 1.

(** ** Big-endian integers ([math/big], [math/bits]) *)
Definition BitLen (x : Z) : Z := if x =? 0 then 0 else Z.log2 (Z.abs x) + 1.
Definition SetBytes (l : bytes) : Z := le_combine (rev l).
(** The shortest big-endian representation of |x|. *)
Definition Bytes (x : Z) : bytes := rev (le_split (Z.to_nat ((BitLen x + 7) / 8)) (Z.abs x)).
(** Go's [copy(out[i:i+len(src)], src)] with the range inside [out]. *)
Definition copyAt (i : nat) (src out : bytes) : bytes := take i out ++ src ++ drop (i + length src) out.

(** ** Tier-release messages *)
Definition parseTierMessage (payload : bytes) (wantType : Z) : result (Z * Z) :=
  guard! (length payload =? TierMessagePayloadLen)%nat else ErrInvalidPayload;
  guard! forallb (fun b => bool_decide (b = zeroByte)) (take 31 payload) else ErrInvalidPayload;
  guard! byte.unsigned (nth 31 payload zeroByte) =? wantType else ErrInvalidPayload;
  Ok (SetBytes (take 32 (drop 32 payload)), SetBytes (take 32 (drop 64 payload))).

Definition buildTierMessage (msgType first second : Z) : result bytes :=
  if (first <? 0) || (second <? 0) then Err ErrInvalidPayload
  else
    let a := Bytes first in
    let b := Bytes second in
    if ((32 <? length a) || (32 <? length b))%nat then Err ErrInvalidPayload
    else
      let out := replicate TierMessagePayloadLen zeroByte in
      let out := <[31%nat := byte.of_Z msgType]> out in
      let out := copyAt (64 - length a) a out in
      Ok (copyAt (96 - length b) b out).

Definition ParseReceipt (payload : bytes) : result (Z * Z) := parseTierMessage payload MsgTypeReleaseReceipt.
Definition BuildReceipt (toBridge toProject : Z) : result bytes :=
  buildTierMessage MsgTypeReleaseReceipt toBridge toProject.
Definition BuildTierRelease (cumulativeMiner cumulativeProject : Z) : result bytes :=
  buildTierMessage MsgTypeTierRelease cumulativeMiner cumulativeProject.
Definition ParseTierRelease (payload : bytes) : result (Z * Z) := parseTierMessage payload MsgTypeTierRelease.

(** ** Asset transfers *)
Definition BuildAssetPayload (recipient : bytes) (erc20Amount : Z) : result bytes :=
  guard! (length recipient =? HexAddressLen)%nat else ErrInvalidPayload;
  guard! 0 <? erc20Amount else ErrInvalidAmount;
  let amt := Bytes erc20Amount in
  guard! negb (32 <? length amt)%nat else ErrInvalidPayload;
  let out := replicate AssetPayloadLen zeroByte in
  let out := copyAt 0 recipient out in
  Ok (copyAt (64 - length amt) amt out).

Definition ParseAssetPayload (payload : bytes) : result (bytes * Z) :=
  guard! (length payload =? AssetPayloadLen)%nat else ErrInvalidPayload;
  Ok (take 32 payload, SetBytes (take 32 (drop 32 payload))).

(** The 20 account bytes of a left-padded Hyperlane address. *)
Definition CosmosAddressFromHyperlane (a : bytes) : result bytes :=
  guard! (length a =? HexAddressLen)%nat else ErrInvalidPayload;
  guard! forallb (fun b => bool_decide (b = zeroByte)) (take 12 a) else ErrInvalidPayload;
  let allZero := forallb (fun b => bool_decide (b = zeroByte)) (take 20 (drop 12 a)) in
  guard! negb allZero else ErrInvalidPayload;
  Ok (take 20 (drop 12 a)).

(** ** The peg *)
Definition Erc20ToAtos (erc20 atosPerErc20 : Z) : result Z :=
  if negb (0 <? erc20) || (atosPerErc20 =? 0) then Ok 0
  else if 256 <? BitLen erc20 + BitLen atosPerErc20 then Err ErrInvalidAmount
  else Ok (erc20 * i64 atosPerErc20).

Definition AtosToErc20 (atos atosPerErc20 : Z) : result Z :=
  if negb (0 <? atos) then Err ErrInvalidAmount
  else if atosPerErc20 =? 0 then Err (Plain "atos_per_erc20 must be positive")
  else if negb (atos mod atosPerErc20 =? 0) then Err ErrIndivisibleAmount
  else Ok (Z.quot atos atosPerErc20).

(** ** Fixed-width words *)

(** The 32-byte big-endian word of [x]. *)
Definition word (x : Z) : bytes := rev (le_split 32 x).

Lemma length_word x : length (word x) = 32%nat.
Proof. unfold word. rewrite length_rev. apply length_le_split. Qed.

Lemma SetBytes_word x : 0 <= x < 2 ^ 256 → SetBytes (word x) = x.
Proof.
intros H. unfold SetBytes, word. rewrite rev_involutive, le_combine_split. apply Z.mod_small. exact H.
Qed.

Lemma word_SetBytes l : length l = 32%nat → word (SetBytes l) = l.
Proof.
intros H. unfold SetBytes, word. rewrite (split_le_combine' (rev l)) by (by rewrite length_rev).
apply rev_involutive.
Qed.

Lemma SetBytes_range l : length l = 32%nat → 0 <= SetBytes l < 2 ^ 256.
Proof.
intros H. unfold SetBytes. pose proof (le_combine_bound (rev l)) as B. rewrite length_rev, H in B. exact B.
Qed.

Lemma BitLen_spec x : 0 <= x → 0 <= BitLen x ∧ x < 2 ^ BitLen x ∧ (0 < x → 2 ^ (BitLen x - 1) <= x).
Proof.
intros H. unfold BitLen. destruct (x =? 0) eqn:E; boolP; [subst; simpl; lia|].
rewrite Z.abs_eq by lia. pose proof (Z.log2_nonneg x). pose proof (Z.log2_spec x ltac:(lia)) as [H1 H2].
replace (Z.log2 x + 1 - 1) with (Z.log2 x) by lia. rewrite Z.add_1_r. split_and!; [lia|done|done].
Qed.

Lemma BitLen_le x n : 0 <= n → 0 <= x < 2 ^ n → BitLen x <= n.
Proof.
intros Hn H. pose proof (BitLen_spec x ltac:(lia)) as (H0 & _ & H1).
destruct (decide (x = 0)) as [->|]; [done|]. specialize (H1 ltac:(lia)).
assert (BitLen x - 1 < n); [|lia]. apply (Z.pow_lt_mono_r_iff 2); lia.
Qed.

(** [Bytes x] is at most 32 bytes long exactly when [x] fits in a word. *)
Lemma length_Bytes x : 0 <= x → (length (Bytes x) <= 32)%nat ↔ x < 2 ^ 256.
Proof.
intros Hx. unfold Bytes. rewrite length_rev, length_le_split.
pose proof (BitLen_spec x Hx) as (H0 & H1 & H2). split; intros H.
- assert (BitLen x <= 256) by (pose proof (Z.div_mod (BitLen x + 7) 8); pose proof (Z.mod_pos_bound (BitLen x + 7) 8); lia).
  pose proof (Z.pow_le_mono_r 2 (BitLen x) 256). lia.
- pose proof (BitLen_le x 256 ltac:(lia) ltac:(lia)). pose proof (Z.div_le_mono (BitLen x + 7) 263 8). 
  change (263 / 8) with 32 in *. lia.
Qed.

Lemma rev_replicate {A} n (x : A) : rev (replicate n x) = replicate n x.
Proof. rewrite <- (reverse_replicate n x) at 2. unfold reverse. by rewrite rev_append_rev, app_nil_r. Qed.

Lemma repeat_replicate {A} n (x : A) : repeat x n = replicate n x.
Proof. induction n; simpl; congruence. Qed.

(** Padding the shortest representation gives the word. *)
Lemma word_Bytes x : 0 <= x < 2 ^ 256 → word x = replicate (32 - length (Bytes x)) zeroByte ++ Bytes x.
Proof.
intros Hx. assert (Hl := proj2 (length_Bytes x ltac:(lia)) ltac:(lia)).
unfold word. rewrite <- (rev_replicate (32 - length (Bytes x))). unfold Bytes in *.
rewrite length_rev, length_le_split in *. rewrite <- rev_app_distr. f_equal.
set (n := Z.to_nat ((BitLen x + 7) / 8)) in *. rewrite <- repeat_replicate. apply le_combine_inj.
- rewrite length_app, !length_le_split, repeat_replicate, length_replicate. lia.
- rewrite le_combine_app_0, !le_combine_split, Z.abs_eq by lia.
  pose proof (BitLen_spec x ltac:(lia)) as (H0 & H1 & _).
  rewrite Z.mod_small by (split; [lia|exact (proj2 Hx)]). symmetry. apply Z.mod_small. split; [lia|].
  pose proof (Z.pow_le_mono_r 2 (BitLen x) (Z.of_nat n * 8) ltac:(lia)).
  assert (BitLen x <= Z.of_nat n * 8); [|lia].
  pose proof (Z.div_mod (BitLen x + 7) 8); pose proof (Z.mod_pos_bound (BitLen x + 7) 8). lia.
Qed.

Lemma copyAt_word pre post x :
  0 <= x < 2 ^ 256 →
  copyAt (length pre + 32 - length (Bytes x)) (Bytes x) (pre ++ replicate 32 zeroByte ++ post) = pre ++ word x ++ post.
Proof.
intros Hx. assert (Hl := proj2 (length_Bytes x ltac:(lia)) ltac:(lia)).
rewrite word_Bytes by done. set (n := length (Bytes x)) in *.
unfold copyAt. fold n. replace (length pre + 32 - n)%nat with (length pre + (32 - n))%nat by lia.
rewrite take_app_add, take_app_le by (rewrite length_replicate; lia). rewrite take_replicate.
replace (length pre + (32 - n) + n)%nat with (length pre + 32)%nat by lia.
rewrite drop_app_add. rewrite (drop_app_length' (replicate 32 zeroByte)) by done.
rewrite Nat.min_l by lia. by rewrite <- !app_assoc.
Qed.

Lemma forallb_zero l : forallb (fun b => bool_decide (b = zeroByte)) l = true ↔ l = replicate (length l) zeroByte.
Proof.
induction l as [|b l IH]; [done|]. cbn [forallb length replicate]. rewrite andb_true_iff, IH, bool_decide_eq_true.
split; [intros [-> H]; by f_equal|intros [= -> H]; by rewrite <- H].
Qed.

(** The first word of a tier message: a [uint8], padded. *)
Definition typeWord (t : Z) : bytes := replicate 31 zeroByte ++ [byte.of_Z t].

Lemma tier_body t a b :
  0 <= a < 2 ^ 256 → 0 <= b < 2 ^ 256 →
  copyAt (96 - length (Bytes b)) (Bytes b) (copyAt (64 - length (Bytes a)) (Bytes a)
    (<[31%nat := byte.of_Z t]> (replicate TierMessagePayloadLen zeroByte))) = typeWord t ++ word a ++ word b.
Proof.
intros Ha Hb. pose proof (copyAt_word (typeWord t) (replicate 32 zeroByte) a Ha) as Ca.
pose proof (copyAt_word (typeWord t ++ word a) [] b Hb) as Cb.
rewrite length_app, length_word, !app_nil_r, <- !app_assoc in Cb.
change (length (typeWord t)) with 32%nat in Ca, Cb.
rewrite <- Cb. apply (f_equal (copyAt _ _)). exact Ca.
Qed.

Lemma build_shape t a b body :
  buildTierMessage t a b = Ok body ↔
  0 <= a < 2 ^ 256 ∧ 0 <= b < 2 ^ 256 ∧ body = typeWord t ++ word a ++ word b.
Proof.
unfold buildTierMessage. destruct (_ || _) eqn:E1; boolP.
{ split; [done|]. intros (Ha & Hb & _). apply orb_true_iff in E1 as [E|E]; boolP; lia. }
pose proof (length_Bytes a ltac:(lia)). pose proof (length_Bytes b ltac:(lia)).
destruct (_ || _)%nat eqn:E2.
{ split; [done|]. intros (Ha & Hb & _). apply orb_true_iff in E2 as [E%Nat.ltb_lt|E%Nat.ltb_lt]; lia. }
apply orb_false_iff in E2 as [Ea%Nat.ltb_ge Eb%Nat.ltb_ge].
cbv zeta. rewrite tier_body by lia. split; [intros [= <-]; split_and!; done || lia|by intros (_ & _ & ->)].
Qed.

Lemma parse_shape t a b body :
  0 <= t < 256 →
  parseTierMessage body t = Ok (a, b) ↔
  0 <= a < 2 ^ 256 ∧ 0 <= b < 2 ^ 256 ∧ body = typeWord t ++ word a ++ word b.
Proof.
intros Ht. unfold parseTierMessage. rewrite !guard_Ok, Nat.eqb_eq, forallb_zero, Z.eqb_eq. split.
- intros (Hl & Hz & Hu & [= <- <-]). unfold TierMessagePayloadLen in Hl.
  assert (L1 : length (take 32 (drop 32 body)) = 32%nat) by (rewrite length_take, length_drop; lia).
  assert (L2 : length (take 32 (drop 64 body)) = 32%nat) by (rewrite length_take, length_drop; lia).
  split_and!; [by apply SetBytes_range..|]. rewrite !word_SetBytes by done.
  rewrite length_take, Nat.min_l in Hz by lia. unfold typeWord. rewrite <- Hz.
  assert (H31 : take 32 body = take 31 body ++ [byte.of_Z t]).
  { destruct (lookup_lt_is_Some_2 body 31) as [x Hx]; [lia|]. rewrite (take_S_r _ _ _ Hx). do 2 f_equal.
    rewrite (nth_lookup_Some _ _ _ _ Hx) in Hu. apply byte.unsigned_inj. rewrite byte.unsigned_of_Z. unfold byte.wrap.
    rewrite Z.mod_small by lia. done. }
  rewrite <- H31. replace 64%nat with (32 + 32)%nat by done. rewrite <- drop_drop.
  rewrite (take_ge (drop 32 (drop 32 body))) by (rewrite !length_drop; lia). by rewrite !take_drop.
- intros (Ha & Hb & ->). pose proof (length_word a) as La. pose proof (length_word b) as Lb.
  assert (Ht31 : take 31 (typeWord t ++ word a ++ word b) = replicate 31 zeroByte) by done.
  split_and!.
  + rewrite !length_app, La, Lb. done.
  + by rewrite Ht31.
  + unfold typeWord. rewrite <- !app_assoc, app_nth2, length_replicate by (rewrite length_replicate; lia).
    cbn. rewrite byte.unsigned_of_Z. unfold byte.wrap. apply Z.mod_small. lia.
  + rewrite (drop_app_length' (typeWord t)) by done. rewrite (take_app_length' (word a)) by done.
    rewrite app_assoc, (drop_app_length' (typeWord t ++ word a)) by (by rewrite length_app, La).
    rewrite take_ge by lia. by rewrite !SetBytes_word.
Qed.

(** What is parsed is what was built. *)
Lemma parse_build t body a b : 0 <= t < 256 → parseTierMessage body t = Ok (a, b) ↔ buildTierMessage t a b = Ok body.
Proof. intros Ht. by rewrite build_shape, parse_shape. Qed.

(** C16: the tier-message format is a bijection: a body is accepted for a message
    type and a pair of amounts exactly when it is the encoding of that type and
    pair, every pair of 256-bit amounts has an encoding, and a body of one type
    is refused where another is expected. *)
Theorem tier_message_codec t :
  0 <= t < 256 →
  (∀ body a b, parseTierMessage body t = Ok (a, b) ↔ buildTierMessage t a b = Ok body) ∧
  (∀ a b, (∃ body, buildTierMessage t a b = Ok body) ↔ 0 <= a < 2 ^ 256 ∧ 0 <= b < 2 ^ 256) ∧
  (∀ t' body a b, 0 <= t' < 256 → t' ≠ t → buildTierMessage t a b = Ok body →
    parseTierMessage body t' = Err ErrInvalidPayload).
Proof.
intros Ht. split_and!.
- intros body a b. by apply parse_build.
- intros a b. setoid_rewrite build_shape. naive_solver.
- intros t' body a b Ht' Hne Hb. destruct (parseTierMessage body t') as [[a' b']|e] eqn:E.
  + apply parse_shape in E as (_ & _ & E); [|done]. apply build_shape in Hb as (_ & _ & Hb). rewrite Hb in E.
    apply (f_equal (fun l => byte.unsigned (nth 31 l zeroByte))) in E. cbn in E.
    rewrite !byte.unsigned_of_Z in E. unfold byte.wrap in E. rewrite !Z.mod_small in E by lia. congruence.
  + unfold parseTierMessage in E. repeat case_match; congruence.
Qed.

Lemma tier_message_codec_witness :
  ∃ body, buildTierMessage 2 700 300 = Ok body ∧ parseTierMessage body 2 = Ok (700, 300) ∧
    parseTierMessage body 1 = Err ErrInvalidPayload.
Proof.
destruct (tier_message_codec 2 ltac:(lia)) as (H1 & H2 & H3).
destruct (proj2 (H2 700 300) ltac:(lia)) as [body Hb]. exists body.
exact (conj Hb (conj (proj2 (H1 body 700 300) Hb) (H3 1 body 700 300 ltac:(lia) ltac:(lia) Hb))).
Defined.

(** ** Asset payloads and addresses *)
Lemma BuildAsset_shape r x body :
  BuildAssetPayload r x = Ok body ↔ length r = 32%nat ∧ 0 < x < 2 ^ 256 ∧ body = r ++ word x.
Proof.
unfold BuildAssetPayload. rewrite !guard_Ok, Nat.eqb_eq, Z.ltb_lt, negb_true_iff, Nat.ltb_ge.
unfold HexAddressLen. split.
- intros (Hr & Hx & Hl & H). rewrite length_Bytes in Hl by lia. split_and!; [done..|lia|].
  injection H as <-. pose proof (copyAt_word r [] x ltac:(lia)) as C. rewrite Hr, !app_nil_r in C.
  rewrite <- C. apply (f_equal (copyAt _ _)). unfold copyAt. rewrite Hr. done.
- intros (Hr & Hx & ->). split_and!; [done|lia|apply length_Bytes; lia|]. f_equal.
  pose proof (copyAt_word r [] x ltac:(lia)) as C. rewrite Hr, !app_nil_r in C.
  rewrite <- C. apply (f_equal (copyAt _ _)). unfold copyAt. rewrite Hr. done.
Qed.

Lemma ParseAsset_shape r x body :
  ParseAssetPayload body = Ok (r, x) ↔ length r = 32%nat ∧ 0 <= x < 2 ^ 256 ∧ body = r ++ word x.
Proof.
unfold ParseAssetPayload. rewrite guard_Ok, Nat.eqb_eq. unfold AssetPayloadLen. split.
- intros (Hl & [= <- <-]).
  assert (L : length (take 32 (drop 32 body)) = 32%nat) by (rewrite length_take, length_drop; lia).
  split_and!; [rewrite length_take; lia|by apply SetBytes_range..|]. rewrite word_SetBytes by done.
  rewrite (take_ge (drop 32 body)) by (rewrite length_drop; lia). by rewrite take_drop.
- intros (Hr & Hx & ->). rewrite length_app, length_word, Hr. split; [done|].
  rewrite (take_app_length' r), (drop_app_length' r) by done. rewrite take_ge by (by rewrite length_word).
  by rewrite SetBytes_word.
Qed.

Lemma CosmosAddress_shape a acc :
  CosmosAddressFromHyperlane a = Ok acc ↔
  a = replicate 12 zeroByte ++ acc ∧ length acc = 20%nat ∧ acc ≠ replicate 20 zeroByte.
Proof.
unfold CosmosAddressFromHyperlane. rewrite !guard_Ok, Nat.eqb_eq, forallb_zero, negb_true_iff, <- not_true_iff_false, forallb_zero.
unfold HexAddressLen. split.
- intros (Hl & Hz & Hn & [= <-]). rewrite length_take, Nat.min_l in Hz by lia. rewrite <- Hz.
  assert (L : length (take 20 (drop 12 a)) = 20%nat) by (rewrite length_take, length_drop; lia). rewrite L in Hn.
  split_and!; [|done..]. rewrite (take_ge (drop 12 a)) by (rewrite length_drop; lia). by rewrite take_drop.
- intros (-> & Hl & Hn). rewrite length_app, length_replicate, Hl. split; [done|].
  rewrite (take_app_length' (replicate 12 zeroByte)), (drop_app_length' (replicate 12 zeroByte)) by done.
  rewrite take_ge by lia. rewrite length_replicate, Hl. done.
Qed.

(** an asset body is accepted with a positive amount exactly when it encodes
    that recipient and amount, and a recipient word is accepted exactly when it
    is a non-zero 20-byte account padded with 12 zero bytes, so no two accepted
    bodies name the same account and amount. *)
Theorem asset_payload_codec body r x acc :
  ParseAssetPayload body = Ok (r, x) ∧ 0 < x ∧ CosmosAddressFromHyperlane r = Ok acc ↔
  BuildAssetPayload (replicate 12 zeroByte ++ acc) x = Ok body ∧ r = replicate 12 zeroByte ++ acc ∧
  acc ≠ replicate 20 zeroByte.
Proof.
rewrite ParseAsset_shape, BuildAsset_shape, CosmosAddress_shape, length_app, length_replicate. split.
- intros ((Hr & Hx & ->) & Hp & -> & Hl & Hn). split_and!; [lia..|done|done|done].
- intros ((Hr & Hx & ->) & -> & Hn). split_and!; [rewrite length_app, length_replicate|..]; done || lia.
Qed.

(** ** Peg arithmetic *)
Lemma Erc20ToAtos_exact erc20 peg :
  0 < peg <= MaxInt64 → 0 <= erc20 → ∀ x, Erc20ToAtos erc20 peg = Ok x → x = erc20 * peg ∧ x < 2 ^ 256.
Proof.
intros Hp He x. unfold Erc20ToAtos. destruct (_ || _) eqn:E.
{ intros [= <-]. apply orb_true_iff in E as [E|E]; boolP; [assert (erc20 = 0) as -> by lia; lia|lia]. }
boolP. destruct (_ <? _) eqn:E'; [done|]. boolP. intros [= <-]. rewrite i64_small by (unfold is_i64, MaxInt64 in *; lia).
split; [done|]. pose proof (BitLen_spec erc20 He) as (A0 & A1 & _). pose proof (BitLen_spec peg ltac:(lia)) as (B0 & B1 & _).
pose proof (Z.pow_add_r 2 (BitLen erc20) (BitLen peg) ltac:(lia) ltac:(lia)).
pose proof (Z.pow_le_mono_r 2 (BitLen erc20 + BitLen peg) 256 ltac:(lia) ltac:(lia)). nia.
Qed.

Lemma Erc20ToAtos_total erc20 peg :
  0 < peg <= MaxInt64 → 0 <= erc20 → erc20 * peg < 2 ^ 255 → Erc20ToAtos erc20 peg = Ok (erc20 * peg).
Proof.
intros Hp He Hx. unfold Erc20ToAtos. destruct (0 <? erc20) eqn:E0; boolP; cbn [negb orb].
2:{ assert (erc20 = 0) as -> by lia. done. }
rewrite (proj2 (Z.eqb_neq peg 0)) by lia. destruct (256 <? _) eqn:E; boolP.
- pose proof (BitLen_spec erc20 He) as (A0 & _ & A1). pose proof (BitLen_spec peg ltac:(lia)) as (B0 & _ & B1).
  specialize (A1 ltac:(lia)). specialize (B1 ltac:(lia)).
  assert (0 < BitLen erc20 ∧ 0 < BitLen peg).
  { unfold BitLen. rewrite !(proj2 (Z.eqb_neq _ 0)) by lia. pose proof (Z.log2_nonneg (Z.abs erc20)).
    pose proof (Z.log2_nonneg (Z.abs peg)). lia. }
  pose proof (Z.pow_add_r 2 (BitLen erc20 - 1) (BitLen peg - 1) ltac:(lia) ltac:(lia)).
  pose proof (Z.pow_le_mono_r 2 255 (BitLen erc20 - 1 + (BitLen peg - 1)) ltac:(lia) ltac:(lia)).
  assert (0 < 2 ^ (BitLen erc20 - 1)) by (apply Z.pow_pos_nonneg; lia). nia.
- by rewrite i64_small by (unfold is_i64, MaxInt64 in *; lia).
Qed.

Lemma AtosToErc20_exact atos peg : 0 < peg →
  ∀ e, AtosToErc20 atos peg = Ok e ↔ 0 < e ∧ atos = e * peg.
Proof.
intros Hp e. unfold AtosToErc20. destruct (0 <? atos) eqn:E0; boolP; cbn [negb]; [|split; [done|nia]].
rewrite (proj2 (Z.eqb_neq peg 0)) by lia. pose proof (Z.div_mod atos peg ltac:(lia)) as Hd.
destruct (atos mod peg =? 0) eqn:E; boolP; cbn [negb].
- rewrite Z.quot_div_nonneg by lia. split; [intros [= <-]; nia|]. intros [He ->]. by rewrite Z.div_mul by lia.
- split; [done|]. intros [_ ->]. by rewrite Z.mod_mul in E by lia.
Qed.

(** the peg is exact in both directions and never overflows: locking ATOS for
    an outbound transfer and paying the same ERC20 amount back in returns the
    same ATOS, a conversion that succeeds stays below 2^256, and only products
    of at least 2^255 are refused. *)
Theorem peg_exact peg :
  0 < peg <= MaxInt64 →
  (∀ atos e, atos < 2 ^ 255 → AtosToErc20 atos peg = Ok e → Erc20ToAtos e peg = Ok atos) ∧
  (∀ e atos, 0 < e → Erc20ToAtos e peg = Ok atos → AtosToErc20 atos peg = Ok e ∧ atos < 2 ^ 256) ∧
  (∀ e err, Erc20ToAtos e peg = Err err → 2 ^ 255 <= e * peg).
Proof.
intros Hp. split_and!.
- intros atos e Ha [He ->]%AtosToErc20_exact; [|lia]. apply Erc20ToAtos_total; lia.
- intros e atos He H. destruct (Erc20ToAtos_exact e peg Hp ltac:(lia) atos H) as [-> ?].
  split; [|done]. apply AtosToErc20_exact; lia.
- intros e err H. destruct (decide (0 <= e)).
  + apply Z.nlt_ge. intros Hlt. by rewrite Erc20ToAtos_total in H.
  + unfold Erc20ToAtos in H. by rewrite (proj2 (Z.ltb_ge 0 e)) in H by lia.
Qed.

Lemma peg_exact_witness : Erc20ToAtos 7 100 = Ok 700 ∧ AtosToErc20 700 100 = Ok 7.
Proof.
destruct (peg_exact 100 ltac:(done)) as (H1 & H2 & _).
exact (conj (H1 700 7 ltac:(done) eq_refl) (proj1 (H2 7 700 ltac:(lia) eq_refl))).
Defined.
