(* ===== verification/BridgeLimits.v ===== *)
(** * x/bridgeadapter/types: parameters, state and rate limits

    Models src/x/bridgeadapter/types/helpers.go (parameters, receipt state,
    genesis) and src/x/bridgeadapter/types/ratelimit.go.  A nil [math.Int] takes
    the branch of a negative one wherever this package tests for it, so amounts
    of the parameters are plain integers here. *)

From stdpp Require Import base list option strings gmap.
From Stdlib Require Import ZArith Lia.
From S2P Require Import Prelude BridgePayload.

Open Scope Z_scope.

(** ** Parameters *)
Record Params := mkParams {
  Enabled : bool;
  EthereumDomain : Z;
  TierReleaseVault : bytes;
  AtosPerErc20 : Z;
  BridgeEnabled : bool;
  MailboxId : bytes;
  RemoteBridgeVault : bytes;
  GlobalDailyCap : Z;
  GlobalDailyCapBpsOfPool : Z;
  PerAddressDailyBps : Z;
  MinTransferOut : Z;
  SmallTransferThreshold : Z;
  SmallQuotaBps : Z;
  CrisisPoolBps : Z;
  IsmId : bytes;
  InboundDailyCap : Z;
  InboundDailyCapBpsOfPool : Z;
  RateLimitsDisabled : bool;
  pMaxTransferIn : Z;
  pMaxTransferOut : Z;
  InboundPerAddressDailyBps : Z;
  pInboundSmallThreshold : Z;
  Guardians : list string;
}.

Definition DefaultAtosPerErc20 : Z := 100.
Definition DefaultEthereumDomain : Z := 1.

Definition DefaultParams : Params := {|
  Enabled := false; EthereumDomain := DefaultEthereumDomain; TierReleaseVault := [];
  AtosPerErc20 := DefaultAtosPerErc20; BridgeEnabled := false; MailboxId := []; RemoteBridgeVault := [];
  GlobalDailyCap := 5 * 10 ^ 27; GlobalDailyCapBpsOfPool := 500; PerAddressDailyBps := 200;
  MinTransferOut := 10 ^ 21; SmallTransferThreshold := 10 ^ 23; SmallQuotaBps := 2000; CrisisPoolBps := 1000;
  IsmId := []; InboundDailyCap := 3 * 10 ^ 27; InboundDailyCapBpsOfPool := 100; RateLimitsDisabled := false;
  pMaxTransferIn := 0; pMaxTransferOut := 0; InboundPerAddressDailyBps := 0; pInboundSmallThreshold := 10 ^ 24;
  Guardians := [];
|}.

Definition hexLen (l : bytes) : bool := (length l =? HexAddressLen)%nat.

(** [len(x) != 0 && len(x) != HexAddressLen]. *)
Definition malformedHex (l : bytes) : bool := negb (length l =? 0)%nat && negb (hexLen l).

(** The guardian loop of [Validate]: well-formed and pairwise distinct. *)
Fixpoint guardiansValidate (AccAddressFromBech32 : string → option addr) (seen : list string) (gs : list string)
    : result unit :=
  match gs with
  | [] => Ok tt
  | g :: gs =>
      match AccAddressFromBech32 g with
      | None => Err (Plain "guardian is not a valid address")
      | Some _ =>
          guard! negb (bool_decide (g ∈ seen)) else Plain "guardian is listed twice";
          guardiansValidate AccAddressFromBech32 (g :: seen) gs
      end
  end.

Definition Params_Validate (AccAddressFromBech32 : string → option addr) (p : Params) : result unit :=
  guard! negb (AtosPerErc20 p =? 0) else Plain "atos_per_erc20 must be positive";
  guard! negb (MaxInt64 <? AtosPerErc20 p) else Plain "atos_per_erc20 must be at most MaxInt64";
  guard! negb (EthereumDomain p =? 0) else Plain "ethereum_domain must be set";
  guard! negb (malformedHex (TierReleaseVault p)) else Plain "tier_release_vault must be 32 bytes";
  guard! negb (malformedHex (IsmId p)) else Plain "ism_id must be 32 bytes";
  guard! negb (Enabled p && negb (hexLen (TierReleaseVault p))) else Plain "tier_release_vault must be set";
  guard! negb ((Enabled p || BridgeEnabled p) && negb (hexLen (IsmId p))) else Plain "ism_id must be set";
  _ ← guardiansValidate AccAddressFromBech32 [] (Guardians p);
  guard! negb (malformedHex (MailboxId p)) else Plain "mailbox_id must be 32 bytes";
  guard! negb (malformedHex (RemoteBridgeVault p)) else Plain "remote_bridge_vault must be 32 bytes";
  guard! negb (BridgeEnabled p && (negb (hexLen (MailboxId p)) || negb (hexLen (RemoteBridgeVault p))))
    else Plain "mailbox_id and remote_bridge_vault must be set";
  guard! (0 <=? GlobalDailyCap p) else Plain "global_daily_cap must not be negative";
  guard! (0 <=? MinTransferOut p) else Plain "min_transfer_out must not be negative";
  guard! (0 <=? SmallTransferThreshold p) else Plain "small_transfer_threshold must not be negative";
  guard! (GlobalDailyCapBpsOfPool p <=? BpsDenominator) else Plain "global_daily_cap_bps_of_pool";
  guard! (PerAddressDailyBps p <=? BpsDenominator) else Plain "per_address_daily_bps";
  guard! (SmallQuotaBps p <=? BpsDenominator) else Plain "small_quota_bps";
  guard! (CrisisPoolBps p <=? BpsDenominator) else Plain "crisis_pool_bps";
  guard! negb (SmallQuotaBps p =? BpsDenominator) else Plain "small_quota_bps must be below 10000";
  Ok tt.

Definition VaultMatches (p : Params) (sender : bytes) : bool :=
  if negb (hexLen (TierReleaseVault p)) then false else bool_decide (TierReleaseVault p = sender).

Definition IsGuardian (p : Params) (a : string) : bool :=
  if decide (a = ""%string) then false else existsb (fun g => bool_decide (g = a)) (Guardians p).

(** ** Receipt state and genesis *)
Record ReceiptState := mkReceiptState {
  AppliedToBridge : Z;
  AppliedToProject : Z;
  AppId : bytes;
  LastMessageId : bytes;
  AssetAppId : bytes;
  TotalBridgedOut : Z;
  TotalBridgedIn : Z;
}.

Definition DefaultReceiptState : ReceiptState := mkReceiptState 0 0 [] [] [] 0 0.

Definition ReceiptState_Validate (s : ReceiptState) : result unit :=
  guard! (0 <=? AppliedToBridge s) else Plain "applied_to_bridge";
  guard! (0 <=? AppliedToProject s) else Plain "applied_to_project";
  guard! (0 <=? TotalBridgedOut s) else Plain "total_bridged_out";
  guard! (0 <=? TotalBridgedIn s) else Plain "total_bridged_in";
  guard! negb (malformedHex (AppId s)) else Plain "app_id must be 32 bytes";
  guard! negb (malformedHex (AssetAppId s)) else Plain "asset_app_id must be 32 bytes";
  Ok tt.

Record GenesisState := mkGenesisState { gsParams : Params; gsReceiptState : ReceiptState }.
Definition DefaultGenesisState : GenesisState := mkGenesisState DefaultParams DefaultReceiptState.
Definition GenesisState_Validate (AccAddressFromBech32 : string → option addr) (gs : GenesisState) : result unit :=
  _ ← Params_Validate AccAddressFromBech32 (gsParams gs);
  ReceiptState_Validate (gsReceiptState gs).

Record MsgUpdateParams := mkMsgUpdateParams { Authority : string; uParams : Params }.
Definition MsgUpdateParams_ValidateBasic (AccAddressFromBech32 : string → option addr) (msg : MsgUpdateParams) : result unit :=
  match AccAddressFromBech32 (Authority msg) with
  | None => Err (Plain "bech32")
  | Some _ => Params_Validate AccAddressFromBech32 (uParams msg)
  end.

(** ** Rate limits *)
Definition SecondsPerDay : Z := 86400.
Definition DayOf (blockTimeUnix : Z) : Z := if blockTimeUnix <? 0 then 0 else blockTimeUnix / SecondsPerDay.

Record Limits := mkLimits {
  Global : Z;
  LargeBudget : Z;
  PerAddress : Z;
  SmallThreshold : Z;
  MinTransfer : Z;
  MaxTransferOut : Z;
  MaxTransferIn : Z;
  InboundPerAddress : Z;
  InboundSmallThreshold : Z;
  CrisisMode : bool;
  Inbound : Z;
  Disabled : bool;
}.

(** A configured share, never rounded down to zero. *)
Definition bps (v b : Z) : Z :=
  if negb (0 <? v) || (b =? 0) then 0
  else
    let out := Z.quot (v * b) BpsDenominator in
    if negb (0 <? out) then 1 else out.

Definition nonNegative (v : Z) : Z := if v <? 0 then 0 else v.

(** The smaller of a fixed cap and a share of the pool. *)
Definition dailyCap (cap capBps poolBalance : Z) : Z :=
  let cap := nonNegative cap in
  let fromPool := bps poolBalance capBps in
  if (0 <? capBps) && ((cap =? 0) || (fromPool <? cap)) then fromPool else cap.

Definition ResolveLimits (p : Params) (poolBalance poolTotal : Z) : Limits :=
  let global := dailyCap (GlobalDailyCap p) (GlobalDailyCapBpsOfPool p) poolBalance in
  let reserved := bps global (SmallQuotaBps p) in
  let largeBudget := nonNegative (global - reserved) in
  let crisis :=
    if (0 <? CrisisPoolBps p) && (0 <? poolTotal) then poolBalance <? bps poolTotal (CrisisPoolBps p) else false in
  let inbound := dailyCap (InboundDailyCap p) (InboundDailyCapBpsOfPool p) poolBalance in
  {| Disabled := RateLimitsDisabled p; Inbound := inbound; Global := global; LargeBudget := largeBudget;
     PerAddress := bps global (PerAddressDailyBps p); SmallThreshold := nonNegative (SmallTransferThreshold p);
     MinTransfer := nonNegative (MinTransferOut p); MaxTransferOut := nonNegative (pMaxTransferOut p);
     MaxTransferIn := nonNegative (pMaxTransferIn p); InboundPerAddress := bps inbound (InboundPerAddressDailyBps p);
     InboundSmallThreshold := nonNegative (pInboundSmallThreshold p); CrisisMode := crisis |}.

(** Whether a limit is configured. *)
Definition set (v : Z) : bool := 0 <? v.

Definition IsSmall (l : Limits) (amount : Z) : bool := negb (set (SmallThreshold l)) || (amount <=? SmallThreshold l).
Definition IsSmallInbound (l : Limits) (amount : Z) : bool :=
  negb (set (InboundSmallThreshold l)) || (amount <=? InboundSmallThreshold l).

Definition CheckOutbound (l : Limits) (amount globalUsed globalUsedLarge addressUsed : Z) : result unit :=
  if negb (0 <? amount) then Err ErrInvalidAmount
  else if Disabled l then Ok tt
  else if set (MinTransfer l) && (amount <? MinTransfer l) then Err ErrBelowMinimum
  else if set (MaxTransferOut l) && (MaxTransferOut l <? amount) then Err ErrAboveMaximum
  else
    let small := IsSmall l amount in
    if negb (set (Global l)) then Err ErrDailyCapReached
    else if Global l <? globalUsed + amount then Err ErrDailyCapReached
    else if negb small && (LargeBudget l <? globalUsedLarge + amount) then Err ErrLargeQuotaReached
    else if set (PerAddress l) && (PerAddress l <? addressUsed + amount) then Err ErrAddressCapReached
    else Ok tt.

Definition CheckInbound (l : Limits) (amount usedInbound recipientUsed : Z) : result unit :=
  if negb (0 <? amount) then Err ErrInvalidAmount
  else if Disabled l then Ok tt
  else if set (MaxTransferIn l) && (MaxTransferIn l <? amount) then Err ErrAboveMaximum
  else if CrisisMode l && negb (IsSmallInbound l amount) then Err ErrCrisisMode
  else if set (InboundPerAddress l) && (InboundPerAddress l <? recipientUsed + amount) then Err ErrAddressCapReached
  else if set (Inbound l) && (Inbound l <? usedInbound + amount) then Err ErrInboundCapReached
  else Ok tt.

(** ** What the limits guarantee *)
Lemma bps_bounds v b : 0 <= v → 0 <= b <= BpsDenominator → 0 <= bps v b <= v.
Proof.
intros Hv Hb. unfold bps. destruct (_ || _) eqn:E; [lia|]. boolP. unfold BpsDenominator in *.
rewrite Z.quot_div_nonneg by nia. destruct (negb _) eqn:E'; boolP; [lia|].
split; [lia|]. apply Z.div_le_upper_bound; nia.
Qed.

(** A configured share of something positive is positive. *)
Lemma bps_pos v b : 0 < v → 0 < b → 0 < bps v b.
Proof.
intros Hv Hb. unfold bps. destruct (_ || _) eqn:E.
{ apply orb_true_iff in E as [E|E]; boolP; lia. }
cbv zeta. destruct (negb (0 <? Z.quot _ _)) eqn:E'; boolP; lia.
Qed.

Lemma nonNegative_max v : nonNegative v = Z.max 0 v.
Proof. unfold nonNegative. destruct (_ <? _) eqn:E; boolP; lia. Qed.

(** The effective cap is below the fixed one, when there is one, and below the
    share of the pool, when there is one. *)
Lemma dailyCap_le cap b pool :
  0 <= cap → 0 <= b <= BpsDenominator → 0 <= pool →
  0 <= dailyCap cap b pool ∧ (0 < cap → dailyCap cap b pool <= cap) ∧ (0 < b → dailyCap cap b pool <= bps pool b).
Proof.
intros Hc Hb Hp. unfold dailyCap. rewrite nonNegative_max, Z.max_r by lia.
pose proof (bps_bounds pool b Hp Hb). destruct (_ && _) eqn:E; boolP.
- split_and!; [lia| |lia]. intros. destruct (cap =? 0) eqn:E0; boolP; [lia|]. cbn [orb] in *. boolP. lia.
- split_and!; [lia..|]. intros Hpos. rewrite (proj2 (Z.ltb_lt 0 b) Hpos) in E. cbn [andb] in E. boolP. lia.
Qed.

(** What [Validate] establishes about the numbers. *)
Record params_wf (p : Params) : Prop := {
  wf_peg : 0 < AtosPerErc20 p <= MaxInt64;
  wf_cap : 0 <= GlobalDailyCap p;
  wf_capBps : 0 <= GlobalDailyCapBpsOfPool p <= BpsDenominator;
  wf_addrBps : 0 <= PerAddressDailyBps p <= BpsDenominator;
  wf_small : 0 <= SmallQuotaBps p < BpsDenominator;
  wf_vault : Enabled p = true → length (TierReleaseVault p) = HexAddressLen;
  wf_ism : Enabled p = true ∨ BridgeEnabled p = true → length (IsmId p) = HexAddressLen;
  wf_bridge : BridgeEnabled p = true → length (MailboxId p) = HexAddressLen ∧ length (RemoteBridgeVault p) = HexAddressLen;
}.

(** The unsigned fields of a decoded message. *)
Definition params_unsigned (p : Params) : Prop :=
  0 <= AtosPerErc20 p ∧ 0 <= GlobalDailyCapBpsOfPool p ∧ 0 <= PerAddressDailyBps p ∧ 0 <= SmallQuotaBps p ∧
  0 <= CrisisPoolBps p.

Lemma Params_Validate_wf bech p : params_unsigned p → Params_Validate bech p = Ok tt → params_wf p.
Proof.
intros (U1 & U2 & U3 & U4 & U5) H. unfold Params_Validate in H. inv_ok. boolP.
assert (Hhex : ∀ l, negb (hexLen l) = false → length l = HexAddressLen).
{ intros l Hl. boolP. unfold hexLen in Hl. by apply Nat.eqb_eq in Hl. }
split; [lia|lia|lia|lia|lia|..].
- intros E. rewrite E in *. cbn [andb] in *. by apply Hhex.
- intros [E|E]; rewrite E in *; rewrite ?orb_true_r in *; cbn [andb orb] in *; by apply Hhex.
- intros E. rewrite E in *. cbn [andb] in *. boolP. split; apply Hhex; by apply negb_false_iff.
Qed.

(** Passing [CheckOutbound], spelled out. *)
Lemma CheckOutbound_Ok l amount used large addrUsed :
  CheckOutbound l amount used large addrUsed = Ok tt → 0 < amount ∧
  (Disabled l = false →
    (0 < MinTransfer l → MinTransfer l <= amount) ∧ (0 < MaxTransferOut l → amount <= MaxTransferOut l) ∧
    used + amount <= Global l ∧ (IsSmall l amount = false → large + amount <= LargeBudget l) ∧
    (0 < PerAddress l → addrUsed + amount <= PerAddress l)).
Proof.
unfold CheckOutbound, set. intros H. destruct (negb (0 <? amount)) eqn:E0; [done|]. boolP. split; [done|].
intros Hd. rewrite Hd in H. inv_ok. boolP.
split_and!; intros; try lia;
  repeat match goal with
  | H1 : _ && _ = false |- _ => apply andb_false_iff in H1 as [?|?]
  end; boolP; try lia; congruence.
Qed.

Lemma CheckInbound_Ok l amount used recipientUsed :
  CheckInbound l amount used recipientUsed = Ok tt → 0 < amount ∧
  (Disabled l = false →
    (0 < MaxTransferIn l → amount <= MaxTransferIn l) ∧ (CrisisMode l = true → IsSmallInbound l amount = true) ∧
    (0 < InboundPerAddress l → recipientUsed + amount <= InboundPerAddress l) ∧
    (0 < Inbound l → used + amount <= Inbound l)).
Proof.
unfold CheckInbound, set. intros H. destruct (negb (0 <? amount)) eqn:E0; [done|]. boolP. split; [done|].
intros Hd. rewrite Hd in H. inv_ok. boolP.
split_and!; intros; 
  repeat match goal with
  | H1 : _ && _ = false |- _ => apply andb_false_iff in H1 as [?|?]
  end; boolP; try lia; congruence.
Qed.

(** the small-transfer reserve holds: as long as large transfers kept within
    their budget, a small transfer that fits in the reserved share is refused
    neither by the daily cap nor by the large quota, however much of the day's
    allowance large transfers took. *)
Theorem small_reserve_available p pool total amount large small addrUsed :
  params_wf p → 0 <= pool → 0 < dailyCap (GlobalDailyCap p) (GlobalDailyCapBpsOfPool p) pool →
  let l := ResolveLimits p pool total in
  large <= LargeBudget l → IsSmall l amount = true →
  small + amount <= bps (Global l) (SmallQuotaBps p) →
  CheckOutbound l amount (large + small) large addrUsed ∉ [Err ErrDailyCapReached; Err ErrLargeQuotaReached].
Proof.
intros W Hp Hg l Hl Hs Hr.
assert (HB : LargeBudget l = Global l - bps (Global l) (SmallQuotaBps p)).
{ unfold l. cbn. rewrite nonNegative_max.
  pose proof (bps_bounds (dailyCap (GlobalDailyCap p) (GlobalDailyCapBpsOfPool p) pool) (SmallQuotaBps p) ltac:(lia)
    ltac:(pose proof (wf_small p W); lia)). lia. }
assert (Hg' : 0 < Global l) by exact Hg.
unfold CheckOutbound. destruct (negb (0 <? amount)); [rewrite !elem_of_cons, elem_of_nil; naive_solver|].
destruct (Disabled l); [rewrite !elem_of_cons, elem_of_nil; naive_solver|].
destruct (set (MinTransfer l) && _); [rewrite !elem_of_cons, elem_of_nil; naive_solver|].
destruct (set (MaxTransferOut l) && _); [rewrite !elem_of_cons, elem_of_nil; naive_solver|].
unfold set at 1. rewrite Hs, (proj2 (Z.ltb_lt 0 (Global l))) by done. cbn [negb andb].
rewrite (proj2 (Z.ltb_ge (Global l) (large + small + amount))) by lia.
destruct (set (PerAddress l) && _); rewrite !elem_of_cons, elem_of_nil; naive_solver.
Qed.

Lemma small_reserve_available_witness :
  CheckOutbound (ResolveLimits DefaultParams (10 ^ 29) (10 ^ 29)) (10 ^ 23) (4 * 10 ^ 27 + 0) (4 * 10 ^ 27) 0
    ∉ [Err ErrDailyCapReached; Err ErrLargeQuotaReached].
Proof.
refine (small_reserve_available DefaultParams (10 ^ 29) (10 ^ 29) (10 ^ 23) (4 * 10 ^ 27) 0 0 _ _ _ _ _ _).
- apply (Params_Validate_wf (fun x => Some x)); [by vm_compute|reflexivity].
- by vm_compute.
- by vm_compute.
- by vm_compute.
- by vm_compute.
- by vm_compute.
Defined.
