(* ===== verification/BridgeKeeper.v ===== *)
(** * x/bridgeadapter/keeper

    Models src/x/bridgeadapter/keeper/ (keeper.go, asset_bridge.go,
    hyperlane_app.go, tier_dispatch.go, msg_server.go, genesis.go,
    grpc_query.go).  The module's own store is [BridgeStore]; everything it
    reaches through its keeper interfaces (types/interfaces.go) is the world [W]
    behind the class [BridgeEnv], which x/tokenomics, x/atox, the bank and the
    Hyperlane core implement.  Handlers return the world and the store they
    leave behind, on errors too; a transaction that fails is rolled back by the
    framework. *)

From stdpp Require Import base list option strings gmap.
From Stdlib Require Import ZArith Lia.
From S2P Require Import Prelude BridgePayload BridgeLimits.

Open Scope Z_scope.

(** ** The interfaces *)
Class BridgeEnv (W : Type) := {
  (** TokenomicsKeeper *)
  AuthorizedReleases : W → Z * Z;
  GetProjectClaimable : W → Z;
  SetProjectClaimable : W → Z → W;
  MinerPoolName : string;
  MigrationPoolName : string;
  MigrationPoolBalance : W → Z;
  MigrationPoolTotal : W → Z;
  BaseDenom : denom;
  (** AtoxKeeper *)
  AddToExchangePool : W → string → Z → result unit * W;
  (** BankKeeper *)
  SendCoinsFromAccountToModule : W → addr → string → coins → result unit * W;
  SendCoinsFromModuleToAccount : W → string → addr → coins → result unit * W;
  (** CoreKeeper: mailbox, sender, maxFee, domain, recipient, body, fee payer *)
  DispatchMessage : W → bytes → bytes → coins → Z → bytes → bytes → option addr → result bytes * W;
  (** the app router's sequence, drawn from at genesis *)
  GetNextSequence : W → result bytes * W;
}.

(** A Hyperlane message, and the hash that identifies it. *)
Record HyperlaneMessage := mkHyperlaneMessage {
  Version : Z; Nonce : Z; Origin : Z; Sender : bytes; Destination : Z; Recipient : bytes; Body : bytes;
}.

(** ** Store *)
(** As stored: a field that an older record lacks is [None]. *)
Record StoredRateLimit := mkStoredRateLimit {
  srDay : Z; srUsed : option Z; srUsedLarge : option Z; srUsedInbound : option Z;
}.
Record RateLimitState := mkRateLimitState { Day : Z; Used : Z; UsedLarge : Z; UsedInbound : Z }.
Record AddressUsage := mkAddressUsage { uDay : Z; uUsed : option Z }.

Record BridgeStore := mkBridgeStore {
  sParams : option Params;
  sReceiptState : option ReceiptState;
  sRateLimit : option StoredRateLimit;
  sAddressUsage : gmap string AddressUsage;
  sInboundUsage : gmap string AddressUsage;
}.
Definition emptyBridgeStore : BridgeStore := mkBridgeStore None None None ∅ ∅.

Record Keeper := mkKeeper {
  authority : string;
  AccAddressFromBech32 : string → option addr;
  (** [sdk.AccAddress(bz).String()] of an account of 20 bytes *)
  AccAddressString : bytes → addr;
  MessageId : HyperlaneMessage → bytes;
}.

Definition GetParams (s : BridgeStore) : Params := default DefaultParams (sParams s).
Definition setParamsUnchecked (s : BridgeStore) (p : Params) : BridgeStore :=
  mkBridgeStore (Some p) (sReceiptState s) (sRateLimit s) (sAddressUsage s) (sInboundUsage s).
Definition SetParams (k : Keeper) (s : BridgeStore) (p : Params) : result BridgeStore :=
  _ ← Params_Validate (AccAddressFromBech32 k) p; Ok (setParamsUnchecked s p).

Definition GetReceiptState (s : BridgeStore) : ReceiptState := default DefaultReceiptState (sReceiptState s).
Definition SetReceiptState (s : BridgeStore) (st : ReceiptState) : BridgeStore :=
  mkBridgeStore (sParams s) (Some st) (sRateLimit s) (sAddressUsage s) (sInboundUsage s).

Definition freshRateLimitState (day : Z) : RateLimitState := mkRateLimitState day 0 0 0.

Definition GetRateLimitState (ctx : Ctx) (s : BridgeStore) : RateLimitState :=
  let today := DayOf (BlockTime ctx) in
  match sRateLimit s with
  | None => freshRateLimitState today
  | Some r =>
      if negb (srDay r =? today) then freshRateLimitState today
      else mkRateLimitState (srDay r) (default 0 (srUsed r)) (default 0 (srUsedLarge r)) (default 0 (srUsedInbound r))
  end.

Definition setRateLimitState (s : BridgeStore) (r : RateLimitState) : BridgeStore :=
  mkBridgeStore (sParams s) (sReceiptState s)
    (Some (mkStoredRateLimit (Day r) (Some (Used r)) (Some (UsedLarge r)) (Some (UsedInbound r))))
    (sAddressUsage s) (sInboundUsage s).

(** One record of either usage map: a record of an earlier day reads as zero. *)
Definition usageAt (ctx : Ctx) (m : gmap string AddressUsage) (a : string) : Z :=
  match m !! a with
  | None => 0
  | Some u => if negb (uDay u =? DayOf (BlockTime ctx)) then 0 else default 0 (uUsed u)
  end.
Definition setUsageAt (ctx : Ctx) (m : gmap string AddressUsage) (a : string) (used : Z) : gmap string AddressUsage :=
  <[a := mkAddressUsage (DayOf (BlockTime ctx)) (Some used)]> m.

Definition GetAddressUsage (ctx : Ctx) (s : BridgeStore) (a : string) : Z := usageAt ctx (sAddressUsage s) a.
Definition GetInboundAddressUsage (ctx : Ctx) (s : BridgeStore) (a : string) : Z := usageAt ctx (sInboundUsage s) a.
Definition setAddressUsage (ctx : Ctx) (s : BridgeStore) (a : string) (used : Z) : BridgeStore :=
  mkBridgeStore (sParams s) (sReceiptState s) (sRateLimit s) (setUsageAt ctx (sAddressUsage s) a used) (sInboundUsage s).
Definition setInboundAddressUsage (ctx : Ctx) (s : BridgeStore) (a : string) (used : Z) : BridgeStore :=
  mkBridgeStore (sParams s) (sReceiptState s) (sRateLimit s) (sAddressUsage s) (setUsageAt ctx (sInboundUsage s) a used).

(** ** Field updates of the receipt state *)
Definition with_TotalBridgedOut (x : Z) (st : ReceiptState) : ReceiptState :=
  mkReceiptState (AppliedToBridge st) (AppliedToProject st) (AppId st) (LastMessageId st) (AssetAppId st) x (TotalBridgedIn st).
Definition with_TotalBridgedIn (x : Z) (st : ReceiptState) : ReceiptState :=
  mkReceiptState (AppliedToBridge st) (AppliedToProject st) (AppId st) (LastMessageId st) (AssetAppId st) (TotalBridgedOut st) x.
Definition with_LastMessageId (x : bytes) (st : ReceiptState) : ReceiptState :=
  mkReceiptState (AppliedToBridge st) (AppliedToProject st) (AppId st) x (AssetAppId st) (TotalBridgedOut st) (TotalBridgedIn st).
Definition with_Applied (toBridge toProject : Z) (st : ReceiptState) : ReceiptState :=
  mkReceiptState toBridge toProject (AppId st) (LastMessageId st) (AssetAppId st) (TotalBridgedOut st) (TotalBridgedIn st).

Section keeper.
Context {W : Type} {env : BridgeEnv W}.
Implicit Types (k : Keeper) (ctx : Ctx) (w : W) (s : BridgeStore).

Definition KeeperLimits w s : Limits := ResolveLimits (GetParams s) (MigrationPoolBalance w) (MigrationPoolTotal w).

(** ** Outbound *)
Definition ExecuteBridgeOut ctx w s (sender : addr) (recipient : bytes) (amount : Z) (maxFee : coins)
    : result (bytes * Z) * (W * BridgeStore) :=
  let params := GetParams s in
  if negb (BridgeEnabled params) then (Err ErrBridgeDisabled, (w, s))
  else if negb (hexLen (MailboxId params)) || negb (hexLen (RemoteBridgeVault params)) then (Err ErrNotConfigured, (w, s))
  else if negb (hexLen recipient) then (Err ErrInvalidPayload, (w, s))
  else
    match AtosToErc20 amount (AtosPerErc20 params) with
    | Err e => (Err e, (w, s))
    | Ok erc20Amount =>
        let limits := KeeperLimits w s in
        let rl := GetRateLimitState ctx s in
        let addrUsed := GetAddressUsage ctx s sender in
        match CheckOutbound limits amount (Used rl) (UsedLarge rl) addrUsed with
        | Err e => (Err e, (w, s))
        | Ok _ =>
            match SendCoinsFromAccountToModule w sender MigrationPoolName (NewCoins BaseDenom amount) with
            | (Err e, w) => (Err e, (w, s))
            | (Ok _, w) =>
                match BuildAssetPayload recipient erc20Amount with
                | Err e => (Err e, (w, s))
                | Ok body =>
                    let state := GetReceiptState s in
                    if negb (hexLen (AssetAppId state)) then (Err ErrAppNotInitialized, (w, s))
                    else
                      match DispatchMessage w (MailboxId params) (AssetAppId state) maxFee (EthereumDomain params)
                              (RemoteBridgeVault params) body (Some sender) with
                      | (Err e, w) => (Err e, (w, s))
                      | (Ok msgID, w) =>
                          let rl := mkRateLimitState (Day rl) (Used rl + amount)
                            (if IsSmall limits amount then UsedLarge rl else UsedLarge rl + amount) (UsedInbound rl) in
                          let s := setRateLimitState s rl in
                          let s := setAddressUsage ctx s sender (addrUsed + amount) in
                          let s := SetReceiptState s (with_TotalBridgedOut (TotalBridgedOut state + amount) state) in
                          (Ok (msgID, erc20Amount), (w, s))
                      end
                end
            end
        end
    end.

(** ** Inbound assets *)
Definition handleAssetTransfer k ctx w s (message : HyperlaneMessage) : result unit * (W * BridgeStore) :=
  let params := GetParams s in
  if negb (BridgeEnabled params) then (Err ErrBridgeDisabled, (w, s))
  else if negb (Origin message =? EthereumDomain params) then (Err ErrWrongOrigin, (w, s))
  else if negb (hexLen (RemoteBridgeVault params)) || negb (bool_decide (RemoteBridgeVault params = Sender message))
    then (Err ErrWrongSender, (w, s))
  else
    match ParseAssetPayload (Body message) with
    | Err e => (Err e, (w, s))
    | Ok (recipientBz, erc20Amount) =>
        if negb (0 <? erc20Amount) then (Err ErrInvalidAmount, (w, s))
        else
          match CosmosAddressFromHyperlane recipientBz with
          | Err e => (Err e, (w, s))
          | Ok account =>
              match Erc20ToAtos erc20Amount (AtosPerErc20 params) with
              | Err e => (Err e, (w, s))
              | Ok atosAmount =>
                  if MigrationPoolBalance w <? atosAmount then (Err ErrPoolInsufficient, (w, s))
                  else
                    let recipient := AccAddressString k account in
                    let rl := GetRateLimitState ctx s in
                    let recipientUsed := GetInboundAddressUsage ctx s recipient in
                    match CheckInbound (KeeperLimits w s) atosAmount (UsedInbound rl) recipientUsed with
                    | Err e => (Err e, (w, s))
                    | Ok _ =>
                        match SendCoinsFromModuleToAccount w MigrationPoolName recipient (NewCoins BaseDenom atosAmount) with
                        | (Err e, w) => (Err e, (w, s))
                        | (Ok _, w) =>
                            let state := GetReceiptState s in
                            let s := SetReceiptState s (with_TotalBridgedIn (TotalBridgedIn state + atosAmount) state) in
                            let s := setInboundAddressUsage ctx s recipient (recipientUsed + atosAmount) in
                            let rl := GetRateLimitState ctx s in
                            let s := setRateLimitState s
                              (mkRateLimitState (Day rl) (Used rl) (UsedLarge rl) (UsedInbound rl + atosAmount)) in
                            (Ok tt, (w, s))
                        end
                    end
              end
          end
    end.

(** ** Tier-release receipts *)
(** Authorised ATOS in ERC20 units, truncated. *)
Definition toErc20 (atosPerErc20 atos : Z) : Z :=
  if negb (0 <? atos) then 0 else Z.quot atos (i64 atosPerErc20).

Definition assertWithinAuthorized w (targetBridge targetProject atosPerErc20 : Z) : result unit :=
  let '(authMiner, authProject) := AuthorizedReleases w in
  if toErc20 atosPerErc20 authMiner <? targetBridge then Err ErrExceedsAuthorized
  else if toErc20 atosPerErc20 authProject <? targetProject then Err ErrExceedsAuthorized
  else Ok tt.

Definition applyReceipt k w s (message : HyperlaneMessage) : result unit * (W * BridgeStore) :=
  let params := GetParams s in
  if negb (Enabled params) then (Err ErrDisabled, (w, s))
  else if negb (Origin message =? EthereumDomain params) then (Err ErrWrongOrigin, (w, s))
  else if negb (VaultMatches params (Sender message)) then (Err ErrWrongSender, (w, s))
  else
    match ParseReceipt (Body message) with
    | Err e => (Err e, (w, s))
    | Ok (targetBridge, targetProject) =>
        let state := GetReceiptState s in
        if (targetBridge <? AppliedToBridge state) || (targetProject <? AppliedToProject state)
        then (Err ErrTargetWentBackward, (w, s))
        else
          let deltaBridge := targetBridge - AppliedToBridge state in
          let deltaProject := targetProject - AppliedToProject state in
          if (deltaBridge =? 0) && (deltaProject =? 0) then
            (Ok tt, (w, SetReceiptState s (with_LastMessageId (MessageId k message) state)))
          else
            match Erc20ToAtos deltaBridge (AtosPerErc20 params) with
            | Err e => (Err e, (w, s))
            | Ok atosToPool =>
                match Erc20ToAtos deltaProject (AtosPerErc20 params) with
                | Err e => (Err e, (w, s))
                | Ok atosToProject =>
                    match assertWithinAuthorized w targetBridge targetProject (AtosPerErc20 params) with
                    | Err e => (Err e, (w, s))
                    | Ok _ =>
                        match (if 0 <? atosToPool then AddToExchangePool w MinerPoolName atosToPool else (Ok tt, w)) with
                        | (Err e, w) => (Err e, (w, s))
                        | (Ok _, w) =>
                            let w := if 0 <? atosToProject
                              then SetProjectClaimable w (GetProjectClaimable w + atosToProject) else w in
                            (Ok tt, (w, SetReceiptState s
                              (with_LastMessageId (MessageId k message) (with_Applied targetBridge targetProject state))))
                        end
                    end
                end
            end
    end.

(** The entry point the mailbox calls. *)
Definition Handle k ctx w s (mailboxId : bytes) (message : HyperlaneMessage) : result unit * (W * BridgeStore) :=
  let cfg := MailboxId (GetParams s) in
  if negb (hexLen cfg) || negb (bool_decide (cfg = mailboxId)) then (Err ErrWrongMailbox, (w, s))
  else
    let st := GetReceiptState s in
    if hexLen (AssetAppId st) && bool_decide (AssetAppId st = Recipient message) then handleAssetTransfer k ctx w s message
    else if hexLen (AppId st) && bool_decide (AppId st = Recipient message) then applyReceipt k w s message
    else (Err ErrUnknownRecipient, (w, s)).

Definition Exists s (recipient : bytes) : bool :=
  existsb (fun id => hexLen id && bool_decide (id = recipient)) [AppId (GetReceiptState s); AssetAppId (GetReceiptState s)].

Definition ReceiverIsmId s (recipient : bytes) : result bytes :=
  guard! Exists s recipient else ErrUnknownRecipient;
  guard! hexLen (IsmId (GetParams s)) else ErrIsmNotConfigured;
  Ok (IsmId (GetParams s)).

(** ** The forward leg *)
Definition DispatchTierRelease w s (cumulativeMiner cumulativeProject : Z) : result bytes * W :=
  let params := GetParams s in
  if negb (Enabled params) then (Err ErrDisabled, w)
  else if negb (hexLen (MailboxId params)) || negb (hexLen (TierReleaseVault params)) then (Err ErrNotConfigured, w)
  else if (cumulativeMiner <? 0) || (cumulativeProject <? 0) then (Err ErrInvalidPayload, w)
  else
    let state := GetReceiptState s in
    if negb (hexLen (AppId state)) then (Err ErrAppNotInitialized, w)
    else
      match BuildTierRelease cumulativeMiner cumulativeProject with
      | Err e => (Err e, w)
      | Ok body =>
          DispatchMessage w (MailboxId params) (AppId state) [] (EthereumDomain params) (TierReleaseVault params) body None
      end.

(** ** Messages *)
Record MsgBridgeOut := mkMsgBridgeOut { mSender : string; mRecipient : bytes; mAmount : Z; mMaxFee : coins }.

Definition BridgeOut k ctx w s (msg : MsgBridgeOut) : result (bytes * Z) * (W * BridgeStore) :=
  match AccAddressFromBech32 k (mSender msg) with
  | None => (Err (Plain "bech32"), (w, s))
  | Some sender => ExecuteBridgeOut ctx w s sender (mRecipient msg) (mAmount msg) (mMaxFee msg)
  end.

Definition UpdateParams k s (msg : MsgUpdateParams) : result BridgeStore :=
  guard! bool_decide (authority k = Authority msg) else Plain "unauthorized";
  let current := GetParams s in
  let p := uParams msg in
  guard! AtosPerErc20 p =? AtosPerErc20 current else Plain "atos_per_erc20 is immutable";
  guard! negb (Enabled current && Enabled p && hexLen (TierReleaseVault current) &&
    negb (VaultMatches current (TierReleaseVault p))) else Plain "cannot retarget tier_release_vault while enabled";
  guard! negb (hexLen (IsmId current) && negb (hexLen (IsmId p))) else Plain "cannot clear a configured ism_id";
  SetParams k s p.

(** Both switches off, everything else as it is. *)
Definition halted (p : Params) : Params := {|
  Enabled := false; EthereumDomain := EthereumDomain p; TierReleaseVault := TierReleaseVault p;
  AtosPerErc20 := AtosPerErc20 p; BridgeEnabled := false; MailboxId := MailboxId p; RemoteBridgeVault := RemoteBridgeVault p;
  GlobalDailyCap := GlobalDailyCap p; GlobalDailyCapBpsOfPool := GlobalDailyCapBpsOfPool p;
  PerAddressDailyBps := PerAddressDailyBps p; MinTransferOut := MinTransferOut p;
  SmallTransferThreshold := SmallTransferThreshold p; SmallQuotaBps := SmallQuotaBps p; CrisisPoolBps := CrisisPoolBps p;
  IsmId := IsmId p; InboundDailyCap := InboundDailyCap p; InboundDailyCapBpsOfPool := InboundDailyCapBpsOfPool p;
  RateLimitsDisabled := RateLimitsDisabled p; pMaxTransferIn := pMaxTransferIn p; pMaxTransferOut := pMaxTransferOut p;
  InboundPerAddressDailyBps := InboundPerAddressDailyBps p; pInboundSmallThreshold := pInboundSmallThreshold p;
  Guardians := Guardians p;
|}.

Definition EmergencyHalt s (guardian : string) : result BridgeStore :=
  let params := GetParams s in
  guard! IsGuardian params guardian else ErrNotGuardian;
  Ok (setParamsUnchecked s (halted params)).

(** ** Genesis *)
Definition assignId (get : ReceiptState → bytes) (put : bytes → ReceiptState → ReceiptState) w (st : ReceiptState)
    : result ReceiptState * W :=
  if hexLen (get st) then (Ok st, w)
  else match GetNextSequence w with
       | (Err e, w) => (Err e, w)
       | (Ok id, w) => (Ok (put id st), w)
       end.

Definition with_AppId (x : bytes) (st : ReceiptState) : ReceiptState :=
  mkReceiptState (AppliedToBridge st) (AppliedToProject st) x (LastMessageId st) (AssetAppId st) (TotalBridgedOut st) (TotalBridgedIn st).
Definition with_AssetAppId (x : bytes) (st : ReceiptState) : ReceiptState :=
  mkReceiptState (AppliedToBridge st) (AppliedToProject st) (AppId st) (LastMessageId st) x (TotalBridgedOut st) (TotalBridgedIn st).

(** A panic of [InitGenesis] is an error here. *)
Definition InitGenesis k w s (gs : GenesisState) : result unit * (W * BridgeStore) :=
  match SetParams k s (gsParams gs) with
  | Err e => (Err e, (w, s))
  | Ok s =>
      match assignId AppId with_AppId w (gsReceiptState gs) with
      | (Err e, w) => (Err e, (w, s))
      | (Ok st, w) =>
          match assignId AssetAppId with_AssetAppId w st with
          | (Err e, w) => (Err e, (w, s))
          | (Ok st, w) => (Ok tt, (w, SetReceiptState s st))
          end
      end
  end.

Definition ExportGenesis s : GenesisState := mkGenesisState (GetParams s) (GetReceiptState s).

(** ** Queries *)
Definition PendingConfirmation w s : Z * Z :=
  let params := GetParams s in
  let state := GetReceiptState s in
  let '(authMiner, authProject) := AuthorizedReleases w in
  let conv atos := if AtosPerErc20 params =? 0 then 0 else toErc20 (AtosPerErc20 params) atos in
  let bridge := conv authMiner - AppliedToBridge state in
  let project := conv authProject - AppliedToProject state in
  (nonNegative bridge, nonNegative project).

(** What is left of a limit. *)
Definition remaining (limitAmt used : Z) : Z :=
  if negb (0 <? limitAmt) then 0 else nonNegative (limitAmt - used).

Record QueryLimitsResponse := mkQueryLimitsResponse {
  OutboundGlobalCap : Z; OutboundGlobalRemaining : Z; OutboundLargeBudget : Z; OutboundLargeRemaining : Z;
  PerAddressCap : Z; qSmallTransferThreshold : Z; qMinTransferOut : Z; qCrisisMode : bool; InboundCap : Z;
  InboundRemaining : Z; ResetsAtUnix : Z; qMigrationPoolBalance : Z; qRateLimitsDisabled : bool;
}.

Definition QueryLimits ctx w s : QueryLimitsResponse :=
  let l := KeeperLimits w s in
  let rl := GetRateLimitState ctx s in
  mkQueryLimitsResponse (Global l) (remaining (Global l) (Used rl)) (LargeBudget l) (remaining (LargeBudget l) (UsedLarge rl))
    (PerAddress l) (SmallThreshold l) (MinTransfer l) (CrisisMode l) (Inbound l) (remaining (Inbound l) (UsedInbound rl))
    ((DayOf (BlockTime ctx) + 1) * SecondsPerDay) (MigrationPoolBalance w) (Disabled l).

Definition QueryAddressUsage k ctx w s (address : string) : result (Z * Z) :=
  match AccAddressFromBech32 k address with
  | None => Err (Plain "InvalidArgument")
  | Some _ =>
      let used := GetAddressUsage ctx s address in
      let limitAmt := PerAddress (KeeperLimits w s) in
      Ok (used, if (0 <? limitAmt) && (used <? limitAmt) then limitAmt - used else 0)
  end.
End keeper.
