(* ===== verification/BridgeSafety.v ===== *)
(** * x/bridgeadapter: what a handled message does

    Effects of the four entry points that move value: [ExecuteBridgeOut],
    [handleAssetTransfer], [applyReceipt] behind [Handle], and the switches.  The
    theorems are stated against [BridgeEnv], whatever implements it. *)

From stdpp Require Import base list option strings gmap.
From Stdlib Require Import ZArith Lia.
From S2P Require Import Prelude BridgePayload BridgeLimits BridgeKeeper.

Open Scope Z_scope.

Lemma hexLen_spec l : hexLen l = true ↔ length l = HexAddressLen.
Proof. unfold hexLen. apply Nat.eqb_eq. Qed.

Lemma toErc20_le peg atos t : 0 < peg <= MaxInt64 → 0 <= t → t <= toErc20 peg atos → t * peg <= Z.max 0 atos.
Proof.
intros Hp Ht. unfold toErc20. rewrite i64_small by (unfold is_i64, MaxInt64 in *; lia).
destruct (0 <? atos) eqn:E; boolP; cbn [negb]; [|intros; assert (t = 0) as -> by lia; lia].
rewrite Z.quot_div_nonneg by lia. intros H. pose proof (Z.div_mod atos peg ltac:(lia)).
pose proof (Z.mod_pos_bound atos peg ltac:(lia)). nia.
Qed.

Section safety.
Context {W : Type} {env : BridgeEnv W}.
Implicit Types (k : Keeper) (ctx : Ctx) (w : W) (s : BridgeStore).

(** ** Receipts *)

(** What accepting the cumulative totals [tb], [tp] does. *)
Record receipt_applied k w s (msg : HyperlaneMessage) (tb tp : Z) w' s' : Prop := {
  ra_enabled : Enabled (GetParams s) = true;
  ra_origin : Origin msg = EthereumDomain (GetParams s);
  ra_sender : Sender msg = TierReleaseVault (GetParams s) ∧ length (Sender msg) = HexAddressLen;
  ra_body : BuildReceipt tb tp = Ok (Body msg);
  ra_forward : AppliedToBridge (GetReceiptState s) <= tb ∧ AppliedToProject (GetReceiptState s) <= tp;
  ra_store : s' = SetReceiptState s (with_LastMessageId (MessageId k msg) (with_Applied tb tp (GetReceiptState s)));
  ra_authorized :
    (tb = AppliedToBridge (GetReceiptState s) ∧ tp = AppliedToProject (GetReceiptState s) ∧ w' = w) ∨
    (tb * AtosPerErc20 (GetParams s) <= Z.max 0 (AuthorizedReleases w).1 ∧
     tp * AtosPerErc20 (GetParams s) <= Z.max 0 (AuthorizedReleases w).2);
  ra_moved : ∃ w1,
    let toPool := (tb - AppliedToBridge (GetReceiptState s)) * AtosPerErc20 (GetParams s) in
    let toProject := (tp - AppliedToProject (GetReceiptState s)) * AtosPerErc20 (GetParams s) in
    (if 0 <? toPool then AddToExchangePool w MinerPoolName toPool else (Ok tt, w)) = (Ok tt, w1) ∧
    w' = if 0 <? toProject then SetProjectClaimable w1 (GetProjectClaimable w1 + toProject) else w1;
}.

Lemma with_Applied_same st : with_Applied (AppliedToBridge st) (AppliedToProject st) st = st.
Proof. by destruct st. Qed.

Lemma VaultMatches_spec p sender : VaultMatches p sender = true ↔ length sender = HexAddressLen ∧ sender = TierReleaseVault p.
Proof.
unfold VaultMatches. destruct (hexLen (TierReleaseVault p)) eqn:E; cbn [negb].
- apply hexLen_spec in E. rewrite bool_decide_eq_true. naive_solver.
- split; [done|]. intros [H ->]. apply hexLen_spec in H. congruence.
Qed.

Lemma receipt_inversion k w s msg w' s' :
  params_wf (GetParams s) → applyReceipt k w s msg = (Ok tt, (w', s')) → ∃ tb tp, receipt_applied k w s msg tb tp w' s'.
Proof.
intros Wf. pose proof (wf_peg _ Wf) as Hpeg. unfold applyReceipt.
destruct (Enabled (GetParams s)) eqn:He; cbn [negb]; [|done].
destruct (Origin msg =? _) eqn:Ho; cbn [negb]; [|done]. boolP.
destruct (VaultMatches _ _) eqn:Hv; cbn [negb]; [|done]. apply VaultMatches_spec in Hv as [Hl Hv].
destruct (ParseReceipt (Body msg)) as [[tb tp]|] eqn:Hp; [|done].
apply parse_shape in Hp as Hsh; [|by unfold MsgTypeReleaseReceipt]. destruct Hsh as (Htb & Htp & _).
apply parse_build in Hp; [|done].
destruct (_ || _) eqn:Hf; [done|]. boolP.
destruct (_ && _) eqn:Hz; boolP.
{ intros [= <- <-]. exists tb, tp. 
  assert (Hb : tb = AppliedToBridge (GetReceiptState s)) by lia. assert (Hpr : tp = AppliedToProject (GetReceiptState s)) by lia.
  split; try done.
  - by rewrite Hb, Hpr, with_Applied_same.
  - by left.
  - exists w. rewrite Hb, Hpr, !Z.sub_diag, !Z.mul_0_l. done. }
destruct (Erc20ToAtos (tb - _) _) as [toPool|] eqn:E1; [|done].
destruct (Erc20ToAtos (tp - _) _) as [toProject|] eqn:E2; [|done].
apply Erc20ToAtos_exact in E1 as [-> _]; [|lia..]. apply Erc20ToAtos_exact in E2 as [-> _]; [|lia..].
destruct (assertWithinAuthorized w tb tp _) eqn:Ha; [|done].
destruct (if 0 <? (tb - _) * _ then _ else _) as [[[]|] w1] eqn:Hm; [|done].
intros [= <- <-]. exists tb, tp. split; try done.
- right. unfold assertWithinAuthorized in Ha. destruct (AuthorizedReleases w) as [am ap]. inv_ok. boolP.
  split; apply toErc20_le; done || lia.
- exists w1. split; [exact Hm|done].
Qed.

Lemma Handle_tier k ctx w s mb msg w' s' :
  Handle k ctx w s mb msg = (Ok tt, (w', s')) → Recipient msg ≠ AssetAppId (GetReceiptState s) →
  mb = MailboxId (GetParams s) ∧ length mb = HexAddressLen ∧ Recipient msg = AppId (GetReceiptState s) ∧
  length (Recipient msg) = HexAddressLen ∧ applyReceipt k w s msg = (Ok tt, (w', s')).
Proof.
unfold Handle. intros H Hne. destruct (_ || _) eqn:E in H; [done|]. boolP.
apply hexLen_spec in H0. apply bool_decide_eq_true in H1.
destruct (hexLen (AssetAppId _) && _) eqn:E1 in H; [apply andb_true_iff in E1 as [_ E1%bool_decide_eq_true]; congruence|].
destruct (hexLen (AppId _) && _) eqn:E2 in H; [|done]. apply andb_true_iff in E2 as [E2%hexLen_spec E3%bool_decide_eq_true].
split_and!; congruence.
Qed.

(** C7: a tier receipt is only accepted through the configured mailbox, from the
    configured domain and vault, with the canonical encoding of totals that do
    not go backwards and, when they release anything, stay within what tier
    judgments authorised; accepting it moves exactly the difference at the peg
    and records the totals. *)
Theorem receipt_effect k ctx w s mb msg w' s' :
  params_wf (GetParams s) → Recipient msg ≠ AssetAppId (GetReceiptState s) →
  Handle k ctx w s mb msg = (Ok tt, (w', s')) →
  mb = MailboxId (GetParams s) ∧ Recipient msg = AppId (GetReceiptState s) ∧
  ∃ tb tp, receipt_applied k w s msg tb tp w' s'.
Proof.
intros Wf Hne H. apply Handle_tier in H as (Hmb & _ & Hr & _ & H); [|done].
split_and!; [done..|]. by apply receipt_inversion in H.
Qed.

(** A receipt with the totals already recorded only records the message id. *)
Lemma Handle_duplicate k ctx w s msg :
  let p := GetParams s in let st := GetReceiptState s in
  length (MailboxId p) = HexAddressLen → AppId st = Recipient msg → AssetAppId st ≠ Recipient msg →
  length (Recipient msg) = HexAddressLen → Enabled p = true → Origin msg = EthereumDomain p →
  VaultMatches p (Sender msg) = true → ParseReceipt (Body msg) = Ok (AppliedToBridge st, AppliedToProject st) →
  Handle k ctx w s (MailboxId p) msg = (Ok tt, (w, SetReceiptState s (with_LastMessageId (MessageId k msg) st))).
Proof.
intros p st Hm Ha Hna Hl He Ho Hv Hp. unfold Handle. fold p st.
rewrite (proj2 (hexLen_spec _) Hm), bool_decide_true by done. cbn [negb orb].
rewrite (bool_decide_false (AssetAppId st = _)), andb_false_r by done.
rewrite Ha, (proj2 (hexLen_spec _) Hl), bool_decide_true by done. cbn [andb].
unfold applyReceipt. fold p st. rewrite He, Ho, Z.eqb_refl, Hv, Hp. cbn [negb].
by rewrite !Z.ltb_irrefl, !Z.sub_diag.
Qed.

(** C6: replaying a message is harmless: delivering an accepted receipt a second
    time succeeds and changes nothing at all, and delivering any message through
    another mailbox is refused without effect. *)
Theorem replay_harmless k ctx w s mb msg w' s' :
  params_wf (GetParams s) → Recipient msg ≠ AssetAppId (GetReceiptState s) →
  Handle k ctx w s mb msg = (Ok tt, (w', s')) →
  (∀ ctx2, Handle k ctx2 w' s' mb msg = (Ok tt, (w', s'))) ∧
  (∀ ctx2 mb2 msg2, mb2 ≠ mb → Handle k ctx2 w' s' mb2 msg2 = (Err ErrWrongMailbox, (w', s'))).
Proof.
intros Wf Hne H. apply Handle_tier in H as (-> & Hlm & Hr & Hlr & H); [|done].
apply receipt_inversion in H as (tb & tp & R); [|done].
assert (HP : GetParams s' = GetParams s) by (by rewrite (ra_store _ _ _ _ _ _ _ _ R)).
split.
- intros ctx2. rewrite <- HP. rewrite Handle_duplicate; rewrite ?HP; try done.
  + by rewrite (ra_store _ _ _ _ _ _ _ _ R).
  + rewrite (ra_store _ _ _ _ _ _ _ _ R). by symmetry.
  + rewrite (ra_store _ _ _ _ _ _ _ _ R). by apply not_eq_sym.
  + apply (ra_enabled _ _ _ _ _ _ _ _ R).
  + apply (ra_origin _ _ _ _ _ _ _ _ R).
  + apply VaultMatches_spec. destruct (ra_sender _ _ _ _ _ _ _ _ R). done.
  + rewrite (ra_store _ _ _ _ _ _ _ _ R).
    apply parse_build; [done|]. exact (ra_body _ _ _ _ _ _ _ _ R).
- intros ctx2 mb2 msg2 Hmb. unfold Handle. rewrite HP, (bool_decide_false (MailboxId (GetParams s) = mb2)) by congruence.
  by rewrite orb_true_r.
Qed.

(** ** Transfers *)
Lemma rate_day ctx s : Day (GetRateLimitState ctx s) = DayOf (BlockTime ctx).
Proof. unfold GetRateLimitState. destruct (sRateLimit s) as [r|]; [|done]. by destruct (srDay r =? _) eqn:E; boolP. Qed.

Lemma rate_set ctx s r : Day r = DayOf (BlockTime ctx) → GetRateLimitState ctx (setRateLimitState s r) = r.
Proof. intros H. unfold GetRateLimitState, setRateLimitState. cbn. rewrite H, Z.eqb_refl. cbn [negb]. rewrite <- H. by destruct r. Qed.

Lemma usage_set ctx m a used a' :
  usageAt ctx (setUsageAt ctx m a used) a' = if decide (a' = a) then used else usageAt ctx m a'.
Proof.
unfold usageAt, setUsageAt. case_decide as E.
- subst. rewrite lookup_insert_eq. cbn. by rewrite Z.eqb_refl.
- by rewrite lookup_insert_ne.
Qed.

(** What a successful outbound transfer does. *)
Record bridged_out ctx w s (sender : addr) (recipient : bytes) (amount : Z) (maxFee : coins) (id : bytes) (erc20 : Z) w' s' : Prop := {
  bo_open : BridgeEnabled (GetParams s) = true;
  bo_peg : 0 < erc20 ∧ amount = erc20 * AtosPerErc20 (GetParams s);
  bo_lock : ∃ w1 body,
    SendCoinsFromAccountToModule w sender MigrationPoolName (NewCoins BaseDenom amount) = (Ok tt, w1) ∧
    BuildAssetPayload recipient erc20 = Ok body ∧
    DispatchMessage w1 (MailboxId (GetParams s)) (AssetAppId (GetReceiptState s)) maxFee (EthereumDomain (GetParams s))
      (RemoteBridgeVault (GetParams s)) body (Some sender) = (Ok id, w');
  bo_used : GetRateLimitState ctx s' =
    let r := GetRateLimitState ctx s in
    mkRateLimitState (Day r) (Used r + amount)
      (UsedLarge r + if IsSmall (KeeperLimits w s) amount then 0 else amount) (UsedInbound r);
  bo_usage : sAddressUsage s' = setUsageAt ctx (sAddressUsage s) sender (GetAddressUsage ctx s sender + amount) ∧
    sInboundUsage s' = sInboundUsage s;
  bo_state : GetReceiptState s' = with_TotalBridgedOut (TotalBridgedOut (GetReceiptState s) + amount) (GetReceiptState s) ∧
    GetParams s' = GetParams s;
  bo_limits : let l := KeeperLimits w s in Disabled l = false →
    MinTransfer l <= amount ∧ (0 < MaxTransferOut l → amount <= MaxTransferOut l) ∧
    Used (GetRateLimitState ctx s') <= Global l ∧
    (IsSmall l amount = false → UsedLarge (GetRateLimitState ctx s') <= LargeBudget l) ∧
    (0 < PerAddress l → GetAddressUsage ctx s' sender <= PerAddress l);
  bo_stored : sRateLimit s' = let r := GetRateLimitState ctx s' in
    Some (mkStoredRateLimit (Day r) (Some (Used r)) (Some (UsedLarge r)) (Some (UsedInbound r)));
}.

Lemma bridge_out_inversion ctx w s sender recipient amount maxFee id erc20 w' s' :
  params_wf (GetParams s) →
  ExecuteBridgeOut ctx w s sender recipient amount maxFee = (Ok (id, erc20), (w', s')) →
  bridged_out ctx w s sender recipient amount maxFee id erc20 w' s'.
Proof.
intros Wf. pose proof (wf_peg _ Wf). unfold ExecuteBridgeOut.
destruct (BridgeEnabled _) eqn:He; cbn [negb]; [|done]. destruct (_ || _) eqn:E1; [done|].
destruct (negb (hexLen recipient)) eqn:E2; [done|].
destruct (AtosToErc20 amount _) as [e|] eqn:Ha; [|done]. apply AtosToErc20_exact in Ha as [Hpos Ha]; [|lia].
destruct (CheckOutbound _ _ _ _ _) as [[]|] eqn:Hc; [|done]. apply CheckOutbound_Ok in Hc as [_ Hc].
destruct (SendCoinsFromAccountToModule _ _ _ _) as [[[]|] w1] eqn:Hs; [|done].
destruct (BuildAssetPayload _ _) as [body|] eqn:Hb; [|done]. destruct (hexLen (AssetAppId _)) eqn:E3; cbn [negb]; [|done].
destruct (DispatchMessage _ _ _ _ _ _ _ _) as [[id'|] w2] eqn:Hd; [|done].
intros [= -> -> -> <-]. 
set (rl := mkRateLimitState _ _ _ _).
assert (Hrl : GetRateLimitState ctx (setRateLimitState s rl) = rl) by (apply rate_set, rate_day).
assert (Hrl2 : ∀ m st, GetRateLimitState ctx (SetReceiptState (mkBridgeStore (sParams s) (sReceiptState s)
  (sRateLimit (setRateLimitState s rl)) m (sInboundUsage s)) st) = rl) by (intros; exact Hrl).
assert (HU : GetRateLimitState ctx (SetReceiptState (setAddressUsage ctx (setRateLimitState s rl) sender
    (GetAddressUsage ctx s sender + amount))
  (with_TotalBridgedOut (TotalBridgedOut (GetReceiptState s) + amount) (GetReceiptState s))) = rl) by apply Hrl2.
split; try done.
- eauto.
- rewrite HU. unfold rl. cbv zeta. f_equal. destruct (IsSmall _ _); lia.
- cbv zeta. intros Hd'. rewrite HU. destruct (Hc Hd') as (H1 & H2 & H3 & H4 & H5). unfold rl. cbn [Used UsedLarge].
  assert (Hmin : 0 <= MinTransfer (KeeperLimits w s)).
  { unfold KeeperLimits, ResolveLimits. cbn [MinTransfer]. rewrite nonNegative_max. lia. }
  split_and!; [destruct (decide (0 < MinTransfer (KeeperLimits w s))); [by apply H1|nia]|done|done| |].
  + intros Hsm. rewrite Hsm. by apply H4.
  + intros Hpa. unfold GetAddressUsage at 1. cbn [sAddressUsage SetReceiptState setAddressUsage].
    rewrite usage_set, decide_True by done. by apply H5.
- by rewrite HU.
Qed.

(** C10: an outbound transfer that succeeds first locks exactly the amount named,
    which is a multiple of the peg, in the migration pool, then asks Ethereum for
    exactly the ERC20 the peg says, books the amount against the day and the
    sender, and left the day's totals within every configured limit. *)
Theorem bridge_out_effect k ctx w s msg id erc20 w' s' :
  params_wf (GetParams s) → BridgeOut k ctx w s msg = (Ok (id, erc20), (w', s')) →
  ∃ sender, AccAddressFromBech32 k (mSender msg) = Some sender ∧
    bridged_out ctx w s sender (mRecipient msg) (mAmount msg) (mMaxFee msg) id erc20 w' s'.
Proof.
intros Wf. unfold BridgeOut. destruct (AccAddressFromBech32 k _) as [sender|]; [|done]. intros H. exists sender.
split; [done|]. by apply bridge_out_inversion.
Qed.

(** What a successful inbound transfer does. *)
Record bridged_in k ctx w s (msg : HyperlaneMessage) (account : bytes) (erc20 : Z) w' s' : Prop := {
  bi_open : BridgeEnabled (GetParams s) = true;
  bi_origin : Origin msg = EthereumDomain (GetParams s);
  bi_sender : Sender msg = RemoteBridgeVault (GetParams s) ∧ length (Sender msg) = HexAddressLen;
  bi_body : BuildAssetPayload (replicate 12 zeroByte ++ account) erc20 = Ok (Body msg) ∧ account ≠ replicate 20 zeroByte;
  bi_covered : erc20 * AtosPerErc20 (GetParams s) <= MigrationPoolBalance w;
  bi_paid : SendCoinsFromModuleToAccount w MigrationPoolName (AccAddressString k account)
    (NewCoins BaseDenom (erc20 * AtosPerErc20 (GetParams s))) = (Ok tt, w');
  bi_used : GetRateLimitState ctx s' =
    let r := GetRateLimitState ctx s in
    mkRateLimitState (Day r) (Used r) (UsedLarge r) (UsedInbound r + erc20 * AtosPerErc20 (GetParams s));
  bi_usage : sInboundUsage s' = setUsageAt ctx (sInboundUsage s) (AccAddressString k account)
      (GetInboundAddressUsage ctx s (AccAddressString k account) + erc20 * AtosPerErc20 (GetParams s)) ∧
    sAddressUsage s' = sAddressUsage s;
  bi_state : GetReceiptState s' =
      with_TotalBridgedIn (TotalBridgedIn (GetReceiptState s) + erc20 * AtosPerErc20 (GetParams s)) (GetReceiptState s) ∧
    GetParams s' = GetParams s;
  bi_limits : let l := KeeperLimits w s in Disabled l = false →
    (0 < Inbound l → UsedInbound (GetRateLimitState ctx s') <= Inbound l) ∧
    (0 < InboundPerAddress l → GetInboundAddressUsage ctx s' (AccAddressString k account) <= InboundPerAddress l) ∧
    (CrisisMode l = true → IsSmallInbound l (erc20 * AtosPerErc20 (GetParams s)) = true) ∧
    (0 < MaxTransferIn l → erc20 * AtosPerErc20 (GetParams s) <= MaxTransferIn l);
  bi_stored : sRateLimit s' = let r := GetRateLimitState ctx s' in
    Some (mkStoredRateLimit (Day r) (Some (Used r)) (Some (UsedLarge r)) (Some (UsedInbound r)));
}.

Lemma bridge_in_inversion k ctx w s msg w' s' :
  params_wf (GetParams s) → handleAssetTransfer k ctx w s msg = (Ok tt, (w', s')) →
  ∃ account erc20, bridged_in k ctx w s msg account erc20 w' s'.
Proof.
intros Wf. pose proof (wf_peg _ Wf). unfold handleAssetTransfer.
destruct (BridgeEnabled _) eqn:He; cbn [negb]; [|done]. destruct (Origin msg =? _) eqn:Ho; cbn [negb]; [|done]. boolP.
destruct (_ || _) eqn:E1; [done|]. apply orb_false_iff in E1 as [E1 E2]. boolP.
apply hexLen_spec in E1. apply bool_decide_eq_true in E2.
destruct (ParseAssetPayload _) as [[r x]|] eqn:Hp; [|done]. destruct (0 <? x) eqn:Hx; cbn [negb]; [|done]. boolP.
destruct (CosmosAddressFromHyperlane r) as [account|] eqn:Hr; [|done].
destruct (Erc20ToAtos x _) as [atos|] eqn:Ha; [|done]. apply Erc20ToAtos_exact in Ha as [-> _]; [|lia..].
destruct (MigrationPoolBalance w <? _) eqn:Hav; [done|]. boolP.
destruct (CheckInbound _ _ _ _) as [[]|] eqn:Hc; [|done]. apply CheckInbound_Ok in Hc as [_ Hc].
destruct (SendCoinsFromModuleToAccount _ _ _ _) as [[[]|] w1] eqn:Hs; [|done]. cbv zeta.
set (s1 := setInboundAddressUsage _ _ _ _). intros [= <- <-].
assert (Hs1 : GetRateLimitState ctx s1 = GetRateLimitState ctx s) by done. rewrite Hs1.
set (rl := mkRateLimitState _ _ _ _).
assert (Hrl : GetRateLimitState ctx (setRateLimitState s1 rl) = rl) by (apply rate_set, rate_day).
exists account, x. split; try done.
- split; congruence.
- destruct (proj1 (asset_payload_codec (Body msg) r x account) (conj Hp (conj Hx Hr))) as (H1 & _ & H3). done.
- cbv zeta. intros Hd. rewrite Hrl. destruct (Hc Hd) as (H1 & H2 & H3 & H4). split_and!; [done| |done|done].
  intros Hpa. etransitivity; [|by apply H3]. unfold GetInboundAddressUsage at 1. cbn [sInboundUsage setRateLimitState].
  unfold s1. cbn [sInboundUsage setInboundAddressUsage]. rewrite usage_set, decide_True by done. done.
- by rewrite Hrl.
Qed.

Lemma Handle_asset k ctx w s mb msg w' s' :
  Handle k ctx w s mb msg = (Ok tt, (w', s')) → Recipient msg = AssetAppId (GetReceiptState s) →
  length (Recipient msg) = HexAddressLen →
  mb = MailboxId (GetParams s) ∧ handleAssetTransfer k ctx w s msg = (Ok tt, (w', s')).
Proof.
unfold Handle. intros H Hr Hl. destruct (_ || _) eqn:E in H; [done|]. boolP. apply bool_decide_eq_true in H1.
rewrite <- Hr, (proj2 (hexLen_spec _) Hl), bool_decide_true in H by done. done.
Qed.

(** C11: an inbound transfer is only paid for a message that came through the
    configured mailbox from the configured vault and canonically encodes a
    positive amount for a non-zero account; it pays exactly the peg's ATOS to
    that account out of the migration pool, which held it, and stays within the
    inbound limits. *)
Theorem bridge_in_effect k ctx w s mb msg w' s' :
  params_wf (GetParams s) → Recipient msg = AssetAppId (GetReceiptState s) → length (Recipient msg) = HexAddressLen →
  Handle k ctx w s mb msg = (Ok tt, (w', s')) →
  mb = MailboxId (GetParams s) ∧ ∃ account erc20, bridged_in k ctx w s msg account erc20 w' s'.
Proof.
intros Wf Hr Hl H. apply Handle_asset in H as [Hmb H]; [|done..]. split; [done|]. by apply bridge_in_inversion.
Qed.

(** ** Switches *)

(** a guardian's halt closes everything and nothing else: it changes only the
    two switches, after it no transfer, message or dispatch succeeds or changes
    anything, and a caller who is not a guardian cannot halt. *)
Theorem halt_closes k s guardian :
  (IsGuardian (GetParams s) guardian = false → EmergencyHalt s guardian = Err ErrNotGuardian) ∧
  (∀ s', EmergencyHalt s guardian = Ok s' →
    s' = setParamsUnchecked s (halted (GetParams s)) ∧ guardian ∈ Guardians (GetParams s) ∧
    (∀ ctx w sender r x fee, ExecuteBridgeOut ctx w s' sender r x fee = (Err ErrBridgeDisabled, (w, s'))) ∧
    (∀ ctx w mb msg, ∃ e, Handle k ctx w s' mb msg = (Err e, (w, s'))) ∧
    (∀ w a b, DispatchTierRelease w s' a b = (Err ErrDisabled, w))).
Proof.
unfold EmergencyHalt. split; [by intros ->|]. intros s' H. destruct (IsGuardian _ _) eqn:E; [|done]. injection H as <-.
split_and!; [done| |done| |done].
- unfold IsGuardian in E. case_decide; [done|]. apply existsb_exists in E as (g & Hin & Hg%bool_decide_eq_true). subst.
  by apply list_elem_of_In.
- intros ctx w mb msg. unfold Handle. destruct (_ || _); [eauto|]. destruct (_ && _); [cbn; eauto|].
  destruct (_ && _); cbn; eauto.
Qed.

(** ** The day's books *)
Definition usageOn (d : Z) (u : AddressUsage) : Z := if uDay u =? d then default 0 (uUsed u) else 0.

(** The per-address records of the stored day add up to the stored totals, and
    no record is younger. *)
Definition books s : Prop :=
  match sRateLimit s with
  | None => sAddressUsage s = ∅ ∧ sInboundUsage s = ∅
  | Some r =>
      (∀ a u, sAddressUsage s !! a = Some u → uDay u <= srDay r) ∧
      (∀ a u, sInboundUsage s !! a = Some u → uDay u <= srDay r) ∧
      map_sum (usageOn (srDay r)) (sAddressUsage s) = default 0 (srUsed r) ∧
      map_sum (usageOn (srDay r)) (sInboundUsage s) = default 0 (srUsedInbound r) ∧
      0 <= default 0 (srUsedLarge r) <= default 0 (srUsed r)
  end.

(** No earlier than the day of the last transfer. *)
Definition not_before (t : Z) s : Prop := ∀ r, sRateLimit s = Some r → srDay r <= DayOf t.

Lemma usageOn_old d m : (∀ (a : string) u, m !! a = Some u → uDay u < d) → map_sum (usageOn d) m = 0.
Proof.
intros H. rewrite <- (map_sum_const0 m). apply map_sum_ext. intros a u Hu. unfold usageOn.
specialize (H a u Hu). by rewrite (proj2 (Z.eqb_neq (uDay u) d)) by lia.
Qed.

(** Today's records add up to today's totals. *)
Lemma books_today ctx s : books s → not_before (BlockTime ctx) s →
  let r := GetRateLimitState ctx s in
  map_sum (usageOn (DayOf (BlockTime ctx))) (sAddressUsage s) = Used r ∧
  map_sum (usageOn (DayOf (BlockTime ctx))) (sInboundUsage s) = UsedInbound r ∧ 0 <= UsedLarge r <= Used r.
Proof.
unfold books, not_before, GetRateLimitState. destruct (sRateLimit s) as [r|].
- intros (H1 & H2 & H3 & H4 & H5) Hn. specialize (Hn r eq_refl).
  destruct (srDay r =? DayOf (BlockTime ctx)) eqn:E; boolP; cbn [negb].
  + rewrite <- E. done.
  + cbn. split_and!; [apply usageOn_old..|lia|lia]; intros a u Hu; [specialize (H1 a u Hu)|specialize (H2 a u Hu)]; lia.
- intros [-> ->] _. rewrite !map_sum_empty. done.
Qed.

Lemma books_day ctx s m : books s → not_before (BlockTime ctx) s → m = sAddressUsage s ∨ m = sInboundUsage s →
  ∀ a u, m !! a = Some u → uDay u <= DayOf (BlockTime ctx).
Proof.
unfold books, not_before. intros Hb Hn Hm a u Hu. destruct (sRateLimit s) as [r|].
- destruct Hb as (H1 & H2 & _). specialize (Hn r eq_refl).
  destruct Hm as [->| ->]; [specialize (H1 a u Hu)|specialize (H2 a u Hu)]; lia.
- destruct Hb as [E1 E2]. destruct Hm as [->| ->]; [rewrite E1 in Hu|rewrite E2 in Hu]; by rewrite lookup_empty in Hu.
Qed.

Lemma sum_setUsage ctx m a x :
  map_sum (usageOn (DayOf (BlockTime ctx))) (setUsageAt ctx m a (usageAt ctx m a + x)) =
  map_sum (usageOn (DayOf (BlockTime ctx))) m + x.
Proof.
unfold setUsageAt. rewrite map_sum_insert.
assert (H1 : ∀ y, usageOn (DayOf (BlockTime ctx)) (mkAddressUsage (DayOf (BlockTime ctx)) (Some y)) = y)
  by (intros; unfold usageOn; cbn; by rewrite Z.eqb_refl).
assert (H2 : default 0 (usageOn (DayOf (BlockTime ctx)) <$> m !! a) = usageAt ctx m a)
  by (unfold usageAt, usageOn; destruct (m !! a) as [u|]; cbn; [by destruct (_ =? _)|done]).
rewrite H1, H2. lia.
Qed.

Lemma setUsage_day ctx m a x : (∀ a' u, m !! a' = Some u → uDay u <= DayOf (BlockTime ctx)) →
  ∀ a' u, setUsageAt ctx m a x !! a' = Some u → uDay u <= DayOf (BlockTime ctx).
Proof.
intros H a' u. unfold setUsageAt. rewrite lookup_insert_Some. intros [[-> <-]|[_ Hu]]; [done|by eapply H].
Qed.

Lemma books_out ctx w s sender recipient amount maxFee id erc20 w' s' :
  0 < AtosPerErc20 (GetParams s) → books s → not_before (BlockTime ctx) s →
  bridged_out ctx w s sender recipient amount maxFee id erc20 w' s' → books s'.
Proof.
intros Hpeg Hb Hn [_ [Hpos Hx] _ Hu [Hm1 Hm2] _ _ Hst].
destruct (books_today ctx s Hb Hn) as (T1 & T2 & T3). unfold books. rewrite Hst. cbn [srDay srUsed srUsedLarge srUsedInbound default].
cbv zeta. rewrite Hu. cbn [Day Used UsedLarge UsedInbound]. rewrite rate_day, Hm1, Hm2. 
split_and!; [apply setUsage_day| | | |..].
- apply (books_day ctx s); [done|done|by left].
- apply (books_day ctx s); [done|done|by right].
- unfold GetAddressUsage. cbn. rewrite sum_setUsage, T1. done.
- cbn. done.
- cbn. destruct (IsSmall _ _); nia.
- cbn. destruct (IsSmall _ _); nia.
Qed.

Lemma books_in k ctx w s msg account erc20 w' s' :
  books s → not_before (BlockTime ctx) s → bridged_in k ctx w s msg account erc20 w' s' → books s'.
Proof.
intros Hb Hn [_ _ _ _ _ _ Hu [Hm1 Hm2] _ _ Hst].
destruct (books_today ctx s Hb Hn) as (T1 & T2 & T3). unfold books. rewrite Hst. cbn [srDay srUsed srUsedLarge srUsedInbound default].
cbv zeta. rewrite Hu. cbn [Day Used UsedLarge UsedInbound]. rewrite rate_day, Hm1, Hm2.
split_and!; [|apply setUsage_day|..].
- apply (books_day ctx s); [done|done|by left].
- apply (books_day ctx s); [done|done|by right].
- cbn. done.
- unfold GetInboundAddressUsage. cbn. rewrite sum_setUsage, T2. done.
- cbn. lia.
- cbn. lia.
Qed.

Lemma DayOf_mono t t' : t <= t' → DayOf t <= DayOf t'.
Proof.
intros H. unfold DayOf, SecondsPerDay. destruct (t <? 0) eqn:E1, (t' <? 0) eqn:E2; boolP; try lia; [apply Z.div_pos; lia|].
apply Z.div_le_mono; lia.
Qed.

(** ** The module as a machine

    The third component is the time of the last transfer; block time never goes
    back.  The rest of the chain may do anything to the world in between. *)
Inductive bridge_step k : W * BridgeStore * Z → W * BridgeStore * Z → Prop :=
  | bs_out ctx w s t sender r x fee out w' s' : t <= BlockTime ctx →
      ExecuteBridgeOut ctx w s sender r x fee = (Ok out, (w', s')) →
      bridge_step k (w, s, t) (w', s', BlockTime ctx)
  | bs_handle ctx w s t mb msg w' s' : t <= BlockTime ctx →
      Handle k ctx w s mb msg = (Ok tt, (w', s')) →
      bridge_step k (w, s, t) (w', s', BlockTime ctx)
  | bs_update w s t msg s' : params_unsigned (uParams msg) →
      UpdateParams k s msg = Ok s' → bridge_step k (w, s, t) (w, s', t)
  | bs_halt w s t guardian s' : EmergencyHalt s guardian = Ok s' → bridge_step k (w, s, t) (w, s', t)
  | bs_world w s t w' : bridge_step k (w, s, t) (w', s, t).

Record bridge_inv (peg : Z) s (t : Z) : Prop := {
  bv_wf : params_wf (GetParams s);
  bv_peg : AtosPerErc20 (GetParams s) = peg;
  bv_books : books s;
  bv_time : not_before t s;
}.

Lemma halted_wf p : params_wf p → params_wf (halted p).
Proof. intros []. split; try done. by intros []. Qed.

Lemma not_before_mono t t' s : t <= t' → not_before t s → not_before t' s.
Proof. intros Ht H r Hr. specialize (H r Hr). pose proof (DayOf_mono t t' Ht). lia. Qed.

Lemma stored_not_before ctx s : sRateLimit s = (let r := GetRateLimitState ctx s in
    Some (mkStoredRateLimit (Day r) (Some (Used r)) (Some (UsedLarge r)) (Some (UsedInbound r)))) →
  not_before (BlockTime ctx) s.
Proof. intros H r Hr. rewrite H in Hr. injection Hr as <-. cbn. by rewrite rate_day. Qed.

Lemma handle_inv k peg ctx w s t mb msg w' s' :
  t <= BlockTime ctx → bridge_inv peg s t → Handle k ctx w s mb msg = (Ok tt, (w', s')) → bridge_inv peg s' (BlockTime ctx).
Proof.
intros Ht [Wf Hpeg Hb Hn] H. apply (not_before_mono _ _ _ Ht) in Hn.
destruct (decide (Recipient msg = AssetAppId (GetReceiptState s) ∧ length (Recipient msg) = HexAddressLen)) as [[E El]|E].
- apply Handle_asset in H as [_ H]; [|done..]. destruct (bridge_in_inversion _ _ _ _ _ _ _ Wf H) as (account & erc20 & R).
  split; [by rewrite (proj2 (bi_state _ _ _ _ _ _ _ _ _ R))..|by eapply books_in|].
  apply stored_not_before. by apply (bi_stored _ _ _ _ _ _ _ _ _ R).
- assert (Ha : applyReceipt k w s msg = (Ok tt, (w', s'))).
  { unfold Handle in H. destruct (_ || _) in H; [done|]. destruct (hexLen (AssetAppId _) && _) eqn:E1 in H.
    - apply andb_true_iff in E1 as [E1%hexLen_spec E2%bool_decide_eq_true]. exfalso. apply E. split; congruence.
    - by destruct (_ && _) in H. }
  destruct (receipt_inversion _ _ _ _ _ _ Wf Ha) as (tb & tp & R). by rewrite (ra_store _ _ _ _ _ _ _ _ R).
Qed.

Lemma bridge_step_inv k peg w s t w' s' t' :
  bridge_step k (w, s, t) (w', s', t') → bridge_inv peg s t → bridge_inv peg s' t'.
Proof.
intros H I. inversion H; subst; clear H.
- destruct I as [Wf Hpeg Hb Hn]. destruct out as [id erc20].
  match goal with Ht : t <= _ |- _ => apply (not_before_mono _ _ _ Ht) in Hn end.
  match goal with HE : ExecuteBridgeOut _ _ _ _ _ _ _ = _ |- _ => apply bridge_out_inversion in HE as R; [|done] end.
  split; [by rewrite (proj2 (bo_state _ _ _ _ _ _ _ _ _ _ _ R))..| |].
  + eapply books_out; [|done|done|exact R]. by apply wf_peg.
  + apply stored_not_before, (bo_stored _ _ _ _ _ _ _ _ _ _ _ R).
- by eapply handle_inv.
- destruct I as [Wf Hpeg Hb Hn]. unfold UpdateParams, SetParams in *. inv_ok. boolP. destruct x. split; try done.
  by eapply Params_Validate_wf.
- destruct I as [Wf Hpeg Hb Hn]. unfold EmergencyHalt in *. inv_ok. split; try done. by apply halted_wf.
- done.
Qed.

Lemma bridge_run_inv k peg x y :
  rtc (bridge_step k) x y → bridge_inv peg x.1.2 x.2 → bridge_inv peg y.1.2 y.2.
Proof.
induction 1 as [|[[w s] t] [[w' s'] t'] z Hs _ IH]; [done|]. intros I. apply IH. by apply (bridge_step_inv k peg w s t w' s' t').
Qed.

(** in every state the bridge can reach, on the current day the per-address
    records of each direction add up to the day's global counter, large
    transfers are part of the outbound total, the parameters are those a
    validated proposal can set and the peg is the one of genesis. *)
Theorem day_books k ctx w0 s0 w s t0 t :
  sRateLimit s0 = None → sAddressUsage s0 = ∅ → sInboundUsage s0 = ∅ → params_wf (GetParams s0) →
  rtc (bridge_step k) (w0, s0, t0) (w, s, t) → t <= BlockTime ctx →
  let r := GetRateLimitState ctx s in
  map_sum (usageOn (DayOf (BlockTime ctx))) (sAddressUsage s) = Used r ∧
  map_sum (usageOn (DayOf (BlockTime ctx))) (sInboundUsage s) = UsedInbound r ∧ 0 <= UsedLarge r <= Used r ∧
  params_wf (GetParams s) ∧ AtosPerErc20 (GetParams s) = AtosPerErc20 (GetParams s0).
Proof.
intros H1 H2 H3 Wf0 Hrun Ht. cbv zeta.
assert (I0 : bridge_inv (AtosPerErc20 (GetParams s0)) s0 t0).
{ split; [done|done| |]; [unfold books; by rewrite H1|intros r Hr; congruence]. }
assert (I : bridge_inv (AtosPerErc20 (GetParams s0)) s t).
{ by apply (bridge_run_inv k _ (w0, s0, t0) (w, s, t)). }
destruct I as [Wf Hpeg Hb Hn]. apply (not_before_mono _ _ _ Ht) in Hn.
destruct (books_today ctx s Hb Hn) as (T1 & T2 & T3). done.
Qed.
End safety.
