(* ===== verification/OracleKeeper.v ===== *)
(** * x/oracle: price reports, the current price and the TWAP

    Models src/x/oracle/types/ (helpers.go, keys.go) and src/x/oracle/keeper/
    (keeper.go, msg_server.go, genesis.go, grpc_query.go).  The price history is
    a map from store keys to reports; keys are the bytes the code builds (less
    the constant prefix byte) and iteration visits them in byte order. *)

From stdpp Require Import base list option strings gmap sorting.
From Stdlib Require Import ZArith Lia.
From S2P Require Import Prelude SdkMath.

Open Scope Z_scope.

(** ** Types *)
Record PriceData := mkPriceData {
  Price : Dec; Volume24h : Dec; Timestamp : Z; Feeder : string; Source : string;
}.

Record Params := mkParams {
  AllowedFeeders : list string;
  MaxPriceAgeSeconds : Z;
  MinValidReports : Z;
  pDenom : string;
  TWAPLookbackSeconds : Z;
  MaxPriceDeviationBps : Z;
}.

Definition DefaultParams : Params := mkParams [] 3600 1 "liao" 86400 5000.

Definition ErrUnauthorizedFeeder := Registered "oracle" 2.
Definition ErrInvalidPrice := Registered "oracle" 3.
Definition ErrInvalidVolume := Registered "oracle" 4.
Definition ErrInvalidSource := Registered "oracle" 5.
Definition ErrPriceNotFound := Registered "oracle" 6.
Definition ErrPriceDeviationTooHigh := Registered "oracle" 8.

Definition Params_Validate (AccAddressFromBech32 : string → option addr) (p : Params) : result unit :=
  guard! negb (MaxPriceAgeSeconds p =? 0) else Plain "max price age cannot be zero";
  guard! negb (MinValidReports p =? 0) else Plain "min valid reports cannot be zero";
  guard! negb (bool_decide (pDenom p = ""%string)) else Plain "denom cannot be empty";
  guard! negb (TWAPLookbackSeconds p =? 0) else Plain "TWAP lookback cannot be zero";
  guard! negb (MaxPriceDeviationBps p =? 0) else Plain "max_price_deviation_bps must be > 0";
  guard! forallb (fun f => bool_decide (is_Some (AccAddressFromBech32 f))) (AllowedFeeders p) else Plain "invalid feeder address";
  Ok tt.

Definition IsAllowedFeeder (p : Params) (a : string) : bool := existsb (fun f => bool_decide (f = a)) (AllowedFeeders p).

Definition PriceData_Validate (AccAddressFromBech32 : string → option addr) (pd : PriceData) : result unit :=
  guard! (0 <=? Price pd) else Plain "price cannot be negative";
  guard! (0 <=? Volume24h pd) else Plain "volume cannot be negative";
  guard! (0 <? Timestamp pd) else Plain "invalid timestamp";
  guard! bool_decide (is_Some (AccAddressFromBech32 (Feeder pd))) else Plain "invalid feeder address";
  Ok tt.

Record GenesisState := mkGenesisState { gsParams : Params; gsPriceHistory : list PriceData }.
Definition DefaultGenesisState : GenesisState := mkGenesisState DefaultParams [].

Fixpoint historyValidate (AccAddressFromBech32 : string → option addr) (l : list PriceData) : result unit :=
  match l with
  | [] => Ok tt
  | pd :: l => _ ← PriceData_Validate AccAddressFromBech32 pd; historyValidate AccAddressFromBech32 l
  end.

Definition GenesisState_Validate (AccAddressFromBech32 : string → option addr) (gs : GenesisState) : result unit :=
  _ ← Params_Validate AccAddressFromBech32 (gsParams gs);
  historyValidate AccAddressFromBech32 (gsPriceHistory gs).

Record MsgReportPrice := mkMsgReportPrice { mFeeder : string; mPrice : Dec; mVolume24h : Dec; mSource : string }.

Definition MsgReportPrice_ValidateBasic (AccAddressFromBech32 : string → option addr) (msg : MsgReportPrice) : result unit :=
  match AccAddressFromBech32 (mFeeder msg) with
  | None => Err (Plain "bech32")
  | Some _ =>
      guard! 0 <? mPrice msg else ErrInvalidPrice;
      guard! 0 <=? mVolume24h msg else ErrInvalidVolume;
      guard! negb (bool_decide (mSource msg = ""%string)) else ErrInvalidSource;
      Ok tt
  end.

Record MsgUpdateParams := mkMsgUpdateParams { Authority : string; uParams : Params }.

Definition MsgUpdateParams_ValidateBasic (AccAddressFromBech32 : string → option addr) (msg : MsgUpdateParams) : result unit :=
  match AccAddressFromBech32 (Authority msg) with
  | None => Err (Plain "bech32")
  | Some _ => Params_Validate AccAddressFromBech32 (uParams msg)
  end.

(** ** Store keys *)
(** [byte(x)]. *)
Definition byteOf (x : Z) : Ascii.ascii := Ascii.ascii_of_N (Z.to_N (x mod 256)).

(** The low [n] bytes of [x], most significant first, in front of [rest]. *)
Fixpoint beBytes (n : nat) (x : Z) (rest : string) : string :=
  match n with
  | O => rest
  | S n => String (byteOf (Z.shiftr x (8 * Z.of_nat n))) (beBytes n x rest)
  end.

Definition PriceHistoryKey (timestamp : Z) (feeder : string) : string := beBytes 8 timestamp feeder.

Record OracleStore := mkOracleStore {
  sParams : option Params;
  sCurrentPrice : option PriceData;
  sHistory : gmap string PriceData;
}.
Definition emptyOracleStore : OracleStore := mkOracleStore None None ∅.

Record Keeper := mkKeeper { authority : string; AccAddressFromBech32 : string → option addr }.

Definition GetParams (s : OracleStore) : Params := default DefaultParams (sParams s).
Definition SetParams (k : Keeper) (s : OracleStore) (p : Params) : result OracleStore :=
  _ ← Params_Validate (AccAddressFromBech32 k) p; Ok (mkOracleStore (Some p) (sCurrentPrice s) (sHistory s)).

Definition SetCurrentPrice (s : OracleStore) (pd : PriceData) : OracleStore :=
  mkOracleStore (sParams s) (Some pd) (sHistory s).
Definition GetCurrentPrice (s : OracleStore) : result PriceData :=
  match sCurrentPrice s with None => Err ErrPriceNotFound | Some pd => Ok pd end.

Definition AppendPriceHistory (s : OracleStore) (pd : PriceData) : OracleStore :=
  mkOracleStore (sParams s) (sCurrentPrice s) (<[PriceHistoryKey (Timestamp pd) (Feeder pd) := pd]> (sHistory s)).

Definition historyKeys (s : OracleStore) : list string := merge_sort string_le (elements (dom (sHistory s))).

(** Newest first, at most [limit]. *)
Definition GetPriceHistory (s : OracleStore) (limit : Z) : list PriceData :=
  take (Z.to_nat limit) (omap (fun key => sHistory s !! key) (reverse (historyKeys s))).

(** [store.Iterator(start, end)]: keys in [start, end), none when the range is
    empty. *)
Definition GetPricesSince (ctx : Ctx) (s : OracleStore) (sinceTimestamp : Z) : list PriceData :=
  let startKey := PriceHistoryKey sinceTimestamp "" in
  let endKey := PriceHistoryKey (BlockTime ctx + 1) "" in
  omap (fun key => sHistory s !! key)
    (filter (fun key => string_le startKey key ∧ ¬ string_le endKey key) (historyKeys s)).

Section keeper.
Context {D : LegacyDecOps}.
Implicit Types (k : Keeper) (ctx : Ctx) (s : OracleStore).

(** ** Medians *)
Definition medianDec (xs : list Dec) : Dec :=
  let xs := merge_sort Z.le xs in
  let n := length xs in
  if (n mod 2 =? 1)%nat then nth (n / 2) xs 0
  else Dec_QuoInt (nth (n / 2 - 1) xs 0 + nth (n / 2) xs 0) 2.

(** ** The TWAP *)
(** The longest prefix of [l] with the timestamp [t], and the rest. *)
Fixpoint sameTimestamp (t : Z) (l : list PriceData) : list PriceData * list PriceData :=
  match l with
  | [] => ([], [])
  | pd :: l' => if Timestamp pd =? t then let '(a, b) := sameTimestamp t l' in (pd :: a, b) else ([], l)
  end.

(** One entry of a group of reports with the same timestamp. *)
Definition representative (first : PriceData) (others : list PriceData) : PriceData :=
  match others with
  | [] => first
  | _ =>
      let bucket := first :: others in
      let lastOne := List.last bucket first in
      mkPriceData (medianDec (map Price bucket)) (medianDec (map Volume24h bucket)) (Timestamp first)
        (Feeder lastOne) (Source lastOne)
  end.

(** The loop of [collapseSameTimestampPrices]; [fuel] bounds the groups left. *)
Fixpoint collapseLoop (fuel : nat) (l : list PriceData) : list PriceData :=
  match fuel, l with
  | S fuel, pd :: l =>
      let '(same, rest) := sameTimestamp (Timestamp pd) l in
      representative pd same :: collapseLoop fuel rest
  | _, _ => []
  end.

Definition collapseSameTimestampPrices (prices : list PriceData) : list PriceData :=
  if (length prices <=? 1)%nat then prices else collapseLoop (length prices) prices.

(** Seconds an entry stood: until the next one, or until [now]. *)
Definition durations (now : Z) (prices : list PriceData) : list Z :=
  zip_with (fun pd next => let d := next - Timestamp pd in if d <=? 0 then 1 else d)
    prices (map Timestamp (drop 1 prices) ++ [now]).

Definition CalculateTWAP ctx s (lookbackSeconds : Z) : result (Dec * Dec) :=
  if lookbackSeconds =? 0 then Err (Plain "lookback cannot be zero")
  else
    let now := BlockTime ctx in
    let since := now - i64 lookbackSeconds in
    let prices := GetPricesSince ctx s since in
    if (length prices =? 0)%nat then Err ErrPriceNotFound
    else
      let prices := collapseSameTimestampPrices prices in
      let weights := map NewDec (durations now prices) in
      let totalWeight := sumZ weights in
      let weightedPriceSum := sumZ (zip_with (fun pd weight => Dec_Mul (Price pd) weight) prices weights) in
      let totalVolume := sumZ (map Volume24h prices) in
      if totalWeight =? 0 then Err ErrPriceNotFound
      else Ok (Dec_Quo weightedPriceSum totalWeight, Dec_Quo totalVolume (NewDec (Z.of_nat (length prices)))).

(** ** Reports *)
Definition withinDeviation (prev next : Dec) (maxBps : Z) : bool :=
  if negb (0 <? prev) then true
  else Dec_Quo (MulInt (Z.abs (next - prev)) 10000) prev <=? NewDec maxBps.

(** The start of the freshness window. *)
Definition cutoff ctx (params : Params) : Z :=
  if MaxPriceAgeSeconds params =? 0 then 0 else BlockTime ctx - i64 (MaxPriceAgeSeconds params).

(** The most recent report of each feeder; the incoming one stands for its own. *)
Definition latestReports ctx s (params : Params) (incoming : PriceData) : gmap string PriceData :=
  foldl (fun latest pd =>
    if bool_decide (Feeder pd = Feeder incoming) then latest
    else match latest !! Feeder pd with
         | Some cur => if Timestamp cur <? Timestamp pd then <[Feeder pd := pd]> latest else latest
         | None => <[Feeder pd := pd]> latest
         end)
    {[Feeder incoming := incoming]} (GetPricesSince ctx s (cutoff ctx params)).

Definition medianOfFreshReports ctx s (params : Params) (incoming : PriceData) : PriceData :=
  let latest := latestReports ctx s params incoming in
  if (size latest <=? 1)%nat then incoming
  else
    let reports := map snd (map_to_list latest) in
    mkPriceData (medianDec (map Price reports)) (medianDec (map Volume24h reports)) (Timestamp incoming)
      (Feeder incoming) (Source incoming).

Definition hasEnoughFreshFeeders ctx s (params : Params) : bool :=
  if MinValidReports params <=? 1 then true
  else
    let seen : gset string := list_to_set (map Feeder (GetPricesSince ctx s (cutoff ctx params))) in
    MinValidReports params <=? Z.of_nat (size seen).

Definition ReportPrice ctx s (msg : MsgReportPrice) : result OracleStore :=
  let params := GetParams s in
  guard! IsAllowedFeeder params (mFeeder msg) else ErrUnauthorizedFeeder;
  guard! (if 0 <? MaxPriceDeviationBps params then
      match GetCurrentPrice s with
      | Ok cur => if 0 <? Price cur then withinDeviation (Price cur) (mPrice msg) (MaxPriceDeviationBps params) else true
      | Err _ => true
      end
    else true) else ErrPriceDeviationTooHigh;
  let priceData := mkPriceData (mPrice msg) (mVolume24h msg) (BlockTime ctx) (mFeeder msg) (mSource msg) in
  let s := AppendPriceHistory s priceData in
  if (MinValidReports params <=? 1) || hasEnoughFreshFeeders ctx s params
  then Ok (SetCurrentPrice s (medianOfFreshReports ctx s params priceData))
  else Ok s.
End keeper.

Definition UpdateParams (k : Keeper) (s : OracleStore) (msg : MsgUpdateParams) : result OracleStore :=
  guard! bool_decide (authority k = Authority msg) else Plain "unauthorized";
  SetParams k s (uParams msg).

(** ** Genesis *)
(** The entry with the largest timestamp, the first one of equals. *)
Definition findLatestPrice (first : PriceData) (rest : list PriceData) : PriceData :=
  foldl (fun latest pd => if Timestamp latest <? Timestamp pd then pd else latest) first rest.

Definition InitGenesis (k : Keeper) (s : OracleStore) (gs : GenesisState) : result OracleStore :=
  s ← SetParams k s (gsParams gs);
  let s := foldl AppendPriceHistory s (gsPriceHistory gs) in
  match gsPriceHistory gs with
  | [] => Ok s
  | first :: rest => Ok (SetCurrentPrice s (findLatestPrice first rest))
  end.

Definition ExportGenesis (s : OracleStore) : GenesisState := mkGenesisState (GetParams s) (GetPriceHistory s 10000).

(** ** Queries *)
Definition QueryPriceHistory (s : OracleStore) (limit : Z) : list PriceData :=
  GetPriceHistory s (if limit =? 0 then 100 else limit).
Definition QueryTWAP {D : LegacyDecOps} (ctx : Ctx) (s : OracleStore) (lookback : Z) : result (Dec * Dec) :=
  CalculateTWAP ctx s (if lookback =? 0 then TWAPLookbackSeconds (GetParams s) else lookback).
