(* ===== verification/OracleSafety.v ===== *)
(** * x/oracle: what a price is worth

    The store keys order reports by time; a median is inside any interval that
    holds a majority of its inputs; the TWAP is inside the range of the window;
    the current price changes only by a quorum of fresh reports. *)

From stdpp Require Import base list option strings gmap sorting.
From Stdlib Require Import ZArith Lia.
From S2P Require Import Prelude SdkMath OracleKeeper.

Open Scope Z_scope.

(** ** Keys in time order *)
Lemma byteOf_N x : Ascii.N_of_ascii (byteOf x) = Z.to_N (x mod 256).
Proof. unfold byteOf. apply Ascii.N_ascii_embedding. pose proof (Z.mod_pos_bound x 256). lia. Qed.

Lemma split_byte x n : 0 <= n →
  x mod 2 ^ (8 * (n + 1)) = (Z.shiftr x (8 * n) mod 256) * 2 ^ (8 * n) + x mod 2 ^ (8 * n).
Proof.
intros Hn. rewrite Z.shiftr_div_pow2 by lia. replace (8 * (n + 1)) with (8 * n + 8) by lia.
rewrite Z.pow_add_r by lia. change (2 ^ 8) with 256.
rewrite (Z.rem_mul_r x (2 ^ (8 * n)) 256) by (try apply Z.pow_nonzero; lia). lia.
Qed.

Lemma beBytes_compare n x y a b :
  String.compare (beBytes n x a) (beBytes n y b) =
  match x mod 2 ^ (8 * Z.of_nat n) ?= y mod 2 ^ (8 * Z.of_nat n) with Eq => String.compare a b | c => c end.
Proof.
induction n as [|n IH]; [by rewrite !Z.mod_1_r|].
rewrite Nat2Z.inj_succ, <- Z.add_1_r, !split_byte by lia.
cbn [beBytes String.compare]. unfold Ascii.compare. rewrite !byteOf_N, IH.
set (p := 2 ^ (8 * Z.of_nat n)). assert (0 < p) by (apply Z.pow_pos_nonneg; lia).
pose proof (Z.mod_pos_bound x p ltac:(lia)). pose proof (Z.mod_pos_bound y p ltac:(lia)).
set (hx := Z.shiftr x _ mod 256). set (hy := Z.shiftr y _ mod 256).
pose proof (Z.mod_pos_bound (Z.shiftr x (8 * Z.of_nat n)) 256 ltac:(lia)) as Hx. fold hx in Hx.
pose proof (Z.mod_pos_bound (Z.shiftr y (8 * Z.of_nat n)) 256 ltac:(lia)) as Hy. fold hy in Hy.
destruct (N.compare_spec (Z.to_N hx) (Z.to_N hy)) as [E|E|E].
- assert (hx = hy) as -> by lia. rewrite Z.add_compare_mono_l. done.
- assert (hx < hy) by lia. symmetry. assert ((hx * p + x mod p ?= hy * p + y mod p) = Lt) as ->; [|done].
  apply Z.compare_lt_iff. nia.
- assert (hy < hx) by lia. symmetry. assert ((hx * p + x mod p ?= hy * p + y mod p) = Gt) as ->; [|done].
  apply Z.compare_gt_iff. nia.
Qed.

(** A timestamp as the store can hold it. *)
Definition is_time (t : Z) : Prop := 0 <= t < 2 ^ 63.

Lemma key_from t t' f : is_time t → is_time t' → string_le (PriceHistoryKey t "") (PriceHistoryKey t' f) ↔ t <= t'.
Proof.
intros [H1 H2] [H3 H4]. unfold string_le, String.leb, PriceHistoryKey. rewrite beBytes_compare.
change (2 ^ (8 * Z.of_nat 8)) with (2 ^ 64). rewrite !Z.mod_small by lia.
destruct (Z.compare_spec t t'); [|split; [lia|done]|split; [done|lia]].
split; [lia|]. intros _. by destruct f.
Qed.

(** A negative start is beyond every key. *)
Lemma key_negative t t' f : - 2 ^ 63 <= t < 0 → is_time t' → ¬ string_le (PriceHistoryKey t "") (PriceHistoryKey t' f).
Proof.
intros Ht [H3 H4]. unfold string_le, String.leb, PriceHistoryKey. rewrite beBytes_compare.
change (2 ^ (8 * Z.of_nat 8)) with (2 ^ 64). rewrite (Z.mod_small t') by lia.
replace (t mod 2 ^ 64) with (t + 2 ^ 64) by (apply (Z.mod_unique_pos _ _ (-1)); lia).
rewrite (proj2 (Z.compare_gt_iff (t + 2 ^ 64) t')) by lia. done.
Qed.

(** Every report is stored under its own key. *)
Definition history_wf (s : OracleStore) : Prop :=
  ∀ key pd, sHistory s !! key = Some pd → key = PriceHistoryKey (Timestamp pd) (Feeder pd) ∧ is_time (Timestamp pd).

Lemma history_wf_append s pd : is_time (Timestamp pd) → history_wf s → history_wf (AppendPriceHistory s pd).
Proof. intros Ht H key pd'. cbn. rewrite lookup_insert_Some. intros [[<- <-]|[_ Hk]]; [done|by apply H]. Qed.

Lemma elem_of_historyKeys s key : key ∈ historyKeys s ↔ is_Some (sHistory s !! key).
Proof. unfold historyKeys. rewrite merge_sort_Permutation, elem_of_elements, elem_of_dom. done. Qed.

(** The window holds exactly the stored reports of its time range. *)
Lemma elem_of_PricesSince ctx s since pd :
  history_wf s → is_time since → is_time (BlockTime ctx + 1) →
  pd ∈ GetPricesSince ctx s since ↔
  sHistory s !! PriceHistoryKey (Timestamp pd) (Feeder pd) = Some pd ∧ since <= Timestamp pd <= BlockTime ctx.
Proof.
intros Hwf Hs Hn. unfold GetPricesSince. rewrite list_elem_of_omap. setoid_rewrite list_elem_of_filter. split.
- intros (key & [[H1 H2] _] & Hk). destruct (Hwf key pd Hk) as [-> Ht]. apply key_from in H1; [|done..].
  split; [done|]. assert (¬ (BlockTime ctx + 1 <= Timestamp pd)); [|lia]. by rewrite <- (key_from _ _ (Feeder pd)).
- intros [Hk Hr]. destruct (Hwf _ _ Hk) as [_ Ht]. eexists. split; [|exact Hk]. rewrite elem_of_historyKeys.
  split_and!; [by apply key_from; [..|lia]| |by eexists]. rewrite key_from by done. lia.
Qed.

(** ** Medians *)
Section median.
Context {D : LegacyDecOps} {DL : LegacyDecLaws D}.

Definition within (lo hi : Z) (x : Z) : Prop := lo <= x <= hi.
#[local] Instance within_dec lo hi x : Decision (within lo hi x).
Proof. unfold within. apply _. Defined.

(** How many values lie in an interval. *)
Definition countIn (lo hi : Z) (xs : list Z) : nat := length (filter (within lo hi) xs).

Lemma countIn_split lo hi n xs : countIn lo hi xs = (countIn lo hi (take n xs) + countIn lo hi (drop n xs))%nat.
Proof. unfold countIn. rewrite <- length_app, <- filter_app, take_drop. done. Qed.

Lemma countIn_none lo hi xs : Forall (fun x => ¬ within lo hi x) xs → countIn lo hi xs = 0%nat.
Proof. intros H. unfold countIn. induction H; [done|]. by rewrite filter_cons_False. Qed.

Lemma sorted_above ys i x lo hi :
  StronglySorted Z.le ys → ys !! i = Some x → (length ys < countIn lo hi ys + S i)%nat → lo <= x.
Proof.
intros Hs Hx Hc. apply Z.nlt_ge. intros Hlt.
assert (countIn lo hi (take (S i) ys) = 0%nat).
{ apply countIn_none. rewrite Forall_lookup. intros j y Hy. apply lookup_take_Some in Hy as [Hy Hj]. unfold within.
  assert (y <= x); [|lia]. destruct (decide (j = i)) as [->|]; [naive_solver lia|].
  apply (StronglySorted_app_1_elem_of _ (take i ys) (drop i ys)); [by rewrite take_drop|..].
  - apply list_elem_of_lookup_2 with j. rewrite lookup_take_lt by lia. done.
  - apply list_elem_of_lookup_2 with 0%nat. rewrite lookup_drop, Nat.add_0_r. done. }
pose proof (countIn_split lo hi (S i) ys). pose proof (length_filter (within lo hi) (drop (S i) ys)) as Hl.
rewrite length_drop in Hl. unfold countIn in *. apply lookup_lt_Some in Hx. lia.
Qed.

Lemma sorted_below ys i x lo hi :
  StronglySorted Z.le ys → ys !! i = Some x → (i < countIn lo hi ys)%nat → x <= hi.
Proof.
intros Hs Hx Hc. apply Z.nlt_ge. intros Hlt.
assert (countIn lo hi (drop i ys) = 0%nat).
{ apply countIn_none. rewrite Forall_lookup. intros j y Hy. rewrite lookup_drop in Hy. unfold within.
  assert (x <= y); [|lia]. destruct (decide (j = 0%nat)) as [->|]; [rewrite Nat.add_0_r in Hy; naive_solver lia|].
  apply (StronglySorted_app_1_elem_of _ (take (S i) ys) (drop (S i) ys)); [by rewrite take_drop|..].
  - apply list_elem_of_lookup_2 with i. rewrite lookup_take_lt by lia. done.
  - apply list_elem_of_lookup_2 with (j - 1)%nat. rewrite lookup_drop. rewrite <- Hy. f_equal. lia. }
pose proof (countIn_split lo hi i ys). pose proof (length_filter (within lo hi) (take i ys)) as Hl.
rewrite length_take in Hl. unfold countIn in *. lia.
Qed.

Lemma countIn_perm lo hi xs ys : xs ≡ₚ ys → countIn lo hi xs = countIn lo hi ys.
Proof. intros H. unfold countIn. by rewrite H. Qed.

(** The median lies in every interval that holds more than half of the values. *)
Lemma median_majority xs lo hi :
  0 <= lo → (length xs < 2 * countIn lo hi xs)%nat → lo <= medianDec xs <= hi.
Proof.
intros Hlo Hc. unfold medianDec. set (ys := merge_sort Z.le xs).
assert (Hp : ys ≡ₚ xs) by apply merge_sort_Permutation.
assert (Hs : StronglySorted Z.le ys) by (apply StronglySorted_merge_sort; apply _).
rewrite <- (countIn_perm _ _ _ _ Hp) in Hc. rewrite <- (Permutation_length Hp) in Hc.
set (n := length ys) in *. pose proof (length_filter (within lo hi) ys) as Hle. fold (countIn lo hi ys) in Hle. fold n in Hle.
assert (Hat : ∀ i, (i < n)%nat → (n < countIn lo hi ys + S i)%nat → (i < countIn lo hi ys)%nat → lo <= nth i ys 0 <= hi).
{ intros i Hi H1 H2. destruct (lookup_lt_is_Some_2 ys i Hi) as [x Hx]. rewrite (nth_lookup_Some _ _ _ _ Hx).
  split; [by eapply sorted_above|by eapply sorted_below]. }
pose proof (Nat.div_mod n 2 ltac:(lia)). pose proof (Nat.mod_upper_bound n 2 ltac:(lia)).
destruct (n mod 2 =? 1)%nat eqn:E; [apply Nat.eqb_eq in E|apply Nat.eqb_neq in E].
- apply Hat; lia.
- pose proof (Hat (n / 2 - 1)%nat ltac:(lia) ltac:(lia) ltac:(lia)) as H1.
  pose proof (Hat (n / 2)%nat ltac:(lia) ltac:(lia) ltac:(lia)) as H2.
  pose proof (Dec_QuoInt_ulp (nth (n / 2 - 1) ys 0 + nth (n / 2) ys 0) 2 ltac:(lia) ltac:(lia)). lia.
Qed.

Lemma countIn_all lo hi xs : Forall (within lo hi) xs → countIn lo hi xs = length xs.
Proof. intros H. unfold countIn. induction H; [done|]. rewrite filter_cons_True by done. cbn. by f_equal. Qed.

Lemma median_range xs lo hi : xs ≠ [] → 0 <= lo → Forall (within lo hi) xs → lo <= medianDec xs <= hi.
Proof.
intros Hn Hlo H. apply median_majority; [done|]. rewrite countIn_all by done. destruct xs; [done|]. cbn. lia.
Qed.
End median.

(** ** The TWAP *)
Section twap.
Context {D : LegacyDecOps} {DL : LegacyDecLaws D}.

Lemma sameTimestamp_spec t l a b : sameTimestamp t l = (a, b) →
  l = a ++ b ∧ Forall (fun pd => Timestamp pd = t) a ∧ (∀ pd, head b = Some pd → Timestamp pd ≠ t).
Proof.
revert a b. induction l as [|pd l IH]; cbn; intros a b H; [by simplify_eq|].
destruct (Timestamp pd =? t) eqn:E; boolP.
- destruct (sameTimestamp t l) as [a' b'] eqn:E'. injection H as <- <-. destruct (IH a' b' eq_refl) as (-> & H1 & H2).
  split_and!; [done|by constructor|done].
- injection H as <- <-. split_and!; [done|done|]. by intros pd' [= <-].
Qed.

Lemma representative_ts pd same : Timestamp (representative pd same) = Timestamp pd.
Proof. by destruct same. Qed.

Lemma representative_range lo hi pd same :
  0 <= lo → Forall (fun pd => within lo hi (Price pd)) (pd :: same) → within lo hi (Price (representative pd same)).
Proof.
intros Hlo H. destruct same as [|x same]; [by inversion H|]. cbn [representative Price].
apply median_range; [done|done|]. by rewrite Forall_fmap.
Qed.

(** Collapsing leaves one entry per timestamp, in order, within the range of the
    prices it stands for. *)
Lemma collapseLoop_spec fuel : ∀ l lo hi,
  (length l <= fuel)%nat → StronglySorted Z.le (map Timestamp l) →
  0 <= lo → Forall (fun pd => within lo hi (Price pd)) l →
  StronglySorted Z.lt (map Timestamp (collapseLoop fuel l)) ∧
  (∀ t, t ∈ map Timestamp (collapseLoop fuel l) ↔ t ∈ map Timestamp l) ∧
  Forall (fun pd => within lo hi (Price pd)) (collapseLoop fuel l).
Proof.
induction fuel as [|fuel IH]; intros [|pd l] lo hi Hl Hs Hlo Hr; cbn [collapseLoop]; try (cbn in Hl; lia).
1,2: split_and!; [constructor|done|constructor].
destruct (sameTimestamp (Timestamp pd) l) as [same rest] eqn:E. apply sameTimestamp_spec in E as (-> & Hsame & Hhd).
cbn [map length] in *. rewrite length_app in Hl. rewrite map_app in Hs.
apply StronglySorted_inv in Hs as [Hs Hall]. rewrite Forall_app in Hall. destruct Hall as [_ Hall].
assert (Hr' : Forall (λ pd, within lo hi (Price pd)) (pd :: same) ∧ Forall (λ pd, within lo hi (Price pd)) rest).
{ inversion_clear Hr as [|? ? Hp Hrest]. apply Forall_app in Hrest as [? ?]. split; [by constructor|done]. }
assert (Hsr : StronglySorted Z.le (map Timestamp rest)) by (by eapply StronglySorted_app_1_r).
destruct (IH rest lo hi ltac:(lia) Hsr Hlo (proj2 Hr')) as (I1 & I2 & I3).
split_and!.
- constructor; [done|]. rewrite representative_ts. apply Forall_forall. intros t Ht%I2.
  destruct rest as [|y rest]; [by apply not_elem_of_nil in Ht|]. cbn [map] in *.
  specialize (Hhd y eq_refl). inversion_clear Hall as [|? ? Hy _]. apply StronglySorted_inv in Hsr as [_ Hsr].
  apply elem_of_cons in Ht as [->|Ht]; [lia|]. rewrite Forall_forall in Hsr. specialize (Hsr t Ht). lia.
- intros t. rewrite representative_ts, !elem_of_cons, map_app, elem_of_app, I2.
  assert (Hn : t ∈ map Timestamp same → t = Timestamp pd).
  { rewrite list_elem_of_fmap. intros (x & -> & Hx). rewrite Forall_forall in Hsame. by apply Hsame. }
  naive_solver.
- constructor; [|done]. apply representative_range; [done|exact (proj1 Hr')].
Qed.

Lemma collapse_spec l lo hi :
  StronglySorted Z.le (map Timestamp l) → 0 <= lo → Forall (fun pd => within lo hi (Price pd)) l →
  StronglySorted Z.lt (map Timestamp (collapseSameTimestampPrices l)) ∧
  (∀ t, t ∈ map Timestamp (collapseSameTimestampPrices l) ↔ t ∈ map Timestamp l) ∧
  Forall (fun pd => within lo hi (Price pd)) (collapseSameTimestampPrices l).
Proof.
intros Hs Hlo Hr. unfold collapseSameTimestampPrices. destruct (length l <=? 1)%nat eqn:E.
- apply Nat.leb_le in E. split_and!; [|done|done]. destruct l as [|pd [|]]; [constructor|repeat constructor|cbn in E; lia].
- by apply collapseLoop_spec.
Qed.

(** The window is read in time order. *)
Lemma PricesSince_sorted ctx s since :
  history_wf s → StronglySorted Z.le (map Timestamp (GetPricesSince ctx s since)).
Proof.
intros Hwf. unfold GetPricesSince.
assert (Hs : StronglySorted string_le (historyKeys s)) by (apply StronglySorted_merge_sort; apply _).
revert Hs. generalize (historyKeys s). intros keys Hs. induction Hs as [|key keys Hs IH Hall]; [constructor|].
rewrite filter_cons. case_decide as Hk; [|done]. cbn [omap list_omap].
destruct (sHistory s !! key) as [pd|] eqn:E; [|done]. cbn [map]. constructor; [done|].
rewrite Forall_forall. intros t (pd' & -> & Hin)%list_elem_of_fmap.
apply list_elem_of_omap in Hin as (key' & [_ Hin]%list_elem_of_filter & Hk').
rewrite Forall_forall in Hall. specialize (Hall key' Hin). destruct (Hwf _ _ E) as [-> [H1 H2]], (Hwf _ _ Hk') as [-> [H3 H4]].
unfold string_le, String.leb, PriceHistoryKey in Hall. rewrite beBytes_compare in Hall.
change (2 ^ (8 * Z.of_nat 8)) with (2 ^ 64) in Hall. rewrite !Z.mod_small in Hall by lia.
destruct (Z.compare_spec (Timestamp pd) (Timestamp pd')); [lia|lia|done].
Qed.

Lemma durations_spec now l : length (durations now l) = length l ∧ Forall (fun d => 0 < d) (durations now l).
Proof.
unfold durations. split.
- rewrite length_zip_with, length_app, length_map, length_drop. destruct l; [done|]. cbn [length]. lia.
- apply Forall_lookup. intros i d (x & y & -> & _)%lookup_zip_with_Some. cbv zeta. destruct (_ <=? _) eqn:E; boolP; lia.
Qed.

Lemma weighted_range lo hi l ds :
  0 <= lo → length ds = length l → Forall (fun d => 0 < d) ds → Forall (fun pd => within lo hi (Price pd)) l →
  lo * sumZ ds <= sumZ (zip_with (fun pd weight => Dec_Mul (Price pd) weight) l (map NewDec ds)) <= hi * sumZ ds.
Proof.
intros Hlo. revert ds. induction l as [|pd l IH]; intros [|d ds] Hl Hd Hr; try done; [cbn; lia|].
inversion_clear Hd. inversion_clear Hr as [|? ? [Hp1 Hp2] Hr']. cbn [map zip_with sumZ foldr].
fold (sumZ ds). fold (sumZ (zip_with (λ pd weight, Dec_Mul (Price pd) weight) l (map NewDec ds))).
rewrite Dec_Mul_NewDec_r by lia. specialize (IH ds ltac:(by injection Hl) ltac:(done) Hr'). nia.
Qed.

Lemma sumZ_NewDec ds : sumZ (map NewDec ds) = sumZ ds * precision.
Proof. induction ds as [|d ds IH]; [done|]. cbn [map sumZ foldr]. fold (sumZ ds). fold (sumZ (map NewDec ds)). rewrite IH. unfold NewDec. ring. Qed.

Lemma sumZ_pos ds : ds ≠ [] → Forall (fun d => 0 < d) ds → 0 < sumZ ds.
Proof.
intros Hn H. destruct H as [|d ds Hd H]; [done|]. cbn. pose proof (sumZ_nonneg ds) as Hs. fold (sumZ ds).
assert (0 <= sumZ ds); [|lia]. apply Hs. eapply Forall_impl; [exact H|]. intros; cbv beta in *; lia.
Qed.

(** the time-weighted price exists exactly when the window holds a report,
    and then lies between any bounds that hold for every report of the window. *)
Theorem twap_in_range ctx s lookback lo hi :
  history_wf s → is_time (BlockTime ctx + 1) → 0 < lookback <= BlockTime ctx → 0 <= lo →
  (∀ key pd, sHistory s !! key = Some pd → BlockTime ctx - lookback <= Timestamp pd <= BlockTime ctx → lo <= Price pd <= hi) →
  if decide (GetPricesSince ctx s (BlockTime ctx - lookback) = [])
  then CalculateTWAP ctx s lookback = Err ErrPriceNotFound
  else ∃ price volume, CalculateTWAP ctx s lookback = Ok (price, volume) ∧ lo <= price <= hi.
Proof.
intros Hwf Hn Hb Hlo Hr. unfold CalculateTWAP. rewrite (proj2 (Z.eqb_neq lookback 0)) by lia.
unfold is_time in Hn. rewrite i64_small by (unfold is_i64; lia).
assert (Hall : Forall (fun pd => within lo hi (Price pd)) (GetPricesSince ctx s (BlockTime ctx - lookback))).
{ apply Forall_forall. intros pd [Hk Ht]%elem_of_PricesSince; [|done|unfold is_time; lia|done]. by eapply Hr. }
pose proof (PricesSince_sorted ctx s (BlockTime ctx - lookback) Hwf) as Hs.
set (l := GetPricesSince ctx s (BlockTime ctx - lookback)) in *. case_decide as E; [by rewrite E|].
destruct (collapse_spec l lo hi Hs Hlo Hall) as (_ & C2 & C3). set (c := collapseSameTimestampPrices l) in *.
assert (Hc : c ≠ []).
{ destruct l as [|pd l'] eqn:El; [done|]. intros E'. rewrite E' in C2. specialize (proj2 (C2 (Timestamp pd)) ltac:(cbn; set_solver)).
  cbn. by rewrite elem_of_nil. }
rewrite (proj2 (Nat.eqb_neq (length l) 0)) by (by destruct l).
destruct (durations_spec (BlockTime ctx) c) as [Hdl Hdp]. set (ds := durations (BlockTime ctx) c) in *.
assert (Hsum : 0 < sumZ ds) by (apply sumZ_pos; [by destruct c, ds|done]).
pose proof (weighted_range lo hi c ds Hlo Hdl Hdp C3) as Hw. cbv zeta. rewrite sumZ_NewDec.
pose proof precision_pos. rewrite (proj2 (Z.eqb_neq (sumZ ds * precision) 0)) by nia.
eexists _, _. split; [done|]. set (S := sumZ (zip_with _ _ _)) in *.
pose proof (Dec_Quo_ulp S (sumZ ds * precision) ltac:(nia) ltac:(nia)) as Hq. set (q := Dec_Quo _ _) in *.
replace (q * (sumZ ds * precision) - S * precision) with ((q * sumZ ds - S) * precision) in Hq by ring. nia.
Qed.

(** a lookback longer than the time since 1970 finds nothing, whatever the
    history holds: the start of the window is negative and its key sorts after
    every report. *)
Theorem long_lookback_finds_nothing ctx s lookback :
  history_wf s → is_time (BlockTime ctx + 1) → 0 <= BlockTime ctx < lookback → lookback < 2 ^ 63 →
  GetPricesSince ctx s (BlockTime ctx - lookback) = [] ∧ CalculateTWAP ctx s lookback = Err ErrPriceNotFound.
Proof.
intros Hwf Hn Hb Hb2. pose proof Hn as [Hn1 Hn2].
assert (H : GetPricesSince ctx s (BlockTime ctx - lookback) = []).
{ apply elem_of_nil_inv. intros pd. unfold GetPricesSince. rewrite list_elem_of_omap. setoid_rewrite list_elem_of_filter.
  intros (key & [[H1 _] _] & Hk). destruct (Hwf _ _ Hk) as [-> Ht]. revert H1. apply key_negative; [|done]. lia. }
split; [done|]. unfold CalculateTWAP. rewrite (proj2 (Z.eqb_neq lookback 0)) by lia.
rewrite i64_small by (unfold is_i64; lia). by rewrite H.
Qed.
End twap.

(** ** The current price *)
Section report.
Context {D : LegacyDecOps} {DL : LegacyDecLaws D}.
Implicit Types (ctx : Ctx) (s : OracleStore).

Lemma withinDeviation_bound prev next maxBps :
  0 < prev → withinDeviation prev next maxBps = true →
  Z.abs (next - prev) * 10000 * precision < (maxBps * precision + 1) * prev.
Proof.
intros Hp. unfold withinDeviation. rewrite (proj2 (Z.ltb_lt 0 prev) Hp). cbn [negb]. intros H. boolP. unfold MulInt, NewDec in *.
pose proof (Dec_Quo_ulp (Z.abs (next - prev) * 10000) prev ltac:(lia) Hp). nia.
Qed.

(** [m] maps each feeder with a report in the window to its most recent one. *)
Record freshest ctx (h : gmap string PriceData) (age : Z) (incoming : PriceData) (m : gmap string PriceData) : Prop := {
  fr_incoming : m !! Feeder incoming = Some incoming;
  fr_report : ∀ f pd, m !! f = Some pd → Feeder pd = f ∧
    (pd = incoming ∨ h !! PriceHistoryKey (Timestamp pd) (Feeder pd) = Some pd ∧
                     BlockTime ctx - age <= Timestamp pd <= BlockTime ctx);
  fr_latest : ∀ key pd, h !! key = Some pd → BlockTime ctx - age <= Timestamp pd <= BlockTime ctx →
    Feeder pd ≠ Feeder incoming → ∃ cur, m !! Feeder pd = Some cur ∧ Timestamp pd <= Timestamp cur;
}.

Definition latestStep (incoming : PriceData) (latest : gmap string PriceData) (pd : PriceData) : gmap string PriceData :=
  if bool_decide (Feeder pd = Feeder incoming) then latest
  else match latest !! Feeder pd with
       | Some cur => if Timestamp cur <? Timestamp pd then <[Feeder pd := pd]> latest else latest
       | None => <[Feeder pd := pd]> latest
       end.

Lemma latestStep_at inc m pd : Feeder pd ≠ Feeder inc →
  ∃ cur, latestStep inc m pd !! Feeder pd = Some cur ∧ Timestamp pd <= Timestamp cur.
Proof.
intros Hne. unfold latestStep. rewrite bool_decide_false by done. destruct (m !! Feeder pd) as [cur|] eqn:E.
- destruct (Timestamp cur <? Timestamp pd) eqn:E'; boolP; [exists pd; by rewrite lookup_insert_eq|eauto].
- exists pd. by rewrite lookup_insert_eq.
Qed.

Lemma latestStep_keeps inc m pd f cur : m !! f = Some cur →
  ∃ cur', latestStep inc m pd !! f = Some cur' ∧ Timestamp cur <= Timestamp cur' ∧ (f = Feeder inc → cur' = cur).
Proof.
intros Hf. unfold latestStep. case_bool_decide as E; [by exists cur|].
destruct (decide (f = Feeder pd)) as [->|Hne].
- rewrite Hf. destruct (_ <? _) eqn:E'; boolP; [|by exists cur]. exists pd. rewrite lookup_insert_eq. split_and!; [done|lia|].
  intros; congruence.
- exists cur. split_and!; [|lia|done]. destruct (m !! Feeder pd) as [c|]; [destruct (_ <? _)|]; by rewrite ?lookup_insert_ne.
Qed.

Lemma latestStep_inv inc m pd f x : latestStep inc m pd !! f = Some x → m !! f = Some x ∨ (f = Feeder pd ∧ x = pd).
Proof.
unfold latestStep. case_bool_decide; [by left|]. 
destruct (m !! Feeder pd) as [c|]; [destruct (_ <? _)|]; rewrite ?lookup_insert_Some; naive_solver.
Qed.

Lemma latest_fold inc l :
  let m := foldl (latestStep inc) {[Feeder inc := inc]} l in
  m !! Feeder inc = Some inc ∧
  (∀ f pd, m !! f = Some pd → Feeder pd = f ∧ (pd = inc ∨ pd ∈ l)) ∧
  (∀ pd, pd ∈ l → Feeder pd ≠ Feeder inc → ∃ cur, m !! Feeder pd = Some cur ∧ Timestamp pd <= Timestamp cur).
Proof.
induction l as [|x l IH] using rev_ind; cbn.
- split_and!; [by rewrite lookup_singleton_eq| |intros pd H; by apply not_elem_of_nil in H].
  intros f pd [<- <-]%lookup_singleton_Some. eauto.
- rewrite foldl_app. cbn. destruct IH as (I1 & I2 & I3). set (m := foldl _ _ l) in *. split_and!.
  + destruct (latestStep_keeps inc m x _ _ I1) as (c & -> & _ & Hc). f_equal. by apply Hc.
  + intros f pd [H|[-> ->]]%latestStep_inv; [|set_solver]. apply I2 in H as [? [?|?]]; set_solver.
  + intros pd Hin Hne. apply elem_of_app in Hin as [Hin|Hin%list_elem_of_singleton]; [|subst; by apply latestStep_at].
    destruct (I3 pd Hin Hne) as (cur & Hc & Ht). destruct (latestStep_keeps inc m x _ _ Hc) as (c & -> & Hle & _).
    exists c. split; [done|lia].
Qed.

Lemma latestReports_freshest ctx s params inc :
  history_wf s → is_time (BlockTime ctx + 1) → 0 < MaxPriceAgeSeconds params <= BlockTime ctx →
  freshest ctx (sHistory s) (MaxPriceAgeSeconds params) inc (latestReports ctx s params inc) ∧
  (list_to_set (map Feeder (GetPricesSince ctx s (cutoff ctx params))) : gset string) ⊆ dom (latestReports ctx s params inc).
Proof.
intros Hwf Hn Ha. pose proof Hn as [Hn1 Hn2]. unfold latestReports.
assert (Hcut : cutoff ctx params = BlockTime ctx - MaxPriceAgeSeconds params).
{ unfold cutoff. rewrite (proj2 (Z.eqb_neq _ 0)) by lia. by rewrite i64_small by (unfold is_i64; lia). }
rewrite Hcut. destruct (latest_fold inc (GetPricesSince ctx s (BlockTime ctx - MaxPriceAgeSeconds params))) as (L1 & L2 & L3).
fold (latestStep inc). set (m := foldl _ _ _) in *.
assert (Hw : is_time (BlockTime ctx - MaxPriceAgeSeconds params)) by (unfold is_time; lia).
split.
- split; [done| |].
  + intros f pd [Hf [H|H]]%L2; split; try done; [by left|right]. by apply elem_of_PricesSince in H.
  + intros key pd Hk Ht. destruct (Hwf _ _ Hk) as [-> _]. apply L3. by apply elem_of_PricesSince.
- intros f. rewrite elem_of_list_to_set, list_elem_of_fmap, elem_of_dom. intros (pd & -> & Hin).
  destruct (decide (Feeder pd = Feeder inc)) as [->|Hne]; [by eexists|]. destruct (L3 pd Hin Hne) as (c & Hc & _). by eexists.
Qed.

(** C15: a report is only accepted from an allowed feeder and within the deviation
    cap of the current price; it enters the history; and the current price only
    changes when enough distinct feeders have fresh reports, to a value that
    lies in every interval holding a majority of the feeders' latest reports. *)
Theorem report_price_safe ctx s msg s' :
  history_wf s → 0 <= BlockTime ctx → is_time (BlockTime ctx + 1) → 0 < MaxPriceAgeSeconds (GetParams s) <= BlockTime ctx →
  ReportPrice ctx s msg = Ok s' →
  let incoming := mkPriceData (mPrice msg) (mVolume24h msg) (BlockTime ctx) (mFeeder msg) (mSource msg) in
  mFeeder msg ∈ AllowedFeeders (GetParams s) ∧
  (∀ cur, sCurrentPrice s = Some cur → 0 < Price cur → 0 < MaxPriceDeviationBps (GetParams s) →
    Z.abs (mPrice msg - Price cur) * 10000 * precision < (MaxPriceDeviationBps (GetParams s) * precision + 1) * Price cur) ∧
  sHistory s' = <[PriceHistoryKey (BlockTime ctx) (mFeeder msg) := incoming]> (sHistory s) ∧ history_wf s' ∧
  (sCurrentPrice s' = sCurrentPrice s ∨
   ∃ m pd, freshest ctx (sHistory s') (MaxPriceAgeSeconds (GetParams s)) incoming m ∧
     MinValidReports (GetParams s) <= Z.max 1 (Z.of_nat (size m)) ∧
     sCurrentPrice s' = Some pd ∧ Timestamp pd = BlockTime ctx ∧
     ∀ lo hi, 0 <= lo →
       (size m < 2 * countIn lo hi (map (fun x => Price x.2) (map_to_list m)))%nat → lo <= Price pd <= hi).
Proof.
intros Hwf Ht0 Hn Ha H incoming. unfold ReportPrice in H. inv_ok. fold incoming in H.
assert (Hwf1 : history_wf (AppendPriceHistory s incoming)) by (apply history_wf_append; [unfold is_time in *; cbn; lia|done]).
split_and!.
- unfold IsAllowedFeeder in *. match goal with E : existsb _ _ = true |- _ => apply existsb_exists in E as (f & Hin & Hf) end.
  apply bool_decide_eq_true in Hf as <-. by apply list_elem_of_In.
- intros cur Hc Hp Hd. unfold GetCurrentPrice in *. rewrite Hc in *. rewrite !(proj2 (Z.ltb_lt 0 _)) in * by done.
  by apply withinDeviation_bound.
- by destruct (_ || _); injection H as <-.
- destruct (_ || _); injection H as <-; exact Hwf1.
- destruct (latestReports_freshest ctx (AppendPriceHistory s incoming) (GetParams s) incoming Hwf1 Hn Ha) as [Hf Hd].
  set (m := latestReports _ _ _ _) in *.
  destruct ((MinValidReports (GetParams s) <=? 1) || hasEnoughFreshFeeders ctx (AppendPriceHistory s incoming) (GetParams s))
    eqn:Eq; injection H as <-; [right|by left].
  exists m. eexists. split_and!; [exact Hf| |done| |].
  + apply orb_true_iff in Eq as [Eq|Eq]; [boolP; lia|]. unfold hasEnoughFreshFeeders in Eq.
    destruct (_ <=? 1) eqn:E1; boolP; [lia|]. apply subseteq_size in Hd. rewrite size_dom in Hd. lia.
  + unfold medianOfFreshReports. by destruct (_ <=? _)%nat.
  + intros lo hi Hlo Hmaj. unfold medianOfFreshReports. fold m. destruct (size m <=? 1)%nat eqn:Es.
    * apply Nat.leb_le in Es. pose proof (length_map_to_list m) as Hl.
      assert (Hin : (Feeder incoming, incoming) ∈ map_to_list m) by (apply elem_of_map_to_list, Hf).
      destruct (map_to_list m) as [|x [|]]; [by apply not_elem_of_nil in Hin| |cbn in Hl; lia].
      apply list_elem_of_singleton in Hin as <-. unfold countIn in Hmaj. cbn [map snd] in Hmaj.
      rewrite filter_cons in Hmaj. case_decide as Hw; [exact Hw|]. rewrite filter_nil in Hmaj. cbn [length] in Hmaj. lia.
    * cbn [Price]. apply median_majority; [done|]. rewrite map_map. rewrite !length_map, length_map_to_list. exact Hmaj.
Qed.
End report.

(** ** A concrete oracle

    Three feeders, two of which reported 100 and 104 within the hour. *)
#[local] Existing Instance bankers_dec.
#[local] Existing Instance bankers_dec_laws.
Module OracleSample.
Definition params : Params := mkParams ["f1"; "f2"; "f3"]%string 3600 2 "liao" 86400 5000.
Definition at_time (t : Z) : Ctx := mkCtx t 1.
Definition r1 : PriceData := mkPriceData (NewDec 100) (NewDec 5) 9000 "f1" "x".
Definition r2 : PriceData := mkPriceData (NewDec 104) (NewDec 7) 9600 "f2" "x".
Definition s0 : OracleStore := mkOracleStore (Some params) (Some r1) ∅.
Definition s2 : OracleStore := AppendPriceHistory (AppendPriceHistory s0 r1) r2.
Definition msg : MsgReportPrice := mkMsgReportPrice "f3" (NewDec 149) (NewDec 6) "x".

Lemma s2_wf : history_wf s2.
Proof. by repeat (apply history_wf_append; [by vm_compute|]). Qed.
Lemma s2_range key pd : sHistory s2 !! key = Some pd → NewDec 100 <= Price pd <= NewDec 104.
Proof. cbn. rewrite !lookup_insert_Some. intros [[_ <-]|[_ [[_ <-]|[_ H]]]]; [by vm_compute..|by rewrite lookup_empty in H]. Qed.
End OracleSample.

Lemma twap_in_range_witness :
  ∃ price volume, CalculateTWAP (OracleSample.at_time 10000) OracleSample.s2 3600 = Ok (price, volume) ∧
    NewDec 100 <= price <= NewDec 104.
Proof.
pose proof (twap_in_range (OracleSample.at_time 10000) OracleSample.s2 3600 (NewDec 100) (NewDec 104) OracleSample.s2_wf
  ltac:(by vm_compute) ltac:(by vm_compute) ltac:(by vm_compute) (fun key pd H _ => OracleSample.s2_range key pd H)) as H.
rewrite decide_False in H by (by vm_compute). exact H.
Defined.

Lemma long_lookback_finds_nothing_witness :
  CalculateTWAP (OracleSample.at_time 10000) OracleSample.s2 10001 = Err ErrPriceNotFound ∧
  sHistory OracleSample.s2 !! PriceHistoryKey 9600 "f2" = Some OracleSample.r2.
Proof.
split; [|by vm_compute].
exact (proj2 (long_lookback_finds_nothing (OracleSample.at_time 10000) OracleSample.s2 10001 OracleSample.s2_wf
  ltac:(by vm_compute) ltac:(by vm_compute) ltac:(by vm_compute))).
Defined.

Lemma report_price_safe_witness :
  ∃ s', ReportPrice (OracleSample.at_time 10000) OracleSample.s2 OracleSample.msg = Ok s' ∧
    mFeeder OracleSample.msg ∈ AllowedFeeders (GetParams OracleSample.s2) ∧
    (Price <$> sCurrentPrice s') = Some (NewDec 104).
Proof.
assert (H1 : 0 <= BlockTime (OracleSample.at_time 10000)) by (by vm_compute).
assert (H2 : is_time (BlockTime (OracleSample.at_time 10000) + 1)) by (by vm_compute).
assert (H3 : 0 < MaxPriceAgeSeconds (GetParams OracleSample.s2) <= BlockTime (OracleSample.at_time 10000)) by (by vm_compute).
assert (H4 : match ReportPrice (OracleSample.at_time 10000) OracleSample.s2 OracleSample.msg with
  Ok s' => (Price <$> sCurrentPrice s') = Some (NewDec 104) | Err _ => False end) by (by vm_compute).
destruct (ReportPrice (OracleSample.at_time 10000) OracleSample.s2 OracleSample.msg) as [s'|e] eqn:E; [|destruct H4].
destruct (report_price_safe (OracleSample.at_time 10000) OracleSample.s2 OracleSample.msg s' OracleSample.s2_wf H1 H2 H3 E) as [H _].
exists s'. exact (conj eq_refl (conj H H4)).
Defined.
