(* ===== verification/Sha256.v ===== *)
(** * SHA-256

    The hash of Go's [crypto/sha256], which the migration airdrop of
    src/x/tokenomics/keeper/msg_server.go uses, on byte strings.  Words are
    32-bit integers in [Z]. *)

From stdpp Require Import base list strings.
From Stdlib Require Import ZArith Lia.

Open Scope Z_scope.

(** ** 32-bit words *)
Definition w32 (x : Z) : Z := Z.land x (2 ^ 32 - 1).
Definition rotr (n x : Z) : Z := w32 (Z.lor (Z.shiftr x n) (Z.shiftl x (32 - n))).
Definition Ch (x y z : Z) : Z := Z.lxor (Z.land x y) (Z.land (Z.lxor x (2 ^ 32 - 1)) z).
Definition Maj (x y z : Z) : Z := Z.lxor (Z.lxor (Z.land x y) (Z.land x z)) (Z.land y z).
Definition bigSigma0 (x : Z) : Z := Z.lxor (Z.lxor (rotr 2 x) (rotr 13 x)) (rotr 22 x).
Definition bigSigma1 (x : Z) : Z := Z.lxor (Z.lxor (rotr 6 x) (rotr 11 x)) (rotr 25 x).
Definition smallSigma0 (x : Z) : Z := Z.lxor (Z.lxor (rotr 7 x) (rotr 18 x)) (Z.shiftr x 3).
Definition smallSigma1 (x : Z) : Z := Z.lxor (Z.lxor (rotr 17 x) (rotr 19 x)) (Z.shiftr x 10).

(** ** Constants

    The constants of the standard are the first 32 bits of the fractional parts
    of the cube roots of the first 64 primes and of the square roots of the first
    8; they are computed here from that description. *)
Definition isPrime (n : nat) : bool :=
  (2 <=? n)%nat && forallb (fun d => negb (n mod d =? 0)%nat) (seq 2 (n - 2)).
Definition primes (n : nat) : list Z := take n (map Z.of_nat (filter isPrime (seq 0 312))).

(** The largest [r] with [r * r * r <= x], bit by bit from bit [n - 1] down. *)
Fixpoint cbrt (n : nat) (r x : Z) : Z :=
  match n with
  | O => r
  | S n =>
      let r' := r + 2 ^ Z.of_nat n in
      cbrt n (if r' * r' * r' <=? x then r' else r) x
  end.

Definition K : list Z := Eval vm_compute in map (fun p => w32 (cbrt 36 0 (p * 2 ^ 96))) (primes 64).

Record hashState := mkHash { hA : Z; hB : Z; hC : Z; hD : Z; hE : Z; hF : Z; hG : Z; hH : Z }.

Definition H0 : hashState := Eval vm_compute in
  match map (fun p => w32 (Z.sqrt (p * 2 ^ 64))) (primes 8) with
  | [a; b; c; d; e; f; g; h] => mkHash a b c d e f g h
  | _ => mkHash 0 0 0 0 0 0 0 0
  end.

(** ** Compression *)

(** The message schedule, newest word first. *)
Fixpoint schedule (n : nat) (ws : list Z) : list Z :=
  match n with
  | O => ws
  | S n =>
      let w := w32 (smallSigma1 (nth 1 ws 0) + nth 6 ws 0 + smallSigma0 (nth 14 ws 0) + nth 15 ws 0) in
      schedule n (w :: ws)
  end.

Definition round (h : hashState) (kw : Z * Z) : hashState :=
  let t1 := w32 (hH h + bigSigma1 (hE h) + Ch (hE h) (hF h) (hG h) + kw.1 + kw.2) in
  let t2 := w32 (bigSigma0 (hA h) + Maj (hA h) (hB h) (hC h)) in
  mkHash (w32 (t1 + t2)) (hA h) (hB h) (hC h) (w32 (hD h + t1)) (hE h) (hF h) (hG h).

Definition compress (h : hashState) (block : list Z) : hashState :=
  let h' := foldl round h (zip K (rev (schedule 48 (rev block)))) in
  mkHash (w32 (hA h + hA h')) (w32 (hB h + hB h')) (w32 (hC h + hC h')) (w32 (hD h + hD h'))
    (w32 (hE h + hE h')) (w32 (hF h + hF h')) (w32 (hG h + hG h')) (w32 (hH h + hH h')).

(** ** Padding and framing *)
Definition byteZ (c : Ascii.ascii) : Z := Z.of_N (Ascii.N_of_ascii c).
Definition byteOfZ (x : Z) : Ascii.ascii := Ascii.ascii_of_N (Z.to_N (x mod 256)).

Fixpoint words (l : list Z) : list Z :=
  match l with
  | a :: b :: c :: d :: l => (((a * 256 + b) * 256 + c) * 256 + d) :: words l
  | _ => []
  end.

(** The low [n] bytes of [x], most significant first. *)
Definition bigEndian (n : nat) (x : Z) : list Z :=
  map (fun i => Z.shiftr x (8 * Z.of_nat i) mod 256) (rev (seq 0 n)).

Definition pad (msg : list Z) : list Z :=
  let n := Z.of_nat (length msg) in
  msg ++ 128 :: replicate (Z.to_nat ((55 - n) mod 64)) 0 ++ bigEndian 8 (8 * n).

Fixpoint blocks (n : nat) (l : list Z) : list (list Z) :=
  match n with O => [] | S n => take 16 l :: blocks n (drop 16 l) end.

Definition digest (h : hashState) : list Z :=
  List.concat (map (bigEndian 4) [hA h; hB h; hC h; hD h; hE h; hF h; hG h; hH h]).

Definition stringOf (l : list Z) : string := String.string_of_list_ascii (map byteOfZ l).

(** [sha256.Sum256]. *)
Definition sha256 (s : string) : string :=
  let ws := words (pad (map byteZ (String.list_ascii_of_string s))) in
  stringOf (digest (foldl compress H0 (blocks (length ws / 16) ws))).

(** The digest is 32 bytes long. *)
Lemma sha256_length s : String.length (sha256 s) = 32%nat.
Proof. unfold sha256, stringOf. generalize (foldl compress H0 (blocks (length (words (pad (map byteZ (String.list_ascii_of_string s)))) / 16) (words (pad (map byteZ (String.list_ascii_of_string s)))))). by intros []. Qed.

(** ** Hexadecimal ([encoding/hex]) *)
Definition fromHexChar (c : Ascii.ascii) : option Z :=
  let n := byteZ c in
  if (48 <=? n) && (n <=? 57) then Some (n - 48)
  else if (97 <=? n) && (n <=? 102) then Some (n - 87)
  else if (65 <=? n) && (n <=? 70) then Some (n - 55)
  else None.

(** [hex.DecodeString]: fails on an odd length or a character that is no digit. *)
Fixpoint DecodeString (s : string) : option string :=
  match s with
  | EmptyString => Some EmptyString
  | String a (String b s) =>
      match fromHexChar a, fromHexChar b, DecodeString s with
      | Some x, Some y, Some r => Some (String (byteOfZ (16 * x + y)) r)
      | _, _, _ => None
      end
  | String _ EmptyString => None
  end.

(** [hex.EncodeToString]. *)
Definition hexDigit (n : nat) : Ascii.ascii := Ascii.ascii_of_nat (if (n <? 10)%nat then 48 + n else 87 + n).
Fixpoint encodeHex (s : string) : string :=
  match s with
  | EmptyString => EmptyString
  | String c s => String (hexDigit (Ascii.nat_of_ascii c / 16)) (String (hexDigit (Ascii.nat_of_ascii c mod 16)) (encodeHex s))
  end.

Lemma DecodeString_encodeHex a : DecodeString (encodeHex a) = Some a.
Proof.
induction a as [|c a IH]; [done|]. cbn [encodeHex DecodeString]. rewrite IH.
by destruct c as [[] [] [] [] [] [] [] []].
Qed.

Lemma encodeHex_length a : String.length (encodeHex a) = (2 * String.length a)%nat.
Proof. induction a as [|c a IH]; simpl; [done|]. rewrite IH. lia. Qed.

(** The published test vectors. *)
Example sha256_abc :
  Some (sha256 "abc") = DecodeString "ba7816bf8f01cfea414140de5dae2223b00361a396177a9cb410ff61f20015ad".
Proof. vm_compute. reflexivity. Qed.

Example sha256_two_blocks :
  Some (sha256 "abcdbcdecdefdefgefghfghighijhijkijkljklmklmnlmnomnopnopq") =
  DecodeString "248d6a61d20638b8e5c026930c3e6039a33ce45964ff2167f6ecedd419db06c1".
Proof. vm_compute. reflexivity. Qed.

Example sha256_empty :
  Some (sha256 "") = DecodeString "e3b0c44298fc1c149afbf4c8996fb92427ae41e4649b934ca495991b7852b855".
Proof. vm_compute. reflexivity. Qed.
