(* ===== verification/TokenomicsKeeper.v ===== *)
(** * x/tokenomics: emission, tier releases, the migration pool

    Models src/x/tokenomics/types/helpers.go and src/x/tokenomics/keeper/
    (keeper.go, rewards.go, msg_server.go, genesis.go, grpc_query.go).  The
    module's own store is [TokStore]; the bank, x/atox, x/staking, x/oracle and
    the dispatcher of x/bridgeadapter are the world [W] behind the class
    [TokEnv] (types/interfaces.go).  A nil [math.Int] or [LegacyDec] takes the
    branch of a negative one wherever the code tests for it, except
    [gsProjectClaimable]. *)

From stdpp Require Import base list option strings gmap sorting pretty.
From Stdlib Require Import ZArith Lia.
From S2P Require Import Prelude SdkMath OracleKeeper Sha256 AtoxIndex.

Open Scope Z_scope.

(** Go's [uint32]. *)
Definition u32 (x : Z) : Z := x mod 2 ^ 32.

(** ** Parameters *)
Record Params := mkParams {
  MinerPoolTotal : Z;
  ProjectPoolTotal : Z;
  pMigrationPoolTotal : Z;
  HalvingIntervalBlocks : Z;
  InitialBlockReward : Z;
  PriceBase : Dec;
  VolumeBase : Dec;
  TierMultiplier : Dec;
  ConsecutiveDaysRequired : Z;
  ReleasePercentageBps : Z;
  MinerReleaseShareBps : Z;
  ProjectReleaseShareBps : Z;
  ProjectTreasuryAddress : string;
  PriceCheckEpochBlocks : Z;
  DaySeconds : Z;
  MigrationRefillThresholdBps : Z;
  DailySamples : Z;
  MigrationMerkleRoot : string;
  MigrationClaimEndTimeUnix : Z;
  ValidatorMinSelfDelegation : Z;
}.

Definition DefaultDailySamples : Z := 3.
Definition MaxDailySamples : Z := 24.
Definition DefaultDaySeconds : Z := 86400.
Definition BpsDenominator : Z := 10000.
Definition DefaultMigrationRefillThresholdBps : Z := 2000.

Definition DefaultParams : Params := {|
  MinerPoolTotal := 10 ^ 30; ProjectPoolTotal := 87 * 10 ^ 29; pMigrationPoolTotal := 3 * 10 ^ 29;
  HalvingIntervalBlocks := 25228800; InitialBlockReward := 19819 * 10 ^ 18;
  PriceBase := NewDecWithPrec 15 2; VolumeBase := NewDec 150000; TierMultiplier := NewDecWithPrec 11 1;
  ConsecutiveDaysRequired := 30; ReleasePercentageBps := 500; MinerReleaseShareBps := 5000; ProjectReleaseShareBps := 5000;
  ProjectTreasuryAddress := ""; PriceCheckEpochBlocks := Z.quot 17280 DefaultDailySamples; DailySamples := DefaultDailySamples;
  DaySeconds := DefaultDaySeconds; MigrationRefillThresholdBps := DefaultMigrationRefillThresholdBps;
  MigrationMerkleRoot := ""; MigrationClaimEndTimeUnix := 0; ValidatorMinSelfDelegation := 10 ^ 26;
|}.

Definition Params_Validate (AccAddressFromBech32 : string → option addr) (p : Params) : result unit :=
  guard! 0 <=? MinerPoolTotal p else Plain "miner pool total cannot be negative";
  guard! 0 <=? ProjectPoolTotal p else Plain "project pool total cannot be negative";
  guard! 0 <=? pMigrationPoolTotal p else Plain "migration pool total cannot be negative";
  guard! 0 <? HalvingIntervalBlocks p else Plain "halving interval must be positive";
  guard! 0 <? InitialBlockReward p else Plain "initial block reward must be positive";
  guard! 0 <? PriceBase p else Plain "price base must be positive";
  guard! 0 <? VolumeBase p else Plain "volume base must be positive";
  guard! OneDec <? TierMultiplier p else Plain "tier multiplier must be greater than 1";
  guard! negb (ConsecutiveDaysRequired p =? 0) else Plain "consecutive days required must be positive";
  guard! negb ((ReleasePercentageBps p =? 0) || (10000 <? ReleasePercentageBps p)) else Plain "release percentage bps must be 1-10000";
  guard! u32 (MinerReleaseShareBps p + ProjectReleaseShareBps p) =? 10000 else Plain "release share bps must equal 10000";
  guard! bool_decide (ProjectTreasuryAddress p = ""%string) || bool_decide (is_Some (AccAddressFromBech32 (ProjectTreasuryAddress p)))
    else Plain "invalid project treasury address";
  guard! 0 <? DaySeconds p else Plain "day_seconds must be positive";
  guard! MigrationRefillThresholdBps p <=? BpsDenominator else Plain "migration_refill_threshold_bps";
  guard! 0 <? DailySamples p else Plain "daily_samples must be positive";
  guard! DailySamples p <=? MaxDailySamples else Plain "daily_samples must be <= 24";
  guard! 0 <? PriceCheckEpochBlocks p else Plain "price check epoch blocks must be positive";
  guard! 0 <=? MigrationClaimEndTimeUnix p else Plain "migration claim end time cannot be negative";
  guard! 0 <=? ValidatorMinSelfDelegation p else Plain "validator min self delegation cannot be negative";
  Ok tt.

(** ** State *)
Record ReleaseState := mkReleaseState {
  CurrentTier : Z;
  ConsecutiveDays : Z;
  LastCheckBlock : Z;
  LastCheckTimeUnix : Z;
  TotalMinerReleased : Z;
  TotalProjectReleased : Z;
  CurrentSampleDay : Z;
  SamplesToday : Z;
  DayQualified : bool;
  LastSampledPriceTime : Z;
  LastSampleBlock : Z;
}.
Definition DefaultReleaseState : ReleaseState := mkReleaseState 0 0 0 0 0 0 0 0 false 0 0.

Record BlockRewardState := mkBlockRewardState { TotalDistributed : Z; CurrentPeriod : Z }.
Definition DefaultBlockRewardState : BlockRewardState := mkBlockRewardState 0 0.

Record GenesisState := mkGenesisState {
  gsParams : Params; gsReleaseState : ReleaseState; gsBlockRewardState : BlockRewardState;
  gsProjectClaimable : option Z; gsMigrationClaimed : list string;
}.
Definition DefaultGenesisState : GenesisState :=
  mkGenesisState DefaultParams DefaultReleaseState DefaultBlockRewardState (Some 0) [].

Definition validateReleaseState (s : ReleaseState) : result unit :=
  guard! 0 <=? TotalMinerReleased s else Plain "total_miner_released";
  guard! 0 <=? TotalProjectReleased s else Plain "total_project_released";
  guard! 0 <=? LastCheckBlock s else Plain "last_check_block";
  guard! 0 <=? LastCheckTimeUnix s else Plain "last_check_time_unix";
  Ok tt.

Definition validateBlockRewardState (s : BlockRewardState) : result unit :=
  guard! 0 <=? TotalDistributed s else Plain "total_distributed";
  Ok tt.

Definition GenesisState_Validate (AccAddressFromBech32 : string → option addr) (gs : GenesisState) : result unit :=
  _ ← Params_Validate AccAddressFromBech32 (gsParams gs);
  _ ← validateReleaseState (gsReleaseState gs);
  _ ← validateBlockRewardState (gsBlockRewardState gs);
  match gsProjectClaimable gs with
  | None => Err (Plain "invalid project_claimable: nil")
  | Some x => guard! 0 <=? x else Plain "invalid project_claimable: must not be negative"; Ok tt
  end.

(** ** Messages *)
Definition ErrInsufficientClaimable := Registered "tokenomics" 2.
Definition ErrNothingToClaim := Registered "tokenomics" 3.
Definition ErrUnauthorized := Registered "tokenomics" 4.
Definition ErrInvalidMerkleProof := Registered "tokenomics" 5.
Definition ErrAlreadyClaimed := Registered "tokenomics" 6.

Record MsgClaimMigrationTokens := mkMsgClaim { Claimer : string; Amount : Z; MerkleProof : list string }.
Record MsgUpdateParams := mkMsgUpdateParams { Authority : string; uParams : Params }.

Definition MsgClaim_ValidateBasic (AccAddressFromBech32 : string → option addr) (msg : MsgClaimMigrationTokens) : result unit :=
  match AccAddressFromBech32 (Claimer msg) with
  | None => Err (Plain "bech32")
  | Some _ =>
      guard! 0 <? Amount msg else ErrNothingToClaim;
      guard! negb (length (MerkleProof msg) =? 0)%nat else ErrInvalidMerkleProof;
      Ok tt
  end.

Definition MsgUpdateParams_ValidateBasic (AccAddressFromBech32 : string → option addr) (msg : MsgUpdateParams) : result unit :=
  match AccAddressFromBech32 (Authority msg) with
  | None => Err (Plain "bech32")
  | Some _ => Params_Validate AccAddressFromBech32 (uParams msg)
  end.

(** ** Merkle proofs of the airdrop *)

(** The loop of [binary.PutUvarint]: seven bits a byte, least significant first. *)
Fixpoint uvarint (fuel : nat) (x : Z) : string :=
  match fuel with
  | O => ""
  | S fuel => if 128 <=? x then String (byteOfZ (Z.lor (x mod 256) 128)) (uvarint fuel (Z.shiftr x 7))
              else String (byteOfZ x) ""
  end.
(** The loop runs at most once per bit. *)
Definition PutUvarint (x : Z) : string := uvarint (Z.to_nat (Z.log2 x + 1)) x.

Definition lengthPrefixed (s : string) : string := (PutUvarint (Z.of_nat (String.length s)) +:+ s)%string.

Definition leafPayload (claimer : string) (amount : Z) : string :=
  (lengthPrefixed claimer +:+ lengthPrefixed (pretty amount))%string.

Definition migrationLeafHash (claimer : string) (amount : Z) : string := sha256 (sha256 (leafPayload claimer amount)).

(** Two nodes side by side, the smaller one first, and their parent. *)
Definition combined (current sibling : string) : string :=
  if decide (string_le current sibling) then (current +:+ sibling)%string else (sibling +:+ current)%string.
Definition merkleParent (current sibling : string) : string := sha256 (combined current sibling).

Fixpoint merkleWalk (current : string) (proof : list string) : option string :=
  match proof with
  | [] => Some current
  | sibling :: proof =>
      if negb (String.length sibling =? 32)%nat then None else merkleWalk (merkleParent current sibling) proof
  end.

Definition verifyMerkleClaim (claimer : string) (amount : Z) (proof : list string) (rootHex : string) : bool :=
  match DecodeString rootHex with
  | None => false
  | Some root =>
      if (String.length root =? 0)%nat then false
      else match merkleWalk (migrationLeafHash claimer amount) proof with
           | None => false
           | Some current => bool_decide (current = root)
           end
  end.

(** ** Collaborators *)
Definition MinerPoolName : string := "miner_pool".
Definition ProjectPoolName : string := "project_pool".
Definition MigrationPoolName : string := "migration_pool".
Definition TokModuleName : string := "tokenomics".

Class TokEnv (W : Type) := {
  (** AccountKeeper; [None] is a nil address *)
  GetModuleAddress : string → option addr;
  (** BankKeeper *)
  GetBalance : W → addr → denom → Z;
  SendCoinsFromModuleToAccount : W → string → addr → coins → result unit * W;
  SendCoinsFromModuleToModule : W → string → string → coins → result unit * W;
  MintCoins : W → string → coins → result unit * W;
  baseDenom : denom;
  (** StakingKeeper *)
  TotalBondedTokens : W → result Z;
  (** OracleKeeper *)
  GetCurrentPrice : W → result PriceData;
  MaxPriceAge : W → Z;
  (** AtoxKeeper, which may be absent *)
  hasAtoxKeeper : bool;
  MintAtoxToModule : W → string → Z → result unit * W;
  AtoxSupplyCap : W → Z;
  MintedAgainstCap : W → Z;
  AtoxEnabled : W → bool;
  (** TierDispatcher, which may be absent *)
  tierDispatcher : option (W → Z → Z → result unit * W);
}.

Record TokStore := mkTokStore {
  sParams : option Params;
  sReleaseState : option ReleaseState;
  sBlockRewardState : option BlockRewardState;
  sProjectClaimable : option Z;
  sMigrationClaimed : gset string;
}.
Definition emptyTokStore : TokStore := mkTokStore None None None None ∅.

Record Keeper := mkKeeper {
  authority : string;
  feeCollectorName : string;
  AccAddressFromBech32 : string → option addr;
}.

Definition GetParams (s : TokStore) : Params := default DefaultParams (sParams s).
Definition SetParams (k : Keeper) (s : TokStore) (p : Params) : result TokStore :=
  _ ← Params_Validate (AccAddressFromBech32 k) p;
  Ok (mkTokStore (Some p) (sReleaseState s) (sBlockRewardState s) (sProjectClaimable s) (sMigrationClaimed s)).
Definition GetReleaseState (s : TokStore) : ReleaseState := default DefaultReleaseState (sReleaseState s).
Definition SetReleaseState (s : TokStore) (st : ReleaseState) : TokStore :=
  mkTokStore (sParams s) (Some st) (sBlockRewardState s) (sProjectClaimable s) (sMigrationClaimed s).
Definition GetBlockRewardState (s : TokStore) : BlockRewardState := default DefaultBlockRewardState (sBlockRewardState s).
Definition SetBlockRewardState (s : TokStore) (st : BlockRewardState) : TokStore :=
  mkTokStore (sParams s) (sReleaseState s) (Some st) (sProjectClaimable s) (sMigrationClaimed s).
Definition GetProjectClaimable (s : TokStore) : Z := default 0 (sProjectClaimable s).
Definition SetProjectClaimable (s : TokStore) (x : Z) : TokStore :=
  mkTokStore (sParams s) (sReleaseState s) (sBlockRewardState s) (Some x) (sMigrationClaimed s).
Definition HasMigrationClaimed (s : TokStore) (a : string) : bool := bool_decide (a ∈ sMigrationClaimed s).
Definition SetMigrationClaimed (s : TokStore) (a : string) : TokStore :=
  mkTokStore (sParams s) (sReleaseState s) (sBlockRewardState s) (sProjectClaimable s) ({[a]} ∪ sMigrationClaimed s).
(** In byte order, the order of the store. *)
Definition AllMigrationClaimed (s : TokStore) : list string := merge_sort string_le (elements (sMigrationClaimed s)).

Definition AuthorizedReleases (s : TokStore) : Z * Z :=
  (TotalMinerReleased (GetReleaseState s), TotalProjectReleased (GetReleaseState s)).
Definition GetCirculatingSupply (s : TokStore) : Z :=
  pMigrationPoolTotal (GetParams s) + TotalMinerReleased (GetReleaseState s) + TotalProjectReleased (GetReleaseState s).
Definition MigrationPoolTotal (s : TokStore) : Z := pMigrationPoolTotal (GetParams s).
Definition GetValidatorMinSelfDelegation (s : TokStore) : Z := ValidatorMinSelfDelegation (GetParams s).

(** ** Block rewards *)

(** The halving loop, which stops at zero. *)
Fixpoint halve (periods : nat) (reward : Z) : Z :=
  match periods with
  | O => reward
  | S periods =>
      let reward := Z.quot reward 2 in
      if reward =? 0 then reward else halve periods reward
  end.

Definition GetCurrentBlockReward (ctx : Ctx) (s : TokStore) : Z :=
  let params := GetParams s in
  if HalvingIntervalBlocks params <=? 0 then 0
  else halve (Z.to_nat (Z.quot (BlockHeight ctx) (HalvingIntervalBlocks params))) (InitialBlockReward params).

Section keeper.
Context {D : LegacyDecOps} (Power : Dec → Z → Dec) {W : Type} {env : TokEnv W}.
Implicit Types (k : Keeper) (ctx : Ctx) (w : W) (s : TokStore).

(** The balance of a module account; a nil address holds nothing. *)
Definition moduleBalance w (name : string) : Z :=
  match GetModuleAddress name with None => 0 | Some a => GetBalance w a baseDenom end.

Definition BeginBlocker k ctx w s : result unit * (W * TokStore) :=
  if negb hasAtoxKeeper then (Ok tt, (w, s))
  else
    let params := GetParams s in
    let blockRewardState := GetBlockRewardState s in
    let currentReward := GetCurrentBlockReward ctx s in
    if currentReward =? 0 then (Ok tt, (w, s))
    else if negb (AtoxEnabled w) then (Ok tt, (w, s))
    else
      let remaining := AtoxSupplyCap w - MintedAgainstCap w in
      if (remaining <? currentReward) && negb (0 <? remaining) then (Ok tt, (w, s))
      else
        let currentReward := if remaining <? currentReward then remaining else currentReward in
        match TotalBondedTokens w with
        | Err e => (Err e, (w, s))
        | Ok totalBonded =>
            if totalBonded =? 0 then (Ok tt, (w, s))
            else
              match MintAtoxToModule w (feeCollectorName k) currentReward with
              | (Err e, w) =>
                  if bool_decide (e = ErrSupplyCapReached) || bool_decide (e = ErrAtoxDisabled)
                  then (Ok tt, (w, s)) else (Err e, (w, s))
              | (Ok _, w) =>
                  (Ok tt, (w, SetBlockRewardState s
                    (mkBlockRewardState (TotalDistributed blockRewardState + currentReward)
                       (u64 (Z.quot (BlockHeight ctx) (HalvingIntervalBlocks params))))))
              end
        end.

(** ** Tier releases *)
Definition authorizeMinerRelease w (target : Z) : Z :=
  if negb (0 <? target) then 0
  else
    let available := moduleBalance w MinerPoolName in
    if negb (0 <? available) then 0
    else if available <? target then available else target.

Definition with_Totals (miner project : Z) (st : ReleaseState) : ReleaseState :=
  mkReleaseState (CurrentTier st) (ConsecutiveDays st) (LastCheckBlock st) (LastCheckTimeUnix st) miner project
    (CurrentSampleDay st) (SamplesToday st) (DayQualified st) (LastSampledPriceTime st) (LastSampleBlock st).

(** The state with the new totals; a failed dispatch is only logged. *)
Definition TriggerRelease w s (state : ReleaseState) (params : Params) : W * ReleaseState :=
  let circulating := GetCirculatingSupply s in
  if negb (0 <? circulating) then (w, state)
  else
    let releaseQuota := Z.quot (circulating * ReleasePercentageBps params) 10000 in
    let minerTarget := Z.quot (releaseQuota * MinerReleaseShareBps params) 10000 in
    let projectTarget := releaseQuota - minerTarget in
    let actualMinerRelease := authorizeMinerRelease w minerTarget in
    let actualProjectRelease :=
      if actualMinerRelease <? minerTarget then projectTarget + (minerTarget - actualMinerRelease) else projectTarget in
    let remainingProjectCapacity :=
      let r := moduleBalance w ProjectPoolName - GetProjectClaimable s in if r <? 0 then 0 else r in
    let actualProjectRelease :=
      if remainingProjectCapacity <? actualProjectRelease then remainingProjectCapacity else actualProjectRelease in
    let state := with_Totals (TotalMinerReleased state + actualMinerRelease)
      (TotalProjectReleased state + actualProjectRelease) state in
    match tierDispatcher with
    | None => (w, state)
    | Some dispatch => ((dispatch w (TotalMinerReleased state) (TotalProjectReleased state)).2, state)
    end.

(** ** The migration pool *)
Definition RefillMigrationPool w s : result unit * (W * TokStore) :=
  let params := GetParams s in
  if MigrationRefillThresholdBps params =? 0 then (Ok tt, (w, s))
  else
    let total := pMigrationPoolTotal params in
    if negb (0 <? total) then (Ok tt, (w, s))
    else
      let balance := moduleBalance w MigrationPoolName in
      let threshold := Z.quot (total * MigrationRefillThresholdBps params) BpsDenominator in
      if threshold <=? balance then (Ok tt, (w, s))
      else
        let authorized := GetProjectClaimable s in
        if negb (0 <? authorized) then (Ok tt, (w, s))
        else
          let want := total - balance in
          let want := if authorized <? want then authorized else want in
          let projectBalance := moduleBalance w ProjectPoolName in
          let want := if projectBalance <? want then projectBalance else want in
          if negb (0 <? want) then (Ok tt, (w, s))
          else
            match SendCoinsFromModuleToModule w ProjectPoolName MigrationPoolName (NewCoins baseDenom want) with
            | (Err e, w) => (Err e, (w, s))
            | (Ok _, w) => (Ok tt, (w, SetProjectClaimable s (authorized - want)))
            end.

(** ** The end of a block *)

(** Settle the day that has ended. *)
Definition settleDay w s (params : Params) (today : Z) (state : ReleaseState) : W * ReleaseState :=
  if negb (CurrentSampleDay state =? 0) && (CurrentSampleDay state <? today) then
    let days := if DayQualified state then u32 (ConsecutiveDays state + 1) else 0 in
    let state := mkReleaseState (CurrentTier state) days (LastCheckBlock state) (LastCheckTimeUnix state)
      (TotalMinerReleased state) (TotalProjectReleased state) (CurrentSampleDay state) (SamplesToday state)
      (DayQualified state) (LastSampledPriceTime state) (LastSampleBlock state) in
    let '(w, state) :=
      if ConsecutiveDaysRequired params <=? days then
        let '(w, state) := TriggerRelease w s state params in
        (w, mkReleaseState (u32 (CurrentTier state + 1)) 0 (LastCheckBlock state) (LastCheckTimeUnix state)
              (TotalMinerReleased state) (TotalProjectReleased state) (CurrentSampleDay state) (SamplesToday state)
              (DayQualified state) (LastSampledPriceTime state) (LastSampleBlock state))
      else (w, state) in
    (w, mkReleaseState (CurrentTier state) (ConsecutiveDays state) (LastCheckBlock state) (LastCheckTimeUnix state)
          (TotalMinerReleased state) (TotalProjectReleased state) (CurrentSampleDay state) 0 false
          (LastSampledPriceTime state) (LastSampleBlock state))
  else (w, state).

(** The day the block belongs to. *)
Definition sampleDay ctx (params : Params) : Z :=
  let daySeconds := if DaySeconds params <=? 0 then DefaultDaySeconds else DaySeconds params in
  Z.quot (BlockTime ctx) daySeconds.

Definition with_Day (today : Z) (st : ReleaseState) : ReleaseState :=
  mkReleaseState (CurrentTier st) (ConsecutiveDays st) (LastCheckBlock st) (LastCheckTimeUnix st) (TotalMinerReleased st)
    (TotalProjectReleased st) today (SamplesToday st) (DayQualified st) (LastSampledPriceTime st) (LastSampleBlock st).

(** The report to sample now, if the quota, the spacing and its freshness allow. *)
Definition sampleable ctx w (params : Params) (state : ReleaseState) : option PriceData :=
  let dailySamples := if DailySamples params <=? 0 then DefaultDailySamples else DailySamples params in
  if dailySamples <=? SamplesToday state then None
  else if (0 <? LastSampleBlock state) && (BlockHeight ctx - LastSampleBlock state <? PriceCheckEpochBlocks params) then None
  else
    match GetCurrentPrice w with
    | Err _ => None
    | Ok priceData =>
        if Timestamp priceData <=? LastSampledPriceTime state then None
        else if (Timestamp priceData =? 0) ||
                ((0 <? MaxPriceAge w) && (MaxPriceAge w <? u64 (BlockTime ctx - Timestamp priceData))) then None
        else Some priceData
    end.

(** Both thresholds of the tier. *)
Definition sampleOk (params : Params) (tier : Z) (priceData : PriceData) : bool :=
  let requiredPrice := Dec_Mul (PriceBase params) (Power (TierMultiplier params) tier) in
  let requiredVolume := Dec_Mul (VolumeBase params) (Power (TierMultiplier params) tier) in
  (requiredPrice <=? Price priceData) && (requiredVolume <=? Volume24h priceData).

Definition takeSample ctx (params : Params) (state : ReleaseState) (priceData : PriceData) : ReleaseState :=
  mkReleaseState (CurrentTier state) (ConsecutiveDays state) (BlockHeight ctx) (BlockTime ctx) (TotalMinerReleased state)
    (TotalProjectReleased state) (CurrentSampleDay state) (u32 (SamplesToday state + 1))
    (if sampleOk params (CurrentTier state) priceData then true else DayQualified state)
    (Timestamp priceData) (BlockHeight ctx).

Definition EndBlocker ctx w s : W * TokStore :=
  let params := GetParams s in
  let state := GetReleaseState s in
  if BlockTime ctx <=? 0 then (w, s)
  else
    let today := sampleDay ctx params in
    let '(w, s) := (RefillMigrationPool w s).2 in
    let '(w, state) := settleDay w s params today state in
    let state := with_Day today state in
    match sampleable ctx w params state with
    | None => (w, SetReleaseState s state)
    | Some priceData => (w, SetReleaseState s (takeSample ctx params state priceData))
    end.

(** ** Messages *)
Definition ClaimMigrationTokens k ctx w s (msg : MsgClaimMigrationTokens) : result unit * (W * TokStore) :=
  if HasMigrationClaimed s (Claimer msg) then (Err ErrAlreadyClaimed, (w, s))
  else
    let params := GetParams s in
    if bool_decide (MigrationMerkleRoot params = ""%string) then (Err ErrInvalidMerkleProof, (w, s))
    else if (0 <? MigrationClaimEndTimeUnix params) && (MigrationClaimEndTimeUnix params <? BlockTime ctx)
      then (Err ErrUnauthorized, (w, s))
    else if negb (verifyMerkleClaim (Claimer msg) (Amount msg) (MerkleProof msg) (MigrationMerkleRoot params))
      then (Err ErrInvalidMerkleProof, (w, s))
    else
      match AccAddressFromBech32 k (Claimer msg) with
      | None => (Err (Plain "bech32"), (w, s))
      | Some recipient =>
          if moduleBalance w MigrationPoolName <? Amount msg then (Err ErrInsufficientClaimable, (w, s))
          else
            match SendCoinsFromModuleToAccount w MigrationPoolName recipient (NewCoins baseDenom (Amount msg)) with
            | (Err e, w) => (Err e, (w, s))
            | (Ok _, w) => (Ok tt, (w, SetMigrationClaimed s (Claimer msg)))
            end
      end.

Definition UpdateParams k s (msg : MsgUpdateParams) : result TokStore :=
  guard! bool_decide (authority k = Authority msg) else Plain "unauthorized";
  SetParams k s (uParams msg).

(** ** Genesis; a panic is an error here. *)
Definition mintToModule w (module : string) (amount : Z) : result unit * W :=
  if negb (0 <? amount) then (Ok tt, w)
  else if bool_decide (is_Some (GetModuleAddress module)) && (0 <? moduleBalance w module) then (Ok tt, w)
  else
    let cs := NewCoins baseDenom amount in
    match MintCoins w TokModuleName cs with
    | (Err e, w) => (Err e, w)
    | (Ok _, w) => SendCoinsFromModuleToModule w TokModuleName module cs
    end.

Definition mintPools w (params : Params) : result unit * W :=
  match mintToModule w MinerPoolName (MinerPoolTotal params) with
  | (Err e, w) => (Err e, w)
  | (Ok _, w) =>
      match mintToModule w ProjectPoolName (ProjectPoolTotal params) with
      | (Err e, w) => (Err e, w)
      | (Ok _, w) => mintToModule w MigrationPoolName (pMigrationPoolTotal params)
      end
  end.

Definition InitGenesis k w s (gs : GenesisState) : result unit * (W * TokStore) :=
  match SetParams k s (gsParams gs) with
  | Err e => (Err e, (w, s))
  | Ok s =>
      let s := SetReleaseState s (gsReleaseState gs) in
      let s := SetBlockRewardState s (gsBlockRewardState gs) in
      let s := match gsProjectClaimable gs with None => s | Some x => SetProjectClaimable s x end in
      let s := foldl SetMigrationClaimed s (gsMigrationClaimed gs) in
      let '(r, w) := mintPools w (gsParams gs) in
      (r, (w, s))
  end.

Definition ExportGenesis s : GenesisState :=
  mkGenesisState (GetParams s) (GetReleaseState s) (GetBlockRewardState s) (Some (GetProjectClaimable s)) (AllMigrationClaimed s).

(** The reward query: the reward of this height and the recorded period. *)
Definition QueryBlockReward ctx s : Z * Z := (GetCurrentBlockReward ctx s, CurrentPeriod (GetBlockRewardState s)).
End keeper.
