(* ===== verification/TokenomicsMerkle.v ===== *)
(** * x/tokenomics: the airdrop's Merkle proofs

    A root commits to a tree of (claimer, amount) leaves.  Every leaf has a proof
    that [verifyMerkleClaim] accepts, and an accepted claim is a leaf of the tree,
    or else the verification and the tree hashed two different strings to the
    same value.  The Module [MerkleTool] is the tool that makes roots and proofs. *)

From stdpp Require Import base list option strings pretty sets gmap.
From Stdlib Require Import ZArith Lia.
From S2P Require Import Prelude Sha256 TokenomicsKeeper.

Open Scope Z_scope.

(** Proofs never look inside the hash. *)
#[local] Opaque sha256.

(** ** Length-prefixed strings *)
Lemma byteZ_byteOfZ x : 0 <= x < 256 → byteZ (byteOfZ x) = x.
Proof. intros H. unfold byteZ, byteOfZ. rewrite Z.mod_small by done. rewrite Ascii.N_ascii_embedding by lia. lia. Qed.

Lemma byteOfZ_inj x y : 0 <= x < 256 → 0 <= y < 256 → byteOfZ x = byteOfZ y → x = y.
Proof. intros Hx Hy H. rewrite <- (byteZ_byteOfZ x Hx), <- (byteZ_byteOfZ y Hy). by rewrite H. Qed.

(** The continuation bit on top of seven bits. *)
Lemma lor_128 x : 0 <= x → Z.lor (x mod 256) 128 = x mod 128 + 128.
Proof.
intros Hx. assert (Hm : Z.lor (x mod 256) 128 = Z.lor (x mod 128) 128).
{ apply Z.bits_inj'. intros i Hi. rewrite !Z.lor_spec. destruct (decide (i = 7)) as [->|Hne]; [by rewrite !orb_true_r|].
  change 256 with (2 ^ 8). change 128 with (2 ^ 7) at 2. destruct (decide (i < 7)).
  - by rewrite !Z.mod_pow2_bits_low by lia.
  - f_equal. rewrite (Z.mod_pow2_bits_high x 7) by lia. by rewrite (Z.mod_pow2_bits_high x 8) by lia. }
rewrite Hm. rewrite <- Z.lxor_lor; [rewrite <- Z.add_nocarry_lxor; [done|]|].
all: apply Z.bits_inj'; intros i Hi; rewrite Z.land_spec, Z.bits_0; change 128 with (2 ^ 7);
  rewrite Z.pow2_bits_eqb by lia; destruct (7 =? i) eqn:E; [boolP; subst|by rewrite andb_false_r];
  by rewrite Z.mod_pow2_bits_high by lia.
Qed.

Lemma uvarint_prefix n : ∀ m x y s t,
  (0 < n)%nat → (0 < m)%nat → 0 <= x < 128 ^ Z.of_nat n → 0 <= y < 128 ^ Z.of_nat m →
  (uvarint n x +:+ s = uvarint m y +:+ t)%string → x = y ∧ s = t.
Proof.
induction n as [|n IH]; intros [|m] x y s t Hn Hm Hx Hy; [lia..|]. cbn [uvarint].
pose proof (Z.mod_pos_bound x 128 ltac:(lia)). pose proof (Z.mod_pos_bound y 128 ltac:(lia)).
destruct (128 <=? x) eqn:Ex, (128 <=? y) eqn:Ey; boolP; rewrite ?lor_128 by lia; cbn; intros [= Hb Ht].
all: apply byteOfZ_inj in Hb; [|lia..].
- rewrite !Z.shiftr_div_pow2 in Ht by lia. change (2 ^ 7) with 128 in Ht.
  pose proof (Z.div_mod x 128 ltac:(lia)). pose proof (Z.div_mod y 128 ltac:(lia)).
  rewrite Nat2Z.inj_succ, Z.pow_succ_r in Hx, Hy by lia.
  assert (Hpos : ∀ k : nat, 1 < 128 ^ Z.of_nat k → (0 < k)%nat) by (intros [|k]; [done|lia]).
  apply IH in Ht as [Hd ->]; [split; [lia|done]|apply Hpos; nia|apply Hpos; nia|nia|nia].
- lia.
- lia.
- done.
Qed.

Lemma PutUvarint_prefix x y s t : 0 <= x → 0 <= y → (PutUvarint x +:+ s = PutUvarint y +:+ t)%string → x = y ∧ s = t.
Proof.
intros Hx Hy. assert (Hf : ∀ z, 0 <= z → (0 < Z.to_nat (Z.log2 z + 1))%nat ∧ z < 128 ^ Z.of_nat (Z.to_nat (Z.log2 z + 1))).
{ intros z Hz. pose proof (Z.log2_nonneg z). split; [lia|]. rewrite Z2Nat.id by lia.
  destruct (decide (z = 0)) as [->|]; [done|]. pose proof (Z.log2_spec z ltac:(lia)) as [_ Hl]. rewrite Z.add_1_r.
  pose proof (Z.pow_le_mono_l 2 128 (Z.succ (Z.log2 z))). lia. }
destruct (Hf x Hx), (Hf y Hy). by apply uvarint_prefix.
Qed.

Lemma append_cons x (a b : string) : (String x a +:+ b)%string = String x (a +:+ b).
Proof. done. Qed.

Lemma append_inj a b s t : String.length a = String.length b → (a +:+ s = b +:+ t)%string → a = b ∧ s = t.
Proof.
revert b. induction a as [|c a IH]; intros [|c' b]; rewrite ?append_cons; intros Hl H; [done|discriminate Hl|discriminate Hl|].
injection H as -> H. injection Hl as Hl. by destruct (IH b Hl H) as [-> ->].
Qed.

Lemma append_nil_r (a : string) : (a +:+ "")%string = a.
Proof. induction a as [|x a IH]; [done|]. by rewrite append_cons, IH. Qed.

Lemma lengthPrefixed_inj a b s t : (lengthPrefixed a +:+ s = lengthPrefixed b +:+ t)%string → a = b ∧ s = t.
Proof.
unfold lengthPrefixed. rewrite !append_assoc. intros [Hl H]%PutUvarint_prefix; [|lia..]. apply append_inj; [lia|done].
Qed.

(** Different claims have different leaf encodings. *)
Lemma leafPayload_inj c a c' a' : leafPayload c a = leafPayload c' a' → c = c' ∧ a = a'.
Proof.
unfold leafPayload. intros [-> H]%lengthPrefixed_inj. split; [done|].
rewrite <- (append_nil_r (lengthPrefixed (pretty a))), <- (append_nil_r (lengthPrefixed (pretty a'))) in H.
apply lengthPrefixed_inj in H as [H _]. by apply (inj pretty) in H.
Qed.

(** ** Trees *)
Inductive mtree : Type :=
  | MLeaf (claimer : string) (amount : Z)
  | MNode (l r : mtree).

Fixpoint root (t : mtree) : string :=
  match t with
  | MLeaf c a => migrationLeafHash c a
  | MNode l r => merkleParent (root l) (root r)
  end.

Inductive leafOf (c : string) (a : Z) : mtree → Prop :=
  | leaf_here : leafOf c a (MLeaf c a)
  | leaf_left l r : leafOf c a l → leafOf c a (MNode l r)
  | leaf_right l r : leafOf c a r → leafOf c a (MNode l r).

(** What building the tree hashes. *)
Fixpoint hashedByTree (t : mtree) : list string :=
  match t with
  | MLeaf c a => [leafPayload c a; sha256 (leafPayload c a)]
  | MNode l r => combined (root l) (root r) :: hashedByTree l ++ hashedByTree r
  end.

(** What checking a claim hashes. *)
Fixpoint hashedByWalk (current : string) (proof : list string) : list string :=
  match proof with
  | [] => []
  | sibling :: proof => combined current sibling :: hashedByWalk (merkleParent current sibling) proof
  end.
Definition hashedByClaim (c : string) (a : Z) (proof : list string) : list string :=
  leafPayload c a :: sha256 (leafPayload c a) :: hashedByWalk (migrationLeafHash c a) proof.

(** Two different strings, one of each list, with the same hash. *)
Definition collision (xs ys : list string) : Prop := ∃ x y, x ∈ xs ∧ y ∈ ys ∧ x ≠ y ∧ sha256 x = sha256 y.

Lemma collision_mono xs xs' ys ys' : xs ⊆ xs' → ys ⊆ ys' → collision xs ys → collision xs' ys'.
Proof. intros H1 H2 (x & y & Hx & Hy & H). exists x, y. split_and!; [by apply H1|by apply H2|apply H..]. Qed.

Lemma same_or_collision x y xs ys : x ∈ xs → y ∈ ys → sha256 x = sha256 y → x = y ∨ collision xs ys.
Proof. intros Hx Hy H. destruct (decide (x = y)) as [->|Hne]; [by left|right]. by exists x, y. Qed.

Lemma root_length t : String.length (root t) = 32%nat.
Proof. destruct t; apply sha256_length. Qed.

Lemma combined_length a b : String.length a = 32%nat → String.length b = 32%nat → String.length (combined a b) = 64%nat.
Proof. intros Ha Hb. unfold combined. case_decide; by rewrite append_length, Ha, Hb. Qed.

Lemma combined_inj a b c d :
  String.length a = 32%nat → String.length b = 32%nat → String.length c = 32%nat → String.length d = 32%nat →
  combined a b = combined c d → a = c ∨ a = d.
Proof.
intros Ha Hb Hc Hd. unfold combined. repeat case_decide; intros [? ?]%append_inj; try congruence; auto.
Qed.

Inductive subtree : mtree → mtree → Prop :=
  | sub_here t : subtree t t
  | sub_left t l r : subtree t l → subtree t (MNode l r)
  | sub_right t l r : subtree t r → subtree t (MNode l r).

Lemma subtree_left t1 t2 u : subtree (MNode t1 t2) u → subtree t1 u.
Proof. remember (MNode t1 t2) as v. induction 1; subst; [apply sub_left, sub_here|by apply sub_left, IHsubtree|by apply sub_right, IHsubtree]. Qed.
Lemma subtree_right t1 t2 u : subtree (MNode t1 t2) u → subtree t2 u.
Proof. remember (MNode t1 t2) as v. induction 1; subst; [apply sub_right, sub_here|by apply sub_left, IHsubtree|by apply sub_right, IHsubtree]. Qed.

Lemma subtree_hashed t u : subtree t u → hashedByTree t ⊆ hashedByTree u.
Proof. induction 1; [done|..]; cbn; set_solver. Qed.

Lemma subtree_leaf c a t u : leafOf c a t → subtree t u → leafOf c a u.
Proof. intros H Hs. induction Hs; [done|apply leaf_left; auto|apply leaf_right; auto]. Qed.

(** Walking up to the root of [t] passes through roots of its subtrees. *)
Lemma walk_sound t proof : ∀ current,
  String.length current = 32%nat → merkleWalk current proof = Some (root t) →
  (∃ u, subtree u t ∧ root u = current) ∨ collision (hashedByWalk current proof) (hashedByTree t).
Proof.
induction proof as [|sibling proof IH]; cbn; intros current Hl H.
{ injection H as ->. left. exists t. split; [constructor|done]. }
destruct (String.length sibling =? 32)%nat eqn:Es; [|done]. apply Nat.eqb_eq in Es. cbn in H.
destruct (IH _ (sha256_length _) H) as [(u & Hu & Hr)|Hc]; [|right; by eapply collision_mono; [..|exact Hc]; [set_solver|]].
pose proof (subtree_hashed _ _ Hu) as Hin. pose proof (combined_length _ _ Hl Es) as H64.
set (xs := combined current sibling :: hashedByWalk (merkleParent current sibling) proof).
assert (Hx : combined current sibling ∈ xs) by apply list_elem_of_here.
destruct u as [c a|l r]; cbn [root hashedByTree] in Hr, Hin.
- assert (Hy : sha256 (leafPayload c a) ∈ hashedByTree t) by (apply Hin, list_elem_of_further, list_elem_of_here).
  destruct (same_or_collision _ _ _ _ Hx Hy (eq_sym Hr)) as [E|Hc]; [|by right].
  rewrite E, sha256_length in H64. discriminate H64.
- assert (Hy : combined (root l) (root r) ∈ hashedByTree t) by (apply Hin, list_elem_of_here).
  destruct (same_or_collision _ _ _ _ Hx Hy (eq_sym Hr)) as [E|Hc]; [left|by right].
  destruct (combined_inj _ _ _ _ Hl Es (root_length l) (root_length r) E) as [Ec|Ec].
  + exists l. split; [exact (subtree_left _ _ _ Hu)|exact (eq_sym Ec)].
  + exists r. split; [exact (subtree_right _ _ _ Hu)|exact (eq_sym Ec)].
Qed.

Lemma claim_sound c a proof t :
  merkleWalk (migrationLeafHash c a) proof = Some (root t) →
  leafOf c a t ∨ collision (hashedByClaim c a proof) (hashedByTree t).
Proof.
intros H. destruct (walk_sound t proof _ (sha256_length _) H) as [(u & Hu & Hr)|Hc].
2:{ right. eapply collision_mono; [..|exact Hc]; [|done]. intros x Hx. by apply list_elem_of_further, list_elem_of_further. }
pose proof (subtree_hashed _ _ Hu) as Hin.
assert (Hx1 : leafPayload c a ∈ hashedByClaim c a proof) by apply list_elem_of_here.
assert (Hx2 : sha256 (leafPayload c a) ∈ hashedByClaim c a proof) by apply list_elem_of_further, list_elem_of_here.
destruct u as [c' a'|l r]; cbn [root hashedByTree] in Hr, Hin.
- assert (Hy1 : leafPayload c' a' ∈ hashedByTree t) by (apply Hin, list_elem_of_here).
  assert (Hy2 : sha256 (leafPayload c' a') ∈ hashedByTree t) by (apply Hin, list_elem_of_further, list_elem_of_here).
  destruct (same_or_collision _ _ _ _ Hx2 Hy2 (eq_sym Hr)) as [E|Hc]; [|by right].
  destruct (same_or_collision _ _ _ _ Hx1 Hy1 E) as [[-> ->]%leafPayload_inj|Hc]; [left|by right].
  exact (subtree_leaf _ _ _ _ (leaf_here _ _) Hu).
- assert (Hy : combined (root l) (root r) ∈ hashedByTree t) by (apply Hin, list_elem_of_here).
  destruct (same_or_collision _ _ _ _ Hx2 Hy (eq_sym Hr)) as [E|Hc]; [|by right].
  apply (f_equal String.length) in E. rewrite sha256_length, (combined_length _ _ (root_length l) (root_length r)) in E.
  discriminate E.
Qed.

(** ** Completeness *)
Lemma walk_snoc current proof sibling r :
  merkleWalk current proof = Some r → String.length sibling = 32%nat →
  merkleWalk current (proof ++ [sibling]) = Some (merkleParent r sibling).
Proof.
revert current. induction proof as [|x proof IH]; cbn; intros current H Hl.
- injection H as ->. by rewrite Hl.
- destruct (negb _); [done|]. by apply IH.
Qed.

Lemma merkleParent_comm a b : merkleParent a b = merkleParent b a.
Proof.
unfold merkleParent, combined. do 2 case_decide; try done.
- by rewrite (anti_symm string_le a b).
- destruct (total string_le a b); done.
Qed.

Lemma claim_complete c a t : leafOf c a t → ∃ proof, merkleWalk (migrationLeafHash c a) proof = Some (root t).
Proof.
induction 1 as [|l r _ [proof IH]|l r _ [proof IH]]; [by exists []|..].
- exists (proof ++ [root r]). by apply walk_snoc, root_length.
- exists (proof ++ [root l]). cbn. rewrite merkleParent_comm. by apply walk_snoc, root_length.
Qed.

Lemma verify_walk c a proof rootHex r : DecodeString rootHex = Some r → String.length r = 32%nat →
  verifyMerkleClaim c a proof rootHex = true ↔ merkleWalk (migrationLeafHash c a) proof = Some r.
Proof.
intros Hd Hr. unfold verifyMerkleClaim. rewrite Hd, Hr. cbn.
destruct (merkleWalk _ _) as [x|]; [rewrite bool_decide_eq_true|]; split; congruence.
Qed.

(** C14: against a root that commits to a tree, every (claimer, amount) leaf has a
    proof the chain accepts, and whatever it accepts is a leaf, unless checking
    it and building the tree hashed two different strings to the same digest. *)
Theorem merkle_claims rootHex t :
  DecodeString rootHex = Some (root t) →
  (∀ c a, leafOf c a t → ∃ proof, verifyMerkleClaim c a proof rootHex = true) ∧
  (∀ c a proof, verifyMerkleClaim c a proof rootHex = true →
    leafOf c a t ∨ collision (hashedByClaim c a proof) (hashedByTree t)).
Proof.
intros Hd. pose proof (fun c a proof => verify_walk c a proof rootHex (root t) Hd (root_length t)) as Hv. split.
- intros c a [proof H]%claim_complete. exists proof. by apply Hv.
- intros c a proof H%Hv. by apply claim_sound.
Qed.

(** Three airdrop entries and the root an independent implementation computes. *)
Definition sampleTree : mtree := MNode (MLeaf "alice" 100) (MNode (MLeaf "bob" 50) (MLeaf "carol" 7)).
Definition sampleRoot : string := "21ea63b50e920d08caff77966c45f586c8a9d58e5f8386a6b6a0e5c38e100668".

Lemma merkle_claims_witness :
  (∃ proof, verifyMerkleClaim "bob" 50 proof sampleRoot = true) ∧
  (∀ proof, verifyMerkleClaim "bob" 51 proof sampleRoot = true →
    leafOf "bob" 51 sampleTree ∨ collision (hashedByClaim "bob" 51 proof) (hashedByTree sampleTree)).
Proof.
assert (H : DecodeString sampleRoot = Some (root sampleTree)) by (vm_compute; reflexivity).
destruct (merkle_claims sampleRoot sampleTree H) as [H1 H2].
split; [exact (H1 "bob" 50 (leaf_right _ _ _ _ (leaf_left _ _ _ _ (leaf_here _ _))))|exact (H2 "bob" 51)].
Defined.

(** ** cmd/migration-merkle: the snapshot of the airdrop

    The tool that turns a table of (claimer, amount) rows into the root governance sets
    and the proofs claimers submit.  Amounts are text here and numbers on the chain.
    The rows are those the CSV reader gives; writing the files is not modelled. *)

From Stdlib Require Import Ascii.

Module MerkleTool.

Record entry := mkEntry { eClaimer : string; eAmount : string }.
Record proofEntry := mkProofEntry { pClaimer : string; pAmount : string; pLeaf : string; pProof : list string }.
Record output := mkOutput { Root : string; Count : nat; Proofs : list proofEntry }.

(** ** readCSV *)

(** [strings.TrimSpace] and [strings.EqualFold], for ASCII text. *)
Definition space (c : Ascii.ascii) : bool := bool_decide (c ∈ [" "; "009"; "010"; "011"; "012"; "013"]%char).
Fixpoint trimLeft (s : string) : string :=
  match s with String c t => if space c then trimLeft t else s | EmptyString => s end.
Fixpoint trimRight (s : string) : string :=
  match s with
  | EmptyString => EmptyString
  | String c t => match trimRight t with EmptyString => if space c then EmptyString else String c EmptyString | r => String c r end
  end.
Definition TrimSpace (s : string) : string := trimRight (trimLeft s).
Definition lowerChar (c : Ascii.ascii) : Ascii.ascii :=
  let n := Ascii.nat_of_ascii c in if (65 <=? n)%nat && (n <=? 90)%nat then Ascii.ascii_of_nat (n + 32) else c.
Fixpoint lower (s : string) : string := match s with EmptyString => EmptyString | String c t => String (lowerChar c) (lower t) end.
Definition EqualFold (s t : string) : bool := bool_decide (lower s = lower t).

Definition readRow (i : nat) (row : list string) : option entry :=
  match row with
  | x :: y :: _ =>
      let claimer := TrimSpace x in
      let amount := TrimSpace y in
      if bool_decide (claimer = ""%string) || bool_decide (amount = ""%string) then None
      else if (i =? 0)%nat && (EqualFold claimer "claimer" || EqualFold claimer "address") then None
      else Some (mkEntry claimer amount)
  | _ => None
  end.
Fixpoint readRows (i : nat) (rows : list (list string)) : list entry :=
  match rows with
  | [] => []
  | row :: rows => match readRow i row with Some e => e :: readRows (S i) rows | None => readRows (S i) rows end
  end.
Definition readCSV (rows : list (list string)) : list entry := readRows 0 rows.

(** ** The tree *)
Definition leafHash (claimer amount : string) : string := sha256 (sha256 (lengthPrefixed claimer +:+ lengthPrefixed amount)).

Definition hashPair (a b : string) : string :=
  sha256 (if String.leb a b then a +:+ b else b +:+ a)%string.

(** One round of the loop of [buildTree]; the odd node is promoted unchanged. *)
Fixpoint nextLevel (current : list string) : list string :=
  match current with
  | a :: b :: current => hashPair a b :: nextLevel current
  | _ => current
  end.
Fixpoint levelsFrom (fuel : nat) (current : list string) : list (list string) :=
  match fuel with
  | O => [current]
  | S fuel => if (1 <? length current)%nat then current :: levelsFrom fuel (nextLevel current) else [current]
  end.
(** A level is shorter than the one before, so the length of the first is fuel enough
    ([levelsFrom_root]). [current[0]] of no leaves is a panic. *)
Definition buildTree (leaves : list string) : result (string * list (list string)) :=
  let levels := levelsFrom (length leaves) leaves in
  match last levels ≫= head with
  | Some root => Ok (root, levels)
  | None => Err (Plain "panic: index out of range")
  end.

Fixpoint proofFor (idx : nat) (levels : list (list string)) : list string :=
  match levels with
  | nodes :: ((_ :: _) as rest) =>
      let sibling := if Nat.even idx then S idx else pred idx in
      match nodes !! sibling with
      | Some x => x :: proofFor (idx / 2) rest
      | None => proofFor (idx / 2) rest
      end
  | _ => []
  end.

(** [main] after the rows are read. *)
Definition snapshot (entries : list entry) : result output :=
  guard! negb (length entries =? 0)%nat else Plain "snapshot is empty";
  let leaves := map (fun e => leafHash (eClaimer e) (eAmount e)) entries in
  '(root, levels) ← buildTree leaves;
  Ok (mkOutput (encodeHex root) (length entries)
        (imap (fun i e => mkProofEntry (eClaimer e) (eAmount e) (encodeHex (leafHash (eClaimer e) (eAmount e))) (map encodeHex (proofFor i levels)))
           entries)).

(** ** Agreement with the chain *)
Lemma leafHash_chain c a : leafHash c (pretty a) = migrationLeafHash c a.
Proof. done. Qed.
Lemma hashPair_chain a b : hashPair a b = merkleParent a b.
Proof.
unfold hashPair, merkleParent, combined. destruct (String.leb a b) eqn:E.
- by rewrite decide_True by exact E.
- rewrite decide_False; [done|]. unfold string_le. congruence.
Qed.

Lemma list_pairs {X} (P : list X → Prop) : P [] → (∀ a, P [a]) → (∀ a b l, P l → P (a :: b :: l)) → ∀ l, P l.
Proof. intros H0 H1 H2. fix IH 1. intros [|a [|b l]]; [exact H0|exact (H1 a)|exact (H2 a b l (IH l))]. Qed.

Lemma nextLevel_lookup l : ∀ k, nextLevel l !! k =
  match l !! (2 * k)%nat, l !! S (2 * k) with Some a, Some b => Some (hashPair a b) | x, _ => x end.
Proof.
induction l as [|a|a b l IH] using list_pairs; intros [|k]; cbn [nextLevel]; try done.
replace (2 * S k)%nat with (S (S (2 * k))) by lia. rewrite !lookup_cons. apply IH.
Qed.

Lemma nextLevel_length l : (2 <= length l)%nat → (0 < length (nextLevel l) < length l)%nat.
Proof.
assert (H : (length (nextLevel l) <= length l)%nat) by (induction l as [|a|a b l IH] using list_pairs; cbn in *; lia).
destruct l as [|a [|b l]]; cbn in *; intros; try lia. assert ((length (nextLevel l) <= length l)%nat); [|lia].
clear. induction l as [|a|a b l IH] using list_pairs; cbn in *; lia.
Qed.

Lemma levelsFrom_cons n l : ∃ rest, levelsFrom n l = l :: rest.
Proof. destruct n; cbn [levelsFrom]; [by eexists|]. destruct (1 <? length l)%nat; by eexists. Qed.

Lemma even_sibling k : Nat.even (2 * k) = true ∧ Nat.even (S (2 * k)) = false ∧ ((2 * k) / 2 = k)%nat ∧ (S (2 * k) / 2 = k)%nat.
Proof.
split_and!; [rewrite Nat.even_mul; done|rewrite Nat.even_succ, Nat.odd_mul; done|rewrite Nat.mul_comm; by apply Nat.div_mul|].
symmetry. apply (Nat.div_unique _ _ _ 1); lia.
Qed.

Lemma proofFor_cons idx nodes n l :
  proofFor idx (nodes :: levelsFrom n l) =
  match nodes !! (if Nat.even idx then S idx else pred idx) with
  | Some x => x :: proofFor (idx / 2) (levelsFrom n l)
  | None => proofFor (idx / 2) (levelsFrom n l)
  end.
Proof. destruct (levelsFrom_cons n l) as [rest ->]. done. Qed.

(** Every node walks to the same top. *)
Lemma levelsFrom_root n : ∀ l, (0 < length l <= n)%nat → Forall (fun x => String.length x = 32%nat) l →
  ∃ r, last (levelsFrom n l) = Some [r] ∧ String.length r = 32%nat ∧
    ∀ i x, l !! i = Some x → merkleWalk x (proofFor i (levelsFrom n l)) = Some r.
Proof.
induction n as [|n IH]; intros l Hl Hf; [lia|]. cbn [levelsFrom].
destruct (1 <? length l)%nat eqn:E; [apply Nat.ltb_lt in E|apply Nat.ltb_ge in E].
- destruct (IH (nextLevel l)) as (r & Hr & Hlen & Hw); [pose proof (nextLevel_length l); lia| |].
  { apply Forall_lookup. intros k x. rewrite nextLevel_lookup, Forall_lookup in *.
    destruct (l !! (2 * k)%nat) as [a|] eqn:Ea; [|done]. destruct (l !! S (2 * k)) as [b|] eqn:Eb; intros [= <-]; [apply sha256_length|by apply (Hf _ _ Ea)]. }
  exists r. destruct (levelsFrom_cons n (nextLevel l)) as [rest Erest]. split_and!; [by rewrite Erest in *|done|].
  intros i x Hx. rewrite proofFor_cons.
  destruct (Nat.Even_or_Odd i) as [[k ->]|[k Ek]].
  + destruct (even_sibling k) as (E1 & _ & E3 & _). rewrite E1, E3. pose proof (nextLevel_lookup l k) as Hn. rewrite Hx in Hn.
    destruct (l !! S (2 * k)) as [b|] eqn:Eb; [|by apply Hw].
    cbn [merkleWalk]. rewrite (Forall_lookup_1 _ _ _ _ Hf Eb), <- hashPair_chain. by apply Hw.
  + replace i with (S (2 * k)) in * by lia. destruct (even_sibling k) as (_ & E2 & _ & E4). rewrite E2, E4. cbn [pred].
    pose proof (lookup_lt_Some _ _ _ Hx) as Hlt. destruct (lookup_lt_is_Some_2 l (2 * k)%nat) as [a Ea]; [lia|].
    pose proof (nextLevel_lookup l k) as Hn. rewrite Hx, Ea in Hn. rewrite Ea. cbn [merkleWalk].
    rewrite (Forall_lookup_1 _ _ _ _ Hf Ea), merkleParent_comm, <- hashPair_chain. by apply Hw.
- destruct l as [|r [|]]; cbn in *; try lia. exists r. split_and!; [done|by apply Forall_cons in Hf as [? _]|]. by intros [|i] x [= <-].
Qed.

(** ** The tree behind the root *)
Fixpoint nextTrees (ts : list mtree) : list mtree :=
  match ts with t :: u :: ts => MNode t u :: nextTrees ts | _ => ts end.
Definition leafIn c a (ts : list mtree) : Prop := ∃ t, t ∈ ts ∧ leafOf c a t.

Lemma nextTrees_root ts : map root (nextTrees ts) = nextLevel (map root ts).
Proof. induction ts as [|t|t u ts IH] using list_pairs; cbn [nextTrees map nextLevel root]; [done|done|]. by rewrite IH, hashPair_chain. Qed.

Lemma leafIn_cons c a t ts : leafIn c a (t :: ts) ↔ leafOf c a t ∨ leafIn c a ts.
Proof. unfold leafIn. setoid_rewrite elem_of_cons. naive_solver. Qed.

Lemma nextTrees_leaves c a ts : leafIn c a (nextTrees ts) ↔ leafIn c a ts.
Proof.
induction ts as [|t|t u ts IH] using list_pairs; cbn [nextTrees]; [done|done|]. rewrite !leafIn_cons, IH.
assert (leafOf c a (MNode t u) ↔ leafOf c a t ∨ leafOf c a u) as ->; [|tauto].
split; [inversion 1; auto|]. intros [H|H]; by constructor.
Qed.

Lemma levelsFrom_tree n : ∀ ts r, last (levelsFrom n (map root ts)) = Some [r] →
  ∃ t, root t = r ∧ ∀ c a, leafOf c a t ↔ leafIn c a ts.
Proof.
assert (Hone : ∀ ts r, map root ts = [r] → ∃ t, root t = r ∧ ∀ c a, leafOf c a t ↔ leafIn c a ts).
{ intros [|t [|]] r [= <-]. exists t. split; [done|]. intros c a. rewrite leafIn_cons. unfold leafIn. set_solver. }
induction n as [|n IH]; intros ts r; cbn [levelsFrom]; [intros [= E]; by apply Hone|].
destruct (1 <? length (map root ts))%nat; [|intros [= E]; by apply Hone]. rewrite <- nextTrees_root.
destruct (levelsFrom_cons n (map root (nextTrees ts))) as [rest Er]. intros Hl.
destruct (IH (nextTrees ts) r) as (t & <- & Ht); [by rewrite Er in *|]. exists t. split; [done|]. intros c a. by rewrite Ht, nextTrees_leaves.
Qed.

Lemma nextLevel_two l : (3 <= length l)%nat → (2 <= length (nextLevel l))%nat.
Proof. destruct l as [|a [|b [|c [|d l]]]]; cbn; intros; lia. Qed.

(** Only a snapshot of one entry has an empty proof. *)
Lemma proof_nonempty n : ∀ l i, (2 <= length l <= n)%nat → (i < length l)%nat → proofFor i (levelsFrom n l) ≠ [].
Proof.
induction n as [|n IH]; intros l i Hl Hi; [lia|]. cbn [levelsFrom]. rewrite (proj2 (Nat.ltb_lt _ _)) by lia. rewrite proofFor_cons.
destruct (l !! _) as [x|] eqn:Es; [done|]. apply lookup_ge_None in Es.
destruct (Nat.Even_or_Odd i) as [[k ->]|[k Ek]].
- destruct (even_sibling k) as (E1 & _ & E3 & _). rewrite E1 in Es. rewrite E3. pose proof (nextLevel_length l).
  pose proof (nextLevel_two l). apply IH; [lia|]. apply lookup_lt_is_Some. rewrite nextLevel_lookup.
  destruct (lookup_lt_is_Some_2 l (2 * k)%nat Hi) as [a ->]. destruct (l !! S _); by eexists.
- replace i with (S (2 * k)) in * by lia. destruct (even_sibling k) as (_ & E2 & _). rewrite E2 in Es. cbn in Es. lia.
Qed.

Lemma decode_all l : mapM DecodeString (map encodeHex l) = Some l.
Proof. induction l as [|x l IH]; [done|]. cbn. by rewrite DecodeString_encodeHex, IH. Qed.

Lemma canonical_leaves entries : Forall (fun e => ∃ a : Z, eAmount e = pretty a) entries →
  ∃ ts, map (fun e => leafHash (eClaimer e) (eAmount e)) entries = map root ts ∧
    ∀ c a, leafIn c a ts ↔ mkEntry c (pretty a) ∈ entries.
Proof.
induction 1 as [|[c0 x] entries [a0 Ha] _ (ts & E & Ht)]; [exists []; split; [done|]; unfold leafIn; set_solver|].
cbn in Ha. subst x. exists (MLeaf c0 a0 :: ts). cbn [map root]. rewrite E. split; [done|].
intros c a. rewrite leafIn_cons, elem_of_cons, Ht. assert (leafOf c a (MLeaf c0 a0) ↔ mkEntry c (pretty a) = mkEntry c0 (pretty a0)) as ->; [|done].
split; [by inversion 1|]. intros [= -> E']. apply (inj pretty) in E' as ->. constructor.
Qed.

(** C40: The snapshot and the chain agree.  When every amount is written as the chain prints
    it, the proof the tool gives an entry is accepted for exactly that claimer and
    amount, is not empty unless the entry is the only one, and whatever is accepted
    is an entry, unless two different strings hash to the same digest. *)
Theorem snapshot_claims entries out :
  snapshot entries = Ok out → Forall (fun e => ∃ a : Z, eAmount e = pretty a) entries →
  (∀ i e a, entries !! i = Some e → eAmount e = pretty a →
     ∃ pe proof, Proofs out !! i = Some pe ∧ pClaimer pe = eClaimer e ∧ pAmount pe = eAmount e ∧
       mapM DecodeString (pProof pe) = Some proof ∧ verifyMerkleClaim (eClaimer e) a proof (Root out) = true ∧
       ((2 <= length entries)%nat → proof ≠ [])) ∧
  (∀ c a proof, verifyMerkleClaim c a proof (Root out) = true →
     mkEntry c (pretty a) ∈ entries ∨
     ∃ t, (∀ c a, leafOf c a t ↔ mkEntry c (pretty a) ∈ entries) ∧ collision (hashedByClaim c a proof) (hashedByTree t)).
Proof.
unfold snapshot, buildTree. rewrite length_map. intros [Hne Hs]%guard_Ok Hc. apply negb_true_iff, Nat.eqb_neq in Hne. revert Hs.
set (leaves := map _ entries). assert (Hlen : length leaves = length entries) by apply length_map.
destruct (levelsFrom_root (length entries) leaves) as (r & Hr & Hr32 & Hw); [lia| |].
{ apply Forall_fmap, Forall_true. intros e. apply sha256_length. }
rewrite Hr. cbn [mbind option_bind head result_bind]. intros [= <-]. cbn [Root Proofs].
pose proof (fun c a proof => verify_walk c a proof _ r (DecodeString_encodeHex r) Hr32) as Hv. split.
- intros i e a He Ha. assert (Hi : leaves !! i = Some (migrationLeafHash (eClaimer e) a)).
  { unfold leaves. by rewrite list_lookup_fmap, He, <- leafHash_chain, <- Ha. }
  eexists _, (proofFor i (levelsFrom (length entries) leaves)). rewrite list_lookup_imap, He. split_and!; [done..|apply decode_all|by apply Hv, Hw|].
  intros H2. apply proof_nonempty; [lia|]. by apply lookup_lt_Some in Hi.
- intros c a proof H%Hv. destruct (canonical_leaves entries Hc) as (ts & Ets & Hts). unfold leaves in Hr. rewrite Ets in Hr.
  destruct (levelsFrom_tree _ _ _ Hr) as (t & <- & Ht). destruct (claim_sound c a proof t H) as [Hl|Hcol].
  + left. by apply Hts, Ht.
  + right. exists t. split; [intros; by rewrite Ht, Hts|done].
Qed.

(** The one proof of a snapshot of one entry is empty, and the message refuses it. *)
Lemma single_entry_refused bech32 e out c a :
  snapshot [e] = Ok out → ∃ pe, Proofs out = [pe] ∧ pProof pe = [] ∧
  ∀ msg, Claimer msg = c → Amount msg = a → MerkleProof msg = [] → is_ok (MsgClaim_ValidateBasic bech32 msg) = false.
Proof.
intros [= <-]. eexists. split_and!; [done|done|]. intros msg _ _ Hp. unfold MsgClaim_ValidateBasic. rewrite Hp.
destruct (bech32 _); [|done]. by destruct (0 <? _).
Qed.

(** A table with a header and three rows, one of them incomplete. *)
Definition table : list (list string) :=
  [["Address"; "amount"]; ["alice "; " 100"]; ["bob"; "50"; "note"]; ["dave"]; ["carol"; "7"]]%string.
Definition sampleOut : output := match snapshot (readCSV table) with Ok o => o | Err _ => mkOutput "" 0 [] end.

Lemma snapshot_claims_witness :
  snapshot (readCSV table) = Ok sampleOut ∧ Count sampleOut = 3%nat ∧
  ∃ pe proof, Proofs sampleOut !! 1%nat = Some pe ∧ pClaimer pe = "bob"%string ∧
    mapM DecodeString (pProof pe) = Some proof ∧ verifyMerkleClaim "bob" 50 proof (Root sampleOut) = true.
Proof.
assert (Hr : readCSV table = [mkEntry "alice" "100"; mkEntry "bob" "50"; mkEntry "carol" "7"]) by (vm_compute; reflexivity).
assert (Hs : snapshot (readCSV table) = Ok sampleOut) by (vm_compute; reflexivity).
assert (Hc : Forall (fun e => ∃ a : Z, eAmount e = pretty a) (readCSV table)).
{ rewrite Hr. constructor; [exists 100; reflexivity|]. constructor; [exists 50; reflexivity|]. constructor; [exists 7; reflexivity|constructor]. }
split; [exact Hs|]. split; [vm_compute; reflexivity|].
destruct (snapshot_claims (readCSV table) sampleOut Hs Hc) as [Hp _].
destruct (Hp 1%nat (mkEntry "bob" "50") 50) as (pe & proof & H1 & H2 & _ & H4 & H5 & _); [rewrite Hr; reflexivity|reflexivity|].
exists pe, proof. split; [exact H1|]. split; [exact H2|]. split; [exact H4|exact H5].
Defined.
End MerkleTool.
