(* ===== verification/TokenomicsSafety.v ===== *)
(** * x/tokenomics: emission, streaks, releases, refills

    Theorems about src/x/tokenomics/keeper/, stated against [TokEnv] and the laws
    [TokEnvLaws] that the bank and x/atox meet. *)

From stdpp Require Import base list option strings gmap sorting relations.
From Stdlib Require Import ZArith Lia.
From S2P Require Import Prelude SdkMath Bank OracleKeeper AtoxIndex TokenomicsKeeper.

Open Scope Z_scope.

(** What the module relies on its collaborators for. *)
Class TokEnvLaws {W} (env : TokEnv W) : Prop := {
  tok_balance_nonneg w a d : 0 <= TokenomicsKeeper.GetBalance w a d;
  (** a transfer of the base coin between module accounts moves it *)
  tok_send w m m' x w' a a' :
    0 <= x → GetModuleAddress m = Some a → GetModuleAddress m' = Some a' →
    TokenomicsKeeper.SendCoinsFromModuleToModule w m m' (NewCoins baseDenom x) = (Ok tt, w') →
    ∀ a0, TokenomicsKeeper.GetBalance w' a0 baseDenom =
      TokenomicsKeeper.GetBalance w a0 baseDenom - at_addr a a0 x + at_addr a' a0 x;
  tok_pay w m x w' a to :
    0 <= x → GetModuleAddress m = Some a →
    TokenomicsKeeper.SendCoinsFromModuleToAccount w m to (NewCoins baseDenom x) = (Ok tt, w') →
    ∀ a0, TokenomicsKeeper.GetBalance w' a0 baseDenom =
      TokenomicsKeeper.GetBalance w a0 baseDenom - at_addr a a0 x + at_addr to a0 x;
  (** minting ATOX counts against its cap *)
  tok_mint_atox w m x w' :
    0 < x → MintAtoxToModule w m x = (Ok tt, w') →
    MintedAgainstCap w' = MintedAgainstCap w + x ∧ AtoxSupplyCap w' = AtoxSupplyCap w;
}.

(** ** Parameters *)
Record tok_params_wf (p : Params) : Prop := {
  tp_halving : 0 < HalvingIntervalBlocks p;
  tp_reward : 0 < InitialBlockReward p;
  tp_migration : 0 <= pMigrationPoolTotal p;
  tp_release : 0 < ReleasePercentageBps p <= 10000;
  tp_day : 0 < DaySeconds p;
  tp_samples : 0 < DailySamples p <= MaxDailySamples;
  tp_refill : MigrationRefillThresholdBps p <= BpsDenominator;
  tp_required : 0 < ConsecutiveDaysRequired p;
}.

Lemma tok_Validate_wf bech p :
  0 <= ReleasePercentageBps p → 0 <= ConsecutiveDaysRequired p → TokenomicsKeeper.Params_Validate bech p = Ok tt → tok_params_wf p.
Proof.
intros Hr Hc H. unfold TokenomicsKeeper.Params_Validate in H. inv_ok. boolP. unfold TokenomicsKeeper.BpsDenominator, MaxDailySamples in *.
split; unfold TokenomicsKeeper.BpsDenominator, MaxDailySamples; lia.
Qed.

(** The share check adds [uint32] values: a pair whose sum wraps passes. *)
Example share_sum_wraps :
  let p := {| MinerPoolTotal := 0; ProjectPoolTotal := 0; pMigrationPoolTotal := 0; HalvingIntervalBlocks := 1;
    InitialBlockReward := 1; PriceBase := 1; VolumeBase := 1; TierMultiplier := NewDec 2; ConsecutiveDaysRequired := 1;
    ReleasePercentageBps := 1; MinerReleaseShareBps := 2 ^ 32 - 1; ProjectReleaseShareBps := 10001;
    ProjectTreasuryAddress := ""; PriceCheckEpochBlocks := 1; DaySeconds := 1; MigrationRefillThresholdBps := 0;
    DailySamples := 1; MigrationMerkleRoot := ""; MigrationClaimEndTimeUnix := 0; ValidatorMinSelfDelegation := 0 |} in
  TokenomicsKeeper.Params_Validate (fun x => Some x) p = Ok tt ∧ 10000 < MinerReleaseShareBps p.
Proof. by vm_compute. Qed.

(** ** Block rewards *)
Lemma halve_closed n r : 0 <= r → halve n r = r / 2 ^ Z.of_nat n.
Proof.
revert r. induction n as [|n IH]; intros r Hr; cbn [halve]; [by rewrite Z.div_1_r|].
rewrite Z.quot_div_nonneg by lia. rewrite Nat2Z.inj_succ, Z.pow_succ_r, <- Z.div_div by lia.
pose proof (Z.div_pos r 2 Hr ltac:(lia)).
destruct (r / 2 =? 0) eqn:E; boolP; [rewrite E; by rewrite Z.div_0_l by (apply Z.pow_nonzero; lia)|by apply IH].
Qed.

(** The reward of a height in closed form. *)
Definition scheduledReward (p : Params) (height : Z) : Z := InitialBlockReward p / 2 ^ (height / HalvingIntervalBlocks p).

Lemma reward_closed ctx s : tok_params_wf (TokenomicsKeeper.GetParams s) → 0 <= BlockHeight ctx →
  GetCurrentBlockReward ctx s = scheduledReward (TokenomicsKeeper.GetParams s) (BlockHeight ctx).
Proof.
intros [Hh Hr] Hb. unfold GetCurrentBlockReward, scheduledReward. rewrite (proj2 (Z.leb_gt _ 0)) by done.
rewrite Z.quot_div_nonneg, halve_closed by lia. rewrite Z2Nat.id; [done|]. apply Z.div_pos; lia.
Qed.

Section safety.
Context {D : LegacyDecOps} (Power : Dec → Z → Dec) {W : Type} {env : TokEnv W} {laws : TokEnvLaws env}.
Implicit Types (k : TokenomicsKeeper.Keeper) (ctx : Ctx) (w : W) (s : TokStore).


(** ** Releases *)
Lemma authorizeMiner_spec w target : 0 <= target →
  authorizeMinerRelease w target = Z.min target (moduleBalance w MinerPoolName) ∧ 0 <= moduleBalance w MinerPoolName.
Proof.
intros Ht. assert (Hn : 0 <= moduleBalance w MinerPoolName).
{ unfold moduleBalance. destruct (GetModuleAddress _); [apply tok_balance_nonneg|lia]. }
split; [|done]. unfold authorizeMinerRelease.
destruct (0 <? target) eqn:E1; boolP; cbn [negb]; [|lia].
destruct (0 <? moduleBalance w MinerPoolName) eqn:E2; boolP; cbn [negb]; [|lia].
destruct (_ <? _) eqn:E3; boolP; lia.
Qed.

(** What a release adds to the two totals: the miner share cut to the miner pool,
    and everything else of the quota cut to the unclaimed project pool. *)
Lemma release_amounts w s state p :
  0 <= GetCirculatingSupply s → 0 <= ReleasePercentageBps p → 0 <= MinerReleaseShareBps p <= 10000 →
  ∃ am ap, (TriggerRelease w s state p).2 = with_Totals (TotalMinerReleased state + am) (TotalProjectReleased state + ap) state ∧
    0 <= am <= moduleBalance w MinerPoolName ∧
    0 <= ap <= Z.max 0 (moduleBalance w ProjectPoolName - GetProjectClaimable s) ∧
    (am + ap) * 10000 <= GetCirculatingSupply s * ReleasePercentageBps p.
Proof.
intros Hc Hp Hm. unfold TriggerRelease. destruct (authorizeMiner_spec w 0 ltac:(lia)) as [_ Hpool].
destruct (0 <? GetCirculatingSupply s) eqn:E0; boolP; cbn [negb].
2:{ exists 0, 0. rewrite !Z.add_0_r. split_and!; (by destruct state) || lia || nia. }
set (quota := Z.quot (GetCirculatingSupply s * ReleasePercentageBps p) 10000).
assert (Hcp : 0 <= GetCirculatingSupply s * ReleasePercentageBps p) by (apply Z.mul_nonneg_nonneg; lia).
assert (Hq : 0 <= quota ∧ quota * 10000 <= GetCirculatingSupply s * ReleasePercentageBps p).
{ unfold quota. rewrite Z.quot_div_nonneg by lia. split; [apply Z.div_pos; lia|].
  pose proof (Z.mul_div_le (GetCirculatingSupply s * ReleasePercentageBps p) 10000 ltac:(lia)). lia. }
set (mt := Z.quot (quota * MinerReleaseShareBps p) 10000).
assert (Hmt : 0 <= mt <= quota).
{ unfold mt. rewrite Z.quot_div_nonneg by nia. split; [apply Z.div_pos; nia|]. apply Z.div_le_upper_bound; nia. }
destruct (authorizeMiner_spec w mt ltac:(lia)) as [-> _]. set (am := Z.min mt _).
set (ap0 := if am <? mt then quota - mt + (mt - am) else quota - mt).
assert (Hap0 : ap0 = quota - am) by (unfold ap0; destruct (am <? mt) eqn:E1; boolP; lia).
set (cap := if _ <? 0 then 0 else _).
assert (Hcap : cap = Z.max 0 (moduleBalance w ProjectPoolName - GetProjectClaimable s)).
{ unfold cap. destruct (_ <? 0) eqn:E2; boolP; lia. }
set (ap := if cap <? ap0 then cap else ap0).
assert (Hap : ap = Z.min cap ap0) by (unfold ap; clear; clearbody cap ap0; destruct (cap <? ap0) eqn:E3; boolP; lia).
cbv zeta. exists am, ap. split; [by destruct tierDispatcher|split_and!; lia].
Qed.

(** a tier release authorises at most the configured percentage of the
    circulating supply, at most what the miner pool holds for the miner share
    and what the project pool holds beyond earlier permissions for the project
    share, and never lowers a total. *)
Theorem release_bounds w s state p :
  0 <= GetCirculatingSupply s → 0 <= ReleasePercentageBps p → 0 <= MinerReleaseShareBps p <= 10000 →
  let '(_, state') := TriggerRelease w s state p in
  let dm := TotalMinerReleased state' - TotalMinerReleased state in
  let dp := TotalProjectReleased state' - TotalProjectReleased state in
  0 <= dm <= moduleBalance w MinerPoolName ∧
  0 <= dp <= Z.max 0 (moduleBalance w ProjectPoolName - GetProjectClaimable s) ∧
  (dm + dp) * 10000 <= GetCirculatingSupply s * ReleasePercentageBps p ∧
  state' = with_Totals (TotalMinerReleased state + dm) (TotalProjectReleased state + dp) state.
Proof.
intros Hc Hp Hm. destruct (release_amounts w s state p Hc Hp Hm) as (am & ap & Hst & Ha & Hb & Hq).
destruct (TriggerRelease w s state p) as [w' state']. cbn in Hst. subst state'. cbv zeta. cbn.
replace (TotalMinerReleased state + am - TotalMinerReleased state) with am by lia.
replace (TotalProjectReleased state + ap - TotalProjectReleased state) with ap by lia. done.
Qed.

(** ** Refills *)

(** A refill does nothing, or sends [x] and spends [x] of the permission. *)
Lemma refill_shape w s r w' s' : RefillMigrationPool w s = (r, (w', s')) →
  (r = Ok tt ∧ w' = w ∧ s' = s) ∨
  ∃ x, 0 < x <= GetProjectClaimable s ∧ x <= moduleBalance w ProjectPoolName ∧
    x <= pMigrationPoolTotal (TokenomicsKeeper.GetParams s) - moduleBalance w MigrationPoolName ∧
    TokenomicsKeeper.SendCoinsFromModuleToModule w ProjectPoolName MigrationPoolName (NewCoins baseDenom x) = (r, w') ∧
    s' = match r with Ok _ => SetProjectClaimable s (GetProjectClaimable s - x) | Err _ => s end.
Proof.
unfold RefillMigrationPool. set (p := TokenomicsKeeper.GetParams s).
set (bal := moduleBalance w MigrationPoolName). set (pb := moduleBalance w ProjectPoolName).
destruct (_ =? 0); [intros [= <- <- <-]; by left|]. destruct (negb _) eqn:Et; [intros [= <- <- <-]; by left|]. boolP.
destruct (_ <=? bal) eqn:Eb; [intros [= <- <- <-]; by left|].
destruct (negb (0 <? GetProjectClaimable s)) eqn:Ec; [intros [= <- <- <-]; by left|]. boolP.
set (want := if pb <? _ then _ else _).
assert (Hw : want <= GetProjectClaimable s ∧ want <= pb ∧ want <= pMigrationPoolTotal p - bal).
{ unfold want. destruct (GetProjectClaimable s <? _) eqn:E1; boolP; destruct (_ <? _) eqn:E2; boolP; lia. }
destruct (negb (0 <? want)) eqn:Ew; [intros [= <- <- <-]; by left|]. boolP. intros H. right. exists want.
destruct (TokenomicsKeeper.SendCoinsFromModuleToModule _ _ _ _) as [[[]|] w1] eqn:Es; injection H as <- <- <-; split_and!; done || lia.
Qed.

(** a refill of the migration pool is a transfer from the project pool: it
    spends exactly as much permission as it moves, never more than the permission
    or the project pool holds, never fills beyond the configured total, and
    otherwise leaves everything alone. *)
Theorem refill_conserves w s w' s' pool project :
  GetModuleAddress MigrationPoolName = Some pool → GetModuleAddress ProjectPoolName = Some project → pool ≠ project →
  RefillMigrationPool w s = (Ok tt, (w', s')) →
  (w' = w ∧ s' = s) ∨
  ∃ x, 0 < x <= GetProjectClaimable s ∧ x <= TokenomicsKeeper.GetBalance w project baseDenom ∧
    s' = SetProjectClaimable s (GetProjectClaimable s - x) ∧
    TokenomicsKeeper.GetBalance w' pool baseDenom = TokenomicsKeeper.GetBalance w pool baseDenom + x ∧
    TokenomicsKeeper.GetBalance w' pool baseDenom <= pMigrationPoolTotal (TokenomicsKeeper.GetParams s) ∧
    TokenomicsKeeper.GetBalance w' project baseDenom = TokenomicsKeeper.GetBalance w project baseDenom - x ∧
    (∀ a, a ≠ pool → a ≠ project → TokenomicsKeeper.GetBalance w' a baseDenom = TokenomicsKeeper.GetBalance w a baseDenom).
Proof.
intros Hpool Hproj Hne H. destruct (refill_shape _ _ _ _ _ H) as [(_ & -> & ->)|(x & Hx & Hpb & Hb & Es & ->)]; [by left|].
right. exists x. unfold moduleBalance in Hpb, Hb. rewrite Hproj in Hpb. rewrite Hpool in Hb.
pose proof (tok_send w _ _ x _ project pool ltac:(lia) Hproj Hpool Es) as Hs.
pose proof (Hs pool) as H1. pose proof (Hs project) as H2.
rewrite at_addr_eq, at_addr_ne in H1 by done. rewrite at_addr_eq, at_addr_ne in H2 by (by apply not_eq_sym).
split_and!; try lia; [done|]. intros a Ha1 Ha2. rewrite Hs, !at_addr_ne by done. lia.
Qed.

(** ** The airdrop *)

(** a migration claim pays its proven amount out of the pool, at most once per
    address: it needs an accepted proof and a pool that covers it, and after it
    every further claim by that address is refused. *)
Theorem claim_once k ctx w s msg w' s' pool :
  0 <= Amount msg → GetModuleAddress MigrationPoolName = Some pool →
  ClaimMigrationTokens k ctx w s msg = (Ok tt, (w', s')) →
  (Claimer msg ∉ sMigrationClaimed s) ∧
  verifyMerkleClaim (Claimer msg) (Amount msg) (MerkleProof msg) (MigrationMerkleRoot (TokenomicsKeeper.GetParams s)) = true ∧
  (∃ to, TokenomicsKeeper.AccAddressFromBech32 k (Claimer msg) = Some to ∧ Amount msg <= TokenomicsKeeper.GetBalance w pool baseDenom ∧
    ∀ a, TokenomicsKeeper.GetBalance w' a baseDenom =
      TokenomicsKeeper.GetBalance w a baseDenom - at_addr pool a (Amount msg) + at_addr to a (Amount msg)) ∧
  s' = SetMigrationClaimed s (Claimer msg) ∧
  (∀ k2 ctx2 w2 s2 msg2, sMigrationClaimed s' ⊆ sMigrationClaimed s2 → Claimer msg2 = Claimer msg →
    ClaimMigrationTokens k2 ctx2 w2 s2 msg2 = (Err ErrAlreadyClaimed, (w2, s2))).
Proof.
intros Hx Hpool H. unfold ClaimMigrationTokens, HasMigrationClaimed in H.
case_bool_decide as E1; [done|]. case_bool_decide as E2; [done|].
destruct (_ && _) in H; [done|]. destruct (verifyMerkleClaim _ _ _ _) eqn:Ev in H; cbn [negb] in H; [|done].
destruct (TokenomicsKeeper.AccAddressFromBech32 k (Claimer msg)) as [to|] eqn:Ea; [|done].
unfold moduleBalance in H. rewrite Hpool in H. destruct (_ <? _) eqn:E3 in H; [done|]. boolP.
destruct (TokenomicsKeeper.SendCoinsFromModuleToAccount _ _ _ _) as [[[]|] w1] eqn:Es; [|done]. injection H as <- <-.
split_and!; [done|done| |done|].
- exists to. split_and!; [done|done|]. by apply (tok_pay w _ _ _ pool to Hx Hpool Es).
- intros k2 ctx2 w2 s2 msg2 Hsub Heq. unfold ClaimMigrationTokens, HasMigrationClaimed.
  rewrite Heq, bool_decide_true; [done|]. apply Hsub. cbn. set_solver.
Qed.
End safety.
