(* ===== verification/TokenomicsStreak.v ===== *)
(** * x/tokenomics: the tier state machine

    [EndBlocker] against an abstract description of the rule: readings are
    grouped by day, a day qualifies when one of them does, and a release fires
    after enough qualifying days in a row.  Then: a simulation of the rule by any
    stretch of blocks, a guarantee over whole histories, and that an exported
    chain restarts where it stopped. *)

From stdpp Require Import base list option strings gmap sorting relations.
From Stdlib Require Import ZArith Lia.
From S2P Require Import Prelude SdkMath Bank OracleKeeper AtoxIndex TokenomicsKeeper TokenomicsSafety.

Open Scope Z_scope.

(** ** The rule *)
Record Streak := mkStreak { tier : Z; streak : Z; day : Z; readings : Z; qualified : bool }.

(** A block on [today]: a day that has ended is settled; whether it released. *)
Definition rollover (required today : Z) (x : Streak) : Streak * bool :=
  if decide (day x ≠ 0 ∧ day x < today) then
    let n := if qualified x then streak x + 1 else 0 in
    if decide (required <= n) then (mkStreak (tier x + 1) 0 today 0 false, true)
    else (mkStreak (tier x) n today 0 false, false)
  else (mkStreak (tier x) (streak x) today (readings x) (qualified x), false).

(** A reading, if one is taken: one success is enough for the day. *)
Definition observe (o : option bool) (x : Streak) : Streak :=
  match o with
  | None => x
  | Some ok => mkStreak (tier x) (streak x) (day x) (readings x + 1) (ok || qualified x)
  end.

(** Blocks on the given days, with readings within the quota, and how many
    released. *)
Inductive rule_run (required quota : Z) : list Z → Streak → nat → Streak → Prop :=
  | rr_nil x : rule_run required quota [] x 0 x
  | rr_cons today days x y released o n z :
      rollover required today x = (y, released) → (∀ ok, o = Some ok → readings y < quota) →
      rule_run required quota days (observe o y) n z →
      rule_run required quota (today :: days) x (if released then S n else n) z.

Definition view (st : ReleaseState) : Streak :=
  mkStreak (CurrentTier st) (ConsecutiveDays st) (CurrentSampleDay st) (SamplesToday st) (DayQualified st).

(** Counters that a [uint32] increment does not wrap. *)
Definition counters_fit (st : ReleaseState) : Prop :=
  0 <= CurrentTier st < 2 ^ 32 - 1 ∧ 0 <= ConsecutiveDays st < 2 ^ 32 - 1 ∧ 0 <= SamplesToday st < 2 ^ 32 - 1.

Section streak.
Context {D : LegacyDecOps} (Power : Dec → Z → Dec) {W : Type} {env : TokEnv W}.
Implicit Types (ctx : Ctx) (w : W) (s : TokStore).

(** The block up to the sample: refill, settle, move to today. *)
Definition beforeSample ctx w s : W * TokStore * ReleaseState :=
  let p := TokenomicsKeeper.GetParams s in
  let '(w1, s1) := (RefillMigrationPool w s).2 in
  let '(w2, st) := settleDay w1 s1 p (sampleDay ctx p) (GetReleaseState s) in
  (w2, s1, with_Day (sampleDay ctx p) st).

(** The reading this block takes, and whether it meets the thresholds. *)
Definition sampled ctx w s : option bool :=
  let p := TokenomicsKeeper.GetParams s in
  let '(w2, _, st) := beforeSample ctx w s in
  sampleOk Power p (CurrentTier st) <$> sampleable ctx w2 p st.

Lemma refill_keeps w s : ∀ w1 s1, (RefillMigrationPool w s).2 = (w1, s1) →
  TokenomicsKeeper.GetParams s1 = TokenomicsKeeper.GetParams s ∧ GetReleaseState s1 = GetReleaseState s ∧
  sMigrationClaimed s1 = sMigrationClaimed s.
Proof.
intros w1 s1. unfold RefillMigrationPool.
repeat match goal with |- context [if ?b then _ else _] => destruct b; [by intros [= <- <-]|] end.
destruct (TokenomicsKeeper.SendCoinsFromModuleToModule _ _ _ _) as [[]]; by intros [= <- <-].
Qed.

Lemma trigger_totals w s st p : ∃ m q, (TriggerRelease w s st p).2 = with_Totals m q st.
Proof.
unfold TriggerRelease. destruct (negb _).
- exists (TotalMinerReleased st), (TotalProjectReleased st). by destruct st.
- cbv zeta. destruct tierDispatcher; by eexists _, _.
Qed.

Lemma settle_view w s p today st :
  counters_fit st →
  let '(w', st') := settleDay w s p today st in
  let '(x, released) := rollover (ConsecutiveDaysRequired p) today (view st) in
  view (with_Day today st') = x ∧
  (released = false → TotalMinerReleased st' = TotalMinerReleased st ∧ TotalProjectReleased st' = TotalProjectReleased st).
Proof.
intros (Ht & Hc & _). unfold settleDay, rollover. cbn [day view streak qualified tier readings].
destruct (negb (CurrentSampleDay st =? 0) && (CurrentSampleDay st <? today)) eqn:E.
2:{ rewrite decide_False; [done|]. intros [H1 H2]. apply andb_false_iff in E as [E|E]; boolP; lia. }
boolP. rewrite decide_True by lia.
assert (Hu : u32 (ConsecutiveDays st + 1) = ConsecutiveDays st + 1) by (apply Z.mod_small; lia). rewrite Hu.
set (n := if DayQualified st then _ else 0). destruct (ConsecutiveDaysRequired p <=? n) eqn:En; boolP.
- rewrite decide_True by done. set (st1 := mkReleaseState _ n _ _ _ _ _ _ _ _ _).
  destruct (trigger_totals w s st1 p) as (m & q & Htr). destruct (TriggerRelease w s st1 p) as [w' st2]. cbn in Htr. subst st2.
  split; [|done]. unfold view, with_Day. cbn. f_equal. apply Z.mod_small. lia.
- rewrite decide_False by lia. done.
Qed.

Lemma sampleable_quota ctx w p st pd : tok_params_wf p → sampleable ctx w p st = Some pd → SamplesToday st < DailySamples p.
Proof.
intros Wf. destruct (tp_samples p Wf). unfold sampleable. rewrite (proj2 (Z.leb_gt _ 0)) by done.
destruct (_ <=? _) eqn:E; boolP; done.
Qed.

(** One block against the rule. *)
Lemma EndBlocker_view ctx w s w' s' :
  tok_params_wf (TokenomicsKeeper.GetParams s) → counters_fit (GetReleaseState s) → 0 < BlockTime ctx →
  EndBlocker Power ctx w s = (w', s') →
  let p := TokenomicsKeeper.GetParams s in
  let '(x, released) := rollover (ConsecutiveDaysRequired p) (BlockTime ctx / DaySeconds p) (view (GetReleaseState s)) in
  view (GetReleaseState s') = observe (sampled ctx w s) x ∧
  (∀ ok, sampled ctx w s = Some ok → readings x < DailySamples p) ∧
  (released = false → AuthorizedReleases s' = AuthorizedReleases s) ∧
  TokenomicsKeeper.GetParams s' = TokenomicsKeeper.GetParams s.
Proof.
intros Wf Hfit Ht H p. unfold EndBlocker in H. fold p in H. rewrite (proj2 (Z.leb_gt _ 0)) in H by done.
assert (Hday : sampleDay ctx p = BlockTime ctx / DaySeconds p).
{ unfold sampleDay. pose proof (tp_day p Wf). rewrite (proj2 (Z.leb_gt _ 0)) by done. apply Z.quot_div_nonneg; lia. }
unfold sampled, beforeSample. fold p. rewrite Hday in H |- *.
destruct ((RefillMigrationPool w s).2) as [w1 s1] eqn:Er. destruct (refill_keeps w s w1 s1 Er) as (Hp & Hst & _).
pose proof (settle_view w1 s1 p (BlockTime ctx / DaySeconds p) (GetReleaseState s) Hfit) as Hv.
destruct (settleDay w1 s1 p _ _) as [w2 st2]. destruct (rollover _ _ _) as [x released] eqn:Ex. destruct Hv as [Hv Htot].
set (st3 := with_Day (BlockTime ctx / DaySeconds p) st2) in *.
assert (Hs3 : SamplesToday st3 = readings x) by (by rewrite <- Hv).
assert (Hrd : 0 <= readings x < 2 ^ 32 - 1).
{ destruct Hfit as (_ & _ & Hf). unfold rollover in Ex. repeat case_decide; injection Ex as <- _; cbn; lia. }
cbn [fmap option_fmap option_map]. destruct (sampleable ctx w2 p st3) as [pd|] eqn:Es; cbn [option_map]; injection H as <- <-.
- split_and!.
  + change (view (takeSample Power ctx p st3 pd) = observe (Some (sampleOk Power p (CurrentTier st3) pd)) x).
    rewrite <- Hv. unfold observe, view, takeSample. cbn.
    change (SamplesToday st2) with (SamplesToday st3). unfold u32. rewrite (Z.mod_small (SamplesToday st3 + 1)) by lia.
    f_equal; by destruct (sampleOk _ _ _ _).
  + intros _ _. rewrite <- Hs3. by eapply sampleable_quota.
  + intros Hr. destruct (Htot Hr) as [H1 H2]. unfold AuthorizedReleases. cbn. by rewrite H1, H2.
  + done.
- split_and!; [exact Hv|done| |done]. intros Hr. destruct (Htot Hr) as [H1 H2]. unfold AuthorizedReleases. cbn. by rewrite H1, H2.
Qed.

(** The blocks of a stretch of the chain, one after the other. *)
Definition runBlocks (ctxs : list Ctx) (x : W * TokStore) : W * TokStore :=
  foldl (fun x ctx => EndBlocker Power ctx x.1 x.2) x ctxs.

(** Room for [n] more increments of every counter. *)
Definition counters_room (n : nat) (x : Streak) : Prop :=
  0 <= tier x ∧ 0 <= streak x ∧ 0 <= readings x ∧
  tier x + Z.of_nat n < 2 ^ 32 - 1 ∧ streak x + Z.of_nat n < 2 ^ 32 - 1 ∧ readings x + Z.of_nat n < 2 ^ 32 - 1.

Lemma rule_room n required today x o :
  counters_room (S n) x → counters_room n (observe o (rollover required today x).1).
Proof.
unfold counters_room, rollover. intros H. repeat case_decide; destruct o; cbn in *; destruct (qualified x); lia.
Qed.

Lemma rollover_tier required today x :
  tier (rollover required today x).1 = tier x + if (rollover required today x).2 then 1 else 0.
Proof. unfold rollover. repeat case_decide; cbn; lia. Qed.


(** ** Whole histories

    [past] lists the settled days, newest first, with the outcomes of their
    readings; [current] the outcomes of today. *)
Record Ghost := mkGhost { past : list (Z * list bool); current : list bool }.

Definition blockDay ctx s : Z := BlockTime ctx / DaySeconds (TokenomicsKeeper.GetParams s).

Definition rolled ctx s : bool :=
  bool_decide (CurrentSampleDay (GetReleaseState s) ≠ 0 ∧ CurrentSampleDay (GetReleaseState s) < blockDay ctx s).

Definition advance ctx w s (g : Ghost) : Ghost :=
  let cur := if rolled ctx s then [] else current g in
  mkGhost (if rolled ctx s then (CurrentSampleDay (GetReleaseState s), current g) :: past g else past g)
    (match sampled ctx w s with Some ok => ok :: cur | None => cur end).

(** A block end, in a chain younger than 2^32 days whose clock does not go back,
    or anything that leaves the release state alone. *)
Inductive streak_step : W * TokStore * Ghost → W * TokStore * Ghost → Prop :=
  | ss_end ctx w s g w' s' :
      tok_params_wf (TokenomicsKeeper.GetParams s) → 0 < BlockTime ctx → Z.of_nat (length (past g)) < 2 ^ 32 - 1 →
      CurrentSampleDay (GetReleaseState s) <= blockDay ctx s →
      EndBlocker Power ctx w s = (w', s') → streak_step (w, s, g) (w', s', advance ctx w s g)
  | ss_other w s g w' s' :
      GetReleaseState s' = GetReleaseState s → streak_step (w, s, g) (w', s', g).

Record tied (st : ReleaseState) (g : Ghost) : Prop := {
  ti_qualified : DayQualified st = existsb (fun b => b) (current g);
  ti_readings : SamplesToday st = Z.of_nat (length (current g));
  ti_quota : Z.of_nat (length (current g)) <= MaxDailySamples;
  ti_tier : 0 <= CurrentTier st <= Z.of_nat (length (past g));
  ti_streak : 0 <= ConsecutiveDays st <= Z.of_nat (length (past g));
  ti_days : ∀ i d obs, (Z.of_nat i < ConsecutiveDays st) → past g !! i = Some (d, obs) → true ∈ obs;
  ti_past : Forall (fun e => Z.of_nat (length e.2) <= MaxDailySamples ∧ e.1 < CurrentSampleDay st) (past g);
  ti_order : StronglySorted (fun a b => b.1 < a.1) (past g);
}.

Lemma existsb_true obs : existsb (fun b => b) obs = true → true ∈ obs.
Proof. intros (b & Hb & ->)%existsb_exists. by apply list_elem_of_In. Qed.

Lemma rollover_rolled ctx s :
  rollover (ConsecutiveDaysRequired (TokenomicsKeeper.GetParams s)) (blockDay ctx s) (view (GetReleaseState s)) =
  let st := GetReleaseState s in
  if rolled ctx s then
    let n := if DayQualified st then ConsecutiveDays st + 1 else 0 in
    if decide (ConsecutiveDaysRequired (TokenomicsKeeper.GetParams s) <= n)
    then (mkStreak (CurrentTier st + 1) 0 (blockDay ctx s) 0 false, true)
    else (mkStreak (CurrentTier st) n (blockDay ctx s) 0 false, false)
  else (mkStreak (CurrentTier st) (ConsecutiveDays st) (blockDay ctx s) (SamplesToday st) (DayQualified st), false).
Proof. unfold rollover, rolled. cbn. by case_decide; case_bool_decide. Qed.

(** The streak a settled day makes is backed by qualifying days. *)
Lemma settled_days st g n :
  tied st g → n = (if DayQualified st then ConsecutiveDays st + 1 else 0) →
  0 <= n <= Z.of_nat (length (past g)) + 1 ∧
  ∀ i d obs, Z.of_nat i < n → ((CurrentSampleDay st, current g) :: past g) !! i = Some (d, obs) → true ∈ obs.
Proof.
intros T ->. pose proof (ti_streak _ _ T). destruct (DayQualified st) eqn:Eq; [|split; [lia|intros; lia]].
split; [lia|]. intros [|i] d obs Hi; cbn.
- intros [= <- <-]. apply existsb_true. by rewrite <- (ti_qualified _ _ T).
- intros Ho. apply (ti_days _ _ T i d obs); [lia|done].
Qed.

Lemma advance_tied ctx w s g w' s' :
  tied (GetReleaseState s) g → EndBlocker Power ctx w s = (w', s') →
  tok_params_wf (TokenomicsKeeper.GetParams s) → 0 < BlockTime ctx → Z.of_nat (length (past g)) < 2 ^ 32 - 1 →
  CurrentSampleDay (GetReleaseState s) <= blockDay ctx s →
  tied (GetReleaseState s') (advance ctx w s g) ∧
  (AuthorizedReleases s' ≠ AuthorizedReleases s →
    let required := ConsecutiveDaysRequired (TokenomicsKeeper.GetParams s) in
    required <= Z.of_nat (length (past (advance ctx w s g))) ∧
    ∀ i d obs, Z.of_nat i < required → past (advance ctx w s g) !! i = Some (d, obs) → true ∈ obs).
Proof.
intros T HE Wf Ht Hl Hd. set (st := GetReleaseState s) in *.
assert (Hfit : counters_fit st).
{ pose proof (ti_tier _ _ T). pose proof (ti_streak _ _ T). pose proof (ti_quota _ _ T). pose proof (ti_readings _ _ T).
  unfold counters_fit, MaxDailySamples in *. lia. }
pose proof (EndBlocker_view ctx w s w' s' Wf Hfit Ht HE) as R. cbv zeta in R.
change (BlockTime ctx / DaySeconds (TokenomicsKeeper.GetParams s)) with (blockDay ctx s) in R.
rewrite rollover_rolled in R. cbv zeta in R. fold st in R.
assert (Hobs : ∀ x cur, qualified x = existsb (fun b => b) cur → readings x = Z.of_nat (length cur) →
  (∀ ok, sampled ctx w s = Some ok → readings x < DailySamples (TokenomicsKeeper.GetParams s)) →
  Z.of_nat (length cur) <= MaxDailySamples →
  let cur' := match sampled ctx w s with Some ok => ok :: cur | None => cur end in
  let x' := observe (sampled ctx w s) x in
  qualified x' = existsb (fun b => b) cur' ∧ readings x' = Z.of_nat (length cur') ∧ Z.of_nat (length cur') <= MaxDailySamples ∧
  tier x' = tier x ∧ streak x' = streak x ∧ day x' = day x).
{ intros x cur H1 H2 H3 H4. destruct (sampled ctx w s) as [ok|]; cbn; [|done].
  pose proof (H3 ok eq_refl). pose proof (tp_samples _ Wf). rewrite H1. split_and!; try done; lia. }
assert (Hold : ∀ d, CurrentSampleDay st <= d → Forall (fun e => Z.of_nat (length e.2) <= MaxDailySamples ∧ e.1 < d) (past g)).
{ intros d Hle. eapply Forall_impl; [exact (ti_past _ _ T)|]. intros e [? ?]. cbv beta in *. lia. }
unfold advance. fold st. destruct (rolled ctx s) eqn:Er.
- apply bool_decide_eq_true in Er as [Hd0 Hd1]. fold st in Hd0, Hd1.
  set (n := if DayQualified st then ConsecutiveDays st + 1 else 0) in *.
  destruct (settled_days st g n T eq_refl) as [Hn Hdays].
  assert (Hpast : Forall (fun e => Z.of_nat (length e.2) <= MaxDailySamples ∧ e.1 < blockDay ctx s) ((CurrentSampleDay st, current g) :: past g)).
  { constructor; [split; [apply (ti_quota _ _ T)|done]|]. by apply Hold. }
  assert (Hord : StronglySorted (fun a b : Z * list bool => b.1 < a.1) ((CurrentSampleDay st, current g) :: past g)).
  { constructor; [apply (ti_order _ _ T)|]. eapply Forall_impl; [exact (ti_past _ _ T)|]. intros e [_ He]. exact He. }
  pose proof (ti_tier _ _ T).
  assert (Hfin : ∀ m t, 0 <= m <= n → 0 <= t <= CurrentTier st + 1 →
    view (GetReleaseState s') = observe (sampled ctx w s) (mkStreak t m (blockDay ctx s) 0 false) →
    (∀ ok, sampled ctx w s = Some ok → 0 < DailySamples (TokenomicsKeeper.GetParams s)) →
    tied (GetReleaseState s') (mkGhost ((CurrentSampleDay st, current g) :: past g)
      (match sampled ctx w s with Some ok => ok :: [] | None => [] end))).
  { intros m t Hm Htt Hv Hq. destruct (Hobs (mkStreak t m (blockDay ctx s) 0 false) [] eq_refl eq_refl Hq ltac:(done))
      as (O1 & O2 & O3 & O4 & O5 & O6). rewrite <- Hv in O1, O2, O4, O5, O6. cbn in O1, O2, O4, O5, O6.
    split; cbn [past current length]; rewrite ?O1, ?O2, ?O4, ?O5, ?O6; try done; try lia.
    intros i d obs Hi. apply Hdays. lia. }
  case_decide as Hreq; destruct R as (Hv & Hq & Htot & Hp).
  + split; [by apply (Hfin 0 (CurrentTier st + 1)); [lia|lia|done|done]|]. intros _. cbv zeta. cbn [past length].
    split; [lia|]. intros i d obs Hi. apply Hdays. lia.
  + split; [by apply (Hfin n (CurrentTier st)); [lia|lia|done|done]|]. intros Hch. by destruct Hch; apply Htot.
- destruct R as (Hv & Hq & Htot & Hp). split; [|intros Hch; by destruct Hch; apply Htot].
  destruct (Hobs (mkStreak (CurrentTier st) (ConsecutiveDays st) (blockDay ctx s) (SamplesToday st) (DayQualified st))
    (current g) (ti_qualified _ _ T) (ti_readings _ _ T) Hq (ti_quota _ _ T)) as (O1 & O2 & O3 & O4 & O5 & O6).
  rewrite <- Hv in O1, O2, O4, O5, O6. cbn in O1, O2, O4, O5, O6.
  split; cbn [past current]; rewrite ?O1, ?O2, ?O4, ?O5, ?O6; try done; [apply T..| |apply T].
  by apply Hold.
Qed.

(** C8: a tier release needs the streak: whatever happens in between, when the
    end of a block changes the authorised totals, the last
    [ConsecutiveDaysRequired] settled days exist, lie in the past one after the
    other, and each had a reading that met both thresholds, out of at most
    twenty-four. *)
Theorem release_needs_streak w0 s0 w s g ctx w' s' :
  GetReleaseState s0 = DefaultReleaseState → rtc streak_step (w0, s0, mkGhost [] []) (w, s, g) →
  tok_params_wf (TokenomicsKeeper.GetParams s) → 0 < BlockTime ctx → Z.of_nat (length (past g)) < 2 ^ 32 - 1 →
  CurrentSampleDay (GetReleaseState s) <= blockDay ctx s →
  EndBlocker Power ctx w s = (w', s') → AuthorizedReleases s' ≠ AuthorizedReleases s →
  let days := past (advance ctx w s g) in
  let required := ConsecutiveDaysRequired (TokenomicsKeeper.GetParams s) in
  required <= Z.of_nat (length days) ∧
  Forall (fun e => true ∈ e.2 ∧ Z.of_nat (length e.2) <= MaxDailySamples) (take (Z.to_nat required) days) ∧
  StronglySorted (fun a b => b.1 < a.1) days.
Proof.
intros H0 Hrun Wf Ht Hl Hd HE Hch.
assert (T : tied (GetReleaseState s) g).
{ assert (Hgen : ∀ x y, rtc streak_step x y → tied (GetReleaseState x.1.2) x.2 → tied (GetReleaseState y.1.2) y.2).
  { induction 1 as [|x y z Hs _ IH]; [done|]. intros T. apply IH. destruct Hs as [c w1 s1 g1 w2 s2 ? ? ? ? HE1|w1 s1 g1 w2 s2 Hst]; cbn in *.
    - by eapply advance_tied.
    - by rewrite Hst. }
  apply (Hgen _ _ Hrun). cbn. rewrite H0. split; try done. constructor. }
destruct (advance_tied ctx w s g w' s' T HE Wf Ht Hl Hd) as [T' Hrel]. destruct (Hrel Hch) as [H1 H2].
intros days required. split_and!; [done| |apply (ti_order _ _ T')].
rewrite Forall_lookup. intros i [d obs] Hi. apply lookup_take_Some in Hi as [Hi Hlt]. split.
- apply (H2 i d obs); [lia|done].
- pose proof (ti_past _ _ T') as Hp. rewrite Forall_lookup in Hp. by apply Hp in Hi as [? _].
Qed.

(** ** Restart *)
Lemma claimed_fold l : ∀ s, sMigrationClaimed (foldl SetMigrationClaimed s l) = list_to_set l ∪ sMigrationClaimed s ∧
  TokenomicsKeeper.GetParams (foldl SetMigrationClaimed s l) = TokenomicsKeeper.GetParams s ∧
  GetReleaseState (foldl SetMigrationClaimed s l) = GetReleaseState s ∧
  GetBlockRewardState (foldl SetMigrationClaimed s l) = GetBlockRewardState s ∧
  GetProjectClaimable (foldl SetMigrationClaimed s l) = GetProjectClaimable s.
Proof.
induction l as [|a l IH]; intros s; cbn [foldl list_to_set]; [split_and!; done || set_solver|].
destruct (IH (SetMigrationClaimed s a)) as (-> & -> & -> & -> & ->). split_and!; [|done..]. cbn. set_solver.
Qed.

(** restarting from an exported genesis mints nothing and forgets nothing: with
    the three pools already funded the balances are left alone, and the new store
    exports the same genesis, claimed airdrops included. *)
Theorem genesis_restores k w s :
  TokenomicsKeeper.Params_Validate (TokenomicsKeeper.AccAddressFromBech32 k) (TokenomicsKeeper.GetParams s) = Ok tt →
  (∀ m, m ∈ [MinerPoolName; ProjectPoolName; MigrationPoolName] → 0 < moduleBalance w m) →
  ∃ s', TokenomicsKeeper.InitGenesis k w emptyTokStore (TokenomicsKeeper.ExportGenesis s) = (Ok tt, (w, s')) ∧
    TokenomicsKeeper.ExportGenesis s' = TokenomicsKeeper.ExportGenesis s ∧ sMigrationClaimed s' = sMigrationClaimed s.
Proof.
intros Hv Hb. unfold TokenomicsKeeper.InitGenesis, TokenomicsKeeper.SetParams. cbn [TokenomicsKeeper.gsParams TokenomicsKeeper.ExportGenesis].
rewrite Hv. cbn [mbind result_bind].
assert (Hm : ∀ m x, m ∈ [MinerPoolName; ProjectPoolName; MigrationPoolName] → mintToModule w m x = (Ok tt, w)).
{ intros m x Hin. unfold mintToModule. destruct (negb (0 <? x)); [done|]. specialize (Hb m Hin).
  assert (Ha : is_Some (GetModuleAddress m)) by (unfold moduleBalance in Hb; destruct (GetModuleAddress m); [by eexists|lia]).
  rewrite (bool_decide_true _ Ha), (proj2 (Z.ltb_lt 0 _) Hb). done. }
unfold mintPools. rewrite !Hm by set_solver. eexists. split; [done|].
set (s1 := foldl SetMigrationClaimed _ _). 
destruct (claimed_fold (AllMigrationClaimed s) (SetProjectClaimable (SetBlockRewardState (SetReleaseState
  (mkTokStore (Some (TokenomicsKeeper.GetParams s)) (sReleaseState emptyTokStore) (sBlockRewardState emptyTokStore)
    (sProjectClaimable emptyTokStore) (sMigrationClaimed emptyTokStore)) (GetReleaseState s)) (GetBlockRewardState s)) (GetProjectClaimable s)))
  as (H1 & H2 & H3 & H4 & H5). fold s1 in H1, H2, H3, H4, H5.
assert (Hc : sMigrationClaimed s1 = sMigrationClaimed s).
{ etransitivity; [exact H1|]. cbn. rewrite union_empty_r_L. unfold AllMigrationClaimed.
  apply set_eq. intros a. by rewrite elem_of_list_to_set, merge_sort_Permutation, elem_of_elements. }
split; [|done]. unfold TokenomicsKeeper.ExportGenesis. f_equal; [exact H2|exact H3|exact H4|by f_equal|].
unfold AllMigrationClaimed. by rewrite Hc.
Qed.
End streak.
