(* ===== verification/Chain.v ===== *)
(** * The chain: x/tokenomics, x/bridgeadapter, x/atox and x/oracle wired together

    Models the wiring of src/app/app.go (lines 566-613): which keeper stands
    behind each interface.  [TokWorld] is what x/tokenomics sees beside its own
    store, [BridgeWorld] what x/bridgeadapter sees; the classes [TokEnv] and
    [BridgeEnv] are instantiated with the models of the modules, and the laws
    [TokEnvLaws] that x/tokenomics relies on are proved from those of the bank.

    Parameters: the bank (behind [BankOps]), the Hyperlane core with its state
    [C], and x/staking.  Of the bank's send hooks the one of x/atox runs here,
    the one of x/energy owns a store of its own and is in [EnergyKeeper]. *)

From stdpp Require Import base list option strings gmap.
From Stdlib Require Import ZArith Lia.
From S2P Require Import Prelude SdkMath OracleKeeper BridgePayload BridgeLimits BridgeKeeper TokenomicsKeeper TokenomicsSafety AtoxIndex Bank AtoxKeeper AtoxHandlers.

Open Scope Z_scope.

Record TokWorld (B C : Type) := mkTokWorld {
  twBank : B; twAtox : AtoxStore; twBridge : BridgeStore; twOracle : OracleStore; twCore : C;
}.
Arguments mkTokWorld {B C}.
Arguments twBank {B C}.
Arguments twAtox {B C}.
Arguments twBridge {B C}.
Arguments twOracle {B C}.
Arguments twCore {B C}.

Record BridgeWorld (B C : Type) := mkBridgeWorld { bwBank : B; bwAtox : AtoxStore; bwTok : TokStore; bwCore : C }.
Arguments mkBridgeWorld {B C}.
Arguments bwBank {B C}.
Arguments bwAtox {B C}.
Arguments bwTok {B C}.
Arguments bwCore {B C}.

(** The Hyperlane core: it keeps a state of its own and collects fees with the
    bank, whose hooks may settle ATOX on the way. *)
Class CoreOps (B C : Type) := {
  core_dispatch : B * AtoxStore * C → bytes → bytes → coins → Z → bytes → bytes → option addr →
    result bytes * (B * AtoxStore * C);
  core_sequence : C → result bytes * C;
  bonded : C → result Z;
}.

(** Dispatching funds no conversion pool. *)
Class CoreLaws {B C} (ops : CoreOps B C) : Prop := {
  core_released x mb sender fee dom rcpt body payer :
    TotalReleasedToPool (GetGlobalState (core_dispatch x mb sender fee dom rcpt body payer).2.1.2) =
    TotalReleasedToPool (GetGlobalState x.1.2);
}.

Section chain.
Context {B C : Type} {bank : BankOps B} {core : CoreOps B C} {D : LegacyDecOps}.
Context (ka : AtoxKeeper.Keeper).

(** What x/atox returns, back in the world of the caller. *)
Definition inTok {A} (w : TokWorld B C) (x : result A * (B * AtoxStore)) : result A * TokWorld B C :=
  (x.1, mkTokWorld x.2.1 x.2.2 (twBridge w) (twOracle w) (twCore w)).
Definition inBridge {A} (w : BridgeWorld B C) (x : result A * (B * AtoxStore)) : result A * BridgeWorld B C :=
  (x.1, mkBridgeWorld x.2.1 x.2.2 (bwTok w) (bwCore w)).

Definition bridgeEnv : BridgeEnv (BridgeWorld B C) := {|
  BridgeKeeper.AuthorizedReleases w := AuthorizedReleases (bwTok w);
  BridgeKeeper.GetProjectClaimable w := GetProjectClaimable (bwTok w);
  BridgeKeeper.SetProjectClaimable w x := mkBridgeWorld (bwBank w) (bwAtox w) (SetProjectClaimable (bwTok w) x) (bwCore w);
  BridgeKeeper.MinerPoolName := MinerPoolName;
  BridgeKeeper.MigrationPoolName := MigrationPoolName;
  BridgeKeeper.MigrationPoolBalance w := GetBalance (bwBank w) (ModuleAddress MigrationPoolName) (baseDenom ka);
  BridgeKeeper.MigrationPoolTotal w := MigrationPoolTotal (bwTok w);
  BridgeKeeper.BaseDenom := baseDenom ka;
  BridgeKeeper.AddToExchangePool w from x := inBridge w (AddToExchangePool ka (bwBank w, bwAtox w) from x);
  BridgeKeeper.SendCoinsFromAccountToModule w a m cs :=
    inBridge w (SendCoinsFromAccountToModule (SendRestriction ka) (bwBank w, bwAtox w) a m cs);
  BridgeKeeper.SendCoinsFromModuleToAccount w m a cs :=
    inBridge w (SendCoinsFromModuleToAccount (SendRestriction ka) (bwBank w, bwAtox w) m a cs);
  BridgeKeeper.DispatchMessage w mb sender fee dom rcpt body payer :=
    let '(r, (b, s, c)) := core_dispatch (bwBank w, bwAtox w, bwCore w) mb sender fee dom rcpt body payer in
    (r, mkBridgeWorld b s (bwTok w) c);
  BridgeKeeper.GetNextSequence w :=
    let '(r, c) := core_sequence (bwCore w) in (r, mkBridgeWorld (bwBank w) (bwAtox w) (bwTok w) c);
|}.

(** [SetTierDispatcher(app.BridgeAdapterKeeper)]; the dispatch does not look at
    the store of x/tokenomics. *)
Definition dispatchTier (w : TokWorld B C) (miner project : Z) : result unit * TokWorld B C :=
  let '(r, bw) := DispatchTierRelease (env := bridgeEnv)
    (mkBridgeWorld (twBank w) (twAtox w) emptyTokStore (twCore w)) (twBridge w) miner project in
  (match r with Ok _ => Ok tt | Err e => Err e end,
   mkTokWorld (bwBank bw) (bwAtox bw) (twBridge w) (twOracle w) (bwCore bw)).

Definition tokEnv : TokEnv (TokWorld B C) := {|
  GetModuleAddress m := Some (ModuleAddress m);
  TokenomicsKeeper.GetBalance w := GetBalance (twBank w);
  TokenomicsKeeper.SendCoinsFromModuleToAccount w m a cs :=
    inTok w (SendCoinsFromModuleToAccount (SendRestriction ka) (twBank w, twAtox w) m a cs);
  TokenomicsKeeper.SendCoinsFromModuleToModule w m m' cs :=
    inTok w (SendCoinsFromModuleToModule (SendRestriction ka) (twBank w, twAtox w) m m' cs);
  TokenomicsKeeper.MintCoins w m cs :=
    match MintCoins (twBank w) m cs with
    | Err e => (Err e, w)
    | Ok b => (Ok tt, mkTokWorld b (twAtox w) (twBridge w) (twOracle w) (twCore w))
    end;
  TokenomicsKeeper.baseDenom := baseDenom ka;
  TotalBondedTokens w := bonded (twCore w);
  TokenomicsKeeper.GetCurrentPrice w := OracleKeeper.GetCurrentPrice (twOracle w);
  MaxPriceAge w := MaxPriceAgeSeconds (OracleKeeper.GetParams (twOracle w));
  hasAtoxKeeper := true;
  TokenomicsKeeper.MintAtoxToModule w m x := inTok w (MintAtoxToModule ka (twBank w, twAtox w) m x);
  TokenomicsKeeper.AtoxSupplyCap w := AtoxSupplyCap (twAtox w);
  TokenomicsKeeper.MintedAgainstCap w := MintedAgainstCap ka (twBank w, twAtox w);
  TokenomicsKeeper.AtoxEnabled w := AtoxEnabled (twAtox w);
  tierDispatcher := Some dispatchTier;
|}.
End chain.

(** ** What any bank operation of x/atox keeps

    ATOS released into the conversion pool is only counted by
    [AddToExchangePool]; the parameters change only by proposal; burning moves
    value from the supply to the burn counter. *)
Record kept (k : AtoxKeeper.Keeper) {B} {bank : BankOps B} (w w' : B * AtoxStore) : Prop := {
  kp_released : TotalReleasedToPool (GetGlobalState w'.2) = TotalReleasedToPool (GetGlobalState w.2);
  kp_params : AtoxKeeper.sParams w'.2 = AtoxKeeper.sParams w.2;
}.

Section kept.
Context {B : Type} {bank : BankOps B} {laws : BankLaws bank} {D : LegacyDecOps} {DL : LegacyDecLaws D}.
Context (k : AtoxKeeper.Keeper).
Local Abbreviation kept := (kept k).

#[export] Instance kept_preorder : PreOrder kept.
Proof. split; [by split|]. intros x y z [H1 H2] [H3 H4]. split; congruence. Qed.

Lemma kept_store (b b' : B) s : kept (b, s) (b', s).
Proof. by split. Qed.

(** A send keeps what its hook keeps. *)
Lemma send_kept (r : Restriction B AtoxStore) w from to amt :
  coins_valid amt → (∀ w x w', r w from to amt = (x, w') → kept w w') → kept w (SendCoins r w from to amt).2.
Proof.
intros Hv Hr. destruct w as [b s]. destruct (SendCoins r (b, s) from to amt) as [[[]|e] w'] eqn:E; cbn [snd].
- apply send_spec in E as (b1 & to' & b2 & s2 & b3 & _ & E & _ & ->). apply Hr in E. destruct E. by split.
- apply send_fail in E as [->|(b1 & _ & E)]; [done| |done]. apply Hr in E. destruct E. by split.
Qed.

Lemma nested_kept w from to amt x w' : nestedRestriction k w from to amt = (x, w') → kept w w'.
Proof.
unfold nestedRestriction, restrict. destruct (negb _); [by intros [= _ <-]|].
destruct (rejectIBCEscrow k to); [|by intros [= _ <-]]. case_decide; by intros [= _ <-].
Qed.

(** Settlement moves value between the supply and the burn counter. *)
Lemma burn_kept w a x : 0 <= x → kept w (burnAtoxFor k w a x).2.
Proof.
intros Hx. unfold burnAtoxFor. rewrite send_to_module.
pose proof (send_kept (nestedRestriction k) w a (ModuleAddress AtoxModuleName) (NewCoins (atoxDenom k) x)
  (NewCoins_valid _ _ Hx) ltac:(intros; by eapply nested_kept)) as Hs.
destruct (SendCoins _ w a _ _) as [[[]|e] [b s]]; cbn [snd] in *; [|done].
destruct (BurnCoins b _ _); (etransitivity; [exact Hs|apply kept_store]).
Qed.

Lemma settle_kept w a v : kept w (SettleAccountWithBalance k w a v).2.
Proof.
unfold SettleAccountWithBalance. destruct (isModuleAccount k a); [done|]. destruct w as [b s].
destruct (getAtoxAccount s a) as [acct found]. destruct (_ <? _); [by split|].
destruct (ComputeOwed _ _ _) as [owed burn]. destruct (negb (0 <? owed)).
{ destruct (_ || _); by split. }
destruct (0 <? burn) eqn:E; [boolP|by split].
pose proof (burn_kept (b, s) a burn ltac:(lia)) as Hb. destruct (burnAtoxFor k (b, s) a burn) as [[[]|] [b1 s1]]; [|done].
cbn [snd] in *. destruct Hb as [H1 H2]. split; [done|exact H2].
Qed.

Lemma hook_kept w from to amt x w' : SendRestriction k w from to amt = (x, w') → kept w w'.
Proof.
unfold SendRestriction, restrict. destruct (negb _); [by intros [= _ <-]|].
destruct (rejectIBCEscrow k to); [|by intros [= _ <-]]. case_decide; [by intros [= _ <-]|].
pose proof (settle_kept w from (AtoxBalance k w.1 from + AmountOf amt (atoxDenom k))) as H1.
destruct (SettleAccountWithBalance k w from _) as [[z|e] w1]; cbn [snd] in H1; [|by intros [= _ <-]].
pose proof (settle_kept w1 to (AtoxBalance k w.1 to)) as H2.
destruct (SettleAccountWithBalance k w1 to _) as [[z'|e] w2]; cbn [snd] in H2; intros [= _ <-]; by etransitivity.
Qed.

Lemma transfer_kept w from to amt : coins_valid amt → kept w (SendCoins (SendRestriction k) w from to amt).2.
Proof. intros Hv. apply send_kept; [done|]. intros. by eapply hook_kept. Qed.

Lemma pay_kept w m to amt : coins_valid amt → kept w (SendCoinsFromModuleToAccount (SendRestriction k) w m to amt).2.
Proof.
intros Hv. destruct (BlockedAddr to) eqn:E.
- destruct (send_from_module_blocked (SendRestriction k) w m to amt E) as [e ->]. done.
- rewrite send_from_module by done. by apply transfer_kept.
Qed.

Lemma mint_module_kept w m x : kept w (MintAtoxToModule k w m x).2.
Proof.
unfold MintAtoxToModule. destruct (negb (Enabled _)); [done|]. destruct (0 <? x) eqn:E; boolP; cbn [negb]; [|done].
destruct (_ <? _); [done|]. destruct (MintCoins w.1 _ _) as [b|]; [|done]. destruct w as [b0 s].
rewrite send_module_module. etransitivity; [apply (kept_store b0 b s)|]. apply transfer_kept, NewCoins_valid. lia.
Qed.
End kept.

(** ** The laws x/tokenomics relies on *)
Section laws.
Context {B C : Type} {bank : BankOps B} {laws : BankLaws bank} {core : CoreOps B C}.
Context {D : LegacyDecOps} {DL : LegacyDecLaws D}.
Context (k : AtoxKeeper.Keeper).
Context (Hatox : isModuleAccount k (ModuleAddress AtoxModuleName) = true).
Context (Hdenoms : baseDenom k ≠ atoxDenom k).

(** A settlement issues nothing. *)
Lemma settle_issue w a v r w' : SettleAccountWithBalance k w a v = (Ok r, w') → MintedAgainstCap k w' = MintedAgainstCap k w.
Proof.
unfold SettleAccountWithBalance. destruct (isModuleAccount k a) eqn:Em; [by intros [= _ <-]|]. destruct w as [b s].
destruct (getAtoxAccount s a) as [acct found]. destruct (_ <? _); [by intros [= _ <-]|].
destruct (ComputeOwed _ _ _) as [owed burn] eqn:Eo. destruct (0 <? owed) eqn:E0; cbn [negb]; [boolP|destruct (_ || _); by intros [= _ <-]].
assert (burn = owed) as ->.
{ revert Eo. unfold ComputeOwed. repeat (destruct (negb _) || destruct (OneDec <=? _)); by intros [= <- <-]. }
rewrite (proj2 (Z.ltb_lt 0 owed)) by done.
destruct (burnAtoxFor k (b, s) a owed) as [[[]|] [b1 s1]] eqn:EB; [|done]. intros [= _ <-].
apply burn_effect in EB as (-> & _ & Bu); [|lia|congruence].
unfold MintedAgainstCap, AtoxSupply. cbn. rewrite (bu_sup _ _ _ _ _ Bu), decide_True by done. lia.
Qed.

Lemma transfer_issue w from to amt w' : coins_valid amt →
  SendCoins (SendRestriction k) w from to amt = (Ok tt, w') → MintedAgainstCap k w' = MintedAgainstCap k w.
Proof.
intros Hv H. destruct w as [b s]. apply send_spec in H as (b1 & to' & b2 & s2 & b3 & Hsub & Hr & Hadd & ->).
apply sub_spec in Hsub as (_ & _ & Hs1); [|done]. apply add_spec in Hadd as (_ & Hs3); [|done].
transitivity (MintedAgainstCap k (b2, s2)); [unfold MintedAgainstCap, AtoxSupply; cbn; by rewrite Hs3|].
transitivity (MintedAgainstCap k (b1, s)); [|unfold MintedAgainstCap, AtoxSupply; cbn; by rewrite Hs1].
revert Hr. unfold SendRestriction, restrict. destruct (negb _); [by intros [= _ <- <-]|].
destruct (rejectIBCEscrow k to); [|done]. case_decide; [by intros [= _ <- <-]|].
destruct (SettleAccountWithBalance k _ from _) as [[z|] w1] eqn:E1; [|done].
destruct (SettleAccountWithBalance k w1 to _) as [[z'|] w2] eqn:E2; [|done]. intros [= _ ->].
by rewrite (settle_issue _ _ _ _ _ E2), (settle_issue _ _ _ _ _ E1).
Qed.

(** The base coin moves and the store of x/atox stays as it is. *)
Lemma base_move b s from to x b' s' : 0 <= x →
  SendCoins (SendRestriction k) (b, s) from to (NewCoins (baseDenom k) x) = (Ok tt, (b', s')) →
  s' = s ∧ ∀ a, GetBalance b' a (baseDenom k) = GetBalance b a (baseDenom k) - at_addr from a x + at_addr to a x.
Proof.
intros Hx H. apply base_send in H as (-> & Hb & _); [|done..]. split; [done|].
intros a. rewrite Hb, decide_True by done. lia.
Qed.

#[export] Instance chain_tok_laws : TokEnvLaws (tokEnv (C := C) k).
Proof.
split; cbn.
- intros w a d. apply balance_nonneg.
- intros w m m' x w' a a' Hx [= <-] [= <-] H a0. rewrite send_module_module in H.
  destruct (SendCoins _ _ _ _ _) as [[[]|] [b' s']] eqn:E; [|done]. injection H as <-. cbn.
  by apply base_move in E as [_ ->].
- intros w m x w' a to Hx [= <-] H a0. destruct (BlockedAddr to) eqn:Eb.
  { destruct (send_from_module_blocked (SendRestriction k) (twBank w, twAtox w) m to (NewCoins (baseDenom k) x) Eb) as [e He].
    by rewrite He in H. }
  rewrite send_from_module in H by done. destruct (SendCoins _ _ _ _ _) as [[[]|] [b' s']] eqn:E; [|done].
  injection H as <-. cbn. by apply base_move in E as [_ ->].
- intros w m x w' Hx H. destruct (MintAtoxToModule k _ m x) as [[[]|] [b' s']] eqn:E; [|done]. injection H as <-. cbn.
  pose proof (mint_module_kept k (twBank w, twAtox w) m x) as Hk. rewrite E in Hk. destruct Hk as [_ Hp]. cbn in Hp.
  split; [|unfold AtoxSupplyCap, AtoxKeeper.GetParams; by rewrite Hp].
  revert E. unfold MintAtoxToModule. destruct (negb _); [done|]. destruct (negb _); [done|]. destruct (_ <? _); [done|]. cbn [fst snd].
  destruct (MintCoins (twBank w) _ _) as [b1|] eqn:Em; [|done]. rewrite send_module_module.
  intros Hs%transfer_issue; [|apply NewCoins_valid; lia]. rewrite Hs.
  apply mint_spec in Em as [_ Hsup]; [|apply NewCoins_valid; lia]. unfold MintedAgainstCap, AtoxSupply. cbn.
  rewrite Hsup, AmountOf_NewCoins, decide_True by done. lia.
Qed.
End laws.
