(* ===== verification/ChainSafety.v ===== *)
(** * The release round trip

    x/tokenomics authorises releases and announces them to Ethereum; Ethereum
    confirms with receipts; x/bridgeadapter applies a receipt by funding the ATOX
    conversion pool and the project permission.  The steps of the whole chain that
    touch those books, and what holds of them in every reachable state. *)

From stdpp Require Import base list option strings gmap relations.
From Stdlib Require Import ZArith Lia.
From S2P Require Import Prelude SdkMath OracleKeeper BridgePayload BridgeLimits BridgeKeeper BridgeSafety TokenomicsKeeper TokenomicsSafety AtoxIndex Bank AtoxKeeper AtoxHandlers Chain.

Open Scope Z_scope.

Record ChainState (B C : Type) := mkChain {
  cBank : B; cAtox : AtoxStore; cTok : TokStore; cBridge : BridgeStore; cOracle : OracleStore; cCore : C;
}.
Arguments mkChain {B C}.
Arguments cBank {B C}.
Arguments cAtox {B C}.
Arguments cTok {B C}.
Arguments cBridge {B C}.
Arguments cOracle {B C}.
Arguments cCore {B C}.

Section chain.
Context {B C : Type} {bank : BankOps B} {laws : BankLaws bank} {core : CoreOps B C} {coreLaws : CoreLaws core}.
Context {D : LegacyDecOps} {DL : LegacyDecLaws D} (Power : Dec → Z → Dec).
Context (ka : AtoxKeeper.Keeper) (kt : TokenomicsKeeper.Keeper) (kb : BridgeKeeper.Keeper).
Context (Hatox : isModuleAccount ka (ModuleAddress AtoxModuleName) = true).
Context (Hdenoms : baseDenom ka ≠ atoxDenom ka).
Local Abbreviation Chain := (ChainState B C).
#[local] Existing Instance bridgeEnv.
#[local] Existing Instance tokEnv.

Definition asTok (c : Chain) : TokWorld B C := mkTokWorld (cBank c) (cAtox c) (cBridge c) (cOracle c) (cCore c).
Definition asBridge (c : Chain) : BridgeWorld B C := mkBridgeWorld (cBank c) (cAtox c) (cTok c) (cCore c).
Definition ofTok (w : TokWorld B C) (s : TokStore) : Chain :=
  mkChain (twBank w) (twAtox w) s (twBridge w) (twOracle w) (twCore w).
Definition ofBridge (c : Chain) (w : BridgeWorld B C) (s : BridgeStore) : Chain :=
  mkChain (bwBank w) (bwAtox w) (bwTok w) s (cOracle c) (bwCore w).

(** Parameters a proposal can set whose share sum does not wrap. *)
Record tok_shares (p : TokenomicsKeeper.Params) : Prop := {
  ts_migration : 0 <= pMigrationPoolTotal p;
  ts_release : 0 <= ReleasePercentageBps p;
  ts_miner : 0 <= MinerReleaseShareBps p <= 10000;
}.

Inductive chain_step : Chain → Chain → Prop :=
  | cs_begin ctx c w s :
      TokenomicsKeeper.BeginBlocker (env := tokEnv ka) kt ctx (asTok c) (cTok c) = (Ok tt, (w, s)) → chain_step c (ofTok w s)
  | cs_end ctx c w s :
      TokenomicsKeeper.EndBlocker (env := tokEnv ka) Power ctx (asTok c) (cTok c) = (w, s) → chain_step c (ofTok w s)
  | cs_claim ctx c msg w s : 0 <= Amount msg →
      ClaimMigrationTokens (env := tokEnv ka) kt ctx (asTok c) (cTok c) msg = (Ok tt, (w, s)) → chain_step c (ofTok w s)
  | cs_tok_params c msg s :
      0 <= ReleasePercentageBps (TokenomicsKeeper.uParams msg) → 0 <= MinerReleaseShareBps (TokenomicsKeeper.uParams msg) <= 10000 →
      TokenomicsKeeper.UpdateParams kt (cTok c) msg = Ok s → chain_step c (ofTok (asTok c) s)
  | cs_out ctx c msg out w s :
      BridgeOut (env := bridgeEnv ka) kb ctx (asBridge c) (cBridge c) msg = (Ok out, (w, s)) → chain_step c (ofBridge c w s)
  | cs_handle ctx c mb msg w s :
      Handle (env := bridgeEnv ka) kb ctx (asBridge c) (cBridge c) mb msg = (Ok tt, (w, s)) → chain_step c (ofBridge c w s)
  | cs_bridge_params c msg s : params_unsigned (BridgeLimits.uParams msg) →
      BridgeKeeper.UpdateParams kb (cBridge c) msg = Ok s → chain_step c (ofBridge c (asBridge c) s)
  | cs_halt c guardian s : EmergencyHalt (cBridge c) guardian = Ok s → chain_step c (ofBridge c (asBridge c) s)
  (** everything else: the other users of the bank and of x/atox, which fund no
      pool, x/oracle, x/staking, the Hyperlane core *)
  | cs_other c b a o x : TotalReleasedToPool (GetGlobalState a) = TotalReleasedToPool (GetGlobalState (cAtox c)) →
      chain_step c (mkChain b a (cTok c) (cBridge c) o x).

(** ** The books of the round trip *)
Record backed (peg : Z) (c : Chain) : Prop := {
  bk_pool : TotalReleasedToPool (GetGlobalState (cAtox c)) = AppliedToBridge (GetReceiptState (cBridge c)) * peg;
  bk_miner : 0 <= AppliedToBridge (GetReceiptState (cBridge c)) * peg <= (AuthorizedReleases (cTok c)).1;
  bk_project : 0 <= AppliedToProject (GetReceiptState (cBridge c)) * peg <= (AuthorizedReleases (cTok c)).2;
  bk_claimable : 0 <= GetProjectClaimable (cTok c) <= AppliedToProject (GetReceiptState (cBridge c)) * peg;
  bk_wf : params_wf (BridgeKeeper.GetParams (cBridge c));
  bk_peg : AtosPerErc20 (BridgeKeeper.GetParams (cBridge c)) = peg;
  bk_shares : tok_shares (TokenomicsKeeper.GetParams (cTok c));
}.

(** The pool of x/atox and the stores of the bridge are as they were. *)
Lemma backed_tok peg c w s :
  backed peg c → twBridge w = cBridge c →
  TotalReleasedToPool (GetGlobalState (twAtox w)) = TotalReleasedToPool (GetGlobalState (cAtox c)) →
  (AuthorizedReleases (cTok c)).1 <= (AuthorizedReleases s).1 → (AuthorizedReleases (cTok c)).2 <= (AuthorizedReleases s).2 →
  0 <= GetProjectClaimable s <= GetProjectClaimable (cTok c) → tok_shares (TokenomicsKeeper.GetParams s) →
  backed peg (ofTok w s).
Proof. intros [] Hb Ha H1 H2 H3 H4. split; cbn in *; rewrite ?Hb, ?Ha; done || lia. Qed.

Lemma backed_bridge peg c w s :
  backed peg c → bwTok w = cTok c → GetReceiptState s = GetReceiptState (cBridge c) ∨
    (AppliedToBridge (GetReceiptState s) = AppliedToBridge (GetReceiptState (cBridge c)) ∧
     AppliedToProject (GetReceiptState s) = AppliedToProject (GetReceiptState (cBridge c))) →
  TotalReleasedToPool (GetGlobalState (bwAtox w)) = TotalReleasedToPool (GetGlobalState (cAtox c)) →
  params_wf (BridgeKeeper.GetParams s) → AtosPerErc20 (BridgeKeeper.GetParams s) = peg → backed peg (ofBridge c w s).
Proof.
intros [] Ht Hs Ha Wf Hpeg. assert (Hs' : AppliedToBridge (GetReceiptState s) = AppliedToBridge (GetReceiptState (cBridge c)) ∧
  AppliedToProject (GetReceiptState s) = AppliedToProject (GetReceiptState (cBridge c))) by (destruct Hs as [->|?]; done).
destruct Hs' as [H1 H2]. split; cbn; rewrite ?Ht, ?H1, ?H2, ?Ha; done.
Qed.

(** ** x/tokenomics *)
Lemma begin_kept ctx c w s :
  TokenomicsKeeper.BeginBlocker (env := tokEnv ka) kt ctx (asTok c) (cTok c) = (Ok tt, (w, s)) →
  twBridge w = cBridge c ∧ TotalReleasedToPool (GetGlobalState (twAtox w)) = TotalReleasedToPool (GetGlobalState (cAtox c)) ∧
  AuthorizedReleases s = AuthorizedReleases (cTok c) ∧ GetProjectClaimable s = GetProjectClaimable (cTok c) ∧
  TokenomicsKeeper.GetParams s = TokenomicsKeeper.GetParams (cTok c).
Proof.
unfold TokenomicsKeeper.BeginBlocker. cbn [hasAtoxKeeper tokEnv negb].
destruct (_ =? 0); [by intros [= <- <-]|]. destruct (negb _); [by intros [= <- <-]|]. destruct (_ && _); [by intros [= <- <-]|].
destruct (TotalBondedTokens _); [|done]. destruct (_ =? 0); [by intros [= <- <-]|].
set (x := if _ <? _ then _ else _). cbn [TokenomicsKeeper.MintAtoxToModule tokEnv]. unfold inTok.
pose proof (mint_module_kept ka (cBank c, cAtox c) (feeCollectorName kt) x) as Hk.
change (twBank (asTok c), twAtox (asTok c)) with (cBank c, cAtox c).
destruct (MintAtoxToModule ka (cBank c, cAtox c) (feeCollectorName kt) x) as [[[]|e] [b1 a1]]; destruct Hk as [Hr _]; cbn in Hr.
- intros [= <- <-]. done.
- cbn [fst snd]. destruct (bool_decide _ || bool_decide _); [|done]. by intros [= <- <-].
Qed.

Lemma refill_kept c r w s :
  RefillMigrationPool (env := tokEnv ka) (asTok c) (cTok c) = (r, (w, s)) → 0 <= GetProjectClaimable (cTok c) →
  twBridge w = cBridge c ∧ TotalReleasedToPool (GetGlobalState (twAtox w)) = TotalReleasedToPool (GetGlobalState (cAtox c)) ∧
  AuthorizedReleases s = AuthorizedReleases (cTok c) ∧ 0 <= GetProjectClaimable s <= GetProjectClaimable (cTok c) ∧
  TokenomicsKeeper.GetParams s = TokenomicsKeeper.GetParams (cTok c).
Proof.
intros H Hc. destruct (refill_shape _ _ _ _ _ H) as [(_ & -> & ->)|(x & Hx & _ & _ & Hs & ->)]; [split_and!; done || lia|].
cbn in Hs. unfold inTok in Hs. cbn in Hs. rewrite send_module_module in Hs.
pose proof (transfer_kept ka (cBank c, cAtox c) (ModuleAddress ProjectPoolName) (ModuleAddress MigrationPoolName)
  (NewCoins (baseDenom ka) x) (NewCoins_valid (baseDenom ka) x ltac:(lia))) as [Hr _].
destruct (SendCoins _ _ _ _ _) as [rr [b1 a1]]. injection Hs as <- <-. cbn in Hr |- *.
destruct rr; split_and!; try done; unfold GetProjectClaimable in *; cbn in *; lia.
Qed.

Lemma dispatch_kept w m p :
  twBridge (dispatchTier ka w m p).2 = twBridge w ∧
  TotalReleasedToPool (GetGlobalState (twAtox (dispatchTier ka w m p).2)) = TotalReleasedToPool (GetGlobalState (twAtox w)).
Proof.
unfold dispatchTier, DispatchTierRelease.
destruct (negb _); [done|]. destruct (_ || _); [done|]. destruct (_ || _); [done|]. destruct (negb _); [done|].
destruct (BuildTierRelease _ _) as [body|]; [|done]. cbn.
match goal with |- context [core_dispatch ?x ?mb ?sn ?f ?d ?r ?bd ?py] =>
  pose proof (core_released x mb sn f d r bd py) as Hc; destruct (core_dispatch x mb sn f d r bd py) as [rr [[b1 a1] cc]] end.
done.
Qed.

(** Settling a day never lowers what is authorised. *)
Lemma settle_grows peg c w1 s1 today w2 st : backed peg c →
  AuthorizedReleases s1 = AuthorizedReleases (cTok c) → TokenomicsKeeper.GetParams s1 = TokenomicsKeeper.GetParams (cTok c) →
  settleDay (env := tokEnv ka) w1 s1 (TokenomicsKeeper.GetParams (cTok c)) today (GetReleaseState (cTok c)) = (w2, st) →
  twBridge w2 = twBridge w1 ∧ TotalReleasedToPool (GetGlobalState (twAtox w2)) = TotalReleasedToPool (GetGlobalState (twAtox w1)) ∧
  (AuthorizedReleases (cTok c)).1 <= TotalMinerReleased st ∧ (AuthorizedReleases (cTok c)).2 <= TotalProjectReleased st.
Proof.
intros Bk Hau Hp. unfold settleDay. destruct (_ && _); [|intros [= <- <-]; split_and!; done || (cbn; lia)].
destruct (_ <=? _); [|intros [= <- <-]; split_and!; done || (cbn; lia)].
set (st0 := mkReleaseState _ _ _ _ _ _ _ _ _ _ _). set (p := TokenomicsKeeper.GetParams (cTok c)).
assert (Hcirc : 0 <= GetCirculatingSupply s1).
{ unfold GetCirculatingSupply. rewrite Hp. pose proof (ts_migration _ (bk_shares _ _ Bk)).
  pose proof (bk_miner _ _ Bk). pose proof (bk_project _ _ Bk).
  injection Hau as Hm Hj. rewrite Hm, Hj. cbn in *. lia. }
pose proof (chain_tok_laws (C := C) ka Hatox Hdenoms).
destruct (release_amounts (env := tokEnv ka) w1 s1 st0 p Hcirc (ts_release _ (bk_shares _ _ Bk)) (ts_miner _ (bk_shares _ _ Bk)))
  as (am & ap & Htr & Ham & Hap & _).
destruct (TriggerRelease w1 s1 st0 p) as [w3 st3] eqn:Et. cbn in Htr. subst st3. intros [= <- <-]. cbn.
assert (Hw : w3 = w1 ∨ ∃ m q, w3 = (dispatchTier ka w1 m q).2).
{ revert Et. unfold TriggerRelease. destruct (negb _); [intros [= <- _]; by left|]. cbv zeta. cbn [tierDispatcher tokEnv].
  intros [= <- _]. right. eauto. }
assert (Hw3 : twBridge w3 = twBridge w1 ∧
  TotalReleasedToPool (GetGlobalState (twAtox w3)) = TotalReleasedToPool (GetGlobalState (twAtox w1)))
  by (destruct Hw as [->|(m & q & ->)]; [done|apply dispatch_kept]).
destruct Hw3 as [-> ->]. split_and!; done || lia.
Qed.

Lemma end_backed peg ctx c w s : backed peg c →
  TokenomicsKeeper.EndBlocker (env := tokEnv ka) Power ctx (asTok c) (cTok c) = (w, s) → backed peg (ofTok w s).
Proof.
intros Bk. unfold TokenomicsKeeper.EndBlocker. destruct (_ <=? 0).
{ intros [= <- <-]. by destruct c. }
destruct (RefillMigrationPool (asTok c) (cTok c)) as [r [w1 s1]] eqn:Er. cbn [snd].
apply refill_kept in Er as (Hb & Ha & Hau & Hcl & Hp); [|apply Bk].
destruct (settleDay w1 s1 _ _ _) as [w2 st] eqn:Es.
destruct (settle_grows _ _ _ _ _ _ _ Bk Hau Hp Es) as (Hb2 & Ha2 & Hm & Hpj).
assert (Hfin : ∀ st', TotalMinerReleased st' = TotalMinerReleased st → TotalProjectReleased st' = TotalProjectReleased st →
  backed peg (ofTok w2 (SetReleaseState s1 st'))).
{ intros st' E1 E2. apply backed_tok with c; try done; cbn.
  - congruence.
  - congruence.
  - by rewrite E1.
  - by rewrite E2.
  - change (tok_shares (TokenomicsKeeper.GetParams s1)). rewrite Hp. apply Bk. }
destruct (sampleable _ _ _ _); intros [= <- <-]; by apply Hfin.
Qed.

Lemma claim_backed peg ctx c msg w s : backed peg c → 0 <= Amount msg →
  ClaimMigrationTokens (env := tokEnv ka) kt ctx (asTok c) (cTok c) msg = (Ok tt, (w, s)) → backed peg (ofTok w s).
Proof.
intros Bk Hx. unfold ClaimMigrationTokens. destruct (HasMigrationClaimed _ _); [done|]. destruct (bool_decide _); [done|].
destruct (_ && _); [done|]. destruct (negb _); [done|].
destruct (TokenomicsKeeper.AccAddressFromBech32 kt _) as [to|]; [|done]. destruct (_ <? _); [done|].
cbn [TokenomicsKeeper.SendCoinsFromModuleToAccount tokEnv]. unfold inTok. cbn [twBank twAtox asTok].
pose proof (pay_kept ka (cBank c, cAtox c) MigrationPoolName to (NewCoins (baseDenom ka) (Amount msg)) (NewCoins_valid _ _ Hx)) as [Hr _].
change (TokenomicsKeeper.baseDenom) with (baseDenom ka).
destruct (SendCoinsFromModuleToAccount _ _ _ _ _) as [[[]|] [b1 a1]]; cbn in Hr |- *; [|done].
intros [= <- <-]. apply backed_tok with c; try done; [|apply Bk].
pose proof (bk_claimable _ _ Bk). split; [apply Bk|done].
Qed.

(** ** x/bridgeadapter *)
Lemma out_backed peg ctx c msg out w s : backed peg c →
  BridgeOut (env := bridgeEnv ka) kb ctx (asBridge c) (cBridge c) msg = (Ok out, (w, s)) → backed peg (ofBridge c w s).
Proof.
intros Bk. unfold BridgeOut. destruct (BridgeKeeper.AccAddressFromBech32 kb _) as [sender|]; [|done]. destruct out as [id erc20].
intros H. apply bridge_out_inversion in H; [|apply Bk]. destruct H as [_ [Hpos Hamt] (w1 & body & Hs & _ & Hd) _ _ [Hst Hp] _ _].
assert (Hx : 0 <= mAmount msg) by (pose proof (wf_peg _ (bk_wf _ _ Bk)); nia).
cbn in Hs, Hd. unfold inBridge in Hs. rewrite send_to_module in Hs. cbn in Hs.
pose proof (transfer_kept ka (cBank c, cAtox c) sender (ModuleAddress MigrationPoolName) (NewCoins (baseDenom ka) (mAmount msg))
  (NewCoins_valid _ _ Hx)) as [Hr _].
destruct (SendCoins _ _ _ _ _) as [[[]|] [b1 a1]]; [|done]. injection Hs as <-. cbn in Hr, Hd.
match type of Hd with context [core_dispatch ?x ?mb ?sn ?f ?d ?r ?bd ?py] =>
  pose proof (core_released x mb sn f d r bd py) as Hc; destruct (core_dispatch x mb sn f d r bd py) as [rr [[b2 a2] cc]] end.
injection Hd as -> <-. cbn in Hc. apply backed_bridge; try done.
- right. by rewrite Hst.
- cbn. congruence.
- rewrite Hp. apply Bk.
- rewrite Hp. apply Bk.
Qed.

Lemma release_counted w from x b a :
  AddToExchangePool ka w from x = (Ok tt, (b, a)) →
  TotalReleasedToPool (GetGlobalState a) = TotalReleasedToPool (GetGlobalState w.2) + x.
Proof.
unfold AddToExchangePool. destruct (negb _); [done|]. destruct (negb _); [done|].
destruct (ComputeIndexDelta _ _ _) as [[delta rem]|]; [|done].
destruct (SendCoinsFromModuleToModule _ _ _ _ _) as [[[]|] [b1 a1]]; [|done]. by intros [= <- <-].
Qed.

Lemma receipt_backed peg c msg tb tp w s : backed peg c →
  receipt_applied (env := bridgeEnv ka) kb (asBridge c) (cBridge c) msg tb tp w s → backed peg (ofBridge c w s).
Proof.
intros Bk [_ _ _ _ [Hfb Hfp] Hs Hauth (w1 & Hpool & Hproj)].
pose proof (wf_peg _ (bk_wf _ _ Bk)) as Hpeg. rewrite (bk_peg _ _ Bk) in *.
destruct Bk as [Bpool Bm Bp Bc Wf Epeg Bs]. set (st := GetReceiptState (cBridge c)) in *.
assert (Hw1 : bwTok w1 = cTok c ∧ TotalReleasedToPool (GetGlobalState (bwAtox w1)) = tb * peg).
{ destruct (0 <? (tb - AppliedToBridge st) * peg) eqn:E; boolP.
  - cbn in Hpool. unfold inBridge in Hpool.
    destruct (AddToExchangePool ka _ _ _) as [[[]|] [b1 a1]] eqn:Ea; [|done]. injection Hpool as <-.
    apply release_counted in Ea. cbn in Ea |- *. rewrite Ea, Bpool. split; [done|lia].
  - injection Hpool as <-. split; [done|]. cbn. rewrite Bpool. nia. }
destruct Hw1 as [Ht1 Ha1].
assert (Hw : bwAtox w = bwAtox w1 ∧ AuthorizedReleases (bwTok w) = AuthorizedReleases (cTok c) ∧
  TokenomicsKeeper.GetParams (bwTok w) = TokenomicsKeeper.GetParams (cTok c) ∧
  GetProjectClaimable (bwTok w) = GetProjectClaimable (cTok c) + (tp - AppliedToProject st) * peg).
{ rewrite Hproj. destruct (0 <? (tp - AppliedToProject st) * peg) eqn:E; boolP; cbn; rewrite Ht1; split_and!; try done; nia. }
destruct Hw as (Ha & Hau & Hp & Hcl). 
assert (Hle : tb * peg <= (AuthorizedReleases (cTok c)).1 ∧ tp * peg <= (AuthorizedReleases (cTok c)).2).
{ destruct Hauth as [(-> & -> & _)|[H1 H2]]; [lia|]. cbn [BridgeKeeper.AuthorizedReleases bridgeEnv asBridge bwTok] in H1, H2. lia. }
injection Hau as Hm Hj. cbn in Hle, Bm, Bp.
split; cbn; rewrite ?Hs; cbn; rewrite ?Ha, ?Hm, ?Hj, ?Hp, ?Hcl; done || (destruct Hle; split; nia).
Qed.

Lemma handle_backed peg ctx c mb msg w s : backed peg c →
  Handle (env := bridgeEnv ka) kb ctx (asBridge c) (cBridge c) mb msg = (Ok tt, (w, s)) → backed peg (ofBridge c w s).
Proof.
intros Bk H. pose proof (bk_wf _ _ Bk) as Wf. pose proof (wf_peg _ Wf) as Hpeg. rewrite (bk_peg _ _ Bk) in Hpeg.
unfold Handle in H. destruct (_ || _) in H; [done|]. destruct (_ && _) in H.
- destruct (bridge_in_inversion _ _ _ _ _ _ _ Wf H) as (account & erc20 & [_ _ _ [Hb _] _ Hs _ _ [Hst Hp] _ _]).
  assert (Hx : 0 <= erc20 * AtosPerErc20 (BridgeKeeper.GetParams (cBridge c))) by (apply BuildAsset_shape in Hb as (_ & ? & _); rewrite (bk_peg _ _ Bk); nia).
  cbn in Hs. unfold inBridge in Hs. cbn in Hs.
  pose proof (pay_kept ka (cBank c, cAtox c) MigrationPoolName (AccAddressString kb account)
    (NewCoins (baseDenom ka) (erc20 * AtosPerErc20 (BridgeKeeper.GetParams (cBridge c)))) (NewCoins_valid _ _ Hx)) as [Hr _].
  destruct (SendCoinsFromModuleToAccount _ _ _ _ _) as [rr [b1 a1]]. injection Hs as -> <-. cbn in Hr.
  apply backed_bridge; try done.
  + right. by rewrite Hst.
  + rewrite Hp. apply Bk.
  + rewrite Hp. apply Bk.
- destruct (_ && _) in H; [|done]. destruct (receipt_inversion _ _ _ _ _ _ Wf H) as (tb & tp & R). by eapply receipt_backed.
Qed.

Lemma step_backed peg c c' : chain_step c c' → backed peg c → backed peg c'.
Proof.
intros Hstep Bk. destruct Hstep as [ctx c w s H|ctx c w s H|ctx c msg w s Hx H|c msg s H1 H2 H|ctx c msg out w s H|ctx c mb msg w s H|
  c msg s Hu H|c guardian s H|c b a o x H].
- apply begin_kept in H as (Hb & Ha & Hau & Hc & Hp). apply backed_tok with c; rewrite ?Hau, ?Hc, ?Hp; done || lia || apply Bk || split; [apply Bk|done].
- by eapply end_backed.
- by eapply claim_backed.
- unfold TokenomicsKeeper.UpdateParams, TokenomicsKeeper.SetParams in H. inv_ok. destruct x.
  apply backed_tok with c; try done; try lia; [split; [apply Bk|done]|].
  unfold TokenomicsKeeper.Params_Validate in *. inv_ok. boolP. split; done.
- by eapply out_backed.
- by eapply handle_backed.
- unfold BridgeKeeper.UpdateParams, BridgeKeeper.SetParams in H. inv_ok. boolP. destruct x.
  apply backed_bridge; try done; [by left|by eapply Params_Validate_wf|]. cbn. etransitivity; [eassumption|apply Bk].
- unfold EmergencyHalt in H. inv_ok. apply backed_bridge; try done; [by left|apply halted_wf, Bk|apply Bk].
- destruct Bk. split; cbn; rewrite ?H; done.
Qed.

End chain.
