(* ===== verification/ChainExample.v ===== *)
(** * A concrete chain

    The reference ledger, a Hyperlane core that accepts every dispatch, and a
    small configuration: one qualifying day releases 5% of 100000 liao, the peg
    is 100.  The theorems about x/bridgeadapter and x/tokenomics are applied to it
    below. *)

From stdpp Require Import base list option strings gmap pretty relations.
From Stdlib Require Import ZArith Lia.
From coqutil Require Import Word.LittleEndianList.
From S2P Require Import Prelude SdkMath OracleKeeper BridgePayload BridgeLimits BridgeKeeper BridgeSafety Sha256 TokenomicsKeeper TokenomicsSafety TokenomicsStreak AtoxIndex Bank AtoxKeeper AtoxHandlers Chain ChainSafety.

Open Scope Z_scope.
#[local] Existing Instance bankers_dec.
#[local] Existing Instance bankers_dec_laws.

Module SmallChain.
Definition ka : AtoxKeeper.Keeper :=
  AtoxKeeper.mkKeeper (fun a => Some (String.prefix "module/" a)) None (fun p c => c) (fun x => Some x) "gov" "liao" "aatox".
Definition kt : TokenomicsKeeper.Keeper := TokenomicsKeeper.mkKeeper "gov" "fee_collector" (fun x => Some x).
Definition kb : BridgeKeeper.Keeper :=
  BridgeKeeper.mkKeeper "gov" (fun x => Some x) (fun bz => ("acct" +:+ pretty (le_combine bz))%string) (fun msg => take 32 (Body msg)).

(** The core numbers the messages it dispatches. *)
#[export] Instance core : CoreOps ledger Z := {
  core_dispatch x _ _ _ _ _ _ _ := (Ok (word x.2), (x.1, x.2 + 1));
  core_sequence c := (Ok (word c), c + 1);
  bonded c := Ok 1;
}.
#[export] Instance core_laws : CoreLaws core.
Proof. by split. Qed.
Abbreviation benv := (bridgeEnv (C := Z) ka) (only parsing).
Abbreviation tenv := (tokEnv (C := Z) ka) (only parsing).
Lemma registered : isModuleAccount ka (ModuleAddress AtoxModuleName) = true.
Proof. done. Qed.
Lemma chain_denoms : baseDenom ka ≠ atoxDenom ka.
Proof. done. Qed.
Lemma tlaws : TokEnvLaws tenv.
Proof. exact (chain_tok_laws ka registered chain_denoms). Qed.
Definition Power (x : Dec) (n : Z) : Dec := Nat.iter (Z.to_nat n) (fun y => Dec_Mul y x) OneDec.

Definition atoxParams : AtoxIndex.Params := AtoxIndex.mkParams true 1000000 50 0 1000.
Definition tokParams : TokenomicsKeeper.Params := {|
  MinerPoolTotal := 10000; ProjectPoolTotal := 10000; pMigrationPoolTotal := 100000; HalvingIntervalBlocks := 10;
  InitialBlockReward := 64; PriceBase := OneDec; VolumeBase := OneDec; TierMultiplier := NewDec 2; ConsecutiveDaysRequired := 1;
  ReleasePercentageBps := 500; MinerReleaseShareBps := 5000; ProjectReleaseShareBps := 5000; ProjectTreasuryAddress := "";
  PriceCheckEpochBlocks := 1; DaySeconds := 100; MigrationRefillThresholdBps := 6000; DailySamples := 3;
  MigrationMerkleRoot := "32d0fa4d08427c5e7f36b02746c7a918361bd1d801feec7c6886bd47c458813b";
  MigrationClaimEndTimeUnix := 0; ValidatorMinSelfDelegation := 0;
|}.
Definition mailbox : bytes := word 1.
Definition vault : bytes := word 2.
Definition bridgeParams : BridgeLimits.Params := {|
  BridgeLimits.Enabled := true; EthereumDomain := 1; TierReleaseVault := vault; AtosPerErc20 := 100; BridgeEnabled := true;
  MailboxId := mailbox; RemoteBridgeVault := vault; GlobalDailyCap := 10000; GlobalDailyCapBpsOfPool := 5000;
  PerAddressDailyBps := 5000; MinTransferOut := 100; SmallTransferThreshold := 500; SmallQuotaBps := 2000; CrisisPoolBps := 1000;
  IsmId := word 3; InboundDailyCap := 10000; InboundDailyCapBpsOfPool := 5000; RateLimitsDisabled := false; pMaxTransferIn := 0;
  pMaxTransferOut := 0; InboundPerAddressDailyBps := 5000; pInboundSmallThreshold := 1000; Guardians := ["guard"];
|}.
Definition receipts0 : ReceiptState := mkReceiptState 0 0 (word 10) [] (word 11) 0 0.
Definition bank0 : ledger :=
  mkLedger {[("module/miner_pool", "liao") := 10000%N; ("module/project_pool", "liao") := 10000%N;
             ("module/migration_pool", "liao") := 50000%N; ("alice", "liao") := 5000%N]}%string {["liao" := 75000%N]}%string.

(** Genesis, and the price that x/oracle holds. *)
Definition c0 : ChainState ledger Z := mkChain bank0
  (mkAtoxStore (Some atoxParams) None ∅ None None)
  (mkTokStore (Some tokParams) None None None ∅)
  (mkBridgeStore (Some bridgeParams) (Some receipts0) None ∅ ∅)
  (mkOracleStore None (Some (mkPriceData (NewDec 5) (NewDec 5) 150 "feeder" "")) ∅) 100.

(** A day with a qualifying reading, the next day, and Ethereum's receipt. *)
Definition ctx1 : Ctx := mkCtx 150 1.
Definition ctx2 : Ctx := mkCtx 250 2.
Definition e1 := TokenomicsKeeper.EndBlocker (env := tenv) Power ctx1 (asTok c0) (cTok c0).
Definition c1 : ChainState ledger Z := ofTok e1.1 e1.2.
Definition e2 := TokenomicsKeeper.EndBlocker (env := tenv) Power ctx2 (asTok c1) (cTok c1).
Definition c2 : ChainState ledger Z := ofTok e2.1 e2.2.
Definition receipt : HyperlaneMessage :=
  mkHyperlaneMessage 3 0 1 vault 2 (word 10) (match BuildReceipt 25 25 with Ok b => b | Err _ => [] end).
Definition h := Handle (env := benv) kb ctx2 (asBridge c2) (cBridge c2) mailbox receipt.
Definition c3 : ChainState ledger Z := ofBridge c2 h.2.1 h.2.2.

Definition outMsg : MsgBridgeOut := mkMsgBridgeOut "alice" (word 7) 1000 [].
Definition out := BridgeOut (env := benv) kb ctx1 (asBridge c0) (cBridge c0) outMsg.
Definition inMsg : HyperlaneMessage := mkHyperlaneMessage 3 1 1 vault 2 (word 11)
  (match BuildAssetPayload (word 77) 7 with Ok b => b | Err _ => [] end).
Definition hin := Handle (env := benv) kb ctx1 out.2.1 out.2.2 mailbox inMsg.

(** A run is its outcome and what it leaves behind. *)
Lemma run_ok {A W S} (x : result A * (W * S)) a : x.1 = Ok a → x = (Ok a, (x.2.1, x.2.2)).
Proof. destruct x as [r [w s]]. by intros [= ->]. Qed.
Lemma bridge_wf : params_wf bridgeParams.
Proof. by split; vm_compute. Qed.
Lemma tok_wf : tok_params_wf tokParams.
Proof. by split; vm_compute. Qed.
Lemma h_ok : Handle (env := benv) kb ctx2 (asBridge c2) (cBridge c2) mailbox receipt = (Ok tt, (h.2.1, h.2.2)).
Proof. apply (run_ok h). by vm_compute. Qed.
Lemma out_ok : BridgeOut (env := benv) kb ctx1 (asBridge c0) (cBridge c0) outMsg = (Ok (word 100, 10), (out.2.1, out.2.2)).
Proof. apply (run_ok out). by vm_compute. Qed.
Lemma hin_ok : Handle (env := benv) kb ctx1 out.2.1 out.2.2 mailbox inMsg = (Ok tt, (hin.2.1, hin.2.2)).
Proof. apply (run_ok hin). by vm_compute. Qed.
End SmallChain.

(** Unfold the states only when nothing else is left. *)
Strategy 1000 [SmallChain.c0 SmallChain.c1 SmallChain.c2 SmallChain.c3 SmallChain.e1 SmallChain.e2 SmallChain.h SmallChain.out SmallChain.hin].
Import SmallChain.


(** ** x/bridgeadapter *)
Lemma receipt_effect_witness :
  ∃ tb tp, receipt_applied (env := benv) kb (asBridge c2) (cBridge c2) receipt tb tp h.2.1 h.2.2.
Proof.
assert (Hwf : params_wf (BridgeKeeper.GetParams (cBridge c2))) by exact bridge_wf.
exact (proj2 (proj2 (receipt_effect (env := benv) kb ctx2 (asBridge c2) (cBridge c2) mailbox receipt h.2.1 h.2.2 Hwf
  ltac:(by vm_compute) h_ok))).
Defined.

Lemma replay_harmless_witness :
  Handle (env := benv) kb ctx1 h.2.1 h.2.2 mailbox receipt = (Ok tt, (h.2.1, h.2.2)) ∧
  Handle (env := benv) kb ctx1 h.2.1 h.2.2 vault receipt = (Err ErrWrongMailbox, (h.2.1, h.2.2)).
Proof.
assert (Hwf : params_wf (BridgeKeeper.GetParams (cBridge c2))) by exact bridge_wf.
destruct (replay_harmless (env := benv) kb ctx2 (asBridge c2) (cBridge c2) mailbox receipt h.2.1 h.2.2 Hwf ltac:(by vm_compute) h_ok) as [H1 H2].
split; [exact (H1 ctx1)|exact (H2 ctx1 vault receipt ltac:(by vm_compute))].
Defined.

Lemma bridge_out_effect_witness :
  ∃ sender, sender = "alice"%string ∧ bridged_out (env := benv) ctx1 (asBridge c0) (cBridge c0) sender (word 7) 1000 [] (word 100) 10 out.2.1 out.2.2.
Proof.
destruct (bridge_out_effect (env := benv) kb ctx1 (asBridge c0) (cBridge c0) outMsg (word 100) 10 out.2.1 out.2.2 bridge_wf out_ok)
  as (sender & H1 & H2).
injection H1 as <-. by exists "alice"%string.
Defined.

Lemma bridge_in_effect_witness :
  ∃ account erc20, bridged_in (env := benv) kb ctx1 out.2.1 out.2.2 inMsg account erc20 hin.2.1 hin.2.2.
Proof.
assert (Hwf : params_wf (BridgeKeeper.GetParams out.2.2)) by exact bridge_wf.
exact (proj2 (bridge_in_effect (env := benv) kb ctx1 out.2.1 out.2.2 mailbox inMsg hin.2.1 hin.2.2 Hwf ltac:(by vm_compute) ltac:(by vm_compute) hin_ok)).
Defined.

Lemma day_books_witness :
  map_sum (usageOn (DayOf 150)) (sAddressUsage hin.2.2) = 1000 ∧ map_sum (usageOn (DayOf 150)) (sInboundUsage hin.2.2) = 700.
Proof.
assert (Hout : ExecuteBridgeOut (env := benv) ctx1 (asBridge c0) (cBridge c0) "alice" (word 7) 1000 [] = (Ok (word 100, 10), (out.2.1, out.2.2)))
  by exact out_ok.
assert (Hrun : rtc (bridge_step (env := benv) kb) (asBridge c0, cBridge c0, 0) (hin.2.1, hin.2.2, 150)).
{ eapply rtc_l; [exact (bs_out (env := benv) kb ctx1 _ _ 0 _ _ _ _ _ _ _ ltac:(done) Hout)|].
  eapply rtc_l; [exact (bs_handle (env := benv) kb ctx1 _ _ 150 _ _ _ _ ltac:(done) hin_ok)|apply rtc_refl]. }
destruct (day_books (env := benv) kb ctx1 (asBridge c0) (cBridge c0) hin.2.1 hin.2.2 0 150 eq_refl eq_refl eq_refl bridge_wf Hrun ltac:(done))
  as (H1 & H2 & _).
split; [etransitivity; [exact H1|by vm_compute]|etransitivity; [exact H2|by vm_compute]].
Defined.

(** ** x/tokenomics *)
Definition begun := BeginBlocker (env := tenv) kt ctx1 (asTok c0) (cTok c0).


Lemma release_bounds_witness :
  let st' := (TriggerRelease (env := tenv) (asTok c1) (cTok c1) (GetReleaseState (cTok c1)) tokParams).2 in
  0 <= TotalMinerReleased st' - 0 <= 10000.
Proof.
pose proof (release_bounds (laws := tlaws) (asTok c1) (cTok c1) (GetReleaseState (cTok c1)) tokParams
  ltac:(by vm_compute) ltac:(by vm_compute) ltac:(by split; vm_compute)) as H.
destruct (TriggerRelease (asTok c1) (cTok c1) (GetReleaseState (cTok c1)) tokParams) as [w st].
destruct H as (H & _). assert (E1 : moduleBalance (env := tenv) (asTok c1) MinerPoolName = 10000) by (by vm_compute).
assert (E2 : TotalMinerReleased (GetReleaseState (cTok c1)) = 0) by (by vm_compute). rewrite E1, E2 in H. exact H.
Defined.

Definition refilled := RefillMigrationPool (env := tenv) (asTok c3) (cTok c3).

Lemma refill_conserves_witness :
  (refilled.2.1 = asTok c3 ∧ refilled.2.2 = cTok c3) ∨
  ∃ x, 0 < x <= GetProjectClaimable (cTok c3) ∧
    GetBalance (twBank refilled.2.1) "module/migration_pool" "liao" = GetBalance (twBank (asTok c3)) "module/migration_pool" "liao" + x.
Proof.
assert (Hok : RefillMigrationPool (env := tenv) (asTok c3) (cTok c3) = (Ok tt, (refilled.2.1, refilled.2.2)))
  by (apply (run_ok refilled); by vm_compute).
destruct (refill_conserves (laws := tlaws) (asTok c3) (cTok c3) refilled.2.1 refilled.2.2 "module/migration_pool" "module/project_pool"
  eq_refl eq_refl ltac:(done) Hok) as [H|(x & H1 & _ & _ & H4 & _)]; [by left|right]. exists x. split; [exact H1|exact H4].
Defined.

Definition claimMsg : MsgClaimMigrationTokens := mkMsgClaim "bob" 50 [].
Definition claimed := ClaimMigrationTokens (env := tenv) kt ctx1 (asTok c0) (cTok c0) claimMsg.

Lemma claim_once_witness :
  GetBalance (twBank claimed.2.1) "bob" "liao" = 50 ∧
  ClaimMigrationTokens (env := tenv) kt ctx2 claimed.2.1 claimed.2.2 claimMsg = (Err ErrAlreadyClaimed, (claimed.2.1, claimed.2.2)).
Proof.
assert (Hok : ClaimMigrationTokens (env := tenv) kt ctx1 (asTok c0) (cTok c0) claimMsg = (Ok tt, (claimed.2.1, claimed.2.2)))
  by (apply (run_ok claimed); by vm_compute).
assert (Hb0 : ∀ b, b = GetBalance (bank0) "bob" "liao" → b = 0) by (intros b ->; by vm_compute).
destruct (claim_once (laws := tlaws) kt ctx1 (asTok c0) (cTok c0) claimMsg claimed.2.1 claimed.2.2 "module/migration_pool"
  ltac:(done) eq_refl Hok) as (_ & _ & (to & Hto & _ & Hbal) & _ & Hagain).
injection Hto as <-. split; [|by apply Hagain].
etransitivity; [exact (Hbal "bob"%string)|]. by vm_compute.
Defined.


Lemma release_needs_streak_witness :
  let g := advance (env := tenv) Power ctx1 (asTok c0) (cTok c0) (mkGhost [] []) in
  Forall (fun e => true ∈ e.2 ∧ Z.of_nat (length e.2) <= MaxDailySamples)
    (take 1 (past (advance (env := tenv) Power ctx2 (asTok c1) (cTok c1) g))).
Proof.
intros g. assert (Hwf : tok_params_wf (TokenomicsKeeper.GetParams (cTok c1))) by (by split; vm_compute).
assert (Hd0 : CurrentSampleDay (GetReleaseState (cTok c0)) <= blockDay ctx1 (cTok c0)) by (by vm_compute).
assert (Hd1 : CurrentSampleDay (GetReleaseState (cTok c1)) <= blockDay ctx2 (cTok c1)) by (by vm_compute).
assert (Hl : Z.of_nat (length (past g)) < 2 ^ 32 - 1) by (by vm_compute).
assert (Hch : AuthorizedReleases e2.2 ≠ AuthorizedReleases (cTok c1)) by (by vm_compute).
assert (Hrun : rtc (streak_step (env := tenv) Power) (asTok c0, cTok c0, mkGhost [] []) (asTok c1, cTok c1, g)).
{ eapply rtc_l; [|apply rtc_refl]. exact (ss_end (env := tenv) Power ctx1 (asTok c0) (cTok c0) (mkGhost [] []) e1.1 e1.2
    tok_wf eq_refl eq_refl Hd0 (surjective_pairing e1)). }
exact (proj1 (proj2 (release_needs_streak (env := tenv) Power (asTok c0) (cTok c0) (asTok c1) (cTok c1) g ctx2 e2.1 e2.2 eq_refl Hrun Hwf
  eq_refl Hl Hd1 (surjective_pairing e2) Hch))).
Defined.

Lemma genesis_restores_witness :
  ∃ s', TokenomicsKeeper.InitGenesis (env := tenv) kt (asTok c3) emptyTokStore (TokenomicsKeeper.ExportGenesis (cTok c3)) =
      (Ok tt, (asTok c3, s')) ∧
    TokenomicsKeeper.ExportGenesis s' = TokenomicsKeeper.ExportGenesis (cTok c3) ∧ sMigrationClaimed s' = sMigrationClaimed (cTok c3).
Proof.
apply (genesis_restores (env := tenv) kt (asTok c3) (cTok c3)); [by vm_compute|].
intros m Hm. assert (Hf : Forall (fun m => 0 < moduleBalance (env := tenv) (asTok c3) m) [MinerPoolName; ProjectPoolName; MigrationPoolName])
  by (repeat constructor; by vm_compute).
rewrite Forall_forall in Hf. by apply Hf.
Defined.
