(* ===== verification/EvmStateDB.v ===== *)
(** * x/evm/statedb: the journaled account state of one EVM transaction

    A [StateDB] buffers what a transaction does to accounts on top of a store
    context [C], which it reaches only through the interface [StateKeeper]
    (statedb/interfaces.go).  Every modification is journaled; [Snapshot] and
    [RevertToSnapshot] undo by replaying the journal backwards, and [Commit]
    writes the dirty accounts to the store.

    A [*stateObject] is always the one held in [stateObjects] under its own
    address, so the methods of an object take its value and write the new value
    back with [setStateObject].  Objects saved in the journal are never written
    to again, so a saved value is what a saved pointer shows.  Getters return
    the new [StateDB] too: they cache what they load.  The two fields [cacheCtx]
    and [writeCache] are set together and [writeCache] writes exactly the store
    of [cacheCtx]: they are one [option C].  Events are not modelled. *)

From stdpp Require Import gmap strings list sorting countable.
From Stdlib Require Import ZArith Lia.
From S2P Require Import Prelude.

Open Scope Z_scope.

(** ** Addresses and hashes

    [common.Address] is its 20 bytes, [common.Hash] is 32 bytes by type. *)
Abbreviation Address := string (only parsing).

Definition Hash : Type := { b : string | Is_true (String.length b =? 32)%nat }.
Definition Bytes (h : Hash) : string := `h.

#[export] Instance Hash_eq_dec : EqDecision Hash := _.
#[export] Instance Hash_countable : Countable Hash := _.

Lemma Bytes_inj (h h' : Hash) : Bytes h = Bytes h' → h = h'.
Proof. apply (proj2 (sig_eq_pi _ h h')). Qed.

Lemma Bytes_length (h : Hash) : String.length (Bytes h) = 32%nat.
Proof. destruct h as [b H]; simpl. by apply Nat.eqb_eq, Is_true_true. Qed.

Definition zeros (n : nat) : string :=
  Nat.iter n (String (Ascii.ascii_of_nat 0)) EmptyString.

(** [common.BytesToHash]: longer inputs lose their first bytes, shorter ones are
    padded on the left. *)
Definition pad32 (b : string) : string :=
  let n := String.length b in
  if (32 <? n)%nat then String.substring (n - 32) 32 b
  else (zeros (32 - n) +:+ b)%string.

Lemma zeros_length n : String.length (zeros n) = n.
Proof. induction n; simpl; auto. Qed.

Lemma substring_length m : ∀ n b,
  (n + m <= String.length b)%nat → String.length (String.substring n m b) = m.
Proof.
induction m as [|m IHm].
- intros n b. revert n. induction b; destruct n; simpl; intros; auto; try lia. apply IHb. lia.
- intros n b. revert n. induction b as [|x b IHb]; intros n H; simpl in *; [lia|].
  destruct n; simpl; [rewrite IHm; lia|apply IHb; lia].
Qed.

Lemma pad32_length b : Is_true (String.length (pad32 b) =? 32)%nat.
Proof.
apply Is_true_true, Nat.eqb_eq. unfold pad32. destruct (32 <? String.length b)%nat eqn:E.
- apply Nat.ltb_lt in E. apply substring_length. lia.
- apply Nat.ltb_ge in E. rewrite append_length, zeros_length. lia.
Qed.

Definition BytesToHash (b : string) : Hash := pad32 b ↾ pad32_length b.

Lemma BytesToHash_Bytes h : BytesToHash (Bytes h) = h.
Proof.
apply Bytes_inj. unfold BytesToHash, Bytes at 1; simpl. unfold pad32.
by rewrite Bytes_length.
Qed.

(** [common.Hash{}]. *)
Definition zeroHash : Hash := BytesToHash "".

(** ** Dependencies

    [Keccak256] of go-ethereum, and the decimals of the EVM coin, which the
    application sets once at start-up ([GetEVMCoinDecimals]). *)
Class EvmEnv := {
  Keccak256 : string → Hash;
  EVMCoinDecimals : Z;
}.

Section scaling.
Context `{EvmEnv}.

Definition SixDecimals : Z := 6.
Definition EighteenDecimals : Z := 18.

Definition ConversionFactor (d : Z) : Z := if d =? SixDecimals then 10 ^ 12 else 1.

(** [big.Int.Quo] truncates towards zero. *)
Definition AdjustExtraDecimalsBigInt (amt : Z) : Z :=
  if amt =? 0 then amt
  else if EVMCoinDecimals =? EighteenDecimals then amt
  else Z.quot amt (ConversionFactor EVMCoinDecimals) * ConversionFactor EVMCoinDecimals.

Definition EmptyCodeHash : Hash := Keccak256 "".
Definition IsEmptyCodeHash (h : Hash) : bool := bool_decide (h = EmptyCodeHash).

End scaling.

(** [statedb.Account].  A code hash is a byte slice in the code, but only ever
    the 32 bytes of a hash. *)
Record Account := mkAccount {
  Nonce : Z;
  Balance : Z;
  CodeHash : Hash;
}.

Definition NewEmptyAccount `{EvmEnv} : Account := mkAccount 0 0 EmptyCodeHash.
Definition IsContract `{EvmEnv} (acct : Account) : bool := negb (IsEmptyCodeHash (CodeHash acct)).

(** The interface [Keeper] of statedb/interfaces.go over store contexts [C].
    [ForEachStorage] lists the pairs it hands to its callback, in order. *)
Class StateKeeper (C : Type) := {
  GetAccount : C → Address → option Account;
  KGetState : C → Address → Hash → Hash;
  KGetCode : C → Hash → option string;
  KForEachStorage : C → Address → list (Hash * Hash);
  SetAccount : C → Address → Account → result unit * C;
  DeleteState : C → Address → Hash → C;
  KSetState : C → Address → Hash → string → C;
  DeleteCode : C → Hash → C;
  KSetCode : C → Hash → string → C;
  DeleteAccount : C → Address → result unit * C;
}.

(** ** Access list (access_list.go) *)
Record accessList := mkAccessList {
  addresses : gmap Address Z;   (** index into [slots], or -1 *)
  slots : list (gset Hash);
}.

Definition newAccessList : accessList := mkAccessList ∅ [].

Definition ContainsAddress (al : accessList) (a : Address) : bool :=
  bool_decide (is_Some (addresses al !! a)).

(** [al.slots[idx]]: a panic out of range. *)
Definition slotsAt (al : accessList) (idx : Z) : result (gset Hash) :=
  if idx <? 0 then Err (Plain "index out of range")
  else match slots al !! Z.to_nat idx with
       | Some m => Ok m
       | None => Err (Plain "index out of range")
       end.

Definition Contains (al : accessList) (a : Address) (slot : Hash) : result (bool * bool) :=
  match addresses al !! a with
  | None => Ok (false, false)
  | Some idx =>
      if idx =? -1 then Ok (true, false)
      else m ← slotsAt al idx; Ok (true, bool_decide (slot ∈ m))
  end.

Definition AddAddress (al : accessList) (a : Address) : bool * accessList :=
  match addresses al !! a with
  | Some _ => (false, al)
  | None => (true, mkAccessList (<[a := -1]> (addresses al)) (slots al))
  end.

(** A new slot map, appended at the end. *)
Definition addSlotMap (al : accessList) (a : Address) (slot : Hash) : accessList :=
  mkAccessList (<[a := Z.of_nat (length (slots al))]> (addresses al)) (slots al ++ [ {[slot]} ]).

Definition AddSlot (al : accessList) (a : Address) (slot : Hash)
    : result (bool * bool * accessList) :=
  match addresses al !! a with
  | None => Ok (true, true, addSlotMap al a slot)
  | Some idx =>
      if idx =? -1 then Ok (false, true, addSlotMap al a slot)
      else
        m ← slotsAt al idx;
        if bool_decide (slot ∈ m) then Ok (false, false, al)
        else Ok (false, true,
               mkAccessList (addresses al) (<[Z.to_nat idx := {[slot]} ∪ m]> (slots al)))
  end.

Definition DeleteSlot (al : accessList) (a : Address) (slot : Hash) : result accessList :=
  match addresses al !! a with
  | None => Err (Plain "reverting slot change, address not present in list")
  | Some idx =>
      m ← slotsAt al idx;
      let m' := m ∖ {[slot]} in
      if bool_decide (m' = ∅)
      then Ok (mkAccessList (<[a := -1]> (addresses al)) (take (Z.to_nat idx) (slots al)))
      else Ok (mkAccessList (addresses al) (<[Z.to_nat idx := m']> (slots al)))
  end.

Definition DeleteAddress (al : accessList) (a : Address) : accessList :=
  mkAccessList (delete a (addresses al)) (slots al).

(** ** State objects (state_object.go) *)
Abbreviation Storage := (gmap Hash Hash) (only parsing).

Record stateObject := mkObject {
  account : Account;
  code : option string;        (** [None]: nil, not loaded *)
  originStorage : Storage;
  dirtyStorage : Storage;
  address : Address;
  dirtyCode : bool;
  suicided : bool;
}.

(** [newObject]; the zero [Account{}] becomes [NewEmptyAccount]. *)
Definition newObject (a : Address) (acct : Account) : stateObject :=
  mkObject acct None ∅ ∅ a false false.

Definition empty `{EvmEnv} (o : stateObject) : bool :=
  (Nonce (account o) =? 0) && (Balance (account o) =? 0) && IsEmptyCodeHash (CodeHash (account o)).

Definition with_account (f : Account → Account) (o : stateObject) : stateObject :=
  mkObject (f (account o)) (code o) (originStorage o) (dirtyStorage o) (address o)
    (dirtyCode o) (suicided o).

Definition setBalance (amount : Z) : stateObject → stateObject :=
  with_account (fun ac => mkAccount (Nonce ac) amount (CodeHash ac)).
Definition setNonce (nonce : Z) : stateObject → stateObject :=
  with_account (fun ac => mkAccount nonce (Balance ac) (CodeHash ac)).
Definition setCode (codeHash : Hash) (c : option string) (o : stateObject) : stateObject :=
  mkObject (mkAccount (Nonce (account o)) (Balance (account o)) codeHash) c
    (originStorage o) (dirtyStorage o) (address o) true (suicided o).
Definition setState (key value : Hash) (o : stateObject) : stateObject :=
  mkObject (account o) (code o) (originStorage o) (<[key := value]> (dirtyStorage o))
    (address o) (dirtyCode o) (suicided o).
Definition setSuicided (b : bool) (o : stateObject) : stateObject :=
  mkObject (account o) (code o) (originStorage o) (dirtyStorage o) (address o) (dirtyCode o) b.
Definition markSuicided : stateObject → stateObject := setSuicided true.

(** [Storage.SortedKeys] and [journal.sortedDirties]: keys in byte order. *)
Definition hash_le (h h' : Hash) : Prop := string_le (Bytes h) (Bytes h').
#[export] Instance hash_le_dec : RelDecision hash_le.
Proof. intros h h'. unfold hash_le. apply _. Defined.
Definition SortedKeys (s : Storage) : list Hash := merge_sort hash_le (map fst (map_to_list s)).

(** ** Journal entries (journal.go) *)
Inductive JournalEntry (C : Type) : Type :=
  | createObjectChange (a : Address)
  | resetObjectChange (prev : stateObject)
  | suicideChange (a : Address) (prev : bool) (prevbalance : Z)
  | balanceChange (a : Address) (prev : Z)
  | nonceChange (a : Address) (prev : Z)
  | storageChange (a : Address) (key prevalue : Hash)
  | codeChange (a : Address) (prevcode : option string) (prevhash : Hash)
  | refundChange (prev : Z)
  | addLogChange
  | accessListAddAccountChange (a : Address)
  | accessListAddSlotChange (a : Address) (slot : Hash)
  | precompileCallChange (multiStore : C).
Arguments createObjectChange {C}.
Arguments resetObjectChange {C}.
Arguments suicideChange {C}.
Arguments balanceChange {C}.
Arguments nonceChange {C}.
Arguments storageChange {C}.
Arguments codeChange {C}.
Arguments refundChange {C}.
Arguments addLogChange {C}.
Arguments accessListAddAccountChange {C}.
Arguments accessListAddSlotChange {C}.
Arguments precompileCallChange {C}.

Definition Dirtied {C} (e : JournalEntry C) : option Address :=
  match e with
  | createObjectChange a | suicideChange a _ _ | balanceChange a _ | nonceChange a _
  | storageChange a _ _ | codeChange a _ _ => Some a
  | _ => None
  end.

(** ** The state (statedb.go, config.go) *)
Record TxConfig := mkTxConfig {
  BlockHash : Hash; TxHash : Hash; TxIndex : Z; LogIndex : Z;
}.

Record Log := mkLog {
  logAddress : Address; Topics : list Hash; Data : string;
  logTxHash : Hash; logBlockHash : Hash; logTxIndex : Z; Index : Z;
}.

Record revision := mkRevision { id : Z; journalIndex : nat }.

Record StateDB (C : Type) := mkStateDB {
  ctx : C;
  cacheCtx : option C;
  entries : list (JournalEntry C);
  dirties : gmap Address Z;
  validRevisions : list revision;
  nextRevisionID : Z;
  stateObjects : gmap Address stateObject;
  txConfig : TxConfig;
  refund : Z;
  logs : list Log;
  sAccessList : accessList;
  precompileCallsCounter : Z;
}.
Arguments mkStateDB {C}.
Arguments ctx {C}.
Arguments cacheCtx {C}.
Arguments entries {C}.
Arguments dirties {C}.
Arguments validRevisions {C}.
Arguments nextRevisionID {C}.
Arguments stateObjects {C}.
Arguments txConfig {C}.
Arguments refund {C}.
Arguments logs {C}.
Arguments sAccessList {C}.
Arguments precompileCallsCounter {C}.

Section StateDB.
Context `{EvmEnv} {C : Type} `{StateKeeper C}.
Implicit Types (s : StateDB C) (a : Address) (o : stateObject).

Definition set_ctx (c : C) s := mkStateDB c (cacheCtx s) (entries s) (dirties s)
  (validRevisions s) (nextRevisionID s) (stateObjects s) (txConfig s) (refund s) (logs s)
  (sAccessList s) (precompileCallsCounter s).
Definition set_cache (c : option C) s := mkStateDB (ctx s) c (entries s) (dirties s)
  (validRevisions s) (nextRevisionID s) (stateObjects s) (txConfig s) (refund s) (logs s)
  (sAccessList s) (precompileCallsCounter s).
Definition set_entries (es : list (JournalEntry C)) s := mkStateDB (ctx s) (cacheCtx s) es
  (dirties s) (validRevisions s) (nextRevisionID s) (stateObjects s) (txConfig s) (refund s)
  (logs s) (sAccessList s) (precompileCallsCounter s).
Definition set_dirties (d : gmap Address Z) s := mkStateDB (ctx s) (cacheCtx s) (entries s) d
  (validRevisions s) (nextRevisionID s) (stateObjects s) (txConfig s) (refund s) (logs s)
  (sAccessList s) (precompileCallsCounter s).
Definition set_revisions (rs : list revision) (next : Z) s := mkStateDB (ctx s) (cacheCtx s)
  (entries s) (dirties s) rs next (stateObjects s) (txConfig s) (refund s) (logs s)
  (sAccessList s) (precompileCallsCounter s).
Definition set_objects (os : gmap Address stateObject) s := mkStateDB (ctx s) (cacheCtx s)
  (entries s) (dirties s) (validRevisions s) (nextRevisionID s) os (txConfig s) (refund s)
  (logs s) (sAccessList s) (precompileCallsCounter s).
Definition set_refund (r : Z) s := mkStateDB (ctx s) (cacheCtx s) (entries s) (dirties s)
  (validRevisions s) (nextRevisionID s) (stateObjects s) (txConfig s) r (logs s)
  (sAccessList s) (precompileCallsCounter s).
Definition set_logs (ls : list Log) s := mkStateDB (ctx s) (cacheCtx s) (entries s) (dirties s)
  (validRevisions s) (nextRevisionID s) (stateObjects s) (txConfig s) (refund s) ls
  (sAccessList s) (precompileCallsCounter s).
Definition set_accessList (al : accessList) s := mkStateDB (ctx s) (cacheCtx s) (entries s)
  (dirties s) (validRevisions s) (nextRevisionID s) (stateObjects s) (txConfig s) (refund s)
  (logs s) al (precompileCallsCounter s).
Definition set_counter (n : Z) s := mkStateDB (ctx s) (cacheCtx s) (entries s) (dirties s)
  (validRevisions s) (nextRevisionID s) (stateObjects s) (txConfig s) (refund s) (logs s)
  (sAccessList s) n.

(** [New] *)
Definition New (c : C) (cfg : TxConfig) : StateDB C :=
  mkStateDB c None [] ∅ [] 0 ∅ cfg 0 [] newAccessList 0.

(** [journal.append] *)
Definition append (e : JournalEntry C) s : StateDB C :=
  let s := set_entries (entries s ++ [e]) s in
  match Dirtied e with
  | Some a => set_dirties (<[a := default 0 (dirties s !! a) + 1]> (dirties s)) s
  | None => s
  end.

Definition setStateObject o s : StateDB C := set_objects (<[address o := o]> (stateObjects s)) s.

Definition getStateObject a s : option stateObject * StateDB C :=
  match stateObjects s !! a with
  | Some o => (Some o, s)
  | None =>
      match GetAccount (ctx s) a with
      | None => (None, s)
      | Some acct => let o := newObject a acct in (Some o, setStateObject o s)
      end
  end.

Definition createObject a s : stateObject * option stateObject * StateDB C :=
  let '(prev, s) := getStateObject a s in
  let newobj := newObject a NewEmptyAccount in
  let s := append (match prev with
                   | None => createObjectChange a
                   | Some p => resetObjectChange p
                   end) s in
  (newobj, prev, setStateObject newobj s).

Definition getOrNewStateObject a s : stateObject * StateDB C :=
  match getStateObject a s with
  | (Some o, s) => (o, s)
  | (None, s) => let '(o, _, s) := createObject a s in (o, s)
  end.

Definition CreateAccount a s : StateDB C :=
  let '(newObj, prev, s) := createObject a s in
  match prev with
  | Some p => setStateObject (setBalance (Balance (account p)) newObj) s
  | None => s
  end.

(** *** Methods of a state object *)

(** [Code]: loads and caches the code. *)
Definition objCode o s : option string * stateObject * StateDB C :=
  match code o with
  | Some c => (Some c, o, s)
  | None =>
      if IsEmptyCodeHash (CodeHash (account o)) then (None, o, s)
      else
        let c := KGetCode (ctx s) (CodeHash (account o)) in
        let o := mkObject (account o) c (originStorage o) (dirtyStorage o) (address o)
                   (dirtyCode o) (suicided o) in
        (c, o, setStateObject o s)
  end.

Definition objGetCommittedState o (key : Hash) s : Hash * stateObject * StateDB C :=
  match originStorage o !! key with
  | Some v => (v, o, s)
  | None =>
      let v := KGetState (ctx s) (address o) key in
      let o := mkObject (account o) (code o) (<[key := v]> (originStorage o)) (dirtyStorage o)
                 (address o) (dirtyCode o) (suicided o) in
      (v, o, setStateObject o s)
  end.

Definition objGetState o (key : Hash) s : Hash * stateObject * StateDB C :=
  match dirtyStorage o !! key with
  | Some v => (v, o, s)
  | None => objGetCommittedState o key s
  end.

Definition objSetBalance o (amount : Z) s : StateDB C :=
  setStateObject (setBalance amount o)
    (append (balanceChange (address o) (Balance (account o))) s).

Definition objAddBalance o (amount : Z) s : StateDB C :=
  let amount := AdjustExtraDecimalsBigInt amount in
  if amount =? 0 then s else objSetBalance o (Balance (account o) + amount) s.

Definition objSubBalance o (amount : Z) s : StateDB C :=
  let amount := AdjustExtraDecimalsBigInt amount in
  if amount =? 0 then s else objSetBalance o (Balance (account o) - amount) s.

Definition objSetNonce o (nonce : Z) s : StateDB C :=
  setStateObject (setNonce nonce o) (append (nonceChange (address o) (Nonce (account o))) s).

Definition objSetCode o (codeHash : Hash) (c : option string) s : StateDB C :=
  let '(prevcode, o, s) := objCode o s in
  setStateObject (setCode codeHash c o)
    (append (codeChange (address o) prevcode (CodeHash (account o))) s).

Definition objSetState o (key value : Hash) s : StateDB C :=
  let '(prev, o, s) := objGetState o key s in
  if bool_decide (prev = value) then s
  else setStateObject (setState key value o) (append (storageChange (address o) key prev) s).

(** *** Getters *)
Definition Exist a s : bool * StateDB C :=
  let '(o, s) := getStateObject a s in (bool_decide (is_Some o), s).

Definition Empty a s : bool * StateDB C :=
  let '(o, s) := getStateObject a s in (match o with None => true | Some o => empty o end, s).

Definition GetBalance a s : Z * StateDB C :=
  let '(o, s) := getStateObject a s in
  (match o with Some o => Balance (account o) | None => 0 end, s).

Definition GetNonce a s : Z * StateDB C :=
  let '(o, s) := getStateObject a s in
  (match o with Some o => Nonce (account o) | None => 0 end, s).

Definition GetCode a s : option string * StateDB C :=
  match getStateObject a s with
  | (Some o, s) => let '(c, _, s) := objCode o s in (c, s)
  | (None, s) => (None, s)
  end.

Definition GetCodeSize a s : Z * StateDB C :=
  let '(c, s) := GetCode a s in (Z.of_nat (String.length (default EmptyString c)), s).

Definition GetCodeHash a s : Hash * StateDB C :=
  let '(o, s) := getStateObject a s in
  (match o with Some o => CodeHash (account o) | None => zeroHash end, s).

Definition GetState a (key : Hash) s : Hash * StateDB C :=
  match getStateObject a s with
  | (Some o, s) => let '(v, _, s) := objGetState o key s in (v, s)
  | (None, s) => (zeroHash, s)
  end.

Definition GetCommittedState a (key : Hash) s : Hash * StateDB C :=
  match getStateObject a s with
  | (Some o, s) => let '(v, _, s) := objGetCommittedState o key s in (v, s)
  | (None, s) => (zeroHash, s)
  end.

Definition HasSuicided a s : bool * StateDB C :=
  let '(o, s) := getStateObject a s in
  (match o with Some o => suicided o | None => false end, s).

(** [ForEachStorage] with a callback that threads a state [X] and says whether to
    go on: dirty values take precedence; a hash is never an empty slice. *)
Fixpoint forEach {X : Type} (dirty : Storage) (cb : X → Hash → Hash → bool * X)
    (kvs : list (Hash * Hash)) (x : X) : X :=
  match kvs with
  | [] => x
  | (k, v) :: kvs =>
      let '(continue, x) := cb x k (default v (dirty !! k)) in
      if continue : bool then forEach dirty cb kvs x else x
  end.

Definition ForEachStorage {X : Type} a (cb : X → Hash → Hash → bool * X) (x : X) s : X * StateDB C :=
  match getStateObject a s with
  | (None, s) => (x, s)
  | (Some o, s) => (forEach (dirtyStorage o) cb (KForEachStorage (ctx s) a) x, s)
  end.

(** *** Setters *)
Definition AddBalance a (amount : Z) s : StateDB C :=
  let '(o, s) := getOrNewStateObject a s in objAddBalance o amount s.

Definition SubBalance a (amount : Z) s : StateDB C :=
  let '(o, s) := getOrNewStateObject a s in objSubBalance o amount s.

Definition SetNonce a (nonce : Z) s : StateDB C :=
  let '(o, s) := getOrNewStateObject a s in objSetNonce o nonce s.

Definition SetCode a (c : option string) s : StateDB C :=
  let '(o, s) := getOrNewStateObject a s in
  objSetCode o (Keccak256 (default EmptyString c)) c s.

Definition SetState a (key value : Hash) s : StateDB C :=
  let '(o, s) := getOrNewStateObject a s in objSetState o key value s.

Definition Suicide a s : bool * StateDB C :=
  match getStateObject a s with
  | (None, s) => (false, s)
  | (Some o, s) =>
      let s := append (suicideChange a (suicided o) (Balance (account o))) s in
      (true, setStateObject (setBalance 0 (markSuicided o)) s)
  end.

Definition AddLog (l : Log) s : StateDB C :=
  let s := append addLogChange s in
  let cfg := txConfig s in
  set_logs (logs s ++ [mkLog (logAddress l) (Topics l) (Data l) (TxHash cfg) (BlockHash cfg)
                         (TxIndex cfg) (u64 (LogIndex cfg + Z.of_nat (length (logs s))))]) s.

Definition AddRefund (gas : Z) s : StateDB C :=
  let s := append (refundChange (refund s)) s in set_refund (u64 (refund s + gas)) s.

Definition SubRefund (gas : Z) s : result (StateDB C) :=
  let s := append (refundChange (refund s)) s in
  if refund s <? gas then Err (Plain "Refund counter below zero")
  else Ok (set_refund (refund s - gas) s).

Definition AddAddressToAccessList a s : StateDB C :=
  let '(changed, al) := AddAddress (sAccessList s) a in
  let s := set_accessList al s in
  if changed : bool then append (accessListAddAccountChange a) s else s.

Definition AddSlotToAccessList a (slot : Hash) s : result (StateDB C) :=
  '(addrMod, slotMod, al) ← AddSlot (sAccessList s) a slot;
  let s := set_accessList al s in
  let s := if addrMod : bool then append (accessListAddAccountChange a) s else s in
  Ok (if slotMod : bool then append (accessListAddSlotChange a slot) s else s).

(** An [ethtypes.AccessTuple]. *)
Definition addTuple (el : Address * list Hash) (r : result (StateDB C)) : result (StateDB C) :=
  s ← r;
  foldl (fun r key => s ← r; AddSlotToAccessList el.1 key s)
    (Ok (AddAddressToAccessList el.1 s)) el.2.

Definition PrepareAccessList (sender : Address) (dst : option Address)
    (precompiles : list Address) (list : list (Address * list Hash)) s : result (StateDB C) :=
  let s := AddAddressToAccessList sender s in
  let s := match dst with Some d => AddAddressToAccessList d s | None => s end in
  let s := foldl (fun s a => AddAddressToAccessList a s) s precompiles in
  foldl (fun r el => addTuple el r) (Ok s) list.

Definition AddressInAccessList a s : bool := ContainsAddress (sAccessList s) a.
Definition SlotInAccessList a (slot : Hash) s : result (bool * bool) := Contains (sAccessList s) a slot.

(** *** Snapshots *)
Definition Snapshot s : Z * StateDB C :=
  let i := nextRevisionID s in
  (i, set_revisions (validRevisions s ++ [mkRevision i (length (entries s))])
        (nextRevisionID s + 1) s).

(** The entries' [Revert]; a nil object is a panic. *)
Definition withObject a (f : stateObject → stateObject) s : result (StateDB C) :=
  match getStateObject a s with
  | (None, _) => Err (Plain "nil pointer dereference")
  | (Some o, s) => Ok (setStateObject (f o) s)
  end.

Definition Revert (e : JournalEntry C) s : result (StateDB C) :=
  match e with
  | createObjectChange a => Ok (set_objects (delete a (stateObjects s)) s)
  | resetObjectChange prev => Ok (setStateObject prev s)
  | suicideChange a prev prevbalance =>
      match getStateObject a s with
      | (None, s) => Ok s
      | (Some o, s) => Ok (setStateObject (setBalance prevbalance (setSuicided prev o)) s)
      end
  | balanceChange a prev => withObject a (setBalance prev) s
  | nonceChange a prev => withObject a (setNonce prev) s
  | storageChange a key prevalue => withObject a (setState key prevalue) s
  | codeChange a prevcode prevhash => withObject a (setCode prevhash prevcode) s
  | refundChange prev => Ok (set_refund prev s)
  | addLogChange =>
      match logs s with
      | [] => Err (Plain "slice bounds out of range")
      | _ => Ok (set_logs (take (length (logs s) - 1) (logs s)) s)
      end
  | accessListAddAccountChange a => Ok (set_accessList (DeleteAddress (sAccessList s) a) s)
  | accessListAddSlotChange a slot =>
      al ← DeleteSlot (sAccessList s) a slot; Ok (set_accessList al s)
  | precompileCallChange multiStore => Ok (set_cache (Some multiStore) s)
  end.

(** One round of the loop of [journal.Revert]. *)
Definition dropDirty (e : JournalEntry C) s : StateDB C :=
  match Dirtied e with
  | None => s
  | Some a =>
      let n := default 0 (dirties s !! a) - 1 in
      set_dirties (if n =? 0 then delete a (dirties s) else <[a := n]> (dirties s)) s
  end.

Fixpoint revertLoop (es : list (JournalEntry C)) s : result (StateDB C) :=
  match es with
  | [] => Ok s
  | e :: es => s ← Revert e s; revertLoop es (dropDirty e s)
  end.

(** [journal.Revert]: [es] from the last entry down to index [snapshot]. *)
Definition journalRevert (snapshot : nat) s : result (StateDB C) :=
  s ← revertLoop (rev (drop snapshot (entries s))) s;
  Ok (set_entries (take snapshot (entries s)) s).

(** [sort.Search]: the least index whose revision id is at least [revid]. *)
Fixpoint search (revid : Z) (rs : list revision) : nat :=
  match rs with
  | [] => O
  | r :: rs => if revid <=? id r then O else S (search revid rs)
  end.

Definition RevertToSnapshot (revid : Z) s : result (StateDB C) :=
  let idx := search revid (validRevisions s) in
  match validRevisions s !! idx with
  | None => Err (Plain "revision id cannot be reverted")
  | Some r =>
      guard! id r =? revid else Plain "revision id cannot be reverted";
      s ← journalRevert (journalIndex r) s;
      Ok (set_revisions (take idx (validRevisions s)) (nextRevisionID s) s)
  end.

(** *** Commit *)
Definition sortedDirties s : list Address :=
  merge_sort string_le (map fst (map_to_list (dirties s))).

(** One dirty storage slot.  The value's bytes are never empty. *)
Definition commitSlot a (dirty : Storage) (c : C) (key : Hash) : C :=
  let valueBytes := Bytes (default zeroHash (dirty !! key)) in
  if (String.length valueBytes =? 0)%nat then DeleteState c a key
  else KSetState c a key valueBytes.

Definition commitCode o (c : C) : C :=
  match code o with
  | Some code =>
      if dirtyCode o then
        if (String.length code =? 0)%nat then DeleteCode c (CodeHash (account o))
        else KSetCode c (CodeHash (account o)) code
      else c
  | None => c
  end.

Definition commitObject o (c : C) : result unit * C :=
  if suicided o then DeleteAccount c (address o)
  else
    match SetAccount (commitCode o c) (address o) (account o) with
    | (Err e, c) => (Err e, c)
    | (Ok _, c) => (Ok tt, foldl (commitSlot (address o) (dirtyStorage o)) c (SortedKeys (dirtyStorage o)))
    end.

Fixpoint commitLoop s (dirty : list Address) (c : C) : result unit * C :=
  match dirty with
  | [] => (Ok tt, c)
  | a :: dirty =>
      match stateObjects s !! a with
      | None => (Err (Plain "nil pointer dereference"), c)
      | Some o =>
          match commitObject o c with
          | (Err e, c) => (Err e, c)
          | (Ok _, c) => commitLoop s dirty c
          end
      end
  end.

Definition commitWithCtx s (c : C) : result unit * C := commitLoop s (sortedDirties s) c.

(** [writeCache] makes the transaction context show what [cacheCtx] showed. *)
Definition Commit s : result unit * StateDB C :=
  let c := default (ctx s) (cacheCtx s) in
  let '(r, c) := commitWithCtx s c in (r, set_ctx c s).

(** *** Precompile calls

    [GetCacheContext] and [MultiStoreSnapshot]; a context always has a multi
    store here. *)
Definition cache s : StateDB C := set_cache (Some (ctx s)) s.

Definition GetCacheContext s : C * StateDB C :=
  match cacheCtx s with
  | Some c => (c, s)
  | None => (ctx s, cache s)
  end.

Definition MultiStoreSnapshot s : C * StateDB C := GetCacheContext s.

Definition CommitWithCacheCtx s : result unit * StateDB C :=
  match cacheCtx s with
  | None => (Err (Plain "nil pointer dereference"), s)
  | Some c => let '(r, c) := commitWithCtx s c in (r, set_cache (Some c) s)
  end.

Definition MaxPrecompileCalls : Z := 7.

Definition AddPrecompileFn a (cms : C) s : result unit * StateDB C :=
  let '(_, s) := getOrNewStateObject a s in
  let s := append (precompileCallChange cms) s in
  let s := set_counter ((precompileCallsCounter s + 1) mod 2 ^ 8) s in
  (if MaxPrecompileCalls <? precompileCallsCounter s
   then Err (Plain "max calls to precompiles reached") else Ok tt, s).

(** *** precompiles/common/precompile.go *)
Inductive Operation := Sub | Add.

Record balanceChangeEntry := mkBalanceChangeEntry {
  beAccount : Address; beAmount : Z; beOp : Operation;
}.

Definition applyEntry s (e : balanceChangeEntry) : StateDB C :=
  match beOp e with
  | Sub => SubBalance (beAccount e) (beAmount e) s
  | Add => AddBalance (beAccount e) (beAmount e) s
  end.

Definition AddJournalEntries a (journalEntries : list balanceChangeEntry) (snapshot : C) s
    : result unit * StateDB C :=
  AddPrecompileFn a snapshot (foldl applyEntry s journalEntries).

(** [RunSetup] up to the decoding of the call: the context the precompile runs on
    is [cacheCtx] of the state it leaves; the first component is the snapshot. *)
Definition RunSetup s : result C * StateDB C :=
  let '(_, s) := GetCacheContext s in
  let '(snapshot, s) := MultiStoreSnapshot s in
  match CommitWithCacheCtx s with
  | (Err e, s) => (Err e, s)
  | (Ok _, s) => (Ok snapshot, s)
  end.

(** The shape every [Run] has (atox.go, bridgeadapter.go, staking.go, ...): setup,
    the method [m] on the cache context, which also says which balances it moved,
    and on success the journal entries.  A method that fails leaves what it has
    written so far in the cache context. *)
Definition Run a (m : C → result (list balanceChangeEntry) * C) s : result unit * StateDB C :=
  match RunSetup s with
  | (Err e, s) => (Err e, s)
  | (Ok snapshot, s) =>
      let '(r, c) := m (default (ctx s) (cacheCtx s)) in
      let s := set_cache (Some c) s in
      match r with
      | Err e => (Err e, s)
      | Ok es => AddJournalEntries a es snapshot s
      end
  end.

End StateDB.
