(* ===== verification/EvmJournal.v ===== *)
(** * x/evm/statedb: reverting to a snapshot

    Two states are equivalent ([≡]) when no getter and no later revert tells them
    apart: caches may differ, the accounts they show may not.  [undo s0 es s] says
    that reverting the entries [es] (last one first) leads from [s] to a state
    equivalent to [s0].  Every operation extends the journal by entries that undo
    it, so undoing composes along any run, nested snapshots and precompile calls
    included. *)

From stdpp Require Import gmap strings list sorting.
From Stdlib Require Import ZArith Lia.
From S2P Require Import Prelude EvmStateDB.

Open Scope Z_scope.

Section journal.
Context `{EvmEnv} {C : Type} `{StateKeeper C}.
Implicit Types (s t : StateDB C) (a : Address) (o : stateObject) (c : C) (e : JournalEntry C).

(** ** What a state shows *)
Definition codeView c o : option string :=
  match code o with
  | Some x => Some x
  | None => if IsEmptyCodeHash (CodeHash (account o)) then None
            else KGetCode c (CodeHash (account o))
  end.

Definition stateView c o (k : Hash) : Hash :=
  default (default (KGetState c (address o) k) (originStorage o !! k)) (dirtyStorage o !! k).

Definition lookupObj s a : option stateObject :=
  match stateObjects s !! a with
  | Some o => Some o
  | None => newObject a <$> GetAccount (ctx s) a
  end.

Definition obj_equiv c o o' : Prop :=
  address o = address o' ∧ account o = account o' ∧ suicided o = suicided o' ∧
  codeView c o = codeView c o' ∧ ∀ k, stateView c o k = stateView c o' k.

#[export] Instance obj_equiv_equivalence c : Equivalence (obj_equiv c).
Proof.
split.
- intros o. unfold obj_equiv. by split_and!.
- intros o o' (? & ? & ? & ? & ?). unfold obj_equiv. by split_and!.
- intros o1 o2 o3 (? & ? & ? & ? & E1) (? & ? & ? & ? & E2).
  unfold obj_equiv. split_and!; congruence.
Qed.

(** The contract storage context: the transaction's, or the one of the precompile
    calls once there is one. *)
Definition storeCtx s : C := default (ctx s) (cacheCtx s).

#[export] Instance stateDB_equiv : Equiv (StateDB C) := fun s t =>
  ctx s = ctx t ∧ storeCtx s = storeCtx t ∧ txConfig s = txConfig t ∧
  refund s = refund t ∧ logs s = logs t ∧ sAccessList s = sAccessList t ∧
  ∀ a, option_Forall2 (obj_equiv (ctx s)) (lookupObj s a) (lookupObj t a).

#[export] Instance stateDB_equivalence : Equivalence (≡@{StateDB C}).
Proof.
split.
- intros s. by repeat split.
- intros s t (E1 & E2 & E3 & E4 & E5 & E6 & E7). repeat split; try done.
  intros a. rewrite <- E1. by symmetry.
- intros s t u (E1 & E2 & E3 & E4 & E5 & E6 & E7) (F1 & F2 & F3 & F4 & F5 & F6 & F7).
  repeat split; try congruence. intros a. rewrite <- E1 in F7. by transitivity (lookupObj t a).
Qed.

(** ** Well-formed states *)
Definition accessList_wf (al : accessList) : Prop :=
  (∀ a i, addresses al !! a = Some i → i = -1 ∨ 0 <= i < Z.of_nat (length (slots al))) ∧
  Forall (fun m : gset Hash => m ≠ ∅) (slots al).

Definition account_ok (ac : Account) : Prop :=
  (ConversionFactor EVMCoinDecimals | Balance ac).

(** Storage values and code loaded from the store are what the store holds. *)
Definition caches_ok c o : Prop :=
  (∀ k v, originStorage o !! k = Some v → v = KGetState c (address o) k) ∧
  (∀ x, code o = Some x → dirtyCode o = false → KGetCode c (CodeHash (account o)) = Some x).

Definition object_wf c a o : Prop :=
  address o = a ∧ caches_ok c o ∧ account_ok (account o).

(** The type invariant of the state. *)
Record wf s : Prop := {
  wf_objects a o : lookupObj s a = Some o → object_wf (ctx s) a o;
  wf_accessList : accessList_wf (sAccessList s);
}.

Lemma newObject_caches c a ac : caches_ok c (newObject a ac).
Proof. split; [|done]. intros k v Hk. simpl in Hk. by rewrite lookup_empty in Hk. Qed.

Lemma newObject_wf c a ac : account_ok ac → object_wf c a (newObject a ac).
Proof. intros Hac. split_and!; [done|apply newObject_caches|done]. Qed.

Lemma lookupObj_set o s a :
  lookupObj (setStateObject o s) a = if decide (a = address o) then Some o else lookupObj s a.
Proof.
unfold lookupObj, setStateObject; simpl. case_decide as E.
- subst. by rewrite lookup_insert_eq.
- by rewrite lookup_insert_ne.
Qed.

Lemma lookupObj_append e s a : lookupObj (append e s) a = lookupObj s a.
Proof. unfold append, lookupObj. by destruct (Dirtied e). Qed.

Lemma lookupObj_dropDirty e s a : lookupObj (dropDirty e s) a = lookupObj s a.
Proof. unfold dropDirty, lookupObj. by destruct (Dirtied e). Qed.

(** What [append] leaves alone. *)
Lemma append_frame e s :
  ctx (append e s) = ctx s ∧ cacheCtx (append e s) = cacheCtx s ∧
  txConfig (append e s) = txConfig s ∧ refund (append e s) = refund s ∧
  logs (append e s) = logs s ∧ sAccessList (append e s) = sAccessList s ∧
  stateObjects (append e s) = stateObjects s ∧
  validRevisions (append e s) = validRevisions s ∧
  nextRevisionID (append e s) = nextRevisionID s ∧ entries (append e s) = entries s ++ [e].
Proof. unfold append. by destruct (Dirtied e). Qed.

Lemma append_equiv e s : append e s ≡ s.
Proof.
destruct (append_frame e s) as (E1 & E2 & E3 & E4 & E5 & E6 & _).
assert (∀ a, option_Forall2 (obj_equiv (ctx (append e s))) (lookupObj (append e s) a) (lookupObj s a)).
{ intros a. rewrite lookupObj_append. reflexivity. }
repeat (split; [first [done | unfold storeCtx; congruence]|]). done.
Qed.

Lemma dropDirty_equiv e s : dropDirty e s ≡ s.
Proof.
assert (∀ a, option_Forall2 (obj_equiv (ctx (dropDirty e s))) (lookupObj (dropDirty e s) a) (lookupObj s a)).
{ intros a. rewrite lookupObj_dropDirty. reflexivity. }
repeat (split; [unfold dropDirty, storeCtx; by destruct (Dirtied e)|]). done.
Qed.

(** Well-formedness along an equivalence: only the caches need a check. *)
Lemma wf_equiv s t :
  s ≡ t → wf s →
  (∀ a o, lookupObj t a = Some o → address o = a ∧ caches_ok (ctx t) o) → wf t.
Proof.
intros (E1 & _ & _ & _ & _ & E6 & E7) [Hs1 Hs2] Ht. split.
- intros a o Ho. specialize (E7 a). rewrite Ho in E7.
  destruct (lookupObj s a) as [o'|] eqn:Ho'; inversion E7 as [? ? E|]; subst.
  destruct (Hs1 a o' Ho') as (_ & _ & Hac). destruct E as (_ & Eac & _).
  destruct (Ht a o Ho). split_and!; [done|done|]. by rewrite <- Eac.
- by rewrite <- E6.
Qed.

Lemma append_wf e s : wf s → wf (append e s).
Proof.
intros Hwf. apply (wf_equiv s); [symmetry; apply append_equiv|done|].
intros a o. rewrite lookupObj_append. destruct (append_frame e s) as (-> & _).
intros Ho. by destruct (wf_objects s Hwf a o Ho) as (? & ? & _).
Qed.

Lemma dropDirty_wf e s : wf s → wf (dropDirty e s).
Proof.
intros Hwf. apply (wf_equiv s); [symmetry; apply dropDirty_equiv|done|].
intros a o. rewrite lookupObj_dropDirty. assert (ctx (dropDirty e s) = ctx s) as ->.
{ unfold dropDirty. by destruct (Dirtied e). }
intros Ho. by destruct (wf_objects s Hwf a o Ho) as (? & ? & _).
Qed.

(** ** Loading an object *)
Lemma getStateObject_spec a s :
  (getStateObject a s).1 = lookupObj s a ∧
  (∀ o, lookupObj s a = Some o → stateObjects (getStateObject a s).2 !! a = Some o) ∧
  (∀ b, lookupObj (getStateObject a s).2 b = lookupObj s b).
Proof.
unfold getStateObject. destruct (stateObjects s !! a) as [o|] eqn:Eo.
- unfold lookupObj. rewrite Eo. split_and!; naive_solver.
- destruct (GetAccount (ctx s) a) as [ac|] eqn:Ea; simpl; unfold lookupObj at 1 2; rewrite Eo, Ea; simpl.
  + split_and!; [done|intros o [= <-]; apply lookup_insert_eq|].
    intros b. rewrite lookupObj_set. simpl. case_decide as E; [|done]. subst b.
    unfold lookupObj. by rewrite Eo, Ea.
  + split_and!; naive_solver.
Qed.

(** Fields no load touches. *)
Definition same_fields s t : Prop :=
  ctx t = ctx s ∧ cacheCtx t = cacheCtx s ∧ entries t = entries s ∧ dirties t = dirties s ∧
  validRevisions t = validRevisions s ∧ nextRevisionID t = nextRevisionID s ∧
  txConfig t = txConfig s ∧ refund t = refund s ∧ logs t = logs s ∧
  sAccessList t = sAccessList s ∧ precompileCallsCounter t = precompileCallsCounter s.

Lemma setStateObject_fields o s : same_fields s (setStateObject o s).
Proof. by repeat split. Qed.

Lemma getStateObject_fields a s : same_fields s (getStateObject a s).2.
Proof. unfold getStateObject. repeat destr_match; by repeat split. Qed.

Lemma same_fields_equiv s t :
  same_fields s t → (∀ a, option_Forall2 (obj_equiv (ctx s)) (lookupObj s a) (lookupObj t a)) → s ≡ t.
Proof.
intros (? & E & ? & ? & ? & ? & ? & ? & ? & ? & ?) Hl. repeat split; try done.
unfold storeCtx. by rewrite E; f_equal.
Qed.

Lemma getStateObject_equiv a s : s ≡ (getStateObject a s).2.
Proof.
apply same_fields_equiv; [apply getStateObject_fields|]. intros b.
destruct (getStateObject_spec a s) as (_ & _ & ->). reflexivity.
Qed.

Lemma getStateObject_wf a s : wf s → wf (getStateObject a s).2.
Proof.
intros Hwf. apply (wf_equiv s); [apply getStateObject_equiv|done|].
intros b o. destruct (getStateObject_spec a s) as (_ & _ & ->).
destruct (getStateObject_fields a s) as (-> & _). intros Ho.
by destruct (wf_objects s Hwf b o Ho) as (? & ? & _).
Qed.

(** ** Replacing the object at its address *)
Lemma setStateObject_wf o s :
  wf s → object_wf (ctx s) (address o) o → wf (setStateObject o s).
Proof.
intros [H1 H2] Ho. split; [|done]. intros a o'. rewrite lookupObj_set.
case_decide; [intros [= <-]; by subst|apply H1].
Qed.

Lemma setStateObject_equiv o o' s :
  lookupObj s (address o) = Some o' → obj_equiv (ctx s) o' o → s ≡ setStateObject o s.
Proof.
intros Hl Ho. apply same_fields_equiv; [apply setStateObject_fields|]. intros a.
rewrite lookupObj_set. case_decide; [subst a; rewrite Hl; by constructor|reflexivity].
Qed.

Lemma setStateObject_proper o o' s t :
  s ≡ t → obj_equiv (ctx s) o o' → setStateObject o s ≡ setStateObject o' t.
Proof.
intros (E1 & E2 & E3 & E4 & E5 & E6 & E7) Ho. repeat split; try done.
intros a. rewrite !lookupObj_set. destruct Ho as (Ea & Ho). rewrite <- Ea.
case_decide; [constructor; by split|apply E7].
Qed.

(** ** [Revert] respects equivalence *)
Lemma obj_equiv_setBalance c x o o' : obj_equiv c o o' → obj_equiv c (setBalance x o) (setBalance x o').
Proof.
intros (E1 & E2 & E3 & E4 & E5). unfold obj_equiv; simpl. rewrite E2.
by split_and!.
Qed.

Lemma obj_equiv_setNonce c x o o' : obj_equiv c o o' → obj_equiv c (setNonce x o) (setNonce x o').
Proof.
intros (E1 & E2 & E3 & E4 & E5). unfold obj_equiv; simpl. rewrite E2.
by split_and!.
Qed.

Lemma obj_equiv_setCode c h x o o' : obj_equiv c o o' → obj_equiv c (setCode h x o) (setCode h x o').
Proof. intros (E1 & E2 & E3 & E4 & E5). unfold obj_equiv; simpl. rewrite E2. by split_and!. Qed.

Lemma obj_equiv_setSuicided c b o o' : obj_equiv c o o' → obj_equiv c (setSuicided b o) (setSuicided b o').
Proof. intros (E1 & E2 & E3 & E4 & E5). unfold obj_equiv; simpl. by split_and!. Qed.

Lemma stateView_setState c k v o k' :
  stateView c (setState k v o) k' = if decide (k' = k) then v else stateView c o k'.
Proof.
unfold stateView; simpl. case_decide as E.
- subst. by rewrite lookup_insert_eq.
- by rewrite lookup_insert_ne.
Qed.

Lemma obj_equiv_setState c k v o o' : obj_equiv c o o' → obj_equiv c (setState k v o) (setState k v o').
Proof.
intros (E1 & E2 & E3 & E4 & E5). unfold obj_equiv; simpl. split_and!; try done.
intros k'. rewrite !stateView_setState. by case_decide.
Qed.

(** Functions on objects that keep the address and right caches. *)
Definition keeps_caches (f : stateObject → stateObject) : Prop :=
  ∀ c o, address (f o) = address o ∧ (caches_ok c o → caches_ok c (f o)).

Lemma setBalance_keeps x : keeps_caches (setBalance x).
Proof. done. Qed.
Lemma setNonce_keeps x : keeps_caches (setNonce x).
Proof. done. Qed.
Lemma setState_keeps k v : keeps_caches (setState k v).
Proof. done. Qed.
Lemma setSuicided_keeps b : keeps_caches (setSuicided b).
Proof. done. Qed.
Lemma setCode_keeps h x : keeps_caches (setCode h x).
Proof. intros c o. split; [done|]. intros [Ho _]. by split. Qed.
Hint Resolve setBalance_keeps setNonce_keeps setState_keeps setCode_keeps : atoshi.

Lemma lookup_equiv s t a o :
  s ≡ t → lookupObj s a = Some o → ∃ o', lookupObj t a = Some o' ∧ obj_equiv (ctx s) o o'.
Proof.
intros (_ & _ & _ & _ & _ & _ & E) Ho. specialize (E a). rewrite Ho in E.
inversion E; subst. eauto.
Qed.

Lemma modify_proper a f s t o :
  keeps_caches f → (∀ o o', obj_equiv (ctx s) o o' → obj_equiv (ctx s) (f o) (f o')) →
  s ≡ t → wf t → lookupObj s a = Some o → wf (setStateObject (f o) (getStateObject a s).2) →
  ∃ o', lookupObj t a = Some o' ∧
    setStateObject (f o) (getStateObject a s).2 ≡ setStateObject (f o') (getStateObject a t).2 ∧
    wf (setStateObject (f o') (getStateObject a t).2).
Proof.
intros Hf Hp Hst Ht Ho Hw. destruct (lookup_equiv s t a o Hst Ho) as (o' & Ho' & Ho2).
exists o'. split; [done|].
assert (E : setStateObject (f o) (getStateObject a s).2 ≡ setStateObject (f o') (getStateObject a t).2).
{ apply setStateObject_proper; [by rewrite <- !getStateObject_equiv|].
  destruct (getStateObject_fields a s) as (-> & _). by apply Hp. }
split; [done|]. apply (wf_equiv _ _ E Hw). intros b p Hb. rewrite lookupObj_set in Hb.
destruct (wf_objects t Ht a o' Ho') as (Ea & Eo & _). destruct (Hf (ctx t) o') as [F1 F2].
destruct (getStateObject_fields a t) as (Ec & _). simpl. rewrite Ec.
case_decide as Eb.
- injection Hb as <-. auto.
- destruct (getStateObject_spec a t) as (_ & _ & El). rewrite El in Hb.
  by destruct (wf_objects t Ht b p Hb) as (? & ? & _).
Qed.

Lemma withObject_unfold a f s :
  withObject a f s = match lookupObj s a with
                     | None => Err (Plain "nil pointer dereference")
                     | Some o => Ok (setStateObject (f o) (getStateObject a s).2)
                     end.
Proof.
unfold withObject. pose proof (getStateObject_spec a s) as (<- & _).
by destruct (getStateObject a s) as [[o|] s'].
Qed.

Lemma withObject_proper a f s t s' :
  keeps_caches f → (∀ o o', obj_equiv (ctx s) o o' → obj_equiv (ctx s) (f o) (f o')) →
  s ≡ t → wf t → withObject a f s = Ok s' → wf s' →
  ∃ t', withObject a f t = Ok t' ∧ s' ≡ t' ∧ wf t'.
Proof.
intros Hf Hp Hst Ht. rewrite !withObject_unfold. destruct (lookupObj s a) as [o|] eqn:Ho; [|done].
intros [= <-] Hw. destruct (modify_proper a f s t o Hf Hp Hst Ht Ho Hw) as (o' & -> & ?). eauto.
Qed.

Lemma objects_untouched_wf s t :
  wf s → stateObjects t = stateObjects s → ctx t = ctx s → accessList_wf (sAccessList t) → wf t.
Proof.
intros [H1 H2] Eo Ec Hal. split; [|done]. intros a o. unfold lookupObj. rewrite Eo, Ec.
apply H1.
Qed.

(** Reverting [e] leads equivalent states to equivalent states. *)
Definition revert_respects e : Prop := ∀ s t s',
  s ≡ t → wf t → Revert e s = Ok s' → wf s' →
  ∃ t', Revert e t = Ok t' ∧ s' ≡ t' ∧ wf t'.

Lemma create_respects a : revert_respects (createObjectChange a).
Proof.
intros s t s' (E1 & E2 & E3 & E4 & E5 & E6 & E7) Ht [= <-] Hw. eexists. split; [done|].
assert (E : set_objects (delete a (stateObjects s)) s ≡ set_objects (delete a (stateObjects t)) t).
{ repeat (split; [done|]). intros b. specialize (E7 b). unfold lookupObj in *; simpl.
  destruct (decide (b = a)) as [->|Hb].
  - rewrite !lookup_delete_eq, E1. reflexivity.
  - rewrite !lookup_delete_ne by done. done. }
split; [done|]. apply (wf_equiv _ _ E Hw). intros b p. simpl. unfold lookupObj; simpl.
destruct (decide (b = a)) as [->|Hb].
- rewrite lookup_delete_eq. destruct (GetAccount (ctx t) a) as [ac|]; [|done].
  intros [= <-]. split; [done|apply newObject_caches].
- rewrite lookup_delete_ne by done. intros Hp.
  by destruct (wf_objects t Ht b p Hp) as (? & ? & _).
Qed.

Lemma reset_respects prev : revert_respects (resetObjectChange prev).
Proof.
intros s t s' Hst Ht [= <-] Hw. eexists. split; [done|].
assert (E : setStateObject prev s ≡ setStateObject prev t) by (by apply setStateObject_proper).
split; [done|]. apply (wf_equiv _ _ E Hw). intros b p Hb. rewrite lookupObj_set in Hb.
case_decide as Eb.
- injection Hb as <-. subst b.
  destruct (wf_objects _ Hw (address prev) prev) as (_ & Ho & _).
  { rewrite lookupObj_set. by rewrite decide_True. }
  split; [done|]. destruct Hst as (E1 & _). simpl in *. by rewrite <- E1.
- by destruct (wf_objects t Ht b p Hb) as (? & ? & _).
Qed.

Lemma suicide_revert_unfold a prev x s :
  Revert (suicideChange a prev x) s =
  Ok match lookupObj s a with
     | None => (getStateObject a s).2
     | Some o => setStateObject (setBalance x (setSuicided prev o)) (getStateObject a s).2
     end.
Proof.
simpl. pose proof (getStateObject_spec a s) as (<- & _).
by destruct (getStateObject a s) as [[o|] s'].
Qed.

Lemma suicide_respects a prev x : revert_respects (suicideChange a prev x).
Proof.
intros s t s' Hst Ht. rewrite !suicide_revert_unfold. intros [= <-] Hw.
destruct (lookupObj s a) as [o|] eqn:Ho.
- destruct (modify_proper a (fun o => setBalance x (setSuicided prev o)) s t o)
    as (o' & -> & Hr); try done; [|eauto].
  intros ? ? Hoo. by apply obj_equiv_setBalance, obj_equiv_setSuicided.
- pose proof Hst as (_ & _ & _ & _ & _ & _ & E7). specialize (E7 a). rewrite Ho in E7.
  inversion E7 as [|Hn]. eexists. split; [done|]. split; [|by apply getStateObject_wf].
  by rewrite <- !getStateObject_equiv.
Qed.

Lemma flat_respects e (f : accessList → result accessList) (g : list Log → result (list Log))
    (h : Z → Z) (k : option C → option C) :
  (∀ s, Revert e s = al ← f (sAccessList s); l ← g (logs s);
                     Ok (set_cache (k (cacheCtx s)) (set_refund (h (refund s)) (set_logs l (set_accessList al s))))) →
  (∀ s t, storeCtx s = storeCtx t → ctx s = ctx t →
          default (ctx s) (k (cacheCtx s)) = default (ctx t) (k (cacheCtx t))) →
  revert_respects e.
Proof.
intros He Hk s t s' (E1 & E2 & E3 & E4 & E5 & E6 & E7) Ht. rewrite !He, <- E6, <- E5, <- E4.
destruct (f (sAccessList s)) as [al|]; simpl; [|done].
destruct (g (logs s)) as [l|]; simpl; [|done].
intros [= <-] Hw. eexists. split; [done|]. split.
- split; [done|]. split; [by apply (Hk s t)|]. by repeat (split; [done|]).
- by apply (objects_untouched_wf t); [done..|apply (wf_accessList _ Hw)].
Qed.

Lemma Revert_proper e : revert_respects e.
Proof.
destruct e.
- apply create_respects.
- apply reset_respects.
- apply suicide_respects.
- intros s t s' ? ? ? ?. eapply withObject_proper; eauto using obj_equiv_setBalance with atoshi.
- intros s t s' ? ? ? ?. eapply withObject_proper; eauto using obj_equiv_setNonce with atoshi.
- intros s t s' ? ? ? ?. eapply withObject_proper; eauto using obj_equiv_setState with atoshi.
- intros s t s' ? ? ? ?. eapply withObject_proper; eauto using obj_equiv_setCode with atoshi.
- by apply (flat_respects _ Ok Ok (fun _ => prev) (fun x => x)).
- apply (flat_respects _ Ok (fun l => match l with [] => Err (Plain "slice bounds out of range")
    | _ => Ok (take (length l - 1) l) end) (fun x => x) (fun x => x)); [|done]. intros s. simpl. by destruct (logs s).
- by apply (flat_respects _ (fun al => Ok (DeleteAddress al a)) Ok (fun x => x) (fun x => x)).
- apply (flat_respects _ (fun al => DeleteSlot al a slot) Ok (fun x => x) (fun x => x)); [|done].
  intros s. simpl. by destruct (DeleteSlot (sAccessList s) a slot).
- by apply (flat_respects _ Ok Ok (fun x => x) (fun _ => Some multiStore)).
Qed.
End journal.
