(* ===== verification/EvmRevert.v ===== *)
(** * x/evm/statedb: every operation can be undone

    [extends s s'] says that [s'] continues the journal of [s] by entries whose
    reversal leads back to [s], and that the journal's bookkeeping stays right.
    It is transitive, holds for every operation of the interface that go-ethereum
    calls, and is what [RevertToSnapshot] needs. *)

From stdpp Require Import gmap strings list sorting.
From Stdlib Require Import ZArith Lia.
From S2P Require Import Prelude EvmStateDB EvmJournal.

Open Scope Z_scope.

Section revert.
Context `{EvmEnv} {C : Type} `{StateKeeper C}.
Implicit Types (s t : StateDB C) (a : Address) (o : stateObject) (c : C) (e : JournalEntry C).

(** ** Undoing a list of entries, last one first *)
Inductive undo (s0 : StateDB C) : list (JournalEntry C) → StateDB C → Prop :=
  | undo_nil s : wf s → s ≡ s0 → undo s0 [] s
  | undo_cons e es s t : wf s → Revert e s = Ok t → undo s0 es t → undo s0 (e :: es) s.

Lemma undo_wf s0 es s : undo s0 es s → wf s.
Proof. by destruct 1. Qed.

Lemma undo_proper s0 es s : undo s0 es s → ∀ t, s ≡ t → wf t → undo s0 es t.
Proof.
induction 1 as [s Hs E|e es s s' Hs Hr Hu IH]; intros t Hst Ht.
- constructor; [done|]. by rewrite <- Hst.
- destruct (Revert_proper e s t s' Hst Ht Hr (undo_wf _ _ _ Hu)) as (t' & Hr' & Hst' & Ht').
  apply (undo_cons s0 e es t t'); auto.
Qed.

Lemma undo_app s0 s1 es1 es2 s : undo s1 es2 s → undo s0 es1 s1 → undo s0 (es2 ++ es1) s.
Proof.
intros H2 H1. induction H2 as [s Hs E|e es s s' Hs Hr Hu IH]; simpl.
- by apply (undo_proper s0 es1 s1).
- by apply (undo_cons s0 e _ s s').
Qed.

(** ** The journal's bookkeeping *)
Definition dirtyOf a e : Z := if decide (Dirtied e = Some a) then 1 else 0.
Definition count a (es : list (JournalEntry C)) : Z := sumZ (map (dirtyOf a) es).

Lemma count_app a l l' : count a (l ++ l') = count a l + count a l'.
Proof. unfold count. by rewrite map_app, sumZ_app. Qed.

Lemma count_nonneg a l : 0 <= count a l.
Proof.
apply sumZ_nonneg, Forall_forall. intros x (e & -> & _)%list_elem_of_fmap.
unfold dirtyOf. case_decide; lia.
Qed.

Lemma count_one a e : count a [e] = dirtyOf a e.
Proof. unfold count; simpl. lia. Qed.

(** An object created by the transaction was not touched before. *)
Inductive creates_fresh : list (JournalEntry C) → Prop :=
  | fresh_nil : creates_fresh []
  | fresh_snoc es e : creates_fresh es →
      (∀ a, e = createObjectChange a → count a es = 0) → creates_fresh (es ++ [e]).

Lemma creates_fresh_snoc_inv es e :
  creates_fresh (es ++ [e]) → creates_fresh es ∧ ∀ a, e = createObjectChange a → count a es = 0.
Proof. inversion 1 as [E|es' e' Hf Hc E]; [by destruct es|]. by apply app_inj_2 in E as [-> [= ->]]. Qed.

(** The journal [es] accounts for the dirty counts and the live objects of [s]. *)
Record journal_ok (es : list (JournalEntry C)) s : Prop := {
  j_dirties a : dirties s !! a = if count a es =? 0 then None else Some (count a es);
  j_fresh : creates_fresh es;
  j_live a : 0 < count a es → is_Some (stateObjects s !! a);
}.

Lemma journal_ok_load es s t :
  journal_ok es s → dirties t = dirties s →
  (∀ a, is_Some (stateObjects s !! a) → is_Some (stateObjects t !! a)) → journal_ok es t.
Proof. intros [J1 J2 J3] Ed Ho. split; [|done|]; intros a; [by rewrite Ed|]. intros Ha. auto. Qed.

Lemma journal_ok_append es e s t :
  journal_ok es s → dirties t = dirties (append e s) →
  (∀ a, is_Some (stateObjects s !! a) → is_Some (stateObjects t !! a)) →
  (∀ a, Dirtied e = Some a → is_Some (stateObjects t !! a)) →
  (∀ a, e = createObjectChange a → stateObjects s !! a = None) →
  journal_ok (es ++ [e]) t.
Proof.
intros [J1 J2 J3] Ed Ho Hd Hc. split.
- intros a. rewrite Ed, count_app, count_one. unfold append. simpl.
  pose proof (count_nonneg a es). unfold dirtyOf.
  destruct (Dirtied e) as [b|] eqn:E; simpl.
  + destruct (decide (b = a)) as [->|Hb].
    * rewrite lookup_insert_eq, decide_True by done. rewrite J1.
      destruct (count a es =? 0) eqn:E0; simpl; boolP; rewrite ?E0; [done|].
      by replace (count a es + 1 =? 0) with false by lia.
    * rewrite lookup_insert_ne, decide_False by naive_solver. by rewrite Z.add_0_r.
  + by rewrite Z.add_0_r.
- constructor; [done|]. intros a Ea. pose proof (count_nonneg a es).
  destruct (decide (0 < count a es)) as [Hp|]; [|lia].
  destruct (J3 a Hp) as [o Ho']. specialize (Hc a Ea). congruence.
- intros a. rewrite count_app, count_one. unfold dirtyOf. case_decide as E; [by auto|].
  intros. apply Ho, J3. lia.
Qed.

(** ** Extending the journal *)
Definition extends s t : Prop :=
  ctx t = ctx s ∧ validRevisions t = validRevisions s ∧ nextRevisionID t = nextRevisionID s ∧
  txConfig t = txConfig s ∧
  ∃ es, entries t = entries s ++ es ∧ undo s (rev es) t ∧
        (journal_ok (entries s) s → journal_ok (entries t) t).

Lemma extends_wf s t : extends s t → wf t.
Proof. intros (_ & _ & _ & _ & es & _ & Hu & _). by apply undo_wf in Hu. Qed.

Lemma extends_refl s : wf s → extends s s.
Proof.
intros. repeat (split; [done|]). exists []. rewrite app_nil_r. split_and!; [done| |done].
by constructor.
Qed.

Lemma extends_trans s t u : extends s t → extends t u → extends s u.
Proof.
intros (E1 & E2 & E3 & E4 & es & Ees & Hu & HJ) (F1 & F2 & F3 & F4 & fs & Efs & Fu & FJ).
split_and!; try congruence. exists (es ++ fs).
split; [by rewrite Efs, Ees, app_assoc|]. split; [|auto].
rewrite rev_app_distr. by apply (undo_app s t).
Qed.

(** Loads: equivalent states, more objects in memory. *)
Definition loads s t : Prop :=
  same_fields s t ∧ s ≡ t ∧ wf t ∧
  ∀ a, is_Some (stateObjects s !! a) → is_Some (stateObjects t !! a).

Lemma extends_load s t : loads s t → extends s t.
Proof.
intros ((F1 & F2 & F3 & F4 & F5 & F6 & F7 & _) & E & Hw & Ho).
repeat (split; [done|]). exists []. rewrite app_nil_r. split_and!; [done|by constructor|].
rewrite F3. intros HJ. by apply (journal_ok_load _ s).
Qed.

(** One entry. *)
Lemma extends_step e s t u :
  entries t = entries s ++ [e] → dirties t = dirties (append e s) → ctx t = ctx s →
  validRevisions t = validRevisions s → nextRevisionID t = nextRevisionID s →
  txConfig t = txConfig s →
  (∀ a, is_Some (stateObjects s !! a) → is_Some (stateObjects t !! a)) →
  (∀ a, Dirtied e = Some a → is_Some (stateObjects t !! a)) →
  (∀ a, e = createObjectChange a → stateObjects s !! a = None) →
  wf t → Revert e t = Ok u → u ≡ s → wf u → extends s t.
Proof.
intros E1 E2 E3 E4 E5 E5' E6 E7 E8 Hw Hr Hus Hu. repeat (split; [done|]). exists [e].
split; [done|]. split.
- apply (undo_cons s e [] t u); [done..|by constructor].
- rewrite E1. intros HJ. by apply (journal_ok_append _ _ s).
Qed.

Lemma set_back_equiv o p o' e s :
  address p = address o' → lookupObj s (address o') = Some o → obj_equiv (ctx s) p o →
  setStateObject p (setStateObject o' (append e s)) ≡ s.
Proof.
intros Ep Hl Hp. destruct (append_frame e s) as (F1 & F2 & F3 & F4 & F5 & F6 & _).
repeat (split; [first [done | unfold storeCtx; simpl; congruence]|]).
intros b. rewrite !lookupObj_set, lookupObj_append. simpl. rewrite F1, Ep.
case_decide; [subst; rewrite Hl; by constructor|reflexivity].
Qed.

(** An entry that replaces the object of a live account. *)
Lemma extends_modify e a o o' f s :
  wf s → stateObjects s !! a = Some o → Dirtied e = Some a →
  (∀ b, e ≠ createObjectChange b) →
  object_wf (ctx s) a o' →
  Revert e (setStateObject o' (append e s)) =
    Ok (setStateObject (f o') (setStateObject o' (append e s))) →
  keeps_caches f →
  obj_equiv (ctx s) (f o') o →
  extends s (setStateObject o' (append e s)).
Proof.
intros Hw Ho Hd He Hwo Hr Hf Hfe. destruct (Hf (ctx s) o') as [Hfa Hfo].
destruct (append_frame e s) as (F1 & F2 & F3 & F4 & F5 & F6 & F7 & F8 & F9 & F10).
assert (Hl : lookupObj s a = Some o) by (unfold lookupObj; by rewrite Ho).
assert (Hw1 : wf (setStateObject o' (append e s))).
{ apply setStateObject_wf; [by apply append_wf|]. rewrite F1. destruct Hwo as [Ea Hwo]. by rewrite Ea. }
assert (Hwf' : object_wf (ctx s) (address (f o')) (f o')).
{ destruct (wf_objects s Hw a o Hl) as (A1 & A2 & A3), Hfe as (_ & Eac & _).
  split_and!; [done| |by rewrite Eac]. by apply Hfo, Hwo. }
destruct Hwo as [Ea Hwo].
apply (extends_step e _ _ (setStateObject (f o') (setStateObject o' (append e s)))); try done.
- intros b Hb. simpl. rewrite F7.
  destruct (decide (b = address o')) as [->|Hne]; [rewrite lookup_insert_eq; eauto|by rewrite lookup_insert_ne].
- intros b. rewrite Hd. intros [= <-]. simpl. rewrite Ea, lookup_insert_eq. eauto.
- intros b Eb. by destruct (He b).
- apply (set_back_equiv o); [done|by rewrite Ea|done].
- apply setStateObject_wf; [done|]. simpl. by rewrite F1.
Qed.

(** ** Loads *)
Lemma getStateObject_loads a s : wf s → loads s (getStateObject a s).2.
Proof.
intros Hw. split_and!; [apply getStateObject_fields|apply getStateObject_equiv|by apply getStateObject_wf|].
intros b Hb. unfold getStateObject. repeat destr_match; simpl; try done.
destruct (decide (b = a)) as [->|]; [rewrite lookup_insert_eq; eauto|by rewrite lookup_insert_ne].
Qed.

Lemma loads_set a o o' s :
  wf s → stateObjects s !! a = Some o → obj_equiv (ctx s) o o' → caches_ok (ctx s) o' →
  loads s (setStateObject o' s).
Proof.
intros Hw Ho He Hr. assert (Hl : lookupObj s a = Some o) by (unfold lookupObj; by rewrite Ho).
destruct (wf_objects s Hw a o Hl) as (A1 & A2 & A3). pose proof He as (Ea & Eac & _).
split_and!.
- apply setStateObject_fields.
- apply (setStateObject_equiv o' o); [|done]. by rewrite <- Ea, A1.
- apply setStateObject_wf; [done|]. split_and!; [done|done|]. by rewrite <- Eac.
- intros b Hb. simpl. destruct (decide (b = address o')) as [->|];
    [rewrite lookup_insert_eq; eauto|by rewrite lookup_insert_ne].
Qed.

Lemma loads_refl s : wf s → loads s s.
Proof. intros. split_and!; [by repeat split|reflexivity|done|done]. Qed.

Lemma live_address a o s : wf s → stateObjects s !! a = Some o → object_wf (ctx s) a o.
Proof. intros Hw Ho. apply (wf_objects s Hw). unfold lookupObj. by rewrite Ho. Qed.

(** The result of a caching getter on a live object. *)
Definition cached {R} a o s (v : R) (p : R * stateObject * StateDB C) : Prop :=
  p.1.1 = v ∧ loads s p.2 ∧ stateObjects p.2 !! a = Some p.1.2 ∧ obj_equiv (ctx s) o p.1.2.

Lemma cached_set {R} a o o' s (v : R) :
  wf s → stateObjects s !! a = Some o → obj_equiv (ctx s) o o' → caches_ok (ctx s) o' →
  cached a o s v (v, o', setStateObject o' s).
Proof.
intros Hw Ho He Hr. destruct (live_address a o s Hw Ho) as (A1 & _).
split_and!; simpl; [done|by apply (loads_set a o)| |done].
destruct He as (Ea & _). by rewrite <- Ea, A1, lookup_insert_eq.
Qed.

Lemma objCode_spec a o s :
  wf s → stateObjects s !! a = Some o → cached a o s (codeView (ctx s) o) (objCode o s).
Proof.
intros Hw Ho. unfold objCode, codeView. destruct (live_address a o s Hw Ho) as (A1 & A2 & A3).
destruct (code o) as [x|] eqn:Ex; [split_and!; [done|by apply loads_refl|done|done]|].
destruct (IsEmptyCodeHash _) eqn:Ee; [split_and!; [done|by apply loads_refl|done|done]|].
apply cached_set; try done; [|by split; [apply A2|]]. repeat (split; [done|]). split; [|done].
unfold codeView; simpl. rewrite Ex, Ee. by destruct (KGetCode _ _).
Qed.

Lemma objGetCommittedState_spec a o k s :
  wf s → stateObjects s !! a = Some o →
  cached a o s (KGetState (ctx s) a k) (objGetCommittedState o k s).
Proof.
intros Hw Ho. unfold objGetCommittedState. destruct (live_address a o s Hw Ho) as (A1 & A2 & A3).
destruct (originStorage o !! k) as [v|] eqn:Ek.
- rewrite (proj1 A2 k v Ek), A1. split_and!; [done|by apply loads_refl|done|done].
- rewrite A1. apply cached_set; try done.
  + repeat (split; [done|]). intros k'. unfold stateView; simpl. f_equal.
    destruct (decide (k' = k)) as [->|]; [rewrite lookup_insert_eq, Ek; simpl; by rewrite ?A1|].
    by rewrite lookup_insert_ne, A1.
  + split; [|apply A2]. intros k' v. simpl. destruct (decide (k' = k)) as [->|].
    * rewrite lookup_insert_eq. by intros [= <-].
    * rewrite lookup_insert_ne, <- A1 by done. apply A2.
Qed.

Lemma stateView_clean c a o k : object_wf c a o → dirtyStorage o !! k = None → stateView c o k = KGetState c a k.
Proof.
intros (<- & A2 & _) Hd. unfold stateView. rewrite Hd. simpl.
destruct (originStorage o !! k) as [v|] eqn:E; [by rewrite (proj1 A2 k v E)|done].
Qed.

Lemma objGetState_spec a o k s :
  wf s → stateObjects s !! a = Some o → cached a o s (stateView (ctx s) o k) (objGetState o k s).
Proof.
intros Hw Ho. unfold objGetState. destruct (dirtyStorage o !! k) as [v|] eqn:Ek.
- unfold stateView. rewrite Ek. split_and!; [done|by apply loads_refl|done|done].
- rewrite (stateView_clean (ctx s) a o k (live_address a o s Hw Ho) Ek).
  by apply objGetCommittedState_spec.
Qed.

(** ** Creating objects *)
Lemma account_ok_empty : account_ok NewEmptyAccount.
Proof. apply Z.divide_0_r. Qed.

Lemma insert_live (m : gmap Address stateObject) k v a :
  is_Some (m !! a) → is_Some (<[k := v]> m !! a).
Proof. intros. destruct (decide (k = a)) as [->|]; [rewrite lookup_insert_eq; eauto|by rewrite lookup_insert_ne]. Qed.

Lemma extends_create a s :
  wf s → lookupObj s a = None →
  extends s (setStateObject (newObject a NewEmptyAccount) (append (createObjectChange a) s)).
Proof.
intros Hw Hl. destruct (append_frame (createObjectChange a) s) as (F1 & F2 & F3 & F4 & F5 & F6 & F7 & F8 & F9 & F10).
assert (Hn : stateObjects s !! a = None) by (revert Hl; unfold lookupObj; by destruct (stateObjects s !! a)).
apply (extends_step (createObjectChange a) _ _ (set_objects (delete a (<[a := newObject a NewEmptyAccount]> (stateObjects s)))
  (setStateObject (newObject a NewEmptyAccount) (append (createObjectChange a) s)))); try done.
- intros b Hb. by apply insert_live.
- intros b [= <-]. simpl. rewrite lookup_insert_eq. eauto.
- by intros b [= <-].
- apply setStateObject_wf; [by apply append_wf|]. apply newObject_wf, account_ok_empty.
- repeat (split; [done|]). intros b. unfold lookupObj; simpl. rewrite delete_insert_id by done. reflexivity.
- apply (objects_untouched_wf s); [done| |done|apply (wf_accessList s Hw)]. simpl. by rewrite delete_insert_id.
Qed.

Lemma extends_reset a p n s :
  wf s → stateObjects s !! a = Some p → object_wf (ctx s) a n →
  extends s (setStateObject n (append (resetObjectChange p) s)).
Proof.
intros Hw Hp Hn. destruct (append_frame (resetObjectChange p) s) as (F1 & F2 & F3 & F4 & F5 & F6 & F7 & F8 & F9 & F10).
destruct (live_address a p s Hw Hp) as (A1 & A2 & A3). destruct Hn as (B1 & B2 & B3).
assert (Hw1 : wf (setStateObject n (append (resetObjectChange p) s))).
{ apply setStateObject_wf; [by apply append_wf|]. by rewrite F1, B1. }
apply (extends_step (resetObjectChange p) _ _ (setStateObject p (setStateObject n (append (resetObjectChange p) s)))); try done.
- intros b Hb. by apply insert_live.
- apply (set_back_equiv p); [congruence| |done]. rewrite B1. unfold lookupObj. by rewrite Hp.
- apply setStateObject_wf; [done|]. by rewrite A1.
Qed.

Lemma setStateObject_twice o o' s : address o = address o' →
  setStateObject o (setStateObject o' s) = setStateObject o s.
Proof. intros E. unfold setStateObject, set_objects; simpl. by rewrite E, insert_insert_eq. Qed.

Lemma getOrNew_spec a s : wf s →
  extends s (getOrNewStateObject a s).2 ∧
  stateObjects (getOrNewStateObject a s).2 !! a = Some (getOrNewStateObject a s).1.
Proof.
intros Hw. unfold getOrNewStateObject.
destruct (getStateObject_spec a s) as (E1 & E2 & E3).
pose proof (getStateObject_loads a s Hw) as Hl.
destruct (getStateObject a s) as [[o|] s1] eqn:G; simpl in *; [eauto using extends_load|].
unfold createObject. destruct (getStateObject_spec a s1) as (D1 & D2 & D3).
assert (Hw1 : wf s1) by apply Hl. pose proof (getStateObject_loads a s1 Hw1) as Hl1.
rewrite E3, <- E1 in D1. destruct (getStateObject a s1) as [[?|] s2]; simpl in *; [done|].
split; [|apply lookup_insert_eq]. apply (extends_trans s s1); [by apply extends_load|].
apply (extends_trans s1 s2); [by apply extends_load|]. apply extends_create; [apply Hl1|].
by rewrite D3, E3, <- E1.
Qed.

(** ** Changing a live object *)
Lemma withObject_live a f o s :
  stateObjects s !! a = Some o → withObject a f s = Ok (setStateObject (f o) s).
Proof. intros Ho. unfold withObject, getStateObject. by rewrite Ho. Qed.

Lemma objSetBalance_extends a o x s :
  wf s → stateObjects s !! a = Some o → account_ok (account (setBalance x o)) →
  extends s (objSetBalance o x s).
Proof.
intros Hw Ho Hx. destruct (live_address a o s Hw Ho) as (A1 & A2 & A3).
apply (extends_modify _ a o _ (setBalance (Balance (account o)))); try done.
- simpl. by rewrite A1.
- simpl. apply withObject_live. simpl. apply lookup_insert_eq.
- by destruct o as [[] ? ? ? ? ? ?].
Qed.

Lemma objSetNonce_extends a o n s :
  wf s → stateObjects s !! a = Some o → extends s (objSetNonce o n s).
Proof.
intros Hw Ho. destruct (live_address a o s Hw Ho) as (A1 & A2 & A3).
apply (extends_modify _ a o _ (setNonce (Nonce (account o)))); try done.
- simpl. by rewrite A1.
- simpl. apply withObject_live. simpl. apply lookup_insert_eq.
- by destruct o as [[] ? ? ? ? ? ?].
Qed.

Lemma setCode_extends a o h x s :
  wf s → stateObjects s !! a = Some o →
  extends s (setStateObject (setCode h x o)
    (append (codeChange (address o) (codeView (ctx s) o) (CodeHash (account o))) s)).
Proof.
intros Hw Ho. destruct (live_address a o s Hw Ho) as (A1 & A2 & A3).
apply (extends_modify _ a o _ (setCode (CodeHash (account o)) (codeView (ctx s) o))); try done.
- simpl. by rewrite A1.
- split_and!; [done|by apply setCode_keeps|done].
- simpl. apply withObject_live. simpl. apply lookup_insert_eq.
- apply setCode_keeps.
- repeat (split; [by destruct o as [[] ? ? ? ? ? ?]|]). split; [|done].
  unfold codeView at 1; simpl. unfold codeView.
  destruct (code o); [done|]. by repeat destr_match.
Qed.

Lemma objSetCode_extends a o h x s :
  wf s → stateObjects s !! a = Some o → extends s (objSetCode o h x s).
Proof.
intros Hw Ho. unfold objSetCode. destruct (objCode_spec a o s Hw Ho) as (E1 & E2 & E3 & E4).
destruct (objCode o s) as [[v o'] s']; simpl in *. subst v.
apply (extends_trans s s'); [by apply extends_load|].
pose proof E2 as ((Ec & _) & _ & Hw' & _). destruct E4 as (_ & _ & _ & -> & _). rewrite <- Ec.
by apply (setCode_extends a).
Qed.

Lemma setState_extends a o k v s :
  wf s → stateObjects s !! a = Some o →
  extends s (setStateObject (setState k v o)
    (append (storageChange (address o) k (stateView (ctx s) o k)) s)).
Proof.
intros Hw Ho. destruct (live_address a o s Hw Ho) as (A1 & A2 & A3).
apply (extends_modify _ a o _ (setState k (stateView (ctx s) o k))); try done.
- simpl. by rewrite A1.
- simpl. apply withObject_live. simpl. apply lookup_insert_eq.
- repeat (split; [done|]). intros k'. rewrite !stateView_setState.
  repeat case_decide; by subst.
Qed.

Lemma objSetState_extends a o k v s :
  wf s → stateObjects s !! a = Some o → extends s (objSetState o k v s).
Proof.
intros Hw Ho. unfold objSetState. destruct (objGetState_spec a o k s Hw Ho) as (E1 & E2 & E3 & E4).
destruct (objGetState o k s) as [[x o'] s']; simpl in *. subst x.
case_bool_decide; [by apply extends_load|].
apply (extends_trans s s'); [by apply extends_load|].
pose proof E2 as ((Ec & _) & _ & Hw' & _). destruct E4 as (_ & _ & _ & _ & ->). rewrite <- Ec.
by apply (setState_extends a).
Qed.

Lemma Adjust_divide x : (ConversionFactor EVMCoinDecimals | AdjustExtraDecimalsBigInt x).
Proof.
unfold AdjustExtraDecimalsBigInt. destruct (x =? 0) eqn:E; boolP; [subst; apply Z.divide_0_r|].
destruct (EVMCoinDecimals =? EighteenDecimals) eqn:E18; boolP.
- rewrite E18. apply Z.divide_1_l.
- apply Z.divide_factor_r.
Qed.

(** ** The operations of the interface *)
Lemma CreateAccount_extends a s : wf s → extends s (CreateAccount a s).
Proof.
intros Hw. unfold CreateAccount, createObject.
destruct (getStateObject_spec a s) as (E1 & E2 & E3). pose proof (getStateObject_loads a s Hw) as Hl.
destruct (getStateObject a s) as [[p|] s1]; simpl in *.
- assert (Hp : stateObjects s1 !! a = Some p) by (by apply E2).
  apply (extends_trans s s1); [by apply extends_load|].
  rewrite setStateObject_twice by done.
  destruct (live_address a p s1 (proj1 (proj2 (proj2 Hl))) Hp) as (_ & _ & A3).
  apply (extends_reset a); [apply Hl|done|].
  split_and!; [done|apply newObject_caches|done].
- apply (extends_trans s s1); [by apply extends_load|]. apply extends_create; [apply Hl|]. by rewrite E3.
Qed.

Lemma account_ok_change a o s x :
  wf s → stateObjects s !! a = Some o → (ConversionFactor EVMCoinDecimals | x) →
  account_ok (account (setBalance (Balance (account o) + x) o)) ∧
  account_ok (account (setBalance (Balance (account o) - x) o)).
Proof.
intros Hw Ho Hx. destruct (live_address a o s Hw Ho) as (_ & _ & A3).
unfold account_ok in *; simpl. split; [by apply Z.divide_add_r|by apply Z.divide_sub_r].
Qed.

Lemma AddBalance_extends a x s : wf s → extends s (AddBalance a x s).
Proof.
intros Hw. unfold AddBalance. destruct (getOrNew_spec a s Hw) as (E1 & E2).
destruct (getOrNewStateObject a s) as [o s1]; simpl in *. apply extends_wf in E1 as Hw1.
unfold objAddBalance. destruct (_ =? 0); [done|]. apply (extends_trans s s1); [done|].
apply (objSetBalance_extends a); try done. by apply (account_ok_change a o s1 _ Hw1 E2), Adjust_divide.
Qed.

Lemma SubBalance_extends a x s : wf s → extends s (SubBalance a x s).
Proof.
intros Hw. unfold SubBalance. destruct (getOrNew_spec a s Hw) as (E1 & E2).
destruct (getOrNewStateObject a s) as [o s1]; simpl in *. apply extends_wf in E1 as Hw1.
unfold objSubBalance. destruct (_ =? 0); [done|]. apply (extends_trans s s1); [done|].
apply (objSetBalance_extends a); try done. by apply (account_ok_change a o s1 _ Hw1 E2), Adjust_divide.
Qed.

(** A setter through [getOrNewStateObject]. *)
Lemma getOrNew_then a (f : stateObject → StateDB C → StateDB C) s :
  wf s → (∀ o s, wf s → stateObjects s !! a = Some o → extends s (f o s)) →
  extends s (let '(o, s) := getOrNewStateObject a s in f o s).
Proof.
intros Hw Hf. destruct (getOrNew_spec a s Hw) as (E1 & E2).
destruct (getOrNewStateObject a s) as [o s1]; simpl in *. apply extends_wf in E1 as Hw1.
apply (extends_trans s s1); [done|]. by apply Hf.
Qed.

Lemma SetNonce_extends a n s : wf s → extends s (SetNonce a n s).
Proof. intros. apply (getOrNew_then a); [done|]. intros. by apply (objSetNonce_extends a). Qed.

Lemma SetCode_extends a x s : wf s → extends s (SetCode a x s).
Proof. intros. apply (getOrNew_then a); [done|]. intros. by apply (objSetCode_extends a). Qed.

Lemma SetState_extends a k v s : wf s → extends s (SetState a k v s).
Proof. intros. apply (getOrNew_then a); [done|]. intros. by apply (objSetState_extends a). Qed.

Lemma Suicide_extends a s : wf s → extends s (Suicide a s).2.
Proof.
intros Hw. unfold Suicide. destruct (getStateObject_spec a s) as (E1 & E2 & E3).
pose proof (getStateObject_loads a s Hw) as Hl.
destruct (getStateObject a s) as [[o|] s1]; simpl in *; [|by apply extends_load].
assert (Ho : stateObjects s1 !! a = Some o) by (by apply E2). assert (Hw1 : wf s1) by apply Hl.
destruct (live_address a o s1 Hw1 Ho) as (A1 & A2 & A3).
apply (extends_trans s s1); [by apply extends_load|].
apply (extends_modify _ a o _ (fun p => setBalance (Balance (account o)) (setSuicided (suicided o) p))); try done.
- split_and!; [done|done|]. apply Z.divide_0_r.
- simpl. unfold getStateObject. simpl. by rewrite A1, lookup_insert_eq.
- by destruct o as [[] ? ? ? ? ? ?].
Qed.

(** ** Refunds, logs, access list *)
Lemma extends_flat e s t u :
  Dirtied e = None → (∀ a, e ≠ createObjectChange a) →
  wf s → entries t = entries s ++ [e] → dirties t = dirties s → ctx t = ctx s →
  validRevisions t = validRevisions s → nextRevisionID t = nextRevisionID s →
  txConfig t = txConfig s → stateObjects t = stateObjects s → accessList_wf (sAccessList t) →
  Revert e t = Ok u → stateObjects u = stateObjects s → u ≡ s → extends s t.
Proof.
intros Hd He Hw E1 E2 E3 E4 E5 E5' E6 Hal Hr Eu Hus.
apply (extends_step e s t u); try done.
- rewrite E2. unfold append. by rewrite Hd.
- intros b. by rewrite E6.
- intros b. by rewrite Hd.
- intros b Eb. by destruct (He b).
- by apply (objects_untouched_wf s).
- destruct Hus as (Ec & _ & _ & _ & _ & Ea & _). apply (objects_untouched_wf s); try done.
  rewrite Ea. apply (wf_accessList s Hw).
Qed.

Lemma same_objects_equiv s t :
  ctx s = ctx t → cacheCtx s = cacheCtx t → txConfig s = txConfig t → refund s = refund t →
  logs s = logs t → sAccessList s = sAccessList t → stateObjects s = stateObjects t → s ≡ t.
Proof.
intros E1 E2 E3 E4 E5 E6 E7. repeat (split; [first [done|unfold storeCtx; congruence]|]).
intros a. unfold lookupObj. rewrite E7, E1. reflexivity.
Qed.

Lemma AddRefund_extends g s : wf s → extends s (AddRefund g s).
Proof.
intros Hw. eapply (extends_flat (refundChange (refund s))); try done.
apply (wf_accessList s Hw).
Qed.

Lemma SubRefund_extends g s t : wf s → SubRefund g s = Ok t → extends s t.
Proof.
intros Hw. unfold SubRefund. simpl. destruct (refund s <? g); [done|]. intros [= <-].
eapply (extends_flat (refundChange (refund s))); try done.
apply (wf_accessList s Hw).
Qed.

Lemma AddLog_extends l s : wf s → extends s (AddLog l s).
Proof.
intros Hw. unfold AddLog. set (x := mkLog _ _ _ _ _ _ _).
eapply (extends_flat addLogChange _ _ (set_logs (logs s) (append addLogChange s)));
  try done; [apply (wf_accessList s Hw)|].
simpl. destruct (logs s ++ [x]) as [|y ys] eqn:E; [by destruct (logs s)|]. rewrite <- E.
by rewrite length_app, Nat.add_sub, take_app_length.
Qed.

Lemma AddAddress_extends a s : wf s → extends s (AddAddressToAccessList a s).
Proof.
intros Hw. unfold AddAddressToAccessList, AddAddress.
destruct (wf_accessList s Hw) as [W1 W2].
destruct (addresses (sAccessList s) !! a) as [i|] eqn:Ea.
- apply extends_load. split_and!; [by repeat split|by apply same_objects_equiv|by apply (objects_untouched_wf s)|done].
- eapply (extends_flat (accessListAddAccountChange a)); try done.
  + split; [|done]. simpl. intros b i. destruct (decide (b = a)) as [->|].
    * rewrite lookup_insert_eq. intros [= <-]. by left.
    * rewrite lookup_insert_ne by done. apply W1.
  + apply same_objects_equiv; try done. unfold DeleteAddress; simpl.
    rewrite delete_insert_id by done. by destruct (sAccessList s).
Qed.

(** [AddSlot] and its reversal. *)
Lemma slotsAt_wf al a i :
  accessList_wf al → addresses al !! a = Some i → i ≠ -1 →
  ∃ m, slots al !! Z.to_nat i = Some m ∧ slotsAt al i = Ok m ∧ m ≠ ∅ ∧ 0 <= i.
Proof.
intros [W1 W2] Ha Hi. destruct (W1 a i Ha) as [|Hr]; [done|].
destruct (lookup_lt_is_Some_2 (slots al) (Z.to_nat i)) as [m Hm]; [lia|].
exists m. unfold slotsAt. replace (i <? 0) with false by lia. rewrite Hm.
split_and!; try done; [|lia]. by apply (Forall_lookup_1 _ _ _ _ W2 Hm).
Qed.

Lemma addSlotMap_wf al a slot : accessList_wf al → accessList_wf (addSlotMap al a slot).
Proof.
intros [W1 W2]. split; simpl.
- intros b i. rewrite length_app; simpl. destruct (decide (b = a)) as [->|].
  + rewrite lookup_insert_eq. intros [= <-]. lia.
  + rewrite lookup_insert_ne by done. intros Hb. specialize (W1 b i Hb). lia.
- apply Forall_app. split; [done|]. constructor; [|done]. set_solver.
Qed.

Lemma addSlotMap_undo al a slot :
  DeleteSlot (addSlotMap al a slot) a slot = Ok (mkAccessList (<[a := -1]> (addresses al)) (slots al)).
Proof.
unfold DeleteSlot, addSlotMap. cbn [addresses slots]. rewrite lookup_insert_eq.
unfold slotsAt. cbn [addresses slots]. rewrite (proj2 (Z.ltb_ge _ _)) by lia.
rewrite Nat2Z.id, lookup_app_r, Nat.sub_diag by lia. cbn.
rewrite bool_decide_eq_true_2 by set_solver. rewrite insert_insert_eq, take_app_length. done.
Qed.

Lemma AddSlot_wf al a slot r :
  accessList_wf al → AddSlot al a slot = Ok r → accessList_wf r.2.
Proof.
intros W. unfold AddSlot. destruct (addresses al !! a) as [i|] eqn:Ea.
- destruct (i =? -1) eqn:Ei; boolP; [intros [= <-]; by apply addSlotMap_wf|].
  destruct (slotsAt_wf al a i W Ea Ei) as (m & Hm & -> & Hne & Hi). simpl.
  case_bool_decide; intros [= <-]; [done|]. destruct W as [W1 W2]. split; simpl.
  + intros b j. rewrite length_insert. apply W1.
  + apply Forall_insert; [done|]. set_solver.
- intros [= <-]. by apply addSlotMap_wf.
Qed.

(** Deleting the slot gives the old list back, up to the entry of the address. *)
Lemma AddSlot_undo al a slot addrMod al' :
  accessList_wf al → AddSlot al a slot = Ok (addrMod, true, al') →
  ∃ al1, DeleteSlot al' a slot = Ok al1 ∧
    if addrMod then addresses al !! a = None ∧ al1 = mkAccessList (<[a := -1]> (addresses al)) (slots al)
    else al1 = al.
Proof.
intros W. unfold AddSlot. destruct (addresses al !! a) as [i|] eqn:Ea.
- destruct (i =? -1) eqn:Ei; boolP.
  + intros [= <- <-]. rewrite addSlotMap_undo. eexists; split; [done|]. subst i.
    rewrite insert_id by done. by destruct al.
  + destruct (slotsAt_wf al a i W Ea Ei) as (m & Hm & -> & Hne & Hi). simpl.
    case_bool_decide as Hs; [done|]. intros [= <- <-]. unfold DeleteSlot; simpl. rewrite Ea.
    unfold slotsAt; simpl. replace (i <? 0) with false by lia.
    assert (Hlt : (Z.to_nat i < length (slots al))%nat) by (by apply lookup_lt_Some in Hm).
    rewrite list_lookup_insert_eq by done. simpl.
    replace (({[slot]} ∪ m) ∖ {[slot]}) with m by set_solver.
    rewrite bool_decide_eq_false_2 by done. eexists; split; [done|].
    rewrite list_insert_insert_eq, list_insert_id by done. by destruct al.
- intros [= <- <-]. rewrite addSlotMap_undo. eauto.
Qed.

Lemma slot_extends a slot al s :
  wf s → accessList_wf al → DeleteSlot al a slot = Ok (sAccessList s) →
  extends s (append (accessListAddSlotChange a slot) (set_accessList al s)).
Proof.
intros Hw Hal Hd.
apply (extends_flat (accessListAddSlotChange a slot) _ _
  (set_accessList (sAccessList s) (append (accessListAddSlotChange a slot) (set_accessList al s)))); try done.
simpl. by rewrite Hd.
Qed.

Lemma set_accessList_loads al s : wf s → al = sAccessList s → extends s (set_accessList al s).
Proof.
intros Hw ->. apply extends_load. split_and!; [by repeat split|by apply same_objects_equiv| |done].
apply (objects_untouched_wf s); try done. apply (wf_accessList s Hw).
Qed.

(** Adding a slot never panics and can be undone. *)
Lemma AddSlot_extends a slot s : wf s →
  ∃ t, AddSlotToAccessList a slot s = Ok t ∧ extends s t.
Proof.
intros Hw. pose proof (wf_accessList s Hw) as W. unfold AddSlotToAccessList.
destruct (AddSlot (sAccessList s) a slot) as [[[addrMod slotMod] al]|err] eqn:E.
- simpl. eexists. split; [done|]. pose proof (AddSlot_wf _ _ _ _ W E) as W'. simpl in W'.
  destruct slotMod.
  + destruct (AddSlot_undo _ _ _ _ _ W E) as (al1 & Hd & Hal). destruct addrMod.
    * destruct Hal as [Ha ->].
      apply (extends_trans s (AddAddressToAccessList a s)); [by apply AddAddress_extends|].
      assert (Hs1 : wf (AddAddressToAccessList a s)) by (eapply extends_wf, AddAddress_extends; done).
      revert Hs1. unfold AddAddressToAccessList, AddAddress. rewrite Ha. intros Hs1.
      by apply (slot_extends a slot al).
    * subst al1. by apply slot_extends.
  + assert (addrMod = false ∧ al = sAccessList s) as [-> ->].
    { revert E. unfold AddSlot. destruct (addresses _ !! a) as [i|]; [|done].
      destruct (i =? -1); [done|]. destruct (slotsAt _ i); simpl; [|done].
      case_bool_decide; [|done]. by intros [= <- <-]. }
    by apply set_accessList_loads.
- exfalso. revert E. unfold AddSlot. destruct (addresses _ !! a) as [i|] eqn:Ea; [|done].
  destruct (i =? -1) eqn:Ei; boolP; [done|].
  destruct (slotsAt_wf _ a i W Ea Ei) as (m & _ & -> & _). simpl. by case_bool_decide.
Qed.

Lemma addSlots_extends a keys : ∀ s0 s, extends s0 s → ∃ t,
  foldl (fun r key => s ← r; AddSlotToAccessList a key s) (Ok s) keys = Ok t ∧ extends s0 t.
Proof.
induction keys as [|k keys IH]; intros s0 s Hs; [by exists s|]. simpl.
destruct (AddSlot_extends a k s (extends_wf _ _ Hs)) as (t & -> & Ht).
apply (IH s0 t). by apply (extends_trans s0 s).
Qed.

Lemma addTuples_extends l : ∀ s0 s, extends s0 s → ∃ t,
  foldl (fun r el => addTuple el r) (Ok s) l = Ok t ∧ extends s0 t.
Proof.
induction l as [|[a keys] l IH]; intros s0 s Hs; [by exists s|]. simpl.
destruct (addSlots_extends a keys s0 (AddAddressToAccessList a s)) as (t & -> & Ht); [|by apply IH].
apply (extends_trans s0 s); [done|]. apply AddAddress_extends. by apply extends_wf in Hs.
Qed.

Lemma addAddresses_extends l : ∀ s0 s, extends s0 s →
  extends s0 (foldl (fun s a => AddAddressToAccessList a s) s l).
Proof.
induction l as [|a l IH]; intros s0 s Hs; [done|]. simpl. apply IH.
apply (extends_trans s0 s); [done|]. apply AddAddress_extends. by apply extends_wf in Hs.
Qed.

Lemma PrepareAccessList_extends sender dst ps l s : wf s →
  ∃ t, PrepareAccessList sender dst ps l s = Ok t ∧ extends s t.
Proof.
intros Hw. unfold PrepareAccessList. apply addTuples_extends, addAddresses_extends.
pose proof (AddAddress_extends sender s Hw) as H1. destruct dst as [d|]; [|done].
apply (extends_trans s (AddAddressToAccessList sender s)); [done|].
apply AddAddress_extends. by apply extends_wf in H1.
Qed.

(** ** Precompile calls

    Balance changes do not look at the cache context, so the journal of a call can
    be undone on the snapshot taken before it. *)
Lemma getStateObject_cache x a s :
  getStateObject a (set_cache x s) = (fst (getStateObject a s), set_cache x (getStateObject a s).2).
Proof. unfold getStateObject. simpl. by repeat destr_match. Qed.

Lemma append_cache x e s : append e (set_cache x s) = set_cache x (append e s).
Proof. unfold append. by destruct (Dirtied e). Qed.

Lemma getOrNew_cache x a s :
  getOrNewStateObject a (set_cache x s) =
  (fst (getOrNewStateObject a s), set_cache x (getOrNewStateObject a s).2).
Proof.
unfold getOrNewStateObject. rewrite getStateObject_cache.
destruct (getStateObject a s) as [[o|] s1]; simpl; [done|].
unfold createObject. rewrite getStateObject_cache.
destruct (getStateObject a s1) as [[p|] s2]; simpl; by rewrite append_cache.
Qed.

Lemma applyEntry_cache x s be : applyEntry (set_cache x s) be = set_cache x (applyEntry s be).
Proof.
unfold applyEntry, AddBalance, SubBalance. rewrite getOrNew_cache.
destruct (getOrNewStateObject (beAccount be) s) as [o s1]; simpl.
unfold objSubBalance, objAddBalance, objSetBalance. rewrite append_cache.
by repeat destr_match.
Qed.

Lemma applyEntries_cache x es : ∀ s,
  foldl applyEntry (set_cache x s) es = set_cache x (foldl applyEntry s es).
Proof. induction es as [|be es IH]; intros s; simpl; [done|]. by rewrite applyEntry_cache, IH. Qed.

Lemma applyEntries_extends es : ∀ s0 s, extends s0 s → extends s0 (foldl applyEntry s es).
Proof.
induction es as [|be es IH]; intros s0 s Hs; [done|]. simpl. apply IH.
apply (extends_trans s0 s); [done|]. apply extends_wf in Hs. unfold applyEntry.
destruct (beOp be); [by apply SubBalance_extends|by apply AddBalance_extends].
Qed.

Lemma set_cache_id s : set_cache (cacheCtx s) s = s.
Proof. by destruct s. Qed.

Lemma applyEntries_cacheCtx es s : cacheCtx (foldl applyEntry s es) = cacheCtx s.
Proof. rewrite <- (set_cache_id s) at 1. by rewrite applyEntries_cache. Qed.

Lemma getOrNew_cacheCtx a s : cacheCtx (getOrNewStateObject a s).2 = cacheCtx s.
Proof. rewrite <- (set_cache_id s) at 1. by rewrite getOrNew_cache. Qed.

Lemma set_cache_wf x s : wf s → wf (set_cache x s).
Proof. intros Hw. apply (objects_untouched_wf s); try done. apply (wf_accessList s Hw). Qed.

Lemma AddJournalEntries_extends a es x s :
  wf s → extends s (AddJournalEntries a es (storeCtx s) (set_cache x s)).2.
Proof.
intros Hw. unfold AddJournalEntries, AddPrecompileFn.
rewrite applyEntries_cache, getOrNew_cache. set (s1 := foldl applyEntry s es).
assert (H1 : extends s s1) by (apply applyEntries_extends; by apply extends_refl).
destruct (getOrNew_spec a s1 (extends_wf _ _ H1)) as (E1 & _).
set (s2 := (getOrNewStateObject a s1).2) in *. simpl.
assert (H2 : extends s s2) by (by apply (extends_trans s s1)).
destruct H2 as (F1 & F2 & F3 & F3' & fs & F4 & F5 & F6).
repeat (split; [done|]). exists (fs ++ [precompileCallChange (storeCtx s)]).
split; [simpl; by rewrite F4, app_assoc|]. split.
- rewrite rev_app_distr. simpl.
  assert (Ec : cacheCtx s2 = cacheCtx s) by (unfold s2, s1; by rewrite getOrNew_cacheCtx, applyEntries_cacheCtx).
  pose proof (undo_wf _ _ _ F5) as Hw2. eapply undo_cons; [|done|].
  + apply (objects_untouched_wf s2); try done. apply (wf_accessList s2 Hw2).
  + apply (undo_proper _ _ _ F5); [|apply (objects_untouched_wf s2); try done; apply (wf_accessList s2 Hw2)].
    repeat (split; [first [done|unfold storeCtx; simpl; by rewrite Ec, F1]|]). done.
- intros HJ. apply F6 in HJ. simpl. by apply (journal_ok_append _ _ s2).
Qed.

(** ** The loop of [journal.Revert] *)
Definition revert_frame s t : Prop :=
  entries t = entries s ∧ validRevisions t = validRevisions s ∧
  nextRevisionID t = nextRevisionID s ∧ ctx t = ctx s ∧ txConfig t = txConfig s.

Lemma withObject_objects a f s t :
  withObject a f s = Ok t → revert_frame s t ∧ dirties t = dirties s ∧
  ∀ b, is_Some (stateObjects s !! b) → is_Some (stateObjects t !! b).
Proof.
unfold withObject, getStateObject. repeat destr_match; intros; simplify_eq; split_and!;
  try (by repeat split); intros; repeat apply insert_live; done.
Qed.

Lemma Revert_objects e s t :
  Revert e s = Ok t → revert_frame s t ∧ dirties t = dirties s ∧
  ∀ b, is_Some (stateObjects s !! b) → e ≠ createObjectChange b → is_Some (stateObjects t !! b).
Proof.
destruct e; simpl.
1: { intros [= <-]. split_and!; [by repeat split|done|]. intros b Hb Hne. simpl.
     rewrite lookup_delete_ne; [done|]. by intros ->. }
1: { intros [= <-]. split_and!; [by repeat split|done|]. intros. by apply insert_live. }
1: { unfold getStateObject. repeat destr_match; intros; simplify_eq; split_and!;
     try (by repeat split); intros; repeat apply insert_live; done. }
1-4: intros Hw; apply withObject_objects in Hw; naive_solver.
all: repeat destr_match; intros; inv_ok; simplify_eq; by repeat split.
Qed.

Lemma dropDirty_frame e s : revert_frame s (dropDirty e s) ∧ stateObjects (dropDirty e s) = stateObjects s.
Proof. unfold dropDirty. by destruct (Dirtied e). Qed.

Lemma journal_ok_pop es e s t :
  journal_ok (es ++ [e]) s → Revert e s = Ok t → journal_ok es (dropDirty e t).
Proof.
intros [J1 J2 J3] Hr. destruct (Revert_objects e s t Hr) as (_ & Ed & Ho).
apply creates_fresh_snoc_inv in J2 as [J2 J2']. split; [|done|].
- intros a. specialize (J1 a). rewrite count_app, count_one in J1. pose proof (count_nonneg a es).
  unfold dirtyOf, dropDirty in *. destruct (Dirtied e) as [b|]; simpl.
  + rewrite Ed. destruct (decide (b = a)) as [->|Hb].
    * rewrite decide_True in J1 by done. rewrite J1.
      replace (count a es + 1 =? 0) with false by lia. simpl.
      replace (count a es + 1 - 1) with (count a es) by lia.
      destruct (count a es =? 0); [by rewrite lookup_delete_eq|by rewrite lookup_insert_eq].
    * rewrite decide_False, Z.add_0_r in J1 by naive_solver. rewrite <- J1.
      destruct (default 0 (dirties s !! b) - 1 =? 0); [by rewrite lookup_delete_ne|by rewrite lookup_insert_ne].
  + rewrite Ed, J1. by rewrite Z.add_0_r.
- intros a Ha. destruct (dropDirty_frame e t) as [_ ->]. apply Ho.
  + apply J3. rewrite count_app, count_one. unfold dirtyOf. case_decide; lia.
  + intros ->. specialize (J2' a eq_refl). lia.
Qed.

Lemma revertLoop_undo s0 es1 es2 : ∀ s l,
  undo s0 (es2 ++ es1) s → journal_ok (l ++ rev es2) s →
  ∃ t, revertLoop es2 s = Ok t ∧ undo s0 es1 t ∧ journal_ok l t ∧ revert_frame s t.
Proof.
induction es2 as [|e es2 IH]; intros s l Hu HJ; simpl in *.
- rewrite app_nil_r in HJ. exists s. split_and!; [done..|by repeat split].
- inversion Hu as [|? ? ? t1 Hw Hr Hu1]; subst. rewrite Hr. simpl.
  rewrite app_assoc in HJ. apply (journal_ok_pop _ _ _ t1) in HJ; [|done].
  assert (Hd : undo s0 (es2 ++ es1) (dropDirty e t1)).
  { apply (undo_proper _ _ _ Hu1); [by rewrite dropDirty_equiv|]. by apply dropDirty_wf, (undo_wf _ _ _ Hu1). }
  destruct (IH _ _ Hd HJ) as (t & -> & Ht & HJt & Hf). exists t. split_and!; try done.
  destruct (Revert_objects e s t1 Hr) as (F1 & _), (dropDirty_frame e t1) as (F2 & _).
  unfold revert_frame in *. naive_solver congruence.
Qed.
End revert.
