(* ===== verification/EvmSnapshot.v ===== *)
(** * x/evm/statedb: snapshots

    Runs of operations, the invariant of all states they reach, and the theorem
    that [RevertToSnapshot] undoes everything since its snapshot. *)

From stdpp Require Import gmap strings list sorting.
From Stdlib Require Import ZArith Lia.
From S2P Require Import Prelude EvmStateDB EvmJournal EvmRevert.

Open Scope Z_scope.

(** What the store promises about the accounts it returns: balances are whole
    multiples of the smallest unit the bank knows. *)
Class ScaledKeeper `{EvmEnv} {C : Type} (K : StateKeeper C) : Prop :=
  GetAccount_ok c a ac : GetAccount c a = Some ac → account_ok ac.

Section runs.
Context `{EvmEnv} {C : Type} `{K : StateKeeper C} `{!ScaledKeeper K}.
Implicit Types (s t : StateDB C) (a : Address) (c : C).

(** The calls the interpreter and the precompiles make. *)
Inductive op : Type :=
  | OpExist (a : Address) | OpEmpty (a : Address) | OpGetBalance (a : Address)
  | OpGetNonce (a : Address) | OpGetCodeHash (a : Address) | OpHasSuicided (a : Address)
  | OpGetCode (a : Address) | OpGetCodeSize (a : Address)
  | OpGetState (a : Address) (k : Hash) | OpGetCommittedState (a : Address) (k : Hash)
  | OpCreateAccount (a : Address)
  | OpAddBalance (a : Address) (x : Z) | OpSubBalance (a : Address) (x : Z)
  | OpSetNonce (a : Address) (n : Z) | OpSetCode (a : Address) (c : option string)
  | OpSetState (a : Address) (k v : Hash) | OpSuicide (a : Address)
  | OpAddLog (l : Log) | OpAddRefund (g : Z) | OpSubRefund (g : Z)
  | OpAddAddress (a : Address) | OpAddSlot (a : Address) (k : Hash)
  | OpPrepare (sender : Address) (dst : option Address) (ps : list Address) (l : list (Address * list Hash))
  | OpSnapshot | OpRevert (i : Z)
  | OpPrecompile (a : Address) (m : C → result (list balanceChangeEntry) * C).

(** A precompile call that fails before it is journaled ends the run with its
    error; the limit on calls is only checked after the entry is written. *)
Definition execPrecompile a (m : C → result (list balanceChangeEntry) * C) s : result (StateDB C) :=
  match RunSetup s with
  | (Err e, _) => Err e
  | (Ok snapshot, s1) =>
      match m (storeCtx s1) with
      | (Err e, _) => Err e
      | (Ok _, _) => Ok (Run a m s).2
      end
  end.

Definition exec (o : op) s : result (StateDB C) :=
  match o with
  | OpExist a => Ok (Exist a s).2
  | OpEmpty a => Ok (Empty a s).2
  | OpGetBalance a => Ok (GetBalance a s).2
  | OpGetNonce a => Ok (GetNonce a s).2
  | OpGetCodeHash a => Ok (GetCodeHash a s).2
  | OpHasSuicided a => Ok (HasSuicided a s).2
  | OpGetCode a => Ok (GetCode a s).2
  | OpGetCodeSize a => Ok (GetCodeSize a s).2
  | OpGetState a k => Ok (GetState a k s).2
  | OpGetCommittedState a k => Ok (GetCommittedState a k s).2
  | OpCreateAccount a => Ok (CreateAccount a s)
  | OpAddBalance a x => Ok (AddBalance a x s)
  | OpSubBalance a x => Ok (SubBalance a x s)
  | OpSetNonce a n => Ok (SetNonce a n s)
  | OpSetCode a c => Ok (SetCode a c s)
  | OpSetState a k v => Ok (SetState a k v s)
  | OpSuicide a => Ok (Suicide a s).2
  | OpAddLog l => Ok (AddLog l s)
  | OpAddRefund g => Ok (AddRefund g s)
  | OpSubRefund g => SubRefund g s
  | OpAddAddress a => Ok (AddAddressToAccessList a s)
  | OpAddSlot a k => AddSlotToAccessList a k s
  | OpPrepare sender dst ps l => PrepareAccessList sender dst ps l s
  | OpSnapshot => Ok (Snapshot s).2
  | OpRevert i => RevertToSnapshot i s
  | OpPrecompile a m => execPrecompile a m s
  end.

Fixpoint run (ops : list op) s : result (StateDB C) :=
  match ops with
  | [] => Ok s
  | o :: ops => s ← exec o s; run ops s
  end.

Lemma run_app ops1 ops2 s : run (ops1 ++ ops2) s = s ← run ops1 s; run ops2 s.
Proof.
revert s. induction ops1 as [|o ops1 IH]; intros s; simpl; [done|].
by destruct (exec o s); simpl.
Qed.

(** ** Operations other than snapshots extend the journal *)
Lemma getters_extend a s :
  wf s → extends s (getStateObject a s).2.
Proof. intros. by apply extends_load, getStateObject_loads. Qed.

(** A caching getter of a live object. *)
Lemma live_getter {R : Type} a (f : stateObject → StateDB C → R * stateObject * StateDB C)
    (v : C → stateObject → R) (d : R) s :
  wf s → (∀ o s, wf s → stateObjects s !! a = Some o → cached a o s (v (ctx s) o) (f o s)) →
  extends s (match getStateObject a s with
             | (Some o, s) => let '(x, _, s) := f o s in (x, s)
             | (None, s) => (d, s)
             end).2.
Proof.
intros Hw Hf. destruct (getStateObject_spec a s) as (E1 & E2 & E3).
pose proof (getStateObject_loads a s Hw) as Hl.
destruct (getStateObject a s) as [[o|] s1]; simpl in *; [|by apply extends_load].
destruct (Hf o s1) as (_ & Hl' & _); [apply Hl|by apply E2|].
destruct (f o s1) as [[x o'] s2]; simpl in *.
apply (extends_trans s s1); by apply extends_load.
Qed.

Lemma GetCode_extends a s : wf s → extends s (GetCode a s).2.
Proof. intros. apply (live_getter a objCode codeView); [done|]. intros. by apply objCode_spec. Qed.

Lemma GetState_extends a k s : wf s → extends s (GetState a k s).2.
Proof.
intros. apply (live_getter a (fun o => objGetState o k) (fun c o => stateView c o k)); [done|].
intros. by apply objGetState_spec.
Qed.

Lemma GetCommittedState_extends a k s : wf s → extends s (GetCommittedState a k s).2.
Proof.
intros. apply (live_getter a (fun o => objGetCommittedState o k) (fun c o => KGetState c a k)); [done|].
intros. by apply objGetCommittedState_spec.
Qed.

Lemma CommitWithCacheCtx_cache s r t :
  CommitWithCacheCtx s = (r, t) → ∃ x, t = set_cache x s.
Proof.
unfold CommitWithCacheCtx. destruct (cacheCtx s); [|intros [= <- <-]; exists (cacheCtx s); by destruct s].
destruct (commitWithCtx s c). intros [= <- <-]. eauto.
Qed.

Lemma RunSetup_spec s c t : RunSetup s = (Ok c, t) → c = storeCtx s ∧ ∃ x, t = set_cache x s.
Proof.
unfold RunSetup, MultiStoreSnapshot, GetCacheContext.
destruct (cacheCtx s) as [c0|] eqn:Ec; simpl; rewrite ?Ec.
- destruct (CommitWithCacheCtx s) as [[] t'] eqn:E; [|done]. intros [= <- <-].
  apply CommitWithCacheCtx_cache in E as [x ->]. split; [|eauto]. unfold storeCtx. by rewrite Ec.
- destruct (CommitWithCacheCtx (cache s)) as [[] t'] eqn:E; [|done]. intros [= <- <-].
  apply CommitWithCacheCtx_cache in E as [x ->]. split; [|eauto]. unfold storeCtx. by rewrite Ec.
Qed.

Lemma execPrecompile_extends a m s t : wf s → execPrecompile a m s = Ok t → extends s t.
Proof.
intros Hw. unfold execPrecompile, Run. destruct (RunSetup s) as [[c|] s1] eqn:E; [|done].
destruct (RunSetup_spec _ _ _ E) as (-> & x & ->). fold (storeCtx (set_cache x s)).
destruct (m (storeCtx (set_cache x s))) as [[es|] c'] eqn:Em; [|done]. intros [= <-].
change (set_cache (Some c') (set_cache x s)) with (set_cache (Some c') s).
by apply AddJournalEntries_extends.
Qed.

Definition is_revision (o : op) : bool :=
  match o with OpSnapshot | OpRevert _ => true | _ => false end.

Lemma exec_extends o s t : wf s → is_revision o = false → exec o s = Ok t → extends s t.
Proof.
intros Hw Ho He. pose proof (fun a => getters_extend a s Hw) as Hg.
destruct o; try discriminate Ho; simpl in He; try (injection He as <-).
all: try (specialize (Hg a); unfold Exist, Empty, GetBalance, GetNonce, GetCodeHash, HasSuicided;
  destruct (getStateObject a s); exact Hg).
- by apply GetCode_extends.
- unfold GetCodeSize. pose proof (GetCode_extends a s Hw). by destruct (GetCode a s).
- by apply GetState_extends.
- by apply GetCommittedState_extends.
- by apply CreateAccount_extends.
- by apply AddBalance_extends.
- by apply SubBalance_extends.
- by apply SetNonce_extends.
- by apply SetCode_extends.
- by apply SetState_extends.
- by apply Suicide_extends.
- by apply AddLog_extends.
- by apply AddRefund_extends.
- by apply (SubRefund_extends g).
- by apply AddAddress_extends.
- destruct (AddSlot_extends a k s Hw) as (t' & E & Ht). congruence.
- destruct (PrepareAccessList_extends sender dst ps l s Hw) as (t' & E & Ht). congruence.
- by apply (execPrecompile_extends a m).
Qed.

(** ** Revisions

    From journal length [n] and next id [i] to [n'] and [i']: ids increase, and
    the journal indices with them. *)
Fixpoint chain (n : nat) (i : Z) (rs : list revision) (n' : nat) (i' : Z) : Prop :=
  match rs with
  | [] => (n <= n')%nat ∧ i <= i'
  | r :: rs => (n <= journalIndex r)%nat ∧ i <= id r ∧ chain (journalIndex r) (id r + 1) rs n' i'
  end.

Lemma chain_bounds rs : ∀ n i n' i', chain n i rs n' i' → (n <= n')%nat ∧ i <= i'.
Proof.
induction rs as [|r rs IH]; intros n i n' i'; simpl; [done|].
intros (? & ? & Hc). apply IH in Hc. lia.
Qed.

Lemma chain_app rs1 : ∀ n i rs2 n' i',
  chain n i (rs1 ++ rs2) n' i' → ∃ m j, chain n i rs1 m j ∧ chain m j rs2 n' i'.
Proof.
induction rs1 as [|r rs1 IH]; intros n i rs2 n' i'; simpl.
- intros Hc. exists n, i. by repeat split.
- intros (? & ? & Hc). apply IH in Hc as (m & j & ? & ?). eauto 10.
Qed.

Lemma chain_weaken rs : ∀ n i m j m' j', chain n i rs m j → (m <= m')%nat → j <= j' → chain n i rs m' j'.
Proof.
induction rs as [|r rs IH]; intros n i m j m' j'; simpl; [lia|].
intros (? & ? & Hc) ? ?. split_and!; eauto.
Qed.

Lemma chain_snoc rs : ∀ n i m j, chain n i rs m j → chain n i (rs ++ [mkRevision j m]) m (j + 1).
Proof.
induction rs as [|r rs IH]; intros n i m j; simpl; [lia|].
intros (? & ? & Hc). split_and!; auto.
Qed.

Lemma chain_ids rs : ∀ n i n' i' r, chain n i rs n' i' → r ∈ rs → id r < i'.
Proof.
induction rs as [|r' rs IH]; intros n i n' i' r; simpl; [by rewrite elem_of_nil|].
intros (? & ? & Hc) [->|Hr]%elem_of_cons; [apply chain_bounds in Hc; lia|eauto].
Qed.

Definition ids_below (i : Z) (rs : list revision) : Prop := Forall (fun r => id r < i) rs.

Lemma search_below i r rs1 rs2 :
  ids_below i rs1 → i <= r → search r (rs1 ++ rs2) = (length rs1 + search r rs2)%nat.
Proof.
intros Hb Hr. induction Hb as [|x rs1 Hx _ IH]; simpl; [done|].
replace (r <=? id x) with false by lia. by rewrite IH.
Qed.

(** Revisions, journal and counters are bookkeeping: an undo does not see them. *)
Lemma undo_bookkeeping s0 es s t :
  undo s0 es s → ctx s = ctx t → cacheCtx s = cacheCtx t → txConfig s = txConfig t →
  refund s = refund t → logs s = logs t → sAccessList s = sAccessList t →
  stateObjects s = stateObjects t → undo s0 es t.
Proof.
intros Hu E1 E2 E3 E4 E5 E6 E7. pose proof (undo_wf _ _ _ Hu) as Hw.
apply (undo_proper _ _ _ Hu); [by apply same_objects_equiv|].
apply (objects_untouched_wf s); try done. rewrite <- E6. apply (wf_accessList s Hw).
Qed.

(** [s] was reached from [s0] without going back behind it. *)
Definition since s0 s : Prop :=
  ctx s = ctx s0 ∧ txConfig s = txConfig s0 ∧ ids_below (nextRevisionID s0) (validRevisions s0) ∧
  ∃ es rs, entries s = entries s0 ++ es ∧ undo s0 (rev es) s ∧ journal_ok (entries s) s ∧
    validRevisions s = validRevisions s0 ++ rs ∧
    chain (length (entries s0)) (nextRevisionID s0) rs (length (entries s)) (nextRevisionID s).

Lemma since_wf s0 s : since s0 s → wf s.
Proof. intros (_ & _ & _ & es & rs & _ & Hu & _). by apply undo_wf in Hu. Qed.

Lemma since_journal s0 s : since s0 s → journal_ok (entries s) s.
Proof. by intros (_ & _ & _ & es & rs & _ & _ & HJ & _). Qed.

Lemma since_refl s :
  wf s → journal_ok (entries s) s → ids_below (nextRevisionID s) (validRevisions s) → since s s.
Proof.
intros Hw HJ Hid. repeat (split; [done|]). exists [], []. rewrite !app_nil_r.
split_and!; try done. by constructor.
Qed.

Lemma since_extends s0 s t : since s0 s → extends s t → since s0 t.
Proof.
intros (E1 & E2 & E3 & es & rs & E4 & E5 & E6 & E7 & E8) (F1 & F2 & F3 & F4 & fs & F5 & F6 & F7).
split_and!; try congruence. exists (es ++ fs), rs. split_and!.
- by rewrite F5, E4, app_assoc.
- rewrite rev_app_distr. by apply (undo_app s0 s).
- auto.
- congruence.
- rewrite F3, F5. apply (chain_weaken _ _ _ _ _ _ _ E8); [rewrite length_app|]; lia.
Qed.

Lemma since_snapshot s0 s : since s0 s → since s0 (Snapshot s).2.
Proof.
intros (E1 & E2 & E3 & es & rs & E4 & E5 & E6 & E7 & E8). repeat (split; [done|]).
exists es, (rs ++ [mkRevision (nextRevisionID s) (length (entries s))]). simpl. split_and!; try done.
- by apply (undo_bookkeeping _ _ _ _ E5).
- by apply (journal_ok_load _ s).
- by rewrite E7, app_assoc.
- by apply chain_snoc.
Qed.

(** The journal replayed down to an index after [s0]. *)
Lemma journalRevert_since s0 es s k :
  entries s = entries s0 ++ es → undo s0 (rev es) s → journal_ok (entries s) s →
  (length (entries s0) <= k <= length (entries s))%nat →
  ∃ t es1, journalRevert k s = Ok t ∧ es = es1 ++ drop (k - length (entries s0)) es ∧
    entries t = entries s0 ++ es1 ∧ length (entries t) = k ∧ undo s0 (rev es1) t ∧
    journal_ok (entries t) t ∧
    validRevisions t = validRevisions s ∧ nextRevisionID t = nextRevisionID s ∧
    ctx t = ctx s ∧ txConfig t = txConfig s.
Proof.
intros E Hu HJ Hk. set (n := (k - length (entries s0))%nat).
assert (Hs : es = take n es ++ drop n es) by (by rewrite take_drop).
assert (Hn : (n <= length es)%nat) by (rewrite E, length_app in Hk; lia).
assert (Hdrop : drop k (entries s) = drop n es).
{ rewrite E, drop_app, drop_ge by lia. done. }
assert (Htake : take k (entries s) = entries s0 ++ take n es).
{ rewrite E, take_app, take_ge by lia. done. }
rewrite Hs, rev_app_distr in Hu. unfold journalRevert. rewrite Hdrop.
destruct (revertLoop_undo s0 (rev (take n es)) (rev (drop n es)) s (take k (entries s)) Hu) as
  (t & -> & Ht & HJt & F1 & F2 & F3 & F4 & F5).
{ by rewrite rev_involutive, <- Hdrop, take_drop. }
simpl. exists (set_entries (take k (entries t)) t), (take n es).
rewrite F1, Htake in *.
split_and!; try done.
- simpl. rewrite length_app, length_take. lia.
- by apply (undo_bookkeeping _ _ _ _ Ht).
- by apply (journal_ok_load _ t).
Qed.

Lemma since_revert s0 s r t :
  since s0 s → nextRevisionID s0 <= r → RevertToSnapshot r s = Ok t → since s0 t.
Proof.
intros (E1 & E2 & E3 & es & rs & E4 & E5 & E6 & E7 & E8) Hr. unfold RevertToSnapshot.
rewrite E7, (search_below (nextRevisionID s0)) by done.
set (k := search r rs). rewrite lookup_app_r, Nat.add_comm, Nat.add_sub by lia.
destruct (rs !! k) as [rv|] eqn:Ek; [|done].
destruct (id rv =? r) eqn:Eid; [|done].
rewrite <- (take_drop_middle rs k rv Ek) in E8. apply chain_app in E8 as (m & j & C1 & C2 & C3 & C4).
apply chain_bounds in C1 as B1. apply chain_bounds in C4 as B2.
destruct (journalRevert_since s0 es s (journalIndex rv) E4 E5 E6) as
  (u & es1 & -> & F1 & F2 & F3 & F4 & F5 & F6 & F7 & F8 & F9); [lia|].
simpl. intros [= <-]. split; [simpl; congruence|]. split; [simpl; congruence|]. split; [done|]. simpl.
exists es1, (take k rs). split_and!; try done.
- by apply (undo_bookkeeping _ _ _ _ F4).
- by apply (journal_ok_load _ u).
- rewrite F6, E7, take_app_ge by lia. f_equal. f_equal. lia.
- rewrite F7, F3. apply (chain_weaken _ _ _ _ _ _ _ C1); lia.
Qed.

Lemma since_exec s0 s o t :
  since s0 s → (∀ r, o = OpRevert r → nextRevisionID s0 <= r) → exec o s = Ok t → since s0 t.
Proof.
intros Hs Hr He. destruct (is_revision o) eqn:Eo.
- destruct o; try discriminate Eo; simpl in He.
  + injection He as <-. by apply since_snapshot.
  + apply (since_revert s0 s i); auto.
- apply (since_extends s0 s); [done|]. apply (exec_extends o); [by apply since_wf in Hs|done..].
Qed.

Lemma since_run s0 ops : ∀ s t,
  since s0 s → (∀ r, OpRevert r ∈ ops → nextRevisionID s0 <= r) → run ops s = Ok t → since s0 t.
Proof.
induction ops as [|o ops IH]; intros s t Hs Hr; simpl; [by intros [= <-]|].
intros Hb. apply bind_Ok in Hb as (s1 & He & Hb).
apply (IH s1); [|intros r Hin; apply Hr; by apply list_elem_of_further|done].
apply (since_exec s0 s o); [done| |done]. intros r ->. apply Hr. by apply list_elem_of_here.
Qed.

(** ** Reachable states *)
Lemma New_wf c cfg : wf (New c cfg).
Proof.
split; [|split; [intros a i Hi; simpl in Hi; by rewrite lookup_empty in Hi|constructor]].
intros a o. unfold lookupObj; simpl. rewrite lookup_empty.
destruct (GetAccount c a) as [ac|] eqn:E; [|done]. intros [= <-].
by apply newObject_wf, (GetAccount_ok c a).
Qed.

Lemma New_journal c cfg : journal_ok [] (New c cfg).
Proof. split; [intros a; simpl; by rewrite lookup_empty|constructor|intros a Ha; unfold count in Ha; simpl in Ha; lia]. Qed.

Definition reachable (c : C) (cfg : TxConfig) s : Prop := ∃ ops, run ops (New c cfg) = Ok s.

Lemma chain_lower rs : ∀ n i n' i' r, chain n i rs n' i' → r ∈ rs → i <= id r.
Proof.
induction rs as [|r' rs IH]; intros n i n' i' r; simpl; [by rewrite elem_of_nil|].
intros (? & ? & Hc) [->|Hr]%elem_of_cons; [lia|]. specialize (IH _ _ _ _ r Hc Hr). lia.
Qed.

Lemma revert_id_nonneg c cfg s r t : since (New c cfg) s → RevertToSnapshot r s = Ok t → 0 <= r.
Proof.
intros (_ & _ & _ & es & rs & _ & _ & _ & E7 & E8). unfold RevertToSnapshot. rewrite E7. simpl.
destruct (rs !! search r rs) as [rv|] eqn:Ek; [|done].
destruct (id rv =? r) eqn:Eid; [|done]. boolP. intros _. rewrite <- Eid.
apply (chain_lower rs _ _ _ _ rv E8). by apply list_elem_of_lookup_2 in Ek.
Qed.

Lemma reachable_since c cfg s : reachable c cfg s → since (New c cfg) s.
Proof.
intros [ops Hr]. assert (H0 : since (New c cfg) (New c cfg)).
{ apply since_refl; [apply New_wf|apply New_journal|constructor]. }
revert Hr H0. generalize (New c cfg) at 1 3. induction ops as [|o ops IH]; intros s0; simpl.
- by intros [= ->].
- intros Hb Hs. apply bind_Ok in Hb as (s1 & He & Hb). apply (IH s1 Hb).
  apply (since_exec _ s0 o); [done| |done]. intros r ->. simpl in *.
  by apply (revert_id_nonneg c cfg s0 r s1).
Qed.

(** Reverting to the snapshot [s0] ends with. *)
Lemma revert_since s0 s V i n :
  since s0 s → validRevisions s0 = V ++ [mkRevision i n] → n = length (entries s0) →
  ids_below i V → i < nextRevisionID s0 →
  ∃ t, RevertToSnapshot i s = Ok t ∧ t ≡ s0 ∧ entries t = entries s0 ∧ validRevisions t = V ∧
       journal_ok (entries t) t.
Proof.
intros (E1 & E2 & E3 & es & rs & E4 & E5 & E6 & E7 & E8) EV -> HV Hi. unfold RevertToSnapshot.
rewrite E7, EV, <- app_assoc, (search_below i) by done. simpl.
rewrite Z.leb_refl, Nat.add_0_r, lookup_app_r, Nat.sub_diag by lia. simpl. rewrite Z.eqb_refl.
destruct (journalRevert_since s0 es s (length (entries s0)) E4 E5 E6) as
  (t & es1 & -> & F1 & F2 & F3 & F4 & F5 & F6 & F7 & F8 & F9).
{ rewrite E4, length_app. lia. }
simpl. eexists. split; [done|].
assert (es1 = []) as ->.
{ apply length_zero_iff_nil. rewrite F2, length_app in F3. lia. }
inversion F4 as [? Hw Heq|]; subst. rewrite app_nil_r in F2. split_and!; try done.
- simpl. by rewrite F6, E7, EV, <- app_assoc, take_app_length.
- by apply (journal_ok_load _ t).
Qed.

(** The dirty counts are a function of the journal. *)
Lemma journal_ok_dirties es s t : journal_ok es s → journal_ok es t → dirties s = dirties t.
Proof. intros [J _ _] [J' _ _]. apply map_eq. intros a. by rewrite J, J'. Qed.

Lemma revert_to_snapshot c cfg s ops t :
  reachable c cfg s →
  run ops (Snapshot s).2 = Ok t →
  (∀ r, OpRevert r ∈ ops → (Snapshot s).1 < r) →
  ∃ u, RevertToSnapshot (Snapshot s).1 t = Ok u ∧ u ≡ s ∧
       entries u = entries s ∧ dirties u = dirties s ∧ validRevisions u = validRevisions s.
Proof.
intros Hreach Hrun Hr. pose proof (reachable_since c cfg s Hreach) as Hs.
assert (Hid : ids_below (nextRevisionID s) (validRevisions s)).
{ destruct Hs as (_ & _ & _ & es & rs & _ & _ & _ & E7 & E8). rewrite E7. simpl.
  apply Forall_forall. intros r Hin. by apply (chain_ids rs _ _ _ _ r E8). }
pose proof (since_snapshot _ _ Hs) as Hs1.
assert (H0 : since (Snapshot s).2 (Snapshot s).2).
{ apply since_refl; [by apply since_wf in Hs1|by apply since_journal in Hs1|]. simpl.
  apply Forall_app. split; [|by repeat constructor; simpl; lia].
  apply (Forall_impl _ _ _ Hid). intros r. simpl. lia. }
destruct (revert_since _ t (validRevisions s) (nextRevisionID s) (length (entries s))
  (since_run _ ops _ t H0 (λ r Hin, ltac:(specialize (Hr r Hin); simpl in *; lia)) Hrun))
  as (u & E1 & E2 & E3 & E4 & E5); try done; [simpl; lia|].
exists u. split_and!; try done.
apply (journal_ok_dirties (entries s)); [by rewrite E3 in E5|by apply since_journal in Hs].
Qed.


(** ** What equivalence means for the caller *)
Lemma lookupObj_getter {R : Type} (f : stateObject → R) (d : R) a s t :
  (∀ o o', obj_equiv (ctx s) o o' → f o = f o') → s ≡ t →
  match lookupObj s a with Some o => f o | None => d end =
  match lookupObj t a with Some o => f o | None => d end.
Proof.
intros Hf (_ & _ & _ & _ & _ & _ & E). specialize (E a).
destruct (lookupObj s a), (lookupObj t a); inversion E; subst; auto.
Qed.

Lemma getter_value {R : Type} (f : stateObject → R) (d : R) a s :
  (let '(o, s') := getStateObject a s in (match o with Some o => f o | None => d end, s')).1 =
  match lookupObj s a with Some o => f o | None => d end.
Proof. destruct (getStateObject_spec a s) as (<- & _). by destruct (getStateObject a s). Qed.

Lemma GetState_value a k s : wf s →
  (GetState a k s).1 = match lookupObj s a with Some o => stateView (ctx s) o k | None => zeroHash end.
Proof.
intros Hw. unfold GetState. destruct (getStateObject_spec a s) as (E1 & E2 & E3).
pose proof (getStateObject_loads a s Hw) as Hl. rewrite <- E1.
destruct (getStateObject a s) as [[o|] s1]; simpl in *; [|done].
destruct (objGetState_spec a o k s1) as (V & _); [apply Hl|by apply E2|].
destruct (objGetState o k s1) as [[v o'] s2]; simpl in *. rewrite V.
destruct Hl as ((-> & _) & _). done.
Qed.

Lemma GetCode_value a s : wf s →
  (GetCode a s).1 = match lookupObj s a with Some o => codeView (ctx s) o | None => None end.
Proof.
intros Hw. unfold GetCode. destruct (getStateObject_spec a s) as (E1 & E2 & E3).
pose proof (getStateObject_loads a s Hw) as Hl. rewrite <- E1.
destruct (getStateObject a s) as [[o|] s1]; simpl in *; [|done].
destruct (objCode_spec a o s1) as (V & _); [apply Hl|by apply E2|].
destruct (objCode o s1) as [[v o'] s2]; simpl in *. rewrite V.
destruct Hl as ((-> & _) & _). done.
Qed.

(** Equivalent states answer every query of the interpreter alike. *)
Theorem equivalent_states_agree s t a k :
  wf s → wf t → s ≡ t →
  (Exist a s).1 = (Exist a t).1 ∧ (Empty a s).1 = (Empty a t).1 ∧
  (GetBalance a s).1 = (GetBalance a t).1 ∧ (GetNonce a s).1 = (GetNonce a t).1 ∧
  (GetCodeHash a s).1 = (GetCodeHash a t).1 ∧ (HasSuicided a s).1 = (HasSuicided a t).1 ∧
  (GetCode a s).1 = (GetCode a t).1 ∧ (GetState a k s).1 = (GetState a k t).1 ∧
  refund s = refund t ∧ logs s = logs t ∧ AddressInAccessList a s = AddressInAccessList a t ∧
  SlotInAccessList a k s = SlotInAccessList a k t.
Proof.
intros Hs Ht E. pose proof E as (Ec & _ & _ & E4 & E5 & E6 & _).
rewrite (GetCode_value a s Hs), (GetCode_value a t Ht), (GetState_value a k s Hs), (GetState_value a k t Ht), <- Ec.
unfold AddressInAccessList, SlotInAccessList. rewrite <- E6.
unfold Empty, GetBalance, GetNonce, GetCodeHash, HasSuicided. rewrite !getter_value.
split.
{ unfold Exist. pose proof (proj1 (getStateObject_spec a s)) as V1. pose proof (proj1 (getStateObject_spec a t)) as V2.
  destruct (getStateObject a s) as [x s1], (getStateObject a t) as [y t1]; simpl in *. subst x y.
  apply bool_decide_ext. destruct E as (_ & _ & _ & _ & _ & _ & E). specialize (E a).
  destruct (lookupObj s a), (lookupObj t a); inversion E; subst; split; (by intros [] || eauto). }
split_and!; try done; apply lookupObj_getter; try done; intros o o' (? & Eac & ? & ? & ?);
  unfold empty; rewrite ?Eac; done.
Qed.

(** ** The limit on precompile calls *)
Lemma AddPrecompileFn_counter a c s :
  precompileCallsCounter (AddPrecompileFn a c s).2 = (precompileCallsCounter s + 1) mod 2 ^ 8 ∧
  ((AddPrecompileFn a c s).1 = Ok tt ↔ (precompileCallsCounter s + 1) mod 2 ^ 8 <= MaxPrecompileCalls).
Proof.
unfold AddPrecompileFn. assert (Ec : precompileCallsCounter (getOrNewStateObject a s).2 = precompileCallsCounter s).
{ unfold getOrNewStateObject, createObject, getStateObject, append. repeat destr_match; simplify_eq; done. }
destruct (getOrNewStateObject a s) as [o s1]; simpl in *. rewrite Ec. split; [done|].
destruct (_ <? _) eqn:E; boolP; split; intros; (done || lia).
Qed.

(** The counter is a byte: of the calls of one transaction the (n+1)-th is
    accepted exactly when n+1 modulo 256 is at most 7, so calls are refused from
    the eighth on but accepted again after 255. *)
Theorem precompile_limit c cfg a x n :
  (AddPrecompileFn a x (Nat.iter n (fun s => (AddPrecompileFn a x s).2) (New c cfg))).1 = Ok tt ↔
  (Z.of_nat n + 1) mod 2 ^ 8 <= MaxPrecompileCalls.
Proof.
assert (Hn : precompileCallsCounter (Nat.iter n (fun s => (AddPrecompileFn a x s).2) (New c cfg)) = Z.of_nat n mod 2 ^ 8).
{ induction n as [|n IH]; [done|]. simpl Nat.iter.
  rewrite (proj1 (AddPrecompileFn_counter a x _)), IH, Zplus_mod_idemp_l. f_equal. lia. }
rewrite (proj2 (AddPrecompileFn_counter a x _)), Hn, Zplus_mod_idemp_l. done.
Qed.
End runs.
