(* ===== verification/EvmCommit.v ===== *)
(** * x/evm/statedb: committing

    After [Commit] the store shows every account the way the transaction saw it:
    changed accounts with their new nonce, balance, code and storage,
    self-destructed ones gone, all others as before. *)

From stdpp Require Import gmap strings list sorting.
From Stdlib Require Import ZArith Lia.
From S2P Require Import Prelude EvmStateDB EvmJournal EvmRevert EvmSnapshot.

Open Scope Z_scope.

(** What the state relies on in the store (x/evm/keeper/statedb.go). *)
Class StateKeeperLaws `{EvmEnv} {C : Type} (K : StateKeeper C) : Prop := {
  keeper_scaled :: ScaledKeeper K;
  SetAccount_get c a ac c' :
    account_ok ac → SetAccount c a ac = (Ok tt, c') → GetAccount c' a = Some ac;
  SetAccount_frame c a ac c' :
    account_ok ac → SetAccount c a ac = (Ok tt, c') →
    (∀ b, b ≠ a → GetAccount c' b = GetAccount c b) ∧
    (∀ b k, KGetState c' b k = KGetState c b k) ∧ (∀ h, KGetCode c' h = KGetCode c h);
  KSetState_get c a k v b k' :
    KGetState (KSetState c a k (Bytes v)) b k' =
    if decide (b = a ∧ k' = k) then v else KGetState c b k';
  KSetState_frame c a k v :
    (∀ b, GetAccount (KSetState c a k v) b = GetAccount c b) ∧
    (∀ h, KGetCode (KSetState c a k v) h = KGetCode c h);
  KSetCode_get c h x h' :
    x ≠ EmptyString → KGetCode (KSetCode c h x) h' = if decide (h' = h) then Some x else KGetCode c h';
  KSetCode_frame c h x :
    (∀ b, GetAccount (KSetCode c h x) b = GetAccount c b) ∧
    (∀ b k, KGetState (KSetCode c h x) b k = KGetState c b k);
  DeleteCode_get c h h' :
    KGetCode (DeleteCode c h) h' = if decide (h' = h) then None else KGetCode c h';
  DeleteCode_frame c h :
    (∀ b, GetAccount (DeleteCode c h) b = GetAccount c b) ∧
    (∀ b k, KGetState (DeleteCode c h) b k = KGetState c b k);
  DeleteAccount_get c a c' : DeleteAccount c a = (Ok tt, c') → GetAccount c' a = None;
  DeleteAccount_frame c a c' :
    DeleteAccount c a = (Ok tt, c') →
    (∀ b, b ≠ a → GetAccount c' b = GetAccount c b) ∧
    (∀ b k, b ≠ a → KGetState c' b k = KGetState c b k) ∧ (∀ h, KGetCode c' h = KGetCode c h);
}.

Section commit.
Context `{EvmEnv} {C : Type} `{K : StateKeeper C} `{!StateKeeperLaws K}.
Implicit Types (s t : StateDB C) (a : Address) (o : stateObject) (c : C) (e : JournalEntry C).

(** ** Accounts the journal does not touch *)
Definition touches e a : Prop :=
  Dirtied e = Some a ∨ ∃ p, e = resetObjectChange p ∧ address p = a.

Lemma withObject_lookup b f s t a :
  wf s → (∀ o, address (f o) = address o) → withObject b f s = Ok t → b ≠ a →
  lookupObj t a = lookupObj s a.
Proof.
intros Hw Hf. rewrite withObject_unfold. destruct (lookupObj s b) as [o|] eqn:Ho; [|done].
intros [= <-] Hne. destruct (wf_objects s Hw b o Ho) as (A1 & _).
rewrite lookupObj_set, Hf, A1, decide_False by done.
by destruct (getStateObject_spec b s) as (_ & _ & ->).
Qed.

Lemma Revert_lookup e s t a :
  wf s → Revert e s = Ok t → ¬ touches e a → lookupObj t a = lookupObj s a.
Proof.
intros Hw Hr Ht. destruct e as [b|p|b prev x|b x|b x|b k v|b x h| | | | |].
1: { injection Hr as <-. unfold lookupObj; simpl. rewrite lookup_delete_ne; [done|].
     intros ->. apply Ht. by left. }
1: { injection Hr as <-. rewrite lookupObj_set, decide_False; [done|].
     intros ->. apply Ht. right. eauto. }
1: { rewrite suicide_revert_unfold in Hr. injection Hr as <-.
     assert (Hne : b ≠ a) by (intros ->; apply Ht; by left).
     destruct (getStateObject_spec b s) as (_ & _ & El).
     destruct (lookupObj s b) as [o|] eqn:Ho; [|apply El].
     destruct (wf_objects s Hw b o Ho) as (A1 & _).
     rewrite lookupObj_set. simpl. by rewrite A1, decide_False by done. }
1-4: assert (Hne : b ≠ a) by (intros ->; apply Ht; by left); by eapply withObject_lookup in Hr.
all: simpl in Hr; repeat destr_match; inv_ok; simplify_eq; done.
Qed.

Lemma undo_lookup s0 es s a :
  undo s0 es s → Forall (fun e => ¬ touches e a) es → ctx s = ctx s0 →
  option_Forall2 (obj_equiv (ctx s)) (lookupObj s a) (lookupObj s0 a).
Proof.
induction 1 as [s Hs E|e es s t Hs Hr Hu IH]; intros Hf Hc.
- by destruct E as (_ & _ & _ & _ & _ & _ & E).
- apply Forall_cons in Hf as [He Hf]. rewrite <- (Revert_lookup e s t a Hs Hr He).
  destruct (Revert_objects e s t Hr) as ((_ & _ & _ & Ec & _) & _). rewrite <- Ec. apply IH; [done|].
  by rewrite Ec.
Qed.

Lemma count_zero a es : count a es = 0 → Forall (fun e => Dirtied e ≠ Some a) es.
Proof.
unfold count. induction es as [|e es IH]; simpl; [constructor|].
pose proof (count_nonneg a es) as Hp. unfold count in Hp. unfold dirtyOf at 1. case_decide; [lia|].
intros. constructor; [done|]. apply IH. lia.
Qed.

(** Every account [CreateAccount] has overwritten has been written to since; the
    interpreter sets the nonce of what it creates. *)
Definition resets_written s : Prop :=
  ∀ p, resetObjectChange p ∈ entries s → is_Some (dirties s !! address p).

Lemma clean_unchanged c cfg s a :
  reachable c cfg s → resets_written s → dirties s !! a = None →
  option_Forall2 (obj_equiv c) (lookupObj s a) (newObject a <$> GetAccount c a).
Proof.
intros Hr Hres Hd. destruct (reachable_since c cfg s Hr) as (E1 & _ & _ & es & rs & E4 & E5 & E6 & _).
simpl in *. subst es. rewrite <- E1.
assert (Hc : count a (entries s) = 0).
{ pose proof (j_dirties _ _ E6 a) as Hj. rewrite Hd in Hj. destruct (count a (entries s) =? 0) eqn:E0; [|done]. by boolP. }
pose proof (undo_lookup _ _ _ a E5) as Hu. unfold lookupObj at 2 in Hu; simpl in Hu.
rewrite lookup_empty, <- E1 in Hu. apply Hu; [|done].
apply Forall_rev, Forall_forall. intros e He [Hde|(p & -> & Hp)].
- apply count_zero in Hc. rewrite Forall_forall in Hc. by apply (Hc e).
- destruct (Hres p He) as [n Hn]. congruence.
Qed.

(** ** Writing one object *)
Lemma SortedKeys_elem (m : gmap Hash Hash) k : k ∈ SortedKeys m ↔ is_Some (m !! k).
Proof.
unfold SortedKeys. rewrite merge_sort_Permutation, list_elem_of_fmap. split.
- intros ([k' v] & -> & Hin). apply elem_of_map_to_list in Hin. simpl. eauto.
- intros [v Hv]. exists (k, v). by rewrite elem_of_map_to_list.
Qed.

Lemma commitSlot_Set a m c k : commitSlot a m c k = KSetState c a k (Bytes (default zeroHash (m !! k))).
Proof. unfold commitSlot. by rewrite Bytes_length. Qed.

Lemma commitSlots_spec a m keys : ∀ c,
  (∀ b k, KGetState (foldl (commitSlot a m) c keys) b k =
          if decide (b = a ∧ k ∈ keys) then default zeroHash (m !! k) else KGetState c b k) ∧
  (∀ b, GetAccount (foldl (commitSlot a m) c keys) b = GetAccount c b) ∧
  (∀ h, KGetCode (foldl (commitSlot a m) c keys) h = KGetCode c h).
Proof.
induction keys as [|k0 keys IH]; intros c; simpl.
- split_and!; try done. intros b k. rewrite decide_False; [done|]. intros [_ Hk]. by apply elem_of_nil in Hk.
- rewrite commitSlot_Set. destruct (IH (KSetState c a k0 (Bytes (default zeroHash (m !! k0))))) as (I1 & I2 & I3).
  destruct (KSetState_frame c a k0 (Bytes (default zeroHash (m !! k0)))) as (F1 & F2).
  split_and!; [|intros; by rewrite I2|intros; by rewrite I3].
  intros b k. rewrite I1, KSetState_get. pose proof (elem_of_cons keys k k0) as Hk.
  repeat case_decide; naive_solver.
Qed.

(** The entry of the code table an object writes. *)
Definition codeWritten o : option (Hash * option string) :=
  if suicided o then None
  else match code o with
       | Some x => if dirtyCode o
                   then Some (CodeHash (account o), if (String.length x =? 0)%nat then None else Some x)
                   else None
       | None => None
       end.

Lemma commitCode_spec o c :
  suicided o = false →
  (∀ h, KGetCode (commitCode o c) h =
        match codeWritten o with
        | Some (h', x) => if decide (h = h') then x else KGetCode c h
        | None => KGetCode c h
        end) ∧
  (∀ b, GetAccount (commitCode o c) b = GetAccount c b) ∧
  (∀ b k, KGetState (commitCode o c) b k = KGetState c b k).
Proof.
intros Hs. unfold commitCode, codeWritten. rewrite Hs.
destruct (code o) as [x|]; [|done]. destruct (dirtyCode o); [|done].
destruct (String.length x =? 0)%nat eqn:E.
- split; [intros; apply DeleteCode_get|apply DeleteCode_frame].
- split; [intros; apply KSetCode_get; by intros ->|apply KSetCode_frame].
Qed.

(** The store [c'] shows the object [o], given the store [c] it was loaded from. *)
Definition shows c c' a o : Prop :=
  if suicided o then GetAccount c' a = None
  else GetAccount c' a = Some (account o) ∧
       ∀ k, KGetState c' a k = default (KGetState c a k) (dirtyStorage o !! k).

Definition same_at c c' a : Prop :=
  GetAccount c' a = GetAccount c a ∧ ∀ k, KGetState c' a k = KGetState c a k.

Lemma commitObject_spec a o c c' :
  object_wf c a o ∨ address o = a ∧ account_ok (account o) →
  commitObject o c = (Ok tt, c') →
  shows c c' a o ∧ (∀ b, b ≠ a → same_at c c' b) ∧
  ∀ h, KGetCode c' h = match codeWritten o with
                       | Some (h', x) => if decide (h = h') then x else KGetCode c h
                       | None => KGetCode c h
                       end.
Proof.
intros Hwf. assert (address o = a ∧ account_ok (account o)) as [Ea Hac].
{ destruct Hwf as [(? & _ & ?)|]; auto. }
unfold commitObject, shows. destruct (suicided o) eqn:Es.
- rewrite Ea. intros Hd. destruct (DeleteAccount_frame _ _ _ Hd) as (F1 & F2 & F3).
  split_and!; [by apply (DeleteAccount_get c a)|intros b Hb; split; auto|].
  intros h. unfold codeWritten. by rewrite Es, F3.
- destruct (commitCode_spec o c Es) as (G1 & G2 & G3). rewrite Ea.
  destruct (SetAccount (commitCode o c) a (account o)) as [[[]|] c1] eqn:Esa; [|done].
  intros [= <-]. apply (SetAccount_get _ _ _ _ Hac) in Esa as S1.
  destruct (SetAccount_frame _ _ _ _ Hac Esa) as (S2 & S3 & S4).
  destruct (commitSlots_spec a (dirtyStorage o) (SortedKeys (dirtyStorage o)) c1) as (T1 & T2 & T3).
  split_and!; [by rewrite T2| | |intros h; by rewrite T3, S4, G1].
  + intros k. rewrite T1, S3, G3. case_decide as D.
    * destruct D as [_ D]. apply SortedKeys_elem in D as [v ->]. done.
    * destruct (dirtyStorage o !! k) as [v|] eqn:Ek; [|done]. destruct D. split; [done|].
      apply SortedKeys_elem. eauto.
  + intros b Hb. split; [by rewrite T2, S2, G2|]. intros k. rewrite T1, decide_False by naive_solver.
    by rewrite S3, G3.
Qed.

(** ** The loop over the dirty accounts *)
Definition written s (l : list Address) (h : Hash) (x : option string) : Prop :=
  ∃ a o, a ∈ l ∧ stateObjects s !! a = Some o ∧ codeWritten o = Some (h, x).

Lemma commitLoop_spec s l : ∀ c c',
  NoDup l → (∀ a o, a ∈ l → stateObjects s !! a = Some o → address o = a ∧ account_ok (account o)) →
  commitLoop s l c = (Ok tt, c') →
  (∀ a o, a ∈ l → stateObjects s !! a = Some o → shows c c' a o) ∧
  (∀ a, a ∉ l → same_at c c' a) ∧
  (∀ h, written s l h (KGetCode c' h) ∨
        (∀ x, ¬ written s l h x) ∧ KGetCode c' h = KGetCode c h).
Proof.
induction l as [|a l IH]; intros c c' Hnd Hwf; simpl.
{ intros [= <-]. split_and!; [intros a o Ha; by apply elem_of_nil in Ha|done|].
  intros h. right. split; [|done]. intros x (a & o & Ha & _). by apply elem_of_nil in Ha. }
apply NoDup_cons in Hnd as [Hn Hnd].
destruct (stateObjects s !! a) as [o|] eqn:Ho; [|done].
destruct (commitObject o c) as [[[]|] c1] eqn:Ec; [|done]. intros Hl.
destruct (commitObject_spec a o c c1) as (O1 & O2 & O3);
  [right; apply (Hwf a); [by apply list_elem_of_here|done]|done|].
destruct (IH c1 c') as (I1 & I2 & I3); [done|intros; apply Hwf; [by apply list_elem_of_further|done]|done|].
destruct (I2 a Hn) as [E1 E2]. split_and!.
- intros b p Hb Hp. apply elem_of_cons in Hb as [->|Hb].
  + rewrite Ho in Hp. injection Hp as <-. unfold shows in *. rewrite E1.
    destruct (suicided o); [done|]. destruct O1 as [? O1]. split; [done|]. intros k. by rewrite E2.
  + assert (Hne : b ≠ a) by (by intros ->). destruct (O2 b Hne) as [F1 F2].
    specialize (I1 b p Hb Hp). unfold shows in *. destruct (suicided p); [done|].
    destruct I1 as [? I1]. split; [done|]. intros k. by rewrite I1, F2.
- intros b [Hba Hbl]%not_elem_of_cons. destruct (I2 b Hbl) as [F1 F2], (O2 b Hba) as [G1 G2].
  split; [by rewrite F1|]. intros k. by rewrite F2.
- intros h. destruct (I3 h) as [(b & p & Hb & Hp & Hw)|[Hno Heq]].
  + left. exists b, p. split_and!; try done. by apply list_elem_of_further.
  + rewrite Heq, O3. destruct (codeWritten o) as [[h' x]|] eqn:Ew.
    * case_decide as Eh; [subst; left; exists a, o; split_and!; try done; by apply list_elem_of_here|].
      right. split; [|done]. intros y (b & p & [->|Hb]%elem_of_cons & Hp & Hw); [|by apply (Hno y); exists b, p].
      rewrite Ho in Hp. injection Hp as <-. congruence.
    * right. split; [|done]. intros y (b & p & [->|Hb]%elem_of_cons & Hp & Hw); [|by apply (Hno y); exists b, p].
      rewrite Ho in Hp. injection Hp as <-. congruence.
Qed.

Lemma sortedDirties_elem s a : a ∈ sortedDirties s ↔ is_Some (dirties s !! a).
Proof.
unfold sortedDirties. rewrite merge_sort_Permutation, list_elem_of_fmap. split.
- intros ([k v] & -> & Hin). apply elem_of_map_to_list in Hin. simpl. eauto.
- intros [v Hv]. exists (a, v). by rewrite elem_of_map_to_list.
Qed.

Lemma sortedDirties_NoDup s : NoDup (sortedDirties s).
Proof. unfold sortedDirties. rewrite merge_sort_Permutation. apply NoDup_fst_map_to_list. Qed.

(** ** The whole state *)

(** Accounts with the same code hash have the same code, and the hash of empty code
    belongs to empty code: no two codes of this state collide. *)
Definition codes_agree s : Prop :=
  (∀ a b o p, lookupObj s a = Some o → lookupObj s b = Some p →
     CodeHash (account o) = CodeHash (account p) →
     default EmptyString (codeView (ctx s) o) = default EmptyString (codeView (ctx s) p)) ∧
  (∀ a o, lookupObj s a = Some o → IsEmptyCodeHash (CodeHash (account o)) = true →
     default EmptyString (codeView (ctx s) o) = EmptyString).

(** The code a store shows under a hash. *)
Definition storedCode c (h : Hash) : string :=
  if IsEmptyCodeHash h then EmptyString else default EmptyString (KGetCode c h).

(** What the store [c'] shows of [a] is what the state [s] shows. *)
Definition stored s c' a : Prop :=
  match lookupObj s a with
  | None => GetAccount c' a = None
  | Some o =>
      if suicided o then GetAccount c' a = None
      else GetAccount c' a = Some (account o) ∧
           storedCode c' (CodeHash (account o)) = default EmptyString (codeView (ctx s) o) ∧
           ∀ k, KGetState c' a k = stateView (ctx s) o k
  end.

Lemma dirty_live c cfg s a :
  reachable c cfg s → is_Some (dirties s !! a) → is_Some (stateObjects s !! a).
Proof.
intros Hr [n Hn]. destruct (since_journal _ _ (reachable_since c cfg s Hr)) as [J1 _ J3].
apply J3. rewrite J1 in Hn. destruct (count a (entries s) =? 0) eqn:E; [done|]. boolP.
pose proof (count_nonneg a (entries s)). lia.
Qed.

(** Code that no written account shares is the store's own. *)
Lemma unwritten_code c cfg s a o :
  reachable c cfg s → resets_written s → lookupObj s a = Some o → suicided o = false →
  IsEmptyCodeHash (CodeHash (account o)) = false →
  (∀ x, ¬ written s (sortedDirties s) (CodeHash (account o)) x) →
  codeView c o = KGetCode c (CodeHash (account o)).
Proof.
intros Hr Hres Hl Hs He Hno. pose proof (reachable_since c cfg s Hr) as Hsince.
pose proof (since_wf _ _ Hsince) as Hw. assert (Ec : ctx s = c) by apply Hsince.
destruct (dirties s !! a) as [n|] eqn:Hd.
- destruct (dirty_live c cfg s a Hr) as [o' Ho']; [eauto|].
  assert (o' = o) as -> by (unfold lookupObj in Hl; rewrite Ho' in Hl; congruence).
  destruct (wf_objects s Hw a o Hl) as (_ & [_ A2] & _). rewrite Ec in A2.
  unfold codeView. rewrite He. destruct (code o) as [x|] eqn:Ex; [|done].
  destruct (dirtyCode o) eqn:Edc; [|by rewrite (A2 x)].
  exfalso. eapply Hno. exists a, o. split_and!; [apply sortedDirties_elem; eauto|done|].
  unfold codeWritten. by rewrite Hs, Ex, Edc.
- pose proof (clean_unchanged c cfg s a Hr Hres Hd) as Hcl. rewrite Hl in Hcl.
  destruct (GetAccount c a) as [ac|]; simpl in Hcl; inversion Hcl as [? ? (_ & Eac & _ & Ecv & _)|]; subst.
  rewrite Ecv, Eac in *. unfold codeView; simpl in *. by rewrite He.
Qed.

Lemma stored_code c cfg s a o c' :
  reachable c cfg s → resets_written s → codes_agree s → lookupObj s a = Some o → suicided o = false →
  (∀ h, written s (sortedDirties s) h (KGetCode c' h) ∨
        (∀ x, ¬ written s (sortedDirties s) h x) ∧ KGetCode c' h = KGetCode c h) →
  storedCode c' (CodeHash (account o)) = default EmptyString (codeView c o).
Proof.
intros Hr Hres [Hag Hemp] Hl Hs Hw. assert (Ec : ctx s = c) by apply (reachable_since c cfg s Hr).
rewrite Ec in *. unfold storedCode. destruct (IsEmptyCodeHash _) eqn:He; [symmetry; by apply (Hemp a)|].
destruct (Hw (CodeHash (account o))) as [(b & p & _ & Hp & Hcw)|[Hno ->]].
- assert (Hlp : lookupObj s b = Some p) by (unfold lookupObj; by rewrite Hp).
  unfold codeWritten in Hcw. destruct (suicided p), (code p) as [x|] eqn:Ex; try done.
  destruct (dirtyCode p); [|done]. injection Hcw as Eh Ek. rewrite <- Ek, (Hag a b o p Hl Hlp) by done.
  unfold codeView. rewrite Ex. simpl. destruct (String.length x =? 0)%nat eqn:E0; [|done].
  by destruct x.
- by rewrite (unwritten_code c cfg s a o).
Qed.

Lemma commitWithCtx_stored c cfg s c' :
  reachable c cfg s → resets_written s → codes_agree s →
  commitWithCtx s c = (Ok tt, c') → ∀ a, stored s c' a.
Proof.
intros Hr Hres Hag Hcm a. pose proof (reachable_since c cfg s Hr) as Hsince.
pose proof (since_wf _ _ Hsince) as Hw. assert (Ec : ctx s = c) by apply Hsince.
destruct (commitLoop_spec s (sortedDirties s) c c' (sortedDirties_NoDup s)) as (L1 & L2 & L3).
{ intros b o _ Ho. destruct (live_address b o s Hw Ho) as (? & _ & ?). auto. }
{ done. }
unfold stored. rewrite Ec. destruct (dirties s !! a) as [n|] eqn:Hd.
- destruct (dirty_live c cfg s a Hr) as [o Ho]; [eauto|].
  assert (Hl : lookupObj s a = Some o) by (unfold lookupObj; by rewrite Ho). rewrite Hl.
  assert (Hsh : shows c c' a o) by (apply L1; [apply sortedDirties_elem; eauto|done]).
  unfold shows in Hsh. destruct (suicided o) eqn:Es; [done|]. destruct Hsh as [H1 H2].
  split_and!; [done|by apply (stored_code c cfg s a)|]. intros k. rewrite H2.
  destruct (wf_objects s Hw a o Hl) as (<- & [A2 _] & _). rewrite Ec in A2. unfold stateView. f_equal.
  destruct (originStorage o !! k) as [v|] eqn:Ek; [by rewrite (A2 k v)|done].
- destruct (L2 a) as [F1 F2]; [rewrite sortedDirties_elem, Hd; by intros []|].
  pose proof (clean_unchanged c cfg s a Hr Hres Hd) as Hcl.
  destruct (lookupObj s a) as [o|] eqn:Hl, (GetAccount c a) as [ac|]; simpl in Hcl; inversion Hcl as [? ? Heq|]; subst; [|done].
  pose proof Heq as (_ & Eac & Es & _ & Est). simpl in Es. rewrite Es.
  split_and!; [by rewrite F1, Eac|by apply (stored_code (ctx s) cfg s a)|].
  intros k. by rewrite F2, Est.
Qed.


(** A precompile runs on the state the EVM has at the call: what [RunSetup] of
    the first call leaves in the cache context agrees with the transaction's state
    for every address. *)
Theorem precompile_sees_state c cfg s c0 s' :
  reachable c cfg s → cacheCtx s = None → resets_written s → codes_agree s →
  RunSetup s = (Ok c0, s') → ctx s' = ctx s ∧ ∀ a, stored s (storeCtx s') a.
Proof.
intros Hr Hc Hres Hag. unfold RunSetup, MultiStoreSnapshot, GetCacheContext. rewrite Hc. simpl.
unfold CommitWithCacheCtx. simpl. assert (Ec : ctx s = c) by apply (reachable_since c cfg s Hr). rewrite Ec.
assert (commitWithCtx (cache s) c = commitWithCtx s c) as ->.
{ unfold commitWithCtx. assert (sortedDirties (cache s) = sortedDirties s) as -> by done.
  generalize (sortedDirties s). intros l. clear. revert c. induction l as [|a l IH]; intros c; simpl; [done|].
  destruct (stateObjects s !! a); [|done]. destruct (commitObject s0 c) as [[] c1]; [apply IH|done]. }
destruct (commitWithCtx s c) as [[[]|] c'] eqn:E; [|done]. intros [= <- <-]. split; [done|].
intros a. simpl. by apply (commitWithCtx_stored c cfg).
Qed.
End commit.
