(* ===== verification/EvmKeeper.v ===== *)
(** * x/evm/keeper: the store behind the state

    The methods of x/evm/keeper/statedb.go and keeper.go that implement the
    interface [StateKeeper], over the module's key-value store, the bank (through
    x/evm/wrappers/bank.go) and the account keeper of the SDK.  They satisfy
    [StateKeeperLaws], so the theorems on [Commit] hold of the real store. *)

From stdpp Require Import gmap strings list sorting.
From Stdlib Require Import ZArith Lia.
From S2P Require Import Prelude Bank EvmStateDB EvmJournal EvmRevert EvmSnapshot EvmCommit.

Open Scope Z_scope.

(** ** The account keeper of the SDK *)
Class AuthKeeper (A : Type) := {
  AuthAccount : Type;
  GetAddress : AuthAccount → addr;
  GetSequence : AuthAccount → Z;
  SetSequence : Z → AuthAccount → result AuthAccount;
  AuthGetAccount : A → addr → option AuthAccount;
  NewAccountWithAddress : A → addr → AuthAccount * A;
  AuthSetAccount : A → AuthAccount → A;
  AuthRemoveAccount : A → AuthAccount → A;
}.

Class AuthLaws {A} (K : AuthKeeper A) : Prop := {
  auth_address s a ac : AuthGetAccount s a = Some ac → GetAddress ac = a;
  auth_sequence n ac ac' :
    SetSequence n ac = Ok ac' → GetSequence ac' = n ∧ GetAddress ac' = GetAddress ac;
  auth_new_address s a : GetAddress (NewAccountWithAddress s a).1 = a;
  auth_new_get s a b : AuthGetAccount (NewAccountWithAddress s a).2 b = AuthGetAccount s b;
  auth_set s ac b :
    AuthGetAccount (AuthSetAccount s ac) b = if decide (b = GetAddress ac) then Some ac else AuthGetAccount s b;
  auth_remove s ac b :
    AuthGetAccount (AuthRemoveAccount s ac) b = if decide (b = GetAddress ac) then None else AuthGetAccount s b;
}.

(** ** The module's store: the prefixes [KeyPrefixCodeHash], [KeyPrefixCode] and
    [KeyPrefixStorage] of types/key.go *)
Record EvmKV := mkEvmKV {
  codeHashes : gmap Address string;
  codes : gmap Hash string;
  storage : gmap (Address * Hash) string;
}.

(** What an [sdk.Context] of this chain holds for the EVM: the bank's state, the
    state of the send restrictions, the accounts and the module's store. *)
Record EvmCtx (B S A : Type) := mkEvmCtx { cBank : B; cHooks : S; cAuth : A; cKV : EvmKV }.
Arguments mkEvmCtx {B S A}.
Arguments cBank {B S A}.
Arguments cHooks {B S A}.
Arguments cAuth {B S A}.
Arguments cKV {B S A}.

Section keeper.
Context `{EvmEnv} {B S A : Type} `{BankOps B} `{AuthKeeper A}.

(** The EVM coin, the address under which the SDK knows an EVM address, and the
    chain of send restrictions. *)
Variable evmDenom : denom.
Variable AccAddress : Address → addr.
Variable r : Restriction B S.

Abbreviation C := (EvmCtx B S A).
Implicit Types (c : C) (a : Address).

Definition ModuleName : string := "evm".

Definition with_bank (w : B * S) c : C := mkEvmCtx w.1 w.2 (cAuth c) (cKV c).
Definition with_auth (x : A) c : C := mkEvmCtx (cBank c) (cHooks c) x (cKV c).
Definition with_codeHashes (m : gmap Address string) c : C :=
  mkEvmCtx (cBank c) (cHooks c) (cAuth c) (mkEvmKV m (codes (cKV c)) (storage (cKV c))).
Definition with_codes (m : gmap Hash string) c : C :=
  mkEvmCtx (cBank c) (cHooks c) (cAuth c) (mkEvmKV (codeHashes (cKV c)) m (storage (cKV c))).
Definition with_storage (m : gmap (Address * Hash) string) c : C :=
  mkEvmCtx (cBank c) (cHooks c) (cAuth c) (mkEvmKV (codeHashes (cKV c)) (codes (cKV c)) m).

(** *** types/scaling.go and wrappers/bank.go *)
Definition MustConvertEvmCoinTo18Decimals (amount : Z) : Z := amount * ConversionFactor EVMCoinDecimals.
Definition ConvertEvmCoinFrom18Decimals (amount : Z) : Z := Z.quot amount (ConversionFactor EVMCoinDecimals).

Definition WrapperGetBalance c (x : addr) : Z :=
  MustConvertEvmCoinTo18Decimals (Bank.GetBalance (cBank c) x evmDenom).

Definition MintAmountToAccount c (recipient : addr) (amt : Z) : result unit * C :=
  let coinsToMint := [(evmDenom, ConvertEvmCoinFrom18Decimals amt)] in
  match MintCoins (cBank c) ModuleName coinsToMint with
  | Err e => (Err e, c)
  | Ok b =>
      let '(res, w) := SendCoinsFromModuleToAccount r (b, cHooks c) ModuleName recipient coinsToMint in
      (res, with_bank w c)
  end.

Definition BurnAmountFromAccount c (account : addr) (amt : Z) : result unit * C :=
  let coinsToBurn := [(evmDenom, ConvertEvmCoinFrom18Decimals amt)] in
  match SendCoinsFromAccountToModule r (cBank c, cHooks c) account ModuleName coinsToBurn with
  | (Err e, w) => (Err e, with_bank w c)
  | (Ok _, w) =>
      match BurnCoins w.1 ModuleName coinsToBurn with
      | Err e => (Err e, with_bank w c)
      | Ok b => (Ok tt, with_bank (b, w.2) c)
      end
  end.

(** *** keeper/keeper.go, keeper/utils.go and keeper/statedb.go *)
Definition KeeperGetBalance c a : Z := WrapperGetBalance c (AccAddress a).

Definition KeeperGetCodeHash c a : Hash :=
  match codeHashes (cKV c) !! a with
  | None => EmptyCodeHash
  | Some bz => if (String.length bz =? 0)%nat then EmptyCodeHash else BytesToHash bz
  end.

(** The nonce and code hash; the balance is left out. *)
Definition GetAccountWithoutBalance c a : option (Z * Hash) :=
  match AuthGetAccount (cAuth c) (AccAddress a) with
  | None => None
  | Some acct => Some (GetSequence acct, KeeperGetCodeHash c a)
  end.

Definition KeeperGetAccount c a : option Account :=
  match GetAccountWithoutBalance c a with
  | None => None
  | Some (nonce, codeHash) => Some (mkAccount nonce (KeeperGetBalance c a) codeHash)
  end.

Definition GetAccountOrEmpty c a : Account :=
  match KeeperGetAccount c a with
  | Some acct => acct
  | None => mkAccount 0 0 EmptyCodeHash
  end.

Definition KeeperGetNonce c a : Z :=
  match AuthGetAccount (cAuth c) (AccAddress a) with
  | None => 0
  | Some acct => GetSequence acct
  end.

Definition GetFastState c a (key : Hash) : option string := storage (cKV c) !! (a, key).

Definition KeeperGetState c a (key : Hash) : Hash :=
  match GetFastState c a key with
  | None => zeroHash
  | Some value => if (String.length value =? 0)%nat then zeroHash else BytesToHash value
  end.

Definition KeeperGetCode c (codeHash : Hash) : option string := codes (cKV c) !! codeHash.

(** The entries of one address in key order. *)
Definition KeeperForEachStorage c a : list (Hash * Hash) :=
  let keys := merge_sort hash_le
    (omap (fun kv : (Address * Hash) * string => if decide (kv.1.1 = a) then Some kv.1.2 else None)
       (map_to_list (storage (cKV c)))) in
  omap (fun k => (fun v => (k, BytesToHash v)) <$> storage (cKV c) !! (a, k)) keys.

Definition KeeperIsContract c a : bool := bool_decide (is_Some (codeHashes (cKV c) !! a)).

Definition SetBalance c a (amount : Z) : result unit * C :=
  let cosmosAddr := AccAddress a in
  let delta := amount - WrapperGetBalance c cosmosAddr in
  if 0 <? delta then MintAmountToAccount c cosmosAddr delta
  else if delta <? 0 then BurnAmountFromAccount c cosmosAddr (- delta)
  else (Ok tt, c).

Definition SetCodeHash c a (h : Hash) : C := with_codeHashes (<[a := Bytes h]> (codeHashes (cKV c))) c.
Definition DeleteCodeHash c a : C := with_codeHashes (delete a (codeHashes (cKV c))) c.

Definition accountOrNew c a : AuthAccount * C :=
  match AuthGetAccount (cAuth c) (AccAddress a) with
  | Some acct => (acct, c)
  | None => let '(acct, x) := NewAccountWithAddress (cAuth c) (AccAddress a) in (acct, with_auth x c)
  end.

Definition KeeperSetAccount c a (account : Account) : result unit * C :=
  let '(acct, c) := accountOrNew c a in
  match SetSequence (Nonce account) acct with
  | Err e => (Err e, c)
  | Ok acct =>
      let c := if IsEmptyCodeHash (CodeHash account) then DeleteCodeHash c a
               else SetCodeHash c a (CodeHash account) in
      let c := with_auth (AuthSetAccount (cAuth c) acct) c in
      SetBalance c a (Balance account)
  end.

Definition KeeperSetState c a (key : Hash) (value : string) : C :=
  with_storage (<[(a, key) := value]> (storage (cKV c))) c.
Definition KeeperDeleteState c a (key : Hash) : C :=
  with_storage (delete (a, key) (storage (cKV c))) c.
Definition KeeperSetCode c (codeHash : Hash) (x : string) : C :=
  with_codes (<[codeHash := x]> (codes (cKV c))) c.
Definition KeeperDeleteCode c (codeHash : Hash) : C :=
  with_codes (delete codeHash (codes (cKV c))) c.

Definition KeeperDeleteAccount c a : result unit * C :=
  match AuthGetAccount (cAuth c) (AccAddress a) with
  | None => (Ok tt, c)
  | Some acct =>
      if negb (KeeperIsContract c a)
      then (Err (Plain "only smart contracts can be self-destructed"), c)
      else
        match SetBalance c a 0 with
        | (Err e, c) => (Err e, c)
        | (Ok _, c) =>
            let c := foldl (fun c kv => KeeperDeleteState c a kv.1) c (KeeperForEachStorage c a) in
            let c := DeleteCodeHash c a in
            (Ok tt, with_auth (AuthRemoveAccount (cAuth c) acct) c)
        end
  end.

#[local] Instance evmKeeper : StateKeeper C := {
  GetAccount := KeeperGetAccount;
  KGetState := KeeperGetState;
  KGetCode := KeeperGetCode;
  KForEachStorage := KeeperForEachStorage;
  SetAccount := KeeperSetAccount;
  DeleteState := KeeperDeleteState;
  KSetState := KeeperSetState;
  DeleteCode := KeeperDeleteCode;
  KSetCode := KeeperSetCode;
  DeleteAccount := KeeperDeleteAccount;
}.

(** ** The laws of the interface *)
Context `{!BankLaws _} `{!AuthLaws _}.

(** Distinct EVM addresses are distinct accounts. *)
Context `{AccAddress_inj : !Inj (=) (=) AccAddress}.

(** Sends of the EVM coin pass the restrictions unchanged, as far as the bank is
    concerned: the receiver stays and no other coins move. *)
Hypothesis r_passes : ∀ w from to x y w',
  r w from to [(evmDenom, x)] = (Ok y, w') → y = to ∧ w'.1 = w.1.

Lemma send_evm b s from to x w :
  0 <= x → SendCoins r (b, s) from to [(evmDenom, x)] = (Ok tt, w) →
  ∀ y, Bank.GetBalance w.1 y evmDenom =
       Bank.GetBalance b y evmDenom - at_addr from y x + at_addr to y x.
Proof.
intros Hx Hs. apply send_spec in Hs as (b1 & to' & b2 & s2 & b3 & E1 & E2 & E3 & ->).
apply r_passes in E2 as [-> E2]. simpl in *. subst b2.
assert (Hv : coins_valid [(evmDenom, x)]) by (by repeat constructor).
apply sub_spec in E1 as (_ & E1 & _); [|done]. apply add_spec in E3 as (E3 & _); [|done].
intros y. rewrite E3, E1. simpl. rewrite !decide_True by done. by rewrite Z.add_0_r.
Qed.

Lemma scale_quot x : (ConversionFactor EVMCoinDecimals | x) →
  ConvertEvmCoinFrom18Decimals x * ConversionFactor EVMCoinDecimals = x.
Proof.
intros [q ->]. unfold ConvertEvmCoinFrom18Decimals. rewrite Z.quot_mul; [done|].
unfold ConversionFactor. destruct (_ =? _); lia.
Qed.

Lemma factor_pos : 0 < ConversionFactor EVMCoinDecimals.
Proof. unfold ConversionFactor. destruct (_ =? _); lia. Qed.

Lemma Mint_spec c x amt c' :
  0 < amt → (ConversionFactor EVMCoinDecimals | amt) → MintAmountToAccount c x amt = (Ok tt, c') →
  cAuth c' = cAuth c ∧ cKV c' = cKV c ∧
  ∀ y, WrapperGetBalance c' y = WrapperGetBalance c y + at_addr x y amt.
Proof.
intros Hp Hd. unfold MintAmountToAccount. set (q := ConvertEvmCoinFrom18Decimals amt).
assert (Hq : 0 <= q) by (apply Z.quot_pos; [lia|apply factor_pos]).
assert (Hv : coins_valid [(evmDenom, q)]) by (by repeat constructor).
destruct (MintCoins _ _ _) as [b|] eqn:Em; [|done]. apply mint_spec in Em as (Em & _); [|done].
destruct (BlockedAddr x) eqn:Eb.
{ destruct (send_from_module_blocked r (b, cHooks c) ModuleName x [(evmDenom, q)] Eb) as [e ->]. done. }
rewrite send_from_module by done.
destruct (SendCoins _ _ _ _ _) as [res w] eqn:Es. intros [= -> <-]. split_and!; try done.
intros y. unfold WrapperGetBalance, MustConvertEvmCoinTo18Decimals. simpl.
rewrite (send_evm _ _ _ _ _ _ Hq Es), Em. simpl. rewrite decide_True, Z.add_0_r by done.
pose proof (scale_quot amt Hd) as Hs. fold q in Hs. unfold at_addr. repeat case_decide; lia.
Qed.

Lemma Burn_spec c x amt c' :
  0 < amt → (ConversionFactor EVMCoinDecimals | amt) → BurnAmountFromAccount c x amt = (Ok tt, c') →
  cAuth c' = cAuth c ∧ cKV c' = cKV c ∧
  ∀ y, WrapperGetBalance c' y = WrapperGetBalance c y - at_addr x y amt.
Proof.
intros Hp Hd. unfold BurnAmountFromAccount. set (q := ConvertEvmCoinFrom18Decimals amt).
assert (Hq : 0 <= q) by (apply Z.quot_pos; [lia|apply factor_pos]).
assert (Hv : coins_valid [(evmDenom, q)]) by (by repeat constructor).
rewrite send_to_module. destruct (SendCoins _ _ _ _ _) as [[[]|] w] eqn:Es; [|done].
destruct (BurnCoins _ _ _) as [b|] eqn:Eb; [|done]. apply burn_spec in Eb as (_ & Eb & _); [|done].
intros [= <-]. split_and!; try done.
intros y. unfold WrapperGetBalance, MustConvertEvmCoinTo18Decimals. simpl.
rewrite Eb, (send_evm _ _ _ _ _ _ Hq Es). simpl. rewrite decide_True, Z.add_0_r by done.
pose proof (scale_quot amt Hd) as Hs. fold q in Hs. unfold at_addr. repeat case_decide; lia.
Qed.

Lemma balance_scaled c x : (ConversionFactor EVMCoinDecimals | WrapperGetBalance c x).
Proof. apply Z.divide_factor_r. Qed.

(** Minting and burning the difference sets the balance exactly. *)
Lemma SetBalance_spec c a amount c' :
  (ConversionFactor EVMCoinDecimals | amount) → SetBalance c a amount = (Ok tt, c') →
  cAuth c' = cAuth c ∧ cKV c' = cKV c ∧
  ∀ b, KeeperGetBalance c' b = if decide (b = a) then amount else KeeperGetBalance c b.
Proof.
intros Hd. unfold SetBalance, KeeperGetBalance.
pose proof (balance_scaled c (AccAddress a)) as Hb.
assert (Hat : ∀ b x, at_addr (AccAddress a) (AccAddress b) x = if decide (b = a) then x else 0).
{ intros b x. unfold at_addr. repeat case_decide; naive_solver. }
destruct (0 <? _) eqn:E1; boolP.
- intros Hm. apply Mint_spec in Hm as (F1 & F2 & F3); [|done|by apply Z.divide_sub_r].
  split_and!; try done. intros b. rewrite F3, Hat. case_decide; subst; lia.
- destruct (_ <? 0) eqn:E2; boolP.
  + intros Hm. apply Burn_spec in Hm as (F1 & F2 & F3); [|lia|by apply Z.divide_opp_r, Z.divide_sub_r].
    split_and!; try done. intros b. rewrite F3, Hat. case_decide; subst; lia.
  + intros [= <-]. split_and!; try done. intros b. case_decide; subst; lia.
Qed.

Lemma GetAccount_fields c c' a :
  AuthGetAccount (cAuth c') (AccAddress a) = AuthGetAccount (cAuth c) (AccAddress a) →
  KeeperGetBalance c' a = KeeperGetBalance c a → KeeperGetCodeHash c' a = KeeperGetCodeHash c a →
  KeeperGetAccount c' a = KeeperGetAccount c a.
Proof. intros E1 E2 E3. unfold KeeperGetAccount, GetAccountWithoutBalance. by rewrite E1, E2, E3. Qed.

Lemma accountOrNew_spec c a acct c1 :
  accountOrNew c a = (acct, c1) →
  GetAddress acct = AccAddress a ∧ cBank c1 = cBank c ∧ cKV c1 = cKV c ∧
  ∀ b, AuthGetAccount (cAuth c1) b = AuthGetAccount (cAuth c) b.
Proof.
unfold accountOrNew. destruct (AuthGetAccount _ _) as [ac|] eqn:E.
- intros [= <- <-]. split_and!; try done. by apply auth_address in E.
- pose proof (auth_new_address (cAuth c) (AccAddress a)) as N1.
  pose proof (auth_new_get (cAuth c) (AccAddress a)) as N2.
  destruct (NewAccountWithAddress _ _) as [ac x]. intros [= <- <-]. by split_and!.
Qed.

Lemma SetAccount_spec c a ac c' :
  account_ok ac → KeeperSetAccount c a ac = (Ok tt, c') →
  KeeperGetAccount c' a = Some ac ∧
  (∀ b, b ≠ a → KeeperGetAccount c' b = KeeperGetAccount c b) ∧
  storage (cKV c') = storage (cKV c) ∧ codes (cKV c') = codes (cKV c).
Proof.
intros Hok. unfold KeeperSetAccount.
destruct (accountOrNew c a) as [acct c1] eqn:E1. apply accountOrNew_spec in E1 as (A1 & A2 & A3 & A4).
destruct (SetSequence (Nonce ac) acct) as [acct'|] eqn:E2; [|done].
apply auth_sequence in E2 as [Q1 Q2].
set (c2 := if IsEmptyCodeHash (CodeHash ac) then DeleteCodeHash c1 a else SetCodeHash c1 a (CodeHash ac)).
assert (Hc2 : cBank c2 = cBank c ∧ cAuth c2 = cAuth c1 ∧ storage (cKV c2) = storage (cKV c) ∧
  codes (cKV c2) = codes (cKV c) ∧ KeeperGetCodeHash c2 a = CodeHash ac ∧
  ∀ b, b ≠ a → KeeperGetCodeHash c2 b = KeeperGetCodeHash c b).
{ unfold c2, KeeperGetCodeHash. destruct (IsEmptyCodeHash (CodeHash ac)) eqn:Ee; simpl; rewrite <- A3; split_and!; try done.
  - rewrite lookup_delete_eq. by apply bool_decide_eq_true in Ee.
  - intros b Hb. by rewrite lookup_delete_ne.
  - rewrite lookup_insert_eq, Bytes_length. simpl. apply BytesToHash_Bytes.
  - intros b Hb. by rewrite lookup_insert_ne. }
destruct Hc2 as (B1 & B2 & B3 & B4 & B5 & B6). intros Hs.
apply SetBalance_spec in Hs as (S1 & S2 & S3); [|done]. simpl in S1, S2.
assert (Hch : ∀ b, KeeperGetCodeHash c' b = KeeperGetCodeHash c2 b) by (intros; unfold KeeperGetCodeHash; by rewrite S2).
assert (Hau : ∀ b, AuthGetAccount (cAuth c') (AccAddress b) =
  if decide (b = a) then Some acct' else AuthGetAccount (cAuth c) (AccAddress b)).
{ intros b. rewrite S1, auth_set, Q2, A1, B2, A4. repeat case_decide; naive_solver. }
split_and!.
- unfold KeeperGetAccount, GetAccountWithoutBalance. rewrite Hau, decide_True, Q1, Hch, B5, S3, decide_True by done.
  by destruct ac.
- intros b Hb. apply GetAccount_fields; [by rewrite Hau, decide_False| |by rewrite Hch, B6].
  rewrite S3, decide_False by done. unfold KeeperGetBalance, WrapperGetBalance. simpl. by rewrite B1.
- by rewrite S2.
- by rewrite S2.
Qed.

Lemma ForEachStorage_keys c a k :
  k ∈ (KeeperForEachStorage c a).*1 ↔ is_Some (storage (cKV c) !! (a, k)).
Proof.
unfold KeeperForEachStorage. rewrite list_elem_of_fmap. split.
- intros ([k' v] & -> & Hin). apply list_elem_of_omap in Hin as (k & _ & Hk). simpl.
  destruct (storage _ !! (a, k)) eqn:E; [|done]. injection Hk as -> _. by rewrite E.
- intros [v Hv]. exists (k, BytesToHash v). split; [done|].
  apply list_elem_of_omap. exists k. rewrite Hv. split; [|done].
  rewrite merge_sort_Permutation. apply list_elem_of_omap. exists ((a, k), v).
  by rewrite elem_of_map_to_list, decide_True.
Qed.

Lemma delete_slots a l : ∀ c,
  let c' := foldl (fun c (kv : Hash * Hash) => KeeperDeleteState c a kv.1) c l in
  cBank c' = cBank c ∧ cAuth c' = cAuth c ∧ codeHashes (cKV c') = codeHashes (cKV c) ∧
  codes (cKV c') = codes (cKV c) ∧
  ∀ b k, storage (cKV c') !! (b, k) =
         if decide (b = a ∧ k ∈ l.*1) then None else storage (cKV c) !! (b, k).
Proof.
induction l as [|[k0 v0] l IH]; intros c; simpl.
- split_and!; try done. intros b k. rewrite decide_False; [done|]. intros [_ Hk]. by apply elem_of_nil in Hk.
- destruct (IH (KeeperDeleteState c a k0)) as (I1 & I2 & I3 & I4 & I5). split_and!; try done.
  intros b k. rewrite I5. simpl. pose proof (elem_of_cons l.*1 k k0) as Hk.
  destruct (decide ((b, k) = (a, k0))) as [[= -> ->]|Hne].
  + rewrite lookup_delete_eq. repeat case_decide; naive_solver.
  + rewrite lookup_delete_ne by done. repeat case_decide; naive_solver.
Qed.

(** A deleted account is gone with its storage; only contracts can be deleted. *)
Lemma DeleteAccount_spec c a c' :
  KeeperDeleteAccount c a = (Ok tt, c') →
  KeeperGetAccount c' a = None ∧
  (∀ b, b ≠ a → KeeperGetAccount c' b = KeeperGetAccount c b) ∧
  (∀ b k, b ≠ a → KeeperGetState c' b k = KeeperGetState c b k) ∧
  codes (cKV c') = codes (cKV c) ∧
  (is_Some (KeeperGetAccount c a) →
     KeeperIsContract c a = true ∧ KeeperGetBalance c' a = 0 ∧ ∀ k, KeeperGetState c' a k = zeroHash).
Proof.
unfold KeeperDeleteAccount. destruct (AuthGetAccount (cAuth c) (AccAddress a)) as [acct|] eqn:Ea.
2: { intros [= <-]. unfold KeeperGetAccount, GetAccountWithoutBalance. rewrite Ea.
     by split_and!; try intros []. }
destruct (KeeperIsContract c a) eqn:Ec; [|done]. cbn [negb].
destruct (SetBalance c a 0) as [[[]|] c1] eqn:Es; [|done].
apply SetBalance_spec in Es as (S1 & S2 & S3); [|apply Z.divide_0_r].
destruct (delete_slots a (KeeperForEachStorage c1 a) c1) as (D1 & D2 & D3 & D4 & D5).
set (c2 := foldl _ c1 _) in *. intros [= <-].
pose proof (auth_address _ _ _ Ea) as Had.
assert (Hbal : ∀ b, KeeperGetBalance (with_auth (AuthRemoveAccount (cAuth c2) acct) (DeleteCodeHash c2 a)) b
  = KeeperGetBalance c1 b).
{ intros b. unfold KeeperGetBalance, WrapperGetBalance. simpl. by rewrite D1. }
split_and!.
- unfold KeeperGetAccount, GetAccountWithoutBalance. simpl. by rewrite auth_remove, Had, decide_True.
- intros b Hb. apply GetAccount_fields.
  + simpl. rewrite auth_remove, Had, D2, S1, decide_False by naive_solver. done.
  + by rewrite Hbal, S3, decide_False.
  + unfold KeeperGetCodeHash. simpl. by rewrite lookup_delete_ne, D3, S2.
- intros b k Hb. unfold KeeperGetState, GetFastState. simpl. rewrite D5, decide_False by naive_solver.
  by rewrite S2.
- simpl. by rewrite D4, S2.
- intros _. split_and!; [done|by rewrite Hbal, S3, decide_True|].
  intros k. unfold KeeperGetState, GetFastState. simpl. rewrite D5.
  case_decide as Hd; [done|]. destruct (storage (cKV c1) !! (a, k)) eqn:E; [|done].
  destruct Hd. split; [done|]. apply ForEachStorage_keys. eauto.
Qed.

#[local] Instance evmKeeper_laws : StateKeeperLaws evmKeeper.
Proof.
split; simpl.
- intros c a ac. unfold account_ok. simpl. unfold KeeperGetAccount.
  destruct (GetAccountWithoutBalance c a) as [[n h]|]; [|done]. intros [= <-]. apply balance_scaled.
- intros c a ac c' Hok Hs. by apply (SetAccount_spec c a ac c').
- intros c a ac c' Hok Hs. destruct (SetAccount_spec c a ac c' Hok Hs) as (_ & F1 & F2 & F3).
  split_and!; [done| |]; intros; unfold KeeperGetState, GetFastState, KeeperGetCode; by rewrite ?F2, ?F3.
- intros c a k v b k'. unfold KeeperGetState, GetFastState; simpl. case_decide as E.
  + destruct E as [-> ->]. rewrite lookup_insert_eq, Bytes_length. simpl. apply BytesToHash_Bytes.
  + rewrite lookup_insert_ne; [done|]. intros [= -> ->]. by apply E.
- done.
- intros c h x h' _. unfold KeeperGetCode; simpl. case_decide; [subst; by rewrite lookup_insert_eq|by rewrite lookup_insert_ne].
- done.
- intros c h h'. unfold KeeperGetCode; simpl. case_decide; [subst; by rewrite lookup_delete_eq|by rewrite lookup_delete_ne].
- done.
- intros c a c' Hd. by apply DeleteAccount_spec in Hd as (? & _).
- intros c a c' Hd. apply DeleteAccount_spec in Hd as (_ & F1 & F2 & F3 & _).
  split_and!; try done. intros h. unfold KeeperGetCode. by rewrite F3.
Qed.
End keeper.
