(* ===== verification/EvmExample.v ===== *)
(** * The EVM state on a concrete store

    The reference ledger with the send restriction of x/energy, a map of accounts,
    and a keyed checksum in the place of Keccak-256.  A contract [vault] is called
    by [alice]; the theorems on snapshots and commits are applied to what happens,
    and a precompile call that fails shows what a revert does not undo. *)

From stdpp Require Import gmap strings list sorting.
From Stdlib Require Import ZArith Lia.
From S2P Require Import Prelude SdkMath EnergyTypes EnergyKeeper Bank EvmStateDB EvmJournal EvmRevert EvmSnapshot EvmCommit EvmKeeper.

Open Scope Z_scope.

Module EvmExample.
#[export] Instance env : EvmEnv := {
  Keccak256 x := BytesToHash ("#" +:+ x)%string;
  EVMCoinDecimals := 18;
}.

(** Accounts with their sequence numbers. *)
#[export] Instance auth : AuthKeeper (gmap string Z) := {
  AuthAccount := string * Z;
  GetAddress := fst;
  GetSequence := snd;
  SetSequence n ac := Ok (ac.1, n);
  AuthGetAccount m a := (fun n => (a, n)) <$> m !! a;
  NewAccountWithAddress m a := ((a, 0), m);
  AuthSetAccount m ac := <[ac.1 := ac.2]> m;
  AuthRemoveAccount m ac := delete ac.1 m;
}.

#[export] Instance auth_laws : AuthLaws auth.
Proof.
split; simpl.
- intros s a ac. destruct (s !! a); [|done]. by intros [= <-].
- intros n ac ac' [= <-]. done.
- done.
- done.
- intros s [a n] b. simpl. case_decide; [subst; by rewrite lookup_insert_eq|by rewrite lookup_insert_ne].
- intros s [a n] b. simpl. case_decide; [subst; by rewrite lookup_delete_eq|by rewrite lookup_delete_ne].
Qed.

Definition ke : EnergyKeeper.Keeper := EnergyKeeper.mkKeeper None None "gov" "liao" (fun x => Some x).
Definition block : Ctx := mkCtx 1000 10.
Definition r : Restriction ledger EnergyStore := EnergyKeeper.SendRestriction ke block.

(** The restriction of x/energy settles energy and leaves the bank alone. *)
Lemma energy_passes w from to x y w' :
  r w from to [("liao"%string, x)] = (Ok y, w') → y = to ∧ w'.1 = w.1.
Proof. apply EnergyKeeper.SendRestriction_to. Qed.

Abbreviation store := (EvmCtx ledger EnergyStore (gmap string Z)) (only parsing).
#[export] Instance keeper : StateKeeper store := evmKeeper "liao" (fun a => a) r.
#[export] Instance keeper_laws : StateKeeperLaws keeper.
Proof. apply (evmKeeper_laws "liao" (fun a => a) r energy_passes). Qed.

(** ** The store and the transaction *)
Definition slot : Hash := BytesToHash "slot".
Definition v1 : Hash := BytesToHash "one".
Definition v2 : Hash := BytesToHash "two".
Definition code1 : string := "code".

Definition bank0 : ledger :=
  mkLedger (<[("alice", "liao") := 1000%N]> (<[("vault", "liao") := 50%N]> ∅)) (<["liao" := 1050%N]> ∅).
Definition store0 : store :=
  mkEvmCtx bank0 EnergyKeeper.emptyStore (<["alice" := 5]> (<["vault" := 1]> ∅))
    (mkEvmKV (<["vault"%string := Bytes (Keccak256 code1)]> ∅) (<[Keccak256 code1 := code1]> ∅)
       (<[("vault"%string, slot) := Bytes v1]> ∅)).
Definition cfg : TxConfig := mkTxConfig zeroHash zeroHash 0 0.
Definition log : Log := mkLog "vault" [] "data" zeroHash zeroHash 0 0.

(** [alice] pays her nonce; then, after a snapshot, she sends 100 to the vault,
    whose code writes its slot and creates a contract; an inner call destroys the
    vault and is reverted; a precompile mints 7 to her. *)
Definition before : list (op (C:=store)) := [OpSetNonce "alice" 6; OpAddRefund 3].
Definition mint7 (c : store) : result (list balanceChangeEntry) * store :=
  match MintAmountToAccount "liao" r c "alice" 7 with
  | (Ok _, c) => (Ok [mkBalanceChangeEntry "alice" 7 Add], c)
  | (Err e, c) => (Err e, c)
  end.
Definition body : list (op (C:=store)) :=
  [OpSubBalance "alice" 100; OpAddBalance "vault" 100; OpSetState "vault" slot v2;
   OpCreateAccount "child"; OpSetNonce "child" 1; OpSetCode "child" (Some code1);
   OpAddSlot "vault" slot; OpAddLog log;
   OpSnapshot; OpSuicide "vault"; OpRevert 1;
   OpPrecompile "precompile" mint7].

Definition get (x : result (StateDB store)) : StateDB store :=
  match x with Ok s => s | Err _ => New store0 cfg end.
Definition s1 : StateDB store := get (run before (New store0 cfg)).
Definition s2 : StateDB store := get (run body (Snapshot s1).2).

Lemma get_ok x : is_ok x = true → x = Ok (get x).
Proof. by destruct x. Qed.

Lemma before_ok : is_ok (run before (New store0 cfg)) = true.
Proof. vm_compute. reflexivity. Qed.
Lemma body_ok : is_ok (run body (Snapshot s1).2) = true.
Proof. vm_compute. reflexivity. Qed.
Lemma s1_reachable : reachable store0 cfg s1.
Proof. exists before. exact (get_ok _ before_ok). Qed.


(** ** Commit *)
Definition s3 : StateDB store := get (run (before ++ OpSnapshot :: take 11 body) (New store0 cfg)).

Lemma s3_ok : is_ok (run (before ++ OpSnapshot :: take 11 body) (New store0 cfg)) = true.
Proof. vm_compute. reflexivity. Qed.
Lemma s3_reachable : reachable store0 cfg s3.
Proof. exists (before ++ OpSnapshot :: take 11 body). exact (get_ok _ s3_ok). Qed.

(** The addresses a state can show. *)
Definition known (s : StateDB store) : list string :=
  map fst (map_to_list (stateObjects s)) ++ map fst (map_to_list (cAuth (ctx s))).

Lemma known_live s a o : lookupObj s a = Some o → a ∈ known s.
Proof.
unfold lookupObj, known. rewrite elem_of_app, !list_elem_of_fmap.
destruct (stateObjects s !! a) as [p|] eqn:E.
- intros _. left. exists (a, p). by rewrite elem_of_map_to_list.
- simpl. unfold KeeperGetAccount, GetAccountWithoutBalance. simpl.
  destruct (cAuth (ctx s) !! a) as [n|] eqn:En; [|done]. intros _. right.
  exists (a, n). by rewrite elem_of_map_to_list.
Qed.

(** Hash and code of what a state shows at an address. *)
Definition codeAt (s : StateDB store) (a : string) : option (Hash * string) :=
  (fun o => (CodeHash (account o), default EmptyString (codeView (ctx s) o))) <$> lookupObj s a.

Definition codes_check (s : StateDB store) : bool :=
  forallb (fun a => forallb (fun b =>
    match codeAt s a, codeAt s b with
    | Some (h, x), Some (h', x') =>
        (negb (bool_decide (h = h')) || bool_decide (x = x')) &&
        (negb (IsEmptyCodeHash h) || bool_decide (x = EmptyString))
    | _, _ => true
    end) (known s)) (known s).

Lemma codes_check_pair s a b o p :
  codes_check s = true → lookupObj s a = Some o → lookupObj s b = Some p →
  (CodeHash (account o) = CodeHash (account p) →
   default EmptyString (codeView (ctx s) o) = default EmptyString (codeView (ctx s) p)) ∧
  (IsEmptyCodeHash (CodeHash (account o)) = true →
   default EmptyString (codeView (ctx s) o) = EmptyString).
Proof.
intros Hc Ha Hb. unfold codes_check in Hc. rewrite forallb_forall in Hc.
specialize (Hc a (proj1 (list_elem_of_In _ _) (known_live s a o Ha))). rewrite forallb_forall in Hc.
specialize (Hc b (proj1 (list_elem_of_In _ _) (known_live s b p Hb))).
unfold codeAt in Hc. rewrite Ha, Hb in Hc. simpl in Hc. apply andb_true_iff in Hc as [H1 H2].
apply orb_true_iff in H1. apply orb_true_iff in H2.
rewrite !negb_true_iff, !bool_decide_eq_true, ?bool_decide_eq_false in *. split; [tauto|].
intros E. rewrite E in H2. destruct H2; done.
Qed.

Lemma codes_check_sound s : codes_check s = true → codes_agree s.
Proof.
intros Hc. split.
- intros a b o p Ha Hb. by apply (codes_check_pair s a b o p).
- intros a o Ha. by apply (codes_check_pair s a a o o).
Qed.

Definition resets_check (s : StateDB store) : bool :=
  forallb (fun e => match e with
    | resetObjectChange p => bool_decide (is_Some (dirties s !! address p))
    | _ => true end) (entries s).

Lemma resets_check_sound s : resets_check s = true → resets_written s.
Proof.
unfold resets_check. rewrite forallb_forall. intros Hc p Hp.
specialize (Hc _ (proj1 (list_elem_of_In _ _) Hp)). by apply bool_decide_eq_true in Hc.
Qed.

Lemma s3_side : cacheCtx s3 = None ∧ resets_check s3 = true ∧ codes_check s3 = true ∧ (Commit s3).1 = Ok tt.
Proof. vm_compute. done. Qed.


Lemma ok_pair {X Y : Type} (p : result X * Y) : is_ok p.1 = true → ∃ x, p = (Ok x, p.2).
Proof. destruct p as [[x|] y]; [eauto|done]. Qed.

Lemma s3_setup : is_ok (RunSetup s3).1 = true.
Proof. vm_compute. done. Qed.

Lemma precompile_sees_state_witness :
  ctx (RunSetup s3).2 = ctx s3 ∧ ∀ a, stored s3 (storeCtx (RunSetup s3).2) a.
Proof.
destruct s3_side as (H1 & H2 & H3 & _). destruct (ok_pair _ s3_setup) as [c0 E].
exact (precompile_sees_state store0 cfg s3 c0 (RunSetup s3).2 s3_reachable H1
  (resets_check_sound s3 H2) (codes_check_sound s3 H3) E).
Defined.

(** ** A precompile call that fails

    The vault sends 10 to a precompile, which refuses the call; the frame is
    reverted. *)
Definition refuse (c : store) : result (list balanceChangeEntry) * store := (Err (Plain "not payable"), c).
Definition called : StateDB store :=
  get (run [OpSnapshot; OpSubBalance "vault" 10; OpAddBalance "precompile" 10] (New store0 cfg)).
Definition reverted : StateDB store := get (RevertToSnapshot 0 (Run "precompile" refuse called).2).

Lemma reverted_ok : is_ok (RevertToSnapshot 0 (Run "precompile" refuse called).2) = true.
Proof. vm_compute. reflexivity. Qed.

(** The state a failed precompile call leaves in the cache context survives the
    revert of its frame: after the revert the transaction shows the vault with its
    50 and an empty journal, but [Commit] still writes the transfer, and the store
    shows the vault with 40 and the precompile with 10. *)
Theorem failed_precompile_survives_revert :
  (Run "precompile" refuse called).1 = Err (Plain "not payable") ∧
  RevertToSnapshot 0 (Run "precompile" refuse called).2 = Ok reverted ∧
  (GetBalance "vault" reverted).1 = 50 ∧ (GetBalance "precompile" reverted).1 = 0 ∧
  entries reverted = [] ∧ (Commit reverted).1 = Ok tt ∧
  (Balance <$> GetAccount (ctx (Commit reverted).2) "vault") = Some 40 ∧
  (Balance <$> GetAccount (ctx (Commit reverted).2) "precompile") = Some 10.
Proof.
split; [vm_compute; reflexivity|]. split; [exact (get_ok _ reverted_ok)|].
split_and!; vm_compute; reflexivity.
Qed.
End EvmExample.
