(* ===== verification/EvmTx.v ===== *)
(** * x/evm: transaction data, fees and gas estimation

    The three kinds of Ethereum transactions of x/evm/types, what they cost, the fee
    checks of x/evm/keeper/fees.go and app/ante/evm, and the binary search behind gas
    estimation.  Nil numbers are [None]; arithmetic on one is a nil dereference, which
    is an error. *)

From stdpp Require Import base strings list.
From Stdlib Require Import ZArith Lia.
From S2P Require Import Prelude SdkMath EvmStateDB.

Open Scope Z_scope.

Definition evmErr (code : Z) : error := Registered "evm" code.
Definition ErrCreateDisabled := evmErr 5.
Definition ErrCallDisabled := evmErr 6.
Definition ErrInvalidAmount := evmErr 7.
Definition ErrInvalidGasPrice := evmErr 8.
Definition ErrInvalidGasFee := evmErr 9.
Definition ErrInvalidRefund := evmErr 11.
Definition ErrInvalidGasCap := evmErr 12.
Definition ErrGasOverflow := evmErr 14.
Definition ErrInvalidAddress := Registered "sdk" 7.
Definition ErrInvalidCoins := Registered "sdk" 10.
Definition ErrInsufficientFunds := Registered "sdk" 5.
Definition ErrOutOfGas := Registered "sdk" 11.
Definition ErrInsufficientFee := Registered "sdk" 13.
Definition ErrInvalidChainID := Registered "sdk" 28.
Definition nilPointer : error := Plain "nil pointer dereference".

(** ** Transaction data *)
Record TxFields := mkTxFields {
  txNonce : Z; txGas : Z;                   (** uint64 *)
  txTo : option Address;
  txToValid : bool;                         (** [common.IsHexAddress] of a non-empty [To] *)
  txValue : option Z;
  txData : string;
  txAccessList : list (Address * list Hash);
  txChainID : option Z;
}.

Inductive TxData :=
  | LegacyTx (f : TxFields) (GasPrice : option Z)
  | AccessListTx (f : TxFields) (GasPrice : option Z)
  | DynamicFeeTx (f : TxFields) (GasTipCap GasFeeCap : option Z).

Definition fields (tx : TxData) : TxFields :=
  match tx with LegacyTx f _ => f | AccessListTx f _ => f | DynamicFeeTx f _ _ => f end.

Definition GetGasFeeCap (tx : TxData) : option Z :=
  match tx with LegacyTx _ p => p | AccessListTx _ p => p | DynamicFeeTx _ _ cap => cap end.
Definition GetGasTipCap (tx : TxData) : option Z :=
  match tx with LegacyTx _ p => p | AccessListTx _ p => p | DynamicFeeTx _ tip _ => tip end.
Definition GetGasPrice (tx : TxData) : option Z := GetGasFeeCap tx.

Definition deref (x : option Z) : result Z := match x with Some v => Ok v | None => Err nilPointer end.

(** [fee] and [cost] of types/tx_data.go. *)
Definition fee (gasPrice : Z) (gas : Z) : Z := gasPrice * gas.
Definition cost (fee : Z) (value : option Z) : Z := match value with Some v => fee + v | None => fee end.

Definition Fee (tx : TxData) : result Z := p ← deref (GetGasPrice tx); Ok (fee p (txGas (fields tx))).
Definition Cost (tx : TxData) : result Z := f ← Fee tx; Ok (cost f (txValue (fields tx))).

(** [EffectiveGasPrice] of types/utils.go. *)
Definition effectivePrice (baseFee feeCap tipCap : Z) : Z := Z.min (tipCap + baseFee) feeCap.

Definition EffectiveGasPrice (tx : TxData) (baseFee : option Z) : result Z :=
  match tx with
  | LegacyTx _ p | AccessListTx _ p => deref p
  | DynamicFeeTx _ tip cap =>
      cap ← deref cap; tip ← deref tip; base ← deref baseFee; Ok (effectivePrice base cap tip)
  end.
Definition EffectiveFee (tx : TxData) (baseFee : option Z) : result Z :=
  p ← EffectiveGasPrice tx baseFee; Ok (fee p (txGas (fields tx))).
Definition EffectiveCost (tx : TxData) (baseFee : option Z) : result Z :=
  f ← EffectiveFee tx baseFee; Ok (cost f (txValue (fields tx))).

(** At most 256 bits, in absolute value. *)
Definition IsValidInt256 (x : option Z) : bool := match x with Some v => Z.abs v <? 2 ^ 256 | None => true end.

Definition validAmount (f : TxFields) : result unit :=
  match txValue f with
  | Some v => guard! 0 <=? v else ErrInvalidAmount; guard! IsValidInt256 (Some v) else ErrInvalidAmount; Ok tt
  | None => Ok tt
  end.
Definition validTo (f : TxFields) : result unit :=
  match txTo f with Some _ => guard! txToValid f else ErrInvalidAddress; Ok tt | None => Ok tt end.
Definition validChainID (f : TxFields) : result unit :=
  match txChainID f with Some _ => Ok tt | None => Err ErrInvalidChainID end.

Definition LegacyTx_Validate (f : TxFields) (p : option Z) : result unit :=
  match p with
  | None => Err ErrInvalidGasPrice
  | Some v =>
      guard! 0 <=? v else ErrInvalidGasPrice;
      guard! IsValidInt256 p else ErrInvalidGasPrice;
      guard! IsValidInt256 (Some (fee v (txGas f))) else ErrInvalidGasFee;
      _ ← validAmount f; _ ← validTo f; validChainID f
  end.

Definition AccessListTx_Validate (f : TxFields) (p : option Z) : result unit :=
  match p with
  | None => Err ErrInvalidGasPrice
  | Some v =>
      guard! IsValidInt256 p else ErrInvalidGasPrice;
      guard! 0 <=? v else ErrInvalidGasPrice;
      _ ← validAmount f;
      guard! IsValidInt256 (Some (fee v (txGas f))) else ErrInvalidGasFee;
      _ ← validTo f; validChainID f
  end.

Definition DynamicFeeTx_Validate (f : TxFields) (tip cap : option Z) : result unit :=
  match tip, cap with
  | Some t, Some c =>
      guard! 0 <=? t else ErrInvalidGasCap;
      guard! 0 <=? c else ErrInvalidGasCap;
      guard! IsValidInt256 tip else ErrInvalidGasCap;
      guard! IsValidInt256 cap else ErrInvalidGasCap;
      guard! t <=? c else ErrInvalidGasCap;
      guard! IsValidInt256 (Some (fee c (txGas f))) else ErrInvalidGasFee;
      _ ← validAmount f; _ ← validTo f; validChainID f
  | _, _ => Err ErrInvalidGasCap
  end.

Definition Validate (tx : TxData) : result unit :=
  match tx with
  | LegacyTx f p => LegacyTx_Validate f p
  | AccessListTx f p => AccessListTx_Validate f p
  | DynamicFeeTx f tip cap => DynamicFeeTx_Validate f tip cap
  end.

(** ** Fee checks *)
Definition CheckSenderBalance (balance : Z) (tx : TxData) : result unit :=
  c ← Cost tx;
  guard! 0 <=? c else ErrInvalidCoins;
  guard! (0 <=? balance) && (c <=? balance) else ErrInsufficientFunds; Ok tt.

(** [core.IntrinsicGas] of go-ethereum. *)
Class IntrinsicGas := intrinsicGas : string → list (Address * list Hash) → bool → bool → bool → result Z.

(** The fee to deduct, in the EVM coin; [None] when there is none. *)
Definition VerifyFee `{IntrinsicGas} (tx : TxData) (baseFee : option Z) (homestead istanbul isCheckTx : bool)
    : result (option Z) :=
  let f := fields tx in
  let isCreation := bool_decide (txTo f = None) in
  intrinsic ← intrinsicGas (txData f) (txAccessList f) isCreation homestead istanbul;
  if isCheckTx && (txGas f <? intrinsic) then Err ErrOutOfGas
  else
    _ ← (match baseFee with
         | None => Ok tt
         | Some b => cap ← deref (GetGasFeeCap tx); guard! b <=? cap else ErrInsufficientFee; Ok tt
         end);
    feeAmt ← EffectiveFee tx baseFee;
    Ok (if feeAmt =? 0 then None else Some feeAmt).

Section decimals.
Context {D : LegacyDecOps}.

Definition CheckMempoolFee (fee mempoolMinGasPrice gasLimit : Dec) (isLondon : bool) : result unit :=
  if isLondon then Ok tt
  else guard! Dec_Mul mempoolMinGasPrice gasLimit <=? fee else ErrInsufficientFee; Ok tt.

Definition CheckGlobalFee (fee globalMinGasPrice gasLimit : Dec) : result unit :=
  if globalMinGasPrice =? 0 then Ok tt
  else guard! Dec_Mul globalMinGasPrice gasLimit <=? fee else ErrInsufficientFee; Ok tt.
End decimals.

(** [checkDisabledCreateCall] of app/ante/evm/04_validate.go. *)
Definition checkDisabledCreateCall (blockCreate blockCall : bool) (tx : TxData) : result unit :=
  match txTo (fields tx) with
  | None => guard! negb blockCreate else ErrCreateDisabled; Ok tt
  | Some _ => guard! negb blockCall else ErrCallDisabled; Ok tt
  end.

Definition UpdateCumulativeGasWanted (isCheckTx : bool) (msgGasWanted maxTxGasWanted cumulative : Z) : Z :=
  if isCheckTx && negb (maxTxGasWanted =? 0)
  then if maxTxGasWanted <? msgGasWanted then u64 (cumulative + maxTxGasWanted) else u64 (cumulative + msgGasWanted)
  else u64 (cumulative + msgGasWanted).

Definition PriorityReduction : Z := 10 ^ 6.
Definition maxInt64 : Z := 2 ^ 63 - 1.

Definition GetTxPriority (tx : TxData) (baseFee : option Z) : result Z :=
  p ← EffectiveGasPrice tx baseFee;
  let tipPrice := match baseFee with Some b => p - b | None => p end in
  let priority := Z.quot tipPrice PriorityReduction in
  Ok (if (- 2 ^ 63 <=? priority) && (priority <? 2 ^ 63) then priority else maxInt64).

Definition GetMsgPriority (tx : TxData) (minPriority : Z) (baseFee : option Z) : result Z :=
  priority ← GetTxPriority tx baseFee; Ok (if priority <? minPriority then priority else minPriority).

(** [CheckTxFee], with the fee of the Cosmos envelope in the original decimals. *)
Definition CheckTxFee `{EvmEnv} (feeInfo : option (Z * Z)) (txFee txGasLimit : Z) : result unit :=
  match feeInfo with
  | None => Ok tt
  | Some (amount, gasLimit) =>
      guard! amount =? Z.quot txFee (ConversionFactor EVMCoinDecimals) else Registered "sdk" 18;
      guard! gasLimit =? txGasLimit else Registered "sdk" 18; Ok tt
  end.

(** ** Gas estimation *)
Definition GasToRefund (availableRefund gasConsumed refundQuotient : Z) : Z :=
  let refund := gasConsumed / refundQuotient in
  if availableRefund <? refund then availableRefund else refund.

(** [BinSearch] of types/utils.go; [executable] tells whether the gas fails.  Every
    round halves [hi - lo], so the fuel is the width of the arguments. *)
Fixpoint BinSearchLoop (fuel : nat) (lo hi : Z) (executable : Z → result bool) : option (result Z) :=
  if u64 (lo + 1) <? hi then
    match fuel with
    | O => None
    | S fuel =>
        let mid := u64 (hi + lo) / 2 in
        match executable mid with
        | Err e => Some (Err e)
        | Ok true => BinSearchLoop fuel mid hi executable
        | Ok false => BinSearchLoop fuel lo mid executable
        end
    end
  else Some (Ok hi).

Definition BinSearch (lo hi : Z) (executable : Z → result bool) : option (result Z) :=
  BinSearchLoop 64 lo hi executable.

(** ** Theorems *)

(** What a checked transaction pays.  If the data is valid, the fee verifies against
    the base fee and the balance check passes, then the price per gas is at least the
    base fee and at most the cap, the fee deducted is exactly price times gas limit, and
    the balance covers it together with the value. *)
Theorem checked_fee_affordable `{IntrinsicGas} tx base balance homestead istanbul isCheckTx feeAmt :
  0 <= txGas (fields tx) → 0 <= base → Validate tx = Ok tt →
  VerifyFee tx (Some base) homestead istanbul isCheckTx = Ok feeAmt → CheckSenderBalance balance tx = Ok tt →
  ∃ price cap, EffectiveGasPrice tx (Some base) = Ok price ∧ GetGasFeeCap tx = Some cap ∧
    base <= price <= cap ∧ default 0 feeAmt = price * txGas (fields tx) ∧
    0 <= default 0 feeAmt ∧ default 0 feeAmt + default 0 (txValue (fields tx)) <= balance.
Proof.
intros Hg Hb Hv Hf Hc. unfold Validate, LegacyTx_Validate, AccessListTx_Validate, DynamicFeeTx_Validate, VerifyFee, EffectiveFee, CheckSenderBalance, Cost, Fee, GetGasPrice in *.
assert (Hp : ∃ price cap, EffectiveGasPrice tx (Some base) = Ok price ∧ GetGasFeeCap tx = Some cap ∧ 0 <= cap ∧
  (base <= cap → base <= price) ∧ price <= cap ∧ 0 <= default 0 (txValue (fields tx))).
{ assert (Hamt : ∀ f, validAmount f = Ok tt → 0 <= default 0 (txValue f)).
  { intros f. unfold validAmount. destruct (txValue f); [|done]. intros Ha. inv_ok. boolP. done. }
  destruct tx as [f [p|]|f [p|]|f [tip|] [cap|]]; simpl in *; try done; inv_ok; boolP;
    repeat match goal with x : () |- _ => destruct x end; do 2 eexists;
    split_and!; try reflexivity; try (by apply Hamt); unfold effectivePrice; try lia; try done. }
destruct Hp as (price & cap & Hprice & Hcap & Hcap0 & Hle & Hle2 & Hval).
rewrite Hprice, Hcap in *. cbn [deref mbind result_bind] in *. inv_ok. boolP. exists price, cap.
assert (Hfee : default 0 (if fee price (txGas (fields tx)) =? 0 then None else Some (fee price (txGas (fields tx))))
  = price * txGas (fields tx)).
{ destruct (_ =? 0) eqn:E; simpl; boolP; unfold fee in *; lia. }
rewrite Hfee. unfold cost, fee in *. split_and!; try done; try (apply Hle; lia); [nia|].
destruct (txValue (fields tx)); simpl in *; nia.
Qed.

(** *** Binary search *)
Lemma BinSearchLoop_spec fuel f : ∀ lo hi,
  0 <= lo < hi → hi < 2 ^ 63 → hi - lo <= 2 ^ Z.of_nat fuel →
  ∃ g, BinSearchLoop fuel lo hi (fun x => Ok (f x)) = Some (Ok g) ∧ lo < g <= hi ∧
    (g = hi ∨ f g = false) ∧ (g = lo + 1 ∨ f (g - 1) = true).
Proof.
induction fuel as [|fuel IH]; intros lo hi Hlo Hhi Hw.
- assert (hi = lo + 1) as -> by (simpl in Hw; lia). exists (lo + 1). simpl.
  rewrite u64_small by (unfold is_u64, maxU64; lia). rewrite Z.ltb_irrefl. split_and!; auto; lia.
- cbn [BinSearchLoop]. rewrite !u64_small by (unfold is_u64, maxU64; lia).
  destruct (lo + 1 <? hi) eqn:E; boolP; [|exists hi; split_and!; auto; [lia|lia|left; lia]].
  rewrite Nat2Z.inj_succ, Z.pow_succ_r in Hw by lia.
  pose proof (Z.div_mod (hi + lo) 2 ltac:(lia)) as Hd. pose proof (Z.mod_pos_bound (hi + lo) 2 ltac:(lia)) as Hmod.
  set (mid := (hi + lo) / 2) in *. assert (Hm : lo < mid < hi) by lia. destruct (f mid) eqn:Ef.
  + destruct (IH mid hi) as (g & Hg & Hr & H1 & H2); [lia|lia|lia|]. exists g. rewrite Hg. split_and!; [done|lia|lia|done|].
    destruct H2 as [->|H2]; [right|by right]. by replace (mid + 1 - 1) with mid by lia.
  + destruct (IH lo mid) as (g & Hg & Hr & H1 & H2); [lia|lia|lia|]. exists g. rewrite Hg. split_and!; [done|lia|lia| |done].
    destruct H1 as [->|H1]; by right.
Qed.

(** Gas estimation ends, and it finds the boundary: an answer below the upper bound
    does not fail, and one unit less fails unless it is the lower bound.  If more gas
    never turns a success into a failure, everything below the answer fails. *)
Theorem BinSearch_finds_boundary f lo hi :
  0 <= lo < hi → hi < 2 ^ 63 →
  ∃ g, BinSearch lo hi (fun x => Ok (f x)) = Some (Ok g) ∧ lo < g <= hi ∧
    (g = hi ∨ f g = false) ∧ (g = lo + 1 ∨ f (g - 1) = true) ∧
    ((∀ x y, x <= y → f y = true → f x = true) → ∀ x, lo < x < g → f x = true).
Proof.
intros Hlo Hhi. destruct (BinSearchLoop_spec 64 f lo hi Hlo Hhi) as (g & Hg & Hr & H1 & H2); [simpl; lia|].
exists g. split_and!; try done; try lia. intros Hmono x Hx. destruct H2 as [->|H2]; [lia|].
apply (Hmono x (g - 1)); [lia|done].
Qed.

Lemma BinSearch_finds_boundary_witness :
  ∃ g, BinSearch 20999 30000000 (fun x => Ok (x <? 21337)) = Some (Ok g) ∧ (g = 30000000 ∨ (g <? 21337) = false).
Proof.
destruct (BinSearch_finds_boundary (fun x => x <? 21337) 20999 30000000) as (g & E & _ & H & _); [lia|lia|].
exists g. split; [exact E|exact H].
Defined.

#[local] Instance simpleIntrinsic : IntrinsicGas := fun _ _ _ _ _ => Ok 21000.
Definition transfer : TxData :=
  DynamicFeeTx (mkTxFields 0 21000 (Some "to") true (Some 5) "" [] (Some 88188)) (Some 2) (Some 10).

Lemma checked_fee_affordable_witness :
  VerifyFee transfer (Some 7) true true true = Ok (Some 189000) ∧ 189000 + 5 <= 210005.
Proof.
split; [reflexivity|].
destruct (checked_fee_affordable transfer 7 210005 true true true (Some 189000))
  as (price & cap & _ & _ & _ & _ & _ & H); [simpl; lia|lia|reflexivity|reflexivity|reflexivity|exact H].
Defined.
