(* ===== verification/EvmVM.v ===== *)
(** * x/evm/core/vm: calls and contract creation (evm.go)

    The frames of the virtual machine: access control, depth and balance checks, the
    snapshot, the transfer, the run of the code and the revert on failure.  The byte
    code interpreter and the bodies of the precompiles are parameters: they receive the
    machine and return data, remaining gas, an error and the machine.  Tracing is left
    out.  A panic of the state database is an error of the whole transaction. *)

From stdpp Require Import gmap strings list sorting.
From Stdlib Require Import Ascii ZArith Lia.
From S2P Require Import Prelude EvmStateDB EvmJournal EvmRevert EvmSnapshot.

Open Scope Z_scope.

Inductive VMError :=
  | ErrOutOfGas | ErrCodeStoreOutOfGas | ErrDepth | ErrInsufficientBalance | ErrContractAddressCollision
  | ErrExecutionReverted | ErrMaxCodeSizeExceeded | ErrInvalidCode | ErrNonceUintOverflow
  | ErrOther (e : error).

#[export] Instance VMError_eq : EqDecision VMError.
Proof. solve_decision. Defined.

(** The constants of go-ethereum's params package. *)
Definition CallCreateDepth : Z := 1024.
Definition MaxCodeSize : Z := 24576.
Definition CreateDataGas : Z := 200.

(** ** Access control (x/evm/types/permissions.go) *)
Inductive AccessType := AccessTypePermissionless | AccessTypeRestricted | AccessTypePermissioned.
#[export] Instance AccessType_eq : EqDecision AccessType.
Proof. solve_decision. Defined.
Record AccessControlType := mkAccessControlType { accessType : AccessType; AccessControlList : list Address }.
Record AccessControl := mkAccessControl { acCreate : AccessControlType; acCall : AccessControlType }.

Definition permissionlessCheckFn (addresses : list Address) (signer caller : Address) : bool :=
  negb (bool_decide (signer ∈ addresses)) && negb (bool_decide (caller ∈ addresses)).
Definition permissionedCheckFn (addresses : list Address) (signer caller : Address) : bool :=
  bool_decide (signer ∈ addresses) || bool_decide (caller ∈ addresses).

Definition allowed (t : AccessControlType) (signer caller : Address) : bool :=
  match accessType t with
  | AccessTypePermissionless => permissionlessCheckFn (AccessControlList t) signer caller
  | AccessTypeRestricted => false
  | AccessTypePermissioned => permissionedCheckFn (AccessControlList t) signer caller
  end.
Definition CanCreate (ac : AccessControl) (signer caller : Address) : bool := allowed (acCreate ac) signer caller.
Definition CanCall (ac : AccessControl) (signer caller : Address) : bool := allowed (acCall ac) signer caller.

(** ** The machine *)
Record Rules := mkRules { IsHomestead : bool; IsEIP158 : bool; IsBerlin : bool; IsLondon : bool }.

Record EVM (C : Type) := mkEVM {
  evmDB : StateDB C;
  precompiles : gset Address;      (** keys of the map of loaded precompiles *)
}.
Arguments mkEVM {C}.
Arguments evmDB {C}.
Arguments precompiles {C}.

Record EVMSetup := mkEVMSetup {
  rules : Rules;
  signer : Address;
  accessControl : AccessControl;
  GetPrecompileInstance : Address → result bool;  (** of the keeper: found or not *)
  CreateAddress : Address → Z → Address;          (** of go-ethereum's crypto package *)
  CreateAddress2 : Address → string → string → Address;
}.

Definition outcome : Type := string * Z * option VMError.   (** return data, gas left, error *)

(** The fields of a [Contract] the interpreter is started with. *)
Record Contract := mkContract {
  ctCaller : Address; ctAddress : Address; ctValue : option Z; ctGas : Z;
  ctCodeAddr : Address; ctCode : option string; ctDelegate : bool;
}.

Section machine.
Context `{EvmEnv} {C : Type} `{K : StateKeeper C}.
Variable setup : EVMSetup.
Variable depth : Z.
Variable interpreterRun : Contract → string → bool → EVM C → outcome * EVM C.
Variable RequiredGas : Address → string → Z.
Variable precompileRun : Address → Contract → string → bool → EVM C → outcome * EVM C.
Implicit Types (e : EVM C) (caller a : Address).

Definition withDB (s : StateDB C) e : EVM C := mkEVM s (precompiles e).

(** [CanTransfer] and [Transfer] of x/evm/core/core/utils.go. *)
Definition CanTransfer e a (amount : Z) : bool * EVM C :=
  let '(b, s) := GetBalance a (evmDB e) in (amount <=? b, withDB s e).
Definition Transfer e (sender recipient : Address) (amount : Z) : EVM C :=
  withDB (AddBalance recipient amount (SubBalance sender amount (evmDB e))) e.

(** The hooks [NewEVM] of x/evm/keeper installs: the call permission, then the loading
    of the recipient's precompile, which is also put in the access list. *)
Definition CallHook caller a e : option VMError * EVM C :=
  if negb (CanCall (accessControl setup) (signer setup) caller)
  then (Some (ErrOther (Plain "caller does not have permission to perform a call")), e)
  else
    match GetPrecompileInstance setup a with
    | Err x => (Some (ErrOther x), e)
    | Ok false => (None, e)
    | Ok true => (None, mkEVM (AddAddressToAccessList a (evmDB e)) {[a]})
    end.
Definition CreateHook caller : option VMError :=
  if CanCreate (accessControl setup) (signer setup) caller then None
  else Some (ErrOther (Plain "caller does not have permission to deploy contracts")).

Definition runPrecompiledContract a caller (input : string) (gas : Z) (value : option Z) (readOnly : bool) e
    : outcome * EVM C :=
  let gasCost := RequiredGas a input in
  if gas <? gasCost then ((""%string, gas, Some ErrOutOfGas), e)
  else precompileRun a (mkContract caller a value (gas - gasCost) a None false) input readOnly e.

(** The common end of a frame: on an error the state goes back to the snapshot, and
    the remaining gas is consumed unless the code reverted by itself. *)
Definition finish (snapshot : Z) (r : outcome * EVM C) : result (outcome * EVM C) :=
  let '((ret, gas, err), e) := r in
  match err with
  | None => Ok (ret, gas, None, e)
  | Some x =>
      s ← RevertToSnapshot snapshot (evmDB e);
      Ok (ret, if decide (x = ErrExecutionReverted) then gas else 0, Some x, withDB s e)
  end.

(** Failures before the snapshot leave the gas alone. *)
Definition refused (gas : Z) (x : VMError) e : result (outcome * EVM C) := Ok (""%string, gas, Some x, e).

(** Code and code hash of an address, as [SetCallCode] reads them. *)
Definition readCode a e : option string * EVM C :=
  let '(_, s) := GetCodeHash a (evmDB e) in let '(c, s) := GetCode a s in (c, withDB s e).

Definition Call caller a (input : string) (gas value : Z) e : result (outcome * EVM C) :=
  match CallHook caller a e with
  | (Some x, e) => refused gas x e
  | (None, e) =>
      if CallCreateDepth <? depth then refused gas ErrDepth e
      else
        let '(able, e) := if value =? 0 then (true, e) else CanTransfer e caller value in
        if negb able then refused gas ErrInsufficientBalance e
        else
          let '(snapshot, s) := Snapshot (evmDB e) in
          let isPrecompile := bool_decide (a ∈ precompiles e) in
          let '(exists_, s) := Exist a s in
          if negb exists_ && negb isPrecompile && IsEIP158 (rules setup) && (value =? 0)
          then Ok (""%string, gas, None, withDB s e)
          else
            let s := if exists_ then s else CreateAccount a s in
            let e := Transfer (withDB s e) caller a value in
            finish snapshot
              (if isPrecompile then runPrecompiledContract a caller input gas (Some value) false e
               else
                 let '(c, s) := GetCode a (evmDB e) in
                 let e := withDB s e in
                 match c with
                 | None | Some EmptyString => ((""%string, gas, None), e)
                 | Some code =>
                     let '(_, s) := GetCodeHash a (evmDB e) in
                     interpreterRun (mkContract caller a (Some value) gas a (Some code) false) input false (withDB s e)
                 end)
  end.

(** What [CallCode] and [DelegateCall] share: the code of [a] in the caller's place. *)
Definition callWith (ct : option string → Contract) (value : option Z) caller a (input : string) (gas : Z)
    (readOnly : bool) e : result (outcome * EVM C) :=
  let '(snapshot, s) := Snapshot (evmDB e) in
  let e := withDB s e in
  finish snapshot
    (if bool_decide (a ∈ precompiles e) then runPrecompiledContract a caller input gas value true e
     else let '(c, e) := readCode a e in interpreterRun (ct c) input readOnly e).

Definition CallCode caller a (input : string) (gas value : Z) e : result (outcome * EVM C) :=
  match CallHook caller a e with
  | (Some x, e) => refused gas x e
  | (None, e) =>
      if CallCreateDepth <? depth then refused gas ErrDepth e
      else
        let '(able, e) := CanTransfer e caller value in
        if negb able then refused gas ErrInsufficientBalance e
        else callWith (fun c => mkContract caller caller (Some value) gas a c false) (Some value) caller a input gas false e
  end.

Definition DelegateCall caller a (input : string) (gas : Z) e : result (outcome * EVM C) :=
  match CallHook caller a e with
  | (Some x, e) => refused gas x e
  | (None, e) =>
      if CallCreateDepth <? depth then refused gas ErrDepth e
      else callWith (fun c => mkContract caller caller None gas a c true) None caller a input gas false e
  end.

Definition StaticCall caller a (input : string) (gas : Z) e : result (outcome * EVM C) :=
  match CallHook caller a e with
  | (Some x, e) => refused gas x e
  | (None, e) =>
      if CallCreateDepth <? depth then refused gas ErrDepth e
      else
        let '(snapshot, s) := Snapshot (evmDB e) in
        let e := withDB (AddBalance a 0 s) e in
        finish snapshot
          (if bool_decide (a ∈ precompiles e) then runPrecompiledContract a caller input gas (Some 0) true e
           else let '(c, e) := readCode a e in
                interpreterRun (mkContract caller a (Some 0) gas a c false) input true e)
  end.

(** The checks on the deployed code, the gas for storing it and the code itself. *)
Definition storeCode a (r : outcome * EVM C) : outcome * EVM C :=
  let '((ret, gas, err), e) := r in
  match err with
  | Some x => ((ret, gas, Some x), e)
  | None =>
      if IsEIP158 (rules setup) && (MaxCodeSize <? Z.of_nat (String.length ret)) then ((ret, gas, Some ErrMaxCodeSizeExceeded), e)
      else if IsLondon (rules setup) && bool_decide (String.get 0 ret = Some "239"%char)
      then ((ret, gas, Some ErrInvalidCode), e)
      else
        let createDataGas := u64 (Z.of_nat (String.length ret) * CreateDataGas) in
        if gas <? createDataGas then ((ret, gas, Some ErrCodeStoreOutOfGas), e)
        else ((ret, gas - createDataGas, None), withDB (SetCode a (Some ret) (evmDB e)) e)
  end.

(** Before Homestead, running out of gas for the code kept the contract without code. *)
Definition finishCreate (snapshot : Z) (r : outcome * EVM C) : result (outcome * EVM C) :=
  let '((ret, gas, err), e) := r in
  match err with
  | None => Ok (ret, gas, None, e)
  | Some x =>
      if IsHomestead (rules setup) || negb (bool_decide (x = ErrCodeStoreOutOfGas)) then finish snapshot r
      else Ok (ret, gas, Some x, e)
  end.

Definition create caller (code : string) (gas value : Z) a e : result (outcome * EVM C) :=
  if CallCreateDepth <? depth then refused gas ErrDepth e
  else
    let '(able, e) := CanTransfer e caller value in
    if negb able then refused gas ErrInsufficientBalance e
    else
      let '(nonce, s) := GetNonce caller (evmDB e) in
      let e := withDB s e in
      if u64 (nonce + 1) <? nonce then refused gas ErrNonceUintOverflow e
      else
        let s := SetNonce caller (u64 (nonce + 1)) (evmDB e) in
        let s := if IsBerlin (rules setup) then AddAddressToAccessList a s else s in
        let '(contractHash, s) := GetCodeHash a s in
        let '(n, s) := GetNonce a s in
        if negb (n =? 0) || (negb (bool_decide (contractHash = zeroHash)) && negb (IsEmptyCodeHash contractHash))
        then Ok (""%string, 0, Some ErrContractAddressCollision, withDB s e)
        else
          let '(snapshot, s) := Snapshot s in
          let s := CreateAccount a s in
          let s := if IsEIP158 (rules setup) then SetNonce a 1 s else s in
          let e := Transfer (withDB s e) caller a value in
          finishCreate snapshot
            (storeCode a (interpreterRun (mkContract caller a (Some value) gas a (Some code) false) "" false e)).

Definition Create caller (code : string) (gas value : Z) e : result (outcome * EVM C) :=
  match CreateHook caller with
  | Some x => refused gas x e
  | None =>
      let '(n, s) := GetNonce caller (evmDB e) in
      create caller code gas value (CreateAddress setup caller n) (withDB s e)
  end.

Definition Create2 caller (code : string) (gas endowment : Z) (salt : string) e : result (outcome * EVM C) :=
  match CreateHook caller with
  | Some x => refused gas x e
  | None => create caller code gas endowment (CreateAddress2 setup caller salt (Bytes (Keccak256 code))) e
  end.
End machine.
