(* ===== verification/EvmFrames.v ===== *)
(** * x/evm/core/vm: frames are atomic

    A frame that fails leaves the state as it was when its snapshot was taken, and
    every frame, failed or not, is for its caller a run of state operations that only
    goes back to its own snapshots; so the property carries over to calls in calls.
    The assumption on the interpreter and the precompiles is that they act through the
    state database in that way and return no more gas than they got.  A precompile that
    fails after it has begun does not: see [failed_precompile_survives_revert]. *)

From stdpp Require Import gmap strings list sorting.
From Stdlib Require Import ZArith Lia.
From S2P Require Import Prelude EvmStateDB EvmJournal EvmRevert EvmSnapshot EvmVM.

Open Scope Z_scope.

Section acts.
Context `{EvmEnv} {C : Type} `{K : StateKeeper C} `{!ScaledKeeper K} (c0 : C) (cfg : TxConfig).
Implicit Types (s t : StateDB C).
Abbreviation reachable := (reachable c0 cfg).

(** [t] comes from [s] by operations that do not go back behind [s]. *)
Definition acts s t : Prop := ∃ ops, run ops s = Ok t ∧ ∀ r, OpRevert r ∈ ops → nextRevisionID s <= r.

Lemma acts_refl s : acts s s.
Proof. exists []. split; [done|]. intros r Hr. by apply elem_of_nil in Hr. Qed.

Lemma acts_reachable s t : reachable s → acts s t → reachable t.
Proof. intros [ops1 H1] (ops2 & H2 & _). exists (ops1 ++ ops2). by rewrite run_app, H1. Qed.

Lemma reachable_ids s : reachable s → ids_below (nextRevisionID s) (validRevisions s).
Proof.
intros Hs. apply reachable_since in Hs as (_ & _ & _ & es & rs & _ & _ & _ & E7 & E8). rewrite E7. simpl.
apply Forall_forall. intros r Hin. by apply (chain_ids rs _ _ _ _ r E8).
Qed.

Lemma acts_next s t : reachable s → acts s t → nextRevisionID s <= nextRevisionID t.
Proof.
intros Hs (ops & Hr & Hi). pose proof (reachable_since _ _ _ Hs) as Hs0.
assert (H0 : since s s).
{ apply since_refl; [by apply since_wf in Hs0|by apply since_journal in Hs0|by apply reachable_ids]. }
destruct (since_run s ops s t H0 Hi Hr) as (_ & _ & _ & es & rs & _ & _ & _ & _ & Hc).
apply chain_bounds in Hc. lia.
Qed.

Lemma acts_trans s t u : reachable s → acts s t → acts t u → acts s u.
Proof.
intros Hs Hst (ops2 & H2 & Hi2). pose proof (acts_next s t Hs Hst) as Hn. destruct Hst as (ops1 & H1 & Hi1).
exists (ops1 ++ ops2). split; [by rewrite run_app, H1|]. intros r [Hr|Hr]%elem_of_app; [by apply Hi1|].
specialize (Hi2 r Hr). lia.
Qed.

(** One operation that is not a revert. *)
Lemma acts_op o s t : exec o s = Ok t → (∀ r, o ≠ OpRevert r) → acts s t.
Proof.
intros He Ho. exists [o]. split; [simpl; by rewrite He|]. intros r Hr. apply list_elem_of_singleton in Hr. by destruct (Ho r).
Qed.

(** A frame that is rolled back. *)
Lemma frame_reverts s t : reachable s → acts (Snapshot s).2 t →
  ∃ u, RevertToSnapshot (Snapshot s).1 t = Ok u ∧ u ≡ s ∧ acts s u.
Proof.
intros Hs (ops & Hr & Hi).
destruct (revert_to_snapshot c0 cfg s ops t Hs Hr) as (u & E & Hu & _).
{ intros r Hin. specialize (Hi r Hin). simpl in *. lia. }
exists u. split; [done|]. split; [done|]. exists (OpSnapshot :: ops ++ [OpRevert (Snapshot s).1]).
split.
- cbn [run exec mbind result_bind]. rewrite run_app, Hr. cbn [run exec mbind result_bind]. by rewrite E.
- intros r [Hx|[Hin|Hin]%elem_of_app]%elem_of_cons; [done| |].
  + specialize (Hi r Hin). simpl in *. lia.
  + apply list_elem_of_singleton in Hin. injection Hin as ->. simpl. lia.
Qed.
End acts.

(** ** Frames *)

(** What the interpreter and the precompiles promise to the machine. *)
Class Executes `{EvmEnv} {C : Type} `{K : StateKeeper C} (c0 : C) (cfg : TxConfig)
    (body : Contract → string → bool → EVM C → outcome * EVM C) : Prop :=
  executes ct input ro e : reachable c0 cfg (evmDB e) → 0 <= ctGas ct →
    acts (evmDB e) (evmDB (body ct input ro e).2) ∧ 0 <= (body ct input ro e).1.1.2 <= ctGas ct.

Section frames.
Context `{EvmEnv} {C : Type} `{K : StateKeeper C} `{!ScaledKeeper K} (c0 : C) (cfg : TxConfig).
Variable setup : EVMSetup.
Variable depth : Z.
Variable interpreterRun : Contract → string → bool → EVM C → outcome * EVM C.
Variable RequiredGas : Address → string → Z.
Variable precompileRun : Address → Contract → string → bool → EVM C → outcome * EVM C.
Context `{!Executes c0 cfg interpreterRun} `{!∀ a, Executes c0 cfg (precompileRun a)}.
Hypothesis required_nonneg : ∀ a input, 0 <= RequiredGas a input.
Implicit Types (s t : StateDB C) (e : EVM C) (caller a : Address).
Abbreviation reachable := (reachable c0 cfg).

(** A frame entered in state [s]: it ends, it acts, it returns no more gas than it was
    given, and if it fails the state is that of [s0]. *)
Definition frame_post s0 s (gas : Z) (r : result (outcome * EVM C)) : Prop :=
  ∃ ret gas' err e', r = Ok (ret, gas', err, e') ∧ acts s (evmDB e') ∧ 0 <= gas' <= gas ∧
    (err ≠ None → evmDB e' ≡ s0).

Lemma frame_post_from s0 s s1 gas r :
  reachable s → acts s s1 → s1 ≡ s0 → frame_post s1 s1 gas r → frame_post s0 s gas r.
Proof.
intros Hr Ha Heq (ret & g & err & e & E & A & G & P). exists ret, g, err, e. split_and!; try done; try lia.
- by apply (acts_trans c0 cfg s s1).
- intros Hn. by rewrite (P Hn).
Qed.

Lemma refused_post s gas x e : evmDB e = s → 0 <= gas → frame_post s s gas (refused gas x e).
Proof. intros <- Hg. exists ""%string, gas, (Some x), e. split_and!; try done; try lia. apply acts_refl. Qed.

(** The body of a frame, relative to its snapshot. *)
Definition body_ok s (gas : Z) (r : outcome * EVM C) : Prop :=
  acts (Snapshot s).2 (evmDB r.2) ∧ 0 <= r.1.1.2 <= gas.

Lemma acts_snapshot s : acts s (Snapshot s).2.
Proof. by apply (acts_op OpSnapshot). Qed.

Lemma finish_post s gas r : reachable s → body_ok s gas r → frame_post s s gas (finish (Snapshot s).1 r).
Proof.
destruct r as [[[ret g] [x|]] e]; intros Hs [Ha Hg]; simpl in Ha, Hg.
- destruct (frame_reverts c0 cfg s (evmDB e) Hs Ha) as (u & E & Hu & Hau). unfold finish. rewrite E.
  do 4 eexists. split; [done|]. split; [done|]. split; [case_decide; lia|]. intros _. exact Hu.
- do 4 eexists. split; [done|]. split; [|by split].
  apply (acts_trans c0 cfg s (Snapshot s).2); [done|apply acts_snapshot|done].
Qed.

Lemma acts_then s t u o : reachable s → acts s t → exec o t = Ok u → (∀ r, o ≠ OpRevert r) → acts s u.
Proof. intros Hs Ha He Ho. apply (acts_trans c0 cfg s t); [done|done|]. by apply (acts_op o). Qed.

Lemma reachable_snapshot s : reachable s → reachable (Snapshot s).2.
Proof. intros Hs. apply (acts_reachable c0 cfg s); [done|apply acts_snapshot]. Qed.

(** Running code after the preparation of the frame. *)
Lemma body_run s body ct input ro e gas : Executes c0 cfg body → reachable s →
  acts (Snapshot s).2 (evmDB e) → 0 <= ctGas ct <= gas → body_ok s gas (body ct input ro e).
Proof.
intros Hb Hs Ha Hg. pose proof (reachable_snapshot s Hs) as Hs1.
destruct (executes ct input ro e) as [A G]; [by apply (acts_reachable c0 cfg (Snapshot s).2)|lia|].
split; [by apply (acts_trans c0 cfg _ (evmDB e))|lia].
Qed.

Lemma precompile_run s a caller input gas value ro e : reachable s → acts (Snapshot s).2 (evmDB e) → 0 <= gas →
  body_ok s gas (runPrecompiledContract RequiredGas precompileRun a caller input gas value ro e).
Proof.
intros Hs Ha Hg. unfold runPrecompiledContract. specialize (required_nonneg a input).
destruct (_ <? _) eqn:E; boolP; [by split|]. by apply body_run; [| | |simpl; lia].
Qed.

Lemma CallHook_acts caller a e : acts (evmDB e) (evmDB (CallHook setup caller a e).2).
Proof.
unfold CallHook. repeat (case_match; try apply acts_refl). simpl. by apply (acts_op (OpAddAddress a)).
Qed.

Lemma GetBalance_acts a s : acts s (GetBalance a s).2.
Proof. by apply (acts_op (OpGetBalance a)). Qed.

Lemma getStateObject_same a s : (getStateObject a s).2 ≡ s.
Proof. symmetry. apply getStateObject_equiv. Qed.

Lemma GetBalance_same a s : (GetBalance a s).2 ≡ s.
Proof. unfold GetBalance. pose proof (getStateObject_same a s). by destruct (getStateObject a s). Qed.

Lemma CanTransfer_spec e a x :
  acts (evmDB e) (evmDB (CanTransfer e a x).2) ∧ evmDB (CanTransfer e a x).2 ≡ evmDB e.
Proof.
unfold CanTransfer. pose proof (GetBalance_acts a (evmDB e)). pose proof (GetBalance_same a (evmDB e)).
by destruct (GetBalance a (evmDB e)).
Qed.

Lemma readCode_acts s a e : reachable s → acts s (evmDB e) → acts s (evmDB (readCode a e).2).
Proof.
intros Hs Ha. unfold readCode. pose proof (acts_then s (evmDB e) _ (OpGetCodeHash a) Hs Ha eq_refl ltac:(done)) as A1.
destruct (GetCodeHash a (evmDB e)) as [h s1]. simpl in A1.
pose proof (acts_then s s1 _ (OpGetCode a) Hs A1 eq_refl ltac:(done)) as A2. by destruct (GetCode a s1).
Qed.

Lemma Transfer_acts s caller a x e : reachable s → acts s (evmDB e) → acts s (evmDB (Transfer e caller a x)).
Proof.
intros Hs Ha. unfold Transfer. cbn [evmDB withDB].
eapply (acts_then s _ _ (OpAddBalance a x)); [done| |done|done].
by eapply (acts_then s _ _ (OpSubBalance caller x)).
Qed.

(** The inner part of [Call], from the snapshot on. *)
Lemma Call_body s e caller a input gas value : reachable s → evmDB e = s → 0 <= gas →
  let isPrecompile := bool_decide (a ∈ precompiles e) in
  let '(exists_, s1) := Exist a (Snapshot s).2 in
  frame_post s s gas
    (if negb exists_ && negb isPrecompile && IsEIP158 (rules setup) && (value =? 0)
     then Ok (""%string, gas, None, withDB s1 e)
     else
       let s2 := if exists_ then s1 else CreateAccount a s1 in
       let e := Transfer (withDB s2 e) caller a value in
       finish (Snapshot s).1
         (if isPrecompile then runPrecompiledContract RequiredGas precompileRun a caller input gas (Some value) false e
          else
            let '(c, s) := GetCode a (evmDB e) in
            let e := withDB s e in
            match c with
            | None | Some EmptyString => ((""%string, gas, None), e)
            | Some code =>
                let '(_, s) := GetCodeHash a (evmDB e) in
                interpreterRun (mkContract caller a (Some value) gas a (Some code) false) input false (withDB s e)
            end)).
Proof.
intros Hs He Hg. cbv zeta. pose proof (reachable_snapshot s Hs) as Hs1.
pose proof (acts_op (OpExist a) (Snapshot s).2 _ eq_refl ltac:(done)) as AE.
destruct (Exist a (Snapshot s).2) as [ex s1]. simpl in AE.
destruct (_ && (value =? 0)).
{ do 4 eexists. split; [done|]. split_and!; try done; try lia.
  apply (acts_trans c0 cfg s (Snapshot s).2); [done|apply acts_snapshot|done]. }
assert (AC : acts (Snapshot s).2 (if ex then s1 else CreateAccount a s1)).
{ destruct ex; [done|]. by eapply (acts_then _ s1 _ (OpCreateAccount a)). }
set (s2 := if ex then s1 else CreateAccount a s1) in *.
pose proof (Transfer_acts (Snapshot s).2 caller a value (withDB s2 e) Hs1 AC) as AT.
set (e1 := Transfer (withDB s2 e) caller a value) in *. apply finish_post; [done|].
case_bool_decide; [by apply precompile_run|].
pose proof (acts_then _ _ _ (OpGetCode a) Hs1 AT eq_refl ltac:(done)) as AG.
destruct (GetCode a (evmDB e1)) as [c s3]. simpl in AG.
assert (Hdone : body_ok s gas ((""%string, gas, None), withDB s3 e1)) by (split; [done|simpl; lia]).
destruct c as [[|x code]|]; [exact Hdone| |exact Hdone].
pose proof (acts_then _ _ _ (OpGetCodeHash a) Hs1 AG eq_refl ltac:(done)) as AH.
cbn [evmDB withDB]. destruct (GetCodeHash a s3) as [h s4]. simpl in AH. by apply body_run; [| | |simpl; lia].
Qed.

Lemma Call_post caller a input gas value e : reachable (evmDB e) → 0 <= gas →
  frame_post (evmDB (CallHook setup caller a e).2) (evmDB e) gas
    (Call setup depth interpreterRun RequiredGas precompileRun caller a input gas value e).
Proof.
intros Hs Hg. unfold Call. pose proof (CallHook_acts caller a e) as AH.
destruct (CallHook setup caller a e) as [[x|] e1]; simpl in AH |- *.
{ apply (frame_post_from _ _ (evmDB e1)); [done|done|done|by apply refused_post]. }
pose proof (acts_reachable c0 cfg _ _ Hs AH) as Hs1.
apply (frame_post_from _ _ (evmDB e1)); [done|done|done|].
destruct (_ <? depth); [by apply refused_post|].
assert (Hct : ∃ able e2, (if value =? 0 then (true, e1) else CanTransfer e1 caller value) = (able, e2) ∧
  acts (evmDB e1) (evmDB e2) ∧ evmDB e2 ≡ evmDB e1 ∧ precompiles e2 = precompiles e1).
{ destruct (value =? 0); [exists true, e1; split_and!; [done|apply acts_refl|done|done]|].
  destruct (CanTransfer_spec e1 caller value) as [A E]. unfold CanTransfer in *.
  destruct (GetBalance caller (evmDB e1)). do 2 eexists. by split. }
destruct Hct as (able & e2 & -> & A2 & E2 & P2). pose proof (acts_reachable c0 cfg _ _ Hs1 A2) as Hs2.
apply (frame_post_from _ _ (evmDB e2)); [done|done|done|].
destruct able; simpl; [|by apply refused_post].
pose proof (Call_body (evmDB e2) e2 caller a input gas value Hs2 eq_refl Hg) as Hb. cbv zeta in Hb.
cbn [Snapshot fst snd] in Hb |- *. destruct (Exist a _) as [ex s3]. exact Hb.
Qed.


(** *** The other calls *)
Lemma callWith_post ct value caller a input gas ro e : reachable (evmDB e) → 0 <= gas → (∀ c, ctGas (ct c) = gas) →
  frame_post (evmDB e) (evmDB e) gas (callWith interpreterRun RequiredGas precompileRun ct value caller a input gas ro e).
Proof.
intros Hs Hg Hct. unfold callWith. pose proof (reachable_snapshot _ Hs) as Hs1.
pose proof (finish_post (evmDB e) gas) as HF. cbn [Snapshot fst snd] in *. apply HF; [done|]. clear HF.
assert (A0 : acts (Snapshot (evmDB e)).2 (evmDB (withDB (Snapshot (evmDB e)).2 e))) by apply acts_refl.
cbn [Snapshot fst snd] in A0. case_bool_decide; [by apply precompile_run|].
pose proof (readCode_acts (Snapshot (evmDB e)).2 a (withDB (Snapshot (evmDB e)).2 e) Hs1 (acts_refl _)) as AR.
cbn [Snapshot fst snd] in AR. destruct (readCode a _) as [code e1]. simpl in AR.
apply body_run; [done|done|exact AR|rewrite Hct; lia].
Qed.

Lemma hooked_post (f : EVM C → result (outcome * EVM C)) caller a gas e :
  reachable (evmDB e) → 0 <= gas → (∀ e, reachable (evmDB e) → frame_post (evmDB e) (evmDB e) gas (f e)) →
  frame_post (evmDB (CallHook setup caller a e).2) (evmDB e) gas
    (match CallHook setup caller a e with
     | (Some x, e) => refused gas x e
     | (None, e) => if CallCreateDepth <? depth then refused gas ErrDepth e else f e
     end).
Proof.
intros Hs Hg Hf. pose proof (CallHook_acts caller a e) as AH.
destruct (CallHook setup caller a e) as [[x|] e1]; simpl in AH |- *;
  apply (frame_post_from _ _ (evmDB e1)); try done; [by apply refused_post|].
pose proof (acts_reachable c0 cfg _ _ Hs AH) as Hs1. destruct (_ <? depth); [by apply refused_post|by apply Hf].
Qed.

Lemma CallCode_post caller a input gas value e : reachable (evmDB e) → 0 <= gas →
  frame_post (evmDB (CallHook setup caller a e).2) (evmDB e) gas
    (CallCode setup depth interpreterRun RequiredGas precompileRun caller a input gas value e).
Proof.
intros Hs Hg. unfold CallCode.
apply (hooked_post (fun e => let '(able, e) := CanTransfer e caller value in
  if negb able then refused gas ErrInsufficientBalance e
  else callWith interpreterRun RequiredGas precompileRun (fun c => mkContract caller caller (Some value) gas a c false)
         (Some value) caller a input gas false e)); [done|done|].
intros e1 Hs1. destruct (CanTransfer_spec e1 caller value) as [A E]. destruct (CanTransfer e1 caller value) as [able e2].
simpl in A, E. pose proof (acts_reachable c0 cfg _ _ Hs1 A) as Hs2.
apply (frame_post_from _ _ (evmDB e2)); [done|done|done|].
destruct able; simpl; [by apply callWith_post|by apply refused_post].
Qed.

Lemma DelegateCall_post caller a input gas e : reachable (evmDB e) → 0 <= gas →
  frame_post (evmDB (CallHook setup caller a e).2) (evmDB e) gas
    (DelegateCall setup depth interpreterRun RequiredGas precompileRun caller a input gas e).
Proof.
intros Hs Hg. unfold DelegateCall.
apply (hooked_post (fun e => callWith interpreterRun RequiredGas precompileRun
  (fun c => mkContract caller caller None gas a c true) None caller a input gas false e)); [done|done|].
intros e1 Hs1. by apply callWith_post.
Qed.

Lemma StaticCall_post caller a input gas e : reachable (evmDB e) → 0 <= gas →
  frame_post (evmDB (CallHook setup caller a e).2) (evmDB e) gas
    (StaticCall setup depth interpreterRun RequiredGas precompileRun caller a input gas e).
Proof.
intros Hs Hg. unfold StaticCall.
apply (hooked_post (fun e => let '(snapshot, s) := Snapshot (evmDB e) in
  let e := withDB (AddBalance a 0 s) e in
  finish snapshot
    (if bool_decide (a ∈ precompiles e) then runPrecompiledContract RequiredGas precompileRun a caller input gas (Some 0) true e
     else let '(c, e) := readCode a e in interpreterRun (mkContract caller a (Some 0) gas a c false) input true e)));
  [done|done|].
intros e1 Hs1. pose proof (finish_post (evmDB e1) gas) as HF. pose proof (reachable_snapshot _ Hs1) as Hs2.
assert (A0 : acts (Snapshot (evmDB e1)).2 (evmDB (withDB (AddBalance a 0 (Snapshot (evmDB e1)).2) e1)))
  by (by apply (acts_op (OpAddBalance a 0))).
destruct (Snapshot (evmDB e1)) as [snap s] eqn:Esn. cbn [fst snd] in *. apply HF; [done|].
case_bool_decide; [apply precompile_run; [done|by rewrite Esn|done]|].
pose proof (readCode_acts s a _ Hs2 A0) as AR. destruct (readCode a _) as [code e2]. simpl in AR.
apply body_run; [done|done|by rewrite Esn|simpl; lia].
Qed.

(** The same for the calls that run code in the caller's place or without writing. *)
Theorem failed_code_calls_restore caller a input gas value e r :
  reachable (evmDB e) → 0 <= gas →
  r ∈ [CallCode setup depth interpreterRun RequiredGas precompileRun caller a input gas value e;
       DelegateCall setup depth interpreterRun RequiredGas precompileRun caller a input gas e;
       StaticCall setup depth interpreterRun RequiredGas precompileRun caller a input gas e] →
  ∃ ret gas' err e', r = Ok (ret, gas', err, e') ∧ acts (evmDB e) (evmDB e') ∧ 0 <= gas' <= gas ∧
    (err ≠ None → evmDB e' ≡ evmDB (CallHook setup caller a e).2).
Proof.
intros Hs Hg Hr. rewrite !elem_of_cons, elem_of_nil in Hr. destruct Hr as [->|[->|[->|[]]]];
  [by apply CallCode_post|by apply DelegateCall_post|by apply StaticCall_post].
Qed.

(** *** Contract creation *)

(** The state a creation starts its snapshot from: the creator's nonce is used and the
    new address is in the access list. *)
Definition prepared caller a s : StateDB C :=
  let s := SetNonce caller (u64 ((GetNonce caller s).1 + 1)) s in
  if IsBerlin (rules setup) then AddAddressToAccessList a s else s.

Lemma GetNonce_same a s : (GetNonce a s).2 ≡ s.
Proof. unfold GetNonce. pose proof (getStateObject_same a s). by destruct (getStateObject a s). Qed.

Lemma GetCodeHash_same a s : (GetCodeHash a s).2 ≡ s.
Proof. unfold GetCodeHash. pose proof (getStateObject_same a s). by destruct (getStateObject a s). Qed.

Lemma storeCode_ok s a r gas : reachable s → body_ok s gas r → body_ok s gas (storeCode setup a r).
Proof.
destruct r as [[[ret g] [x|]] e]; intros Hs [Ha Hg]; simpl in *; [by split|].
repeat (case_match; [by split|]). boolP. split; [|simpl].
- simpl. apply (acts_then _ _ _ (OpSetCode a (Some ret)) (reachable_snapshot _ Hs) Ha); done.
- pose proof (u64_range (Z.of_nat (String.length ret) * CreateDataGas)) as [? ?]. lia.
Qed.

Lemma finishCreate_post s gas r : IsHomestead (rules setup) = true → reachable s → body_ok s gas r →
  frame_post s s gas (finishCreate setup (Snapshot s).1 r).
Proof.
intros Hh Hs Hb. pose proof (finish_post s gas r Hs Hb) as HF. unfold finishCreate. rewrite Hh.
destruct r as [[[ret g] [x|]] e]; exact HF.
Qed.

Lemma GetNonce_agree a s t : s ≡ t → (GetNonce a s).1 = (GetNonce a t).1.
Proof.
intros E. unfold GetNonce. rewrite !getter_value. apply lookupObj_getter; [|done].
by intros o o' (_ & -> & _).
Qed.

Lemma prepared_acts s caller a t n : reachable s → acts s t → n = (GetNonce caller t).1 →
  acts s (if IsBerlin (rules setup) then AddAddressToAccessList a (SetNonce caller (u64 (n + 1)) t)
          else SetNonce caller (u64 (n + 1)) t).
Proof.
intros Hs Ha ->. set (k := u64 ((GetNonce caller t).1 + 1)).
pose proof (acts_then s t _ (OpSetNonce caller k) Hs Ha eq_refl ltac:(done)) as A1. simpl in A1.
destruct (IsBerlin _); [|done]. by eapply (acts_then s _ _ (OpAddAddress a)).
Qed.

(** The part of [create] behind its checks. *)
Lemma create_body caller code gas value a e s : IsHomestead (rules setup) = true → reachable s → 0 <= gas →
  frame_post s s gas
    (let '(snapshot, s) := Snapshot s in
     let s := CreateAccount a s in
     let s := if IsEIP158 (rules setup) then SetNonce a 1 s else s in
     let e := Transfer (withDB s e) caller a value in
     finishCreate setup snapshot
       (storeCode setup a (interpreterRun (mkContract caller a (Some value) gas a (Some code) false) "" false e))).
Proof.
intros Hh Hs Hg. pose proof (reachable_snapshot s Hs) as Hs1.
pose proof (finishCreate_post s gas) as HF. pose proof (acts_op (OpCreateAccount a) (Snapshot s).2 _ eq_refl ltac:(done)) as A1.
pose proof (storeCode_ok s a) as HC. pose proof (body_run s interpreterRun) as HB.
destruct (Snapshot s) as [snap s1] eqn:Esn. cbn [fst snd] in *. cbv zeta. simpl in A1.
assert (A2 : acts s1 (if IsEIP158 (rules setup) then SetNonce a 1 (CreateAccount a s1) else CreateAccount a s1)).
{ destruct (IsEIP158 _); [|done]. by apply (acts_then s1 _ _ (OpSetNonce a 1) Hs1 A1). }
apply HF; [done|done|]. apply HC; [done|]. apply HB; [done|done| |simpl; lia].
by apply Transfer_acts.
Qed.

Lemma create_post caller code gas value a e : IsHomestead (rules setup) = true → reachable (evmDB e) → 0 <= gas →
  ∃ ret gas' err e', create setup depth interpreterRun caller code gas value a e = Ok (ret, gas', err, e') ∧
    acts (evmDB e) (evmDB e') ∧ 0 <= gas' <= gas ∧
    (err ≠ None → ∃ p, p ≡ evmDB e ∧ (evmDB e' ≡ p ∨ evmDB e' ≡ prepared caller a p)).
Proof.
intros Hh Hs Hg. unfold create.
destruct (_ <? depth); [do 4 eexists; split; [done|]; split_and!; [apply acts_refl|lia|lia|by eauto]|].
destruct (CanTransfer_spec e caller value) as [A1 E1]. destruct (CanTransfer e caller value) as [able e1]. simpl in A1, E1.
destruct able; simpl; [|do 4 eexists; split; [done|]; split_and!; [done|lia|lia|by eauto]].
pose proof (acts_reachable c0 cfg _ _ Hs A1) as Hs1.
pose proof (acts_then _ _ _ (OpGetNonce caller) Hs A1 eq_refl ltac:(done)) as A2.
pose proof (GetNonce_same caller (evmDB e1)) as E2. pose proof (GetNonce_agree caller _ _ E2) as EN.
destruct (GetNonce caller (evmDB e1)) as [n s2]. simpl in *.
assert (E2' : s2 ≡ evmDB e) by (by rewrite E2).
destruct (_ <? n); [do 4 eexists; split; [done|]; split_and!; [done|lia|lia|by eauto]|].
pose proof (prepared_acts (evmDB e) caller a s2 n Hs A2 (eq_sym EN)) as A3.
assert (EP : (if IsBerlin (rules setup) then AddAddressToAccessList a (SetNonce caller (u64 (n + 1)) s2)
  else SetNonce caller (u64 (n + 1)) s2) = prepared caller a s2) by (unfold prepared; by rewrite EN).
rewrite EP in *. pose proof (acts_then _ _ _ (OpGetCodeHash a) Hs A3 eq_refl ltac:(done)) as A4.
pose proof (GetCodeHash_same a (prepared caller a s2)) as E4.
destruct (GetCodeHash a (prepared caller a s2)) as [h s4]. simpl in A4, E4.
pose proof (acts_then _ _ _ (OpGetNonce a) Hs A4 eq_refl ltac:(done)) as A5. pose proof (GetNonce_same a s4) as E5.
destruct (GetNonce a s4) as [n' s5]. simpl in A5, E5. assert (E5' : s5 ≡ prepared caller a s2) by (by rewrite E5).
destruct (_ || _); [do 4 eexists; split; [done|]; split_and!; [done|lia|lia|by eauto]|].
destruct (create_body caller code gas value a (withDB s2 e1) s5 Hh (acts_reachable c0 cfg _ _ Hs A5) Hg)
  as (ret & g & err & e' & E & A & G & P).
exists ret, g, err, e'. split; [exact E|]. split; [by apply (acts_trans c0 cfg _ s5)|]. split; [done|].
intros Hn. exists s2. split; [done|]. right. by rewrite (P Hn).
Qed.

Lemma Create_post caller code gas value e :
  IsHomestead (rules setup) = true → reachable (evmDB e) → 0 <= gas →
  ∃ ret gas' err e', Create setup depth interpreterRun caller code gas value e = Ok (ret, gas', err, e') ∧
    acts (evmDB e) (evmDB e') ∧ 0 <= gas' <= gas ∧
    (err ≠ None → ∃ p a, p ≡ evmDB e ∧ (evmDB e' ≡ p ∨ evmDB e' ≡ prepared caller a p)).
Proof.
intros Hh Hs Hg. unfold Create.
destruct (CreateHook setup caller).
{ do 4 eexists. split; [done|]. split_and!; [apply acts_refl|lia|lia|]. intros _. by exists (evmDB e), caller; eauto. }
pose proof (acts_op (OpGetNonce caller) (evmDB e) _ eq_refl ltac:(done)) as A1.
pose proof (GetNonce_same caller (evmDB e)) as E1. destruct (GetNonce caller (evmDB e)) as [n s]. simpl in A1, E1.
destruct (create_post caller code gas value (CreateAddress setup caller n) (withDB s e) Hh) as (ret & g & err & e' & E & A & G & P);
  [by apply (acts_reachable c0 cfg (evmDB e))|done|].
exists ret, g, err, e'. split; [exact E|]. split; [by apply (acts_trans c0 cfg _ s)|]. split; [done|].
intros Hn. destruct (P Hn) as (p & Hp & Hor). exists p, (CreateAddress setup caller n). split; [|done]. by rewrite Hp.
Qed.

(** Creation is atomic too: it ends, returns no more gas than it was given, and when it
    fails the only trace left is the creator's nonce and the access list entry, and not
    even those if it failed before using the nonce.  (From Homestead on.) *)
Theorem failed_create_restores caller code gas value e :
  IsHomestead (rules setup) = true → reachable (evmDB e) → 0 <= gas →
  ∃ ret gas' err e', Create setup depth interpreterRun caller code gas value e = Ok (ret, gas', err, e') ∧
    acts (evmDB e) (evmDB e') ∧ 0 <= gas' <= gas ∧
    (err ≠ None → ∃ p a, p ≡ evmDB e ∧ (evmDB e' ≡ p ∨ evmDB e' ≡ prepared caller a p)).
Proof. apply Create_post. Qed.
End frames.
