(* ===== verification/EvmFramesExample.v ===== *)
(** * Frames on a concrete machine

    The store of [EvmExample] with an interpreter whose code writes a slot of the
    contract it runs for, emits a log and, when told so by its input (by the code itself
    when there is no input), reverts, runs out of gas or returns code that may not be
    deployed, and one precompile that charges gas and does nothing else. *)

From stdpp Require Import gmap strings pretty list sorting.
From Stdlib Require Import ZArith Lia.
From S2P Require Import Prelude EvmStateDB EvmJournal EvmRevert EvmSnapshot EvmCommit EvmKeeper EvmExample EvmVM EvmFrames.

Open Scope Z_scope.

Module FramesExample.
Import EvmExample.

Definition open : AccessControlType := mkAccessControlType AccessTypePermissionless [].
Definition setup : EVMSetup :=
  mkEVMSetup (mkRules true true true true) "alice" (mkAccessControl open open)
    (fun a => Ok (bool_decide (a = "precompile"))) (fun a n => a +:+ pretty n)%string (fun a salt h => a +:+ salt)%string.

Definition code (ct : Contract) (input : string) (ro : bool) (e : EVM store) : outcome * EVM store :=
  let s := AddLog log (SetState (ctAddress ct) slot v2 (evmDB e)) in
  let gas := ctGas ct / 2 in
  let input := if bool_decide (input = ""%string) then default ""%string (ctCode ct) else input in
  if bool_decide (input = "revert") then (("no", gas, Some ErrExecutionReverted), withDB s e)
  else if bool_decide (input = "burn") then (("", 0, Some ErrOutOfGas), withDB s e)
  else if bool_decide (input = "bad") then ((String (Ascii.ascii_of_nat 239) "", gas, None), withDB s e)
  else (("code", gas, None), withDB s e).

Definition idle (a : Address) (ct : Contract) (input : string) (ro : bool) (e : EVM store) : outcome * EVM store :=
  (("", ctGas ct, None), e).
Definition price (a : Address) (input : string) : Z := 100.

#[export] Instance code_executes c cfg : Executes c cfg code.
Proof.
intros ct input ro e Hs Hg.
assert (A : acts (evmDB e) (AddLog log (SetState (ctAddress ct) slot v2 (evmDB e)))).
{ exists [OpSetState (ctAddress ct) slot v2; OpAddLog log]. split; [done|].
  intros r Hr. rewrite !elem_of_cons, elem_of_nil in Hr. destruct Hr as [Hr|[Hr|[]]]; discriminate Hr. }
assert (0 <= ctGas ct / 2 <= ctGas ct) by (split; [apply Z.div_pos; lia|apply Z.div_le_upper_bound; lia]).
unfold code. cbv zeta. set (input' := if bool_decide (input = _) then _ else _).
repeat (destruct (bool_decide (input' = _)); [split; [exact A|simpl; lia]|]). split; [exact A|simpl; lia].
Qed.

#[export] Instance idle_executes c cfg a : Executes c cfg (idle a).
Proof. intros ct input ro e Hs Hg. split; [apply acts_refl|simpl; lia]. Qed.

Lemma price_nonneg a input : 0 <= price a input.
Proof. unfold price. lia. Qed.

Definition e1 : EVM store := mkEVM s1 ∅.
Lemma e1_reachable : reachable store0 cfg (evmDB e1).
Proof. exact s1_reachable. Qed.

(** What [alice]'s view of a result is: her error, her balance, the vault's. *)
Definition seen (r : result (outcome * EVM store)) : option (option VMError * Z * Z * Z) :=
  match r with
  | Ok (_, gas, err, e) => Some (err, gas, (GetBalance "alice" (evmDB e)).1, (GetBalance "vault" (evmDB e)).1)
  | Err _ => None
  end.

Definition ok_opt {A : Type} (r : result A) : option A := match r with Ok x => Some x | Err _ => None end.

Abbreviation call := (Call setup 0 code price idle "alice" "vault") (only parsing).


Lemma failed_code_calls_restore_witness :
  seen (DelegateCall setup 0 code price idle "alice" "vault" "revert" 1000 e1) =
    Some (Some ErrExecutionReverted, 500, 1000, 50) ∧
  ∃ ret gas' err e', DelegateCall setup 0 code price idle "alice" "vault" "revert" 1000 e1 = Ok (ret, gas', err, e') ∧
    acts (evmDB e1) (evmDB e') ∧ 0 <= gas' <= 1000 ∧
    (err ≠ None → evmDB e' ≡ evmDB (CallHook setup "alice" "vault" e1).2).
Proof.
split; [vm_compute; reflexivity|].
apply (failed_code_calls_restore store0 cfg setup 0 code price idle price_nonneg
  "alice" "vault" "revert" 1000 0 e1 _ e1_reachable ltac:(lia)).
apply list_elem_of_further, list_elem_of_here.
Defined.

Abbreviation deploy := (Create setup 0 code "alice") (only parsing).

(** A creation that succeeds, and one whose code starts with the reserved byte: there
    the transfer and the write are undone and only the nonce is used. *)
Lemma failed_create_restores_witness :
  (seen (deploy "good" 10000 5 e1) = Some (None, 4200, 995, 50) ∧
   seen (deploy "bad" 10000 5 e1) = Some (Some ErrInvalidCode, 0, 1000, 50) ∧
   (λ r : outcome * EVM store, (GetNonce "alice" (evmDB r.2)).1) <$> ok_opt (deploy "bad" 10000 5 e1) = Some 7) ∧
  ∃ ret gas' err e', deploy "bad" 10000 5 e1 = Ok (ret, gas', err, e') ∧
    acts (evmDB e1) (evmDB e') ∧ 0 <= gas' <= 10000 ∧
    (err ≠ None → ∃ p a, p ≡ evmDB e1 ∧ (evmDB e' ≡ p ∨ evmDB e' ≡ prepared setup "alice" a p)).
Proof.
split; [split_and!; vm_compute; reflexivity|].
exact (failed_create_restores store0 cfg setup 0 code "alice" "bad" 10000 5 e1 eq_refl e1_reachable ltac:(lia)).
Defined.
End FramesExample.
