(* ===== verification/VestingSchedule.v ===== *)
(** * x/vesting: coins and schedules (types/schedule.go, types/utils.go)

    A schedule is a start time and a list of relative periods, each with the coins
    it releases at its end.  The reference meaning of a schedule is [releasedBy]:
    the sum of the amounts of all periods that end at or before a time.  The
    functions of the package are shown to compute with this meaning: reading,
    counting, the union and the minimum of two schedules. *)

From stdpp Require Import gmap strings list.
From Stdlib Require Import ZArith Lia.
From S2P Require Import Prelude.

Open Scope Z_scope.

(** ** Coins

    [sdk.Coins] holds each denom at most once, in order: a finite map.  A valid
    value has positive amounts. *)
Abbreviation Coins := (gmap string Z) (only parsing).

Definition amt (c : Coins) (d : denom) : Z := default 0 (c !! d).
Definition IsValid (c : Coins) : bool := bool_decide (map_Forall (fun _ x => 0 < x) c).
Definition coins_ok (c : Coins) : Prop := map_Forall (fun _ x => 0 < x) c.
Definition IsZero (c : Coins) : bool := bool_decide (map_Forall (fun _ x => x = 0) c).

(** [Coins.Add]; a sum of zero is dropped. *)
Definition coinsAdd (a b : Coins) : Coins :=
  union_with (fun x y => if x + y =? 0 then None else Some (x + y)) a b.
(** [Coins.SafeSub] *)
Definition SafeSub (a b : Coins) : Coins * bool :=
  let diff := coinsAdd a (Z.opp <$> b) in
  (diff, bool_decide (¬ map_Forall (fun _ x => 0 <= x) diff)).
(** [Coins.Sub] panics on a negative result. *)
Definition coinsSub (a b : Coins) : result Coins :=
  let '(diff, hasNeg) := SafeSub a b in
  if hasNeg then Err (Plain "negative coin amount") else Ok diff.
(** [Coins.Min]; a minimum of zero is dropped. *)
Definition coinsMin (a b : Coins) : Coins :=
  intersection_with (fun x y => if Z.min x y =? 0 then None else Some (Z.min x y)) a b.
(** [Coins.IsAllLTE] *)
Definition IsAllLTE (a b : Coins) : bool :=
  if decide (a = ∅) then true
  else if decide (b = ∅) then false
  else bool_decide (map_Forall (fun d x => x <= amt b d) a).

Definition CoinEq (a b : Coins) : bool := IsAllLTE a b && IsAllLTE b a.
Definition Max64 (i j : Z) : Z := if j <? i then i else j.
Definition Min64 (i j : Z) : Z := if i <? j then i else j.

Lemma union_with_Some (f : Z → Z → option Z) x y : union_with f (Some x) (Some y) = f x y.
Proof. done. Qed.
Lemma intersection_with_Some (f : Z → Z → option Z) x y : intersection_with f (Some x) (Some y) = f x y.
Proof. done. Qed.

Lemma amt_empty d : amt ∅ d = 0.
Proof. unfold amt. by rewrite lookup_empty. Qed.

Lemma amt_add a b d : amt (coinsAdd a b) d = amt a d + amt b d.
Proof.
unfold amt, coinsAdd. rewrite lookup_union_with.
destruct (a !! d) as [x|], (b !! d) as [y|]; cbn; try lia.
rewrite union_with_Some. destruct (x + y =? 0) eqn:E; boolP; simpl; lia.
Qed.

Lemma amt_opp b d : amt (Z.opp <$> b) d = - amt b d.
Proof. unfold amt. rewrite lookup_fmap. by destruct (b !! d). Qed.

Lemma amt_nonneg c d : coins_ok c → 0 <= amt c d.
Proof. intros Hc. unfold amt. destruct (c !! d) as [x|] eqn:E; simpl; [|lia]. apply Hc in E. lia. Qed.

Lemma coins_ok_empty : coins_ok ∅.
Proof. apply map_Forall_empty. Qed.

Lemma coins_ok_add a b : coins_ok a → coins_ok b → coins_ok (coinsAdd a b).
Proof.
intros Ha Hb d x. unfold coinsAdd. rewrite lookup_union_with.
destruct (a !! d) as [y|] eqn:Ea, (b !! d) as [z|] eqn:Eb; cbn; try done.
- rewrite union_with_Some. apply Ha in Ea. apply Hb in Eb. destruct (_ =? 0); [done|]. intros [= <-]. lia.
- intros [= <-]. by apply Ha in Ea.
- intros [= <-]. by apply Hb in Eb.
Qed.

Lemma amt_min a b d : coins_ok a → coins_ok b → amt (coinsMin a b) d = Z.min (amt a d) (amt b d).
Proof.
intros Ha Hb. pose proof (amt_nonneg a d Ha). pose proof (amt_nonneg b d Hb).
unfold amt, coinsMin in *. rewrite lookup_intersection_with.
destruct (a !! d) as [x|], (b !! d) as [y|]; cbn in *; try lia.
rewrite intersection_with_Some. destruct (Z.min x y =? 0) eqn:E; boolP; simpl; lia.
Qed.

Lemma coins_ok_min a b : coins_ok a → coins_ok b → coins_ok (coinsMin a b).
Proof.
intros Ha Hb d x. unfold coinsMin. rewrite lookup_intersection_with.
destruct (a !! d) as [y|] eqn:Ea, (b !! d) as [z|] eqn:Eb; cbn; try done.
rewrite intersection_with_Some. apply Ha in Ea. apply Hb in Eb. destruct (_ =? 0); [done|]. intros [= <-]. lia.
Qed.

(** Valid coins are determined by their amounts. *)
Lemma coins_ext a b : coins_ok a → coins_ok b → (∀ d, amt a d = amt b d) → a = b.
Proof.
intros Ha Hb E. apply map_eq. intros d. specialize (E d). unfold amt in E.
destruct (a !! d) as [x|] eqn:Ea, (b !! d) as [y|] eqn:Eb; simpl in E; try congruence.
- apply Ha in Ea. lia.
- apply Hb in Eb. lia.
Qed.

Lemma all_nonneg_amt c : map_Forall (fun _ x => 0 <= x) c ↔ ∀ d, 0 <= amt c d.
Proof.
split.
- intros Hc d. unfold amt. destruct (c !! d) as [x|] eqn:E; simpl; [by apply Hc in E|lia].
- intros Hc d x E. specialize (Hc d). unfold amt in Hc. by rewrite E in Hc.
Qed.

Lemma SafeSub_spec a b :
  (∀ d, amt (SafeSub a b).1 d = amt a d - amt b d) ∧
  ((SafeSub a b).2 = false ↔ ∀ d, amt b d <= amt a d).
Proof.
assert (E : ∀ d, amt (SafeSub a b).1 d = amt a d - amt b d).
{ intros d. simpl. rewrite amt_add, amt_opp. lia. }
split; [done|]. simpl in *. rewrite bool_decide_eq_false. split.
- intros Hn d. apply dec_stable in Hn. pose proof (proj1 (all_nonneg_amt _) Hn d) as Hd. rewrite E in Hd. lia.
- intros Hd Hn. apply Hn, (proj2 (all_nonneg_amt _)). intros d. rewrite E. specialize (Hd d). lia.
Qed.

Lemma coinsSub_Ok a b :
  (∀ d, amt b d <= amt a d) → ∃ c, coinsSub a b = Ok c ∧ ∀ d, amt c d = amt a d - amt b d.
Proof.
intros Hd. unfold coinsSub. destruct (SafeSub_spec a b) as [E1 E2].
destruct (SafeSub a b) as [c neg]; simpl in *. apply E2 in Hd as ->. eauto.
Qed.

Lemma coinsSub_inv a b c : coinsSub a b = Ok c →
  (∀ d, amt b d <= amt a d) ∧ ∀ d, amt c d = amt a d - amt b d.
Proof.
unfold coinsSub. destruct (SafeSub_spec a b) as [E1 E2].
destruct (SafeSub a b) as [c' neg]; simpl in *. destruct neg; [done|]. intros [= <-]. split; [by apply E2|done].
Qed.

(** Differences of valid coins drop their zeros only where both had the denom. *)
Lemma coins_ok_sub a b c : coins_ok a → coins_ok b → coinsSub a b = Ok c → coins_ok c.
Proof.
intros Ha Hb Hs. pose proof (coinsSub_inv a b c Hs) as [Hle Hamt]. revert Hs. unfold coinsSub, SafeSub.
case_bool_decide as Hn; [done|]. intros [= <-] d x. unfold coinsAdd. rewrite lookup_union_with, lookup_fmap.
specialize (Hle d). unfold amt in Hle.
destruct (a !! d) as [y|] eqn:Ea, (b !! d) as [z|] eqn:Eb; cbn in *; try done.
- rewrite union_with_Some. destruct (y + - z =? 0) eqn:E; boolP; [done|]. intros [= <-]. lia.
- intros [= <-]. by apply Ha in Ea.
- apply Hb in Eb. lia.
Qed.

Lemma IsZero_spec c : IsZero c = true ↔ ∀ d, amt c d = 0.
Proof.
unfold IsZero. rewrite bool_decide_eq_true. split.
- intros Hc d. unfold amt. destruct (c !! d) as [x|] eqn:E; simpl; [by apply Hc in E|done].
- intros Hc d x E. specialize (Hc d). unfold amt in Hc. by rewrite E in Hc.
Qed.

Lemma IsAllLTE_spec a b : coins_ok a → coins_ok b → IsAllLTE a b = true ↔ ∀ d, amt a d <= amt b d.
Proof.
intros Ha Hb. unfold IsAllLTE. case_decide as Ea.
{ subst a. split; [|done]. intros _ d. rewrite amt_empty. by apply amt_nonneg. }
case_decide as Eb.
- subst b. split; [done|]. intros Hd. destruct (map_choose a Ea) as (d & x & Hx).
  specialize (Hd d). rewrite amt_empty in Hd. unfold amt in Hd. rewrite Hx in Hd. simpl in Hd.
  apply Ha in Hx. lia.
- rewrite bool_decide_eq_true. split.
  + intros Hm d. unfold amt at 1. destruct (a !! d) as [x|] eqn:E; simpl; [by apply Hm in E|by apply amt_nonneg].
  + intros Hd d x E. specialize (Hd d). unfold amt at 1 in Hd. by rewrite E in Hd.
Qed.

Lemma CoinEq_spec a b : coins_ok a → coins_ok b → CoinEq a b = true ↔ a = b.
Proof.
intros Ha Hb. unfold CoinEq. rewrite andb_true_iff, !IsAllLTE_spec by done. split.
- intros [H1 H2]. apply coins_ext; try done. intros d. specialize (H1 d). specialize (H2 d). lia.
- intros ->. split; intros; lia.
Qed.

(** ** Periods *)
Record Period := mkPeriod { Length : Z; Amount : Coins }.
Abbreviation Periods := (list Period) (only parsing).

(** [Periods.TotalLength] and [Periods.TotalAmount] of the SDK. *)
Definition TotalLength (ps : Periods) : Z := foldl (fun n p => i64 (n + Length p)) 0 ps.
Definition TotalAmount (ps : Periods) : Coins := foldl (fun c p => coinsAdd c (Amount p)) ∅ ps.

(** *** Reading *)
Fixpoint readLoop (readTime elapsed : Z) (coins : Coins) (ps : Periods) : Coins :=
  match ps with
  | [] => coins
  | p :: ps =>
      if readTime <? i64 (elapsed + Length p) then coins
      else readLoop readTime (i64 (elapsed + Length p)) (coinsAdd coins (Amount p)) ps
  end.

Definition ReadSchedule (startTime endTime : Z) (ps : Periods) (totalCoins : Coins) (readTime : Z) : Coins :=
  if readTime <=? startTime then ∅
  else if endTime <=? readTime then totalCoins
  else readLoop readTime startTime ∅ ps.

Fixpoint countLoop (readTime elapsed : Z) (passed : nat) (ps : Periods) : nat :=
  match ps with
  | [] => passed
  | p :: ps =>
      if readTime <? i64 (elapsed + Length p) then passed
      else countLoop readTime (i64 (elapsed + Length p)) (S passed) ps
  end.

Definition ReadPastPeriodCount (startTime endTime : Z) (ps : Periods) (readTime : Z) : nat :=
  if readTime <=? startTime then O
  else if endTime <=? readTime then length ps
  else countLoop readTime startTime O ps.

(** *** Union *)
Definition emitted (endTime next : Z) (amount : Coins) (r : Z * Periods) : Z * Periods :=
  (r.1, mkPeriod (i64 (next - endTime)) amount :: r.2).

(** The three loops: while both schedules have events, then the rest of one.
    Returns the last end time and the periods emitted. *)
Fixpoint disjunctLoop (timeA : Z) (pA : Periods) {struct pA} : Z → Periods → Z → Z * Periods :=
  fix loopB (timeB : Z) (pB : Periods) (endTime : Z) {struct pB} : Z * Periods :=
    match pA, pB with
    | [], [] => (endTime, [])
    | a :: pA', [] =>
        let nextA := i64 (timeA + Length a) in
        emitted endTime nextA (Amount a) (disjunctLoop nextA pA' timeB [] nextA)
    | [], b :: pB' =>
        let nextB := i64 (timeB + Length b) in
        emitted endTime nextB (Amount b) (loopB nextB pB' nextB)
    | a :: pA', b :: pB' =>
        let nextA := i64 (timeA + Length a) in
        let nextB := i64 (timeB + Length b) in
        if nextA <? nextB then
          emitted endTime nextA (Amount a) (disjunctLoop nextA pA' timeB pB nextA)
        else if nextB <? nextA then
          emitted endTime nextB (Amount b) (loopB nextB pB' nextB)
        else
          emitted endTime nextA (coinsAdd (Amount a) (Amount b)) (disjunctLoop nextA pA' nextA pB' nextA)
    end.

Definition DisjunctPeriods (startA startB : Z) (pA pB : Periods) : Z * Z * Periods :=
  let startTime := Min64 startA startB in
  let '(endTime, ps) := disjunctLoop startA pA startB pB startTime in
  (startTime, endTime, ps).

(** *** Minimum

    The amounts read so far: of the result, of [A] and of [B].  An event emits the
    growth of the minimum, unless it is zero or the minimum went down. *)
Record Tally := mkTally { tResult : Coins; tA : Coins; tB : Coins; tEnd : Z; tOut : Periods }.

Definition conjunctEvent (next : Z) (t : Tally) : result Tally :=
  let minAmount := coinsMin (tA t) (tB t) in
  if IsAllLTE (tResult t) minAmount then
    diff ← coinsSub minAmount (tResult t);
    if IsZero diff then Ok t
    else Ok (mkTally (coinsAdd (tResult t) diff) (tA t) (tB t) next
               (tOut t ++ [mkPeriod (i64 (next - tEnd t)) diff]))
  else Ok t.

Definition addA (x : Coins) (t : Tally) : Tally :=
  mkTally (tResult t) (coinsAdd (tA t) x) (tB t) (tEnd t) (tOut t).
Definition addB (x : Coins) (t : Tally) : Tally :=
  mkTally (tResult t) (tA t) (coinsAdd (tB t) x) (tEnd t) (tOut t).

Fixpoint conjunctLoop (timeA : Z) (pA : Periods) {struct pA} : Z → Periods → Tally → result Tally :=
  fix loopB (timeB : Z) (pB : Periods) (t : Tally) {struct pB} : result Tally :=
    match pA, pB with
    | [], [] => Ok t
    | a :: pA', [] =>
        let nextA := i64 (timeA + Length a) in
        t ← conjunctEvent nextA (addA (Amount a) t); conjunctLoop nextA pA' timeB [] t
    | [], b :: pB' =>
        let nextB := i64 (timeB + Length b) in
        t ← conjunctEvent nextB (addB (Amount b) t); loopB nextB pB' t
    | a :: pA', b :: pB' =>
        let nextA := i64 (timeA + Length a) in
        let nextB := i64 (timeB + Length b) in
        if nextA <? nextB then
          t ← conjunctEvent nextA (addA (Amount a) t); conjunctLoop nextA pA' timeB pB t
        else if nextB <? nextA then
          t ← conjunctEvent nextB (addB (Amount b) t); loopB nextB pB' t
        else
          t ← conjunctEvent nextA (addB (Amount b) (addA (Amount a) t)); conjunctLoop nextA pA' nextA pB' t
    end.

Definition ConjunctPeriods (startA startB : Z) (pA pB : Periods) : result (Z * Z * Periods) :=
  let startTime := Min64 startA startB in
  t ← conjunctLoop startA pA startB pB (mkTally ∅ ∅ ∅ startTime []);
  Ok (startTime, tEnd t, tOut t).

(** [AlignSchedules] writes into the slices it is given; the new schedules are
    returned too. *)
Definition shiftFirst (delta : Z) (ps : Periods) : Periods :=
  match ps with
  | [] => []
  | p :: ps => mkPeriod (i64 (Length p + delta)) (Amount p) :: ps
  end.

Definition AlignSchedules (startA startB : Z) (pA pB : Periods) : Z * Z * Periods * Periods :=
  let startTime := Min64 startA startB in
  let pA := shiftFirst (i64 (startA - startTime)) pA in
  let pB := shiftFirst (i64 (startB - startTime)) pB in
  (startTime, Max64 (i64 (startTime + TotalLength pA)) (i64 (startTime + TotalLength pB)), pA, pB).

(** ** The meaning of a schedule *)
Fixpoint releasedBy (start : Z) (ps : Periods) (t : Z) (d : denom) : Z :=
  match ps with
  | [] => 0
  | p :: ps => (if start + Length p <=? t then amt (Amount p) d else 0)
               + releasedBy (start + Length p) ps t d
  end.

Definition sumLen (ps : Periods) : Z := sumZ (map Length ps).
Definition sumAmt (ps : Periods) (d : denom) : Z := sumZ (map (fun p => amt (Amount p) d) ps).

(** Times far enough from the ends of [int64] that sums and differences fit. *)
Definition time_ok (x : Z) : Prop := - 2 ^ 62 <= x < 2 ^ 62.
Definition period_ok (p : Period) : Prop := 0 <= Length p ∧ coins_ok (Amount p).

Record sched_ok (start : Z) (ps : Periods) : Prop := {
  so_periods : Forall period_ok ps;
  so_start : time_ok start;
  so_end : time_ok (start + sumLen ps);
}.

Lemma i64_time x : time_ok x → i64 x = x.
Proof. unfold time_ok. intros. apply i64_small. unfold is_i64. lia. Qed.

Lemma i64_diff x y : time_ok x → time_ok y → i64 (x - y) = x - y.
Proof. unfold time_ok. intros. apply i64_small. unfold is_i64. lia. Qed.

Lemma sumLen_nonneg ps : Forall period_ok ps → 0 <= sumLen ps.
Proof. induction 1 as [|p ps [Hp _] _ IH]; unfold sumLen in *; simpl; lia. Qed.

Lemma sched_ok_cons s p ps :
  sched_ok s (p :: ps) →
  0 <= Length p ∧ coins_ok (Amount p) ∧ time_ok (s + Length p) ∧ sched_ok (s + Length p) ps ∧
  i64 (s + Length p) = s + Length p.
Proof.
intros [Hf Hs He]. apply Forall_cons in Hf as [[Hp Hc] Hf]. pose proof (sumLen_nonneg ps Hf) as Hn.
unfold sumLen in *. simpl in He. unfold time_ok in *.
assert (Ht : time_ok (s + Length p)) by (unfold time_ok; lia).
split; [done|]. split; [done|]. split; [done|]. split; [|by apply i64_time].
split; [done|done|]. unfold time_ok, sumLen. lia.
Qed.

Lemma sched_ok_nil s : time_ok s → sched_ok s [].
Proof. intros. split; [done|done|]. unfold sumLen. simpl. by rewrite Z.add_0_r. Qed.

Lemma sched_ok_head s p ps :
  0 <= Length p → coins_ok (Amount p) → time_ok s → sched_ok (s + Length p) ps → sched_ok s (p :: ps).
Proof.
intros Hl Hc Hs [Hf _ He]. split; [by constructor|done|]. unfold sumLen in *; simpl.
by rewrite Z.add_assoc.
Qed.

(** No event of the schedule before [e]. *)
Definition from (s : Z) (ps : Periods) (e : Z) : Prop :=
  match ps with [] => True | p :: _ => e <= s + Length p end.

Lemma from_start s ps : sched_ok s ps → from s ps s.
Proof. destruct ps as [|p ps]; [done|]. intros Hs. apply sched_ok_cons in Hs as (? & _). simpl. lia. Qed.

Lemma releasedBy_before s ps e t d : Forall period_ok ps → from s ps e → t < e → releasedBy s ps t d = 0.
Proof.
revert s e. induction ps as [|p ps IH]; intros s e Hf Hfr Ht; [done|]. simpl in *.
apply Forall_cons in Hf as [Hp Hf]. rewrite (proj2 (Z.leb_gt _ _)) by lia.
rewrite (IH (s + Length p) (s + Length p)); [done|done| |lia].
destruct ps as [|q ps]; [done|]. apply Forall_cons in Hf as [[Hq _] _]. simpl. lia.
Qed.

Lemma releasedBy_after s ps t d :
  Forall period_ok ps → s + sumLen ps <= t → releasedBy s ps t d = sumAmt ps d.
Proof.
revert s. induction ps as [|p ps IH]; intros s Hf Ht; [done|]. unfold sumLen, sumAmt in *. simpl in *.
apply Forall_cons in Hf as [[Hp _] Hf]. pose proof (sumLen_nonneg ps Hf) as Hn. unfold sumLen in Hn.
rewrite (proj2 (Z.leb_le _ _)) by lia. rewrite IH; [done|done|lia].
Qed.

Lemma releasedBy_bounds s ps t d : Forall period_ok ps → 0 <= releasedBy s ps t d <= sumAmt ps d.
Proof.
revert s. induction ps as [|p ps IH]; intros s Hf; unfold sumAmt in *; simpl; [lia|].
apply Forall_cons in Hf as [[_ Hc] Hf]. specialize (IH (s + Length p) Hf).
pose proof (amt_nonneg (Amount p) d Hc). destruct (_ <=? _); lia.
Qed.

(** Schedules only ever release more. *)
Lemma releasedBy_mono s ps t t' d :
  Forall period_ok ps → t <= t' → releasedBy s ps t d <= releasedBy s ps t' d.
Proof.
intros Hf Ht. revert s. induction Hf as [|p ps [_ Hc] Hf IH]; intros s; simpl; [lia|].
specialize (IH (s + Length p)). pose proof (amt_nonneg (Amount p) d Hc).
destruct (s + Length p <=? t) eqn:E1, (s + Length p <=? t') eqn:E2; boolP; lia.
Qed.

(** ** Reading *)
Lemma readLoop_spec t d ps : ∀ e c,
  sched_ok e ps → amt (readLoop t e c ps) d = amt c d + releasedBy e ps t d.
Proof.
induction ps as [|p ps IH]; intros e c Hs; simpl; [lia|].
apply sched_ok_cons in Hs as (Hl & Hc & Ht & Hs & ->). destruct (t <? e + Length p) eqn:E; boolP.
- rewrite (proj2 (Z.leb_gt _ _)) by lia.
  rewrite (releasedBy_before _ _ (e + Length p)); [lia|apply Hs|by apply from_start|done].
- rewrite IH, amt_add by done. rewrite (proj2 (Z.leb_le _ _)) by lia. lia.
Qed.

Lemma readLoop_ok t ps : ∀ e c, Forall period_ok ps → coins_ok c → coins_ok (readLoop t e c ps).
Proof.
induction ps as [|p ps IH]; intros e c Hf Hc; simpl; [done|].
apply Forall_cons in Hf as [[_ Hp] Hf]. destruct (_ <? _); [done|]. apply IH; [done|by apply coins_ok_add].
Qed.

(** [ReadSchedule] reads the schedule: nothing at the start, afterwards exactly
    what has been released by the time, whatever end time at or after the last
    event and total it is given. *)
Lemma ReadSchedule_spec start fin ps total t d :
  sched_ok start ps → start + sumLen ps <= fin → (∀ d, amt total d = sumAmt ps d) →
  amt (ReadSchedule start fin ps total t) d = if t <=? start then 0 else releasedBy start ps t d.
Proof.
intros Hs He Ht. unfold ReadSchedule. destruct (t <=? start) eqn:E1; [apply amt_empty|].
destruct (fin <=? t) eqn:E2; boolP.
- rewrite Ht, releasedBy_after; [done|apply Hs|lia].
- rewrite readLoop_spec, amt_empty by done. done.
Qed.

Lemma ReadSchedule_ok start fin ps total t :
  Forall period_ok ps → coins_ok total → coins_ok (ReadSchedule start fin ps total t).
Proof.
intros Hf Ht. unfold ReadSchedule. destruct (_ <=? _); [apply coins_ok_empty|].
destruct (_ <=? _); [done|]. apply readLoop_ok; [done|apply coins_ok_empty].
Qed.

(** The passed periods are those that have released their coins. *)
Lemma countLoop_spec t ps : ∀ e n,
  sched_ok e ps → ∃ k, countLoop t e n ps = (n + k)%nat ∧ (k <= length ps)%nat ∧
    (∀ d, releasedBy e ps t d = sumAmt (take k ps) d) ∧ e + sumLen (take k ps) <= Z.max e t.
Proof.
induction ps as [|p ps IH]; intros e n Hs; simpl.
{ exists O. unfold sumLen. simpl. split_and!; [lia|lia|done|lia]. }
apply sched_ok_cons in Hs as (Hl & Hc & Ht & Hs & ->). destruct (t <? e + Length p) eqn:E; boolP.
- exists O. split_and!; [lia|lia| |unfold sumLen; simpl; lia]. intros d.
  rewrite (proj2 (Z.leb_gt _ _)) by lia.
  rewrite (releasedBy_before _ _ (e + Length p)); [done|apply Hs|by apply from_start|done].
- destruct (IH (e + Length p) (S n) Hs) as (k & -> & Hk & Hr & Hb). exists (S k).
  split_and!; [lia|simpl; lia| |].
  + intros d. rewrite Hr, (proj2 (Z.leb_le _ _)) by lia. done.
  + unfold sumLen in *. simpl. lia.
Qed.

Lemma ReadPastPeriodCount_spec start fin ps t :
  sched_ok start ps → start + sumLen ps <= fin → start < t →
  let k := ReadPastPeriodCount start fin ps t in
  (k <= length ps)%nat ∧ (∀ d, releasedBy start ps t d = sumAmt (take k ps) d) ∧
  start + sumLen (take k ps) <= t.
Proof.
intros Hs He Ht. unfold ReadPastPeriodCount. rewrite (proj2 (Z.leb_gt _ _)) by lia.
destruct (fin <=? t) eqn:E; boolP; simpl.
- rewrite take_ge by lia. split_and!; [lia| |lia]. intros d. apply releasedBy_after; [apply Hs|lia].
- destruct (countLoop_spec t ps start O Hs) as (k & -> & Hk & Hr & Hb). simpl. split_and!; [done|done|lia].
Qed.

(** ** Union *)

(** What the loops promise when [e] is the end of the last emitted period. *)
Definition merged (e : Z) (f : Z → denom → Z) (hi : Z) (r : Z * Periods) : Prop :=
  sched_ok e r.2 ∧ r.1 = e + sumLen r.2 ∧ r.1 <= hi ∧ ∀ t d, releasedBy e r.2 t d = f t d.

Lemma merged_emit e next c f g hi r :
  time_ok e → time_ok next → e <= next → coins_ok c → merged next g hi r →
  (∀ t d, f t d = (if next <=? t then amt c d else 0) + g t d) →
  merged e f hi (emitted e next c r).
Proof.
intros He Hn Hle Hc (Hs & Hr & Hhi & Hrel) Hf. unfold emitted, merged. simpl. rewrite i64_diff by done.
assert (Hnext : e + (next - e) = next) by lia. split_and!.
- apply sched_ok_head; simpl; try done; [lia|]. by rewrite Hnext.
- unfold sumLen in *. simpl. lia.
- done.
- intros t d. by rewrite Hnext, Hrel, Hf.
Qed.

Lemma merged_weaken e f hi hi' r : merged e f hi r → hi <= hi' → merged e f hi' r.
Proof. intros (? & ? & ? & ?) ?. split_and!; try done. lia. Qed.

Lemma disjunctLoop_restB pB : ∀ timeA timeB e,
  sched_ok timeB pB → time_ok e → from timeB pB e →
  merged e (fun t d => releasedBy timeB pB t d) (Z.max e (timeB + sumLen pB))
    (disjunctLoop timeA [] timeB pB e).
Proof.
induction pB as [|b pB IH]; intros timeA timeB e HB He FB.
- simpl. split; [by apply sched_ok_nil|]. unfold sumLen; simpl. split_and!; [lia|lia|done].
- apply sched_ok_cons in HB as (Hl & Hc & Ht & Hs & Hi). simpl in FB.
  pose proof (sumLen_nonneg pB (so_periods _ _ Hs)).
  cbn [disjunctLoop]. rewrite Hi. eapply merged_emit; [done..| |done].
  eapply merged_weaken; [apply (IH timeA (timeB + Length b) (timeB + Length b)); try done; by apply from_start|].
  unfold sumLen in *. simpl. lia.
Qed.

Lemma disjunctLoop_restA pA : ∀ timeA timeB e,
  sched_ok timeA pA → time_ok e → from timeA pA e →
  merged e (fun t d => releasedBy timeA pA t d) (Z.max e (timeA + sumLen pA))
    (disjunctLoop timeA pA timeB [] e).
Proof.
induction pA as [|a pA IH]; intros timeA timeB e HA He FA.
- simpl. split; [by apply sched_ok_nil|]. unfold sumLen; simpl. split_and!; [lia|lia|done].
- apply sched_ok_cons in HA as (Hl & Hc & Ht & Hs & Hi). simpl in FA.
  pose proof (sumLen_nonneg pA (so_periods _ _ Hs)).
  cbn [disjunctLoop]. rewrite Hi. eapply merged_emit; [done..| |done].
  eapply merged_weaken; [apply (IH (timeA + Length a) timeB (timeA + Length a)); try done; by apply from_start|].
  unfold sumLen in *. simpl. lia.
Qed.

Lemma merged_ext e f g hi r : merged e f hi r → (∀ t d, f t d = g t d) → merged e g hi r.
Proof. intros (? & ? & ? & Hr) Hfg. split_and!; try done. intros. by rewrite Hr. Qed.

Lemma disjunctLoop_cons timeA a pA timeB b pB e :
  let nextA := i64 (timeA + Length a) in
  let nextB := i64 (timeB + Length b) in
  disjunctLoop timeA (a :: pA) timeB (b :: pB) e =
  if nextA <? nextB then emitted e nextA (Amount a) (disjunctLoop nextA pA timeB (b :: pB) nextA)
  else if nextB <? nextA then emitted e nextB (Amount b) (disjunctLoop timeA (a :: pA) nextB pB nextB)
  else emitted e nextA (coinsAdd (Amount a) (Amount b)) (disjunctLoop nextA pA nextA pB nextA).
Proof. done. Qed.

Lemma disjunctLoop_spec pA : ∀ timeA timeB pB e,
  sched_ok timeA pA → sched_ok timeB pB → time_ok e → from timeA pA e → from timeB pB e →
  merged e (fun t d => releasedBy timeA pA t d + releasedBy timeB pB t d)
    (Z.max e (Z.max (timeA + sumLen pA) (timeB + sumLen pB))) (disjunctLoop timeA pA timeB pB e).
Proof.
induction pA as [|a pA IH]; intros timeA timeB pB e HA HB He FA FB.
{ eapply merged_weaken; [by apply disjunctLoop_restB|lia]. }
pose proof HA as HA'. apply sched_ok_cons in HA' as (HlA & HcA & HtA & HsA & HiA). simpl in FA.
pose proof (sumLen_nonneg pA (so_periods _ _ HsA)) as HnA.
revert timeB e HB He FA FB. induction pB as [|b pB IHb]; intros timeB e HB He FA FB.
{ eapply merged_weaken; [|apply Z.max_le_compat_l, Z.le_max_l].
  eapply merged_ext; [by apply disjunctLoop_restA|]. intros. simpl. lia. }
pose proof HB as HB'. apply sched_ok_cons in HB' as (HlB & HcB & HtB & HsB & HiB). simpl in FB.
pose proof (sumLen_nonneg pB (so_periods _ _ HsB)) as HnB. rewrite disjunctLoop_cons. cbv zeta. rewrite HiA, HiB.
destruct (timeA + Length a <? timeB + Length b) eqn:E1; boolP;
  [|destruct (timeB + Length b <? timeA + Length a) eqn:E2; boolP].
- eapply merged_emit; [done..|eapply merged_weaken; [apply (IH (timeA + Length a) timeB (b :: pB) (timeA + Length a)); try done|]|].
  + by apply from_start.
  + simpl. lia.
  + unfold sumLen in *. simpl. lia.
  + intros t d. simpl. lia.
- eapply merged_emit; [done..|eapply merged_weaken; [apply (IHb (timeB + Length b) (timeB + Length b)); try done|]|].
  + by apply from_start.
  + unfold sumLen in *. simpl. lia.
  + intros t d. simpl. lia.
- assert (Eab : timeB + Length b = timeA + Length a) by lia. rewrite Eab in HsB.
  eapply merged_emit; [done..|by apply coins_ok_add|eapply merged_weaken; [apply (IH (timeA + Length a) (timeA + Length a) pB (timeA + Length a)); try done; by apply from_start|]|].
  + unfold sumLen in *. simpl. lia.
  + intros t d. simpl. rewrite amt_add, Eab. destruct (_ <=? t); lia.
Qed.

Lemma Min64_spec a b : Min64 a b = Z.min a b.
Proof. unfold Min64. destruct (a <? b) eqn:E; boolP; lia. Qed.
Lemma Max64_spec a b : Max64 a b = Z.max a b.
Proof. unfold Max64. destruct (b <? a) eqn:E; boolP; lia. Qed.

Lemma from_weaken s ps e e' : from s ps e → e' <= e → from s ps e'.
Proof. destruct ps; simpl; lia. Qed.

(** [DisjunctPeriods] is the union of two schedules: at every time the merged
    schedule has released exactly what the two have released together. *)
Lemma DisjunctPeriods_spec startA startB pA pB start fin ps :
  sched_ok startA pA → sched_ok startB pB →
  DisjunctPeriods startA startB pA pB = (start, fin, ps) →
  start = Z.min startA startB ∧ sched_ok start ps ∧ fin = start + sumLen ps ∧
  fin <= Z.max (startA + sumLen pA) (startB + sumLen pB) ∧
  ∀ t d, releasedBy start ps t d = releasedBy startA pA t d + releasedBy startB pB t d.
Proof.
intros HA HB. unfold DisjunctPeriods. rewrite Min64_spec.
assert (Hm : time_ok (Z.min startA startB)) by (destruct HA, HB; unfold time_ok in *; lia).
destruct (disjunctLoop_spec pA startA startB pB (Z.min startA startB) HA HB Hm) as (Hs & He & Hhi & Hr).
{ eapply from_weaken; [by apply from_start|lia]. }
{ eapply from_weaken; [by apply from_start|lia]. }
destruct (disjunctLoop _ _ _ _ _) as [fin' ps'] eqn:E. simpl in *. intros [= <- <- <-].
pose proof (sumLen_nonneg pA (so_periods _ _ HA)). pose proof (sumLen_nonneg pB (so_periods _ _ HB)).
split_and!; try done. lia.
Qed.

(** ** Minimum *)
Record tally_ok (t : Tally) : Prop := {
  to_result : coins_ok (tResult t);
  to_A : coins_ok (tA t);
  to_B : coins_ok (tB t);
  to_min d : amt (tResult t) d = Z.min (amt (tA t) d) (amt (tB t) d);
  to_end : time_ok (tEnd t);
}.

(** An event after the tallies have grown. *)
Lemma conjunctEvent_spec next t :
  coins_ok (tResult t) → coins_ok (tA t) → coins_ok (tB t) → time_ok (tEnd t) → time_ok next → tEnd t <= next →
  (∀ d, amt (tResult t) d <= Z.min (amt (tA t) d) (amt (tB t) d)) →
  ∃ t', conjunctEvent next t = Ok t' ∧ tally_ok t' ∧ tA t' = tA t ∧ tB t' = tB t ∧
    ((tEnd t' = tEnd t ∧ tOut t' = tOut t ∧ ∀ d, amt (tResult t) d = Z.min (amt (tA t) d) (amt (tB t) d)) ∨
     ∃ diff, coins_ok diff ∧ (∀ d, amt diff d = Z.min (amt (tA t) d) (amt (tB t) d) - amt (tResult t) d) ∧
       tEnd t' = next ∧ tOut t' = tOut t ++ [mkPeriod (next - tEnd t) diff]).
Proof.
intros Hr Ha Hb He Hn Hle Hmin. unfold conjunctEvent.
assert (Hm : coins_ok (coinsMin (tA t) (tB t))) by (by apply coins_ok_min).
assert (Hamt : ∀ d, amt (coinsMin (tA t) (tB t)) d = Z.min (amt (tA t) d) (amt (tB t) d)) by (intros; by apply amt_min).
rewrite (proj2 (IsAllLTE_spec _ _ Hr Hm)) by (intros; rewrite Hamt; apply Hmin).
destruct (coinsSub_Ok (coinsMin (tA t) (tB t)) (tResult t)) as (diff & Hs & Hd); [intros; rewrite Hamt; apply Hmin|].
rewrite Hs. simpl. destruct (IsZero diff) eqn:Ez.
- pose proof (proj1 (IsZero_spec diff) Ez) as Hz. exists t. split; [done|].
  assert (E : ∀ d, amt (tResult t) d = Z.min (amt (tA t) d) (amt (tB t) d)).
  { intros d. specialize (Hd d). rewrite Hz, Hamt in Hd. lia. }
  split; [by split|]. split_and!; try done. left. by split_and!.
- pose proof (coins_ok_sub _ _ _ Hm Hr Hs) as Hok. eexists. split; [done|]. simpl. split.
  { split; simpl; try done; [by apply coins_ok_add|]. intros d. rewrite amt_add, Hd, Hamt. lia. }
  split; [done|]. split; [done|]. right. exists diff. rewrite i64_diff by done. split_and!; try done.
  intros d. by rewrite Hd, Hamt.
Qed.

(** What the loop promises for tallies [A0], [B0] and the schedules still to come,
    which release [f] and [g]. *)
Definition conj_done (e : Z) (A0 B0 : denom → Z) (f g : Z → denom → Z) (hi : Z) (out0 : Periods)
    (r : result Tally) : Prop :=
  ∃ t' new, r = Ok t' ∧ tOut t' = out0 ++ new ∧ sched_ok e new ∧ tEnd t' = e + sumLen new ∧ tEnd t' <= hi ∧
    ∀ x d, releasedBy e new x d = Z.min (A0 d + f x d) (B0 d + g x d) - Z.min (A0 d) (B0 d).

Lemma conj_step next t t1 (k : Tally → result Tally) xa xb f g f' g' hi :
  tally_ok t → time_ok next → tEnd t <= next →
  tResult t1 = tResult t → tEnd t1 = tEnd t → tOut t1 = tOut t → coins_ok (tA t1) → coins_ok (tB t1) →
  (∀ d, 0 <= xa d ∧ amt (tA t1) d = amt (tA t) d + xa d) →
  (∀ d, 0 <= xb d ∧ amt (tB t1) d = amt (tB t) d + xb d) →
  (∀ x d, f x d = (if next <=? x then xa d else 0) + f' x d) →
  (∀ x d, g x d = (if next <=? x then xb d else 0) + g' x d) →
  (∀ x d, x < next → f' x d = 0 ∧ g' x d = 0) →
  (∀ t2, tally_ok t2 → tEnd t2 <= next → tA t2 = tA t1 → tB t2 = tB t1 →
     conj_done (tEnd t2) (amt (tA t1)) (amt (tB t1)) f' g' hi (tOut t2) (k t2)) →
  conj_done (tEnd t) (amt (tA t)) (amt (tB t)) f g hi (tOut t) (conjunctEvent next t1 ≫= k).
Proof.
intros Ht Hn Hle Er Ee Eo Ha Hb Hxa Hxb Hf Hg Hlt Hk.
destruct (conjunctEvent_spec next t1) as (t2 & -> & Ht2 & EA & EB & Hcase); rewrite ?Er, ?Ee; try apply Ht; try done.
{ intros d. rewrite (to_min t Ht). specialize (Hxa d). specialize (Hxb d). lia. }
simpl. rewrite Er, Ee, Eo in Hcase.
assert (Hle2 : tEnd t2 <= next) by (destruct Hcase as [(-> & _)|(? & _ & _ & -> & _)]; lia).
destruct (Hk t2 Ht2 Hle2 EA EB) as (t' & new & -> & Eout & Hs & Hend & Hhi & Hrel).
assert (Hgrow : ∀ x d, (if next <=? x then Z.min (amt (tA t1) d) (amt (tB t1) d) - amt (tResult t) d else 0)
   + (Z.min (amt (tA t1) d + f' x d) (amt (tB t1) d + g' x d) - Z.min (amt (tA t1) d) (amt (tB t1) d))
   = Z.min (amt (tA t) d + f x d) (amt (tB t) d + g x d) - Z.min (amt (tA t) d) (amt (tB t) d)).
{ intros x d. rewrite (to_min t Ht), Hf, Hg. specialize (Hxa d). specialize (Hxb d). specialize (Hlt x d).
  destruct (next <=? x) eqn:E; boolP; lia. }
exists t'. destruct Hcase as [(E1 & E2 & E3)|(diff & Hok & Hd & E1 & E2)].
- exists new. rewrite Eout, E2, <- E1. split_and!; try done. intros x d. rewrite Hrel, <- Hgrow, E3.
  destruct (_ <=? _); lia.
- exists (mkPeriod (next - tEnd t) diff :: new). rewrite E1 in *.
  assert (Hnext : tEnd t + (next - tEnd t) = next) by lia. split; [done|].
  split; [by rewrite Eout, E2, <- app_assoc|]. split.
  { apply sched_ok_head; simpl; try done; [lia|apply Ht|]. by rewrite Hnext. }
  split; [unfold sumLen in *; simpl; lia|]. split; [done|].
  intros x d. simpl. rewrite Hnext, Hrel, Hd. apply Hgrow.
Qed.

Lemma conjunctLoop_cons timeA a pA timeB b pB t :
  let nextA := i64 (timeA + Length a) in
  let nextB := i64 (timeB + Length b) in
  conjunctLoop timeA (a :: pA) timeB (b :: pB) t =
  if nextA <? nextB then t ← conjunctEvent nextA (addA (Amount a) t); conjunctLoop nextA pA timeB (b :: pB) t
  else if nextB <? nextA then t ← conjunctEvent nextB (addB (Amount b) t); conjunctLoop timeA (a :: pA) nextB pB t
  else t ← conjunctEvent nextA (addB (Amount b) (addA (Amount a) t)); conjunctLoop nextA pA nextA pB t.
Proof. done. Qed.

Lemma before_next (s : Z) ps x d : sched_ok s ps → x < s → releasedBy s ps x d = 0.
Proof. intros Hs Hx. apply (releasedBy_before s ps s); [apply Hs|by apply from_start|done]. Qed.

(** An event of [A] alone, of [B] alone, of both. *)
Lemma conj_stepA next t c (k : Tally → result Tally) f g f' hi :
  tally_ok t → time_ok next → tEnd t <= next → coins_ok c →
  (∀ x d, f x d = (if next <=? x then amt c d else 0) + f' x d) →
  (∀ x d, x < next → f' x d = 0 ∧ g x d = 0) →
  (∀ t2, tally_ok t2 → tEnd t2 <= next → tA t2 = coinsAdd (tA t) c → tB t2 = tB t →
     conj_done (tEnd t2) (amt (coinsAdd (tA t) c)) (amt (tB t)) f' g hi (tOut t2) (k t2)) →
  conj_done (tEnd t) (amt (tA t)) (amt (tB t)) f g hi (tOut t) (conjunctEvent next (addA c t) ≫= k).
Proof.
intros Ht Hn Hle Hc Hf Hlt Hk.
eapply (conj_step next t (addA c t) k (amt c) (fun _ => 0) f g f' g hi); try done; simpl.
- apply coins_ok_add; [apply Ht|done].
- apply Ht.
- intros d. rewrite amt_add. split; [by apply amt_nonneg|done].
- intros d. lia.
- intros x d. destruct (_ <=? _); lia.
Qed.

Lemma conj_stepB next t c (k : Tally → result Tally) f g g' hi :
  tally_ok t → time_ok next → tEnd t <= next → coins_ok c →
  (∀ x d, g x d = (if next <=? x then amt c d else 0) + g' x d) →
  (∀ x d, x < next → f x d = 0 ∧ g' x d = 0) →
  (∀ t2, tally_ok t2 → tEnd t2 <= next → tA t2 = tA t → tB t2 = coinsAdd (tB t) c →
     conj_done (tEnd t2) (amt (tA t)) (amt (coinsAdd (tB t) c)) f g' hi (tOut t2) (k t2)) →
  conj_done (tEnd t) (amt (tA t)) (amt (tB t)) f g hi (tOut t) (conjunctEvent next (addB c t) ≫= k).
Proof.
intros Ht Hn Hle Hc Hg Hlt Hk.
eapply (conj_step next t (addB c t) k (fun _ => 0) (amt c) f g f g' hi); try done; simpl.
- apply Ht.
- apply coins_ok_add; [apply Ht|done].
- intros d. lia.
- intros d. rewrite amt_add. split; [by apply amt_nonneg|done].
- intros x d. destruct (_ <=? _); lia.
Qed.

Lemma conj_stop t f g hi :
  tally_ok t → tEnd t <= hi → (∀ x d, f x d = 0 ∧ g x d = 0) →
  conj_done (tEnd t) (amt (tA t)) (amt (tB t)) f g hi (tOut t) (Ok t).
Proof.
intros Ht Hhi Hz. exists t, []. rewrite app_nil_r. unfold sumLen; simpl.
split_and!; try done; [apply sched_ok_nil, Ht|lia|]. intros x d. specialize (Hz x d). lia.
Qed.

Lemma conj_done_weaken e A0 B0 f g hi hi' out r :
  conj_done e A0 B0 f g hi out r → hi <= hi' → conj_done e A0 B0 f g hi' out r.
Proof. intros (t' & new & ? & ? & ? & ? & ? & ?) ?. exists t', new. split_and!; try done. lia. Qed.

Lemma conjunctLoop_restB pB : ∀ timeA timeB t,
  sched_ok timeB pB → tally_ok t → from timeB pB (tEnd t) →
  conj_done (tEnd t) (amt (tA t)) (amt (tB t)) (fun _ _ => 0) (releasedBy timeB pB)
    (Z.max (tEnd t) (timeB + sumLen pB)) (tOut t) (conjunctLoop timeA [] timeB pB t).
Proof.
induction pB as [|b pB IH]; intros timeA timeB t HB Ht FB; [apply conj_stop; [done|lia|done]|].
apply sched_ok_cons in HB as (Hl & Hc & Htm & Hs & Hi). simpl in FB.
pose proof (sumLen_nonneg pB (so_periods _ _ Hs)). cbn [conjunctLoop]. rewrite Hi.
apply (conj_stepB _ _ _ _ _ _ (releasedBy (timeB + Length b) pB)); try done.
{ intros x d Hx. split; [done|by apply before_next]. }
intros t2 Ht2 He EA EB. rewrite <- EA, <- EB. eapply conj_done_weaken; [apply (IH timeA); try done|].
- eapply from_weaken; [by apply from_start|done].
- unfold sumLen in *. simpl. lia.
Qed.

Lemma conjunctLoop_restA pA : ∀ timeA timeB t,
  sched_ok timeA pA → tally_ok t → from timeA pA (tEnd t) →
  conj_done (tEnd t) (amt (tA t)) (amt (tB t)) (releasedBy timeA pA) (fun _ _ => 0)
    (Z.max (tEnd t) (timeA + sumLen pA)) (tOut t) (conjunctLoop timeA pA timeB [] t).
Proof.
induction pA as [|a pA IH]; intros timeA timeB t HA Ht FA; [apply conj_stop; [done|lia|done]|].
apply sched_ok_cons in HA as (Hl & Hc & Htm & Hs & Hi). simpl in FA.
pose proof (sumLen_nonneg pA (so_periods _ _ Hs)). cbn [conjunctLoop]. rewrite Hi.
apply (conj_stepA _ _ _ _ _ _ (releasedBy (timeA + Length a) pA)); try done.
{ intros x d Hx. split; [by apply before_next|done]. }
intros t2 Ht2 He EA EB. rewrite <- EA, <- EB. eapply conj_done_weaken; [apply (IH _ timeB); try done|].
- eapply from_weaken; [by apply from_start|done].
- unfold sumLen in *. simpl. lia.
Qed.

Lemma conjunctLoop_spec pA : ∀ timeA timeB pB t,
  sched_ok timeA pA → sched_ok timeB pB → tally_ok t → from timeA pA (tEnd t) → from timeB pB (tEnd t) →
  conj_done (tEnd t) (amt (tA t)) (amt (tB t)) (releasedBy timeA pA) (releasedBy timeB pB)
    (Z.max (tEnd t) (Z.max (timeA + sumLen pA) (timeB + sumLen pB))) (tOut t)
    (conjunctLoop timeA pA timeB pB t).
Proof.
induction pA as [|a pA IH]; intros timeA timeB pB t HA HB Ht FA FB.
{ eapply conj_done_weaken; [by apply conjunctLoop_restB|lia]. }
pose proof HA as HA'. apply sched_ok_cons in HA' as (HlA & HcA & HtA & HsA & HiA). simpl in FA.
pose proof (sumLen_nonneg pA (so_periods _ _ HsA)) as HnA.
revert timeB t HB Ht FA FB. induction pB as [|b pB IHb]; intros timeB t HB Ht FA FB.
{ eapply conj_done_weaken; [by apply conjunctLoop_restA|lia]. }
pose proof HB as HB'. apply sched_ok_cons in HB' as (HlB & HcB & HtB & HsB & HiB). simpl in FB.
pose proof (sumLen_nonneg pB (so_periods _ _ HsB)) as HnB.
rewrite conjunctLoop_cons. cbv zeta. rewrite HiA, HiB.
destruct (timeA + Length a <? timeB + Length b) eqn:E1; boolP;
  [|destruct (timeB + Length b <? timeA + Length a) eqn:E2; boolP].
- apply (conj_stepA _ _ _ _ _ _ (releasedBy (timeA + Length a) pA)); try done.
  { intros x d Hx. split; [by apply before_next|]. apply (releasedBy_before _ _ (timeB + Length b)); [apply HB|simpl; lia|lia]. }
  intros t2 Ht2 He EA EB. rewrite <- EA, <- EB. eapply conj_done_weaken; [apply IH; try done|].
  + eapply from_weaken; [by apply from_start|done].
  + simpl. lia.
  + unfold sumLen in *. simpl. lia.
- apply (conj_stepB _ _ _ _ _ _ (releasedBy (timeB + Length b) pB)); try done.
  { intros x d Hx. split; [|by apply before_next]. apply (releasedBy_before _ _ (timeA + Length a)); [apply HA|simpl; lia|lia]. }
  intros t2 Ht2 He EA EB. rewrite <- EA, <- EB. eapply conj_done_weaken; [apply IHb; try done|].
  + lia.
  + eapply from_weaken; [by apply from_start|done].
  + unfold sumLen in *. simpl. lia.
- assert (Eab : timeB + Length b = timeA + Length a) by lia. rewrite Eab in *.
  apply (conj_step _ _ _ _ (amt (Amount a)) (amt (Amount b)) _ _
    (releasedBy (timeA + Length a) pA) (releasedBy (timeA + Length a) pB)); try done; simpl.
  + apply coins_ok_add; [apply Ht|done].
  + apply coins_ok_add; [apply Ht|done].
  + intros d. rewrite amt_add. split; [by apply amt_nonneg|done].
  + intros d. rewrite amt_add. split; [by apply amt_nonneg|done].
  + intros x d. by rewrite Eab.
  + intros x d Hx. split; by apply before_next.
  + intros t2 Ht2 He EA EB. rewrite <- EA, <- EB. eapply conj_done_weaken; [apply IH; try done|].
    * eapply from_weaken; [by apply from_start|done].
    * eapply from_weaken; [by apply from_start|done].
    * unfold sumLen in *. simpl. lia.
Qed.

(** [ConjunctPeriods] never panics and is the minimum of two schedules: at every
    time and for every denom the result has released the smaller of the two. *)
Lemma ConjunctPeriods_spec startA startB pA pB :
  sched_ok startA pA → sched_ok startB pB →
  ∃ fin ps, ConjunctPeriods startA startB pA pB = Ok (Z.min startA startB, fin, ps) ∧
    sched_ok (Z.min startA startB) ps ∧ fin = Z.min startA startB + sumLen ps ∧
    fin <= Z.max (startA + sumLen pA) (startB + sumLen pB) ∧
    ∀ t d, releasedBy (Z.min startA startB) ps t d = Z.min (releasedBy startA pA t d) (releasedBy startB pB t d).
Proof.
intros HA HB. unfold ConjunctPeriods. rewrite Min64_spec.
assert (Hm : time_ok (Z.min startA startB)) by (destruct HA, HB; unfold time_ok in *; lia).
destruct (conjunctLoop_spec pA startA startB pB (mkTally ∅ ∅ ∅ (Z.min startA startB) []) HA HB)
  as (t & new & -> & Eo & Hs & He & Hhi & Hr).
{ split; simpl; try apply coins_ok_empty; [|done]. intros d. by rewrite amt_empty. }
{ eapply from_weaken; [by apply from_start|simpl; lia]. }
{ eapply from_weaken; [by apply from_start|simpl; lia]. }
simpl in *. exists (tEnd t), new. rewrite Eo.
pose proof (sumLen_nonneg pA (so_periods _ _ HA)). pose proof (sumLen_nonneg pB (so_periods _ _ HB)).
split; [done|]. split; [done|]. split; [done|]. split; [lia|]. intros x d. rewrite Hr, !amt_empty. lia.
Qed.
