(* ===== verification/VestingAccount.v ===== *)
(** * x/vesting: the clawback vesting account (types/clawback_vesting_account.go)

    An account holds one grant total under two schedules: what has vested and what
    has been unlocked.  A [Sub] of coins that would go negative panics in the SDK,
    so functions built on it return a [result]; for an account that satisfies
    [account_wf] none of them does. *)

From stdpp Require Import gmap strings list.
From Stdlib Require Import ZArith Lia.
From S2P Require Import Prelude VestingSchedule.

Open Scope Z_scope.

(** [authtypes.BaseAccount], without its public key. *)
Record BaseAccount := mkBaseAccount { baAddress : addr; baNumber : Z; baSequence : Z }.

(** Times are unix seconds; nothing reads the fraction of [StartTime]. *)
Record ClawbackVestingAccount := mkClawback {
  vaBase : BaseAccount;
  OriginalVesting : Coins;
  DelegatedFree : Coins;
  EndTime : Z;
  FunderAddress : string;
  StartTime : Z;
  LockupPeriods : Periods;
  VestingPeriods : Periods;
}.
Implicit Types va : ClawbackVestingAccount.

Definition NewClawbackVestingAccount (base : BaseAccount) (funder : string) (originalVesting : Coins)
    (startTime : Z) (lockup vesting : Periods) : ClawbackVestingAccount :=
  let '(_, endTime, lp, vp) := AlignSchedules startTime startTime lockup vesting in
  mkClawback base originalVesting ∅ endTime funder startTime lp vp.

Definition GetUnlockedCoins va (blockTime : Z) : Coins :=
  ReadSchedule (StartTime va) (EndTime va) (LockupPeriods va) (OriginalVesting va) blockTime.
Definition GetVestedCoins va (blockTime : Z) : Coins :=
  ReadSchedule (StartTime va) (EndTime va) (VestingPeriods va) (OriginalVesting va) blockTime.
Definition GetPassedPeriodCount va (blockTime : Z) : nat :=
  ReadPastPeriodCount (StartTime va) (EndTime va) (VestingPeriods va) blockTime.
Definition GetLockedUpCoins va (blockTime : Z) : result Coins :=
  coinsSub (OriginalVesting va) (GetUnlockedCoins va blockTime).
Definition GetVestingCoins va (blockTime : Z) : result Coins :=
  coinsSub (OriginalVesting va) (GetVestedCoins va blockTime).
Definition GetUnlockedVestedCoins va (blockTime : Z) : Coins :=
  let coins := coinsMin (GetUnlockedCoins va blockTime) (GetVestedCoins va blockTime) in
  if IsZero coins then ∅ else coins.
Definition GetLockedUpVestedCoins va (blockTime : Z) : result Coins :=
  coinsSub (GetVestedCoins va blockTime) (GetUnlockedVestedCoins va blockTime).

Definition LockedCoins va (blockTime : Z) : result Coins :=
  lockedUpVested ← GetLockedUpVestedCoins va blockTime;
  let lockedUpVestedDelegated := coinsMin (DelegatedFree va) lockedUpVested in
  let '(res, isNeg) := SafeSub (OriginalVesting va)
      (coinsAdd (GetUnlockedVestedCoins va blockTime) lockedUpVestedDelegated) in
  Ok (if isNeg then ∅ else res).

Definition HasLockedCoins va (blockTime : Z) : result bool :=
  locked ← GetLockedUpCoins va blockTime; Ok (negb (IsZero locked)).

Definition with_DelegatedFree (c : Coins) va : ClawbackVestingAccount :=
  mkClawback (vaBase va) (OriginalVesting va) c (EndTime va) (FunderAddress va) (StartTime va)
    (LockupPeriods va) (VestingPeriods va).

Fixpoint trackLoop (balance : Coins) (amount : list (denom * Z)) va : result ClawbackVestingAccount :=
  match amount with
  | [] => Ok va
  | (d, x) :: amount =>
      if (x =? 0) || (amt balance d <? x) then Err (Plain "delegation attempt with zero coins or insufficient funds")
      else trackLoop balance amount (with_DelegatedFree (coinsAdd (DelegatedFree va) {[d := x]}) va)
  end.

Definition TrackDelegation va (balance amount : Coins) : result ClawbackVestingAccount :=
  trackLoop balance (map_to_list amount) va.

(** End and total of a schedule, the way [Validate] sums them. *)
Definition scheduleEnd (start : Z) (ps : Periods) : Z := foldl (fun t p => i64 (t + Length p)) start ps.

(** [validateBase] is [BaseVestingAccount.Validate] of the SDK. *)
Definition Validate (validateBase : BaseAccount → result unit) va : result unit :=
  guard! StartTime va <? EndTime va else Plain "vesting start-time must be before end-time";
  guard! scheduleEnd (StartTime va) (LockupPeriods va) <=? EndTime va
    else Plain "lockup schedule extends beyond account end time";
  guard! CoinEq (TotalAmount (LockupPeriods va)) (OriginalVesting va)
    else Plain "original vesting coins does not match the sum of all coins in lockup periods";
  guard! scheduleEnd (StartTime va) (VestingPeriods va) <=? EndTime va
    else Plain "vesting schedule extends beyond account end time";
  guard! CoinEq (TotalAmount (VestingPeriods va)) (OriginalVesting va)
    else Plain "original vesting coins does not match the sum of all coins in vesting periods";
  validateBase (vaBase va).

Definition ComputeClawback va (clawbackTime : Z) : result (ClawbackVestingAccount * Coins) :=
  let totalVested := GetVestedCoins va clawbackTime in
  totalUnvested ← GetVestingCoins va clawbackTime;
  let newVestingPeriods := take (GetPassedPeriodCount va clawbackTime) (VestingPeriods va) in
  let newVestingEnd := i64 (StartTime va + TotalLength newVestingPeriods) in
  let capPeriods := [mkPeriod 0 totalVested] in
  '(_, newLockingEnd, newLockupPeriods) ←
    ConjunctPeriods (StartTime va) (StartTime va) (LockupPeriods va) capPeriods;
  Ok (mkClawback (vaBase va) totalVested (DelegatedFree va) (Max64 newVestingEnd newLockingEnd)
        (FunderAddress va) (StartTime va) newLockupPeriods newVestingPeriods, totalUnvested).

Definition with_StartTime (t : Z) va : ClawbackVestingAccount :=
  mkClawback (vaBase va) (OriginalVesting va) (DelegatedFree va) (EndTime va) (FunderAddress va) t
    (LockupPeriods va) (VestingPeriods va).

Definition AddGrant va (grantStartTime : Z) (grantLockup grantVesting : Periods) (grantCoins : Coins)
    : result ClawbackVestingAccount :=
  let va := match LockupPeriods va, VestingPeriods va with
            | [], [] => with_StartTime grantStartTime va
            | _, _ => va
            end in
  let '(newLockupStart, newLockupEnd, newLockupPeriods) :=
    DisjunctPeriods (StartTime va) grantStartTime (LockupPeriods va) grantLockup in
  let '(newVestingStart, newVestingEnd, newVestingPeriods) :=
    DisjunctPeriods (StartTime va) grantStartTime (VestingPeriods va) grantVesting in
  if negb (newLockupStart =? newVestingStart) then Err (Registered "vesting" 3)
  else Ok (mkClawback (vaBase va) (coinsAdd (OriginalVesting va) grantCoins) (DelegatedFree va)
             (Max64 newLockupEnd newVestingEnd) (FunderAddress va) newLockupStart
             newLockupPeriods newVestingPeriods).

(** ** Well-formed accounts *)
Record schedule_of (start fin : Z) (total : Coins) (ps : Periods) : Prop := {
  sf_ok : sched_ok start ps;
  sf_end : start + sumLen ps <= fin;
  sf_total d : sumAmt ps d = amt total d;
}.

Record account_wf va : Prop := {
  aw_lockup : schedule_of (StartTime va) (EndTime va) (OriginalVesting va) (LockupPeriods va);
  aw_vesting : schedule_of (StartTime va) (EndTime va) (OriginalVesting va) (VestingPeriods va);
  aw_total : coins_ok (OriginalVesting va);
  aw_free : coins_ok (DelegatedFree va);
}.

Lemma scheduleEnd_spec ps : ∀ s, sched_ok s ps → scheduleEnd s ps = s + sumLen ps.
Proof.
induction ps as [|p ps IH]; intros s Hs; unfold scheduleEnd, sumLen in *; simpl; [lia|].
apply sched_ok_cons in Hs as (_ & _ & _ & Hs & ->). rewrite IH by done. lia.
Qed.

Lemma foldl_amount ps : ∀ c d,
  amt (foldl (fun c p => coinsAdd c (Amount p)) c ps) d = amt c d + sumAmt ps d.
Proof.
induction ps as [|p ps IH]; intros c d; unfold sumAmt in *; simpl; [lia|].
rewrite IH, amt_add. lia.
Qed.

Lemma foldl_amount_ok ps : ∀ c, Forall period_ok ps → coins_ok c →
  coins_ok (foldl (fun c p => coinsAdd c (Amount p)) c ps).
Proof.
induction ps as [|p ps IH]; intros c Hf Hc; simpl; [done|].
apply Forall_cons in Hf as [[_ Hp] Hf]. apply IH; [done|by apply coins_ok_add].
Qed.

Lemma TotalAmount_spec ps d : amt (TotalAmount ps) d = sumAmt ps d.
Proof. unfold TotalAmount. rewrite foldl_amount, amt_empty. lia. Qed.

Lemma TotalAmount_ok ps : Forall period_ok ps → coins_ok (TotalAmount ps).
Proof. intros. by apply foldl_amount_ok, coins_ok_empty. Qed.

(** A validated account with times in range and valid coins is well-formed. *)
Lemma Clawback_Validate_wf vb va :
  Validate vb va = Ok tt → sched_ok (StartTime va) (LockupPeriods va) →
  sched_ok (StartTime va) (VestingPeriods va) → coins_ok (OriginalVesting va) → coins_ok (DelegatedFree va) →
  account_wf va.
Proof.
unfold Validate. intros Hv HL HV HO HF. inv_ok. boolP.
rewrite scheduleEnd_spec in * by done.
assert (Htot : ∀ ps, sched_ok (StartTime va) ps → CoinEq (TotalAmount ps) (OriginalVesting va) = true →
  ∀ d, sumAmt ps d = amt (OriginalVesting va) d).
{ intros ps Hps He d. apply CoinEq_spec in He; [|apply TotalAmount_ok, Hps|done]. by rewrite <- He, TotalAmount_spec. }
split; try done; split; try done; by apply Htot.
Qed.

Section readings.
Context va (Hwf : account_wf va) (t : Z).

Lemma vested_spec d :
  amt (GetVestedCoins va t) d = if t <=? StartTime va then 0 else releasedBy (StartTime va) (VestingPeriods va) t d.
Proof.
destruct (aw_vesting va Hwf) as [H1 H2 H3]. by apply ReadSchedule_spec.
Qed.

Lemma unlocked_spec d :
  amt (GetUnlockedCoins va t) d = if t <=? StartTime va then 0 else releasedBy (StartTime va) (LockupPeriods va) t d.
Proof.
destruct (aw_lockup va Hwf) as [H1 H2 H3]. by apply ReadSchedule_spec.
Qed.

Lemma vested_bounds d : 0 <= amt (GetVestedCoins va t) d <= amt (OriginalVesting va) d.
Proof.
rewrite vested_spec. destruct (aw_vesting va Hwf) as [[H1 _ _] _ H3]. rewrite <- H3.
pose proof (releasedBy_bounds (StartTime va) (VestingPeriods va) t d H1). destruct (_ <=? _); lia.
Qed.

Lemma unlocked_bounds d : 0 <= amt (GetUnlockedCoins va t) d <= amt (OriginalVesting va) d.
Proof.
rewrite unlocked_spec. destruct (aw_lockup va Hwf) as [[H1 _ _] _ H3]. rewrite <- H3.
pose proof (releasedBy_bounds (StartTime va) (LockupPeriods va) t d H1). destruct (_ <=? _); lia.
Qed.

Lemma vested_ok : coins_ok (GetVestedCoins va t).
Proof. apply ReadSchedule_ok; [apply (aw_vesting va Hwf)|apply Hwf]. Qed.
Lemma unlocked_ok : coins_ok (GetUnlockedCoins va t).
Proof. apply ReadSchedule_ok; [apply (aw_lockup va Hwf)|apply Hwf]. Qed.

Lemma unlockedVested_spec d :
  amt (GetUnlockedVestedCoins va t) d = Z.min (amt (GetUnlockedCoins va t) d) (amt (GetVestedCoins va t) d).
Proof.
unfold GetUnlockedVestedCoins. rewrite <- amt_min by (apply unlocked_ok || apply vested_ok).
destruct (IsZero _) eqn:E; [|done]. rewrite amt_empty. by rewrite (proj1 (IsZero_spec _) E).
Qed.

Lemma unlockedVested_ok : coins_ok (GetUnlockedVestedCoins va t).
Proof.
unfold GetUnlockedVestedCoins. destruct (IsZero _); [apply coins_ok_empty|].
apply coins_ok_min; [apply unlocked_ok|apply vested_ok].
Qed.

Lemma GetVestingCoins_spec : ∃ c, GetVestingCoins va t = Ok c ∧ coins_ok c ∧
  ∀ d, amt c d = amt (OriginalVesting va) d - amt (GetVestedCoins va t) d.
Proof.
unfold GetVestingCoins. destruct (coinsSub_Ok (OriginalVesting va) (GetVestedCoins va t)) as (c & E & Hc);
  [intros; apply vested_bounds|]. exists c. split_and!; try done.
apply (coins_ok_sub _ _ _ (aw_total va Hwf) vested_ok E).
Qed.

Lemma GetLockedUpCoins_spec : ∃ c, GetLockedUpCoins va t = Ok c ∧ coins_ok c ∧
  ∀ d, amt c d = amt (OriginalVesting va) d - amt (GetUnlockedCoins va t) d.
Proof.
unfold GetLockedUpCoins. destruct (coinsSub_Ok (OriginalVesting va) (GetUnlockedCoins va t)) as (c & E & Hc);
  [intros; apply unlocked_bounds|]. exists c. split_and!; try done.
apply (coins_ok_sub _ _ _ (aw_total va Hwf) unlocked_ok E).
Qed.

Lemma GetLockedUpVestedCoins_spec : ∃ c, GetLockedUpVestedCoins va t = Ok c ∧ coins_ok c ∧
  ∀ d, amt c d = amt (GetVestedCoins va t) d - amt (GetUnlockedVestedCoins va t) d.
Proof.
unfold GetLockedUpVestedCoins.
destruct (coinsSub_Ok (GetVestedCoins va t) (GetUnlockedVestedCoins va t)) as (c & E & Hc);
  [intros; rewrite unlockedVested_spec; lia|]. exists c. split_and!; try done.
apply (coins_ok_sub _ _ _ vested_ok unlockedVested_ok E).
Qed.

Lemma LockedCoins_spec : ∃ c, LockedCoins va t = Ok c ∧ ∀ d, amt c d =
  amt (OriginalVesting va) d - amt (GetUnlockedVestedCoins va t) d
  - Z.min (amt (DelegatedFree va) d) (amt (GetVestedCoins va t) d - amt (GetUnlockedVestedCoins va t) d).
Proof.
unfold LockedCoins. destruct GetLockedUpVestedCoins_spec as (c & -> & Hok & Hc). cbn [mbind result_bind].
set (x := coinsAdd (GetUnlockedVestedCoins va t) (coinsMin (DelegatedFree va) c)).
assert (Hx : ∀ d, amt x d = amt (GetUnlockedVestedCoins va t) d
   + Z.min (amt (DelegatedFree va) d) (amt (GetVestedCoins va t) d - amt (GetUnlockedVestedCoins va t) d)).
{ intros d. unfold x. by rewrite amt_add, amt_min, Hc by (apply Hwf || done). }
destruct (SafeSub_spec (OriginalVesting va) x) as [E1 E2].
destruct (SafeSub (OriginalVesting va) x) as [res neg]; simpl in *.
assert (neg = false) as ->.
{ apply E2. intros d. rewrite Hx, unlockedVested_spec. pose proof (vested_bounds d). lia. }
exists res. split; [done|]. intros d. rewrite E1, Hx. lia.
Qed.
End readings.

(** ** Theorems *)

(** C25: At any time the grant is split exactly: vested plus unvested is the grant,
    unlocked plus locked up is the grant, the vested part is split into unlocked
    and locked, none of the parts panics or is negative, and what the bank may not
    spend is the grant less the unlocked vested coins and less the locked vested
    coins that are delegated.  Vested and unlocked only grow, and from the end time
    on nothing is held back. *)
Theorem vesting_partition va t d :
  account_wf va →
  (∃ unvested locked lockedVested unspendable,
    GetVestingCoins va t = Ok unvested ∧ GetLockedUpCoins va t = Ok locked ∧
    GetLockedUpVestedCoins va t = Ok lockedVested ∧ LockedCoins va t = Ok unspendable ∧
    amt (GetVestedCoins va t) d + amt unvested d = amt (OriginalVesting va) d ∧
    amt (GetUnlockedCoins va t) d + amt locked d = amt (OriginalVesting va) d ∧
    amt (GetUnlockedVestedCoins va t) d + amt lockedVested d = amt (GetVestedCoins va t) d ∧
    0 <= amt unvested d ∧ 0 <= amt locked d ∧ 0 <= amt lockedVested d ∧ 0 <= amt (GetUnlockedVestedCoins va t) d ∧
    amt unspendable d = amt unvested d + amt lockedVested d - Z.min (amt (DelegatedFree va) d) (amt lockedVested d) ∧
    0 <= amt unspendable d <= amt (OriginalVesting va) d ∧
    (StartTime va < t → EndTime va <= t → amt unvested d = 0 ∧ amt locked d = 0 ∧ amt unspendable d = 0)) ∧
  ∀ t', t <= t' → amt (GetVestedCoins va t) d <= amt (GetVestedCoins va t') d ∧
                  amt (GetUnlockedCoins va t) d <= amt (GetUnlockedCoins va t') d.
Proof.
intros Hwf. pose proof (vested_bounds va Hwf t d) as Bv. pose proof (unlocked_bounds va Hwf t d) as Bu.
pose proof (unlockedVested_spec va Hwf t d) as Buv. pose proof (amt_nonneg _ d (aw_free va Hwf)) as Bf.
split.
- destruct (GetVestingCoins_spec va Hwf t) as (c1 & E1 & _ & A1).
  destruct (GetLockedUpCoins_spec va Hwf t) as (c2 & E2 & _ & A2).
  destruct (GetLockedUpVestedCoins_spec va Hwf t) as (c3 & E3 & _ & A3).
  destruct (LockedCoins_spec va Hwf t) as (c4 & E4 & A4).
  exists c1, c2, c3, c4. rewrite A1, A2, A3, A4. split_and!; try done; try lia.
  intros Hs He. assert (Hfull : amt (GetVestedCoins va t) d = amt (OriginalVesting va) d ∧
    amt (GetUnlockedCoins va t) d = amt (OriginalVesting va) d).
  { unfold GetVestedCoins, GetUnlockedCoins, ReadSchedule.
    rewrite (proj2 (Z.leb_gt _ _)), (proj2 (Z.leb_le _ _)) by lia. done. }
  lia.
- intros t' Ht. rewrite !vested_spec, !unlocked_spec by done.
  destruct (aw_vesting va Hwf) as [[Hv _ _] _ _], (aw_lockup va Hwf) as [[Hl _ _] _ _].
  pose proof (releasedBy_mono (StartTime va) _ t t' d Hv Ht).
  pose proof (releasedBy_mono (StartTime va) _ t t' d Hl Ht).
  pose proof (releasedBy_bounds (StartTime va) _ t' d Hv). pose proof (releasedBy_bounds (StartTime va) _ t' d Hl).
  destruct (t <=? StartTime va) eqn:E1, (t' <=? StartTime va) eqn:E2; boolP; lia.
Qed.

(** *** Grants *)
Lemma sumAmt_released start ps d : sched_ok start ps → ∀ T, start + sumLen ps <= T →
  releasedBy start ps T d = sumAmt ps d.
Proof. intros Hs T HT. apply releasedBy_after; [apply Hs|done]. Qed.

Lemma merged_total start ps startA pA startB pB d :
  sched_ok start ps → sched_ok startA pA → sched_ok startB pB →
  (∀ t, releasedBy start ps t d = releasedBy startA pA t d + releasedBy startB pB t d) →
  sumAmt ps d = sumAmt pA d + sumAmt pB d.
Proof.
intros Hs HA HB Hr. set (T := Z.max (start + sumLen ps) (Z.max (startA + sumLen pA) (startB + sumLen pB))).
specialize (Hr T). rewrite !sumAmt_released in Hr by (done || lia). done.
Qed.

Lemma Disjunct_schedule startA startB pA pB totalA totalB start fin ps :
  sched_ok startA pA → (∀ d, sumAmt pA d = amt totalA d) → sched_ok startB pB → (∀ d, sumAmt pB d = amt totalB d) →
  DisjunctPeriods startA startB pA pB = (start, fin, ps) →
  start = Z.min startA startB ∧
  (∀ fin', fin <= fin' → schedule_of start fin' (coinsAdd totalA totalB) ps) ∧
  ∀ t d, releasedBy start ps t d = releasedBy startA pA t d + releasedBy startB pB t d.
Proof.
intros HA HtA HB HtB HD. destruct (DisjunctPeriods_spec _ _ _ _ _ _ _ HA HB HD) as (E1 & E2 & E3 & E4 & E5).
split; [done|]. split; [|done]. intros fin' Hf. split; [done|lia|].
intros d. rewrite amt_add, <- HtA, <- HtB. by apply (merged_total start ps startA pA startB pB).
Qed.

(** The start a grant is merged from: an account without periods takes the grant's. *)
Definition grantedStart va (grantStart : Z) : Z :=
  match LockupPeriods va, VestingPeriods va with [], [] => grantStart | _, _ => StartTime va end.

Lemma AddGrant_from va grantStart gl gv coins :
  AddGrant va grantStart gl gv coins =
  let '(ls, le, lp) := DisjunctPeriods (grantedStart va grantStart) grantStart (LockupPeriods va) gl in
  let '(vs, ve, vp) := DisjunctPeriods (grantedStart va grantStart) grantStart (VestingPeriods va) gv in
  if negb (ls =? vs) then Err (Registered "vesting" 3)
  else Ok (mkClawback (vaBase va) (coinsAdd (OriginalVesting va) coins) (DelegatedFree va) (Max64 le ve)
             (FunderAddress va) ls lp vp).
Proof. unfold AddGrant, grantedStart. destruct va as [? ? ? ? ? ? [|? ?] [|? ?]]; done. Qed.

Lemma grantedStart_sched va g : account_wf va → time_ok g →
  sched_ok (grantedStart va g) (LockupPeriods va) ∧ sched_ok (grantedStart va g) (VestingPeriods va) ∧
  (∀ t d, releasedBy (grantedStart va g) (LockupPeriods va) t d = releasedBy (StartTime va) (LockupPeriods va) t d) ∧
  (∀ t d, releasedBy (grantedStart va g) (VestingPeriods va) t d = releasedBy (StartTime va) (VestingPeriods va) t d).
Proof.
intros Hwf Hg. pose proof (sf_ok _ _ _ _ (aw_lockup va Hwf)) as HL. pose proof (sf_ok _ _ _ _ (aw_vesting va Hwf)) as HV.
unfold grantedStart. destruct (LockupPeriods va) eqn:EL; [|done].
destruct (VestingPeriods va) eqn:EV; [|done]. pose proof (sched_ok_nil g Hg). done.
Qed.

Lemma AddGrant_spec va grantStart gl gv coins :
  account_wf va →
  sched_ok grantStart gl → sched_ok grantStart gv → coins_ok coins →
  (∀ d, sumAmt gl d = amt coins d) → (∀ d, sumAmt gv d = amt coins d) →
  ∃ va', AddGrant va grantStart gl gv coins = Ok va' ∧ account_wf va' ∧
    StartTime va' = Z.min (grantedStart va grantStart) grantStart ∧
    FunderAddress va' = FunderAddress va ∧ vaBase va' = vaBase va ∧ DelegatedFree va' = DelegatedFree va ∧
    ∀ d, amt (OriginalVesting va') d = amt (OriginalVesting va) d + amt coins d ∧
    ∀ t, StartTime va' < t →
      amt (GetVestedCoins va' t) d = releasedBy (StartTime va) (VestingPeriods va) t d + releasedBy grantStart gv t d ∧
      amt (GetUnlockedCoins va' t) d = releasedBy (StartTime va) (LockupPeriods va) t d + releasedBy grantStart gl t d.
Proof.
intros Hwf Hgl Hgv Hc Htl Htv. rewrite AddGrant_from. cbv zeta.
destruct (grantedStart_sched va grantStart Hwf (so_start _ _ Hgl)) as (SL & SV & RL & RV).
destruct (DisjunctPeriods _ _ (LockupPeriods va) gl) as [[ls le] lp] eqn:EL.
destruct (DisjunctPeriods _ _ (VestingPeriods va) gv) as [[vs ve] vp] eqn:EV.
destruct (Disjunct_schedule _ _ _ _ _ coins _ _ _ SL (sf_total _ _ _ _ (aw_lockup va Hwf)) Hgl Htl EL) as (L1 & L2 & L3).
destruct (Disjunct_schedule _ _ _ _ _ coins _ _ _ SV (sf_total _ _ _ _ (aw_vesting va Hwf)) Hgv Htv EV) as (V1 & V2 & V3).
assert (ls = vs) as -> by congruence. rewrite Z.eqb_refl. simpl. eexists. split; [done|].
assert (Hwf' : account_wf (mkClawback (vaBase va) (coinsAdd (OriginalVesting va) coins) (DelegatedFree va)
  (Max64 le ve) (FunderAddress va) vs lp vp)).
{ rewrite Max64_spec. split; simpl.
  - apply L2. lia.
  - apply V2. lia.
  - apply coins_ok_add; [apply Hwf|done].
  - apply Hwf. }
split_and!; try done. intros d. simpl. split; [apply amt_add|]. intros t Ht.
rewrite vested_spec, unlocked_spec by done. simpl. rewrite (proj2 (Z.leb_gt _ _)) by lia. by rewrite V3, L3, RL, RV.
Qed.

(** Merging a grant adds it: the account stays well-formed, its total grows by the
    grant, and at every time after the earlier start both schedules have released
    what the old account's and the grant's have released together. *)
Theorem AddGrant_adds va grantStart gl gv coins :
  account_wf va →
  sched_ok grantStart gl → sched_ok grantStart gv → coins_ok coins →
  (∀ d, sumAmt gl d = amt coins d) → (∀ d, sumAmt gv d = amt coins d) →
  ∃ va', AddGrant va grantStart gl gv coins = Ok va' ∧ account_wf va' ∧
    StartTime va' = Z.min (grantedStart va grantStart) grantStart ∧
    FunderAddress va' = FunderAddress va ∧ vaBase va' = vaBase va ∧ DelegatedFree va' = DelegatedFree va ∧
    ∀ d, amt (OriginalVesting va') d = amt (OriginalVesting va) d + amt coins d ∧
    ∀ t, StartTime va' < t →
      amt (GetVestedCoins va' t) d = releasedBy (StartTime va) (VestingPeriods va) t d + releasedBy grantStart gv t d ∧
      amt (GetUnlockedCoins va' t) d = releasedBy (StartTime va) (LockupPeriods va) t d + releasedBy grantStart gl t d.
Proof. apply AddGrant_spec. Qed.

(** *** Clawback *)
Lemma sched_ok_take start ps k : sched_ok start ps → sched_ok start (take k ps).
Proof.
intros [H1 H2 H3]. split; [by apply Forall_take|done|].
assert (Hs : sumLen ps = sumLen (take k ps) + sumLen (drop k ps)).
{ unfold sumLen. by rewrite <- sumZ_app, <- map_app, take_drop. }
pose proof (sumLen_nonneg (take k ps) (Forall_take _ _ _ H1)).
pose proof (sumLen_nonneg (drop k ps) (Forall_drop _ _ _ H1)). unfold time_ok in *. lia.
Qed.

Lemma TotalLength_spec start ps : sched_ok start ps → TotalLength ps = sumLen ps.
Proof.
intros Hs. assert (G : ∀ n, 0 <= n → time_ok (start + n) → sched_ok (start + n) ps →
  foldl (fun n p => i64 (n + Length p)) n ps = n + sumLen ps).
{ destruct Hs as [_ Hst _]. induction ps as [|p ps IH]; intros n Hn Ht Hs; unfold sumLen in *; simpl; [lia|].
  apply sched_ok_cons in Hs as (Hl & _ & Ht2 & Hs & _). rewrite (i64_small (n + Length p)).
  - rewrite IH; [lia|lia|by rewrite Z.add_assoc|by rewrite Z.add_assoc].
  - unfold time_ok in *. unfold is_i64. lia. }
unfold TotalLength. rewrite (G 0); [lia|lia| |]; rewrite Z.add_0_r; [apply Hs|done].
Qed.

(** The vesting schedule that is left. *)
Lemma clawback_vesting va T :
  account_wf va →
  let vp := take (GetPassedPeriodCount va T) (VestingPeriods va) in
  sched_ok (StartTime va) vp ∧ (∀ d, sumAmt vp d = amt (GetVestedCoins va T) d) ∧
  StartTime va + sumLen vp <= Z.max (StartTime va) T.
Proof.
intros Hwf. destruct (aw_vesting va Hwf) as [H1 H2 H3]. simpl. split; [by apply sched_ok_take|].
pose proof (sumLen_nonneg (VestingPeriods va) (so_periods _ _ H1)).
unfold GetPassedPeriodCount. destruct (decide (StartTime va < T)) as [Hlt|Hge].
- destruct (ReadPastPeriodCount_spec _ _ _ T H1 H2 Hlt) as (K1 & K2 & K3). split; [|lia].
  intros d. rewrite vested_spec, (proj2 (Z.leb_gt _ _)), K2 by (done || lia). done.
- unfold ReadPastPeriodCount. rewrite (proj2 (Z.leb_le _ _)) by lia. simpl. split.
  + intros d. rewrite vested_spec, (proj2 (Z.leb_le _ _)) by (done || lia). done.
  + unfold sumLen in *. simpl. lia.
Qed.

Lemma ComputeClawback_spec va T :
  account_wf va → time_ok T →
  ∃ va' back, ComputeClawback va T = Ok (va', back) ∧ account_wf va' ∧
    OriginalVesting va' = GetVestedCoins va T ∧ StartTime va' = StartTime va ∧ vaBase va' = vaBase va ∧
    GetVestingCoins va T = Ok back ∧ coins_ok back ∧
    ∀ d, amt (OriginalVesting va') d + amt back d = amt (OriginalVesting va) d ∧ 0 <= amt back d ∧
    ∀ t, StartTime va < t →
      amt (GetUnlockedCoins va' t) d = Z.min (amt (GetUnlockedCoins va t) d) (amt (GetVestedCoins va T) d) ∧
      (T <= t → amt (GetVestedCoins va' t) d = amt (GetVestedCoins va T) d).
Proof.
intros Hwf HT. unfold ComputeClawback.
destruct (GetVestingCoins_spec va Hwf T) as (back & -> & Hbok & Hb). cbn [mbind result_bind].
destruct (clawback_vesting va T Hwf) as (V1 & V2 & V3).
set (vp := take (GetPassedPeriodCount va T) (VestingPeriods va)) in *.
destruct (aw_lockup va Hwf) as [L1 L2 L3]. pose proof (so_start _ _ L1) as Hst.
assert (Hcap : sched_ok (StartTime va) [mkPeriod 0 (GetVestedCoins va T)]).
{ split; [|done|unfold sumLen; simpl; by rewrite Z.add_0_r].
  repeat constructor; simpl; [lia|by apply vested_ok]. }
destruct (ConjunctPeriods_spec _ _ _ _ L1 Hcap) as (fin & lp & -> & C1 & C2 & C3 & C4). simpl.
rewrite Z.min_id in *. rewrite (TotalLength_spec (StartTime va)) by done.
rewrite (i64_time (StartTime va + sumLen vp)) by apply V1. rewrite Max64_spec. do 2 eexists. split; [done|].
assert (Hrel : ∀ t d, StartTime va <= t → releasedBy (StartTime va) lp t d =
  Z.min (releasedBy (StartTime va) (LockupPeriods va) t d) (amt (GetVestedCoins va T) d)).
{ intros t d Ht. rewrite C4. simpl. rewrite (proj2 (Z.leb_le _ _)) by lia. f_equal. lia. }
assert (Hlp : ∀ d, sumAmt lp d = amt (GetVestedCoins va T) d).
{ intros d. set (M := Z.max (StartTime va + sumLen lp) (StartTime va + sumLen (LockupPeriods va))).
  pose proof (sumLen_nonneg lp (so_periods _ _ C1)).
  rewrite <- (sumAmt_released (StartTime va) lp d C1 M), Hrel by lia.
  rewrite (sumAmt_released _ _ d L1), L3 by lia. pose proof (vested_bounds va Hwf T d). lia. }
assert (Hwf' : account_wf (mkClawback (vaBase va) (GetVestedCoins va T) (DelegatedFree va)
  (Z.max (StartTime va + sumLen vp) fin) (FunderAddress va) (StartTime va) lp vp)).
{ split; simpl; [|split; [done|lia|apply V2]|by apply vested_ok|apply Hwf]. split; [done|lia|done]. }
do 6 (split; [done|]). intros d. simpl. rewrite Hb.
pose proof (vested_bounds va Hwf T d) as Bv. split_and!; [lia|lia|]. intros t Ht. split.
- rewrite unlocked_spec, unlocked_spec by done. simpl. rewrite (proj2 (Z.leb_gt _ _)) by lia.
  rewrite Hrel by lia. done.
- intros HTt. rewrite vested_spec by done. simpl. rewrite (proj2 (Z.leb_gt _ _)), <- V2 by lia.
  apply sumAmt_released; [done|lia].
Qed.

(** A clawback takes exactly the unvested coins: vested plus clawed back is the
    grant, the new account is well-formed, its vesting schedule has released
    everything it still holds, and it unlocks the smaller of what the old lockup
    unlocks and what had vested. *)
Theorem ComputeClawback_exact va T :
  account_wf va → time_ok T →
  ∃ va' back, ComputeClawback va T = Ok (va', back) ∧ account_wf va' ∧
    OriginalVesting va' = GetVestedCoins va T ∧ StartTime va' = StartTime va ∧ vaBase va' = vaBase va ∧
    GetVestingCoins va T = Ok back ∧ coins_ok back ∧
    ∀ d, amt (OriginalVesting va') d + amt back d = amt (OriginalVesting va) d ∧ 0 <= amt back d ∧
    ∀ t, StartTime va < t →
      amt (GetUnlockedCoins va' t) d = Z.min (amt (GetUnlockedCoins va t) d) (amt (GetVestedCoins va T) d) ∧
      (T <= t → amt (GetVestedCoins va' t) d = amt (GetVestedCoins va T) d).
Proof. apply ComputeClawback_spec. Qed.
