(* ===== verification/VestingKeeper.v ===== *)
(** * x/vesting: keeper and messages (keeper/, types/msg.go)

    The account keeper, the governance keeper and the community pool are the
    SDK's: classes with the laws the module relies on.  The module's own store is
    two sets of addresses: accounts exempt from governance clawback, and accounts
    with a clawback proposal in voting. *)

From stdpp Require Import gmap strings list sorting.
From Stdlib Require Import ZArith Lia.
From S2P Require Import Prelude Bank VestingSchedule VestingAccount.

Open Scope Z_scope.

(** Errors of the SDK and of the module. *)
Definition ErrSdkUnauthorized := Registered "sdk" 4.
Definition ErrInvalidAddress := Registered "sdk" 7.
Definition ErrUnknownAddress := Registered "sdk" 9.
Definition ErrInvalidCoins := Registered "sdk" 10.
Definition ErrInvalidRequest := Registered "sdk" 18.
Definition ErrNotSubjectToClawback := Registered "vesting" 6.
Definition ErrNotSubjectToGovClawback := Registered "vesting" 7.

(** ** Dependencies *)
Inductive AccountI :=
  | AccBase (b : BaseAccount)
  | AccClawback (va : ClawbackVestingAccount)
  | AccOther (a : addr).

Definition accAddress (ac : AccountI) : addr :=
  match ac with
  | AccBase b => baAddress b
  | AccClawback va => baAddress (vaBase va)
  | AccOther a => a
  end.

Class AccountKeeper (A : Type) := {
  akGetAccount : A → addr → option AccountI;
  akSetAccount : A → AccountI → A;
}.

Class AccountKeeperLaws {A} (K : AccountKeeper A) : Prop := {
  ak_address s a ac : akGetAccount s a = Some ac → accAddress ac = a;
  ak_set s ac b :
    akGetAccount (akSetAccount s ac) b = if decide (b = accAddress ac) then Some ac else akGetAccount s b;
}.

(** A governance proposal: its messages, of which only clawbacks matter here. *)
Record MsgClawback := mkMsgClawback { mcFunder : string; mcAccount : string; mcDest : string }.
Inductive ProposalMsg := PmClawback (m : MsgClawback) | PmOther.
Inductive ProposalStatus := StatusActive | StatusRejected.

Record Proposal := mkProposal {
  pId : Z; pMsgs : result (list ProposalMsg); pTotalDeposit : Coins;
  pFailedReason : string; pStatus : ProposalStatus;
}.

Class GovKeeper (G : Type) := {
  Proposals_Get : G → Z → result Proposal;
  Params_MinDeposit : G → result Coins;
  SetProposal : G → Proposal → result G;
}.

(** ** State and configuration *)
Record VestingCtx (B S A G : Type) := mkVestingCtx {
  vBank : B; vHooks : S; vAuth : A; vGov : G;
  GovClawbackDisabled : gset addr;
  ActiveClawbackProposal : gset addr;
}.
Arguments mkVestingCtx {B S A G}.
Arguments vBank {B S A G}.
Arguments vHooks {B S A G}.
Arguments vAuth {B S A G}.
Arguments vGov {B S A G}.
Arguments GovClawbackDisabled {B S A G}.
Arguments ActiveClawbackProposal {B S A G}.

(** [sdk.Coins] as the list the bank takes, sorted by denom. *)
Definition coinLe (p q : string * Z) : Prop := string_le p.1 q.1.
#[export] Instance coinLe_dec : RelDecision coinLe.
Proof. intros p q. unfold coinLe. apply _. Defined.
Definition coinList (c : Coins) : coins := merge_sort coinLe (map_to_list c).

Record Keeper (B S : Type) := mkKeeper {
  authority : string;
  AccAddressFromBech32 : string → option addr;
  AddressString : addr → string;       (** [AccAddress.String] *)
  IsContract : addr → bool;            (** of the EVM keeper *)
  zeroAddress : addr;                  (** 20 zero bytes *)
  FundCommunityPool : B * S → coins → addr → result unit * (B * S);
}.
Arguments mkKeeper {B S}.
Arguments authority {B S}.
Arguments AccAddressFromBech32 {B S}.
Arguments AddressString {B S}.
Arguments IsContract {B S}.
Arguments zeroAddress {B S}.
Arguments FundCommunityPool {B S}.

(** ** Messages (types/msg.go) *)
Record MsgCreate := mkMsgCreate { mkFunder : string; mkVesting : string; EnableGovClawback : bool }.
Record MsgFund := mkMsgFund {
  mfFunder : string; mfVesting : string; mfStartTime : Z; mfLockup : Periods; mfVestingPeriods : Periods;
}.
Record MsgUpdateFunder := mkMsgUpdateFunder { muFunder : string; muNewFunder : string; muVesting : string }.

Section messages.
Context {B S : Type} (k : Keeper B S).

Definition bech32 (s : string) : result addr :=
  match AccAddressFromBech32 k s with Some a => Ok a | None => Err (Plain "invalid address") end.
Definition notZero (a : addr) : result unit :=
  if decide (a = zeroAddress k) then Err ErrInvalidAddress else Ok tt.

Definition MsgCreate_ValidateBasic (m : MsgCreate) : result unit :=
  funder ← bech32 (mkFunder m); _ ← notZero funder;
  vesting ← bech32 (mkVesting m); notZero vesting.

Fixpoint periodsValidate (ps : Periods) (total : Coins) : result Coins :=
  match ps with
  | [] => Ok total
  | p :: ps =>
      if Length p <? 1 then Err ErrInvalidRequest
      else if negb (IsValid (Amount p)) then Err ErrInvalidCoins
      else periodsValidate ps (coinsAdd total (Amount p))
  end.

Definition nonEmpty (ps : Periods) : bool := match ps with [] => false | _ => true end.

Definition MsgFund_ValidateBasic (m : MsgFund) : result unit :=
  _ ← bech32 (mfFunder m);
  vesting ← bech32 (mfVesting m); _ ← notZero vesting;
  lockupCoins ← periodsValidate (mfLockup m) ∅;
  vestingCoins ← periodsValidate (mfVestingPeriods m) ∅;
  if bool_decide (lockupCoins = ∅) && bool_decide (vestingCoins = ∅) then Err ErrInvalidRequest
  else if nonEmpty (mfLockup m) && nonEmpty (mfVestingPeriods m) && negb (CoinEq lockupCoins vestingCoins)
  then Err ErrInvalidRequest
  else Ok tt.

Definition MsgClawback_ValidateBasic (m : MsgClawback) : result unit :=
  _ ← bech32 (mcFunder m); _ ← bech32 (mcAccount m);
  if decide (mcDest m = EmptyString) then Ok tt else _ ← bech32 (mcDest m); Ok tt.

Definition MsgUpdateFunder_ValidateBasic (m : MsgUpdateFunder) : result unit :=
  _ ← bech32 (muFunder m);
  newFunder ← bech32 (muNewFunder m); _ ← notZero newFunder;
  if decide (muFunder m = muNewFunder m) then Err ErrInvalidRequest
  else _ ← bech32 (muVesting m); Ok tt.

Definition MsgConvert_ValidateBasic (vesting : string) : result unit := _ ← bech32 vesting; Ok tt.
End messages.

(** ** Keeper *)
Section keeper.
Context {B S A G : Type} `{BankOps B} `{AccountKeeper A} `{GovKeeper G}.
Variable k : Keeper B S.
Variable r : Restriction B S.
Abbreviation C := (VestingCtx B S A G).
Implicit Types (w : C) (a : addr).

Definition with_bank (x : B * S) w : C :=
  mkVestingCtx x.1 x.2 (vAuth w) (vGov w) (GovClawbackDisabled w) (ActiveClawbackProposal w).
Definition with_auth (x : A) w : C :=
  mkVestingCtx (vBank w) (vHooks w) x (vGov w) (GovClawbackDisabled w) (ActiveClawbackProposal w).
Definition with_gov (x : G) w : C :=
  mkVestingCtx (vBank w) (vHooks w) (vAuth w) x (GovClawbackDisabled w) (ActiveClawbackProposal w).
Definition with_disabled (x : gset addr) w : C :=
  mkVestingCtx (vBank w) (vHooks w) (vAuth w) (vGov w) x (ActiveClawbackProposal w).
Definition with_active (x : gset addr) w : C :=
  mkVestingCtx (vBank w) (vHooks w) (vAuth w) (vGov w) (GovClawbackDisabled w) x.

(** *** keeper/gov.go *)
Definition HasGovClawbackDisabled w a : bool := bool_decide (a ∈ GovClawbackDisabled w).
Definition SetGovClawbackDisabled w a : C := with_disabled ({[a]} ∪ GovClawbackDisabled w) w.
Definition DeleteGovClawbackDisabled w a : C := with_disabled (GovClawbackDisabled w ∖ {[a]}) w.
Definition HasActiveClawbackProposal w a : bool := bool_decide (a ∈ ActiveClawbackProposal w).
Definition SetActiveClawbackProposal w a : C := with_active ({[a]} ∪ ActiveClawbackProposal w) w.
Definition DeleteActiveClawbackProposal w a : C := with_active (ActiveClawbackProposal w ∖ {[a]}) w.

(** *** keeper/utils.go *)
Definition GetClawbackVestingAccount w a : result ClawbackVestingAccount :=
  match akGetAccount (vAuth w) a with
  | None => Err ErrUnknownAddress
  | Some (AccClawback va) => Ok va
  | Some _ => Err ErrNotSubjectToClawback
  end.

(** *** keeper/msg_server.go; a malformed address panics in [Must...]. *)
Definition CreateClawbackVestingAccount w (m : MsgCreate) : result unit * C :=
  match bech32 k (mkFunder m), bech32 k (mkVesting m) with
  | Ok funder, Ok vesting =>
      if BlockedAddr vesting then (Err ErrSdkUnauthorized, w)
      else
        match akGetAccount (vAuth w) vesting with
        | None => (Err ErrInvalidRequest, w)
        | Some (AccClawback _) => (Err ErrInvalidRequest, w)
        | Some acc =>
            if IsContract k (accAddress acc) then (Err ErrInvalidRequest, w)
            else
              match acc with
              | AccBase base =>
                  let va := mkClawback base ∅ ∅ 0 (AddressString k funder) (-62135596800) [] [] in
                  let w := with_auth (akSetAccount (vAuth w) (AccClawback va)) w in
                  (Ok tt, if EnableGovClawback m then w else SetGovClawbackDisabled w (baAddress base))
              | _ => (Err ErrInvalidRequest, w)
              end
        end
  | Err e, _ => (Err e, w)
  | _, Err e => (Err e, w)
  end.

(** The defaults for a schedule that is absent. *)
Definition defaultLockup (m : MsgFund) : Periods * Coins :=
  let vestingCoins := TotalAmount (mfVestingPeriods m) in
  if negb (IsZero vestingCoins) && negb (nonEmpty (mfLockup m))
  then ([mkPeriod 0 vestingCoins], vestingCoins)
  else (mfLockup m, TotalAmount (mfLockup m)).

Definition defaultVesting (m : MsgFund) (lockupCoins : Coins) : Periods * Coins :=
  if negb (IsZero lockupCoins) && negb (nonEmpty (mfVestingPeriods m))
  then ([mkPeriod 0 lockupCoins], lockupCoins)
  else (mfVestingPeriods m, TotalAmount (mfVestingPeriods m)).

Definition FundVestingAccount w (m : MsgFund) : result unit * C :=
  match bech32 k (mfFunder m), bech32 k (mfVesting m) with
  | Ok funderAddr, Ok vestingAddr =>
      if BlockedAddr vestingAddr then (Err ErrSdkUnauthorized, w)
      else
        match GetClawbackVestingAccount w vestingAddr with
        | Err e => (Err e, w)
        | Ok va =>
            let '(lockup, lockupCoins) := defaultLockup m in
            let '(vesting, vestingCoins) := defaultVesting m lockupCoins in
            if decide (mfFunder m ≠ FunderAddress va) then (Err ErrInvalidRequest, w)
            else
              match AddGrant va (mfStartTime m) lockup vesting vestingCoins with
              | Err e => (Err e, w)
              | Ok va =>
                  let w := with_auth (akSetAccount (vAuth w) (AccClawback va)) w in
                  let '(res, x) := SendCoins r (vBank w, vHooks w) funderAddr vestingAddr (coinList vestingCoins) in
                  (res, with_bank x w)
              end
        end
  | Err e, _ => (Err e, w)
  | _, Err e => (Err e, w)
  end.

Definition DistributionModule : string := "distribution".

(** The clawed back coins are part of the answer even when the transfer fails. *)
Definition transferClawback (blockTime : Z) w (va : ClawbackVestingAccount) (dest : addr)
    : result Coins * C :=
  match ComputeClawback va blockTime with
  | Err e => (Err e, w)
  | Ok (updated, toClawBack) =>
      let w := with_auth (akSetAccount (vAuth w) (AccBase (vaBase updated))) w in
      let address := baAddress (vaBase updated) in
      let w := DeleteGovClawbackDisabled w address in
      let '(res, x) :=
        if decide (dest = ModuleAddress DistributionModule)
        then FundCommunityPool k (vBank w, vHooks w) (coinList toClawBack) address
        else SendCoins r (vBank w, vHooks w) address dest (coinList toClawBack) in
      (_ ← res; Ok toClawBack, with_bank x w)
  end.

(** The destination named in the message, the funder without one. *)
Definition clawbackDest (m : MsgClawback) (funder : addr) : addr :=
  if decide (mcDest m = EmptyString) then funder
  else default EmptyString (AccAddressFromBech32 k (mcDest m)).

Definition Clawback (blockTime : Z) w (m : MsgClawback) : result Coins * C :=
  match bech32 k (mcAccount m), bech32 k (mcFunder m) with
  | Ok a, Ok funder =>
      let dest := clawbackDest m funder in
      let isGov := bool_decide (mcFunder m = authority k) in
      if negb isGov && HasActiveClawbackProposal w a then (Err ErrSdkUnauthorized, w)
      else if negb isGov && BlockedAddr dest then (Err ErrSdkUnauthorized, w)
      else
        match GetClawbackVestingAccount w a with
        | Err e => (Err e, w)
        | Ok va =>
            if negb (nonEmpty (VestingPeriods va)) && negb (nonEmpty (LockupPeriods va))
            then (Err ErrInvalidRequest, w)
            else if isGov then
              if HasGovClawbackDisabled w a then (Err ErrNotSubjectToGovClawback, w)
              else transferClawback blockTime w va (ModuleAddress DistributionModule)
            else if decide (FunderAddress va ≠ mcFunder m) then (Err ErrSdkUnauthorized, w)
            else transferClawback blockTime w va dest
        end
  | Err e, _ => (Err e, w)
  | _, Err e => (Err e, w)
  end.

Definition with_Funder (f : string) (va : ClawbackVestingAccount) : ClawbackVestingAccount :=
  mkClawback (vaBase va) (OriginalVesting va) (DelegatedFree va) (EndTime va) f (StartTime va)
    (LockupPeriods va) (VestingPeriods va).

Definition UpdateVestingFunder w (m : MsgUpdateFunder) : result unit * C :=
  match bech32 k (muNewFunder m), bech32 k (muVesting m) with
  | Ok newFunder, Ok a =>
      if HasActiveClawbackProposal w a then (Err ErrSdkUnauthorized, w)
      else if BlockedAddr newFunder then (Err ErrSdkUnauthorized, w)
      else
        match GetClawbackVestingAccount w a with
        | Err e => (Err e, w)
        | Ok va =>
            if decide (FunderAddress va ≠ muFunder m) then (Err ErrSdkUnauthorized, w)
            else (Ok tt, with_auth (akSetAccount (vAuth w) (AccClawback (with_Funder (muNewFunder m) va))) w)
        end
  | Err e, _ => (Err e, w)
  | _, Err e => (Err e, w)
  end.

Definition ConvertVestingAccount (blockTime : Z) w (vesting : string) : result unit * C :=
  match bech32 k vesting with
  | Err e => (Err e, w)
  | Ok a =>
      match GetClawbackVestingAccount w a with
      | Err e => (Err e, w)
      | Ok va =>
          match GetVestingCoins va blockTime, HasLockedCoins va blockTime with
          | Ok unvested, locked =>
              if negb (IsZero unvested) then (Err ErrInvalidRequest, w)
              else match locked with
                   | Err e => (Err e, w)
                   | Ok true => (Err ErrInvalidRequest, w)
                   | Ok false =>
                       let w := DeleteGovClawbackDisabled w a in
                       (Ok tt, with_auth (akSetAccount (vAuth w) (AccBase (vaBase va))) w)
                   end
          | Err e, _ => (Err e, w)
          end
      end
  end.

(** *** keeper/grpc_query.go: locked, unvested, vested *)
Definition Balances (blockTime : Z) w (address : string) : result (Coins * Coins * Coins) :=
  a ← bech32 k address;
  match GetClawbackVestingAccount w a with
  | Err _ => Err (Plain "either does not exist or is not a vesting account")
  | Ok va =>
      locked ← GetLockedUpCoins va blockTime;
      unvested ← GetVestingCoins va blockTime;
      Ok (locked, unvested, GetVestedCoins va blockTime)
  end.

(** *** keeper/hooks.go *)
Definition getClawbackProposals (p : Proposal) : result (list MsgClawback) :=
  msgs ← pMsgs p;
  match msgs with
  | [] => Err (Plain "proposal has no messages")
  | _ => Ok (omap (fun m => match m with PmClawback c => Some c | PmOther => None end) msgs)
  end.

(** [minDeposit.IsAllGT(totalDeposit)], which is [totalDeposit.IsAllLT(minDeposit)]. *)
Definition IsAllGT (c d : Coins) : bool :=
  if decide (c = ∅) then false
  else if decide (d = ∅) then true
  else bool_decide (map_Forall (fun n x => is_Some (c !! n) ∧ x < amt c n) d).

(** The loop over the proposal's clawbacks; [active] are those flagged so far. *)
Fixpoint depositLoop w (p : Proposal) (cps : list MsgClawback) (active : list addr) : result unit * C :=
  match cps with
  | [] => (Ok tt, w)
  | cp :: cps =>
      match bech32 k (mcAccount cp) with
      | Err e => (Err e, w)
      | Ok a =>
          if HasGovClawbackDisabled w a then
            let p := mkProposal (pId p) (pMsgs p) (pTotalDeposit p)
                       ("vesting account " +:+ AddressString k a +:+ " has governance clawback disabled") StatusRejected in
            match SetProposal (vGov w) p with
            | Err e => (Err e, w)
            | Ok g => (Ok tt, foldl DeleteActiveClawbackProposal (with_gov g w) active)
            end
          else depositLoop (SetActiveClawbackProposal w a) p cps (active ++ [a])
      end
  end.

Definition AfterProposalDeposit w (proposalID : Z) : result unit * C :=
  match Proposals_Get (vGov w) proposalID with
  | Err e => (Err e, w)
  | Ok p =>
      match getClawbackProposals p with
      | Err e => (Err e, w)
      | Ok [] => (Ok tt, w)
      | Ok cps =>
          match Params_MinDeposit (vGov w) with
          | Err e => (Err e, w)
          | Ok minDeposit =>
              if IsAllGT minDeposit (pTotalDeposit p) then (Ok tt, w)
              else depositLoop w p cps []
          end
      end
  end.

Fixpoint endLoop w (cps : list MsgClawback) : result unit * C :=
  match cps with
  | [] => (Ok tt, w)
  | cp :: cps =>
      match bech32 k (mcAccount cp) with
      | Err e => (Err e, w)
      | Ok a => endLoop (DeleteActiveClawbackProposal w a) cps
      end
  end.

Definition AfterProposalVotingPeriodEnded w (proposalID : Z) : result unit * C :=
  match Proposals_Get (vGov w) proposalID with
  | Err e => (Err e, w)
  | Ok p =>
      match getClawbackProposals p with
      | Err e => (Err e, w)
      | Ok cps => endLoop w cps
      end
  end.
End keeper.
