(* ===== verification/VestingSafety.v ===== *)
(** * x/vesting: what the handlers and the governance hooks guarantee

    A grant moves exactly its coins from the funder into the account, a clawback
    moves exactly the unvested ones out of it and only for who may ask for it, and
    an account under a clawback proposal is out of its funder's reach. *)

From stdpp Require Import gmap strings list sorting.
From Stdlib Require Import ZArith Lia.
From S2P Require Import Prelude Bank VestingSchedule VestingAccount VestingKeeper.

Open Scope Z_scope.

(** ** Coins as the bank takes them *)
Lemma AmountOf_perm cs cs' d : cs ≡ₚ cs' → AmountOf cs d = AmountOf cs' d.
Proof.
induction 1 as [|[n x] l l' _ IH|[n x] [n' x'] l|l l' l'' _ IH _ IH']; [done| | |congruence].
- by rewrite !AmountOf_cons, IH.
- rewrite !AmountOf_cons. lia.
Qed.

Lemma AmountOf_map c d : AmountOf (map_to_list c) d = amt c d.
Proof.
induction c as [|n x c Hn IH] using map_ind; [by rewrite map_to_list_empty, amt_empty|].
rewrite (AmountOf_perm _ _ d (map_to_list_insert c n x Hn)). unfold amt in *.
rewrite AmountOf_cons, IH. destruct (decide (n = d)) as [->|Hne].
- rewrite lookup_insert_eq, Hn. simpl. lia.
- rewrite lookup_insert_ne by done. lia.
Qed.

Lemma AmountOf_coinList c d : AmountOf (coinList c) d = amt c d.
Proof. unfold coinList. rewrite (AmountOf_perm _ _ d (merge_sort_Permutation _ _)). apply AmountOf_map. Qed.

Lemma coinList_valid c : (∀ d, 0 <= amt c d) → coins_valid (coinList c).
Proof.
intros Hc. unfold coins_valid, coinList. rewrite merge_sort_Permutation. apply Forall_forall. intros [n x] Hin.
apply elem_of_map_to_list in Hin. specialize (Hc n). unfold amt in Hc. by rewrite Hin in Hc.
Qed.

(** ** The grant of a valid message *)
Lemma periodsValidate_spec ps : ∀ c total, periodsValidate ps c = Ok total → coins_ok c →
  Forall period_ok ps ∧ coins_ok total ∧ ∀ d, amt total d = amt c d + sumAmt ps d.
Proof.
induction ps as [|p ps IH]; intros c total Hv Hc; simpl in Hv; inv_ok.
- split_and!; [constructor|done|]. intros d. unfold sumAmt. simpl. lia.
- boolP. apply bool_decide_eq_true in Heqb0. change (coins_ok (Amount p)) in Heqb0.
  apply IH in Hv as (H1 & H2 & H3); [|by apply coins_ok_add]. split_and!; [|done|].
  + constructor; [|done]. split; [lia|done].
  + intros d. rewrite H3, amt_add. unfold sumAmt. simpl. lia.
Qed.

Lemma coins_ok_nonzero c : coins_ok c → IsZero c = bool_decide (c = ∅).
Proof.
intros Hc. apply eq_true_iff_eq. rewrite IsZero_spec, bool_decide_eq_true. split.
- intros Hz. apply coins_ext; [done|apply coins_ok_empty|]. intros d. by rewrite Hz, amt_empty.
- intros -> d. apply amt_empty.
Qed.

(** The schedules and the coins a fund message grants, defaults filled in. *)
Definition granted (m : MsgFund) : Periods * Periods * Coins :=
  let '(lockup, lockupCoins) := defaultLockup m in
  let '(vesting, vestingCoins) := defaultVesting m lockupCoins in (lockup, vesting, vestingCoins).

Lemma instant_sched start c : time_ok start → coins_ok c →
  sched_ok start [mkPeriod 0 c] ∧ ∀ d, sumAmt [mkPeriod 0 c] d = amt c d.
Proof.
intros Ht Hc. split; [split; [|done|]|].
- repeat constructor; simpl; [lia|done].
- unfold sumLen. simpl. by rewrite Z.add_0_r.
- intros d. unfold sumAmt. simpl. lia.
Qed.

Lemma TotalAmount_valid ps c : periodsValidate ps ∅ = Ok c → TotalAmount ps = c ∧ coins_ok c ∧ Forall period_ok ps.
Proof.
intros Hv. destruct (periodsValidate_spec _ _ _ Hv coins_ok_empty) as (H1 & H2 & H3). split; [|done].
apply coins_ext; [by apply TotalAmount_ok|done|]. intros d. rewrite TotalAmount_spec, H3, amt_empty. lia.
Qed.

Lemma granted_ok {B S} (k : Keeper B S) m lockup vesting coins :
  MsgFund_ValidateBasic k m = Ok tt →
  time_ok (mfStartTime m) → time_ok (mfStartTime m + sumLen (mfLockup m)) →
  time_ok (mfStartTime m + sumLen (mfVestingPeriods m)) →
  granted m = (lockup, vesting, coins) →
  sched_ok (mfStartTime m) lockup ∧ sched_ok (mfStartTime m) vesting ∧ coins_ok coins ∧ coins ≠ ∅ ∧
  (∀ d, sumAmt lockup d = amt coins d) ∧ (∀ d, sumAmt vesting d = amt coins d).
Proof.
unfold MsgFund_ValidateBasic, granted, defaultLockup, defaultVesting. intros Hv Ht Hl Hve Hg. inv_ok.
destruct (TotalAmount_valid _ _ H2) as (EL & OL & FL). destruct (TotalAmount_valid _ _ H3) as (EV & OV & FV).
assert (SL : sched_ok (mfStartTime m) (mfLockup m)) by done.
assert (SV : sched_ok (mfStartTime m) (mfVestingPeriods m)) by done.
pose proof (TotalAmount_spec (mfLockup m)) as TL. pose proof (TotalAmount_spec (mfVestingPeriods m)) as TV.
rewrite EL in TL, Hg. rewrite EV in TV, Hg. clear EL EV. rewrite !(coins_ok_nonzero _ OV) in Hg.
destruct (instant_sched _ _ Ht OL) as [IL1 IL2]. destruct (instant_sched _ _ Ht OV) as [IV1 IV2].
destruct (mfLockup m) as [|l0 ls], (mfVestingPeriods m) as [|v0 vs];
  cbn [nonEmpty negb andb] in *; rewrite ?andb_true_r, ?andb_false_r in Hg.
- cbn in H2, H3. inv_ok. done.
- cbn in H2. inv_ok. rewrite (bool_decide_true (∅ = ∅)), andb_true_l in Heqb by done. rewrite Heqb in Hg. cbn in Hg. rewrite andb_false_r in Hg. inv_ok.
  apply bool_decide_eq_false in Heqb. split_and!; done.
- cbn in H3. inv_ok. rewrite (bool_decide_true (∅ = ∅)), andb_true_r in Heqb by done.
  rewrite coins_ok_nonzero, Heqb in Hg by done. cbn in Hg. inv_ok.
  apply bool_decide_eq_false in Heqb. split_and!; done.
- boolP. apply CoinEq_spec in Heqb0; [|done|done]. subst. inv_ok. rewrite andb_diag in Heqb.
  apply bool_decide_eq_false in Heqb. split_and!; done.
Qed.

(** ** Handlers *)

(** [c] moved from one account to another and nothing else changed in the bank. *)
Definition moved {B} {ops : BankOps B} (b b' : B) (from to : addr) (c : Coins) : Prop :=
  (∀ d, amt c d <= GetBalance b from d) ∧
  (∀ a d, GetBalance b' a d = GetBalance b a d - at_addr from a (amt c d) + at_addr to a (amt c d)) ∧
  ∀ d, GetSupply b' d = GetSupply b d.

(** What the distribution keeper documents of [FundCommunityPool]: the coins go
    from the sender to the distribution module. *)
Definition FundsPool {B S} {ops : BankOps B} (k : Keeper B S) : Prop :=
  ∀ b s c a w', (∀ d, 0 <= amt c d) → FundCommunityPool k (b, s) (coinList c) a = (Ok tt, w') →
    moved b w'.1 a (ModuleAddress DistributionModule) c.

(** Restrictions that refuse or let pass. *)
Definition passes {B S} (r : Restriction B S) : Prop :=
  ∀ w from to cs x w', r w from to cs = (Ok x, w') → x = to ∧ w'.1 = w.1.

Section handlers.
Context {B S A G : Type} {ops : BankOps B} {laws : BankLaws ops}.
Context {ak : AccountKeeper A} {akl : AccountKeeperLaws ak} {gk : GovKeeper G}.
Variable k : Keeper B S.
Variable r : Restriction B S.
Hypothesis r_passes : passes r.
Implicit Types (w : VestingCtx B S A G) (a : addr).

Lemma send_moved b s from to c (w' : B * S) :
  (∀ d, 0 <= amt c d) → SendCoins r (b, s) from to (coinList c) = (Ok tt, w') → moved b w'.1 from to c.
Proof.
intros Hc Hs. destruct w' as [b' s']. apply send_balances in Hs as (H1 & H2 & H3);
  [|by apply coinList_valid|exact r_passes]. unfold moved. simpl.
split_and!; [intros d|intros a d|done]; rewrite <- ?AmountOf_coinList; done.
Qed.

Lemma GetClawbackVestingAccount_Ok w a va :
  GetClawbackVestingAccount w a = Ok va ↔ akGetAccount (vAuth w) a = Some (AccClawback va).
Proof. unfold GetClawbackVestingAccount. destruct (akGetAccount _ _) as [[]|]; naive_solver. Qed.

(** What funding a vesting account does.  Only the account's own funder can, and
    then exactly the coins of the grant move from the funder to the account, which
    stays well-formed and holds the old grants and the new one; no other account
    and none of the clawback flags change. *)
Theorem FundVestingAccount_effect w m w' a va :
  MsgFund_ValidateBasic k m = Ok tt →
  time_ok (mfStartTime m) → time_ok (mfStartTime m + sumLen (mfLockup m)) →
  time_ok (mfStartTime m + sumLen (mfVestingPeriods m)) →
  AccAddressFromBech32 k (mfVesting m) = Some a →
  akGetAccount (vAuth w) a = Some (AccClawback va) → account_wf va →
  FundVestingAccount k r w m = (Ok tt, w') →
  mfFunder m = FunderAddress va ∧ BlockedAddr a = false ∧
  ∃ funder lockup vesting coins va',
    AccAddressFromBech32 k (mfFunder m) = Some funder ∧ granted m = (lockup, vesting, coins) ∧ coins ≠ ∅ ∧
    moved (vBank w) (vBank w') funder a coins ∧
    akGetAccount (vAuth w') a = Some (AccClawback va') ∧ account_wf va' ∧
    AddGrant va (mfStartTime m) lockup vesting coins = Ok va' ∧
    (∀ d, amt (OriginalVesting va') d = amt (OriginalVesting va) d + amt coins d) ∧
    (∀ b, b ≠ a → akGetAccount (vAuth w') b = akGetAccount (vAuth w) b) ∧
    GovClawbackDisabled w' = GovClawbackDisabled w ∧ ActiveClawbackProposal w' = ActiveClawbackProposal w.
Proof.
intros Hv T1 T2 T3 Ha Hacc Hwf Hf. unfold FundVestingAccount, bech32 in Hf. rewrite Ha in Hf.
destruct (AccAddressFromBech32 k (mfFunder m)) as [funder|] eqn:Ef; [|done].
destruct (BlockedAddr a) eqn:Eb; [done|]. rewrite (proj2 (GetClawbackVestingAccount_Ok w a va) Hacc) in Hf.
destruct (defaultLockup m) as [lockup lc] eqn:E1. destruct (defaultVesting m lc) as [vesting coins] eqn:E2.
assert (Hg : granted m = (lockup, vesting, coins)) by (unfold granted; by rewrite E1, E2).
destruct (granted_ok k m _ _ _ Hv T1 T2 T3 Hg) as (G1 & G2 & G3 & G4 & G5 & G6).
case_decide as Hfu; [done|].
destruct (AddGrant_spec va _ _ _ coins Hwf G1 G2 G3 G5 G6) as (va' & Hadd & Hwf' & _ & _ & Hbase & _ & Htot).
rewrite Hadd in Hf. destruct (SendCoins _ _ _ _ _) as [res x] eqn:Es. cbn in Hf, Es. inv_ok.
pose proof (ak_address _ _ _ Hacc) as Haddr. cbn in Haddr.
split; [done|]. split; [done|]. exists funder, lockup, vesting, coins, va'.
repeat match goal with |- _ ∧ _ => split end; try done; cbn.
- apply (send_moved _ _ _ _ _ _ (fun d => amt_nonneg _ d G3) Es).
- rewrite ak_set. cbn. by rewrite Hbase, decide_True.
- intros d. apply Htot.
- intros b Hb. rewrite ak_set. cbn. rewrite Hbase, Haddr. by rewrite decide_False.
Qed.

Lemma transferClawback_effect T w va dest back w' a :
  FundsPool k → akGetAccount (vAuth w) a = Some (AccClawback va) → account_wf va → time_ok T →
  transferClawback k r T w va dest = (Ok back, w') →
  GetVestingCoins va T = Ok back ∧ coins_ok back ∧ moved (vBank w) (vBank w') a dest back ∧
  akGetAccount (vAuth w') a = Some (AccBase (vaBase va)) ∧
  (∀ b, b ≠ a → akGetAccount (vAuth w') b = akGetAccount (vAuth w) b) ∧
  GovClawbackDisabled w' = GovClawbackDisabled w ∖ {[a]} ∧ ActiveClawbackProposal w' = ActiveClawbackProposal w.
Proof.
intros Hpool Hacc Hwf HT Ht. unfold transferClawback in Ht.
destruct (ComputeClawback_spec va T Hwf HT) as (va' & c & Hc & _ & _ & _ & Hbase & Hv & Hok & _).
rewrite Hc in Ht. pose proof (ak_address _ _ _ Hacc) as Haddr. cbn in Haddr. rewrite Hbase, Haddr in Ht.
assert (Hn : ∀ d, 0 <= amt c d) by (intros; by apply amt_nonneg).
assert (Hset : ∀ b, akGetAccount (akSetAccount (vAuth w) (AccBase (vaBase va))) b =
  if decide (b = a) then Some (AccBase (vaBase va)) else akGetAccount (vAuth w) b).
{ intros b. rewrite ak_set. cbn. by rewrite Haddr. }
case_decide as Hd.
- destruct (FundCommunityPool _ _ _ _) as [res x] eqn:Es. cbn in Ht, Es. inv_ok. destruct x0.
  split_and!; try done; cbn.
  + by apply (Hpool _ _ _ _ _ Hn Es).
  + rewrite Hset. by rewrite decide_True.
  + intros b Hb. rewrite Hset. by rewrite decide_False.
- destruct (SendCoins _ _ _ _ _) as [res x] eqn:Es. cbn in Ht, Es. inv_ok. destruct x0.
  split_and!; try done; cbn.
  + apply (send_moved _ _ _ _ _ _ Hn Es).
  + rewrite Hset. by rewrite decide_True.
  + intros b Hb. rewrite Hset. by rewrite decide_False.
Qed.


(** Conversion back to an ordinary account is refused while anything is unvested
    or locked up, and then changes nothing; otherwise it succeeds and moves no coin. *)
Theorem ConvertVestingAccount_effect T w vesting a va :
  AccAddressFromBech32 k vesting = Some a → akGetAccount (vAuth w) a = Some (AccClawback va) → account_wf va →
  let held := ∃ d, amt (GetVestedCoins va T) d < amt (OriginalVesting va) d ∨
                   amt (GetUnlockedCoins va T) d < amt (OriginalVesting va) d in
  let '(res, w') := ConvertVestingAccount k T w vesting in
  (held → res = Err ErrInvalidRequest ∧ w' = w) ∧
  (¬ held → res = Ok tt ∧ vBank w' = vBank w ∧ akGetAccount (vAuth w') a = Some (AccBase (vaBase va)) ∧
    (∀ b, b ≠ a → akGetAccount (vAuth w') b = akGetAccount (vAuth w) b) ∧
    GovClawbackDisabled w' = GovClawbackDisabled w ∖ {[a]}).
Proof.
intros Ha Hacc Hwf. unfold ConvertVestingAccount, bech32, HasLockedCoins. rewrite Ha.
rewrite (proj2 (GetClawbackVestingAccount_Ok w a va) Hacc).
destruct (GetVestingCoins_spec va Hwf T) as (c & -> & Hcok & Hc).
destruct (GetLockedUpCoins_spec va Hwf T) as (l & -> & Hlok & Hl). cbn.
pose proof (ak_address _ _ _ Hacc) as Haddr. cbn in Haddr.
destruct (IsZero c) eqn:Ec; cbn; [|split; [done|]].
- destruct (IsZero l) eqn:El; cbn; [|split; [done|]].
  + rewrite IsZero_spec in Ec, El. split.
    * intros (d & [Hd|Hd]); [specialize (Ec d); rewrite Hc in Ec|specialize (El d); rewrite Hl in El]; lia.
    * intros _. split_and!; try done; [|intros b Hb]; rewrite ak_set; cbn; rewrite Haddr;
        [by rewrite decide_True|by rewrite decide_False].
  + intros Hh. exfalso. apply not_true_iff_false in El. apply El, IsZero_spec. intros d.
    pose proof (amt_nonneg _ d Hlok) as Hp. rewrite Hl in *.
    destruct (decide (amt (GetUnlockedCoins va T) d < amt (OriginalVesting va) d)); [|lia]. exfalso. naive_solver.
- intros Hh. exfalso. apply not_true_iff_false in Ec. apply Ec, IsZero_spec. intros d.
  pose proof (amt_nonneg _ d Hcok) as Hp. rewrite Hc in *.
  destruct (decide (amt (GetVestedCoins va T) d < amt (OriginalVesting va) d)); [|lia]. exfalso. naive_solver.
Qed.

End handlers.

(** ** Proposals and the account invariant *)
Section proposals.
Context {B S A G : Type} {ops : BankOps B} {ak : AccountKeeper A} {akl : AccountKeeperLaws ak} {gk : GovKeeper G}.
Variable k : Keeper B S.
Variable r : Restriction B S.
Implicit Types (w : VestingCtx B S A G) (a : addr).


(** The addresses a list of clawbacks is about; malformed ones are left out. *)
Definition subjects (cps : list MsgClawback) : list addr := omap (fun cp => AccAddressFromBech32 k (mcAccount cp)) cps.

(** The proposal as the deposit hook cancels it. *)
Definition cancelled (p : Proposal) (a : addr) : Proposal :=
  mkProposal (pId p) (pMsgs p) (pTotalDeposit p)
    ("vesting account " +:+ AddressString k a +:+ " has governance clawback disabled") StatusRejected.

Lemma fold_delete_active l : ∀ w, foldl DeleteActiveClawbackProposal w l =
  with_active (ActiveClawbackProposal w ∖ list_to_set l) w.
Proof.
induction l as [|a l IH]; intros w; simpl.
- destruct w. unfold with_active. simpl. f_equal. set_solver.
- rewrite IH. unfold DeleteActiveClawbackProposal, with_active. simpl. f_equal. set_solver.
Qed.

Lemma depositLoop_spec p cps : ∀ w active w',
  depositLoop k w p cps active = (Ok tt, w') →
  (Forall (fun cp => is_Some (AccAddressFromBech32 k (mcAccount cp))) cps ∧
   w' = with_active (list_to_set (subjects cps) ∪ ActiveClawbackProposal w) w) ∨
  ∃ pre a g, a ∈ subjects cps ∧ a ∈ GovClawbackDisabled w ∧ pre `prefix_of` subjects cps ∧
    SetProposal (vGov w) (cancelled p a) = Ok g ∧
    w' = with_active ((list_to_set pre ∪ ActiveClawbackProposal w) ∖ list_to_set (active ++ pre)) (with_gov g w).
Proof.
induction cps as [|cp cps IH]; intros w active w' Hl; simpl in Hl.
- inv_ok. left. split; [constructor|]. destruct w'. unfold with_active, subjects. simpl. f_equal. set_solver.
- unfold bech32 in Hl. destruct (AccAddressFromBech32 k (mcAccount cp)) as [a|] eqn:Ea; [|done].
  assert (Hsub : subjects (cp :: cps) = a :: subjects cps) by (unfold subjects; simpl; by rewrite Ea).
  unfold HasGovClawbackDisabled in Hl. case_bool_decide as Hd.
  + right. exists [], a. destruct (SetProposal _ _) as [g|] eqn:Eg; [|done]. exists g. rewrite Hsub. inv_ok.
    split_and!; [set_solver|done|apply prefix_nil|done|]. rewrite fold_delete_active. unfold with_active. simpl.
    f_equal. rewrite app_nil_r. set_solver.
  + apply IH in Hl as [(Hf & ->)|(pre & b & g & H1 & H2 & H3 & H4 & ->)]; [left|right].
    * split; [constructor; [by eexists|done]|]. rewrite Hsub. unfold with_active. simpl. f_equal. set_solver.
    * exists (a :: pre), b, g. rewrite Hsub. split_and!; [set_solver|done|by apply prefix_cons|done|].
      unfold with_active. simpl. f_equal. set_solver.
Qed.

(** The exact effect of a deposit that completes the minimum: every account of the
    proposal is flagged; or one of them has opted out, and then the proposal is
    saved as rejected and none of its accounts that came before is left flagged. *)
Lemma AfterProposalDeposit_effect w id w' p cps minDeposit :
  Proposals_Get (vGov w) id = Ok p → getClawbackProposals p = Ok cps → cps ≠ [] →
  Params_MinDeposit (vGov w) = Ok minDeposit → IsAllGT minDeposit (pTotalDeposit p) = false →
  AfterProposalDeposit k w id = (Ok tt, w') →
  (Forall (fun cp => is_Some (AccAddressFromBech32 k (mcAccount cp))) cps ∧
   w' = with_active (list_to_set (subjects cps) ∪ ActiveClawbackProposal w) w) ∨
  ∃ pre a g, a ∈ subjects cps ∧ a ∈ GovClawbackDisabled w ∧ pre `prefix_of` subjects cps ∧
    SetProposal (vGov w) (cancelled p a) = Ok g ∧
    w' = with_active (ActiveClawbackProposal w ∖ list_to_set pre) (with_gov g w).
Proof.
intros Hp Hc Hne Hm Hd Hh. unfold AfterProposalDeposit in Hh. rewrite Hp, Hc, Hm, Hd in Hh.
assert (Hl : depositLoop k w p cps [] = (Ok tt, w')) by (destruct cps; done).
apply depositLoop_spec in Hl as [?|(pre & a & g & ? & ? & ? & ? & ->)]; [by left|right].
exists pre, a, g. split_and!; try done. unfold with_active. simpl. f_equal. set_solver.
Qed.

Lemma endLoop_spec cps : ∀ w w', endLoop k w cps = (Ok tt, w') →
  w' = with_active (ActiveClawbackProposal w ∖ list_to_set (subjects cps)) w.
Proof.
induction cps as [|cp cps IH]; intros w w' Hl; simpl in Hl.
- inv_ok. destruct w'. unfold with_active. simpl. f_equal. set_solver.
- unfold bech32 in Hl. destruct (AccAddressFromBech32 k (mcAccount cp)) as [a|] eqn:Ea; [|done].
  apply IH in Hl as ->. unfold subjects. simpl. rewrite Ea. unfold with_active. simpl. f_equal. set_solver.
Qed.

(** An account under a proposal is out of its funder's reach. *)
Lemma active_blocks T w a :
  a ∈ ActiveClawbackProposal w →
  (∀ m, AccAddressFromBech32 k (mcAccount m) = Some a → mcFunder m ≠ authority k →
    ∃ e, Clawback k r T w m = (Err e, w)) ∧
  (∀ m, AccAddressFromBech32 k (muVesting m) = Some a → ∃ e, UpdateVestingFunder k w m = (Err e, w)).
Proof.
intros Ha. split; intros m Hm.
- intros Hf. unfold Clawback, bech32, HasActiveClawbackProposal. rewrite Hm.
  destruct (AccAddressFromBech32 k (mcFunder m)); [|eauto].
  rewrite bool_decide_false, bool_decide_true by done. simpl. eauto.
- unfold UpdateVestingFunder, bech32, HasActiveClawbackProposal. rewrite Hm.
  destruct (AccAddressFromBech32 k (muNewFunder m)); [|eauto]. rewrite bool_decide_true by done. eauto.
Qed.

(** Once a deposit completes the minimum, either the proposal is rejected because
    it names an account that opted out, and no account is newly flagged; or for
    every account it names neither a clawback by the funder nor a change of funder
    gets through, until the end of the vote clears exactly these accounts. *)
Theorem proposal_protects T w id w' p cps minDeposit :
  Proposals_Get (vGov w) id = Ok p → getClawbackProposals p = Ok cps → cps ≠ [] →
  Params_MinDeposit (vGov w) = Ok minDeposit → IsAllGT minDeposit (pTotalDeposit p) = false →
  AfterProposalDeposit k w id = (Ok tt, w') →
  (∃ a g, a ∈ subjects cps ∧ a ∈ GovClawbackDisabled w ∧ SetProposal (vGov w) (cancelled p a) = Ok g ∧
     vGov w' = g ∧ vAuth w' = vAuth w ∧ ActiveClawbackProposal w' ⊆ ActiveClawbackProposal w) ∨
  (vGov w' = vGov w ∧ vAuth w' = vAuth w ∧
   ∀ cp, cp ∈ cps → ∃ a, AccAddressFromBech32 k (mcAccount cp) = Some a ∧
     (∀ m, AccAddressFromBech32 k (mcAccount m) = Some a → mcFunder m ≠ authority k →
        ∃ e, Clawback k r T w' m = (Err e, w')) ∧
     (∀ m, AccAddressFromBech32 k (muVesting m) = Some a → ∃ e, UpdateVestingFunder k w' m = (Err e, w')) ∧
     (∀ w'', AfterProposalVotingPeriodEnded k w' id = (Ok tt, w'') →
        ActiveClawbackProposal w'' = ActiveClawbackProposal w ∖ list_to_set (subjects cps))).
Proof.
intros Hp Hc Hne Hm Hd Hh.
destruct (AfterProposalDeposit_effect w id w' p cps minDeposit) as [[Hf ->]|(pre & a & g & Ha & Hdis & _ & Hg & ->)];
  try done; [right|left].
- split; [done|]. split; [done|]. intros cp Hcp. rewrite Forall_forall in Hf. destruct (Hf cp Hcp) as [a Ha].
  exists a. split; [done|].
  assert (Hact : a ∈ ActiveClawbackProposal (with_active (list_to_set (subjects cps) ∪ ActiveClawbackProposal w) w)).
  { simpl. apply elem_of_union_l, elem_of_list_to_set, list_elem_of_omap. by exists cp. }
  destruct (active_blocks T _ _ Hact) as [B1 B2]. split; [exact B1|]. split; [exact B2|]. intros w'' He.
  unfold AfterProposalVotingPeriodEnded in He. cbn [vGov with_active] in He. rewrite Hp, Hc in He.
  apply endLoop_spec in He as ->. simpl. set_solver.
- exists a, g. split_and!; try done. simpl. set_solver.
Qed.

(** *** Every vesting account of the chain is well-formed *)
Inductive message :=
  | VmCreate (m : MsgCreate)
  | VmFund (m : MsgFund)
  | VmClawback (m : MsgClawback)
  | VmUpdateFunder (m : MsgUpdateFunder)
  | VmConvert (vesting : string)
  | VmDeposit (proposalID : Z)
  | VmVoteEnded (proposalID : Z).

Definition discard {X} (r : result X) : result unit := _ ← r; Ok tt.

(** A message at a block time, after its [ValidateBasic]. *)
Definition deliver (T : Z) w (msg : message) : result unit * VestingCtx B S A G :=
  match msg with
  | VmCreate m =>
      match MsgCreate_ValidateBasic k m with
      | Err e => (Err e, w) | Ok _ => CreateClawbackVestingAccount k w m end
  | VmFund m =>
      match MsgFund_ValidateBasic k m with
      | Err e => (Err e, w) | Ok _ => FundVestingAccount k r w m end
  | VmClawback m =>
      match MsgClawback_ValidateBasic k m with
      | Err e => (Err e, w) | Ok _ => let '(res, w) := Clawback k r T w m in (discard res, w) end
  | VmUpdateFunder m =>
      match MsgUpdateFunder_ValidateBasic k m with
      | Err e => (Err e, w) | Ok _ => UpdateVestingFunder k w m end
  | VmConvert v =>
      match MsgConvert_ValidateBasic k v with
      | Err e => (Err e, w) | Ok _ => ConvertVestingAccount k T w v end
  | VmDeposit id => AfterProposalDeposit k w id
  | VmVoteEnded id => AfterProposalVotingPeriodEnded k w id
  end.

(** The times of a grant are dates: they and their sums fit an [int64]. *)
Definition dated (msg : message) : Prop :=
  match msg with
  | VmFund m => time_ok (mfStartTime m) ∧ time_ok (mfStartTime m + sumLen (mfLockup m)) ∧
                time_ok (mfStartTime m + sumLen (mfVestingPeriods m))
  | _ => True
  end.

Definition accounts_wf w : Prop := ∀ a va, akGetAccount (vAuth w) a = Some (AccClawback va) → account_wf va.

Lemma accounts_wf_same w w' : vAuth w' = vAuth w → accounts_wf w → accounts_wf w'.
Proof. unfold accounts_wf. by intros ->. Qed.

Lemma accounts_wf_set w w' ac : vAuth w' = akSetAccount (vAuth w) ac →
  (∀ va, ac = AccClawback va → account_wf va) → accounts_wf w → accounts_wf w'.
Proof.
intros E Hac Hw a va. rewrite E, ak_set. case_decide; [|apply Hw]. intros [= ->]. by apply Hac.
Qed.

Lemma fresh_wf base funder : account_wf (mkClawback base ∅ ∅ 0 funder (-62135596800) [] []).
Proof.
assert (Hs : schedule_of (-62135596800) 0 ∅ []).
{ split; [apply sched_ok_nil; unfold time_ok; lia|unfold sumLen; simpl; lia|intros d; by rewrite amt_empty]. }
split; simpl; try done; apply coins_ok_empty.
Qed.

Lemma depositLoop_auth p cps : ∀ w active res w', depositLoop k w p cps active = (res, w') → vAuth w' = vAuth w.
Proof.
induction cps as [|cp cps IH]; intros w active res w' Hl; simpl in Hl; [by inv_ok|].
destruct (bech32 _ _); [|by inv_ok]. destruct (HasGovClawbackDisabled _ _).
- destruct (SetProposal _ _); inv_ok; [by rewrite fold_delete_active|done].
- by apply IH in Hl.
Qed.

Lemma endLoop_auth cps : ∀ w res w', endLoop k w cps = (res, w') → vAuth w' = vAuth w.
Proof.
induction cps as [|cp cps IH]; intros w res w' Hl; simpl in Hl; [by inv_ok|].
destruct (bech32 _ _); [|by inv_ok]. by apply IH in Hl.
Qed.

(** How a handler, failed or not, changes the account store: at most one account
    is written, and a vesting account that is written is well-formed. *)
Definition writes_wf w w' : Prop :=
  vAuth w' = vAuth w ∨ ∃ ac, vAuth w' = akSetAccount (vAuth w) ac ∧ ∀ va, ac = AccClawback va → account_wf va.

Lemma Create_writes w m res w' : CreateClawbackVestingAccount k w m = (res, w') → writes_wf w w'.
Proof.
unfold CreateClawbackVestingAccount. intros Hc. repeat (destr_match; simplify_eq; try by left).
all: right; eexists; split; [reflexivity|]; intros va [= <-]; apply fresh_wf.
Qed.

Lemma Fund_writes w m res w' : MsgFund_ValidateBasic k m = Ok tt → dated (VmFund m) → accounts_wf w →
  FundVestingAccount k r w m = (res, w') → writes_wf w w'.
Proof.
intros Hv (T1 & T2 & T3) Hw. unfold FundVestingAccount. intros Hf.
destruct (bech32 k (mfFunder m)) as [funder|]; [|inv_ok; by left]. destruct (bech32 k (mfVesting m)) as [a|]; [|inv_ok; by left].
destruct (BlockedAddr a); [inv_ok; by left|].
destruct (GetClawbackVestingAccount w a) as [va|] eqn:Ea; [|inv_ok; by left].
apply GetClawbackVestingAccount_Ok, Hw in Ea.
destruct (defaultLockup m) as [lockup lc] eqn:E1. destruct (defaultVesting m lc) as [vesting coins] eqn:E2.
assert (Hg : granted m = (lockup, vesting, coins)) by (unfold granted; by rewrite E1, E2).
destruct (granted_ok k m _ _ _ Hv T1 T2 T3 Hg) as (G1 & G2 & G3 & G4 & G5 & G6).
case_decide; [inv_ok; by left|].
destruct (AddGrant_spec va _ _ _ coins Ea G1 G2 G3 G5 G6) as (va' & Hadd & Hwf' & _).
rewrite Hadd in Hf. destruct (SendCoins _ _ _ _ _) as [res' x]. inv_ok.
right. eexists. split; [reflexivity|]. by intros ? [= <-].
Qed.

Lemma transferClawback_writes T w va dest res w' : transferClawback k r T w va dest = (res, w') → writes_wf w w'.
Proof.
unfold transferClawback. intros Ht. destruct (ComputeClawback va T) as [[u c]|]; [|inv_ok; by left].
destruct (if decide _ then _ else _) as [res' x]. inv_ok. right. eexists. split; [reflexivity|]. done.
Qed.

Lemma Clawback_writes T w m res w' : Clawback k r T w m = (res, w') → writes_wf w w'.
Proof.
unfold Clawback. intros Hc. repeat (destr_match; simplify_eq; try by left).
all: by eapply transferClawback_writes.
Qed.

Lemma UpdateVestingFunder_writes w m res w' : accounts_wf w → UpdateVestingFunder k w m = (res, w') → writes_wf w w'.
Proof.
intros Hw. unfold UpdateVestingFunder. intros Hu. repeat (destr_match; simplify_eq; try by left).
right. eexists. split; [reflexivity|]. intros va' [= <-].
match goal with E : GetClawbackVestingAccount _ _ = Ok _ |- _ => apply GetClawbackVestingAccount_Ok, Hw in E as [] end.
by split.
Qed.

Lemma Convert_writes T w v res w' : ConvertVestingAccount k T w v = (res, w') → writes_wf w w'.
Proof.
unfold ConvertVestingAccount. intros Hc. repeat (destr_match; simplify_eq; try by left).
right. eexists. split; [reflexivity|]. done.
Qed.

Lemma hooks_write w id res w' :
  AfterProposalDeposit k w id = (res, w') ∨ AfterProposalVotingPeriodEnded k w id = (res, w') → writes_wf w w'.
Proof.
unfold AfterProposalDeposit, AfterProposalVotingPeriodEnded.
intros [Hh|Hh]; repeat (destr_match; simplify_eq; try by left); left;
  (by eapply depositLoop_auth) || (by eapply endLoop_auth).
Qed.

End proposals.
