(* ===== verification/VestingExample.v ===== *)
(** * x/vesting: a concrete chain

    The account keeper and the governance keeper as finite maps and the bank as the
    reference ledger.  One account is granted 100 coins that unlock after 500
    seconds and vest in two parts; the theorems of the module are evaluated on it. *)

From stdpp Require Import gmap strings list.
From Stdlib Require Import ZArith Lia.
From S2P Require Import Prelude Bank VestingSchedule VestingAccount VestingKeeper VestingSafety.

Open Scope Z_scope.

Module VestingExample.

(** ** Dependencies *)
Abbreviation accounts := (gmap string AccountI).

#[export] Instance accountsKeeper : AccountKeeper accounts := {
  akGetAccount m a := ac ← m !! a; if decide (accAddress ac = a) then Some ac else None;
  akSetAccount m ac := <[accAddress ac := ac]> m;
}.

#[export] Instance accountsLaws : AccountKeeperLaws accountsKeeper.
Proof.
split.
- intros m a ac Ha. simpl in Ha. destruct (m !! a) as [ac'|]; simpl in Ha; [|done]. case_decide; naive_solver.
- intros m ac b. cbn [akGetAccount akSetAccount accountsKeeper]. case_decide as Hb.
  + subst. rewrite lookup_insert_eq. simpl. by rewrite decide_True.
  + by rewrite lookup_insert_ne.
Qed.

Record gov := mkGov { proposals : gmap Z Proposal; minDeposit : Coins }.

#[export] Instance govKeeper : GovKeeper gov := {
  Proposals_Get g id := match proposals g !! id with Some p => Ok p | None => Err (Plain "not found") end;
  Params_MinDeposit g := Ok (minDeposit g);
  SetProposal g p := Ok (mkGov (<[pId p := p]> (proposals g)) (minDeposit g));
}.

Definition anyone : Restriction ledger unit := fun w _ to _ => (Ok to, w).

Lemma anyone_passes : passes anyone.
Proof. intros w from to cs x w' [= <- <-]. done. Qed.

Definition k : Keeper ledger unit :=
  mkKeeper "gov" (fun s => if decide (s = EmptyString) then None else Some s) (fun a => a) (fun _ => false) "zero"
    (fun w cs a => SendCoins anyone w a (ModuleAddress DistributionModule) cs).

Lemma pool : FundsPool k.
Proof. intros b s c a w' Hc. by apply (send_moved anyone anyone_passes). Qed.

(** ** Deciding that an account is well-formed *)
Definition time_okb (x : Z) : bool := (- 2 ^ 62 <=? x) && (x <? 2 ^ 62).
Definition sched_okb (s : Z) (ps : Periods) : bool :=
  forallb (fun p => (0 <=? Length p) && IsValid (Amount p)) ps && time_okb s && time_okb (s + sumLen ps).
Definition account_okb (va : ClawbackVestingAccount) : bool :=
  sched_okb (StartTime va) (LockupPeriods va) && sched_okb (StartTime va) (VestingPeriods va)
  && IsValid (OriginalVesting va) && IsValid (DelegatedFree va) && is_ok (Validate (fun _ => Ok tt) va).

Lemma time_okb_ok x : time_okb x = true → time_ok x.
Proof. unfold time_okb, time_ok. intros. boolP. lia. Qed.

Lemma IsValid_ok c : IsValid c = true → coins_ok c.
Proof. unfold IsValid. by rewrite bool_decide_eq_true. Qed.

Lemma sched_okb_ok s ps : sched_okb s ps = true → sched_ok s ps.
Proof.
unfold sched_okb. intros Hb. boolP. split; [|by apply time_okb_ok..].
apply Forall_forall. intros p Hp. rewrite forallb_forall in *.
match goal with H : ∀ x, _ → _ = true |- _ => specialize (H p (proj1 (list_elem_of_In _ _) Hp)); boolP end.
split; [done|]. by apply IsValid_ok.
Qed.

Lemma account_okb_ok va : account_okb va = true → account_wf va.
Proof.
unfold account_okb. intros Hb. boolP. destruct (Validate _ va) as [[]|] eqn:E; [|done].
apply (Clawback_Validate_wf _ _ E); (by apply sched_okb_ok) || by apply IsValid_ok.
Qed.

(** ** The grant *)
Definition atos (n : Z) : Coins := {["atos" := n]}.
Definition b0 : ledger := mkLedger {[("fund", "atos") := 1000%N]} {["atos" := 1000%N]}.
Definition a0 : accounts := {["vest" := AccBase (mkBaseAccount "vest" 7 0)]}.
Definition clawing : Proposal := mkProposal 1 (Ok [PmOther; PmClawback (mkMsgClawback "gov" "vest" "")]) (atos 10) "" StatusActive.
Definition g0 : gov := mkGov {[1 := clawing; 2 := mkProposal 2 (pMsgs clawing) (atos 10) "" StatusActive]} (atos 5).
Definition w0 : VestingCtx ledger unit accounts gov := mkVestingCtx b0 tt a0 g0 ∅ ∅.

Definition create : MsgCreate := mkMsgCreate "fund" "vest" true.
Definition fund : MsgFund :=
  mkMsgFund "fund" "vest" 1000 [mkPeriod 500 (atos 100)] [mkPeriod 100 (atos 40); mkPeriod 300 (atos 60)].

Definition w1 := (deliver k anyone 900 w0 (VmCreate create)).2.
Definition w2 := (deliver k anyone 950 w1 (VmFund fund)).2.

Definition vestingAt (w : VestingCtx ledger unit accounts gov) : ClawbackVestingAccount :=
  match GetClawbackVestingAccount w "vest" with Ok va => va | Err _ => mkClawback (mkBaseAccount "" 0 0) ∅ ∅ 0 "" 0 [] [] end.
Definition va1 := vestingAt w1.
Definition va2 := vestingAt w2.

Example deliver_grant :
  (deliver k anyone 900 w0 (VmCreate create)).1 = Ok tt ∧ (deliver k anyone 950 w1 (VmFund fund)).1 = Ok tt ∧
  OriginalVesting va2 = atos 100 ∧ Bank.GetBalance (vBank w2) "vest" "atos" = 100 ∧
  Bank.GetBalance (vBank w2) "fund" "atos" = 900 ∧ GetVestedCoins va2 1200 = atos 40 ∧ GetUnlockedCoins va2 1200 = ∅.
Proof. split_and!; vm_compute; reflexivity. Qed.


Lemma va1_wf : account_wf va1.
Proof. vm_cast_no_check (fresh_wf (mkBaseAccount "vest" 7 0) "fund"). Qed.
Lemma va2_wf : account_wf va2.
Proof. apply account_okb_ok. vm_compute. reflexivity. Qed.
Lemma va1_at : akGetAccount (vAuth w1) "vest" = Some (AccClawback va1).
Proof. vm_compute. reflexivity. Qed.
Lemma va2_at : akGetAccount (vAuth w2) "vest" = Some (AccClawback va2).
Proof. vm_compute. reflexivity. Qed.
Lemma date t : time_okb t = true → time_ok t.
Proof. apply time_okb_ok. Qed.

Lemma fund_dated : dated (VmFund fund).
Proof. split_and!; apply date; reflexivity. Qed.

(** ** Witnesses *)
Lemma vesting_partition_witness :
  account_wf va2 ∧ ∃ c, GetVestingCoins va2 1200 = Ok c ∧ amt (GetVestedCoins va2 1200) "atos" + amt c "atos" = 100.
Proof.
split; [exact va2_wf|]. destruct (vesting_partition va2 1200 "atos" va2_wf) as [(c & _ & _ & _ & E & _ & _ & _ & H & _) _].
exists c. split; [exact E|exact H].
Defined.

Lemma AddGrant_adds_witness :
  account_wf va1 ∧ ∃ va', AddGrant va1 1000 (mfLockup fund) (mfVestingPeriods fund) (atos 100) = Ok va' ∧ account_wf va'.
Proof.
split; [exact va1_wf|].
destruct (AddGrant_adds va1 1000 (mfLockup fund) (mfVestingPeriods fund) (atos 100) va1_wf) as (va' & E & Hwf & _).
- apply sched_okb_ok. reflexivity.
- apply sched_okb_ok. reflexivity.
- apply IsValid_ok. reflexivity.
- intros d. unfold sumAmt. simpl. lia.
- intros d. rewrite <- TotalAmount_spec. by assert (TotalAmount (mfVestingPeriods fund) = atos 100) as -> by reflexivity.
- exists va'. split; [exact E|exact Hwf].
Defined.

Lemma ComputeClawback_exact_witness :
  account_wf va2 ∧ ∃ va' back, ComputeClawback va2 1200 = Ok (va', back) ∧
    amt (OriginalVesting va') "atos" + amt back "atos" = 100.
Proof.
split; [exact va2_wf|].
destruct (ComputeClawback_exact va2 1200 va2_wf (date 1200 eq_refl)) as (va' & back & E & _ & _ & _ & _ & _ & _ & H).
exists va', back. split; [exact E|]. destruct (H "atos") as [H1 _]. exact H1.
Defined.

Lemma FundVestingAccount_effect_witness :
  FundVestingAccount k anyone w1 fund = (Ok tt, w2) ∧ mfFunder fund = FunderAddress va1.
Proof.
assert (E : FundVestingAccount k anyone w1 fund = (Ok tt, w2)) by (vm_compute; reflexivity).
split; [exact E|]. destruct fund_dated as (D1 & D2 & D3).
destruct (FundVestingAccount_effect k anyone anyone_passes w1 fund w2 "vest" va1) as [H _];
  [reflexivity|exact D1|exact D2|exact D3|reflexivity|exact va1_at|exact va1_wf|exact E|exact H].
Defined.

Definition clawback : MsgClawback := mkMsgClawback "fund" "vest" "".
Definition w3 := (Clawback k anyone 1200 w2 clawback).2.


Lemma ConvertVestingAccount_effect_witness :
  ConvertVestingAccount k 1200 w2 "vest" = (Err ErrInvalidRequest, w2).
Proof.
pose proof (ConvertVestingAccount_effect k 1200 w2 "vest" "vest" va2 eq_refl va2_at va2_wf) as H. cbv zeta in H.
destruct (ConvertVestingAccount k 1200 w2 "vest") as [res w'].
destruct H as [H _]. destruct H as [-> ->]; [|reflexivity]. exists "atos". left. vm_compute. reflexivity.
Defined.

(** *** Proposals *)
Definition w4 := (AfterProposalDeposit k w2 1).2.

Lemma w2_disabled : GovClawbackDisabled w2 = ∅.
Proof. vm_compute. reflexivity. Qed.

Lemma proposal_protects_witness :
  AfterProposalDeposit k w2 1 = (Ok tt, w4) ∧ ∃ e, Clawback k anyone 1200 w4 clawback = (Err e, w4).
Proof.
assert (E : AfterProposalDeposit k w2 1 = (Ok tt, w4)) by (vm_compute; reflexivity).
split; [exact E|].
destruct (proposal_protects k anyone 1200 w2 1 w4 clawing [mkMsgClawback "gov" "vest" ""] (atos 5))
  as [(a & g & _ & Hd & _)|(_ & _ & H)];
  [by vm_compute|by vm_compute|done|by vm_compute|by vm_compute|exact E| |].
- exfalso. rewrite w2_disabled in Hd. exact (not_elem_of_empty a Hd).
- destruct (H (mkMsgClawback "gov" "vest" "")) as (a & Ha & Hc & _); [left|].
  apply Hc; [rewrite <- Ha; reflexivity|done].
Defined.

(** Two proposals on one account share one flag: when the vote of the first ends,
    the funder can claw back although the second is still in voting. *)
Theorem second_proposal_unprotected :
  let both := (AfterProposalDeposit k w4 2).2 in
  let '(res, ended) := AfterProposalVotingPeriodEnded k both 1 in
  (AfterProposalDeposit k w4 2).1 = Ok tt ∧ res = Ok tt ∧
  is_ok (Clawback k anyone 1200 both clawback).1 = false ∧
  is_ok (Clawback k anyone 1200 ended clawback).1 = true.
Proof. vm_compute; split_and!; reflexivity. Qed.

(** A clawback before the lockup ends frees the vested coins that were locked: the
    account had 40 vested coins and could spend none; afterwards it is an ordinary
    account, on which nothing is locked. *)
Theorem clawback_ends_lockup :
  GetVestedCoins va2 1200 = atos 40 ∧ GetUnlockedVestedCoins va2 1200 = ∅ ∧ LockedCoins va2 1200 = Ok (atos 100) ∧
  Bank.GetBalance (vBank w3) "vest" "atos" = 40 ∧ akGetAccount (vAuth w3) "vest" = Some (AccBase (mkBaseAccount "vest" 7 0)).
Proof. split_and!; vm_compute; reflexivity. Qed.

End VestingExample.
