(* ===== verification/FeeMarket.v ===== *)
(** * x/feemarket: the EIP-1559 base fee

    Parameters, the two stores (persistent and per-block), the base fee
    calculation of keeper/eip1559.go and the begin and end blockers.  A nil
    [LegacyDec] is [None]; a panic of the block handlers is an error, since it stops
    the block.  The 315-bit limit of [LegacyDec] is not modelled. *)

From stdpp Require Import base strings list.
From Stdlib Require Import ZArith Lia.
From S2P Require Import Prelude SdkMath.

Open Scope Z_scope.

(** ** Parameters (types/params.go) *)
Record Params := mkParams {
  NoBaseFee : bool;
  BaseFeeChangeDenominator : Z;  (** uint32 *)
  ElasticityMultiplier : Z;      (** uint32 *)
  BaseFee : option Dec;
  EnableHeight : Z;
  MinGasPrice : option Dec;
  MinGasMultiplier : option Dec;
}.

Definition DefaultBaseFee : Dec := NewDec 1000000000.
Definition DefaultMinGasMultiplier : Dec := NewDecWithPrec 50 2.

(** The two constants of go-ethereum's params package. *)
Definition DefaultParams (changeDenominator elasticity : Z) : Params :=
  mkParams false changeDenominator elasticity (Some DefaultBaseFee) 0 (Some ZeroDec) (Some DefaultMinGasMultiplier).

Definition validateMinGasPrice (v : option Dec) : result unit :=
  match v with
  | None => Err (Plain "invalid parameter: nil")
  | Some v => guard! 0 <=? v else Plain "value cannot be negative"; Ok tt
  end.

Definition validateMinGasMultiplier (v : option Dec) : result unit :=
  match v with
  | None => Err (Plain "invalid parameter: nil")
  | Some v =>
      guard! 0 <=? v else Plain "value cannot be negative";
      guard! v <=? OneDec else Plain "value cannot be greater than 1"; Ok tt
  end.

Definition Validate (p : Params) : result unit :=
  guard! negb (BaseFeeChangeDenominator p =? 0) else Plain "base fee change denominator cannot be 0";
  match BaseFee p with
  | None => Err (Plain "nil pointer dereference")
  | Some f =>
      guard! 0 <=? f else Plain "initial base fee cannot be negative";
      guard! 0 <=? EnableHeight p else Plain "enable height cannot be negative";
      _ ← validateMinGasMultiplier (MinGasMultiplier p);
      validateMinGasPrice (MinGasPrice p)
  end.

Definition IsBaseFeeEnabled (p : Params) (height : Z) : bool :=
  negb (NoBaseFee p) && (EnableHeight p <=? height).

(** ** State and block context *)
Record FeeStore := mkFeeStore {
  fsParams : option Params;         (** under [ParamsKey] *)
  fsLegacy : Params;                (** of the legacy subspace *)
  BlockGasWanted : Z;               (** 0 when the key is absent *)
  BaseFeeV1 : option Z;
  TransientGasWanted : Z;
}.

Record FeeCtx := mkFeeCtx {
  Height : Z;
  MaxGas : option Z;                (** [ConsensusParams.Block.MaxGas], [None] without [Block] *)
  GasMeter : option Z;              (** [BlockGasMeter().GasConsumedToLimit()] *)
}.

Definition with_params (p : Params) (s : FeeStore) : FeeStore :=
  mkFeeStore (Some p) (fsLegacy s) (BlockGasWanted s) (BaseFeeV1 s) (TransientGasWanted s).
Definition SetBlockGasWanted (s : FeeStore) (gas : Z) : FeeStore :=
  mkFeeStore (fsParams s) (fsLegacy s) gas (BaseFeeV1 s) (TransientGasWanted s).
Definition SetTransientBlockGasWanted (s : FeeStore) (gas : Z) : FeeStore :=
  mkFeeStore (fsParams s) (fsLegacy s) (BlockGasWanted s) (BaseFeeV1 s) gas.

Definition AddTransientGasWanted (s : FeeStore) (gasWanted : Z) : Z * FeeStore :=
  let result := u64 (TransientGasWanted s + gasWanted) in (result, SetTransientBlockGasWanted s result).

(** ** Keeper (keeper/params.go) *)
Definition with_BaseFee (f : option Dec) (p : Params) : Params :=
  mkParams (NoBaseFee p) (BaseFeeChangeDenominator p) (ElasticityMultiplier p) f (EnableHeight p)
    (MinGasPrice p) (MinGasMultiplier p).

(** Nil prices of legacy blocks read as zero. *)
Definition GetParams (s : FeeStore) : Params :=
  let p := default (fsLegacy s) (fsParams s) in
  mkParams (NoBaseFee p) (BaseFeeChangeDenominator p) (ElasticityMultiplier p) (BaseFee p) (EnableHeight p)
    (Some (default ZeroDec (MinGasPrice p))) (Some (default ZeroDec (MinGasMultiplier p))).

Definition SetParams (s : FeeStore) (p : Params) : FeeStore := with_params p s.

Definition GetBaseFeeEnabled (s : FeeStore) (height : Z) : bool :=
  let p := GetParams s in negb (NoBaseFee p) && (EnableHeight p <=? height).

Definition GetBaseFee (s : FeeStore) : option Dec :=
  let p := GetParams s in
  if NoBaseFee p then None
  else
    match BaseFee p with
    | Some f => if f =? 0 then NewDec <$> BaseFeeV1 s else Some f
    | None => NewDec <$> BaseFeeV1 s
    end.

Definition SetBaseFee (s : FeeStore) (f : Dec) : FeeStore :=
  SetParams s (with_BaseFee (Some f) (GetParams s)).

(** ** keeper/eip1559.go and keeper/abci.go *)
Section eip1559.
Context {D : LegacyDecOps}.

(** [sdkmath.Int.Quo] panics on zero, and so does [QuoInt]. *)
Definition intQuo (a b : Z) : result Z := if b =? 0 then Err (Plain "division by zero") else Ok (Z.quot a b).
Definition decQuoInt (a : Dec) (b : Z) : result Dec :=
  if b =? 0 then Err (Plain "division by zero") else Ok (Dec_QuoInt a b).

Definition gasLimit (c : FeeCtx) : Z :=
  match MaxGas c with Some m => if -1 <? m then m else maxU64 | None => maxU64 end.

Definition CalculateBaseFee (s : FeeStore) (c : FeeCtx) : result (option Dec) :=
  let params := GetParams s in
  if negb (IsBaseFeeEnabled params (Height c)) then Ok None
  else if Height c =? EnableHeight params then Ok (BaseFee params)
  else
    match BaseFee params with
    | None => Ok None
    | Some parentBaseFee =>
        let parentGasUsed := BlockGasWanted s in
        parentGasTarget ← intQuo (gasLimit c) (ElasticityMultiplier params);
        if negb (IsUint64 parentGasTarget) then Ok None
        else if parentGasUsed =? parentGasTarget then Ok (Some parentBaseFee)
        else if parentGasTarget =? 0 then Ok (Some ZeroDec)
        else if parentGasTarget <? parentGasUsed then
          y ← decQuoInt (MulInt parentBaseFee (parentGasUsed - parentGasTarget)) parentGasTarget;
          delta ← decQuoInt y (BaseFeeChangeDenominator params);
          Ok (Some (parentBaseFee + Z.max delta OneDec))
        else
          y ← decQuoInt (MulInt parentBaseFee (parentGasTarget - parentGasUsed)) parentGasTarget;
          delta ← decQuoInt y (BaseFeeChangeDenominator params);
          Ok (Some (Z.max (parentBaseFee - delta) (default ZeroDec (MinGasPrice params))))
    end.

Definition BeginBlock (s : FeeStore) (c : FeeCtx) : result unit * FeeStore :=
  match CalculateBaseFee s c with
  | Err e => (Err e, s)
  | Ok None => (Ok tt, s)
  | Ok (Some baseFee) => (Ok tt, SetBaseFee s baseFee)
  end.

Definition IsInt64 (x : Z) : bool := (- 2 ^ 63 <=? x) && (x <? 2 ^ 63).

Definition EndBlock (s : FeeStore) (c : FeeCtx) : result unit * FeeStore :=
  match GasMeter c with
  | None => (Err (Plain "block gas meter is nil when setting block gas wanted"), s)
  | Some gasUsed =>
      let gasWanted := TransientGasWanted s in
      if negb (IsInt64 gasWanted) then (Err (Plain "integer overflow by integer type conversion. Gas wanted"), s)
      else if negb (IsInt64 gasUsed) then (Err (Plain "integer overflow by integer type conversion. Gas used"), s)
      else
        let minGasMultiplier := default ZeroDec (MinGasMultiplier (GetParams s)) in
        let limitedGasWanted := Dec_Mul (NewDec gasWanted) minGasMultiplier in
        let updated := TruncateInt (Z.max limitedGasWanted (NewDec gasUsed)) in
        if negb (IsUint64 updated) then (Err (Plain "Uint64() out of bounds"), s)
        else (Ok tt, SetBlockGasWanted s updated)
  end.
End eip1559.

(** ** Messages, queries and genesis *)
Definition ErrInvalidSigner := Registered "gov" 13.

Record MsgUpdateParams := mkMsgUpdateParams { mupAuthority : string; mupParams : Params }.

Definition MsgUpdateParams_ValidateBasic (isAddress : string → bool) (m : MsgUpdateParams) : result unit :=
  guard! isAddress (mupAuthority m) else Plain "invalid authority address";
  Validate (mupParams m).

Definition UpdateParams (authority : string) (s : FeeStore) (m : MsgUpdateParams) : result unit * FeeStore :=
  if decide (authority = mupAuthority m) then (Ok tt, SetParams s (mupParams m)) else (Err ErrInvalidSigner, s).

Definition QueryBlockGas (s : FeeStore) : result Z :=
  guard! IsInt64 (BlockGasWanted s) else Plain "proto: integer overflow"; Ok (BlockGasWanted s).

Record GenesisState := mkGenesisState { gsParams : Params; BlockGas : Z }.

Definition InitGenesis (s : FeeStore) (g : GenesisState) : FeeStore :=
  SetBlockGasWanted (SetParams s (gsParams g)) (BlockGas g).
Definition ExportGenesis (s : FeeStore) : GenesisState := mkGenesisState (GetParams s) (BlockGasWanted s).

(** ** Theorems *)
Definition valid_params (p : Params) : Prop :=
  0 < BaseFeeChangeDenominator p ∧ (∃ f, BaseFee p = Some f ∧ 0 <= f) ∧ 0 <= EnableHeight p ∧
  (∃ m, MinGasMultiplier p = Some m ∧ 0 <= m <= OneDec) ∧ (∃ g, MinGasPrice p = Some g ∧ 0 <= g).

(** The parameters as they are typed: two uint32. *)
Definition typed_params (p : Params) : Prop := 0 <= BaseFeeChangeDenominator p ∧ 0 <= ElasticityMultiplier p.

Lemma Validate_spec p : typed_params p → Validate p = Ok tt ↔ valid_params p.
Proof.
intros [Hd _]. unfold Validate, valid_params. split.
- intros Hv. inv_ok. destruct (BaseFee p) as [f|]; [|done]. inv_ok. boolP.
  unfold validateMinGasMultiplier, validateMinGasPrice in *.
  destruct (MinGasMultiplier p), (MinGasPrice p); inv_ok; try done. boolP. split_and!; eauto; lia.
- intros (H1 & (f & -> & H2) & H3 & (m & -> & H4) & (g & -> & H5)). simpl.
  rewrite (proj2 (Z.eqb_neq _ _)), !(proj2 (Z.leb_le _ _)) by lia. done.
Qed.

Section base_fee.
Context {D : LegacyDecOps} {DL : LegacyDecLaws D}.

(** Two truncated divisions in a row are within two units of the exact one. *)
Lemma two_quotients x a b : 0 <= x → 0 < a → 0 < b →
  let q := Dec_QuoInt (Dec_QuoInt x a) b in 0 <= q ∧ Z.abs (q * (a * b) - x) < 2 * (a * b).
Proof.
intros Hx Ha Hb. simpl. pose proof (Dec_QuoInt_ulp x a Hx Ha) as H1.
pose proof (Dec_QuoInt_nonneg x a Hx Ha) as H2. set (y := Dec_QuoInt x a) in *.
pose proof (Dec_QuoInt_ulp y b H2 Hb) as H3. split; [by apply Dec_QuoInt_nonneg|].
set (q := Dec_QuoInt y b) in *. replace (q * (a * b) - x) with ((q * b - y) * a + (y * a - x)) by ring. nia.
Qed.

Context (s : FeeStore) (c : FeeCtx) (base minPrice : Z).
Abbreviation p := (GetParams s).
Abbreviation used := (BlockGasWanted s).
Abbreviation target := (Z.quot (gasLimit c) (ElasticityMultiplier p)).
Abbreviation denominator := (BaseFeeChangeDenominator p).

(** The base fee the rule asks for in exact arithmetic differs from the parent's by
    [base * (used - target) / (target * denominator)]. *)
Definition exact_step (delta : Z) : Prop :=
  Z.abs (delta * (target * denominator) - base * Z.abs (used - target)) < 2 * (target * denominator).

Hypothesis enabled : NoBaseFee p = false.
Hypothesis later : EnableHeight p < Height c.
Hypothesis base_fee : BaseFee p = Some base.
Hypothesis base_nonneg : 0 <= base.
Hypothesis min_price : MinGasPrice p = Some minPrice.
Hypothesis denominator_pos : 0 < denominator.
Hypothesis elasticity_pos : 0 < ElasticityMultiplier p.
Hypothesis limit_fits : 0 <= gasLimit c <= maxU64.
Hypothesis used_nonneg : 0 <= used.

Lemma target_range : 0 <= target <= maxU64.
Proof. rewrite Z.quot_div_nonneg by lia. split; [apply Z.div_pos; lia|]. apply Z.div_le_upper_bound; nia. Qed.

Lemma CalculateBaseFee_spec :
  ∃ next, CalculateBaseFee s c = Ok (Some next) ∧
  (used = target → next = base) ∧
  (target = 0 → used ≠ 0 → next = 0) ∧
  (0 < target < used → ∃ delta, 0 <= delta ∧ exact_step delta ∧ next = base + Z.max delta OneDec) ∧
  (used < target → ∃ delta, 0 <= delta ∧ exact_step delta ∧ next = Z.max (base - delta) minPrice).
Proof.
pose proof target_range as Ht. unfold CalculateBaseFee, IsBaseFeeEnabled, intQuo, decQuoInt, MulInt, exact_step.
rewrite enabled, base_fee, min_price, (proj2 (Z.leb_le _ _)), (proj2 (Z.eqb_neq _ _)) by lia.
rewrite (proj2 (Z.eqb_neq (ElasticityMultiplier p) 0)), (proj2 (Z.eqb_neq denominator 0)) by lia.
cbn [negb andb mbind result_bind].
assert (IsUint64 target = true) as -> by (unfold IsUint64; rewrite !(proj2 (Z.leb_le _ _)) by lia; done). cbn [negb].
destruct (used =? target) eqn:E1; boolP; [eexists; split_and!; [done|..]; intros; try lia|].
destruct (target =? 0) eqn:E2; boolP; [eexists; split_and!; [done|..]; intros; unfold ZeroDec; lia|].
destruct (target <? used) eqn:E3; boolP.
- destruct (two_quotients (base * (used - target)) target denominator) as [Q1 Q2]; [nia|lia|lia|].
  eexists. split_and!; [done|..]; intros; try lia. eexists. split_and!; [exact Q1| |done].
  by rewrite (Z.abs_eq (used - target)) by lia.
- destruct (two_quotients (base * (target - used)) target denominator) as [Q1 Q2]; [nia|lia|lia|].
  eexists. split_and!; [done|..]; intros; try lia. eexists. split_and!; [exact Q1| |done].
  rewrite (Z.abs_neq (used - target)) by lia. by replace (- (used - target)) with (target - used) by lia.
Qed.
End base_fee.

(** The state the module keeps between blocks. *)
Record fee_ok (s : FeeStore) : Prop := {
  fo_params : valid_params (GetParams s);
  fo_elasticity : 0 < ElasticityMultiplier (GetParams s);
  fo_gas : is_u64 (BlockGasWanted s);
  fo_transient : is_u64 (TransientGasWanted s);
}.

(** [MaxGas] is an int64. *)
Definition ctx_ok (c : FeeCtx) : Prop := ∀ m, MaxGas c = Some m → is_i64 m.

Lemma gasLimit_fits c : ctx_ok c → 0 <= gasLimit c <= maxU64.
Proof.
unfold ctx_ok, gasLimit, is_i64, maxU64. intros Hc. destruct (MaxGas c) as [m|]; [|lia].
specialize (Hc m eq_refl). destruct (-1 <? m) eqn:E; boolP; lia.
Qed.

Lemma GetParams_SetBaseFee s f : GetParams (SetBaseFee s f) = with_BaseFee (Some f) (GetParams s).
Proof. done. Qed.

Lemma valid_with_BaseFee p f : valid_params p → 0 <= f → valid_params (with_BaseFee (Some f) p).
Proof. intros (H1 & H2 & H3 & H4 & H5) Hf. split_and!; eauto. Qed.

Section blocks.
Context {D : LegacyDecOps} {DL : LegacyDecLaws D}.

(** C28: One block of the fee market.  With the base fee enabled and a parent block, the
    new base fee is the parent's if the parent used its gas target; above the target
    it rises by the EIP-1559 step, rounded within two units of the 18th decimal and
    at least 1; below the target it falls by that step but not below the minimum gas
    price.  A fee at or above the minimum price stays there, the fee is never
    negative, and nothing else in the store changes. *)
Theorem BeginBlock_eip1559 s c base minPrice :
  fee_ok s → ctx_ok c → NoBaseFee (GetParams s) = false → EnableHeight (GetParams s) < Height c →
  BaseFee (GetParams s) = Some base → MinGasPrice (GetParams s) = Some minPrice →
  let used := BlockGasWanted s in
  let target := Z.quot (gasLimit c) (ElasticityMultiplier (GetParams s)) in
  ∃ next, BeginBlock s c = (Ok tt, SetBaseFee s next) ∧ 0 <= next ∧
    (used = target → next = base) ∧
    (0 < target < used → ∃ delta, exact_step s c base delta ∧ next = base + Z.max delta OneDec) ∧
    (used < target → ∃ delta, 0 <= delta ∧ exact_step s c base delta ∧ next = Z.max (base - delta) minPrice) ∧
    (0 < target → minPrice <= base → minPrice <= next).
Proof.
intros Hs Hc Hno Hh Hb Hm. cbv zeta.
destruct (fo_params s Hs) as (H1 & (f & Hf & H2) & H3 & _ & (g & Hg & H5)).
rewrite Hb in Hf. injection Hf as <-. rewrite Hm in Hg. injection Hg as <-.
destruct (CalculateBaseFee_spec s c base minPrice Hno Hh Hb H2 Hm H1 (fo_elasticity s Hs) (gasLimit_fits c Hc)
  (proj1 (fo_gas s Hs))) as (next & E & C1 & C2 & C3 & C4).
pose proof (target_range s c (fo_elasticity s Hs) (gasLimit_fits c Hc)) as Ht.
set (target := Z.quot _ _) in *. set (used := BlockGasWanted s) in *.
exists next. unfold BeginBlock. rewrite E. split; [done|].
assert (Hcase : used = target ∨ (target = 0 ∧ used ≠ 0) ∨ 0 < target < used ∨ used < target).
{ pose proof (proj1 (fo_gas s Hs)). lia. }
assert (0 <= next ∧ (0 < target → minPrice <= base → minPrice <= next)) as [Hn1 Hn2].
{ destruct Hcase as [Hx|[[Hx Hy]|[Hx|Hx]]].
  - specialize (C1 Hx). lia.
  - specialize (C2 Hx Hy). lia.
  - destruct (C3 Hx) as (delta & ? & _ & ->). unfold OneDec, precision. lia.
  - destruct (C4 Hx) as (delta & ? & _ & ->). lia. }
split_and!; try done. intros Hx. destruct (C3 Hx) as (delta & _ & ? & ->). eauto.
Qed.

(** Rounding of an integral decimal is exact. *)
Lemma IsInt64_spec x : IsInt64 x = true ↔ is_i64 x.
Proof. unfold IsInt64, is_i64. rewrite andb_true_iff, Z.leb_le, Z.ltb_lt. lia. Qed.

(** What the end of a block records as used gas: the larger of the gas used and the
    share of the gas wanted that [MinGasMultiplier] sets, rounded down; so never less
    than the gas used, and never more than both the gas wanted and the gas used.  A
    counter beyond int64 is refused and nothing is written. *)
Theorem EndBlock_records s c used m :
  fee_ok s → GasMeter c = Some used → 0 <= used → MinGasMultiplier (GetParams s) = Some m →
  let wanted := TransientGasWanted s in
  (is_i64 wanted → is_i64 used →
    EndBlock s c = (Ok tt, SetBlockGasWanted s (Z.max (wanted * m / precision) used)) ∧
    used <= Z.max (wanted * m / precision) used <= Z.max wanted used) ∧
  (¬ (is_i64 wanted ∧ is_i64 used) → ∃ e, EndBlock s c = (Err e, s)).
Proof.
intros Hs Hg Hu Hm. cbv zeta. destruct (fo_params s Hs) as (_ & _ & _ & (m' & Hm' & H4) & _).
rewrite Hm in Hm'. injection Hm' as <-. pose proof (fo_transient s Hs) as [Hw _].
unfold EndBlock. rewrite Hg, Hm. pose proof precision_pos as Hp. set (wanted := TransientGasWanted s) in *. split.
- intros Hi Hiu. rewrite (proj2 (IsInt64_spec wanted) Hi), (proj2 (IsInt64_spec used) Hiu).
  cbn [negb]. change (default ZeroDec (Some m)) with m. rewrite Dec_Mul_NewDec_l by lia.
  assert (Hmax : TruncateInt (Z.max (wanted * m) (NewDec used)) = Z.max (wanted * m / precision) used).
  { rewrite TruncateInt_div by nia. unfold NewDec.
    destruct (Z.max_spec (wanted * m) (used * precision)) as [[Hlt ->]|[Hlt ->]].
    - rewrite Z.div_mul by lia. pose proof (Z.div_lt_upper_bound (wanted * m) precision used). lia.
    - pose proof (Z.div_le_lower_bound (wanted * m) precision used). lia. }
  rewrite Hmax. assert (Hle : wanted * m / precision <= wanted).
  { apply Z.div_le_upper_bound; [lia|]. unfold OneDec in H4. nia. }
  assert (IsUint64 (Z.max (wanted * m / precision) used) = true) as ->.
  { unfold IsUint64. rewrite !(proj2 (Z.leb_le _ _)); [done|unfold is_i64, maxU64 in *; lia|lia]. }
  split; [done|lia].
- intros Hn. destruct (IsInt64 wanted) eqn:E1; simpl; [|eauto]. destruct (IsInt64 used) eqn:E2; simpl; [|eauto].
  exfalso. apply Hn. by rewrite <- !IsInt64_spec.
Qed.
End blocks.

(** ** Runs of the module *)
Section runs.
Context {D : LegacyDecOps} {DL : LegacyDecLaws D}.
Variables (isAddress : string → bool) (authority : string).

Inductive fee_event :=
  | FeBegin (c : FeeCtx)
  | FeTx (gasWanted : Z)
  | FeEnd (c : FeeCtx)
  | FeUpdateParams (m : MsgUpdateParams).

Definition fee_step (s : FeeStore) (e : fee_event) : result unit * FeeStore :=
  match e with
  | FeBegin c => BeginBlock s c
  | FeTx gas => (Ok tt, (AddTransientGasWanted s gas).2)
  | FeEnd c => EndBlock s c
  | FeUpdateParams m =>
      match MsgUpdateParams_ValidateBasic isAddress m with
      | Err e => (Err e, s)
      | Ok _ => UpdateParams authority s m
      end
  end.

Definition fee_run (s : FeeStore) (es : list fee_event) : FeeStore := foldl (fun s e => (fee_step s e).2) s es.

(** Fields within their types; new parameters with a positive elasticity. *)
Definition event_ok (e : fee_event) : Prop :=
  match e with
  | FeBegin c => ctx_ok c
  | FeTx gas => is_u64 gas
  | FeEnd c => ∀ u, GasMeter c = Some u → is_u64 u
  | FeUpdateParams m => typed_params (mupParams m) ∧ 0 < ElasticityMultiplier (mupParams m)
  end.

Lemma fee_ok_begin s c : fee_ok s → ctx_ok c → (BeginBlock s c).1 = Ok tt ∧ fee_ok (BeginBlock s c).2.
Proof.
intros Hs Hc. destruct (fo_params s Hs) as (H1 & (f & Hf & H2) & H3 & H4 & (g & Hg & H5)).
assert (Hset : ∀ x, 0 <= x → fee_ok (SetBaseFee s x)).
{ intros x Hx. destruct Hs as [Hp He Hb Ht]. split; [|exact He|exact Hb|exact Ht].
  rewrite GetParams_SetBaseFee. by apply valid_with_BaseFee. }
destruct (IsBaseFeeEnabled (GetParams s) (Height c)) eqn:E.
- unfold IsBaseFeeEnabled in E. boolP. destruct (decide (Height c = EnableHeight (GetParams s))) as [Hh|Hh].
  + unfold BeginBlock, CalculateBaseFee, IsBaseFeeEnabled. rewrite H, Hh, Z.leb_refl, Z.eqb_refl, Hf. simpl. auto.
  + destruct (CalculateBaseFee_spec s c f g H ltac:(lia) Hf H2 Hg H1 (fo_elasticity s Hs) (gasLimit_fits c Hc)
      (proj1 (fo_gas s Hs))) as (next & En & C1 & C2 & C3 & C4).
    unfold BeginBlock. rewrite En. split; [done|]. apply Hset.
    destruct (Z.lt_trichotomy (BlockGasWanted s) (Z.quot (gasLimit c) (ElasticityMultiplier (GetParams s)))) as [Hx|[Hx|Hx]].
    * destruct (C4 Hx) as (delta & ? & _ & ->). lia.
    * by rewrite (C1 Hx).
    * destruct (decide (Z.quot (gasLimit c) (ElasticityMultiplier (GetParams s)) = 0)) as [Hz|Hz].
      -- rewrite C2 by lia. done.
      -- pose proof (target_range s c (fo_elasticity s Hs) (gasLimit_fits c Hc)).
         destruct C3 as (delta & ? & _ & ->); [lia|]. unfold OneDec, precision. lia.
- unfold BeginBlock, CalculateBaseFee. rewrite E. done.
Qed.

Lemma fee_ok_end s c : fee_ok s → (∀ u, GasMeter c = Some u → is_u64 u) → fee_ok (EndBlock s c).2.
Proof.
intros Hs Hc. unfold EndBlock. repeat destr_match; simpl; try done. boolP.
destruct Hs as [Hp He Hb Ht]. split; [exact Hp|exact He| |exact Ht]. cbn [BlockGasWanted SetBlockGasWanted]. unfold is_u64.
match goal with H : IsUint64 _ = true |- _ => unfold IsUint64 in H; boolP; by split end.
Qed.

Lemma GetParams_SetParams s p : valid_params p → GetParams (SetParams s p) = p.
Proof. intros (_ & _ & _ & (m & Hm & _) & (g & Hg & _)). destruct p. simpl in *. subst. done. Qed.

Lemma fee_ok_step s e : fee_ok s → event_ok e → fee_ok (fee_step s e).2.
Proof.
intros Hs He. destruct e as [c|gas|c|m]; simpl in *.
- by apply fee_ok_begin.
- destruct Hs as [Hp Hel Hb Ht]. split; [exact Hp|exact Hel|exact Hb|]. apply u64_range.
- by apply fee_ok_end.
- destruct (MsgUpdateParams_ValidateBasic isAddress m) as [[]|] eqn:Ev; [|done].
  unfold MsgUpdateParams_ValidateBasic in Ev. inv_ok. destruct He as [Ht He]. apply Validate_spec in Ev; [|done].
  unfold UpdateParams. case_decide; [|done]. destruct Hs as [_ _ Hb Htr]. simpl.
  split; rewrite ?GetParams_SetParams by done; done.
Qed.


(** The elasticity is not part of the validation: parameters with elasticity zero are
    accepted, and then every block after the enabling one fails, dividing by zero. *)
Theorem zero_elasticity_halts s m c base :
  MsgUpdateParams_ValidateBasic isAddress m = Ok tt → mupAuthority m = authority → typed_params (mupParams m) →
  ElasticityMultiplier (mupParams m) = 0 → NoBaseFee (mupParams m) = false →
  BaseFee (mupParams m) = Some base → EnableHeight (mupParams m) < Height c →
  (fee_step s (FeUpdateParams m)).1 = Ok tt ∧
  BeginBlock (fee_step s (FeUpdateParams m)).2 c = (Err (Plain "division by zero"), (fee_step s (FeUpdateParams m)).2).
Proof.
intros Hv Ha Ht He Hn Hb Hh. simpl. rewrite Hv. unfold UpdateParams. rewrite decide_True by done. split; [done|].
unfold MsgUpdateParams_ValidateBasic in Hv. inv_ok. apply Validate_spec in Hv; [|done]. simpl.
unfold BeginBlock, CalculateBaseFee, IsBaseFeeEnabled. rewrite GetParams_SetParams by done.
rewrite Hn, Hb, He, (proj2 (Z.leb_le _ _)), (proj2 (Z.eqb_neq _ _)) by lia. done.
Qed.
End runs.

(** ** A concrete chain *)
Module FeeExample.
#[local] Existing Instance bankers_dec.
#[local] Existing Instance bankers_dec_laws.

Definition params : Params := mkParams false 8 2 (Some DefaultBaseFee) 0 (Some (NewDec 7)) (Some DefaultMinGasMultiplier).
Definition s0 : FeeStore := mkFeeStore (Some params) params 30000000 None 50000000.
Definition block : FeeCtx := mkFeeCtx 10 (Some 40000000) (Some 21000000).

Lemma params_ok : valid_params params.
Proof. apply Validate_spec; [split; simpl; lia|reflexivity]. Qed.

Lemma s0_ok : fee_ok s0.
Proof. split; [exact params_ok|simpl; lia|unfold is_u64, maxU64; simpl; lia..]. Qed.

Lemma block_ok : ctx_ok block.
Proof. intros m [= <-]. unfold is_i64. lia. Qed.

(** 30M of 20M used: 1 gwei rises by 1/16. *)
Lemma BeginBlock_eip1559_witness :
  BeginBlock s0 block = (Ok tt, SetBaseFee s0 (NewDec 1062500000)) ∧
  ∃ next, BeginBlock s0 block = (Ok tt, SetBaseFee s0 next) ∧ NewDec 7 <= next.
Proof.
split; [reflexivity|].
destruct (BeginBlock_eip1559 s0 block DefaultBaseFee (NewDec 7) s0_ok block_ok eq_refl) as (next & E & _ & _ & _ & _ & H);
  [simpl; lia|reflexivity|reflexivity|]. exists next. split; [exact E|]. apply H; [reflexivity|vm_compute; discriminate].
Defined.

Lemma EndBlock_records_witness : EndBlock s0 block = (Ok tt, SetBlockGasWanted s0 25000000).
Proof.
destruct (EndBlock_records s0 block 21000000 DefaultMinGasMultiplier s0_ok eq_refl ltac:(lia) eq_refl) as [H _].
destruct H as [-> _]; [unfold is_i64; simpl; lia|unfold is_i64; lia|reflexivity].
Defined.


Definition update : MsgUpdateParams :=
  mkMsgUpdateParams "gov" (mkParams false 8 0 (Some DefaultBaseFee) 0 (Some ZeroDec) (Some DefaultMinGasMultiplier)).

Lemma zero_elasticity_halts_witness :
  MsgUpdateParams_ValidateBasic (fun _ => true) update = Ok tt ∧
  (BeginBlock (UpdateParams "gov" s0 update).2 block).1 = Err (Plain "division by zero").
Proof.
split; [reflexivity|].
destruct (zero_elasticity_halts (fun _ => true) "gov" s0 update block DefaultBaseFee) as [_ H];
  [reflexivity|reflexivity|split; simpl; lia|reflexivity|reflexivity|reflexivity|simpl; lia|].
exact (f_equal fst H).
Defined.
End FeeExample.
