(* ===== verification/EvmTransition.v ===== *)
(** * x/evm/keeper: applying a message (state_transition.go, gas.go, keeper.go)

    What surrounds a run of the machine: the intrinsic gas, the access list, the
    nonce of a creation, the gas refund, the commit and the minimum charge; and, for a
    transaction, the cached context, the repayment of unused gas, the per-block
    counters and the gas meter.  Loading the configuration and recovering the signer
    are arguments, since they end in library code; events and tracing are left out.
    [ApplyTransaction] runs after the ante handler has deducted the whole fee. *)

From stdpp Require Import gmap strings list sorting.
From Stdlib Require Import ZArith Lia.
From S2P Require Import Prelude SdkMath Bank FeeMarket EvmStateDB EvmJournal EvmRevert EvmSnapshot EvmCommit EvmKeeper EvmTx EvmVM EvmFrames.

Open Scope Z_scope.

(** ** The gas meter (types/gasmeter.go) *)
Record infiniteGasMeterWithLimit := mkMeter { consumed : Z; limit : Z }.

Definition NewInfiniteGasMeterWithLimit (limit : Z) : infiniteGasMeterWithLimit := mkMeter 0 limit.

Definition addUint64Overflow (a b : Z) : Z * bool := if maxU64 - a <? b then (0, true) else (u64 (a + b), false).

(** The panics keep the meter as they leave it. *)
Definition ConsumeGas (amount : Z) (g : infiniteGasMeterWithLimit) : result unit * infiniteGasMeterWithLimit :=
  let '(c, overflow) := addUint64Overflow (consumed g) amount in
  let g := mkMeter c (limit g) in
  if overflow then (Err (Plain "ErrorGasOverflow"), g) else (Ok tt, g).

Definition MeterRefundGas (amount : Z) (g : infiniteGasMeterWithLimit) : result unit * infiniteGasMeterWithLimit :=
  if consumed g <? amount then (Err (Plain "ErrorNegativeGasConsumed"), g)
  else (Ok tt, mkMeter (consumed g - amount) (limit g)).

Definition ResetGasMeterAndConsumeGas (gasUsed : Z) (g : infiniteGasMeterWithLimit)
    : result unit * infiniteGasMeterWithLimit :=
  match MeterRefundGas (consumed g) g with
  | (Err e, g) => (Err e, g)
  | (Ok _, g) => ConsumeGas gasUsed g
  end.

Lemma ResetGasMeterAndConsumeGas_spec gasUsed g :
  is_u64 gasUsed → ResetGasMeterAndConsumeGas gasUsed g = (Ok tt, mkMeter gasUsed (limit g)).
Proof.
intros Hu. unfold ResetGasMeterAndConsumeGas, MeterRefundGas. rewrite Z.ltb_irrefl.
unfold ConsumeGas, addUint64Overflow. simpl. rewrite Z.sub_diag.
destruct (_ <? _) eqn:E; boolP; [unfold is_u64 in Hu; lia|]. simpl. by rewrite u64_small by done.
Qed.

(** ** The transient store of the module, as it is in one block *)
Record EvmTransient := mkEvmTransient {
  blockBloom : Z;
  txIndex : Z;
  logSize : Z;
  gasUsed : Z;
}.

Definition SetBlockBloomTransient (x : Z) (t : EvmTransient) : EvmTransient :=
  mkEvmTransient x (txIndex t) (logSize t) (gasUsed t).
Definition SetTxIndexTransient (x : Z) (t : EvmTransient) : EvmTransient :=
  mkEvmTransient (blockBloom t) x (logSize t) (gasUsed t).
Definition SetLogSizeTransient (x : Z) (t : EvmTransient) : EvmTransient :=
  mkEvmTransient (blockBloom t) (txIndex t) x (gasUsed t).
Definition SetTransientGasUsed (x : Z) (t : EvmTransient) : EvmTransient :=
  mkEvmTransient (blockBloom t) (txIndex t) (logSize t) x.
Definition ResetTransientGasUsed (t : EvmTransient) : EvmTransient := SetTransientGasUsed 0 t.

Definition AddTransientGasUsed (x : Z) (t : EvmTransient) : result Z * EvmTransient :=
  let total := u64 (gasUsed t + x) in
  if total <? x then (Err ErrGasOverflow, t) else (Ok total, SetTransientGasUsed total t).

(** ** Messages and responses *)
Record Message := mkMessage {
  msgFrom : Address; msgTo : option Address; msgNonce : Z; msgGas : Z; msgGasPrice : Z;
  msgGasFeeCap : Z; msgValue : Z; msgData : string; msgAccessList : list (Address * list Hash);
}.

Record MsgEthereumTxResponse := mkResponse {
  resGasUsed : Z; resVmError : option VMError; resRet : string; resLogs : list Log;
}.
Definition Failed (r : MsgEthereumTxResponse) : bool := bool_decide (resVmError r ≠ None).

(** go-ethereum's refund quotients, and [core.ErrIntrinsicGas]. *)
Definition RefundQuotient : Z := 2.
Definition RefundQuotientEIP3529 : Z := 5.
Definition ErrIntrinsicGas : error := Plain "intrinsic gas too low".
Definition FeeCollectorName : string := "fee_collector".

(** The charge for a message: what it used after the refund, but at least the share
    [mult] of its limit. *)
Definition chargedGas {D : LegacyDecOps} (mult : Dec) (gas temporaryGasUsed : Z) : result Z :=
  let minimumGasUsed := Dec_Mul (NewDec (i64 gas)) mult in
  if negb (IsUint64 (TruncateInt minimumGasUsed)) then Err ErrGasOverflow
  else Ok (u64 (TruncateInt (Z.max minimumGasUsed (NewDec (i64 temporaryGasUsed))))).

(** ** The keeper *)
Section transition.
Context `{EvmEnv} {D : LegacyDecOps} `{IntrinsicGas} {B S A : Type} `{BankOps B} `{AuthKeeper A}.
Variable evmDenom : denom.
Variable AccAddress : Address → addr.
Variable r : Restriction B S.

Abbreviation C := (EvmCtx B S A).
#[local] Existing Instance evmKeeper.
#[local] Instance theKeeper : StateKeeper C := evmKeeper evmDenom AccAddress r.

Variable interpreterRun : Contract → string → bool → EVM C → outcome * EVM C.
Variable RequiredGas : Address → string → Z.
Variable precompileRun : Address → Contract → string → bool → EVM C → outcome * EVM C.
Variable DefaultPrecompiles : gset Address.   (** of core/vm/contracts.go, for the rules in force *)
Variable IsIstanbul : bool.
Variable LogsBloom : list Log → Z.            (** of go-ethereum's core/types *)

Implicit Types (c : C) (setup : EVMSetup) (msg : Message).

(** The run of the machine, with the nonce of a creation managed outside it. *)
Definition runMessage setup msg (leftover : Z) (s : StateDB C) : result (outcome * StateDB C) :=
  let e := mkEVM s DefaultPrecompiles in
  match msgTo msg with
  | None =>
      let e := withDB (SetNonce (msgFrom msg) (msgNonce msg) (evmDB e)) e in
      '(o, e) ← Create setup 0 interpreterRun (msgFrom msg) (msgData msg) leftover (msgValue msg) e;
      Ok (o, SetNonce (msgFrom msg) (u64 (msgNonce msg + 1)) (evmDB e))
  | Some to =>
      '(o, e) ← Call setup 0 interpreterRun RequiredGas precompileRun (msgFrom msg) to (msgData msg) leftover (msgValue msg) e;
      Ok (o, evmDB e)
  end.

Definition prepare setup msg (s : StateDB C) : result (StateDB C) :=
  if IsBerlin (rules setup) then PrepareAccessList (msgFrom msg) (msgTo msg) [] (msgAccessList msg) s else Ok s.

Definition ApplyMessageWithConfig setup (fees : FeeStore) msg (commit : bool) (txConfig : TxConfig) c
    : result MsgEthereumTxResponse * C :=
  let s := New c txConfig in
  let contractCreation := bool_decide (msgTo msg = None) in
  match intrinsicGas (msgData msg) (msgAccessList msg) contractCreation (IsHomestead (rules setup)) IsIstanbul with
  | Err e => (Err e, c)
  | Ok intrinsic =>
      if msgGas msg <? intrinsic then (Err ErrIntrinsicGas, c)
      else
        match (s ← prepare setup msg s; runMessage setup msg (msgGas msg - intrinsic) s) with
        | Err e => (Err e, c)
        | Ok ((ret, leftover, vmErr), s) =>
            if msgGas msg <? leftover then (Err ErrGasOverflow, ctx s)
            else
              let refundQuotient := if IsLondon (rules setup) then RefundQuotientEIP3529 else RefundQuotient in
              let used := msgGas msg - leftover in
              let refundAmount := GasToRefund (refund s) used refundQuotient in
              let leftover := u64 (leftover + refundAmount) in
              let used := used - refundAmount in
              let '(committed, s) := if commit then Commit s else (Ok tt, s) in
              match committed with
              | Err e => (Err e, ctx s)
              | Ok _ =>
                  match chargedGas (default 0 (MinGasMultiplier (GetParams fees))) (msgGas msg) used with
                  | Err e => (Err e, ctx s)
                  | Ok charged =>
                      if msgGas msg <? leftover then (Err ErrGasOverflow, ctx s)
                      else (Ok (mkResponse charged vmErr ret (logs s)), ctx s)
                  end
              end
        end
  end.

(** *** Transactions *)
Record TxCtx := mkTxCtx {
  tcStore : C; tcFees : FeeStore; tcTransient : EvmTransient; tcMeter : infiniteGasMeterWithLimit;
}.
Implicit Types t : TxCtx.

Definition with_store c t : TxCtx := mkTxCtx c (tcFees t) (tcTransient t) (tcMeter t).
Definition with_transient (x : EvmTransient) t : TxCtx := mkTxCtx (tcStore t) (tcFees t) x (tcMeter t).
Definition with_meter (g : infiniteGasMeterWithLimit) t : TxCtx := mkTxCtx (tcStore t) (tcFees t) (tcTransient t) g.

(** The two shadowed sends of wrappers/bank.go, for the EVM coin. *)
Definition WrapperSendFromModule c (m : string) (to : addr) (amount : Z) : result unit * C :=
  let converted := ConvertEvmCoinFrom18Decimals amount in
  if converted =? 0 then (Ok tt, c)
  else
    let '(res, w) := SendCoinsFromModuleToAccount r (cBank c, cHooks c) m to [(evmDenom, converted)] in
    (res, with_bank w c).

Definition WrapperSendToModule c (from : addr) (m : string) (amount : Z) : result unit * C :=
  let converted := ConvertEvmCoinFrom18Decimals amount in
  if converted =? 0 then (Ok tt, c)
  else
    let '(res, w) := SendCoinsFromAccountToModule r (cBank c, cHooks c) from m [(evmDenom, converted)] in
    (res, with_bank w c).

Definition RefundGas c msg (leftoverGas : Z) : result unit * C :=
  let remaining := leftoverGas * msgGasPrice msg in
  if remaining <? 0 then (Err ErrInvalidRefund, c)
  else if 0 <? remaining then
    match WrapperSendFromModule c FeeCollectorName (AccAddress (msgFrom msg)) remaining with
    | (Err _, c) => (Err ErrInsufficientFunds, c)
    | (Ok _, c) => (Ok tt, c)
    end
  else (Ok tt, c).

(** keeper/config.go. *)
Definition LoadTxConfig (blockHash txHash : Hash) t : TxConfig :=
  mkTxConfig blockHash txHash (txIndex (tcTransient t)) (logSize (tcTransient t)).

(** The counters after a transaction; the two updates of the logs are skipped when
    there are none. *)
Definition countTx (txConfig : TxConfig) (res : MsgEthereumTxResponse) (bloom : Z) (x : EvmTransient) : EvmTransient :=
  let n := Z.of_nat (length (resLogs res)) in
  let x := if n =? 0 then x
           else SetLogSizeTransient (u64 (LogIndex txConfig + n)) (SetBlockBloomTransient bloom x) in
  SetTxIndexTransient (u64 (TxIndex txConfig + 1)) x.

Definition ApplyTransaction (config : result EVMSetup) (message : result Message) (blockHash txHash : Hash) t
    : result MsgEthereumTxResponse * TxCtx :=
  match config, message with
  | Err e, _ => (Err e, t)
  | _, Err e => (Err e, t)
  | Ok setup, Ok msg =>
      let txConfig := LoadTxConfig blockHash txHash t in
      match ApplyMessageWithConfig setup (tcFees t) msg true txConfig (tcStore t) with
      | (Err e, _) =>
          let '(_, g) := ResetGasMeterAndConsumeGas (limit (tcMeter t)) (tcMeter t) in (Err e, with_meter g t)
      | (Ok res, tmp) =>
          let bloom := Z.lor (blockBloom (tcTransient t)) (LogsBloom (resLogs res)) in
          let c := if Failed res then tcStore t else tmp in
          match RefundGas c msg (u64 (msgGas msg - resGasUsed res)) with
          | (Err e, c) => (Err e, with_store c t)
          | (Ok _, c) =>
              let x := countTx txConfig res bloom (tcTransient t) in
              match AddTransientGasUsed (resGasUsed res) x with
              | (Err e, x) => (Err e, with_transient x (with_store c t))
              | (Ok total, x) =>
                  let '(done_, g) := ResetGasMeterAndConsumeGas total (tcMeter t) in
                  let t := mkTxCtx c (tcFees t) x g in
                  match done_ with Err e => (Err e, t) | Ok _ => (Ok res, t) end
              end
          end
      end
  end.
End transition.
