(* ===== verification/EvmGas.v ===== *)
(** * x/evm: what a message and a transaction cost

    The refund counter never goes below zero, a message that ends is charged between
    the minimum share and the whole of its gas limit, it fails only for its intrinsic
    gas or in the commit, and a transaction that fails in the machine costs its sender
    exactly the charged gas. *)

From stdpp Require Import gmap strings list sorting.
From Stdlib Require Import ZArith Lia.
From S2P Require Import Prelude SdkMath Bank FeeMarket EvmStateDB EvmJournal EvmRevert EvmSnapshot EvmCommit EvmKeeper EvmTx EvmVM EvmFrames EvmTransition.

Open Scope Z_scope.

Create HintDb refunds.

(** ** The refund counter *)
Section refunds.
Context `{EvmEnv} {C : Type} `{K : StateKeeper C}.
Implicit Types (s t : StateDB C) (a : Address) (o : stateObject).

(** The counter and every value a revert could bring back. *)
Definition refund_ok s : Prop := 0 <= refund s ∧ ∀ p, refundChange p ∈ entries s → 0 <= p.

Lemma refund_ok_same s t : refund t = refund s → entries t = entries s → refund_ok s → refund_ok t.
Proof. unfold refund_ok. by intros -> ->. Qed.

Lemma refund_ok_append e s : (∀ p, e = refundChange p → 0 <= p) → refund_ok s → refund_ok (append e s).
Proof.
intros He [H1 H2]. unfold append. destruct (Dirtied e); (split; [done|]); simpl;
  intros p [Hp|Hp%list_elem_of_singleton]%elem_of_app; eauto.
Qed.

Lemma refund_ok_obj o s : refund_ok s → refund_ok (setStateObject o s).
Proof. by apply refund_ok_same. Qed.

Hint Resolve refund_ok_obj : refunds.
Hint Extern 1 (refund_ok (append _ _)) => apply refund_ok_append; [by intros|] : refunds.

Lemma refund_ok_get a s : refund_ok s → refund_ok (getStateObject a s).2.
Proof. intros. unfold getStateObject. destruct (_ !! a); [done|]. destruct (GetAccount _ _); simpl; auto with refunds. Qed.

Lemma refund_ok_create a s : refund_ok s → refund_ok (createObject a s).2.
Proof.
intros Hs. unfold createObject. pose proof (refund_ok_get a s Hs) as Hg. destruct (getStateObject a s) as [[p|] s1]; simpl in *; auto with refunds.
Qed.

Lemma refund_ok_getOrNew a s : refund_ok s → refund_ok (getOrNewStateObject a s).2.
Proof.
intros Hs. unfold getOrNewStateObject. pose proof (refund_ok_get a s Hs) as Hg.
destruct (getStateObject a s) as [[p|] s1]; simpl in *; [done|].
pose proof (refund_ok_create a s1 Hg) as Hc. by destruct (createObject a s1) as [[??]?].
Qed.

Lemma refund_ok_code o s : refund_ok s → refund_ok (objCode o s).2.
Proof. intros. unfold objCode. repeat case_match; simpl; auto with refunds. Qed.

Lemma refund_ok_committed o k s : refund_ok s → refund_ok (objGetCommittedState o k s).2.
Proof. intros. unfold objGetCommittedState. repeat case_match; simpl; auto with refunds. Qed.

Lemma refund_ok_state o k s : refund_ok s → refund_ok (objGetState o k s).2.
Proof. intros. unfold objGetState. case_match; [done|]. by apply refund_ok_committed. Qed.

Lemma refund_ok_CreateAccount a s : refund_ok s → refund_ok (CreateAccount a s).
Proof.
intros Hs. unfold CreateAccount. pose proof (refund_ok_create a s Hs) as Hc.
destruct (createObject a s) as [[? [?|]] ?]; simpl in *; auto with refunds.
Qed.

Lemma refund_ok_AddBalance a x s : refund_ok s → refund_ok (AddBalance a x s).
Proof.
intros Hs. unfold AddBalance. pose proof (refund_ok_getOrNew a s Hs) as Hg. destruct (getOrNewStateObject a s) as [o s1].
unfold objAddBalance, objSetBalance. case_match; simpl in *; auto with refunds.
Qed.

Lemma refund_ok_SubBalance a x s : refund_ok s → refund_ok (SubBalance a x s).
Proof.
intros Hs. unfold SubBalance. pose proof (refund_ok_getOrNew a s Hs) as Hg. destruct (getOrNewStateObject a s) as [o s1].
unfold objSubBalance, objSetBalance. case_match; simpl in *; auto with refunds.
Qed.

Lemma refund_ok_SetNonce a n s : refund_ok s → refund_ok (SetNonce a n s).
Proof.
intros Hs. unfold SetNonce. pose proof (refund_ok_getOrNew a s Hs) as Hg. destruct (getOrNewStateObject a s) as [o s1].
unfold objSetNonce. simpl in *; auto with refunds.
Qed.

Lemma refund_ok_SetCode a c s : refund_ok s → refund_ok (SetCode a c s).
Proof.
intros Hs. unfold SetCode. pose proof (refund_ok_getOrNew a s Hs) as Hg. destruct (getOrNewStateObject a s) as [o s1].
unfold objSetCode. pose proof (refund_ok_code o s1 Hg) as Hc. destruct (objCode o s1) as [[??]?]. simpl in *; auto with refunds.
Qed.

Lemma refund_ok_SetState a k v s : refund_ok s → refund_ok (SetState a k v s).
Proof.
intros Hs. unfold SetState. pose proof (refund_ok_getOrNew a s Hs) as Hg. destruct (getOrNewStateObject a s) as [o s1].
unfold objSetState. pose proof (refund_ok_state o k s1 Hg) as Hc. destruct (objGetState o k s1) as [[??]?].
case_match; simpl in *; auto with refunds.
Qed.

Lemma refund_ok_Suicide a s : refund_ok s → refund_ok (Suicide a s).2.
Proof.
intros Hs. unfold Suicide. pose proof (refund_ok_get a s Hs) as Hg. destruct (getStateObject a s) as [[o|] s1]; simpl in *; auto with refunds.
Qed.

Lemma refund_ok_AddAddress a s : refund_ok s → refund_ok (AddAddressToAccessList a s).
Proof.
intros Hs. unfold AddAddressToAccessList. destruct (AddAddress (sAccessList s) a) as [[] al];
  [apply refund_ok_append; [done|]|]; by apply (refund_ok_same s).
Qed.

Lemma refund_ok_AddSlot a k s t : refund_ok s → AddSlotToAccessList a k s = Ok t → refund_ok t.
Proof.
intros Hs E. unfold AddSlotToAccessList in E. apply bind_Ok in E as ([[x y] al] & _ & [= <-]).
assert (Ha : refund_ok (set_accessList al s)) by (by apply (refund_ok_same s)).
destruct x, y; repeat (apply refund_ok_append; [done|]); done.
Qed.

Lemma refund_ok_slots a ks : ∀ s t, refund_ok s →
  foldl (fun r key => s ← r; AddSlotToAccessList a key s) (Ok s) ks = Ok t → refund_ok t.
Proof.
induction ks as [|k ks IH]; intros s t Hs; simpl; [by intros [= <-]|].
destruct (AddSlotToAccessList a k s) as [s1|e] eqn:E; simpl; intros Hf.
- by apply (IH s1); [apply (refund_ok_AddSlot a k s)|].
- exfalso. clear IH E. induction ks as [|k' ks IH]; simpl in Hf; [done|by apply IH].
Qed.

Lemma refund_ok_tuples l : ∀ s t, refund_ok s → foldl (fun r el => addTuple el r) (Ok s) l = Ok t → refund_ok t.
Proof.
induction l as [|el l IH]; intros s t Hs; cbn [foldl]; [by intros [= <-]|].
destruct (addTuple el (Ok s)) as [s1|e] eqn:E; intros Hf.
- apply (IH s1); [|done]. unfold addTuple in E. simpl in E.
  by apply (refund_ok_slots el.1 el.2 (AddAddressToAccessList el.1 s)); [apply refund_ok_AddAddress|].
- exfalso. clear IH E. induction l as [|el' l IH]; [done|by apply IH].
Qed.

Lemma refund_ok_Prepare sender dst ps l s t :
  refund_ok s → PrepareAccessList sender dst ps l s = Ok t → refund_ok t.
Proof.
intros Hs. unfold PrepareAccessList. apply refund_ok_tuples.
assert (H1 : refund_ok (match dst with Some d => AddAddressToAccessList d (AddAddressToAccessList sender s)
  | None => AddAddressToAccessList sender s end)) by (destruct dst; auto using refund_ok_AddAddress).
revert H1. generalize (match dst with Some d => AddAddressToAccessList d (AddAddressToAccessList sender s)
  | None => AddAddressToAccessList sender s end). induction ps as [|a ps IH]; simpl; auto using refund_ok_AddAddress.
Qed.

Lemma refund_ok_withObject a f s t : refund_ok s → withObject a f s = Ok t → refund_ok t.
Proof.
intros Hs. unfold withObject. pose proof (refund_ok_get a s Hs) as Hg.
destruct (getStateObject a s) as [[o|] s1]; [|done]. intros [= <-]. auto with refunds.
Qed.

Lemma refund_ok_Revert e s t :
  (∀ p, e = refundChange p → 0 <= p) → refund_ok s → Revert e s = Ok t → refund_ok t.
Proof.
intros He Hs. destruct e as [a|prev|a sp pb|a|a|a|a|p| |a|a k|m]; simpl; try apply (refund_ok_withObject _ _ _ _ Hs); try (intros [= <-]; by apply (refund_ok_same s)).
- pose proof (refund_ok_get a s Hs) as Hg. destruct (getStateObject a s) as [[o|] s1]; intros [= <-]; auto with refunds.
- intros [= <-]. destruct Hs as [_ H2]. split; [simpl; by apply He|done].
- destruct (logs s); [done|]. intros [= <-]. by apply (refund_ok_same s).
- intros (al & _ & [= <-])%bind_Ok. by apply (refund_ok_same s).
Qed.

Lemma refund_ok_loop es : ∀ s t,
  (∀ p, refundChange p ∈ es → 0 <= p) → refund_ok s → revertLoop es s = Ok t → refund_ok t.
Proof.
induction es as [|e es IH]; intros s t He Hs; simpl; [by intros [= <-]|].
intros (s1 & E & Hl)%bind_Ok. apply (IH _ _ ltac:(intros p Hp; apply He; by right)) in Hl; [done|].
assert (H1 : refund_ok s1).
{ apply (refund_ok_Revert e s); [|done|done]. intros p ->. apply He. by left. }
unfold dropDirty. destruct (Dirtied e); [|done]. by apply (refund_ok_same s1).
Qed.

Lemma refund_ok_RevertToSnapshot i s t : refund_ok s → RevertToSnapshot i s = Ok t → refund_ok t.
Proof.
intros Hs. unfold RevertToSnapshot. destruct (_ !! _) as [rv|]; [|done]. destruct (_ =? _); [|done].
intros (s2 & (s1 & E & [= <-])%bind_Ok & [= <-])%bind_Ok.
assert (H1 : refund_ok s1).
{ apply (refund_ok_loop _ s s1) in E; [done| |done]. intros p. rewrite list_elem_of_In, <- in_rev, <- list_elem_of_In.
  intros Hp. apply Hs. rewrite <- (take_drop (journalIndex rv) (entries s)). apply elem_of_app. by right. }
destruct H1 as [H1 H2]. split; [done|]. simpl. intros p Hp. apply H2.
rewrite <- (take_drop (journalIndex rv) (entries s1)). apply elem_of_app. by left.
Qed.

Lemma refund_ok_commit s : refund_ok s → refund_ok (CommitWithCacheCtx s).2.
Proof.
intros Hs. unfold CommitWithCacheCtx. destruct (cacheCtx s) as [c|]; [|done].
destruct (commitWithCtx s c). by apply (refund_ok_same s).
Qed.

Lemma refund_ok_RunSetup s : refund_ok s → refund_ok (RunSetup s).2.
Proof.
intros Hs. unfold RunSetup, MultiStoreSnapshot, GetCacheContext, cache. destruct (cacheCtx s) as [c|] eqn:Ec; cbn [cacheCtx set_cache].
- rewrite Ec. pose proof (refund_ok_commit s Hs) as Hc. by destruct (CommitWithCacheCtx s) as [[] ?].
- pose proof (refund_ok_commit (set_cache (Some (ctx s)) s) (refund_ok_same s _ eq_refl eq_refl Hs)) as Hc.
  by destruct (CommitWithCacheCtx _) as [[] ?].
Qed.

Lemma refund_ok_Run a m s : refund_ok s → refund_ok (Run a m s).2.
Proof.
intros Hs. unfold Run. pose proof (refund_ok_RunSetup s Hs) as Hr. destruct (RunSetup s) as [[snapshot|e] s1]; [|done].
simpl in Hr. destruct (m _) as [res c]. assert (H1 : refund_ok (set_cache (Some c) s1)) by (by apply (refund_ok_same s1)).
destruct res as [es|e]; [|done]. unfold AddJournalEntries, AddPrecompileFn.
assert (H2 : refund_ok (foldl applyEntry (set_cache (Some c) s1) es)).
{ revert H1. generalize (set_cache (Some c) s1). induction es as [|e es IH]; intros u Hu; simpl; [done|]. apply IH.
  unfold applyEntry. destruct (beOp e); auto using refund_ok_SubBalance, refund_ok_AddBalance. }
pose proof (refund_ok_getOrNew a _ H2) as H3. destruct (getOrNewStateObject a _) as [o u]. simpl in *.
apply (refund_ok_same (append (precompileCallChange snapshot) u)); [done|done|]. auto with refunds.
Qed.

Lemma refund_ok_exec (x : op) s t : refund_ok s → exec x s = Ok t → refund_ok t.
Proof.
intros Hs He. pose proof (fun a => refund_ok_get a s Hs) as Hg.
assert (Hc : ∀ a, refund_ok (GetCode a s).2).
{ intros a. unfold GetCode. specialize (Hg a). destruct (getStateObject a s) as [[o'|] s1]; [|done].
  pose proof (refund_ok_code o' s1 Hg) as H1. by destruct (objCode o' s1) as [[??]?]. }
destruct x; simpl in He; simplify_eq;
  try (unfold Exist, Empty, GetBalance, GetNonce, GetCodeHash, HasSuicided; specialize (Hg a);
       by destruct (getStateObject a s));
  auto using refund_ok_CreateAccount, refund_ok_AddBalance, refund_ok_SubBalance, refund_ok_SetNonce,
    refund_ok_SetCode, refund_ok_SetState, refund_ok_Suicide, refund_ok_AddAddress.
- specialize (Hc a). unfold GetCodeSize. by destruct (GetCode a s).
- unfold GetState. specialize (Hg a). destruct (getStateObject a s) as [[o|] s1]; [|done].
  pose proof (refund_ok_state o k s1 Hg) as H1. by destruct (objGetState o k s1) as [[??]?].
- unfold GetCommittedState. specialize (Hg a). destruct (getStateObject a s) as [[o|] s1]; [|done].
  pose proof (refund_ok_committed o k s1 Hg) as H1. by destruct (objGetCommittedState o k s1) as [[??]?].
- unfold AddLog. apply (refund_ok_same (append addLogChange s)); [done|done|auto with refunds].
- assert (H1 : refund_ok (append (refundChange (refund s)) s)).
  { apply refund_ok_append; [|done]. intros p [= <-]. by destruct Hs. }
  destruct H1 as [_ H2]. split; [simpl; unfold u64; apply Z.mod_pos_bound; lia|done].
- unfold SubRefund in He. destruct (_ <? _) eqn:E; [done|]. boolP. injection He as <-.
  assert (H1 : refund_ok (append (refundChange (refund s)) s)).
  { apply refund_ok_append; [|done]. intros p [= <-]. by destruct Hs. }
  destruct H1 as [_ H2]. split; [simpl in *; lia|done].
- by apply (refund_ok_AddSlot a k s).
- by apply (refund_ok_Prepare sender dst ps l s).
- by apply (refund_ok_RevertToSnapshot i s).
- unfold execPrecompile in He. destruct (RunSetup s) as [[sn|] s1]; [|done]. destruct (m _) as [[] ?]; [|done].
  injection He as <-. by apply refund_ok_Run.
Qed.

Lemma refund_ok_reachable c cfg s : reachable c cfg s → 0 <= refund s.
Proof.
intros [ops Hr]. assert (H0 : refund_ok (New c cfg)) by (split; [simpl; lia|intros p Hp; by apply elem_of_nil in Hp]).
revert Hr H0. generalize (New c cfg). induction ops as [|o ops IH]; intros u; simpl; [by intros [= ->] []|].
intros (s1 & E & Hr)%bind_Ok Hu. apply (IH s1); [done|]. by apply (refund_ok_exec o u).
Qed.
End refunds.

(** ** Messages *)
Section charge.
Context {D : LegacyDecOps} {DL : LegacyDecLaws D}.

(** A whole number times a decimal needs no rounding. *)
Lemma chargedGas_spec mult gas used : 0 <= mult <= OneDec → 0 <= gas < 2 ^ 63 → 0 <= used <= gas →
  ∃ charged, chargedGas mult gas used = Ok charged ∧ charged = Z.max (gas * mult / precision) used ∧
    used <= charged <= gas.
Proof.
intros Hm Hg Hu. pose proof precision_pos as Hp. unfold chargedGas, OneDec in *.
rewrite !i64_small by (unfold is_i64; lia). rewrite Dec_Mul_NewDec_l by lia.
assert (Hq : 0 <= gas * mult / precision <= gas).
{ split; [apply Z.div_pos; nia|]. apply Z.div_le_upper_bound; nia. }
assert (Hmax : TruncateInt (Z.max (gas * mult) (NewDec used)) = Z.max (gas * mult / precision) used).
{ rewrite TruncateInt_div by (unfold NewDec; nia). unfold NewDec.
  destruct (Z.max_spec (gas * mult) (used * precision)) as [[Hlt ->]|[Hle ->]].
  - rewrite Z.div_mul by lia. assert (gas * mult / precision <= used); [|lia].
    apply Z.div_le_upper_bound; [done|]. lia.
  - assert (used <= gas * mult / precision) by (apply Z.div_le_lower_bound; lia). lia. }
rewrite Hmax, TruncateInt_div by nia. unfold IsUint64.
destruct (negb _) eqn:E; [exfalso; boolP; unfold maxU64 in *; lia|].
eexists. split; [done|]. rewrite u64_small by (unfold is_u64, maxU64; lia). lia.
Qed.

Lemma GasToRefund_bounds available used quotient : 0 <= available → 0 <= used → 1 < quotient →
  0 <= GasToRefund available used quotient <= used / quotient.
Proof.
intros Ha Hu Hq. unfold GasToRefund. assert (0 <= used / quotient) by (by apply Z.div_pos; lia).
destruct (_ <? _) eqn:E; boolP; lia.
Qed.
End charge.

Section messages.
Context `{EvmEnv} {D : LegacyDecOps} {DL : LegacyDecLaws D} `{IntrinsicGas}.
Context {B S A : Type} `{BankOps B} `{!BankLaws _} `{AuthKeeper A} `{!AuthLaws _}.
Variable evmDenom : denom.
Variable AccAddress : Address → addr.
Variable r : Restriction B S.
Context `{!Inj (=) (=) AccAddress}.
Hypothesis r_passes : ∀ w from to x y w',
  r w from to [(evmDenom, x)] = (Ok y, w') → y = to ∧ w'.1 = w.1.

Abbreviation C := (EvmCtx B S A).
#[local] Hint Extern 0 (StateKeeper _) => exact (theKeeper evmDenom AccAddress r) : typeclass_instances.
#[local] Instance theKeeper_laws : StateKeeperLaws (theKeeper evmDenom AccAddress r).
Proof. apply (evmKeeper_laws evmDenom AccAddress r r_passes). Qed.

Variable interpreterRun : Contract → string → bool → EVM C → outcome * EVM C.
Variable RequiredGas : Address → string → Z.
Variable precompileRun : Address → Contract → string → bool → EVM C → outcome * EVM C.
Variable DefaultPrecompiles : gset Address.
Variable IsIstanbul : bool.
Context `{!∀ c cfg, Executes c cfg interpreterRun} `{!∀ c cfg a, Executes c cfg (precompileRun a)}.
Hypothesis required_nonneg : ∀ a input, 0 <= RequiredGas a input.
(** The intrinsic gas of go-ethereum is a [uint64]. *)
Hypothesis intrinsic_nonneg : ∀ d l x y z g, intrinsicGas d l x y z = Ok g → 0 <= g.

Abbreviation runMsg := (runMessage evmDenom AccAddress r interpreterRun RequiredGas precompileRun DefaultPrecompiles).
Abbreviation applyMsg :=
  (ApplyMessageWithConfig evmDenom AccAddress r interpreterRun RequiredGas precompileRun DefaultPrecompiles IsIstanbul).

Lemma prepare_total setup msg c cfg :
  ∃ s, prepare setup msg (New c cfg) = Ok s ∧ reachable c cfg s.
Proof.
unfold prepare. destruct (IsBerlin (rules setup)).
- destruct (PrepareAccessList_extends (msgFrom msg) (msgTo msg) [] (msgAccessList msg) (New c cfg) (New_wf c cfg)) as (s & E & _).
  exists s. split; [exact E|]. exists [OpPrepare (msgFrom msg) (msgTo msg) [] (msgAccessList msg)]. cbn [run exec]. by rewrite E.
- exists (New c cfg). split; [done|]. by exists [].
Qed.

Lemma runMessage_total setup msg gas c cfg s :
  IsHomestead (rules setup) = true → reachable c cfg s → 0 <= gas →
  ∃ ret gas' err s', runMsg setup msg gas s = Ok (ret, gas', err, s') ∧ 0 <= gas' <= gas ∧ reachable c cfg s'.
Proof.
intros Hh Hs Hg. unfold runMessage. destruct (msgTo msg) as [to|].
- destruct (Call_post c cfg setup 0 interpreterRun RequiredGas precompileRun required_nonneg (msgFrom msg) to (msgData msg)
    gas (msgValue msg) (mkEVM s DefaultPrecompiles) Hs Hg) as (ret & g & err & e & E & A1 & G & _).
  exists ret, g, err, (evmDB e). split; [by setoid_rewrite E|]. split; [done|]. by apply (acts_reachable c cfg s).
- set (s1 := SetNonce (msgFrom msg) (msgNonce msg) s).
  assert (A1 : acts s s1) by (by apply (acts_op (OpSetNonce (msgFrom msg) (msgNonce msg)))).
  pose proof (acts_reachable c cfg s s1 Hs A1) as Hs1.
  destruct (Create_post c cfg setup 0 interpreterRun (msgFrom msg) (msgData msg) gas (msgValue msg)
    (mkEVM s1 DefaultPrecompiles) Hh Hs1 Hg) as (ret & g & err & e & E & A2 & G & _).
  exists ret, g, err, (SetNonce (msgFrom msg) (u64 (msgNonce msg + 1)) (evmDB e)).
  split; [cbv zeta; change (withDB (SetNonce _ _ (evmDB _)) _) with (mkEVM s1 DefaultPrecompiles); by rewrite E|].
  split; [done|].
  apply (acts_reachable c cfg s1); [done|].
  by apply (acts_then c cfg s1 (evmDB e) _ (OpSetNonce (msgFrom msg) (u64 (msgNonce msg + 1)))).
Qed.

Definition quotient setup : Z := if IsLondon (rules setup) then RefundQuotientEIP3529 else RefundQuotient.

Lemma valid_multiplier fees : valid_params (GetParams fees) →
  0 <= default 0 (MinGasMultiplier (GetParams fees)) <= OneDec.
Proof. by intros (_ & _ & _ & (m & -> & Hm) & _). Qed.

(** What a message that the machine has run comes to. *)
Lemma applyMsg_spec setup fees msg commit cfg c :
  IsHomestead (rules setup) = true → valid_params (GetParams fees) → 0 <= msgGas msg < 2 ^ 63 →
  match applyMsg setup fees msg commit cfg c with
  | (Ok res, c') =>
      ∃ intrinsic s, intrinsic <= msgGas msg ∧ reachable c cfg s ∧ (commit = true → Commit s = (Ok tt, (Commit s).2) ∧ c' = ctx (Commit s).2) ∧
        msgGas msg * default 0 (MinGasMultiplier (GetParams fees)) / precision <= resGasUsed res <= msgGas msg ∧
        intrinsic - intrinsic / quotient setup <= resGasUsed res
  | (Err e, c') =>
      intrinsicGas (msgData msg) (msgAccessList msg) (bool_decide (msgTo msg = None)) (IsHomestead (rules setup)) IsIstanbul = Err e ∨
      e = ErrIntrinsicGas ∨ ∃ s, reachable c cfg s ∧ commit = true ∧ (Commit s).1 = Err e
  end.
Proof.
intros Hh Hv Hg. pose proof (valid_multiplier fees Hv) as Hm. unfold ApplyMessageWithConfig.
destruct (intrinsicGas _ _ _ _ _) as [intrinsic|e] eqn:Ei; [|by left]. apply intrinsic_nonneg in Ei.
destruct (msgGas msg <? intrinsic) eqn:El; boolP; [by right; left|].
destruct (prepare_total setup msg c cfg) as (s0 & -> & Hs0). cbn [mbind result_bind].
destruct (runMessage_total setup msg (msgGas msg - intrinsic) c cfg s0 Hh Hs0 ltac:(lia)) as (ret & gas & err & s & -> & Hgas & Hs).
destruct (msgGas msg <? gas) eqn:E1; boolP; [lia|]. cbv zeta. fold (quotient setup).
pose proof (refund_ok_reachable c cfg s Hs) as Hr.
assert (Hq : 1 < quotient setup) by (unfold quotient, RefundQuotientEIP3529, RefundQuotient; destruct (IsLondon _); lia).
pose proof (GasToRefund_bounds (refund s) (msgGas msg - gas) (quotient setup) Hr ltac:(lia) Hq) as HR.
set (R := GasToRefund (refund s) (msgGas msg - gas) (quotient setup)) in *.
assert (Hdiv : (msgGas msg - gas) / quotient setup <= msgGas msg - gas) by (assert (0 <= msgGas msg - gas) by lia; apply Z.div_le_upper_bound; nia).
destruct (chargedGas_spec (default 0 (MinGasMultiplier (GetParams fees))) (msgGas msg) (msgGas msg - gas - R) Hm Hg ltac:(lia))
  as (charged & Ec & Echarged & Hch).
assert (Hpart : intrinsic - intrinsic / quotient setup <= charged).
{ assert ((msgGas msg - gas) / quotient setup <= intrinsic / quotient setup + (msgGas msg - gas - intrinsic)); [|lia].
  rewrite <- Z.div_add by lia. apply Z.div_le_mono; nia. }
assert (Hover : u64 (gas + R) <= msgGas msg) by (rewrite u64_small by (unfold is_u64, maxU64; lia); lia).
destruct commit.
- destruct (Commit s) as [[[]|e] s'] eqn:Ecm; [|right; right; exists s; by rewrite Ecm].
  rewrite Ec. destruct (msgGas msg <? u64 _) eqn:E2; boolP; [lia|]. exists intrinsic, s. rewrite Ecm. split_and!; try done; cbn [resGasUsed]; lia.
- rewrite Ec. destruct (msgGas msg <? u64 _) eqn:E2; boolP; [lia|]. exists intrinsic, s. split_and!; try done; cbn [resGasUsed]; lia.
Qed.

(** ** Transactions *)
Abbreviation applyTx LogsBloom :=
  (ApplyTransaction evmDenom AccAddress r interpreterRun RequiredGas precompileRun DefaultPrecompiles IsIstanbul LogsBloom).

Abbreviation balance c y := (Bank.GetBalance (cBank c) y evmDenom).

(** [x] coins of the EVM moved between two accounts, and nothing else of the state of
    the machine. *)
Definition paid (c c' : C) (from to : addr) (x : Z) : Prop :=
  (∀ y, balance c' y = balance c y - at_addr from y x + at_addr to y x) ∧ cAuth c' = cAuth c ∧ cKV c' = cKV c.

Lemma paid_nothing c from to : paid c c from to 0.
Proof. split; [|done]. intros y. unfold at_addr. repeat case_decide; lia. Qed.

Lemma convert_nonneg x : 0 <= x → 0 <= ConvertEvmCoinFrom18Decimals x.
Proof. intros Hx. apply Z.quot_pos; [done|]. unfold ConversionFactor. destruct (_ =? _); lia. Qed.

Lemma WrapperSendFromModule_paid c m to x c' : 0 <= x →
  WrapperSendFromModule evmDenom r c m to x = (Ok tt, c') →
  paid c c' (ModuleAddress m) to (ConvertEvmCoinFrom18Decimals x).
Proof.
intros Hx. unfold WrapperSendFromModule. destruct (_ =? 0) eqn:E0; boolP.
{ intros [= <-]. rewrite E0. apply paid_nothing. }
destruct (SendCoinsFromModuleToAccount _ _ _ _ _) as [res w] eqn:E. intros [= -> <-].
destruct (BlockedAddr to) eqn:Eb.
{ destruct (send_from_module_blocked r (cBank c, cHooks c) m to [(evmDenom, ConvertEvmCoinFrom18Decimals x)] Eb) as [? E']. congruence. }
rewrite send_from_module in E by done. split; [|done].
exact (send_evm evmDenom r r_passes _ _ _ _ _ _ (convert_nonneg x Hx) E).
Qed.

Lemma RefundGas_paid c msg left c' : 0 <= left → 0 <= msgGasPrice msg →
  RefundGas evmDenom AccAddress r c msg left = (Ok tt, c') →
  paid c c' (ModuleAddress FeeCollectorName) (AccAddress (msgFrom msg)) (ConvertEvmCoinFrom18Decimals (left * msgGasPrice msg)).
Proof.
intros Hl Hp. unfold RefundGas. destruct (_ <? 0); [done|]. destruct (0 <? _) eqn:E; boolP.
- destruct (WrapperSendFromModule _ _ _ _ _ _) as [[[]|] c1] eqn:Ew; [|done]. intros [= <-].
  apply WrapperSendFromModule_paid in Ew; [done|lia].
- intros [= <-]. replace (left * msgGasPrice msg) with 0 by nia. apply paid_nothing.
Qed.

Lemma applyTx_spec LogsBloom setup msg bh th t res t' :
  IsHomestead (rules setup) = true → valid_params (GetParams (tcFees t)) → 0 <= msgGas msg < 2 ^ 63 →
  0 <= msgGasPrice msg → applyTx LogsBloom (Ok setup) (Ok msg) bh th t = (Ok res, t') →
  (msgGas msg * default 0 (MinGasMultiplier (GetParams (tcFees t))) / precision <= resGasUsed res <= msgGas msg) ∧
  ∃ c1, (if Failed res then c1 = tcStore t
         else ∃ s, reachable (tcStore t) (LoadTxConfig bh th t) s ∧ (Commit s).1 = Ok tt ∧ c1 = ctx (Commit s).2) ∧
    paid c1 (tcStore t') (ModuleAddress FeeCollectorName) (AccAddress (msgFrom msg))
      (ConvertEvmCoinFrom18Decimals ((msgGas msg - resGasUsed res) * msgGasPrice msg)) ∧
    txIndex (tcTransient t') = u64 (txIndex (tcTransient t) + 1) ∧
    consumed (tcMeter t') = u64 (gasUsed (tcTransient t) + resGasUsed res).
Proof.
intros Hh Hv Hg Hp. unfold ApplyTransaction.
pose proof (applyMsg_spec setup (tcFees t) msg true (LoadTxConfig bh th t) (tcStore t) Hh Hv Hg) as HA.
destruct (applyMsg _ _ _ _ _ _) as [[res0|e] tmp]; [|by destruct (ResetGasMeterAndConsumeGas _ _)].
destruct HA as (intrinsic & s & _ & Hs & HC & Hb & _). destruct (HC eq_refl) as [HC1 HC2]. clear HC.
assert (Hmin : 0 <= resGasUsed res0 <= msgGas msg).
{ pose proof (valid_multiplier _ Hv). pose proof precision_pos. split; [|lia]. etrans; [|apply Hb]. apply Z.div_pos; nia. }
rewrite (u64_small (msgGas msg - _)) by (unfold is_u64, maxU64; lia).
set (c1 := if Failed res0 then tcStore t else tmp).
destruct (RefundGas _ _ _ c1 msg _) as [[[]|] c2] eqn:ER; [|done].
apply RefundGas_paid in ER; [|lia|done]. unfold AddTransientGasUsed.
destruct (_ <? resGasUsed res0); [done|].
rewrite ResetGasMeterAndConsumeGas_spec by apply u64_range. intros [= -> <-]. split; [done|].
exists c1. split_and!.
- unfold c1. destruct (Failed res); [done|]. exists s. rewrite HC1. done.
- exact ER.
- by destruct (_ =? 0).
- simpl. by destruct (_ =? 0).
Qed.

End messages.
