(* ===== verification/EvmAnte.v ===== *)
(** * app/ante/evm: what happens before an Ethereum transaction runs

    The mono decorator: the checks on the envelope, the fees, the signature, the
    sender's balance and vesting, the deduction of the whole fee, the nonce and the
    gas the block has been asked for.  Signature recovery, the conversion to a core
    message and the envelope's own validation end in library code and come in as
    data; events are left out.  During the checks the SDK's infinite gas meter is in
    force, which changes nothing here; the meter with the limit is set at the end. *)

From stdpp Require Import gmap strings list sorting.
From Stdlib Require Import ZArith Lia.
From S2P Require Import Prelude SdkMath Bank VestingSchedule VestingAccount FeeMarket EvmStateDB EvmKeeper EvmTx EvmVM EvmTransition.

Open Scope Z_scope.

(** Errors of the SDK and of the two modules. *)
Definition ErrUnknownRequest := Registered "sdk" 6.
Definition ErrInvalidRequest := Registered "sdk" 18.
Definition ErrUnknownAddress := Registered "sdk" 9.
Definition ErrInvalidType := Registered "sdk" 29.
Definition ErrInvalidSequence := Registered "sdk" 3.
Definition ErrorInvalidSigner := Registered "sdk" 24.
Definition ErrNotSupported := Registered "sdk" 37.
Definition ErrNoSignatures := Registered "sdk" 15.
Definition ErrInvalidBaseFee := evmErr 13.
Definition ErrInvalidGasLimit := evmErr 16.
Definition ErrInsufficientUnlockedCoins := Registered "vesting" 4.

(** ** Transactions as the handler sees them *)
Record EthMsg := mkEthMsg {
  emFrom : option addr;         (** [GetFrom], [None] when [From] is empty *)
  emData : TxData;
  emProtected : bool;           (** signed with a chain id *)
  emSender : result Address;    (** [signer.Sender] *)
  emFromValid : bool;           (** [ValidateAddress] of a non-empty [From] *)
  emSize : Z;                   (** zero; the field is deprecated *)
  emHashMatches : bool;         (** [Hash] is the transaction's hash *)
}.

(** [MsgEthereumTx.ValidateBasic] of x/evm/types/msg.go, on unpacked data. *)
Definition MsgEthereumTx_ValidateBasic (m : EthMsg) : result unit :=
  guard! bool_decide (emFrom m = None) || emFromValid m else ErrInvalidAddress;
  guard! emSize m =? 0 else ErrInvalidRequest;
  let gas := txGas (fields (emData m)) in
  guard! negb (gas =? 0) else ErrInvalidGasLimit;
  guard! gas <? 2 ^ 63 else ErrGasOverflow;
  _ ← EvmTx.Validate (emData m);
  guard! emHashMatches m else ErrInvalidRequest; Ok tt.

Record EthTx := mkEthTx {
  etValidateBasic : result unit;
  etMemo : string; etTimeoutHeight : Z; etNonCritical : nat; etExtensions : nat;
  etSignerInfos : nat; etPayer : string; etGranter : string; etSignatures : nat;
  etFeeAmount : Z;              (** of the EVM coin, in its own decimals *)
  etGasLimit : Z;
  etMsgs : option (list (result EthMsg));  (** unpacked; [None] for a nil slice *)
}.

(** What the handler reads from the context. *)
Record AnteCtx := mkAnteCtx {
  acCheckTx : bool; acReCheckTx : bool; acSimulate : bool;
  acHeight : Z; acBlockTime : Z;
  acMinGasPrice : Dec;          (** [ctx.MinGasPrices().AmountOf] the EVM coin *)
  acBlockMeter : option Z;      (** limit of the block gas meter *)
  acMaxGas : option Z;          (** [ConsensusParams().Block.MaxGas] *)
}.

(** [ConvertAmountTo18DecimalsLegacy] and [...BigInt] of types/scaling.go. *)
Definition ConvertAmountTo18DecimalsLegacy `{EvmEnv} (x : Dec) : Dec := MulInt x (ConversionFactor EVMCoinDecimals).
Definition ConvertAmountTo18DecimalsBigInt `{EvmEnv} (x : Z) : Z := x * ConversionFactor EVMCoinDecimals.

(** types/block.go. *)
Definition BlockGasLimit (a : AnteCtx) : Z :=
  let meter := default 0 (acBlockMeter a) in
  if negb (meter =? 0) then meter
  else
    match acMaxGas a with
    | None => 0
    | Some m => if m =? -1 then maxU64 else if 0 <? m then m else 0
    end.

Definition ValidateTx (tx : EthTx) : result (Z * Z) :=
  _ ← (match etValidateBasic tx with
       | Err e => if decide (e = ErrNoSignatures) then Ok tt else Err e
       | Ok _ => Ok tt
       end);
  guard! bool_decide (etMemo tx = ""%string) && (etTimeoutHeight tx =? 0) && bool_decide (etNonCritical tx = 0%nat)
    else ErrInvalidRequest;
  guard! bool_decide (etExtensions tx = 1%nat) else ErrInvalidRequest;
  guard! bool_decide (etSignerInfos tx = 0%nat) else ErrInvalidRequest;
  guard! bool_decide (etPayer tx = ""%string) && bool_decide (etGranter tx = ""%string) else ErrInvalidRequest;
  guard! bool_decide (etSignatures tx = 0%nat) else ErrInvalidRequest;
  Ok (etFeeAmount tx, etGasLimit tx).

Definition ValidateMsg (ac : AccessControl) (tx : TxData) (from : option addr) : result unit :=
  guard! bool_decide (from = None) else ErrInvalidRequest;
  checkDisabledCreateCall (bool_decide (accessType (acCreate ac) = AccessTypeRestricted))
    (bool_decide (accessType (acCall ac) = AccessTypeRestricted)) tx.

Definition SignatureVerification (m : EthMsg) (allowUnprotectedTxs : bool) : result Address :=
  guard! allowUnprotectedTxs || emProtected m else ErrNotSupported;
  match emSender m with Err _ => Err ErrorInvalidSigner | Ok a => Ok a end.

(** [AsMessage] of go-ethereum, with what is documented of it. *)
Class CoreMessages := AsMessage : TxData → Address → option Z → result Message.

Class CoreMessagesLaws `{CoreMessages} : Prop :=
  AsMessage_spec tx from base msg : AsMessage tx from (Some base) = Ok msg →
    msgFrom msg = from ∧ msgGas msg = txGas (fields tx) ∧ msgTo msg = txTo (fields tx) ∧
    msgNonce msg = txNonce (fields tx) ∧ msgValue msg = default 0 (txValue (fields tx)) ∧
    Some (msgGasFeeCap msg) = GetGasFeeCap tx ∧
    ∃ cap tip, GetGasFeeCap tx = Some cap ∧ GetGasTipCap tx = Some tip ∧
      msgGasPrice msg = Z.min (tip + base) cap.

Section ante.
Context `{EvmEnv} {D : LegacyDecOps} `{IntrinsicGas} `{CoreMessages} {B S A : Type} `{BankOps B} `{AuthKeeper A}.
Variable evmDenom : denom.
Variable AccAddress : Address → addr.
Variable r : Restriction B S.
Variable theRules : Rules.
Variable IsIstanbul : bool.
Variable accessControl : AccessControl.
Variable allowUnprotectedTxs : bool.
Variable maxGasWanted : Z.
(** The type assertion to a clawback vesting account. *)
Variable asClawback : AuthAccount → option ClawbackVestingAccount.

Abbreviation C := (EvmCtx B S A).
Abbreviation TxCtx := (TxCtx (B:=B) (S:=S) (A:=A)).
Implicit Types (c : C) (t : TxCtx) (a : AnteCtx).

(** 06_account_verification.go *)
Definition VerifyAccountBalance c (from : Address) (tx : TxData) : result unit * C :=
  match KeeperGetAccount evmDenom AccAddress c from with
  | Some acct =>
      if IsContract acct then (Err ErrInvalidType, c) else (CheckSenderBalance (Balance acct) tx, c)
  | None =>
      let '(acct, x) := NewAccountWithAddress (cAuth c) (AccAddress from) in
      (CheckSenderBalance (Balance NewEmptyAccount) tx, with_auth (AuthSetAccount x acct) c)
  end.

(** 07_can_transfer.go: the machine is only built for its [CanTransfer]. *)
Definition CheckCanTransfer c (msg : Message) (baseFee : option Z) : result unit :=
  _ ← (if IsLondon theRules
       then b ← deref baseFee; guard! b <=? msgGasFeeCap msg else ErrInsufficientFee; Ok tt
       else Ok tt);
  let balance := match KeeperGetAccount evmDenom AccAddress c (msgFrom msg) with Some acct => Balance acct | None => 0 end in
  guard! negb ((0 <? msgValue msg) && negb (msgValue msg <=? balance)) else ErrInsufficientFunds; Ok tt.

(** 08_vesting.go: total and spendable of each clawback account. *)
Definition Expenses : Type := gmap addr (Z * Z).

Definition UpdateAccountExpenses c (blockTime : Z) (expenses : Expenses) (who : addr)
    (va : ClawbackVestingAccount) (newExpenses : Z) : result (Z * Z * Expenses) :=
  match expenses !! who with
  | Some (total, spendable) =>
      let x := (total + newExpenses, spendable) in Ok (x, <[who := x]> expenses)
  | None =>
      let baseAmount := WrapperGetBalance evmDenom c who in
      guard! negb (baseAmount =? 0) else ErrInsufficientFunds;
      locked ← LockedCoins va blockTime;
      let lockedAmount := ConvertAmountTo18DecimalsBigInt (amt locked evmDenom) in
      let diff := baseAmount - lockedAmount in
      let x := (newExpenses, if 0 <? diff then diff else 0) in
      Ok (x, <[who := x]> expenses)
  end.

Definition CheckVesting c (blockTime : Z) (expenses : Expenses) (acct : AuthAccount) (value : option Z) : result Expenses :=
  match asClawback acct with
  | None => Ok expenses
  | Some va =>
      value ← deref value;
      '(total, spendable, expenses) ← UpdateAccountExpenses c blockTime expenses (GetAddress acct) va value;
      guard! total <=? spendable else ErrInsufficientUnlockedCoins; Ok expenses
  end.

(** x/evm/keeper/fees.go, with [GetSignerAcc] and [DeductFees] of the SDK. *)
Definition DeductTxCostsFromUserBalance c (fees : Z) (from : Address) : result unit * C :=
  match AuthGetAccount (cAuth c) (AccAddress from) with
  | None => (Err ErrUnknownAddress, c)
  | Some acct =>
      if fees <=? 0 then (Err ErrInsufficientFee, c)
      else
        match WrapperSendToModule evmDenom r c (GetAddress acct) FeeCollectorName fees with
        | (Err _, c) => (Err ErrInsufficientFunds, c)
        | (Ok _, c) => (Ok tt, c)
        end
  end.

(** 09_gas_consume.go *)
Definition deductFees c (fees : option Z) (feePayer : Address) : result unit * C :=
  match fees with
  | None => (Ok tt, c)
  | Some f => if f =? 0 then (Ok tt, c) else DeductTxCostsFromUserBalance c f feePayer
  end.

(** 10_increment_sequence.go *)
Definition IncrementNonce c (acct : AuthAccount) (txNonce : Z) : result unit * C :=
  let nonce := GetSequence acct in
  if negb (txNonce =? nonce) then (Err ErrInvalidSequence, c)
  else
    match SetSequence (u64 (nonce + 1)) acct with
    | Err e => (Err e, c)
    | Ok acct => (Ok tt, with_auth (AuthSetAccount (cAuth c) acct) c)
    end.

(** 11_gas_wanted.go *)
Definition CheckGasWanted a (fees : FeeStore) (gasWanted : Z) (isLondon : bool) : result unit * FeeStore :=
  if negb isLondon then (Ok tt, fees)
  else if BlockGasLimit a <? gasWanted then (Err EvmTx.ErrOutOfGas, fees)
  else if negb (GetBaseFeeEnabled fees (acHeight a)) then (Ok tt, fees)
  else let '(_, fees) := AddTransientGasWanted fees gasWanted in (Ok tt, fees).

(** keeper/keeper.go and wrappers/feemarket.go *)
Definition KeeperGetBaseFee (fees : FeeStore) : option Z :=
  if negb (IsLondon theRules) then None
  else Some (default 0 ((fun f => TruncateInt (ConvertAmountTo18DecimalsLegacy f)) <$> FeeMarket.GetBaseFee fees)).
Definition GetMinGasPrice (fees : FeeStore) : Dec :=
  ConvertAmountTo18DecimalsLegacy (default 0 (MinGasPrice (GetParams fees))).

Record DecoratorUtils := mkUtils {
  duBaseFee : option Z; duMempoolMinGasPrice : Dec; duGlobalMinGasPrice : Dec;
  duTxGasLimit : Z; duGasWanted : Z; duMinPriority : Z; duTxFee : Z;
}.

Definition NewMonoDecoratorUtils a t : result DecoratorUtils :=
  let baseFee := KeeperGetBaseFee (tcFees t) in
  guard! negb (IsLondon theRules && bool_decide (baseFee = None)) else ErrInvalidBaseFee;
  Ok (mkUtils baseFee (ConvertAmountTo18DecimalsLegacy (acMinGasPrice a)) (GetMinGasPrice (tcFees t)) 0 0 maxInt64 0).

Definition isDynamic (tx : TxData) : bool := match tx with DynamicFeeTx _ _ _ => true | _ => false end.

(** Steps 2 to 7 of the loop, which only read, except for a missing account. *)
Definition checkMsg a (u : DecoratorUtils) c (m : EthMsg) : result (Address * Message) * C :=
  let tx := emData m in
  let gas := NewDec (txGas (fields tx)) in
  let early :=
    feeAmt ← Fee tx;
    _ ← (if acCheckTx a && negb (acSimulate a)
         then CheckMempoolFee (NewDec feeAmt) (duMempoolMinGasPrice u) gas (IsLondon theRules) else Ok tt);
    feeAmt ← (if isDynamic tx && bool_decide (is_Some (duBaseFee u)) then EffectiveFee tx (duBaseFee u) else Ok feeAmt);
    _ ← CheckGlobalFee (NewDec feeAmt) (duGlobalMinGasPrice u) gas;
    _ ← ValidateMsg accessControl tx (emFrom m);
    SignatureVerification m allowUnprotectedTxs in
  match early with
  | Err e => (Err e, c)
  | Ok from =>
      match VerifyAccountBalance c from tx with
      | (Err e, c) => (Err e, c)
      | (Ok _, c) =>
          (msg ← AsMessage tx from (duBaseFee u); _ ← CheckCanTransfer c msg (duBaseFee u); Ok (from, msg), c)
      end
  end.

(** Steps 8 to 11. *)
Definition chargeMsg a (u : DecoratorUtils) (envelopeGas : Z) (expenses : Expenses) t (tx : TxData) (from : Address)
    : result (DecoratorUtils * Expenses) * TxCtx :=
  let c := tcStore t in
  match AuthGetAccount (cAuth c) (AccAddress from) with
  | None => (Err ErrUnknownAddress, t)
  | Some acct =>
      match (expenses ← CheckVesting c (acBlockTime a) expenses acct (txValue (fields tx));
             fees ← VerifyFee tx (duBaseFee u) (IsHomestead theRules) IsIstanbul (acCheckTx a); Ok (expenses, fees)) with
      | Err e => (Err e, t)
      | Ok (expenses, fees) =>
          match deductFees c fees from with
          | (Err e, c) => (Err e, with_store c t)
          | (Ok _, c) =>
              match (p ← GetMsgPriority tx (duMinPriority u) (duBaseFee u); f ← Fee tx; Ok (p, f)) with
              | Err e => (Err e, with_store c t)
              | Ok (priority, f) =>
                  let u := mkUtils (duBaseFee u) (duMempoolMinGasPrice u) (duGlobalMinGasPrice u)
                    (u64 (duTxGasLimit u + txGas (fields tx)))
                    (UpdateCumulativeGasWanted (acCheckTx a) (txGas (fields tx)) maxGasWanted (duGasWanted u))
                    priority (duTxFee u + f) in
                  match IncrementNonce c acct (txNonce (fields tx)) with
                  | (Err e, c) => (Err e, with_store c t)
                  | (Ok _, c) =>
                      let '(res, fs) := CheckGasWanted a (tcFees t) envelopeGas (IsLondon theRules) in
                      let t := mkTxCtx c fs (tcTransient t) (tcMeter t) in
                      match res with Err e => (Err e, t) | Ok _ => (Ok (u, expenses), t) end
                  end
              end
          end
      end
  end.

Fixpoint anteLoop a (envelopeGas : Z) (msgs : list (result EthMsg)) (u : DecoratorUtils) (expenses : Expenses) t
    : result DecoratorUtils * TxCtx :=
  match msgs with
  | [] => (Ok u, t)
  | Err e :: _ => (Err e, t)
  | Ok m :: msgs =>
      match checkMsg a u (tcStore t) m with
      | (Err e, c) => (Err e, with_store c t)
      | (Ok (from, _), c) =>
          match chargeMsg a u envelopeGas expenses (with_store c t) (emData m) from with
          | (Err e, t) => (Err e, t)
          | (Ok (u, expenses), t) => anteLoop a envelopeGas msgs u expenses t
          end
      end
  end.

(** [CheckBlockGasLimit] also sets the priority, which is returned. *)
Definition CheckBlockGasLimit a (gasWanted minPriority : Z) t : result Z * TxCtx :=
  if BlockGasLimit a <? gasWanted then (Err EvmTx.ErrOutOfGas, t)
  else (Ok minPriority, with_meter (NewInfiniteGasMeterWithLimit gasWanted) t).

Definition SetupContextAndResetTransientGas t : TxCtx := with_transient (ResetTransientGasUsed (tcTransient t)) t.

Definition MonoAnteHandle a (tx : EthTx) t : result Z * TxCtx :=
  match (if acReCheckTx a then Ok None else i ← ValidateTx tx; Ok (Some i)) with
  | Err e => (Err e, t)
  | Ok txFeeInfo =>
      let t := SetupContextAndResetTransientGas t in
      match (u ← NewMonoDecoratorUtils a t; match etMsgs tx with None => Err ErrUnknownRequest | Some ms => Ok (u, ms) end) with
      | Err e => (Err e, t)
      | Ok (u, msgs) =>
          match anteLoop a (etGasLimit tx) msgs u ∅ t with
          | (Err e, t) => (Err e, t)
          | (Ok u, t) =>
              match CheckTxFee txFeeInfo (duTxFee u) (duTxGasLimit u) with
              | Err e => (Err e, t)
              | Ok _ => CheckBlockGasLimit a (duGasWanted u) (duMinPriority u) t
              end
          end
      end
  end.
End ante.
