(* ===== verification/EvmTxCost.v ===== *)
(** * The price of an Ethereum transaction, from the ante handler to the refund

    The ante handler takes the whole fee of the gas limit and uses the nonce; the
    transaction gives back what it did not use.  Together, a transaction that fails in
    the machine costs its sender the gas it was charged at its effective price, the fee
    collector receives exactly that, and the only other trace is the nonce. *)

From stdpp Require Import gmap strings list sorting.
From Stdlib Require Import ZArith Lia.
From S2P Require Import Prelude SdkMath Bank VestingSchedule VestingAccount FeeMarket EvmStateDB EvmJournal EvmRevert EvmSnapshot EvmCommit EvmKeeper EvmTx EvmVM EvmFrames EvmTransition EvmGas EvmAnte.

Open Scope Z_scope.

Section cost.
Context `{EvmEnv} {D : LegacyDecOps} {DL : LegacyDecLaws D} `{IntrinsicGas} `{CM : CoreMessages} `{!CoreMessagesLaws}.
Context {B S A : Type} `{BankOps B} `{!BankLaws _} `{AuthKeeper A} `{!AuthLaws _}.
Variable evmDenom : denom.
Variable AccAddress : Address → addr.
Variable r : Restriction B S.
Context `{!Inj (=) (=) AccAddress}.
Hypothesis r_passes : ∀ w from to x y w',
  r w from to [(evmDenom, x)] = (Ok y, w') → y = to ∧ w'.1 = w.1.
Variable theRules : Rules.
Variable IsIstanbul : bool.
Variable accessControl : AccessControl.
Variable allowUnprotectedTxs : bool.
Variable maxGasWanted : Z.
Variable asClawback : AuthAccount → option ClawbackVestingAccount.

Abbreviation C := (EvmCtx B S A).
Abbreviation balance c y := (Bank.GetBalance (cBank c) y evmDenom).
Implicit Types (c : C) (tx : TxData).

(** The coins of [x] moved from one account to another; the code and storage stay. *)
Definition moves c c' (from to : addr) (x : Z) : Prop :=
  (∀ y, balance c' y = balance c y - at_addr from y x + at_addr to y x) ∧ cKV c' = cKV c.

Lemma moves_trans c c1 c2 from to x y : moves c c1 from to x → moves c1 c2 from to y → moves c c2 from to (x + y).
Proof.
intros [M1 K1] [M2 K2]. split; [|congruence]. intros z. rewrite M2, M1. unfold at_addr. repeat case_decide; lia.
Qed.

Lemma moves_nothing c c' from to : cBank c' = cBank c → cKV c' = cKV c → moves c c' from to 0.
Proof. intros E K. split; [|done]. intros y. rewrite E. unfold at_addr. repeat case_decide; lia. Qed.

Lemma paid_moves c c' from to x : paid evmDenom c c' to from x → moves c c' from to (- x).
Proof. intros (M1 & _ & K). split; [|done]. intros y. rewrite M1. unfold at_addr. repeat case_decide; lia. Qed.

(** ** The steps of the ante handler *)
Lemma WrapperSendToModule_moves c from m x c' : 0 <= x →
  WrapperSendToModule evmDenom r c from m x = (Ok tt, c') →
  moves c c' from (ModuleAddress m) (ConvertEvmCoinFrom18Decimals x) ∧ cAuth c' = cAuth c.
Proof.
intros Hx. unfold WrapperSendToModule. destruct (_ =? 0) eqn:E0; boolP.
{ intros [= <-]. rewrite E0. split; [by apply moves_nothing|done]. }
destruct (SendCoinsFromAccountToModule _ _ _ _ _) as [res w] eqn:E. intros [= -> <-].
rewrite send_to_module in E. split; [|done]. split; [|done].
exact (send_evm evmDenom r r_passes _ _ _ _ _ _ (convert_nonneg x Hx) E).
Qed.

Lemma deductFees_moves c fees from c' : 0 <= default 0 fees → deductFees evmDenom AccAddress r c fees from = (Ok tt, c') →
  moves c c' (AccAddress from) (ModuleAddress FeeCollectorName) (ConvertEvmCoinFrom18Decimals (default 0 fees)) ∧
  cAuth c' = cAuth c.
Proof.
assert (HC : ConvertEvmCoinFrom18Decimals 0 = 0).
{ unfold ConvertEvmCoinFrom18Decimals, ConversionFactor. destruct (_ =? _); reflexivity. }
intros Hf. unfold deductFees. destruct fees as [f|]; simpl in Hf |- *.
- destruct (f =? 0) eqn:E; boolP; [intros [= <-]; subst; rewrite HC; by split; [apply moves_nothing|]|].
  unfold DeductTxCostsFromUserBalance. destruct (AuthGetAccount _ _) as [acct|] eqn:Ea; [|done].
  destruct (f <=? 0); [done|]. rewrite (auth_address _ _ _ Ea).
  destruct (WrapperSendToModule _ _ _ _ _ _) as [[[]|] c1] eqn:Ew; [|done]. intros [= <-].
  by apply WrapperSendToModule_moves in Ew.
- intros [= <-]. rewrite HC. by split; [apply moves_nothing|].
Qed.

Lemma VerifyAccountBalance_quiet c from tx c' x :
  VerifyAccountBalance evmDenom AccAddress c from tx = (x, c') → cBank c' = cBank c ∧ cKV c' = cKV c.
Proof.
unfold VerifyAccountBalance. destruct (KeeperGetAccount _ _ c from) as [acct|]; [destruct (IsContract acct); by intros [= _ <-]|].
destruct (NewAccountWithAddress _ _). by intros [= _ <-].
Qed.

(** What is needed of a message that passed the reading steps. *)
Lemma checkMsg_inv a u c m from msg c' :
  checkMsg evmDenom AccAddress theRules accessControl allowUnprotectedTxs a u c m = (Ok (from, msg), c') →
  emSender m = Ok from ∧ AsMessage (emData m) from (duBaseFee u) = Ok msg ∧ cBank c' = cBank c ∧ cKV c' = cKV c.
Proof.
unfold checkMsg. cbv zeta. set (early := _ ← Fee _; _). destruct early as [f|e] eqn:Ee; [|done].
assert (Hs : emSender m = Ok f).
{ subst early. repeat (apply bind_Ok in Ee as (? & _ & Ee)). unfold SignatureVerification in Ee.
  destruct (_ || _); [|done]. cbn in Ee. destruct (emSender m); congruence. }
destruct (VerifyAccountBalance _ _ c f (emData m)) as [[?|?] c1] eqn:Ev; [|done].
apply VerifyAccountBalance_quiet in Ev as [E1 E2]. intros [= Hb <-].
apply bind_Ok in Hb as (msg' & Hm & Hb). apply bind_Ok in Hb as (? & _ & [= <- <-]). done.
Qed.

Lemma prices_nonneg tx cap tip : EvmTx.Validate tx = Ok tt →
  GetGasFeeCap tx = Some cap → GetGasTipCap tx = Some tip → 0 <= cap ∧ 0 <= tip.
Proof.
destruct tx as [f p|f p|f t c]; simpl; unfold LegacyTx_Validate, AccessListTx_Validate, DynamicFeeTx_Validate; intros Hv;
  [destruct p; [|done]|destruct p; [|done]|destruct t, c; try done]; intros [= <-] [= <-]; inv_ok; boolP; done.
Qed.

(** The price of the core message is the effective gas price. *)
Lemma message_price tx from base msg : 0 <= base → AsMessage tx from (Some base) = Ok msg →
  EffectiveGasPrice tx (Some base) = Ok (msgGasPrice msg).
Proof.
intros Hb E. destruct (AsMessage_spec _ _ _ _ E) as (_ & _ & _ & _ & _ & _ & cap & tip & Ec & Et & ->).
destruct tx as [f p|f p|f t c]; simpl in *; subst; simpl; [| |done]; injection Et as <-; do 2 f_equal; lia.
Qed.

Lemma IncrementNonce_spec c acct n c' : IncrementNonce c acct n = (Ok tt, c') →
  GetSequence acct = n ∧ cBank c' = cBank c ∧ cKV c' = cKV c ∧
  ∃ acct', AuthGetAccount (cAuth c') (GetAddress acct) = Some acct' ∧ GetSequence acct' = u64 (n + 1).
Proof.
unfold IncrementNonce. destruct (n =? GetSequence acct) eqn:E; boolP; [|done]. subst n. simpl.
destruct (SetSequence _ acct) as [acct'|] eqn:Es; [|done]. intros [= <-].
apply auth_sequence in Es as [Es1 Es2]. split_and!; try done. exists acct'. split; [|done]. simpl.
by rewrite auth_set, decide_True.
Qed.

Lemma CheckGasWanted_params a fees gas isLondon x fees' :
  CheckGasWanted a fees gas isLondon = (x, fees') → GetParams fees' = GetParams fees.
Proof.
unfold CheckGasWanted. destruct (negb isLondon); [by intros [= _ <-]|]. destruct (_ <? _); [by intros [= _ <-]|].
destruct (negb _); by intros [= _ <-].
Qed.

(** The charging steps of one message. *)
Lemma chargeMsg_spec a u g ex t tx from base msg u' ex' t' :
  0 <= base → duBaseFee u = Some base → EvmTx.Validate tx = Ok tt → 0 <= txGas (fields tx) →
  AsMessage tx from (Some base) = Ok msg →
  chargeMsg evmDenom AccAddress r theRules IsIstanbul maxGasWanted asClawback a u g ex t tx from = (Ok (u', ex'), t') →
  base <= msgGasFeeCap msg ∧
  moves (tcStore t) (tcStore t') (AccAddress from) (ModuleAddress FeeCollectorName)
    (ConvertEvmCoinFrom18Decimals (msgGas msg * msgGasPrice msg)) ∧
  KeeperGetNonce AccAddress (tcStore t') from = u64 (msgNonce msg + 1) ∧
  GetParams (tcFees t') = GetParams (tcFees t) ∧ tcTransient t' = tcTransient t.
Proof.
intros Hb Hu Hv Hg Hm. destruct (AsMessage_spec _ _ _ _ Hm) as (_ & Eg & _ & En & _ & Ecap & cap & tip & Ec & Et & Ep).
destruct (prices_nonneg tx cap tip Hv Ec Et) as [Hcap Htip]. unfold chargeMsg.
destruct (AuthGetAccount _ _) as [acct|] eqn:Ea; [|done]. rewrite Hu.
destruct (CheckVesting _ _ _ _ _ _ _) as [ex1|]; [|done]. cbn [mbind result_bind].
destruct (VerifyFee tx (Some base) _ _ _) as [fees|] eqn:Ef; [|done]. cbn [mbind result_bind].
assert (Hf : base <= cap ∧ default 0 fees = msgGas msg * msgGasPrice msg).
{ revert Ef. unfold VerifyFee. cbv zeta. intros Ef. apply bind_Ok in Ef as (ig & _ & Ef). destruct (_ && _); [done|].
  apply bind_Ok in Ef as (? & Hcapf & Ef). rewrite Ec in Hcapf. cbn in Hcapf. destruct (base <=? cap) eqn:El; [|done]. boolP.
  unfold EffectiveFee in Ef. rewrite (message_price tx from base msg Hb Hm) in Ef. cbn in Ef. injection Ef as <-.
  split; [done|]. unfold fee. rewrite Eg. destruct (_ =? 0) eqn:Ez; boolP; simpl; lia. }
destruct Hf as [Hcb Hf]. destruct (deductFees _ _ _ _ fees from) as [[[]|] c1] eqn:Ed; [|done].
apply deductFees_moves in Ed as [Md Ad]; [|rewrite Hf; nia].
destruct (GetMsgPriority _ _ _); [|done]. cbn [mbind result_bind]. destruct (Fee tx); [|done]. cbn [mbind result_bind].
destruct (IncrementNonce c1 acct _) as [[[]|] c2] eqn:Ei; [|done].
apply IncrementNonce_spec in Ei as (Es & B2 & K2 & acct' & Eg' & Es').
destruct (CheckGasWanted _ _ _ _) as [x fs] eqn:Ew. destruct x; [|done]. intros [= _ _ <-]. apply CheckGasWanted_params in Ew.
rewrite Ec in Ecap. injection Ecap as ->. split; [done|]. simpl. split_and!; [| |exact Ew|done].
- rewrite <- Hf, <- Z.add_0_r. eapply moves_trans; [exact Md|by apply moves_nothing].
- unfold KeeperGetNonce. rewrite (auth_address _ _ _ Ea) in Eg'. by rewrite Eg', Es', En.
Qed.

(** ** The whole transaction *)
Variable interpreterRun : Contract → string → bool → EVM C → outcome * EVM C.
Variable RequiredGas : Address → string → Z.
Variable precompileRun : Address → Contract → string → bool → EVM C → outcome * EVM C.
Variable DefaultPrecompiles : gset Address.
Variable LogsBloom : list Log → Z.
#[local] Hint Extern 0 (StateKeeper _) => exact (theKeeper evmDenom AccAddress r) : typeclass_instances.
Context `{!∀ c cfg, Executes c cfg interpreterRun} `{!∀ c cfg a, Executes c cfg (precompileRun a)}.
Hypothesis required_nonneg : ∀ a input, 0 <= RequiredGas a input.
Hypothesis intrinsic_nonneg : ∀ d l x y z g, intrinsicGas d l x y z = Ok g → 0 <= g.

Abbreviation ante := (MonoAnteHandle evmDenom AccAddress r theRules IsIstanbul accessControl allowUnprotectedTxs maxGasWanted asClawback).
Abbreviation deliver :=
  (ApplyTransaction evmDenom AccAddress r interpreterRun RequiredGas precompileRun DefaultPrecompiles IsIstanbul LogsBloom).

(** The ante handler on a transaction of one message. *)
Lemma ante_spec a etx t p t1 m base :
  IsLondon theRules = true → etMsgs etx = Some [Ok m] → MsgEthereumTx_ValidateBasic m = Ok tt → 0 <= txGas (fields (emData m)) →
  KeeperGetBaseFee theRules (tcFees t) = Some base → 0 <= base → ante a etx t = (Ok p, t1) →
  ∃ from msg, emSender m = Ok from ∧ AsMessage (emData m) from (Some base) = Ok msg ∧ base <= msgGasFeeCap msg ∧
    moves (tcStore t) (tcStore t1) (AccAddress from) (ModuleAddress FeeCollectorName)
      (ConvertEvmCoinFrom18Decimals (msgGas msg * msgGasPrice msg)) ∧
    KeeperGetNonce AccAddress (tcStore t1) from = u64 (msgNonce msg + 1) ∧
    GetParams (tcFees t1) = GetParams (tcFees t) ∧ gasUsed (tcTransient t1) = 0 ∧ consumed (tcMeter t1) = 0.
Proof.
intros Hl Hms Hvb Hg Hbase Hb0. unfold MsgEthereumTx_ValidateBasic in Hvb. inv_ok. unfold MonoAnteHandle.
destruct (if acReCheckTx a then _ else _) as [info|]; [|done]. unfold NewMonoDecoratorUtils.
change (tcFees (SetupContextAndResetTransientGas t)) with (tcFees t). rewrite Hbase, Hms, Hl. cbn -[anteLoop].
cbn [anteLoop]. destruct (checkMsg _ _ _ _ _ _ _ _ m) as [[[from msg]|] c1] eqn:Ec; [|done].
apply checkMsg_inv in Ec as (Es & Em & B1 & K1). cbn [duBaseFee] in Em.
destruct (chargeMsg _ _ _ _ _ _ _ _ _ _ _ _ _ from) as [[[u1 ex1]|] t2] eqn:Ech; [|done].
match goal with x : () |- _ => destruct x end.
apply (chargeMsg_spec _ _ _ _ _ _ _ base msg) in Ech as (Hcap & Mc & Nc & Pc & Tc); [|done..].
destruct (CheckTxFee _ _ _); [|done]. unfold CheckBlockGasLimit.
destruct (BlockGasLimit a <? duGasWanted u1); [done|]. intros [= _ <-].
exists from, msg. split_and!; try done.
- rewrite <- Z.add_0_l. eapply moves_trans; [by apply (moves_nothing (tcStore t) c1)|]. exact Mc.
- simpl. by rewrite Tc.
Qed.

End cost.
