(* ===== verification/EvmTxExample.v ===== *)
(** * A transaction from the ante handler to the refund

    On the machine of [FramesExample], [alice] calls the vault with a dynamic fee
    transaction.  Half of the gas limit is the least she pays for. *)

From stdpp Require Import gmap strings pretty list sorting.
From Stdlib Require Import ZArith Lia.
From S2P Require Import Prelude SdkMath Bank FeeMarket EvmStateDB EvmJournal EvmRevert EvmSnapshot EvmCommit EvmKeeper EvmExample EvmTx EvmVM EvmFrames EvmFramesExample EvmTransition EvmGas EvmAnte EvmTxCost.

Open Scope Z_scope.

Module TxExample.
Import EvmExample FramesExample.
#[local] Existing Instance bankers_dec.
#[local] Existing Instance bankers_dec_laws.

#[local] Instance intrinsic50 : IntrinsicGas := fun _ _ _ _ _ => Ok 50.
Lemma intrinsic50_nonneg d l x y z g : intrinsicGas d l x y z = Ok g → 0 <= g.
Proof. intros [= <-]. lia. Qed.

(** Core messages as go-ethereum builds them. *)
#[local] Instance core : CoreMessages := fun tx from base =>
  match GetGasFeeCap tx, GetGasTipCap tx, base with
  | Some cap, Some tip, Some b =>
      Ok (mkMessage from (txTo (fields tx)) (txNonce (fields tx)) (txGas (fields tx)) (Z.min (tip + b) cap) cap
            (default 0 (txValue (fields tx))) (txData (fields tx)) (txAccessList (fields tx)))
  | _, _, _ => Err nilPointer
  end.
#[local] Instance core_laws : CoreMessagesLaws.
Proof.
intros tx from base msg. unfold AsMessage, core.
destruct (GetGasFeeCap tx) as [cap|]; [|done]. destruct (GetGasTipCap tx) as [tip|]; [|done].
intros [= <-]. split_and!; try done. by exists cap, tip.
Qed.

Definition feeParams : Params := mkParams false 8 2 (Some (NewDec 1)) 0 (Some 0) (Some DefaultMinGasMultiplier).
Definition fees0 : FeeStore := mkFeeStore (Some feeParams) feeParams 0 None 0.
Lemma fees0_valid : valid_params (GetParams fees0).
Proof. apply Validate_spec; [split; simpl; lia|reflexivity]. Qed.

Definition t0 : TxCtx := mkTxCtx store0 fees0 (mkEvmTransient 0 0 0 0) (mkMeter 0 0).
Definition block0 : AnteCtx := mkAnteCtx false false false 10 1000 0 (Some 100000) None.

(** 300 gas at a tip of 1 and a cap of 3: the price is 2. *)
Definition data (input : string) : TxData :=
  DynamicFeeTx (mkTxFields 5 300 (Some "vault") true (Some 100) input [] (Some 88188)) (Some 1) (Some 3).
Definition m (input : string) : EthMsg := mkEthMsg None (data input) true (Ok "alice") true 0 true.
Definition etx (input : string) : EthTx := mkEthTx (Ok tt) "" 0 0 1 0 "" "" 0 900 300 (Some [Ok (m input)]).

Definition before (input : string) : result Z * TxCtx :=
  MonoAnteHandle "liao" (fun a => a) r (rules setup) true (accessControl setup) false 0 (fun _ => None) block0 (etx input) t0.
Definition msg (input : string) : Message :=
  match AsMessage (data input) "alice" (Some 1) with Ok x => x | Err _ => mkMessage "" None 0 0 0 0 0 "" [] end.
Definition after (input : string) : result MsgEthereumTxResponse * TxCtx :=
  ApplyTransaction "liao" (fun a => a) r code price idle ∅ true (fun _ => 0) (Ok setup) (Ok (msg input)) zeroHash zeroHash
    (before input).2.

Definition response (input : string) : MsgEthereumTxResponse :=
  match (after input).1 with Ok x => x | Err _ => mkResponse 0 None "" [] end.
Definition holds (t : TxCtx (B:=ledger) (S:=EnergyKeeper.EnergyStore) (A:=gmap string Z)) (who : string) : Z :=
  Bank.GetBalance (cBank (tcStore t)) who "liao".


End TxExample.
