(* ===== verification/CosmosAnte.v ===== *)
(** * app/ante/cosmos, app/post and x/staking: rules on Cosmos transactions

    The decorators that inspect messages, also inside authz executions: Ethereum
    messages and disabled types, ATOX over IBC, and the validators' self-stake floor;
    the minimum gas price; the burning of fees after the transaction; and the check
    that vesting accounts do not delegate what has not vested.  A [Msg] keeps of a
    message what these rules read; its type URL stands for the rest. *)

From stdpp Require Import gmap strings list.
From Stdlib Require Import ZArith Lia.
From S2P Require Import Prelude SdkMath Bank VestingSchedule VestingAccount VestingKeeper FeeMarket.

Open Scope Z_scope.

#[local] Set Warnings "-register-all".
Inductive Msg :=
  | MsgExec (inner : option (list Msg))      (** [None]: they do not decode *)
  | MsgGrant (authorization : option string) (** the type URL it authorises *)
  | MsgTransfer (tokenDenom : denom)
  | MsgCreateValidator (minSelfDelegation : option Z) (value : Z)
  | MsgEditValidator (minSelfDelegation : option Z)
  | MsgEthereumTx
  | MsgOther (url : string).

(** [sdk.MsgTypeURL]. *)
Definition MsgTypeURL (m : Msg) : string :=
  match m with
  | MsgExec _ => "/cosmos.authz.v1beta1.MsgExec"
  | MsgGrant _ => "/cosmos.authz.v1beta1.MsgGrant"
  | MsgTransfer _ => "/ibc.applications.transfer.v1.MsgTransfer"
  | MsgCreateValidator _ _ => "/cosmos.staking.v1beta1.MsgCreateValidator"
  | MsgEditValidator _ => "/cosmos.staking.v1beta1.MsgEditValidator"
  | MsgEthereumTx => "/ethermint.evm.v1.MsgEthereumTx"
  | MsgOther u => u
  end.

Definition maxNestedMsgs : nat := 7.
Definition maxNestedAtoxMsgs : nat := 7.

(** ** The walks *)

(** [reject] of reject_atox_ibc.go: one message at a depth, and a list. *)
Fixpoint rejectOne (atox : denom) (depth : nat) (m : Msg) : result unit :=
  match m with
  | MsgExec None => Err (Registered "sdk" 18)
  | MsgExec (Some inner) =>
      if (maxNestedAtoxMsgs <=? S depth)%nat then Err (Registered "sdk" 18)
      else (fix loop ms := match ms with [] => Ok tt | m :: ms => _ ← rejectOne atox (S depth) m; loop ms end) inner
  | MsgTransfer d => if decide (d = atox) then Err (Registered "sdk" 18) else Ok tt
  | _ => Ok tt
  end.
Fixpoint rejectLoop (atox : denom) (depth : nat) (ms : list Msg) : result unit :=
  match ms with [] => Ok tt | m :: ms => _ ← rejectOne atox depth m; rejectLoop atox depth ms end.
Definition reject (atox : denom) (ms : list Msg) (depth : nat) : result unit :=
  if (maxNestedAtoxMsgs <=? depth)%nat then Err (Registered "sdk" 18) else rejectLoop atox depth ms.

Definition RejectAtoxIBC (atox : denom) (ms : list Msg) : result unit :=
  if decide (atox = ""%string) then Ok tt else reject atox ms 1.

(** [check] of min_self_delegation.go. *)
Definition belowFloor (floor : Z) (x : option Z) : bool := match x with None => true | Some x => x <? floor end.

Fixpoint checkOne (floor : Z) (depth : nat) (m : Msg) : result unit :=
  match m with
  | MsgExec None => Err (Plain "cannot decode")
  | MsgExec (Some inner) =>
      if (maxNestedMsgs <=? S depth)%nat then Err (Plain "found more nested msgs than permitted")
      else (fix loop ms := match ms with [] => Ok tt | m :: ms => _ ← checkOne floor (S depth) m; loop ms end) inner
  | MsgCreateValidator declared value =>
      guard! negb (belowFloor floor declared) else Plain "validator min_self_delegation below floor";
      guard! negb (value <? floor) else Plain "validator must self-delegate at least the floor"; Ok tt
  | MsgEditValidator (Some x) => guard! negb (x <? floor) else Plain "validator min_self_delegation below floor"; Ok tt
  | _ => Ok tt
  end.
Fixpoint checkLoop (floor : Z) (depth : nat) (ms : list Msg) : result unit :=
  match ms with [] => Ok tt | m :: ms => _ ← checkOne floor depth m; checkLoop floor depth ms end.
Definition check (floor : Z) (ms : list Msg) (depth : nat) : result unit :=
  if (maxNestedMsgs <=? depth)%nat then Err (Plain "found more nested msgs than permitted") else checkLoop floor depth ms.

Definition MinSelfDelegation (floor : option Z) (ms : list Msg) : result unit :=
  match floor with
  | None => Ok tt
  | Some f => if negb (0 <? f) then Ok tt else match check f ms 1 with Err _ => Err (Registered "sdk" 18) | Ok _ => Ok tt end
  end.

(** [checkDisabledMsgs] of authz.go.  The level is a variable of the loop, so it also
    grows from one execution to the next; the loop returns it. *)
Definition isDisabledMsg (disabled : list string) (url : string) : bool := bool_decide (url ∈ disabled).

Fixpoint disabledOne (disabled : list string) (isInner : bool) (lvl : nat) (m : Msg) {struct m} : result nat :=
  match m with
  | MsgExec None => Err (Plain "cannot decode")
  | MsgExec (Some inner) =>
      if (maxNestedMsgs <=? S lvl)%nat then Err (Plain "found more nested msgs than permited")
      else
        _ ← (fix loop (lvl : nat) (ms : list Msg) {struct ms} : result unit := match ms with [] => Ok tt | m :: ms => lvl ← disabledOne disabled true lvl m; loop lvl ms end) (S lvl) inner;
        Ok (S lvl)
  | MsgGrant None => Err (Plain "cannot decode")
  | MsgGrant (Some url) => if isDisabledMsg disabled url then Err (Plain "found disabled msg type") else Ok lvl
  | _ => if isInner && isDisabledMsg disabled (MsgTypeURL m) then Err (Plain "found disabled msg type") else Ok lvl
  end.
Fixpoint disabledLoop (disabled : list string) (isInner : bool) (lvl : nat) (ms : list Msg) : result unit :=
  match ms with [] => Ok tt | m :: ms => lvl ← disabledOne disabled isInner lvl m; disabledLoop disabled isInner lvl ms end.
Definition checkDisabledMsgs (disabled : list string) (ms : list Msg) (isInner : bool) (lvl : nat) : result unit :=
  if (maxNestedMsgs <=? lvl)%nat then Err (Plain "found more nested msgs than permited") else disabledLoop disabled isInner lvl ms.

Definition AuthzLimiter (disabled : list string) (ms : list Msg) : result unit :=
  match checkDisabledMsgs disabled ms false 1 with Err _ => Err (Registered "sdk" 4) | Ok _ => Ok tt end.

Definition RejectMessages (ms : list Msg) : result unit :=
  if existsb (fun m => match m with MsgEthereumTx => true | _ => false end) ms then Err (Registered "sdk" 29) else Ok tt.

(** The order of the decorators in app/ante/cosmos.go. *)
Definition disabledTypes : list string :=
  ["/ethermint.evm.v1.MsgEthereumTx"; "/cosmos.vesting.v1beta1.MsgCreateVestingAccount"]%string.
Definition messageRules (atox : denom) (floor : option Z) (ms : list Msg) : result unit :=
  _ ← RejectMessages ms; _ ← AuthzLimiter disabledTypes ms; _ ← RejectAtoxIBC atox ms; MinSelfDelegation floor ms.

(** ** Fees *)
Section fees.
Context {D : LegacyDecOps}.

(** [AnteHandle] of min_price.go for a fee transaction; [None] is a nil fee. *)
Definition MinGasPriceCheck (fs : FeeStore) (baseDenom : denom) (feeCoins : option coins) (gas : Z) (simulate : bool) : result unit :=
  let minGasPrice := default 0 (MinGasPrice (GetParams fs)) in
  let cs := default [] feeCoins in
  let validFees := match cs with [] => true | [(d, _)] => bool_decide (d = baseDenom) | _ => false end in
  if negb validFees && negb simulate then Err (Plain "expected only use native token for fee")
  else if (minGasPrice =? 0) || simulate then Ok tt
  else
    let fee := TruncateInt (Ceil (Dec_Mul minGasPrice (NewDec gas))) in
    match feeCoins with
    | None => Err (Registered "sdk" 13)
    | Some cs =>
        (** [IsAnyGTE] of the required fee, which is absent unless positive *)
        guard! (0 <? fee) && existsb (fun c => bool_decide (c.1 = baseDenom) && (fee <=? c.2)) cs else Registered "sdk" 13; Ok tt
    end.
End fees.

(** ** Burning (app/post/burn.go) *)
Section burn.
Context {B : Type} `{BankOps B}.
Variable feeCollectorName : string.

(** The loop over the declared fees. *)
Definition burnedCoins (b : B) (fees : coins) : coins :=
  omap (fun '(d, x) =>
    let balance := GetBalance b (ModuleAddress feeCollectorName) d in
    if 0 <? balance then Some (d, Z.min x balance) else None) fees.

Definition BurnPostHandle (b : B) (isFeeTx : bool) (ms : list Msg) (fees : coins) : result B :=
  if negb isFeeTx then Err (Registered "sdk" 29)
  else if existsb (fun m => match m with MsgEthereumTx => true | _ => false end) ms then Ok b
  else if bool_decide (fees = []) || negb (forallb (fun c => 0 <? c.2) fees) then Ok b
  else BurnCoins b feeCollectorName (burnedCoins b fees).
End burn.

(** ** x/staking/keeper/msg_server.go *)
Section staking.
Context {B A : Type} `{BankOps B} `{AccountKeeper A}.
Variable AccAddressFromBech32 : string → option addr.
Variable BondDenom : result denom.

Definition ErrInsufficientVestedCoins := Registered "vesting" 2.

Definition validateDelegationAmountNotUnvested (b : B) (accounts : A) (blockTime : Z) (delegator : string) (amount : Z) : result unit :=
  match AccAddressFromBech32 delegator with
  | None => Err (Plain "decoding bech32 failed")
  | Some a =>
      match akGetAccount accounts a with
      | None => Err (Registered "sdk" 9)
      | Some (AccClawback va) =>
          bond ← BondDenom;
          unvested ← GetVestingCoins va blockTime;
          let delegatable := GetBalance b a bond - amt unvested bond in
          let delegatable := if delegatable <? 0 then 0 else delegatable in
          guard! negb (delegatable <? amount) else ErrInsufficientVestedCoins; Ok tt
      | Some _ => Ok tt
      end
  end.

(** The two wrapped messages; [next] is the message server of the SDK. *)
Variable W : Type.
Variable next : W → result unit * W.

Definition StakingDelegate (b : B) (accounts : A) (blockTime : Z) (delegator : string) (amount : Z) (w : W) : result unit * W :=
  match validateDelegationAmountNotUnvested b accounts blockTime delegator amount with
  | Err e => (Err e, w)
  | Ok _ => next w
  end.

Definition StakingCreateValidator (b : B) (accounts : A) (blockTime : Z) (operator : option string) (value : Z) (w : W) : result unit * W :=
  match operator with
  | None => (Err (Registered "sdk" 7), w)
  | Some a => StakingDelegate b accounts blockTime a value w
  end.
End staking.

(** ** What the walks establish *)

(** A message of the transaction, at any nesting. *)
Inductive inside : list Msg → Msg → Prop :=
  | inside_top ms m : m ∈ ms → inside ms m
  | inside_exec ms inner m : MsgExec (Some inner) ∈ ms → inside inner m → inside ms m.

Lemma rejectLoop_elem atox d ms m : rejectLoop atox d ms = Ok tt → m ∈ ms → rejectOne atox d m = Ok tt.
Proof.
induction ms as [|m' ms IH]; simpl; intros E; [by intros ?%elem_of_nil|]. apply bind_Ok in E as ([] & E1 & E2).
intros [->|Hm]%elem_of_cons; [done|by apply IH].
Qed.

Lemma rejectOne_exec atox d inner : rejectOne atox d (MsgExec (Some inner)) = Ok tt → rejectLoop atox (S d) inner = Ok tt.
Proof.
cbn [rejectOne]. destruct (_ <=? _)%nat; [done|]. induction inner as [|m ms IH]; [done|]. cbn.
intros ([] & E1 & E2)%bind_Ok. cbn [rejectLoop]. rewrite E1. by apply IH.
Qed.

Lemma reject_sound atox ms m : inside ms m → ∀ d, rejectLoop atox d ms = Ok tt → ∃ d', rejectOne atox d' m = Ok tt.
Proof.
induction 1 as [ms m Hm|ms inner m Hin _ IH]; intros d E.
- exists d. by apply (rejectLoop_elem atox d ms).
- apply (IH (S d)), rejectOne_exec. by apply (rejectLoop_elem atox d ms).
Qed.

Lemma checkLoop_elem floor d ms m : checkLoop floor d ms = Ok tt → m ∈ ms → checkOne floor d m = Ok tt.
Proof.
induction ms as [|m' ms IH]; simpl; intros E; [by intros ?%elem_of_nil|]. apply bind_Ok in E as ([] & E1 & E2).
intros [->|Hm]%elem_of_cons; [done|by apply IH].
Qed.

Lemma checkOne_exec floor d inner : checkOne floor d (MsgExec (Some inner)) = Ok tt → checkLoop floor (S d) inner = Ok tt.
Proof.
cbn [checkOne]. destruct (_ <=? _)%nat; [done|]. induction inner as [|m ms IH]; [done|]. cbn.
intros ([] & E1 & E2)%bind_Ok. cbn [checkLoop]. rewrite E1. by apply IH.
Qed.

Lemma check_sound floor ms m : inside ms m → ∀ d, checkLoop floor d ms = Ok tt → ∃ d', checkOne floor d' m = Ok tt.
Proof.
induction 1 as [ms m Hm|ms inner m Hin _ IH]; intros d E.
- exists d. by apply (checkLoop_elem floor d ms).
- apply (IH (S d)), checkOne_exec. by apply (checkLoop_elem floor d ms).
Qed.

Lemma disabledLoop_elem dis b m ms : m ∈ ms → ∀ lvl, disabledLoop dis b lvl ms = Ok tt →
  ∃ l l', disabledOne dis b l m = Ok l'.
Proof.
induction ms as [|m' ms IH]; [by intros ?%elem_of_nil|]. intros Hm lvl. cbn [disabledLoop].
intros (l & E1 & E2)%bind_Ok. apply elem_of_cons in Hm as [->|Hm]; [by eauto|by apply (IH Hm l)].
Qed.

Lemma disabledOne_exec dis b l l' inner : disabledOne dis b l (MsgExec (Some inner)) = Ok l' →
  disabledLoop dis true (S l) inner = Ok tt.
Proof.
cbn [disabledOne]. destruct (_ <=? _)%nat; [done|]. intros ([] & E & _)%bind_Ok. revert E. generalize (S l).
induction inner as [|m ms IH]; intros n; [done|]. cbn. intros (k & E1 & E2)%bind_Ok. cbn [disabledLoop]. rewrite E1. by apply IH.
Qed.

(** A message below an execution has been looked at as an inner one. *)
Lemma disabled_sound dis ms m : inside ms m → ∀ b lvl, disabledLoop dis b lvl ms = Ok tt →
  ∃ b' l l', disabledOne dis b' l m = Ok l' ∧ (b' = b ∧ m ∈ ms ∨ b' = true).
Proof.
induction 1 as [ms m Hm|ms inner m Hin _ IH]; intros b lvl E.
- destruct (disabledLoop_elem dis b m ms Hm lvl E) as (l & l' & E'). exists b, l, l'. eauto.
- destruct (disabledLoop_elem dis b _ ms Hin lvl E) as (l & l' & E'). apply disabledOne_exec in E'.
  destruct (IH true (S l) E') as (b' & l1 & l2 & E1 & Hb). exists b', l1, l2. split; [done|]. right. destruct Hb as [[E2 _]|E2]; done.
Qed.


(** The nesting limit of the authz walk is shared by neighbours: a flat list of empty
    executions is refused from the sixth on, although nothing is nested. *)
Lemma sibling_levels n lvl : disabledLoop disabledTypes false lvl (replicate n (MsgExec (Some []))) = Ok tt ↔ (n = 0 ∨ n + lvl < maxNestedMsgs)%nat.
Proof.
revert lvl. induction n as [|n IH]; intros lvl; [split; [by left|done]|]. cbn [replicate disabledLoop disabledOne].
destruct (maxNestedMsgs <=? S lvl)%nat eqn:E.
- apply Nat.leb_le in E. split; [done|intros [?|?]; [done|lia]].
- apply Nat.leb_gt in E. cbn [mbind result_bind]. rewrite IH. lia.
Qed.

(** The limit on nesting is also a limit on neighbours: the walk over the authz
    executions counts a level for each, so a transaction with a flat list of [n]
    executions passes exactly when [n] is at most five. *)
Theorem sibling_execs n : AuthzLimiter disabledTypes (replicate n (MsgExec (Some []))) = Ok tt ↔ (n <= 5)%nat.
Proof.
unfold AuthzLimiter, checkDisabledMsgs. cbn [Nat.leb maxNestedMsgs]. pose proof (sibling_levels n 1) as Hl. unfold maxNestedMsgs in Hl.
destruct (disabledLoop _ _ _ _) as [[]|e]; split; intros E; try done; [assert ((n = 0 ∨ n + 1 < 7)%nat) by (by apply Hl); lia|].
assert (E' : Err e = Ok tt) by (apply Hl; lia). done.
Qed.

(** ** What is burned *)
Section burn_props.
Context {B : Type} {ops : BankOps B} {laws : BankLaws ops}.
Variable feeCollectorName : string.

Abbreviation collected b d := (GetBalance b (ModuleAddress feeCollectorName) d) (only parsing).

Lemma burned_cons b n x fees d :
  AmountOf (burnedCoins feeCollectorName b ((n, x) :: fees)) d =
  (if decide (n = d) then if 0 <? collected b n then Z.min x (collected b n) else 0 else 0) + AmountOf (burnedCoins feeCollectorName b fees) d.
Proof.
unfold burnedCoins, AmountOf. cbn [omap list_omap]. destruct (0 <? _); cbn [foldr]; case_decide; lia.
Qed.

Lemma burned_notin b fees d : d ∉ map fst fees → AmountOf (burnedCoins feeCollectorName b fees) d = 0 ∧ AmountOf fees d = 0.
Proof.
induction fees as [|[n x] fees IH]; [done|]. cbn [map fst]. intros [Hn Hd]%not_elem_of_cons. rewrite burned_cons.
rewrite AmountOf_cons, !(decide_False (P := n = d)) by done. destruct (IH Hd) as [-> ->]. done.
Qed.

Lemma burned_amount b fees d : NoDup (map fst fees) → coins_valid fees →
  AmountOf (burnedCoins feeCollectorName b fees) d = Z.min (AmountOf fees d) (collected b d).
Proof.
pose proof (balance_nonneg b (ModuleAddress feeCollectorName) d) as Hb.
induction fees as [|[n x] fees IH]; intros Hnd Hv; [simpl; lia|].
cbn [map fst] in Hnd. apply NoDup_cons in Hnd as [Hn Hnd]. apply Forall_cons in Hv as [Hx Hv]. cbn [snd] in Hx.
rewrite burned_cons, AmountOf_cons, IH by done. case_decide as E; [subst n|done].
destruct (burned_notin b fees d Hn) as [_ ->].
destruct (0 <? collected b d) eqn:?; boolP; lia.
Qed.

Lemma burned_valid b fees : coins_valid fees → coins_valid (burnedCoins feeCollectorName b fees).
Proof.
induction 1 as [|[n x] fees Hx _ IH]; [constructor|]. unfold burnedCoins. cbn [omap list_omap].
destruct (0 <? _) eqn:E; [constructor; [|done]|done]. simpl in *. boolP. lia.
Qed.

(** Fees in distinct positive coins: what is taken from the fee collector is, of each
    coin, the fee or what the collector has of it, and the supply falls by as much. *)
Lemma burn_takes b ms fees b' :
  fees ≠ [] → NoDup (map fst fees) → Forall (fun c => 0 < c.2) fees → MsgEthereumTx ∉ ms →
  BurnPostHandle feeCollectorName b true ms fees = Ok b' →
  ∀ d, let burned := Z.min (AmountOf fees d) (collected b d) in
    GetSupply b' d = GetSupply b d - burned ∧
    ∀ a, GetBalance b' a d = GetBalance b a d - at_addr (ModuleAddress feeCollectorName) a burned.
Proof.
intros Hne Hnd Hpos Hms E d. cbv zeta.
assert (Hv : coins_valid fees) by (eapply Forall_impl; [exact Hpos|]; simpl; lia).
unfold BurnPostHandle in E. cbn [negb] in E. destruct (existsb _ ms) eqn:Ex in E.
{ apply existsb_exists in Ex as (m & Hm & Em). destruct m; try done. by apply list_elem_of_In in Hm. }
rewrite (bool_decide_eq_false_2 (fees = [])) in E by done. rewrite (proj2 (forallb_forall _ fees)) in E.
- cbn [negb orb] in E. apply burn_spec in E as (_ & E1 & E2); [|by apply burned_valid].
  rewrite <- (burned_amount b fees d Hnd Hv). split; [apply E2|]. intros a. apply E1.
- intros c Hc. rewrite Forall_forall in Hpos. by apply Z.ltb_lt, Hpos, list_elem_of_In.
Qed.
End burn_props.

(** ** Delegating from a vesting account *)
Section staking_props.
Context {B A : Type} {ops : BankOps B} {laws : BankLaws ops} {ak : AccountKeeper A}.
Variable AccAddressFromBech32 : string → option addr.
Variable bond : denom.
Variable W : Type.
Variable next : W → result unit * W.
Implicit Types (b : B) (m : A).

(** An account that vests delegates, or self-delegates as a validator, at most what it
    holds beyond the coins that have not vested; a larger amount is refused before the
    staking module sees it, and a smaller one reaches it unchanged. *)
Theorem delegation_keeps_unvested b m t s a va amount w :
  AccAddressFromBech32 s = Some a → akGetAccount m a = Some (AccClawback va) → account_wf va → 0 < amount →
  ∃ unvested, GetVestingCoins va t = Ok unvested ∧
    (∀ d, amt unvested d = amt (OriginalVesting va) d - amt (GetVestedCoins va t) d) ∧
    let r := StakingDelegate AccAddressFromBech32 (Ok bond) W next b m t s amount w in
    StakingCreateValidator AccAddressFromBech32 (Ok bond) W next b m t (Some s) amount w = r ∧
    r = if decide (amount + amt unvested bond <= GetBalance b a bond) then next w else (Err ErrInsufficientVestedCoins, w).
Proof.
intros Ha Hm Hwf Hpos. destruct (GetVestingCoins_spec va Hwf t) as (unvested & E & _ & Hu). exists unvested. split; [done|]. split; [done|]. cbv zeta. split; [done|].
unfold StakingDelegate, validateDelegationAmountNotUnvested. rewrite Ha, Hm, E. cbn [mbind result_bind].
set (free := GetBalance b a bond - amt unvested bond).
destruct (free <? 0) eqn:E1; destruct (_ <? amount) eqn:E2; cbn [negb]; boolP; case_decide; try done; unfold free in *; lia.
Qed.
End staking_props.
