(* ===== verification/CosmosSafety.v ===== *)
(** * Cosmos transactions: fees that energy covered, and the rules on examples

    The fee decorator of x/energy and the burning of fees are two ends of one
    transaction.  Composed, they take the declared fee from the fee collector also
    when the sender paid nothing into it.  The theorems about the message rules and
    about delegating from vesting accounts are evaluated here. *)

From stdpp Require Import gmap strings list.
From Stdlib Require Import ZArith Lia.
From S2P Require Import VestingSchedule VestingAccount VestingKeeper VestingSafety VestingExample CosmosAnte Prelude SdkMath Bank EnergyTypes EnergyKeeper EnergyIndex EnergyConsume EnergyAccrual EnergyAnte.

Open Scope Z_scope.

Section covered.
Context {B : Type} {bank : BankOps B} {laws : BankLaws bank} {D : LegacyDecOps}.
Variable sha256 : string → string.

(** The fee decorator alone, before the transaction's messages. *)
Definition deductFee (d : EnergyDeductDecorator) := AnteHandle (bank := bank) sha256 d (fun c w => (Ok c, w)).

Lemma covered_charges_nothing d c tx sim w c' w' res :
  deductFee d c tx sim w = (Ok c', w') → tcReserved c' = Some res →
  Free res = true ∨ ShortfallGas res = 0 → w'.1 = w.1.
Proof.
intros E Hr Hres. unfold deductFee, AnteHandle in E.
repeat first [case_decide; [done|] | destruct (negb (IsFeeTx tx)); [done|]
             | destruct (negb sim && _ && _); [done|] | destruct (negb (GetAccount d _)); [done|]].
destruct (Consume _ _ _ _ _ _ _ _) as [[consumed|e] s]; [|done].
destruct (Free consumed) eqn:Ef; [naive_solver|].
destruct (if sim then Ok tt else _) as [?|]; [|done].
destruct (ShortfallGas consumed =? 0) eqn:Es; [naive_solver|]. exfalso. boolP.
enough (res = consumed) as -> by (destruct Hres; congruence).
case_decide; [naive_solver|]. destruct (if negb _ && negb _ then _ else Ok tt) as [?|]; [|done].
destruct (SendCoinsFromAccountToModule _ _ _ _ _) as [[[]|e] w2]; [|done]. naive_solver.
Qed.

(** C23: A transaction whose gas is subsidised or covered by energy pays nothing into the fee
    collector, and yet the fee it declares is burned from there: the balance of the
    collector falls by the declared fee, or to zero, and so do the fees others paid. *)
Theorem covered_fee_burned d c tx sim w c' w' res ms b' :
  deductFee d c tx sim w = (Ok c', w') → tcReserved c' = Some res →
  Free res = true ∨ ShortfallGas res = 0 →
  GetFee tx ≠ [] → NoDup (map fst (GetFee tx)) → Forall (fun f => 0 < f.2) (GetFee tx) → MsgEthereumTx ∉ ms →
  BurnPostHandle FeeCollectorName w'.1 true ms (GetFee tx) = Ok b' →
  ∀ dn, let burned := Z.min (AmountOf (GetFee tx) dn) (GetBalance w.1 (ModuleAddress FeeCollectorName) dn) in
    GetSupply b' dn = GetSupply w.1 dn - burned ∧
    ∀ a, GetBalance b' a dn = GetBalance w.1 a dn - at_addr (ModuleAddress FeeCollectorName) a burned.
Proof.
intros E Hr Hres Hne Hnd Hpos Hms Hb. rewrite (covered_charges_nothing _ _ _ _ _ _ _ _ E Hr Hres) in Hb.
exact (burn_takes FeeCollectorName w.1 ms (GetFee tx) b' Hne Hnd Hpos Hms Hb).
Qed.
End covered.

(** ** Examples *)
Module CosmosExample.
#[local] Existing Instance VestingExample.accountsKeeper.

(** A subsidised message that declares a fee of 5, with 8 in the fee collector. *)
Definition collector : addr := ModuleAddress FeeCollectorName.
Definition pot : ledger := mkLedger {[(collector, "liao") := 8%N]} {["liao" := 100%N]}.
Definition decorator : EnergyDeductDecorator := mkEnergyDeductDecorator Sample.keeper (fun _ => true) None (fun _ _ => Ok tt).
Definition report : string := "/atoshi.oracle.v1.MsgReportPrice".
Definition reportTx : Tx := mkTx true 1000 [report] [("liao"%string, 5)] "alice" "".
Definition txCtx0 : TxCtx := mkTxCtx (mkCtx 1000 1) "bytes" 0 None None 0.
Definition sha : string → string := fun _ => "hash"%string.
Definition charged := deductFee (D := bankers_dec) sha decorator txCtx0 reportTx false (pot, emptyStore).
Definition free : ConsumeResult := mkConsumeResult 0 0 0 0 0 true [].

Lemma covered_fee_burned_witness :
  charged.1 = Ok (WithReserved free "alice" txCtx0) ∧
  ∃ b', BurnPostHandle FeeCollectorName charged.2.1 true [MsgOther report] (GetFee reportTx) = Ok b' ∧
    Bank.GetBalance b' collector "liao" = 3 ∧ Bank.GetSupply b' "liao" = 95.
Proof.
assert (E0 : charged = (Ok (WithReserved free "alice" txCtx0), (pot, emptyStore))) by (vm_compute; reflexivity).
assert (E : is_ok (BurnPostHandle FeeCollectorName pot true [MsgOther report] (GetFee reportTx)) = true) by (vm_compute; reflexivity).
rewrite E0. cbn [fst snd]. split; [reflexivity|].
destruct (BurnPostHandle _ pot _ _ _) as [b'|] eqn:Eb; [|discriminate]. exists b'. split; [reflexivity|].
destruct (covered_fee_burned (D := bankers_dec) sha decorator txCtx0 reportTx false (pot, emptyStore) _ (pot, emptyStore) free [MsgOther report] b' E0)
  with (dn := "liao"%string) as [Hs Ha]; [reflexivity|left; reflexivity|discriminate|apply NoDup_singleton|repeat constructor|set_solver|exact Eb|].
split; [rewrite (Ha collector)|rewrite Hs]; vm_compute; reflexivity.
Defined.

(** An execution of a grant and a validator, accepted. *)
Definition txMsgs : list Msg := [MsgExec (Some [MsgGrant (Some "/cosmos.bank.v1beta1.MsgSend"%string); MsgCreateValidator (Some 10) 12])].


(** Of the 100 coins of the vesting account 40 have vested. *)
Lemma delegation_keeps_unvested_witness :
  let delegate x := StakingDelegate (B := ledger) (fun s => Some s) (Ok "atos"%string) nat (fun n => (Ok tt, S n))
    (vBank VestingExample.w2) (vAuth VestingExample.w2) 1200 "vest" x 0%nat in
  delegate 40 = (Ok tt, 1%nat) ∧ delegate 41 = (Err ErrInsufficientVestedCoins, 0%nat).
Proof.
cbv zeta.
assert (Hc : GetVestingCoins VestingExample.va2 1200 = Ok (VestingExample.atos 60)) by (vm_compute; reflexivity).
assert (Hb : Bank.GetBalance (vBank VestingExample.w2) "vest" "atos" = 100) by (vm_compute; reflexivity).
assert (Hamt : amt (VestingExample.atos 60) "atos" = 60) by (vm_compute; reflexivity).
pose proof (fun x (Hx : 0 < x) => delegation_keeps_unvested (fun s => Some s) "atos" nat (fun n => (Ok tt, S n))
  (vBank VestingExample.w2) (vAuth VestingExample.w2) 1200 "vest" "vest" VestingExample.va2 x 0%nat
  eq_refl VestingExample.va2_at VestingExample.va2_wf Hx) as H.
rewrite Hc in H. split.
- destruct (H 40 ltac:(lia)) as (u & Eu & _ & _ & E). injection Eu as <-. rewrite Hb, Hamt in E. rewrite decide_True in E by lia. exact E.
- destruct (H 41 ltac:(lia)) as (u & Eu & _ & _ & E). injection Eu as <-. rewrite Hb, Hamt in E. rewrite decide_False in E by lia. exact E.
Defined.
End CosmosExample.
