(* ===== verification/Epochs.v ===== *)
(** * x/epochs: the block-time clock

    Each epoch counts periods of a fixed length.  The begin blocker advances every
    epoch that is due by one and calls the hooks registered for it.  Times and
    durations are in nanoseconds.  The hooks own a state [H]; a hook that panics
    stops the block, which is an error here.  The store is read in key order. *)

From stdpp Require Import gmap strings list sorting.
From Stdlib Require Import Ascii ZArith Lia.
From S2P Require Import Prelude.

Open Scope Z_scope.

(** ** Epochs (types/epoch_info.go) *)
Record EpochInfo := mkEpochInfo {
  Identifier : string;
  StartTime : Z;
  Duration : Z;
  CurrentEpoch : Z;
  CurrentEpochStartTime : Z;
  EpochCountingStarted : bool;
  CurrentEpochStartHeight : Z;
}.

Definition StartInitialEpoch (ei : EpochInfo) : EpochInfo :=
  mkEpochInfo (Identifier ei) (StartTime ei) (Duration ei) 1 (StartTime ei) true (CurrentEpochStartHeight ei).

Definition EndEpoch (ei : EpochInfo) : EpochInfo :=
  mkEpochInfo (Identifier ei) (StartTime ei) (Duration ei) (i64 (CurrentEpoch ei + 1))
    (CurrentEpochStartTime ei + Duration ei) (EpochCountingStarted ei) (CurrentEpochStartHeight ei).

Definition with_height (h : Z) (ei : EpochInfo) : EpochInfo :=
  mkEpochInfo (Identifier ei) (StartTime ei) (Duration ei) (CurrentEpoch ei) (CurrentEpochStartTime ei)
    (EpochCountingStarted ei) h.

(** [strings.TrimSpace(s) == ""], for the ASCII white space. *)
Fixpoint blank (s : string) : bool :=
  match s with
  | EmptyString => true
  | String.String c s => bool_decide (c ∈ [" "; "009"; "010"; "011"; "012"; "013"]%char) && blank s
  end.

Definition EpochInfo_Validate (ei : EpochInfo) : result unit :=
  guard! negb (blank (Identifier ei)) else Plain "epoch identifier cannot be blank";
  guard! negb (Duration ei =? 0) else Plain "epoch duration cannot be 0";
  guard! 0 <=? CurrentEpoch ei else Plain "current epoch cannot be negative";
  guard! 0 <=? CurrentEpochStartHeight ei else Plain "current epoch start height cannot be negative";
  Ok tt.

(** ** Store (keeper/epoch_infos.go) *)
Abbreviation EpochStore := (gmap string EpochInfo).

Definition GetEpochInfo (st : EpochStore) (id : string) : option EpochInfo := st !! id.
Definition SetEpochInfo (st : EpochStore) (ei : EpochInfo) : EpochStore := <[Identifier ei := ei]> st.
Definition DeleteEpochInfo (st : EpochStore) (id : string) : EpochStore := delete id st.

Definition keyLe (p q : string * EpochInfo) : Prop := string_le p.1 q.1.
#[export] Instance keyLe_dec : RelDecision keyLe.
Proof. intros p q. unfold keyLe. apply _. Defined.

Definition AllEpochInfos (st : EpochStore) : list EpochInfo := (merge_sort keyLe (map_to_list st)).*2.

(** ** Hooks (keeper/hooks.go) *)
Record EpochHooks (H : Type) := mkEpochHooks {
  AfterEpochEnd : H → string → Z → result H;
  BeforeEpochStart : H → string → Z → result H;
}.
Arguments mkEpochHooks {H}.
Arguments AfterEpochEnd {H}.
Arguments BeforeEpochStart {H}.

Fixpoint runHooks {H} (call : EpochHooks H → H → string → Z → result H) (hs : list (EpochHooks H)) (h : H)
    (id : string) (n : Z) : result H :=
  match hs with
  | [] => Ok h
  | hk :: hs => h ← call hk h id n; runHooks call hs h id n
  end.

Definition NewMultiEpochHooks {H} (hs : list (EpochHooks H)) : EpochHooks H :=
  mkEpochHooks (runHooks AfterEpochEnd hs) (runHooks BeforeEpochStart hs).

(** ** Begin blocker (keeper/abci.go) *)
Section begin_blocker.
Context {H : Type} (hooks : EpochHooks H) (blockTime blockHeight : Z).

Definition shouldInitialEpochStart (ei : EpochInfo) : bool :=
  negb (EpochCountingStarted ei) && negb (blockTime <? StartTime ei).
Definition shouldEpochEnd (ei : EpochInfo) : bool :=
  (CurrentEpochStartTime ei + Duration ei <? blockTime) && negb (shouldInitialEpochStart ei)
  && negb (blockTime <? StartTime ei).

Definition tick (ei : EpochInfo) (w : EpochStore * H) : result (EpochStore * H) :=
  let '(st, h) := w in
  let started := shouldInitialEpochStart ei in
  let ended := shouldEpochEnd ei in
  let ei := with_height blockHeight ei in
  if started then
    let ei := StartInitialEpoch ei in
    let st := SetEpochInfo st ei in
    h ← BeforeEpochStart hooks h (Identifier ei) (CurrentEpoch ei); Ok (st, h)
  else if ended then
    let ei := EndEpoch ei in
    h ← AfterEpochEnd hooks h (Identifier ei) (CurrentEpoch ei);
    let st := SetEpochInfo st ei in
    h ← BeforeEpochStart hooks h (Identifier ei) (CurrentEpoch ei); Ok (st, h)
  else Ok (st, h).

Fixpoint IterateEpochInfo (eis : list EpochInfo) (w : EpochStore * H) : result (EpochStore * H) :=
  match eis with
  | [] => Ok w
  | ei :: eis => w ← tick ei w; IterateEpochInfo eis w
  end.

Definition BeginBlocker (w : EpochStore * H) : result (EpochStore * H) := IterateEpochInfo (AllEpochInfos w.1) w.
End begin_blocker.

(** ** Genesis and queries *)

(** The zero [time.Time] in nanoseconds before 1970. *)
Definition zeroTime : Z := -62135596800 * 10 ^ 9.

Fixpoint InitGenesis (blockTime blockHeight : Z) (st : EpochStore) (epochs : list EpochInfo) : EpochStore :=
  match epochs with
  | [] => st
  | e :: epochs =>
      let start := if StartTime e =? zeroTime then blockTime else StartTime e in
      let e := mkEpochInfo (Identifier e) start (Duration e) (CurrentEpoch e) (CurrentEpochStartTime e)
                 (EpochCountingStarted e) blockHeight in
      InitGenesis blockTime blockHeight (SetEpochInfo st e) epochs
  end.

Fixpoint GenesisState_Validate (seen : gset string) (epochs : list EpochInfo) : result unit :=
  match epochs with
  | [] => Ok tt
  | e :: epochs =>
      guard! negb (bool_decide (Identifier e ∈ seen)) else Plain "duplicated epoch entry";
      _ ← EpochInfo_Validate e; GenesisState_Validate ({[Identifier e]} ∪ seen) epochs
  end.

Definition WeekEpochID : string := "week".
Definition DayEpochID : string := "day".
Definition DefaultGenesisState : list EpochInfo :=
  [mkEpochInfo WeekEpochID zeroTime (7 * 24 * 3600 * 10 ^ 9) 0 zeroTime false 0;
   mkEpochInfo DayEpochID zeroTime (24 * 3600 * 10 ^ 9) 0 zeroTime false 0].

Definition QueryCurrentEpoch (st : EpochStore) (id : string) : result Z :=
  match GetEpochInfo st id with Some ei => Ok (CurrentEpoch ei) | None => Err (Plain "epoch info not found") end.

(** ** What a block does to an epoch *)
Definition next (blockTime blockHeight : Z) (ei : EpochInfo) : EpochInfo :=
  if shouldInitialEpochStart blockTime ei then StartInitialEpoch (with_height blockHeight ei)
  else if shouldEpochEnd blockTime ei then EndEpoch (with_height blockHeight ei) else ei.

(** The hook calls a block makes for an epoch: [true] for the end of one. *)
Definition events (blockTime : Z) (ei : EpochInfo) : list (bool * string * Z) :=
  if shouldInitialEpochStart blockTime ei then [(false, Identifier ei, 1)]
  else if shouldEpochEnd blockTime ei
  then [(true, Identifier ei, i64 (CurrentEpoch ei + 1)); (false, Identifier ei, i64 (CurrentEpoch ei + 1))]
  else [].

Fixpoint replay {H} (hooks : EpochHooks H) (h : H) (es : list (bool * string * Z)) : result H :=
  match es with
  | [] => Ok h
  | (isEnd, id, n) :: es =>
      h ← (if isEnd then AfterEpochEnd hooks h id n else BeforeEpochStart hooks h id n); replay hooks h es
  end.

Lemma replay_app {H} (hooks : EpochHooks H) es es' : ∀ h,
  replay hooks h (es ++ es') = (h ← replay hooks h es; replay hooks h es').
Proof.
induction es as [|[[e id] n] es IH]; intros h; simpl; [done|]. destruct (if e then _ else _); simpl; [apply IH|done].
Qed.

Definition keyed (st : EpochStore) : Prop := map_Forall (fun id ei => Identifier ei = id) st.

Section functional.
Context {H : Type} (hooks : EpochHooks H) (t height : Z).

Lemma next_id ei : Identifier (next t height ei) = Identifier ei.
Proof. unfold next. by repeat case_match. Qed.

Lemma tick_spec ei st h :
  tick hooks t height ei (st, h) =
  (h' ← replay hooks h (events t ei);
   Ok (if shouldInitialEpochStart t ei || shouldEpochEnd t ei then SetEpochInfo st (next t height ei) else st, h')).
Proof.
unfold tick, events, next. destruct (shouldInitialEpochStart t ei); simpl.
- by destruct (BeforeEpochStart hooks h _ _).
- destruct (shouldEpochEnd t ei); simpl; [|done].
  destruct (AfterEpochEnd hooks h _ _) as [h1|]; simpl; [|done]. by destruct (BeforeEpochStart hooks h1 _ _).
Qed.

Lemma next_idle ei : shouldInitialEpochStart t ei || shouldEpochEnd t ei = false → next t height ei = ei.
Proof. unfold next. destruct (shouldInitialEpochStart t ei), (shouldEpochEnd t ei); done. Qed.

Lemma tick_lookup ei st h st' h' : tick hooks t height ei (st, h) = Ok (st', h') → st !! Identifier ei = Some ei →
  replay hooks h (events t ei) = Ok h' ∧ st' = <[Identifier ei := next t height ei]> st.
Proof.
rewrite tick_spec. intros Ht Hl. apply bind_Ok in Ht as (h1 & Hr & [= <- <-]). split; [done|].
destruct (_ || _) eqn:E; [unfold SetEpochInfo; by rewrite next_id|]. rewrite next_idle by done. by rewrite insert_id.
Qed.

Lemma iterate_spec eis : ∀ st h st' h',
  NoDup (map Identifier eis) → Forall (fun ei => st !! Identifier ei = Some ei) eis →
  IterateEpochInfo hooks t height eis (st, h) = Ok (st', h') →
  replay hooks h (concat (map (events t) eis)) = Ok h' ∧
  ∀ id, st' !! id = if decide (id ∈ map Identifier eis) then next t height <$> st !! id else st !! id.
Proof.
induction eis as [|ei eis IH]; intros st h st' h' Hnd Hf Hi; simpl in Hi.
- inv_ok. split; [done|]. intros id. by rewrite decide_False by (apply not_elem_of_nil).
- apply bind_Ok in Hi as ([st1 h1] & Ht & Hi). apply NoDup_cons in Hnd as [Hni Hnd].
  apply Forall_cons in Hf as [He Hf]. apply tick_lookup in Ht as [Hr ->]; [|done].
  apply IH in Hi as [Hr' Hl]; [|done|].
  + split; [simpl; by rewrite replay_app, Hr|]. intros id. rewrite Hl. simpl map.
    destruct (decide (id = Identifier ei)) as [->|Hne].
    * rewrite decide_False by done. rewrite decide_True by left. by rewrite lookup_insert_eq, He.
    * rewrite lookup_insert_ne by done. destruct (decide (id ∈ map Identifier eis)) as [Hin|Hin].
      -- by rewrite decide_True by (by right).
      -- rewrite decide_False; [done|]. rewrite elem_of_cons. naive_solver.
  + apply Forall_forall. intros e Hin. rewrite Forall_forall in Hf. rewrite lookup_insert_ne; [by apply Hf|].
    intros Heq. apply Hni. rewrite Heq. apply list_elem_of_fmap. by exists e.
Qed.

Lemma keyed_set st ei : keyed st → keyed (SetEpochInfo st ei).
Proof.
intros Hk i e He. unfold SetEpochInfo in He. destruct (decide (i = Identifier ei)) as [->|Hne].
- rewrite lookup_insert_eq in He. by injection He as <-.
- rewrite lookup_insert_ne in He by done. by apply Hk.
Qed.

Lemma keyed_next st : keyed st → keyed (next t height <$> st).
Proof.
intros Hk i e He. rewrite lookup_fmap in He. destruct (st !! i) as [e0|] eqn:E0; [|done].
injection He as <-. rewrite next_id. by apply Hk.
Qed.

Lemma AllEpochInfos_perm st : AllEpochInfos st ≡ₚ (map_to_list st).*2.
Proof. unfold AllEpochInfos. by rewrite merge_sort_Permutation. Qed.

Lemma AllEpochInfos_ids st : keyed st → map Identifier (AllEpochInfos st) ≡ₚ (map_to_list st).*1.
Proof.
intros Hk. rewrite AllEpochInfos_perm. rewrite <- list_fmap_compose.
apply reflexive_eq, list_fmap_ext. intros i [id ei] Hl. apply list_elem_of_lookup_2, elem_of_map_to_list in Hl. by apply Hk.
Qed.

(** The begin blocker in closed form: it advances every epoch independently of the
    others, and calls the hooks exactly for the epochs that start or end, in the
    order of their identifiers. *)
Lemma BeginBlocker_spec st h st' h' : keyed st → BeginBlocker hooks t height (st, h) = Ok (st', h') →
  st' = next t height <$> st ∧ replay hooks h (concat (map (events t) (AllEpochInfos st))) = Ok h'.
Proof.
intros Hk Hb. unfold BeginBlocker in Hb. simpl in Hb. apply iterate_spec in Hb as [Hr Hl].
- split; [|done]. apply map_eq. intros id. rewrite Hl, lookup_fmap. case_decide as Hd; [done|].
  destruct (st !! id) as [ei|] eqn:E; [|done]. exfalso. apply Hd. rewrite AllEpochInfos_ids by done.
  apply list_elem_of_fmap. exists (id, ei). split; [done|]. by apply elem_of_map_to_list.
- rewrite AllEpochInfos_ids by done. apply NoDup_fst_map_to_list.
- rewrite AllEpochInfos_perm. apply Forall_forall. intros ei Hin. apply list_elem_of_fmap in Hin as ([id e] & -> & Hin).
  apply elem_of_map_to_list in Hin. simpl. by rewrite (Hk _ _ Hin).
Qed.
End functional.

(** ** The clock *)

(** At time [now] an epoch that counts is the [n]-th period after its start time, and
    that period has begun. *)
Record on_time (now : Z) (ei : EpochInfo) : Prop := {
  ot_duration : 0 < Duration ei;
  ot_idle : EpochCountingStarted ei = false → CurrentEpoch ei = 0;
  ot_started : EpochCountingStarted ei = true →
    1 <= CurrentEpoch ei ∧ CurrentEpochStartTime ei = StartTime ei + (CurrentEpoch ei - 1) * Duration ei ∧
    CurrentEpochStartTime ei <= now;
}.

Lemma on_time_nonneg now ei : on_time now ei → 0 <= CurrentEpoch ei.
Proof. intros [_ Hi Hs]. destruct (EpochCountingStarted ei); [specialize (Hs eq_refl)|specialize (Hi eq_refl)]; lia. Qed.

Lemma on_time_next now t h ei :
  on_time now ei → now <= t → CurrentEpoch ei + 1 < 2 ^ 63 →
  on_time t (next t h ei) ∧ StartTime (next t h ei) = StartTime ei ∧ Duration (next t h ei) = Duration ei ∧
  CurrentEpoch ei <= CurrentEpoch (next t h ei) <= CurrentEpoch ei + 1 ∧
  (∀ m, 0 <= m → StartTime ei + m * Duration ei < t → CurrentEpoch ei <= m → CurrentEpoch (next t h ei) = CurrentEpoch ei + 1).
Proof.
intros Hot Ht Hb. pose proof (on_time_nonneg _ _ Hot) as Hnn. destruct Hot as [Hd Hi Hs].
assert (Hn : i64 (CurrentEpoch ei + 1) = CurrentEpoch ei + 1) by (apply i64_small; unfold is_i64; lia).
unfold next, shouldEpochEnd, shouldInitialEpochStart. destruct (EpochCountingStarted ei) eqn:Es; simpl.
- specialize (Hs eq_refl) as (H1 & H2 & H3). destruct (_ <? t) eqn:E1; simpl; boolP.
  + assert ((t <? StartTime ei) = false) as -> by (apply Z.ltb_ge; nia). simpl. rewrite Hn.
    split; [|split_and!; try done; lia].
    split; simpl; [done|by rewrite Es|]. intros _. split_and!; lia.
  + split; [|split_and!; try done; try lia; intros; nia].
    split; [done|by rewrite Es|]. intros _. split_and!; lia.
- specialize (Hi eq_refl). destruct (t <? StartTime ei) eqn:E1; simpl; boolP.
  + rewrite andb_false_r. split; [|split_and!; try done; try lia; intros; nia]. split; [done|done|by rewrite Es].
  + rewrite Hi. split; [|split_and!; try done; lia]. split; simpl; [done|done|]. intros _. split_and!; lia.
Qed.

Section blocks.
Context {H : Type} (hooks : EpochHooks H).

(** The blocks of a chain: time and height, with time that does not go back. *)
Fixpoint run_blocks (blocks : list (Z * Z)) (w : EpochStore * H) : result (EpochStore * H) :=
  match blocks with
  | [] => Ok w
  | (t, height) :: blocks => w ← BeginBlocker hooks t height w; run_blocks blocks w
  end.

Fixpoint ascending (now : Z) (blocks : list (Z * Z)) : Prop :=
  match blocks with [] => True | (t, _) :: blocks => now <= t ∧ ascending t blocks end.

Definition lastTime (now : Z) (blocks : list (Z * Z)) : Z := foldl (fun _ b => b.1) now blocks.

(** C30: Over any run of blocks the clock keeps time: epoch [n] is never counted before
    [n - 1] full periods have passed since the start time, each block moves an epoch by
    at most one, and a backlog is worked off by one epoch per block: after [k] blocks
    that all came later than [m] periods, either [k] epochs more are counted or the
    clock has reached epoch [m + 1]. *)
Theorem epochs_keep_time blocks : ∀ now st h st' h',
  keyed st → ascending now blocks →
  map_Forall (fun _ ei => on_time now ei ∧ CurrentEpoch ei + Z.of_nat (length blocks) < 2 ^ 63) st →
  run_blocks blocks (st, h) = Ok (st', h') →
  ∀ id ei, st !! id = Some ei → ∃ ei', st' !! id = Some ei' ∧ on_time (lastTime now blocks) ei' ∧
    StartTime ei' = StartTime ei ∧ Duration ei' = Duration ei ∧
    CurrentEpoch ei <= CurrentEpoch ei' <= CurrentEpoch ei + Z.of_nat (length blocks) ∧
    ∀ m, 0 <= m → Forall (fun b => StartTime ei + m * Duration ei < b.1) blocks →
      Z.min (CurrentEpoch ei + Z.of_nat (length blocks)) (m + 1) <= CurrentEpoch ei'.
Proof.
induction blocks as [|[t height] blocks IH]; intros now st h st' h' Hk Hasc Hst Hrun id ei Hl; simpl in *.
- inv_ok. exists ei. split_and!; [done|by apply (Hst _ _ Hl)|done|done|lia|lia|]. intros. lia.
- apply bind_Ok in Hrun as ([st1 h1] & Hb & Hrun). destruct Hasc as [Ht Hasc].
  apply BeginBlocker_spec in Hb as [-> _]; [|done].
  assert (Hnext : ∀ id ei, st !! id = Some ei → on_time now ei ∧ CurrentEpoch ei + Z.of_nat (S (length blocks)) < 2 ^ 63)
    by (intros ? ? Hx; apply (Hst _ _ Hx)).
  destruct (Hnext _ _ Hl) as [Hot Hlt].
  destruct (on_time_next now t height ei Hot Ht ltac:(lia)) as (N1 & N2 & N3 & N4 & N5).
  destruct (IH t (next t height <$> st) h1 st' h') with (id := id) (ei := next t height ei)
    as (ei' & R1 & R2 & R3 & R4 & R5 & R6); [..|exists ei'].
  + by apply keyed_next.
  + done.
  + intros i e He. rewrite lookup_fmap in He. destruct (st !! i) as [e0|] eqn:E0; [|done].
    injection He as <-. destruct (Hnext _ _ E0) as [Ho Hlt'].
    destruct (on_time_next now t height e0 Ho Ht ltac:(lia)) as (M1 & _ & _ & M4 & _). split; [done|lia].
  + done.
  + by rewrite lookup_fmap, Hl.
  + split_and!; try done; try congruence; try lia. intros m Hm Hf. apply Forall_cons in Hf as [Hf1 Hf2]. simpl in Hf1.
    specialize (R6 m Hm). rewrite N2, N3 in R6. specialize (R6 Hf2).
    destruct (decide (CurrentEpoch ei <= m)) as [Hle|Hgt]; [rewrite (N5 m Hm Hf1 Hle) in R6|]; lia.
Qed.
End blocks.
