(* ===== verification/Inflation.v ===== *)
(** * x/inflation: epoch inflation, off by default

    The inflation module is a client of the epoch clock: at the end of an epoch it
    mints a provision and splits it between the fee collector and the community
    pool.  The chain disables it, since all issuance is x/tokenomics' (the comment on
    [DefaultInflation]); the model shows what the switch does and what happens with
    it on.  [LegacyDec.Power], the staking keeper, the distribution keeper and the
    bank's balance listing are dependencies with their documented behaviour. *)

From stdpp Require Import gmap strings list.
From Stdlib Require Import ZArith Lia.
From S2P Require Import Prelude SdkMath Bank VestingSchedule VestingKeeper VestingSafety Epochs.

Open Scope Z_scope.

(** ** Parameters (types/params.go) *)
Record ExponentialCalculation := mkExp { expA : Dec; expR : Dec; expC : Dec; BondingTarget : Dec; MaxVariance : Dec }.
Record InflationDistribution := mkDistribution { StakingRewards : Dec; UsageIncentives : Dec; CommunityPool : Dec }.
Record Params := mkParams {
  MintDenom : string;
  Exponential : ExponentialCalculation;
  Distribution : InflationDistribution;
  EnableInflation : bool;
}.

Definition BaseDenom : string := "liao".
Definition DefaultParams : Params :=
  mkParams BaseDenom
    (mkExp (NewDec 300000000) (NewDecWithPrec 50 2) (NewDec 9375000) (NewDecWithPrec 66 2) ZeroDec)
    (mkDistribution (NewDecWithPrec 533333334 9) ZeroDec (NewDecWithPrec 466666666 9)) false.

(** [sdk.ValidateDenom] is the SDK's. *)
Definition validateMintDenom (ValidateDenom : string → bool) (d : string) : result unit :=
  guard! negb (blank d) else Plain "mint denom cannot be blank";
  guard! ValidateDenom d else Plain "invalid denom"; Ok tt.

Definition validateExponentialCalculation (v : ExponentialCalculation) : result unit :=
  guard! 0 <=? expA v else Plain "initial value cannot be negative";
  guard! expR v <=? NewDec 1 else Plain "reduction factor cannot be greater than 1";
  guard! 0 <=? expR v else Plain "reduction factor cannot be negative";
  guard! 0 <=? expC v else Plain "long term inflation cannot be negative";
  guard! BondingTarget v <=? NewDec 1 else Plain "bonded target cannot be greater than 1";
  guard! 0 <? BondingTarget v else Plain "bonded target cannot be zero or negative";
  guard! 0 <=? MaxVariance v else Plain "max variance cannot be negative"; Ok tt.

Definition validateInflationDistribution (v : InflationDistribution) : result unit :=
  guard! 0 <=? StakingRewards v else Plain "staking distribution ratio must not be negative";
  guard! UsageIncentives v =? 0 else Plain "incentives pool distribution is deprecated";
  guard! 0 <=? CommunityPool v else Plain "community pool distribution ratio must not be negative";
  guard! StakingRewards v + UsageIncentives v + CommunityPool v =? NewDec 1
    else Plain "total distributions ratio should be 1"; Ok tt.

Definition Params_Validate (ValidateDenom : string → bool) (p : Params) : result unit :=
  _ ← validateMintDenom ValidateDenom (MintDenom p);
  _ ← validateExponentialCalculation (Exponential p);
  validateInflationDistribution (Distribution p).

(** ** Provision (types/inflation_calculation.go) *)

(** [LegacyDec.Power], by repeated rounded squaring. *)
Class DecPower := Dec_Power : Dec → Z → Dec.
Class DecPowerLaws (P : DecPower) : Prop :=
  Dec_Power_unit d x : 0 <= d <= OneDec → 0 <= x → 0 <= Dec_Power d x <= OneDec.

Definition ReductionFactor : Z := 3.
Definition PowerReduction : Z := 10 ^ 18.

Section provision.
Context {D : LegacyDecOps} {PW : DecPower}.

(** The test of [maxVariance] against a fresh zero compares pointers and always
    holds, so the variance branch is the one taken. *)
Definition CalculateEpochMintProvision (p : Params) (period epochsPerPeriod : Z) (bondedRatio : Dec) : Dec :=
  let e := Exponential p in
  let decay := OneDec - expR e in
  let exponentialDecay := Dec_Mul (expA e) (Dec_Power decay period) in
  let bondedRatio := if BondingTarget e <=? bondedRatio then BondingTarget e else bondedRatio in
  let sub := Dec_Mul (MaxVariance e) (Dec_Quo bondedRatio (BondingTarget e)) in
  let bondingIncentive := OneDec + MaxVariance e - sub in
  let periodProvision := Dec_Mul exponentialDecay bondingIncentive + expC e in
  let reducedPeriodProvision := Dec_Quo periodProvision (NewDec ReductionFactor) in
  let epochProvision := if negb (epochsPerPeriod =? 0)
                        then Dec_Quo reducedPeriodProvision (NewDec epochsPerPeriod) else ZeroDec in
  Dec_Mul epochProvision (NewDec PowerReduction).
End provision.

(** ** State *)
Record InflationStore := mkInflationStore {
  infParams : Params; infPeriod : Z; infEpochIdentifier : string;
  infEpochsPerPeriod : Z;   (** the uint64 under the key *)
  infSkippedEpochs : Z;
}.

Definition GetEpochsPerPeriod (s : InflationStore) : Z := i64 (infEpochsPerPeriod s).
Definition SetEpochsPerPeriod (s : InflationStore) (n : Z) : InflationStore :=
  mkInflationStore (infParams s) (infPeriod s) (infEpochIdentifier s) (u64 n) (infSkippedEpochs s).
Definition SetSkippedEpochs (s : InflationStore) (n : Z) : InflationStore :=
  mkInflationStore (infParams s) (infPeriod s) (infEpochIdentifier s) (infEpochsPerPeriod s) n.
Definition SetPeriod (s : InflationStore) (n : Z) : InflationStore :=
  mkInflationStore (infParams s) n (infEpochIdentifier s) (infEpochsPerPeriod s) (infSkippedEpochs s).
Definition SetInflationParams (s : InflationStore) (p : Params) : InflationStore :=
  mkInflationStore p (infPeriod s) (infEpochIdentifier s) (infEpochsPerPeriod s) (infSkippedEpochs s).

Record InflationCtx (B S : Type) := mkInflationCtx { iBank : B; iHooks : S; iStore : InflationStore }.
Arguments mkInflationCtx {B S}.
Arguments iBank {B S}.
Arguments iHooks {B S}.
Arguments iStore {B S}.

Record InflationKeeper (B S : Type) := mkInflationKeeper {
  infAuthority : string;
  feeCollectorName : string;
  ChainID : string;
  FoundationWallets : list addr;        (** the four wallets, as account addresses *)
  StakingTokenSupply : B → result Z;
  TotalBondedTokens : B → result Z;
  GetAllBalances : B → addr → Coins;
  InfFundCommunityPool : B * S → coins → addr → result unit * (B * S);
}.
Arguments infAuthority {B S}.
Arguments feeCollectorName {B S}.
Arguments ChainID {B S}.
Arguments FoundationWallets {B S}.
Arguments StakingTokenSupply {B S}.
Arguments TotalBondedTokens {B S}.
Arguments GetAllBalances {B S}.
Arguments InfFundCommunityPool {B S}.

Definition MainnetChainID : string := "atoshi_88188".
Definition IsMainnet (chainID : string) : bool := String.prefix MainnetChainID chainID.
Definition InflationModule : string := "inflation".
(** [LegacyDec.RoundInt] *)
Definition RoundInt (d : Dec) : Z := round_half_even d precision.

(** ** Keeper (keeper/inflation.go, keeper/hooks.go) *)
Section keeper.
Context {D : LegacyDecOps} {PW : DecPower} {B S : Type} {ops : BankOps B}.
Variable k : InflationKeeper B S.
Variable r : Restriction B S.
Abbreviation C := (InflationCtx B S).
Implicit Types w : C.

Definition with_ibank (x : B * S) w : C := mkInflationCtx x.1 x.2 (iStore w).
Definition with_istore (s : InflationStore) w : C := mkInflationCtx (iBank w) (iHooks w) s.

Definition computeTeamAllocation (b : B) (mintDenom : string) : Dec :=
  foldl (fun acc wallet => acc + NewDec (Bank.GetBalance b wallet mintDenom)) ZeroDec (FoundationWallets k).

Definition BondedRatio w : result Dec :=
  stakeSupply ← StakingTokenSupply k (iBank w);
  let isMainnet := IsMainnet (ChainID k) in
  let teamAlloc := if isMainnet then computeTeamAllocation (iBank w) (MintDenom (infParams (iStore w))) else ZeroDec in
  if negb (0 <? stakeSupply) || (isMainnet && (NewDec stakeSupply <=? teamAlloc)) then Ok ZeroDec
  else
    let stakeSupply := if isMainnet then RoundInt (NewDec stakeSupply - teamAlloc) else stakeSupply in
    totalBondedTokens ← TotalBondedTokens k (iBank w);
    if stakeSupply =? 0 then Err (Plain "division by zero") else Ok (Dec_QuoInt (NewDec totalBondedTokens) stakeSupply).

Definition GetProportions (amount : Z) (distribution : Dec) : Z :=
  TruncateInt (Dec_Mul (NewDec amount) distribution).

Definition AllocateExponentialInflation w (denom : string) (amount : Z) (p : Params) : result unit * C :=
  let staking := GetProportions amount (StakingRewards (Distribution p)) in
  match SendCoinsFromModuleToModule r (iBank w, iHooks w) InflationModule (feeCollectorName k) [(denom, staking)] with
  | (Err e, x) => (Err e, with_ibank x w)
  | (Ok _, x) =>
      let moduleAddr := ModuleAddress InflationModule in
      let communityPool := GetAllBalances k x.1 moduleAddr in
      let '(res, x) := InfFundCommunityPool k x (coinList communityPool) moduleAddr in
      (res, with_ibank x w)
  end.

Definition MintAndAllocateInflation w (denom : string) (amount : Z) (p : Params) : result unit * C :=
  if negb (0 <? amount) then (Ok tt, w)
  else
    match MintCoins (iBank w) InflationModule [(denom, amount)] with
    | Err e => (Err e, w)
    | Ok b => AllocateExponentialInflation (with_ibank (b, iHooks w) w) denom amount p
    end.

Definition infBeforeEpochStart w (id : string) (n : Z) : result C := Ok w.

Definition infAfterEpochEnd w (id : string) (n : Z) : result C :=
  let s := iStore w in
  let p := infParams s in
  let skipped := infSkippedEpochs s in
  if negb (EnableInflation p) then
    if decide (id ≠ DayEpochID) then Ok w else Ok (with_istore (SetSkippedEpochs s (u64 (skipped + 1))) w)
  else if decide (id ≠ infEpochIdentifier s) then Ok w
  else
    let period := infPeriod s in
    let epochsPerPeriod := GetEpochsPerPeriod s in
    bondedRatio ← BondedRatio w;
    let provision := CalculateEpochMintProvision p period epochsPerPeriod bondedRatio in
    if negb (0 <? provision) then Ok w
    else
      match MintAndAllocateInflation w (MintDenom p) (TruncateInt provision) p with
      | (Err e, _) => Err e
      | (Ok _, w) =>
          Ok (if epochsPerPeriod <? i64 (i64 (n - i64 (epochsPerPeriod * i64 period)) - i64 skipped)
              then with_istore (SetPeriod (iStore w) (u64 (period + 1))) w else w)
      end.

Definition inflationHooks : EpochHooks C := mkEpochHooks infAfterEpochEnd infBeforeEpochStart.

(** Queries. *)
Definition GetCirculatingSupply w (mintDenom : string) : Dec :=
  let supply := NewDec (GetSupply (iBank w) mintDenom) in
  if IsMainnet (ChainID k) then supply - computeTeamAllocation (iBank w) mintDenom else supply.

Definition GetEpochMintProvision w : Dec :=
  match BondedRatio w with
  | Err _ => ZeroDec
  | Ok ratio =>
      let s := iStore w in
      Dec_Quo (CalculateEpochMintProvision (infParams s) (infPeriod s) (GetEpochsPerPeriod s) ratio) (NewDec ReductionFactor)
  end.

Definition GetInflationRate w (mintDenom : string) : Dec :=
  let epp := GetEpochsPerPeriod (iStore w) in
  if epp =? 0 then ZeroDec
  else
    let provision := GetEpochMintProvision w in
    if provision =? 0 then ZeroDec
    else
      let supply := GetCirculatingSupply w mintDenom in
      if supply =? 0 then ZeroDec
      else Dec_Mul (Dec_Quo (Dec_Mul provision (NewDec epp)) supply) (NewDec 100).

Definition InfUpdateParams w (authority : string) (p : Params) : result unit * C :=
  if decide (infAuthority k = authority) then (Ok tt, with_istore (SetInflationParams (iStore w) p) w)
  else (Err (Registered "gov" 13), w).

(** Genesis. *)
Record InfGenesis := mkInfGenesis {
  igParams : Params; igPeriod : Z; igEpochIdentifier : string; igEpochsPerPeriod : Z; igSkippedEpochs : Z;
}.
Definition InfGenesis_Validate (ValidateDenom : string → bool) (g : InfGenesis) : result unit :=
  guard! negb (blank (igEpochIdentifier g)) else Plain "blank epoch identifier";
  guard! 0 <? igEpochsPerPeriod g else Plain "epochs per period must be positive";
  Params_Validate ValidateDenom (igParams g).
Definition InfInitGenesis w (g : InfGenesis) : C :=
  with_istore (mkInflationStore (igParams g) (igPeriod g) (igEpochIdentifier g) (u64 (igEpochsPerPeriod g)) (igSkippedEpochs g)) w.
Definition InfExportGenesis w : InfGenesis :=
  let s := iStore w in
  mkInfGenesis (infParams s) (infPeriod s) (infEpochIdentifier s) (GetEpochsPerPeriod s) (infSkippedEpochs s).
Definition DefaultInfGenesis : InfGenesis := mkInfGenesis DefaultParams 0 DayEpochID 365 0.
End keeper.
