(* ===== verification/InflationSafety.v ===== *)
(** * x/inflation: the switch, the mint and the provision

    With inflation off, no run of blocks touches the bank.  With it on, the end of an
    epoch mints exactly the truncated provision, splits it without remainder, and the
    provision stays within what the parameters allow. *)

From stdpp Require Import gmap strings list.
From Stdlib Require Import ZArith Lia.
From S2P Require Import Prelude SdkMath Bank VestingSchedule VestingKeeper VestingSafety Epochs Inflation.

Open Scope Z_scope.

(** ** Inflation off *)
Section disabled.
Context {D : LegacyDecOps} {PW : DecPower} {B S : Type} {ops : BankOps B}.
Variable k : InflationKeeper B S.
Variable r : Restriction B S.
Implicit Types (w : InflationCtx B S) (st : EpochStore).

(** Everything but the number of skipped epochs. *)
Definition same_but_skipped w w' : Prop :=
  iBank w' = iBank w ∧ iHooks w' = iHooks w ∧ infParams (iStore w') = infParams (iStore w) ∧
  infPeriod (iStore w') = infPeriod (iStore w) ∧ infEpochIdentifier (iStore w') = infEpochIdentifier (iStore w) ∧
  infEpochsPerPeriod (iStore w') = infEpochsPerPeriod (iStore w).

Lemma same_trans w1 w2 w3 : same_but_skipped w1 w2 → same_but_skipped w2 w3 → same_but_skipped w1 w3.
Proof. unfold same_but_skipped. intros (? & ? & ? & ? & ? & ?) (? & ? & ? & ? & ? & ?). split_and!; congruence. Qed.

Lemma same_off w w' : same_but_skipped w w' →
  EnableInflation (infParams (iStore w)) = false → EnableInflation (infParams (iStore w')) = false.
Proof. by intros (_ & _ & -> & _). Qed.

(** How many of the hook calls are the end of a day. *)
Definition dayEnds (es : list (bool * string * Z)) : Z :=
  Z.of_nat (length (filter (fun e => e.1 = (true, DayEpochID)) es)).

Lemma replay_disabled es : ∀ w, EnableInflation (infParams (iStore w)) = false → is_u64 (infSkippedEpochs (iStore w)) →
  ∃ w', replay (inflationHooks k r) w es = Ok w' ∧ same_but_skipped w w' ∧
    infSkippedEpochs (iStore w') = u64 (infSkippedEpochs (iStore w) + dayEnds es).
Proof.
induction es as [|[[isEnd id] n] es IH]; intros w Hoff Hu.
- exists w. split_and!; try done. unfold dayEnds. simpl. by rewrite Z.add_0_r, u64_small.
- assert (Hstep : ∃ w1, (if isEnd then AfterEpochEnd (inflationHooks k r) w id n
      else BeforeEpochStart (inflationHooks k r) w id n) = Ok w1 ∧ same_but_skipped w w1 ∧
      infSkippedEpochs (iStore w1) = u64 (infSkippedEpochs (iStore w) + dayEnds [(isEnd, id, n)])).
  { unfold dayEnds. rewrite filter_cons. simpl. destruct isEnd.
    - unfold infAfterEpochEnd. rewrite Hoff. simpl. destruct (decide (id = DayEpochID)) as [->|Hne].
      + rewrite decide_False by (by intros ?). rewrite decide_True by done. eexists. split; [done|]. by split.
      + rewrite decide_True by done. rewrite decide_False by (by intros [=]). exists w. split_and!; try done.
        simpl. by rewrite Z.add_0_r, u64_small.
    - rewrite decide_False by done. exists w. split_and!; try done. simpl. by rewrite Z.add_0_r, u64_small. }
  destruct Hstep as (w1 & E1 & HS1 & Hk).
  destruct (IH w1) as (w' & E2 & HS2 & Hk'); [by eapply same_off|rewrite Hk; apply u64_range|].
  exists w'. split; [cbn [replay]; rewrite E1; exact E2|]. split; [by eapply same_trans|].
  rewrite Hk', Hk. unfold dayEnds. rewrite !filter_cons. simpl. unfold u64.
  rewrite Zplus_mod_idemp_l. f_equal. case_decide; simpl; lia.
Qed.

Lemma iterate_disabled (t h : Z) eis : ∀ st w,
  EnableInflation (infParams (iStore w)) = false → is_u64 (infSkippedEpochs (iStore w)) →
  ∃ st' w', IterateEpochInfo (inflationHooks k r) t h eis (st, w) = Ok (st', w') ∧ same_but_skipped w w' ∧
    is_u64 (infSkippedEpochs (iStore w')).
Proof.
induction eis as [|ei eis IH]; intros st w Hoff Hu; [by exists st, w|]. cbn [IterateEpochInfo]. rewrite tick_spec.
destruct (replay_disabled (events t ei) w Hoff Hu) as (w1 & -> & HS1 & Hs). cbn [mbind result_bind].
destruct (IH (if shouldInitialEpochStart t ei || shouldEpochEnd t ei then SetEpochInfo st (next t h ei) else st) w1) as (st2 & w2 & -> & HS2 & Hu2);
  [by eapply same_off|rewrite Hs; apply u64_range|].
exists st2, w2. split; [done|]. split; [by eapply same_trans|done].
Qed.

(** The clock and a disabled inflation together: no block fails, no coin is minted or
    moved, and the parameters stay; only the count of skipped days goes on. *)
Theorem disabled_inflation_mints_nothing blocks : ∀ st w,
  keyed st → EnableInflation (infParams (iStore w)) = false → is_u64 (infSkippedEpochs (iStore w)) →
  ∃ st' w', run_blocks (inflationHooks k r) blocks (st, w) = Ok (st', w') ∧ same_but_skipped w w'.
Proof.
induction blocks as [|[t h] blocks IH]; intros st w Hk Hoff Hu; [by exists st, w|].
destruct (iterate_disabled t h (AllEpochInfos st) st w Hoff Hu) as (st1 & w1 & E & HS1 & Hu1).
change (BeginBlocker (inflationHooks k r) t h (st, w) = Ok (st1, w1)) in E. cbn [run_blocks]. rewrite E.
apply BeginBlocker_spec in E as [-> _]; [|done].
destruct (IH (next t h <$> st) w1) as (st' & w' & E' & HS2); [by apply keyed_next|by eapply same_off|done|].
exists st', w'. split; [exact E'|by eapply same_trans].
Qed.
End disabled.

(** ** The provision *)
Section provision.
Context {D : LegacyDecOps} {DL : LegacyDecLaws D} {PW : DecPower} {PL : DecPowerLaws PW}.

Record valid_params (p : Params) : Prop := {
  vp_a : 0 <= expA (Exponential p);
  vp_r : 0 <= expR (Exponential p) <= OneDec;
  vp_c : 0 <= expC (Exponential p);
  vp_target : 0 < BondingTarget (Exponential p) <= OneDec;
  vp_variance : 0 <= MaxVariance (Exponential p);
  vp_staking : 0 <= StakingRewards (Distribution p) <= OneDec;
}.

Lemma Params_Validate_spec vd p : Params_Validate vd p = Ok tt → valid_params p.
Proof.
unfold Params_Validate, validateExponentialCalculation, validateInflationDistribution. intros Hv. inv_ok.
assert (E1 : NewDec 1 = OneDec) by reflexivity. rewrite E1 in *. boolP. split; lia.
Qed.

(** A product with a factor of at most one does not exceed the other factor. *)
Lemma Dec_Mul_le a b : 0 <= a → 0 <= b <= OneDec → 0 <= Dec_Mul a b <= a.
Proof.
intros Ha [Hb1 Hb2]. pose proof (Dec_Mul_nonneg a b Ha Hb1). pose proof (Dec_Mul_ulp a b Ha Hb1) as Hu.
pose proof precision_pos. unfold OneDec in Hb2. split; [done|]. nia.
Qed.

Lemma Dec_Quo_le a b : 0 <= a <= b → 0 < b → 0 <= Dec_Quo a b <= OneDec.
Proof.
intros [Ha1 Ha2] Hb. pose proof (Dec_Quo_nonneg a b Ha1 Hb). pose proof (Dec_Quo_ulp a b Ha1 Hb) as Hu.
pose proof precision_pos. unfold OneDec. split; [done|]. nia.
Qed.

Lemma Dec_Quo_NewDec a n : 0 <= a → 0 < n → 0 <= Dec_Quo a (NewDec n) ∧ Z.abs (Dec_Quo a (NewDec n) * n - a) < n.
Proof.
intros Ha Hn. unfold NewDec. pose proof precision_pos as Hp.
pose proof (Dec_Quo_ulp a (n * precision) Ha ltac:(nia)) as Hu. split; [apply Dec_Quo_nonneg; nia|].
replace (Dec_Quo a (n * precision) * (n * precision) - a * precision)
  with ((Dec_Quo a (n * precision) * n - a) * precision) in Hu by ring. nia.
Qed.

Lemma Dec_Mul_Int a n : 0 <= a → 0 <= n → Dec_Mul a (NewDec n) = a * n.
Proof.
intros Ha Hn. unfold NewDec. pose proof precision_pos as Hp.
pose proof (Dec_Mul_ulp a (n * precision) Ha ltac:(nia)) as Hu.
replace (Dec_Mul a (n * precision) * precision - a * (n * precision))
  with ((Dec_Mul a (n * precision) - a * n) * precision) in Hu by ring. nia.
Qed.

(** The yearly provision before the split into epochs. *)
Lemma period_bounds p x ratio : valid_params p → 0 <= x → 0 <= ratio →
  let e := Exponential p in
  let sub := Dec_Mul (MaxVariance e) (Dec_Quo (if BondingTarget e <=? ratio then BondingTarget e else ratio) (BondingTarget e)) in
  let q := Dec_Mul (Dec_Mul (expA e) (Dec_Power (OneDec - expR e) x)) (OneDec + MaxVariance e - sub) + expC e in
  0 <= q ∧ (q - expC e - 1) * precision < expA e * (OneDec + MaxVariance e).
Proof.
intros [H1 H2 H3 H4 H5 _] Hx Hr. cbv zeta. set (e := Exponential p) in *.
pose proof (Dec_Power_unit (OneDec - expR e) x ltac:(lia) Hx) as Hpow.
pose proof (Dec_Mul_le (expA e) _ H1 Hpow) as Hd. set (decay := Dec_Mul (expA e) _) in *.
set (ratio' := if BondingTarget e <=? ratio then BondingTarget e else ratio).
assert (Hr' : 0 <= ratio' <= BondingTarget e) by (unfold ratio'; destruct (_ <=? _) eqn:E; boolP; lia).
pose proof (Dec_Quo_le ratio' (BondingTarget e) Hr' ltac:(lia)) as Hq.
pose proof (Dec_Mul_le (MaxVariance e) _ H5 Hq) as Hs. set (sub := Dec_Mul (MaxVariance e) _) in *.
pose proof precision_pos. assert (Hi : 0 <= OneDec + MaxVariance e - sub) by (unfold OneDec; lia).
pose proof (Dec_Mul_nonneg decay _ (proj1 Hd) Hi). pose proof (Dec_Mul_ulp decay _ (proj1 Hd) Hi) as Hu.
set (m := Dec_Mul decay _) in *. split; [lia|]. replace (m + expC e - expC e - 1) with (m - 1) by lia.
assert (decay * (OneDec + MaxVariance e - sub) <= expA e * (OneDec + MaxVariance e)) by nia. nia.
Qed.

Lemma provision_spec p period epochs ratio :
  valid_params p → 0 <= period → 0 < epochs → 0 <= ratio →
  let e := Exponential p in
  let provision := CalculateEpochMintProvision p period epochs ratio in
  0 <= provision ∧
  provision * epochs * 3 <= PowerReduction * (expA e * (OneDec + MaxVariance e) / precision + expC e + 5 + 3 * epochs).
Proof.
intros Hp Hx He Hr. cbv zeta. unfold CalculateEpochMintProvision. cbv zeta.
rewrite (proj2 (Z.eqb_neq _ _)) by lia. cbn [negb].
destruct (period_bounds p period ratio Hp Hx Hr) as [Hq1 Hq2].
set (q := Dec_Mul (Dec_Mul _ _) _ + _) in *. set (e := Exponential p) in *.
destruct (Dec_Quo_NewDec q ReductionFactor Hq1 ltac:(done)) as [Hr1 Hr2]. set (red := Dec_Quo q _) in *.
destruct (Dec_Quo_NewDec red epochs Hr1 He) as [Hs1 Hs2]. set (ep := Dec_Quo red _) in *.
rewrite Dec_Mul_Int by (unfold PowerReduction; lia). unfold ReductionFactor, PowerReduction in *. split; [lia|].
pose proof precision_pos as Hpp.
assert (q - expC e - 1 <= expA e * (OneDec + MaxVariance e) / precision) by (apply Z.div_le_lower_bound; lia).
set (X := expA e * (OneDec + MaxVariance e) / precision) in *. nia.
Qed.

Lemma provision_ok p period epochs ratio :
  valid_params p → 0 <= period → 0 < epochs → 0 <= ratio → 0 <= CalculateEpochMintProvision p period epochs ratio.
Proof. intros. by apply provision_spec. Qed.

(** The provision of an epoch is never negative, and a period's provisions together
    do not exceed a third of the initial value raised by the full variance, plus the
    long-term inflation, in base units, up to the rounding of the decimals. *)
Theorem provision_bounds p period epochs ratio :
  valid_params p → 0 <= period → 0 < epochs → 0 <= ratio →
  let e := Exponential p in
  let provision := CalculateEpochMintProvision p period epochs ratio in
  0 <= provision ∧
  provision * epochs * 3 <= PowerReduction * (expA e * (OneDec + MaxVariance e) / precision + expC e + 5 + 3 * epochs).
Proof. apply provision_spec. Qed.
End provision.

(** ** Minting *)
Section mint.
Context {D : LegacyDecOps} {DL : LegacyDecLaws D} {PW : DecPower} {PL : DecPowerLaws PW}.
Context {B S : Type} {ops : BankOps B} {laws : BankLaws ops}.
Variable k : InflationKeeper B S.
Variable r : Restriction B S.
Hypothesis r_passes : passes r.
(** The bank lists the balances it holds, and the community pool takes what it is given. *)
Hypothesis all_balances : ∀ b a d, amt (GetAllBalances k b a) d = Bank.GetBalance b a d.
Hypothesis funds_pool : ∀ b s c a w', (∀ d, 0 <= amt c d) →
  InfFundCommunityPool k (b, s) (coinList c) a = (Ok tt, w') → moved b w'.1 a (ModuleAddress DistributionModule) c.
Hypothesis collector_other : feeCollectorName k ≠ InflationModule ∧ feeCollectorName k ≠ DistributionModule.
Implicit Types w : InflationCtx B S.

Definition one (d : denom) (x : Z) (d' : denom) : Z := if decide (d' = d) then x else 0.

Lemma AmountOf_one d x d' : AmountOf [(d, x)] d' = one d x d'.
Proof. unfold AmountOf, one. simpl. destruct (decide (d = d')) as [->|Hn]; [rewrite decide_True by done; lia|by rewrite decide_False]. Qed.

Lemma GetProportions_spec amount ratio : 0 <= amount → 0 <= ratio <= OneDec →
  GetProportions amount ratio = amount * ratio / precision ∧ 0 <= GetProportions amount ratio <= amount.
Proof.
intros Ha [Hr1 Hr2]. unfold GetProportions. pose proof precision_pos as Hp.
assert (E : Dec_Mul (NewDec amount) ratio = amount * ratio).
{ unfold NewDec. pose proof (Dec_Mul_ulp (amount * precision) ratio ltac:(nia) Hr1) as Hu.
  replace (Dec_Mul (amount * precision) ratio * precision - amount * precision * ratio)
    with ((Dec_Mul (amount * precision) ratio - amount * ratio) * precision) in Hu by ring. nia. }
rewrite E, TruncateInt_div by nia. split; [done|]. split; [apply Z.div_pos; nia|].
apply Z.div_le_upper_bound; [lia|]. unfold OneDec in Hr2. nia.
Qed.

(** Minting and allocating an amount: the supply of the denom grows by it, the fee
    collector receives the staking share rounded down, everything else the module
    holds goes to the community pool, and the module is left with nothing. *)
Lemma MintAndAllocate_spec w d amount p w' : valid_params p → 0 < amount →
  MintAndAllocateInflation k r w d amount p = (Ok tt, w') →
  let staking := amount * StakingRewards (Distribution p) / precision in
  0 <= staking <= amount ∧ iStore w' = iStore w ∧
  (∀ d', GetSupply (iBank w') d' = GetSupply (iBank w) d' + one d amount d') ∧
  (∀ d', Bank.GetBalance (iBank w') (ModuleAddress InflationModule) d' = 0) ∧
  (∀ d', Bank.GetBalance (iBank w') (ModuleAddress (feeCollectorName k)) d' =
         Bank.GetBalance (iBank w) (ModuleAddress (feeCollectorName k)) d' + one d staking d') ∧
  (∀ d', Bank.GetBalance (iBank w') (ModuleAddress DistributionModule) d' =
         Bank.GetBalance (iBank w) (ModuleAddress DistributionModule) d'
         + Bank.GetBalance (iBank w) (ModuleAddress InflationModule) d' + one d (amount - staking) d') ∧
  (∀ a d', a ≠ ModuleAddress InflationModule → a ≠ ModuleAddress (feeCollectorName k) →
     a ≠ ModuleAddress DistributionModule → Bank.GetBalance (iBank w') a d' = Bank.GetBalance (iBank w) a d').
Proof.
intros Hp Ha Hm. cbv zeta. unfold MintAndAllocateInflation in Hm. rewrite (proj2 (Z.ltb_lt _ _) Ha) in Hm. cbn [negb] in Hm.
destruct (MintCoins _ _ _) as [b1|] eqn:Emint; [|done].
apply mint_spec in Emint as [Hmint Hsup]; [|repeat constructor; simpl; lia].
unfold AllocateExponentialInflation in Hm. cbn [iBank iHooks with_ibank fst snd] in Hm.
destruct (GetProportions_spec amount _ ltac:(lia) (vp_staking p Hp)) as [Eprop Bprop]. rewrite Eprop in *.
set (staking := amount * _ / precision) in *. rewrite send_module_module in Hm.
destruct (SendCoins _ _ _ _ _) as [[u|] [b2 s2]] eqn:Es; [destruct u|done].
apply send_balances in Es as (_ & Hsend & Hsup2); [|repeat constructor; simpl; lia|exact r_passes].
cbn [fst] in Hm. destruct (InfFundCommunityPool _ _ _ _) as [res [b3 s3]] eqn:Ef. injection Hm as -> <-. cbn [iBank with_ibank fst].
apply funds_pool in Ef as (_ & Hpool & Hsup3); [|intros; rewrite all_balances; apply balance_nonneg]. cbn [fst] in *.
destruct collector_other as [C1 C2].
assert (N1 : ModuleAddress (feeCollectorName k) ≠ ModuleAddress InflationModule) by (intros E; by apply ModuleAddress_inj in E).
assert (N2 : ModuleAddress (feeCollectorName k) ≠ ModuleAddress DistributionModule) by (intros E; by apply ModuleAddress_inj in E).
assert (N3 : ModuleAddress DistributionModule ≠ ModuleAddress InflationModule) by (intros E; by apply ModuleAddress_inj in E).
assert (Hall : ∀ a d', Bank.GetBalance b3 a d' = Bank.GetBalance b2 a d'
  - at_addr (ModuleAddress InflationModule) a (Bank.GetBalance b2 (ModuleAddress InflationModule) d')
  + at_addr (ModuleAddress DistributionModule) a (Bank.GetBalance b2 (ModuleAddress InflationModule) d')).
{ intros a d'. by rewrite Hpool, all_balances. }
split; [done|]. split; [done|]. split_and!; [intros d'|intros d'|intros d'|intros d'|intros a d' A1 A2 A3].
- rewrite Hsup3, Hsup2, Hsup. by rewrite AmountOf_one.
- rewrite Hall, at_addr_eq, at_addr_ne by done. lia.
- rewrite Hall, Hsend, Hmint, !AmountOf_one. rewrite at_addr_eq, !at_addr_ne by done. lia.
- rewrite Hall, !Hsend, !Hmint, !AmountOf_one. rewrite !at_addr_eq, !at_addr_ne by done. unfold one. case_decide; lia.
- rewrite Hall, Hsend, Hmint. rewrite !at_addr_ne by done. lia.
Qed.

(** With inflation on, the end of the module's epoch mints exactly the integral part
    of the provision; the fee collector receives the staking share of it, rounded
    down, the community pool all the rest together with what the module still held,
    and no other account changes.  A provision below one unit mints nothing. *)
Theorem epoch_end_mints w id n w' ratio :
  let s := iStore w in
  let p := infParams s in
  let provision := CalculateEpochMintProvision p (infPeriod s) (GetEpochsPerPeriod s) ratio in
  let amount := provision / precision in
  let staking := amount * StakingRewards (Distribution p) / precision in
  EnableInflation p = true → id = infEpochIdentifier s → valid_params p → 0 <= infPeriod s → 0 < GetEpochsPerPeriod s →
  BondedRatio k w = Ok ratio → 0 <= ratio →
  infAfterEpochEnd k r w id n = Ok w' →
  infParams (iStore w') = p ∧
  (∀ d, GetSupply (iBank w') d = GetSupply (iBank w) d + one (MintDenom p) amount d) ∧
  (amount = 0 → iBank w' = iBank w) ∧
  (0 < amount →
    (∀ d, Bank.GetBalance (iBank w') (ModuleAddress InflationModule) d = 0) ∧
    (∀ d, Bank.GetBalance (iBank w') (ModuleAddress (feeCollectorName k)) d =
          Bank.GetBalance (iBank w) (ModuleAddress (feeCollectorName k)) d + one (MintDenom p) staking d) ∧
    (∀ d, Bank.GetBalance (iBank w') (ModuleAddress DistributionModule) d =
          Bank.GetBalance (iBank w) (ModuleAddress DistributionModule) d
          + Bank.GetBalance (iBank w) (ModuleAddress InflationModule) d + one (MintDenom p) (amount - staking) d) ∧
    (∀ a d, a ≠ ModuleAddress InflationModule → a ≠ ModuleAddress (feeCollectorName k) →
       a ≠ ModuleAddress DistributionModule → Bank.GetBalance (iBank w') a d = Bank.GetBalance (iBank w) a d)).
Proof.
cbv zeta. intros Hon -> Hp Hper Hepp Hratio Hr0 Hend. unfold infAfterEpochEnd in Hend. rewrite Hon, Hratio in Hend.
cbn [negb mbind result_bind] in Hend. rewrite decide_False in Hend by (by intros ?).
pose proof (provision_ok (infParams (iStore w)) (infPeriod (iStore w)) _ ratio Hp Hper Hepp Hr0) as Hprov.
set (provision := CalculateEpochMintProvision _ _ _ _) in *. rewrite TruncateInt_div in Hend by done.
pose proof precision_pos as Hpp. set (amount := provision / precision) in *.
assert (Hzero : ∀ d, one (MintDenom (infParams (iStore w))) 0 d = 0) by (intros d; unfold one; by case_decide).
destruct (0 <? provision) eqn:E0; cbn [negb] in Hend; boolP.
- destruct (decide (0 < amount)) as [Hpos|Hneg].
  + destruct (MintAndAllocateInflation _ _ _ _ _ _) as [[[]|] w1] eqn:Em; [|done].
    destruct (MintAndAllocate_spec _ _ _ _ _ Hp Hpos Em) as (_ & M1 & M2 & M3 & M4 & M5 & M6).
    assert (iBank w' = iBank w1 ∧ infParams (iStore w') = infParams (iStore w)) as [-> ->].
    { injection Hend as <-. case_match; simpl; by rewrite ?M1. }
    split; [done|]. split; [done|]. split; [lia|]. done.
  + assert (amount = 0) as Ha by (pose proof (Z.div_pos provision precision); lia). rewrite Ha in *.
    unfold MintAndAllocateInflation in Hend. cbn [negb Z.ltb Z.compare] in Hend.
    assert (iBank w' = iBank w ∧ infParams (iStore w') = infParams (iStore w)) as [-> ->]
      by (injection Hend as <-; by case_match).
    split; [done|]. split; [intros d; rewrite Hzero; lia|]. split; [done|lia].
- assert (amount = 0) as Ha by (unfold amount; replace provision with 0 by lia; by apply Z.div_0_l; lia).
  injection Hend as <-. rewrite Ha. split; [done|]. split; [intros d; rewrite Hzero; lia|]. split; [done|lia].
Qed.

(** The query divides by the reduction factor a second time: what it reports as the
    provision of an epoch is a third of what the epoch mints. *)
Theorem query_reports_a_third w ratio :
  let s := iStore w in
  let provision := CalculateEpochMintProvision (infParams s) (infPeriod s) (GetEpochsPerPeriod s) ratio in
  valid_params (infParams s) → 0 <= infPeriod s → 0 < GetEpochsPerPeriod s →
  BondedRatio k w = Ok ratio → 0 <= ratio →
  Z.abs (3 * GetEpochMintProvision k w - provision) < 3.
Proof.
cbv zeta. intros Hp Hper Hepp Hratio Hr0. unfold GetEpochMintProvision. rewrite Hratio.
pose proof (provision_ok (infParams (iStore w)) (infPeriod (iStore w)) _ ratio Hp Hper Hepp Hr0) as Hprov.
set (provision := CalculateEpochMintProvision _ _ _ _) in *.
destruct (Dec_Quo_NewDec provision ReductionFactor Hprov ltac:(done)) as [_ Hq]. unfold ReductionFactor in *. lia.
Qed.
End mint.

(** ** x/epochs and x/inflation: a concrete chain

    The default epochs and the default inflation parameters on the reference ledger;
    the theorems on the clock and on minting are evaluated on it. *)


Module InflationExample.
#[local] Existing Instance bankers_dec.
#[local] Existing Instance bankers_dec_laws.

#[local] Instance power : DecPower := fun d x => Nat.iter (Z.to_nat x) (fun acc => Dec_Mul acc d) OneDec.
#[local] Instance power_laws : DecPowerLaws power.
Proof.
intros d x Hd _. unfold Dec_Power, power. induction (Z.to_nat x) as [|n IH]; [unfold OneDec, precision; simpl; lia|].
rewrite Nat.iter_succ. destruct (Dec_Mul_le _ d (proj1 IH) Hd) as [H1 H2].
split; [exact H1|]. exact (Z.le_trans _ _ _ H2 (proj2 IH)).
Qed.

Definition anyone : Restriction ledger unit := fun w _ to _ => (Ok to, w).
Lemma pass_all : passes anyone.
Proof. intros w from to cs x w' [= <- <-]. done. Qed.

Definition byAccount (b : ledger) : gmap string (gmap string N) := map_curry (M1 := gmap string) (M2 := gmap string) (bal b).
Definition balances (b : ledger) (a : addr) : Coins := Z.of_N <$> default ∅ (byAccount b !! a).

Lemma balances_spec b a d : amt (balances b a) d = Bank.GetBalance b a d.
Proof.
unfold amt, balances. rewrite lookup_fmap. change (Bank.GetBalance b a d) with (Z.of_N (default 0%N (bal b !! (a, d)))).
rewrite <- (lookup_map_curry (M1 := gmap string) (M2 := gmap string)). fold (byAccount b).
destruct (byAccount b !! a) as [m|]; simpl; [by destruct (m !! d)|by rewrite lookup_empty].
Qed.

Definition k : InflationKeeper ledger unit :=
  mkInflationKeeper _ _ "gov" "fee_collector" "atoshi_9000-1" [] (fun _ => Ok 1000) (fun _ => Ok 600) balances
    (fun w cs a => SendCoins anyone w a (ModuleAddress DistributionModule) cs).

Lemma pool_funded b s c a w' : (∀ d, 0 <= amt c d) → InfFundCommunityPool k (b, s) (coinList c) a = (Ok tt, w') →
  moved b w'.1 a (ModuleAddress DistributionModule) c.
Proof. intros Hc. by apply (send_moved anyone pass_all). Qed.

Lemma collector : feeCollectorName k ≠ InflationModule ∧ feeCollectorName k ≠ DistributionModule.
Proof. done. Qed.

(** ** The clock *)
Definition day : Z := 24 * 3600 * 10 ^ 9.
Definition st0 : EpochStore := Epochs.InitGenesis 0 1 ∅ DefaultGenesisState.
Definition off : InflationCtx ledger unit :=
  InfInitGenesis (mkInflationCtx (mkLedger ∅ ∅) tt (mkInflationStore DefaultParams 0 "" 0 0)) DefaultInfGenesis.
(** A block at the start, then three blocks after five days. *)
Definition blocks : list (Z * Z) := [(0, 2); (5 * day, 3); (5 * day + 1, 4); (5 * day + 2, 5)].

Definition ran : EpochStore * InflationCtx ledger unit :=
  match run_blocks (inflationHooks k anyone) blocks (st0, off) with Ok w => w | Err _ => (∅, off) end.

Lemma ran_ok : run_blocks (inflationHooks k anyone) blocks (st0, off) = Ok (ran.1, ran.2).
Proof. vm_compute. reflexivity. Qed.

Lemma st0_keyed : keyed st0.
Proof. unfold keyed. eapply bool_decide_unpack. vm_compute. exact I. Qed.

Definition dayInfo : EpochInfo := mkEpochInfo DayEpochID 0 day 0 zeroTime false 1.
Lemma dayInfo_at : st0 !! DayEpochID = Some dayInfo.
Proof. vm_compute. reflexivity. Qed.

Lemma st0_on_time : map_Forall (fun _ ei => on_time 0 ei ∧ CurrentEpoch ei + Z.of_nat (length blocks) < 2 ^ 63) st0.
Proof.
apply map_Forall_to_list. assert (E : ∃ w, map_to_list st0 = [(DayEpochID, dayInfo); (WeekEpochID, w)] ∧
  w = mkEpochInfo WeekEpochID 0 (7 * day) 0 zeroTime false 1 ∨ map_to_list st0 = [(WeekEpochID, w); (DayEpochID, dayInfo)] ∧
  w = mkEpochInfo WeekEpochID 0 (7 * day) 0 zeroTime false 1).
{ eexists. (left; split; [vm_compute; reflexivity|vm_compute; reflexivity]) || (right; split; vm_compute; reflexivity). }
destruct E as (w & [[-> ->]|[-> ->]]); repeat constructor; simpl; unfold day; try done; lia.
Qed.

(** On the day clock four blocks reach epoch 4, while the time is past five days. *)
Lemma epochs_keep_time_witness : ∃ ei, ran.1 !! DayEpochID = Some ei ∧ on_time (5 * day + 2) ei ∧ 0 <= CurrentEpoch ei <= 4.
Proof.
destruct (epochs_keep_time (inflationHooks k anyone) blocks 0 st0 off ran.1 ran.2 st0_keyed) with (id := DayEpochID) (ei := dayInfo)
  as (ei & E & Hot & _ & _ & Hb & _); [|exact st0_on_time|exact ran_ok|exact dayInfo_at|exists ei; split; [exact E|split; [exact Hot|exact Hb]]].
simpl. unfold day. lia.
Defined.

Lemma disabled_inflation_mints_nothing_witness :
  EnableInflation (infParams (iStore off)) = false ∧
  ∃ st' w', run_blocks (inflationHooks k anyone) blocks (st0, off) = Ok (st', w') ∧ iBank w' = mkLedger ∅ ∅.
Proof.
split; [reflexivity|].
destruct (disabled_inflation_mints_nothing k anyone blocks st0 off st0_keyed eq_refl) as (st' & w' & E & Hs).
- unfold is_u64, maxU64. simpl. lia.
- exists st', w'. split; [exact E|apply Hs].
Defined.

(** ** Inflation on *)
Definition params : Params := mkParams BaseDenom (Exponential DefaultParams) (Distribution DefaultParams) true.
Definition on : InflationCtx ledger unit :=
  mkInflationCtx (mkLedger ∅ ∅) tt (mkInflationStore params 0 DayEpochID 365 0).
Definition ratio : Dec := NewDecWithPrec 60 2.

Lemma inflation_params_ok : valid_params params.
Proof. apply (Params_Validate_spec (fun _ => true)). reflexivity. Qed.

Definition minted : InflationCtx ledger unit :=
  match infAfterEpochEnd k anyone on DayEpochID 2 with Ok w => w | Err _ => on end.
Lemma minted_ok : infAfterEpochEnd k anyone on DayEpochID 2 = Ok minted.
Proof. vm_compute. reflexivity. Qed.

Lemma provision_bounds_witness : 0 <= CalculateEpochMintProvision params 0 365 ratio.
Proof.
assert (Hr : 0 <= ratio) by (vm_compute; discriminate).
destruct (provision_bounds params 0 365 ratio inflation_params_ok (Z.le_refl 0) eq_refl Hr) as [H _]. exact H.
Defined.

Lemma epoch_end_mints_witness :
  infAfterEpochEnd k anyone on DayEpochID 2 = Ok minted ∧
  Bank.GetBalance (iBank minted) (ModuleAddress InflationModule) BaseDenom = 0.
Proof.
assert (Hr : BondedRatio k on = Ok ratio) by (vm_compute; reflexivity).
assert (Ha : 0 < CalculateEpochMintProvision params 0 365 ratio / precision) by (vm_compute; reflexivity).
split; [exact minted_ok|].
destruct (epoch_end_mints k anyone pass_all balances_spec pool_funded collector on DayEpochID 2 minted ratio) as (_ & _ & _ & H);
  [reflexivity|reflexivity|exact inflation_params_ok|simpl; lia|vm_compute; reflexivity|exact Hr|vm_compute; discriminate|exact minted_ok|].
destruct (H Ha) as [H0 _]. apply H0.
Defined.

Lemma query_reports_a_third_witness :
  BondedRatio k on = Ok ratio ∧
  Z.abs (3 * GetEpochMintProvision k on - CalculateEpochMintProvision params 0 365 ratio) < 3.
Proof.
assert (Hr : BondedRatio k on = Ok ratio) by (vm_compute; reflexivity).
split; [exact Hr|].
apply (query_reports_a_third k on ratio inflation_params_ok); [simpl; lia|vm_compute; reflexivity|exact Hr|vm_compute; discriminate].
Defined.
End InflationExample.
