(* ===== verification/Erc20Types.v ===== *)
(** * x/erc20/types: token pairs, parameters, names

    Addresses in hexadecimal are go-ethereum's ([EthAddresses], with the laws the
    module relies on); denom validation is the SDK's.  Names of tokens are cleaned
    byte by byte: the expressions of utils.go keep only ASCII characters, so the
    bytes of any other character go one by one. *)

From stdpp Require Import gmap strings list sorting.
From Stdlib Require Import ZArith Lia Ascii.
From S2P Require Import Prelude EvmStateDB.

Open Scope Z_scope.

Definition Erc20Module : string := "erc20".

Definition ErrERC20Disabled := Registered Erc20Module 2.
Definition ErrInternalTokenPair := Registered Erc20Module 3.
Definition ErrTokenPairNotFound := Registered Erc20Module 4.
Definition ErrTokenPairAlreadyExists := Registered Erc20Module 5.
Definition ErrUndefinedOwner := Registered Erc20Module 6.
Definition ErrBalanceInvariance := Registered Erc20Module 7.
Definition ErrUnexpectedEvent := Registered Erc20Module 8.
Definition ErrABIUnpack := Registered Erc20Module 10.
Definition ErrEVMCall := Registered Erc20Module 12.
Definition ErrERC20TokenPairDisabled := Registered Erc20Module 13.
Definition ErrInvalidIBC := Registered Erc20Module 14.
Definition ErrNativeConversionDisabled := Registered Erc20Module 16.

(** ** Addresses (go-ethereum's package common) *)
Class EthAddresses := {
  IsHexAddress : string → bool;
  HexToAddress : string → Address;
  AddressHex : Address → string;
}.

(** The 20 bytes of an address. *)
Definition is_address (a : Address) : Prop := String.length a = 20%nat.

Class EthAddressesLaws (E : EthAddresses) : Prop := {
  hex_is_hex a : is_address a → IsHexAddress (AddressHex a) = true;
  hex_back a : is_address a → HexToAddress (AddressHex a) = a;
  hex_address s : is_address (HexToAddress s);
  hex_length a : is_address a → String.length (AddressHex a) = 42%nat;
  hex_short s : IsHexAddress s = true → (String.length s <= 42)%nat;
}.

Section types.
Context `{EthAddresses}.

(** [ValidateAddress] of src/types/validation.go. *)
Definition ValidateAddress (s : string) : result unit :=
  guard! IsHexAddress s else Registered "sdk" 7; Ok tt.

(** ** Token pairs *)
Inductive Owner := OWNER_UNSPECIFIED | OWNER_MODULE | OWNER_EXTERNAL.

#[export] Instance Owner_eq : EqDecision Owner.
Proof. solve_decision. Defined.

Record TokenPair := mkTokenPair {
  Erc20Address : string; Denom : denom; Enabled : bool; ContractOwner : Owner;
}.

#[export] Instance TokenPair_eq : EqDecision TokenPair.
Proof. solve_decision. Defined.

Definition NewTokenPair (erc20Address : Address) (d : denom) (contractOwner : Owner) : TokenPair :=
  mkTokenPair (AddressHex erc20Address) d true contractOwner.

(** [tmhash.Sum], the SHA-256 of a string. *)
Variable Sum : string → string.

Definition GetID (tp : TokenPair) : string := Sum (Erc20Address tp +:+ "|" +:+ Denom tp)%string.
Definition GetERC20Contract (tp : TokenPair) : Address := HexToAddress (Erc20Address tp).
Definition IsNativeCoin (tp : TokenPair) : bool := bool_decide (ContractOwner tp = OWNER_MODULE).
Definition IsNativeERC20 (tp : TokenPair) : bool := bool_decide (ContractOwner tp = OWNER_EXTERNAL).

(** [sdk.ValidateDenom]. *)
Variable ValidateDenom : denom → result unit.

Definition TokenPair_Validate (tp : TokenPair) : result unit :=
  _ ← ValidateDenom (Denom tp); ValidateAddress (Erc20Address tp).

(** [utils.GetIBCDenomAddress]; [ParseHexHash] is ibc-go's, [BytesToAddress]
    go-ethereum's. *)
Variable ParseHexHash : string → result string.
Variable BytesToAddress : string → Address.
Variable TrimSpace : string → string.

Definition ErrInvalidDenomForTransfer := Registered "transfer" 3.

Definition GetIBCDenomAddress (d : denom) : result Address :=
  guard! String.prefix "ibc/" d else ErrInvalidDenomForTransfer;
  let hash := String.substring 4 (String.length d - 4) d in
  guard! negb ((String.length d <? 5)%nat || bool_decide (TrimSpace hash = ""%string)) else ErrInvalidDenomForTransfer;
  match ParseHexHash hash with
  | Err _ => Err ErrInvalidDenomForTransfer
  | Ok bz => Ok (BytesToAddress bz)
  end.

Definition NewTokenPairSTRv2 (d : denom) : result TokenPair :=
  address ← GetIBCDenomAddress d; Ok (mkTokenPair (AddressHex address) d true OWNER_MODULE).

Definition CreateDenom (address : string) : denom := (Erc20Module +:+ "/" +:+ address)%string.
Definition CreateDenomDescription (address : string) : string := ("Cosmos coin token representation of " +:+ address)%string.

(** ** Parameters *)
Record Params := mkParams {
  EnableErc20 : bool; NativePrecompiles : list string; DynamicPrecompiles : list string;
}.

Definition sortStrings (l : list string) : list string := merge_sort string_le l.

Definition NewParams (enableErc20 : bool) (nativePrecompiles dynamicPrecompiles : list string) : Params :=
  mkParams enableErc20 (sortStrings nativePrecompiles) (sortStrings dynamicPrecompiles).

(** [slices.IsSorted]. *)
Fixpoint IsSorted (l : list string) : bool :=
  match l with
  | [] => true
  | x :: l' => match l' with [] => true | y :: _ => bool_decide (string_le x y) && IsSorted l' end
  end.

Fixpoint precompileAddrs (precompiles : list string) : result (list Address) :=
  match precompiles with
  | [] => Ok []
  | p :: ps =>
      match ValidateAddress p with
      | Err _ => Err (Plain "invalid precompile")
      | Ok _ => l ← precompileAddrs ps; Ok (HexToAddress p :: l)
      end
  end.

Definition ValidatePrecompiles (precompiles : list string) : result (list Address) :=
  precAddrs ← precompileAddrs precompiles;
  guard! IsSorted precompiles else Plain "precompiles need to be sorted";
  Ok precAddrs.

Fixpoint validatePrecompilesUniqueness (seen : list string) (precompiles : list Address) : result unit :=
  match precompiles with
  | [] => Ok tt
  | p :: ps =>
      if bool_decide (AddressHex p ∈ seen) then Err (Plain "duplicate precompile")
      else validatePrecompilesUniqueness (AddressHex p :: seen) ps
  end.

Definition Params_Validate (p : Params) : result unit :=
  npAddrs ← ValidatePrecompiles (NativePrecompiles p);
  dpAddrs ← ValidatePrecompiles (DynamicPrecompiles p);
  validatePrecompilesUniqueness [] (dpAddrs ++ npAddrs).

Definition isAddrIncluded (a : Address) (strAddrs : list string) : bool :=
  existsb (fun sa => bool_decide (a = HexToAddress sa)) strAddrs.
Definition IsNativePrecompile (p : Params) (a : Address) : bool := isAddrIncluded a (NativePrecompiles p).
Definition IsDynamicPrecompile (p : Params) (a : Address) : bool := isAddrIncluded a (DynamicPrecompiles p).

(** ** Genesis *)
Record GenesisState := mkGenesis { gsParams : Params; gsTokenPairs : list TokenPair }.

Definition hasActiveTokenPair (pairs : list TokenPair) (address : string) : bool :=
  existsb (fun p => bool_decide (Erc20Address p = address) && Enabled p) pairs.

Definition validatePrecompiles (pairs : list TokenPair) (precompiles : list string) : result unit :=
  guard! forallb (hasActiveTokenPair pairs) precompiles else Plain "precompile address not found in token pairs"; Ok tt.

Fixpoint pairsValidate (seenErc20 seenDenom : list string) (pairs : list TokenPair) : result unit :=
  match pairs with
  | [] => Ok tt
  | b :: bs =>
      guard! negb (bool_decide (Erc20Address b ∈ seenErc20)) else Plain "token ERC20 contract duplicated on genesis";
      guard! negb (bool_decide (Denom b ∈ seenDenom)) else Plain "coin denomination duplicated on genesis";
      _ ← TokenPair_Validate b;
      pairsValidate (Erc20Address b :: seenErc20) (Denom b :: seenDenom) bs
  end.

Definition GenesisState_Validate (gs : GenesisState) : result unit :=
  _ ← pairsValidate [] [] (gsTokenPairs gs);
  _ ← Params_Validate (gsParams gs);
  _ ← validatePrecompiles (gsTokenPairs gs) (DynamicPrecompiles (gsParams gs));
  validatePrecompiles (gsTokenPairs gs) (NativePrecompiles (gsParams gs)).

Definition WEVMOSContractMainnet : string := "0xD4949664cD82660AaE99bEdc034a0deA8A0bd517".
Definition AtoshiBaseDenom : denom := "liao".
Definition DefaultParams : Params := mkParams true [WEVMOSContractMainnet] [].
Definition DefaultTokenPairs : list TokenPair := [mkTokenPair WEVMOSContractMainnet AtoshiBaseDenom true OWNER_MODULE].
Definition DefaultGenesisState : GenesisState := mkGenesis DefaultParams DefaultTokenPairs.

(** ** Messages *)
Record MsgConvertERC20 := mkMsgConvertERC20 {
  mcContractAddress : string; mcAmount : Z; mcReceiver : string; mcSender : string;
}.

(** [sdk.AccAddressFromBech32]. *)
Variable AccAddressFromBech32 : string → option addr.

Definition MsgConvertERC20_ValidateBasic (m : MsgConvertERC20) : result unit :=
  guard! IsHexAddress (mcContractAddress m) else Registered "sdk" 7;
  guard! 0 <? mcAmount m else Registered "sdk" 10;
  guard! bool_decide (is_Some (AccAddressFromBech32 (mcReceiver m))) else Plain "invalid receiver address";
  guard! IsHexAddress (mcSender m) else Registered "sdk" 7; Ok tt.

Definition Erc20UpdateParams_ValidateBasic (authority : string) (p : Params) : result unit :=
  guard! bool_decide (is_Some (AccAddressFromBech32 authority)) else Plain "Invalid authority address"; Params_Validate p.
Definition MsgRegisterERC20_ValidateBasic (addrs : list string) : result unit :=
  guard! forallb IsHexAddress addrs else Registered "sdk" 7; Ok tt.
Definition MsgToggleConversion_ValidateBasic (authority : string) : result unit :=
  guard! bool_decide (is_Some (AccAddressFromBech32 authority)) else Plain "Invalid authority address"; Ok tt.
End types.

(** ** Names (types/utils.go) *)
Definition isDigit (c : ascii) : bool := (48 <=? nat_of_ascii c)%nat && (nat_of_ascii c <=? 57)%nat.
Definition isLetter (c : ascii) : bool :=
  (65 <=? nat_of_ascii c)%nat && (nat_of_ascii c <=? 90)%nat || (97 <=? nat_of_ascii c)%nat && (nat_of_ascii c <=? 122)%nat.
Definition isNameChar (c : ascii) : bool :=
  isLetter c || isDigit c || bool_decide (c = "/"%char) || bool_decide (c = "-"%char).

(** The digits at the start of every line. *)
Fixpoint dropNumbers (lineStart : bool) (s : string) : string :=
  match s with
  | EmptyString => EmptyString
  | String c s' =>
      if lineStart && isDigit c then dropNumbers true s'
      else String c (dropNumbers (bool_decide (c = ascii_of_nat 10)) s')
  end.
Definition removeLeadingNumbers (s : string) : string := dropNumbers true s.

Fixpoint filterString (p : ascii → bool) (s : string) : string :=
  match s with
  | EmptyString => EmptyString
  | String c s' => if p c then String c (filterString p s') else filterString p s'
  end.
Definition removeSpecialChars (s : string) : string :=
  match s with
  | EmptyString => EmptyString
  | String c s' => if isLetter c then String c (filterString isNameChar s') else filterString isNameChar s'
  end.

(** The recursion drops at least four characters each time. *)
Fixpoint stripPrefixes (fuel : nat) (s : string) : string :=
  match fuel with
  | O => s
  | S fuel =>
      if String.prefix "ibc/" s then stripPrefixes fuel (String.substring 4 (String.length s - 4) s)
      else if String.prefix "erc20/" s then stripPrefixes fuel (String.substring 6 (String.length s - 6) s)
      else s
  end.
Definition removeInvalidPrefixes (s : string) : string := stripPrefixes (String.length s) s.

Definition SanitizeERC20Name (name : string) : string :=
  let name := removeSpecialChars (removeLeadingNumbers name) in
  let name := if (128 <? String.length name)%nat then String.substring 0 128 name else name in
  removeInvalidPrefixes name.
