(* ===== verification/Erc20Keeper.v ===== *)
(** * x/erc20/keeper: the store, calls of contracts, registration

    The module's key-value store is three maps and three parameter keys.  Contracts
    are called through x/evm/keeper/call_evm.go; what applies a message and what
    estimates its gas is the interface [EvmCaller] (state_transition.go and
    grpc_query.go of x/evm), and the ABI encoding is go-ethereum's ([Erc20Abi]).
    A call of a contract may change everything, the bank and this module included. *)

From stdpp Require Import gmap strings list sorting.
From Stdlib Require Import ZArith Lia.
From S2P Require Import Prelude Bank EvmStateDB EvmKeeper EvmTransition Erc20Types.

Open Scope Z_scope.

(** ** State *)
Record Erc20Store := mkErc20Store {
  tokenPairs : gmap string TokenPair;     (** [KeyPrefixTokenPair] *)
  byERC20 : gmap Address string;          (** [KeyPrefixTokenPairByERC20] *)
  byDenom : gmap denom string;            (** [KeyPrefixTokenPairByDenom] *)
  erc20Enabled : bool;                    (** [ParamStoreKeyEnableErc20] is set *)
  dynamicBytes : string;                  (** [ParamStoreKeyDynamicPrecompiles] *)
  nativeBytes : string;                   (** [ParamStoreKeyNativePrecompiles] *)
}.

(** [banktypes.Metadata]. *)
Record Metadata := mkMetadata {
  mdDescription : string; mdBase : denom; mdUnits : list (denom * Z); mdName : string; mdSymbol : string; mdDisplay : denom;
}.

Record Erc20World (B S A : Type) := mkErc20World {
  wCtx : EvmCtx B S A; wStore : Erc20Store; wMetadata : gmap denom Metadata;
}.
Arguments mkErc20World {B S A}.
Arguments wCtx {B S A}.
Arguments wStore {B S A}.
Arguments wMetadata {B S A}.

(** The bytes behind a value read from the store, from its end up to the capacity of the
    slice: a slice expression may reach into them. *)
Class ReadBuffer := spareBytes : string → string.

(** ** token_pairs.go *)
Section pairs.
Context `{EthAddresses} `{ReadBuffer}.
Variable Sum : string → string.

Definition SetTokenPair (tp : TokenPair) (s : Erc20Store) : Erc20Store :=
  mkErc20Store (<[GetID Sum tp := tp]> (tokenPairs s)) (byERC20 s) (byDenom s) (erc20Enabled s) (dynamicBytes s) (nativeBytes s).
Definition SetERC20Map (a : Address) (id : string) (s : Erc20Store) : Erc20Store :=
  mkErc20Store (tokenPairs s) (<[a := id]> (byERC20 s)) (byDenom s) (erc20Enabled s) (dynamicBytes s) (nativeBytes s).
Definition SetDenomMap (d : denom) (id : string) (s : Erc20Store) : Erc20Store :=
  mkErc20Store (tokenPairs s) (byERC20 s) (<[d := id]> (byDenom s)) (erc20Enabled s) (dynamicBytes s) (nativeBytes s).

Definition SetToken (tp : TokenPair) (s : Erc20Store) : Erc20Store :=
  SetERC20Map (GetERC20Contract tp) (GetID Sum tp) (SetDenomMap (Denom tp) (GetID Sum tp) (SetTokenPair tp s)).

Definition deleteTokenPair (id : string) (s : Erc20Store) : Erc20Store :=
  mkErc20Store (delete id (tokenPairs s)) (byERC20 s) (byDenom s) (erc20Enabled s) (dynamicBytes s) (nativeBytes s).
Definition deleteERC20Map (a : Address) (s : Erc20Store) : Erc20Store :=
  mkErc20Store (tokenPairs s) (delete a (byERC20 s)) (byDenom s) (erc20Enabled s) (dynamicBytes s) (nativeBytes s).
Definition deleteDenomMap (d : denom) (s : Erc20Store) : Erc20Store :=
  mkErc20Store (tokenPairs s) (byERC20 s) (delete d (byDenom s)) (erc20Enabled s) (dynamicBytes s) (nativeBytes s).

Definition DeleteTokenPair (tp : TokenPair) (s : Erc20Store) : Erc20Store :=
  deleteDenomMap (Denom tp) (deleteERC20Map (GetERC20Contract tp) (deleteTokenPair (GetID Sum tp) s)).

(** A missing entry and an empty one are both an empty slice. *)
Definition GetTokenPairID (s : Erc20Store) (token : string) : string :=
  default ""%string (if IsHexAddress token then byERC20 s !! HexToAddress token else byDenom s !! token).
Definition GetTokenPair (s : Erc20Store) (id : string) : option TokenPair :=
  if bool_decide (id = ""%string) then None else tokenPairs s !! id.

Definition IsERC20Registered (s : Erc20Store) (a : Address) : bool := bool_decide (is_Some (byERC20 s !! a)).
Definition IsDenomRegistered (s : Erc20Store) (d : denom) : bool := bool_decide (is_Some (byDenom s !! d)).

(** The lookup that most callers start with. *)
Definition findPair (s : Erc20Store) (token : string) : result TokenPair :=
  let id := GetTokenPairID s token in
  guard! negb (bool_decide (id = ""%string)) else ErrTokenPairNotFound;
  match GetTokenPair s id with None => Err ErrTokenPairNotFound | Some tp => Ok tp end.

(** [IterateTokenPairs] visits the pairs in the order of their keys. *)
Definition GetTokenPairs (s : Erc20Store) : list TokenPair :=
  omap (fun id => tokenPairs s !! id) (merge_sort string_le (elements (dom (tokenPairs s)))).

Definition GetTokenDenom (s : Erc20Store) (a : Address) : result denom :=
  let id := default ""%string (byERC20 s !! a) in
  guard! negb (bool_decide (id = ""%string)) else ErrTokenPairNotFound;
  match GetTokenPair s id with None => Err ErrTokenPairNotFound | Some tp => Ok (Denom tp) end.

(** The query of one pair; [ValidateDenom] is the SDK's. *)
Definition QueryTokenPair (ValidateDenom : denom → result unit) (s : Erc20Store) (token : string) : result TokenPair :=
  guard! IsHexAddress token || is_ok (ValidateDenom token) else Plain "invalid format for token";
  findPair s token.

(** ** precompiles.go

    Which pair the precompile at an address serves, and whether it is the wrapped
    coin's; [None]: there is none. *)
Definition IsAvailableERC20Precompile (p : Params) (a : Address) : bool :=
  IsNativePrecompile p a || IsDynamicPrecompile p a.
Definition InstantiateERC20Precompile (s : Erc20Store) (a : Address) (hasWrappedMethods : bool) : result (TokenPair * bool) :=
  match findPair s (AddressHex a) with
  | Err _ => Err (Plain "precompile id not found")
  | Ok tp => Ok (tp, hasWrappedMethods)
  end.

(** ** params.go

    The addresses are written one after the other and cut at the length of a
    prefixed address when read; a slice beyond the capacity is a panic. *)
Definition addressLength : nat := 42.

Fixpoint cutAddresses (fuel : nat) (spare bz : string) : result (list string) :=
  match fuel with
  | O => Ok []
  | S fuel =>
      if bool_decide (bz = ""%string) then Ok []
      else if (String.length (bz +:+ spare) <? addressLength)%nat then Err (Plain "slice bounds out of range")
      else
        l ← cutAddresses fuel spare (String.substring addressLength (String.length bz - addressLength) bz);
        Ok (String.substring 0 addressLength (bz +:+ spare) :: l)
  end.
Definition getPrecompiles (bz : string) : result (list string) := cutAddresses (String.length bz) (spareBytes bz) bz.
Definition joinAddresses (l : list string) : string := foldr String.append ""%string l.

Definition GetParams (s : Erc20Store) : result Params :=
  dynamicPrecompiles ← getPrecompiles (dynamicBytes s);
  nativePrecompiles ← getPrecompiles (nativeBytes s);
  Ok (NewParams (erc20Enabled s) nativePrecompiles dynamicPrecompiles).

Definition GetERC20PrecompileInstance (s : Erc20Store) (a : Address) : result (option (TokenPair * bool)) :=
  params ← GetParams s;
  if negb (IsAvailableERC20Precompile params a) then Ok None
  else x ← InstantiateERC20Precompile s a (IsNativePrecompile params a); Ok (Some x).

Definition setParamKeys (p : Params) (s : Erc20Store) : Erc20Store :=
  mkErc20Store (tokenPairs s) (byERC20 s) (byDenom s) (EnableErc20 p) (joinAddresses (DynamicPrecompiles p)) (joinAddresses (NativePrecompiles p)).

(** [appendPrecompiles] of dynamic_precompiles.go, for one address. *)
Definition appendPrecompile (existing : list string) (a : Address) : result (list string) :=
  guard! negb (bool_decide (AddressHex a ∈ existing)) else Plain "attempted to register a duplicate precompile address";
  Ok (sortStrings (existing ++ [AddressHex a])).
End pairs.

(** ** Contracts *)
Class Erc20Abi := {
  PackTransfer : Address → Z → result string;
  PackBalanceOf : Address → result string;
  PackName : result string;
  PackSymbol : result string;
  PackDecimals : result string;
  UnpackBool : string → result bool;
  UnpackUint : string → option Z;
  UnpackString : string → result string;
  UnpackUint8 : string → result Z;
}.

Class EvmCaller (W : Type) := {
  EstimateGasInternal : W → Address → option Address → string → result Z;
  ApplyMessage : Message → bool → W → result MsgEthereumTxResponse * W;
}.

(** A message that is not committed leaves no trace. *)
Class EvmCallerLaws {W} (E : EvmCaller W) : Prop :=
  apply_query msg w : (ApplyMessage msg false w).2 = w.

Definition DefaultGasCap : Z := 25000000.
Definition ErrVMExecution := Registered "evm" 10.
Definition ErrEvmABIPack := Registered "evm" 18.

Record ERC20Data := mkERC20Data { eName : string; eSymbol : string; eDecimals : Z }.

Section keeper.
Context `{EvmEnv} {B S A : Type} `{BankOps B} `{AuthKeeper A} `{EthAddresses} `{ReadBuffer} `{Erc20Abi}.
Context `{EvmCaller (Erc20World B S A)}.
Variable evmDenom : denom.
Variable AccAddress : Address → addr.
Variable r : Restriction B S.
Variable Sum : string → string.
Variable ModuleAddr : Address.              (** [types.ModuleAddress] *)
Variable Erc20Bytecode : string.
Variable Metadata_Validate : Metadata → result unit.
Variable authority : string.
Variable validAuthority : string → bool.    (** [AddressCodec().StringToBytes] succeeds *)

Abbreviation W := (Erc20World B S A).
Implicit Types (w : W).

Definition with_ctx (c : EvmCtx B S A) w : W := mkErc20World c (wStore w) (wMetadata w).
Definition with_store (s : Erc20Store) w : W := mkErc20World (wCtx w) s (wMetadata w).
Definition with_metadata (m : gmap denom Metadata) w : W := mkErc20World (wCtx w) (wStore w) m.

(** *** x/evm/keeper/call_evm.go *)
Definition CallEVMWithData w (from : Address) (contract : option Address) (data : string) (commit : bool)
    : result MsgEthereumTxResponse * W :=
  match AuthGetAccount (cAuth (wCtx w)) (AccAddress from) with
  | None => (Err (Registered "sdk" 9), w)
  | Some acct =>
      match (if commit then EstimateGasInternal w from contract data else Ok DefaultGasCap) with
      | Err e => (Err e, w)
      | Ok gasCap =>
          match ApplyMessage (mkMessage from contract (GetSequence acct) gasCap 0 0 0 data []) commit w with
          | (Err e, w) => (Err e, w)
          | (Ok res, w) => (if Failed res then Err ErrVMExecution else Ok res, w)
          end
      end
  end.

Definition CallEVM w (from contract : Address) (commit : bool) (data : result string) : result MsgEthereumTxResponse * W :=
  match data with
  | Err _ => (Err ErrEvmABIPack, w)
  | Ok data => CallEVMWithData w from (Some contract) data commit
  end.

(** *** evm.go *)
Definition BalanceOf w (contract account : Address) : option Z * W :=
  match CallEVM w ModuleAddr contract false (PackBalanceOf account) with
  | (Err _, w) => (None, w)
  | (Ok res, w) => (UnpackUint (resRet res), w)
  end.

Definition QueryERC20 w (contract : Address) : result ERC20Data * W :=
  match CallEVM w ModuleAddr contract false PackName with
  | (Err e, w) => (Err e, w)
  | (Ok res, w) =>
      match UnpackString (resRet res) with
      | Err _ => (Err ErrABIUnpack, w)
      | Ok name =>
          match CallEVM w ModuleAddr contract false PackSymbol with
          | (Err e, w) => (Err e, w)
          | (Ok res, w) =>
              match UnpackString (resRet res) with
              | Err _ => (Err ErrABIUnpack, w)
              | Ok symbol =>
                  match CallEVM w ModuleAddr contract false PackDecimals with
                  | (Err e, w) => (Err e, w)
                  | (Ok res, w) =>
                      match UnpackUint8 (resRet res) with
                      | Err _ => (Err ErrABIUnpack, w)
                      | Ok decimals => (Ok (mkERC20Data name symbol decimals), w)
                      end
                  end
              end
          end
      end
  end.

(** [log.Topics[0]] of a log without topics is a panic. *)
Fixpoint monitorLoop (logs : list Log) : result unit :=
  match logs with
  | [] => Ok tt
  | log :: logs =>
      match Topics log with
      | [] => Err (Plain "index out of range")
      | topic :: _ =>
          if bool_decide (topic = Keccak256 "Approval(address,address,uint256)") then Err ErrUnexpectedEvent else monitorLoop logs
      end
  end.
Definition monitorApprovalEvent (res : MsgEthereumTxResponse) : result unit := monitorLoop (resLogs res).

(** *** dynamic_precompiles.go *)
Definition setCodeHash w (a : Address) (codeHash : Hash) : result unit * W :=
  let '(nonce, balance) :=
    match KeeperGetAccount evmDenom AccAddress (wCtx w) a with
    | Some acc => (Nonce acc, Balance acc)
    | None => (0, 0)
    end in
  let '(res, c) := KeeperSetAccount evmDenom AccAddress r (wCtx w) a (mkAccount nonce balance codeHash) in
  (res, with_ctx c w).

Definition RegisterERC20CodeHash w (a : Address) : result unit * W :=
  let codeHash := Keccak256 Erc20Bytecode in
  let c := if bool_decide (default ""%string (KeeperGetCode (wCtx w) codeHash) = ""%string)
           then KeeperSetCode (wCtx w) codeHash Erc20Bytecode else wCtx w in
  setCodeHash (with_ctx c w) a codeHash.

Definition UnRegisterERC20CodeHash w (a : Address) : result unit * W := setCodeHash w a (Keccak256 "").

(** *** params.go *)
Fixpoint codeHashLoop (register : bool) (skip todo : list string) w : result unit * W :=
  match todo with
  | [] => (Ok tt, w)
  | p :: todo =>
      if bool_decide (p ∈ skip) then codeHashLoop register skip todo w
      else
        match (if register then RegisterERC20CodeHash w (HexToAddress p) else UnRegisterERC20CodeHash w (HexToAddress p)) with
        | (Err e, w) => (Err e, w)
        | (Ok _, w) => codeHashLoop register skip todo w
        end
  end.

Definition RegisterOrUnregisterERC20CodeHashes w (oldPrecompiles newPrecompiles : list string) : result unit * W :=
  match codeHashLoop false newPrecompiles oldPrecompiles w with
  | (Err e, w) => (Err e, w)
  | (Ok _, w) => codeHashLoop true oldPrecompiles newPrecompiles w
  end.

Definition UpdateCodeHash w (newParams : Params) : result unit * W :=
  match getPrecompiles (nativeBytes (wStore w)), getPrecompiles (dynamicBytes (wStore w)) with
  | Ok oldNative, Ok oldDynamic =>
      match RegisterOrUnregisterERC20CodeHashes w oldDynamic (DynamicPrecompiles newParams) with
      | (Err e, w) => (Err e, w)
      | (Ok _, w) => RegisterOrUnregisterERC20CodeHashes w oldNative (NativePrecompiles newParams)
      end
  | Err e, _ | _, Err e => (Err e, w)
  end.

Definition SetParams w (newParams : Params) : result unit * W :=
  let newParams := mkParams (EnableErc20 newParams) (sortStrings (NativePrecompiles newParams)) (sortStrings (DynamicPrecompiles newParams)) in
  match Params_Validate newParams with
  | Err e => (Err e, w)
  | Ok _ =>
      match UpdateCodeHash w newParams with
      | (Err e, w) => (Err e, w)
      | (Ok _, w) => (Ok tt, with_store (setParamKeys newParams (wStore w)) w)
      end
  end.

Definition EnableDynamicPrecompiles w (a : Address) : result unit * W :=
  match GetParams (wStore w) with
  | Err e => (Err e, w)
  | Ok params =>
      match appendPrecompile (DynamicPrecompiles params) a with
      | Err e => (Err e, w)
      | Ok updated => SetParams w (mkParams (EnableErc20 params) (NativePrecompiles params) updated)
      end
  end.

(** *** proposals.go *)
Definition CreateCoinMetadata w (contract : Address) : result Metadata * W :=
  let strContract := AddressHex contract in
  match QueryERC20 w contract with
  | (Err e, w) => (Err e, w)
  | (Ok data, w) =>
      let base := CreateDenom strContract in
      if bool_decide (is_Some (wMetadata w !! base)) then (Err ErrInternalTokenPair, w)
      else if IsDenomRegistered (wStore w) base then (Err ErrInternalTokenPair, w)
      else
        let nameSanitized := SanitizeERC20Name (eName data) in
        let decimals := 0 <? eDecimals data in
        let metadata := mkMetadata (CreateDenomDescription strContract) base
          ((base, 0) :: (if decimals then [(nameSanitized, eDecimals data)] else []))
          base (eSymbol data) (if decimals then nameSanitized else base) in
        match Metadata_Validate metadata with
        | Err e => (Err e, w)
        | Ok _ => (Ok metadata, with_metadata (<[base := metadata]> (wMetadata w)) w)
        end
  end.

Definition registerERC20 w (contract : Address) : result TokenPair * W :=
  if IsERC20Registered (wStore w) contract then (Err ErrTokenPairAlreadyExists, w)
  else
    match CreateCoinMetadata w contract with
    | (Err e, w) => (Err e, w)
    | (Ok metadata, w) =>
        let tp := NewTokenPair contract (mdName metadata) OWNER_EXTERNAL in
        (Ok tp, with_store (SetToken Sum tp (wStore w)) w)
    end.

Definition toggleConversion w (token : string) : result TokenPair * W :=
  match findPair (wStore w) token with
  | Err e => (Err e, w)
  | Ok tp =>
      let tp := mkTokenPair (Erc20Address tp) (Denom tp) (negb (Enabled tp)) (ContractOwner tp) in
      (Ok tp, with_store (SetTokenPair Sum tp (wStore w)) w)
  end.

(** *** The governance messages of msg_server.go *)
Definition validateAuthority (a : string) : result unit :=
  guard! validAuthority a else Registered "sdk" 7;
  guard! bool_decide (authority = a) else Registered "gov" 13; Ok tt.

Definition UpdateParams w (a : string) (p : Params) : result unit * W :=
  match validateAuthority a with
  | Err e => (Err e, w)
  | Ok _ => SetParams w p
  end.

Fixpoint registerLoop w (addrs : list string) : result unit * W :=
  match addrs with
  | [] => (Ok tt, w)
  | a :: addrs =>
      if negb (IsHexAddress a) then (Err (Registered "sdk" 7), w)
      else
        match registerERC20 w (HexToAddress a) with
        | (Err e, w) => (Err e, w)
        | (Ok _, w) => registerLoop w addrs
        end
  end.

Definition RegisterERC20 w (a : string) (addrs : list string) : result unit * W :=
  if negb (erc20Enabled (wStore w)) then (Err ErrERC20Disabled, w)
  else match validateAuthority a with Err e => (Err e, w) | Ok _ => registerLoop w addrs end.

Definition ToggleConversion w (a : string) (token : string) : result unit * W :=
  if negb (erc20Enabled (wStore w)) then (Err ErrERC20Disabled, w)
  else
    match validateAuthority a with
    | Err e => (Err e, w)
    | Ok _ => let '(res, w) := toggleConversion w token in (match res with Err e => Err e | Ok _ => Ok tt end, w)
    end.

(** *** genesis.go; the module account is set up by the application. *)
Definition InitGenesis w (data : GenesisState) : result unit * W :=
  match SetParams w (gsParams data) with
  | (Err e, w) => (Err e, w)
  | (Ok _, w) => (Ok tt, with_store (foldl (fun s tp => SetToken Sum tp s) (wStore w) (gsTokenPairs data)) w)
  end.

Definition ExportGenesis w : result GenesisState :=
  params ← GetParams (wStore w); Ok (mkGenesis params (GetTokenPairs (wStore w))).
End keeper.
