(* ===== verification/Erc20Convert.v ===== *)
(** * x/erc20: conversions, and IBC transfers that convert

    Models mint.go, the conversions of msg_server.go, ibc_callbacks.go,
    ibc_middleware.go, src/ibc/utils.go and x/ibc/transfer/keeper/msg_server.go.
    The transfer application of ibc-go below the middleware, its denomination traces
    and the SDK's bank switches are dependencies. *)

From stdpp Require Import gmap strings list sorting.
From Stdlib Require Import ZArith Lia Ascii.
From S2P Require Import Prelude Bank EvmStateDB EvmKeeper EvmTransition Erc20Types Erc20Keeper.

Open Scope Z_scope.

(** ibc-go's transfer types, and [math.NewIntFromString]. *)
Class IbcTypes := {
  DenomTrace : Type;
  ParseDenomTrace : string → DenomTrace;
  IBCDenom : DenomTrace → denom;
  TracePath : DenomTrace → string;
  BaseDenom : DenomTrace → string;
  GetDenomPrefix : string → string → string;
  ReceiverChainIsSource : string → string → string → bool;
  NewIntFromString : string → option Z;
}.

Record PacketData := mkPacketData { pdDenom : string; pdAmount : string; pdSender : string; pdReceiver : string }.
Record Packet := mkPacket {
  SourcePort : string; SourceChannel : string; DestinationPort : string; DestinationChannel : string;
  packetData : result PacketData;     (** what the JSON of its data decodes to *)
}.
Inductive Ack := AckResult | AckError (e : error).
Definition ackSuccess (a : Ack) : bool := match a with AckResult => true | AckError _ => false end.

(** ** src/ibc/utils.go *)
Section ibc.
Context `{IbcTypes}.

Definition GetReceivedCoin (p : Packet) (rawDenom rawAmt : string) : denom * option Z :=
  let amount := NewIntFromString rawAmt in
  if ReceiverChainIsSource (SourcePort p) (SourceChannel p) rawDenom then
    let voucherPrefix := GetDenomPrefix (SourcePort p) (SourceChannel p) in
    let n := String.length voucherPrefix in
    (IBCDenom (ParseDenomTrace (String.substring n (String.length rawDenom - n) rawDenom)), amount)
  else
    let sourcePrefix := GetDenomPrefix (DestinationPort p) (DestinationChannel p) in
    (IBCDenom (ParseDenomTrace (sourcePrefix +:+ rawDenom)), amount).

Definition GetSentCoin (rawDenom rawAmt : string) : denom * option Z :=
  (IBCDenom (ParseDenomTrace rawDenom), NewIntFromString rawAmt).

(** [strings.Split(s, "/")] has one component exactly when there is no slash. *)
Definition hasSlash (s : string) : bool := existsb (fun c => bool_decide (c = "/"%char)) (String.list_ascii_of_string s).
Definition IsBaseDenomFromSourceChain (rawDenom : string) : bool :=
  let denomTrace := ParseDenomTrace rawDenom in
  (String.length (TracePath denomTrace) =? 0)%nat && negb (hasSlash (BaseDenom denomTrace)).
End ibc.

(** ** The keeper *)
Section convert.
Context `{EvmEnv} {B S A : Type} `{BankOps B} `{AuthKeeper A} `{EthAddresses} `{ReadBuffer} `{Erc20Abi}.
Context `{EvmCaller (Erc20World B S A)} `{IbcTypes}.
Variable evmDenom : denom.
Variable AccAddress : Address → addr.
Variable r : Restriction B S.
Variable Sum : string → string.
Variable ModuleAddr : Address.
Variable Erc20Bytecode : string.
Variable ethAddress : addr → Address.                         (** [common.BytesToAddress] of an account's bytes *)
Variable AccAddressFromBech32 : string → option addr.
Variable AccString : addr → string.                           (** [sdk.AccAddress.String] *)
Variable IsSendEnabledCoin : B → denom → bool.

Abbreviation W := (Erc20World B S A).
Implicit Types (w : W).

Definition bankOf w : B * S := (cBank (wCtx w), cHooks (wCtx w)).
Definition with_bankOf (x : B * S) w : W := with_ctx (with_bank x (wCtx w)) w.

Definition MintingEnabled w (sender receiver : addr) (token : string) : result TokenPair :=
  guard! erc20Enabled (wStore w) else ErrERC20Disabled;
  tp ← findPair (wStore w) token;
  guard! Enabled tp else ErrERC20TokenPairDisabled;
  guard! negb (BlockedAddr receiver) else Registered "sdk" 4;
  guard! bool_decide (sender = receiver) || IsSendEnabledCoin (cBank (wCtx w)) (Denom tp) else Registered "bank" 5;
  Ok tp.

(** The contract's [transfer], whose answer must be true. *)
Definition callTransfer w (from contract to : Address) (amount : Z) : result MsgEthereumTxResponse * W :=
  match CallEVM AccAddress w from contract true (PackTransfer to amount) with
  | (Err e, w) => (Err e, w)
  | (Ok res, w) =>
      match UnpackBool (resRet res) with
      | Err e => (Err e, w)
      | Ok false => (Err (Registered "sdk" 35), w)
      | Ok true => (Ok res, w)
      end
  end.

(** Minting to the module and sending on, and the two checks that follow. *)
Definition mintTo w (tp : TokenPair) (amount : Z) (receiver : addr) (balanceCoin : Z) (res : MsgEthereumTxResponse)
    : result unit * W :=
  let coins := [(Denom tp, amount)] in
  match MintCoins (cBank (wCtx w)) Erc20Module coins with
  | Err e => (Err e, w)
  | Ok b =>
      match SendCoinsFromModuleToAccount r (b, cHooks (wCtx w)) Erc20Module receiver coins with
      | (Err e, x) => (Err e, with_bankOf x w)
      | (Ok _, x) =>
          let w := with_bankOf x w in
          if negb (Bank.GetBalance (cBank (wCtx w)) receiver (Denom tp) =? balanceCoin + amount)
          then (Err ErrBalanceInvariance, w)
          else (monitorApprovalEvent res, w)
      end
  end.

Definition convertERC20IntoCoinsForNativeToken w (tp : TokenPair) (msg : MsgConvertERC20) (receiver : addr) (sender : Address)
    : result unit * W :=
  let contract := GetERC20Contract tp in
  let balanceCoin := Bank.GetBalance (cBank (wCtx w)) receiver (Denom tp) in
  match BalanceOf AccAddress ModuleAddr w contract ModuleAddr with
  | (None, w) => (Err ErrEVMCall, w)
  | (Some balanceToken, w) =>
      match PackTransfer ModuleAddr (mcAmount msg) with
      | Err e => (Err e, w)
      | Ok _ =>
          match callTransfer w sender contract ModuleAddr (mcAmount msg) with
          | (Err e, w) => (Err e, w)
          | (Ok res, w) =>
              match BalanceOf AccAddress ModuleAddr w contract ModuleAddr with
              | (None, w) => (Err ErrEVMCall, w)
              | (Some balanceTokenAfter, w) =>
                  if negb (balanceTokenAfter =? balanceToken + mcAmount msg) then (Err ErrBalanceInvariance, w)
                  else mintTo w tp (mcAmount msg) receiver balanceCoin res
              end
          end
      end
  end.

Definition ConvertERC20 w (msg : MsgConvertERC20) : result unit * W :=
  match AccAddressFromBech32 (mcReceiver msg) with
  | None => (Err (Plain "decoding bech32 failed"), w)
  | Some receiver =>
      let sender := HexToAddress (mcSender msg) in
      match MintingEnabled w (AccAddress sender) receiver (mcContractAddress msg) with
      | Err e => (Err e, w)
      | Ok tp =>
          if IsNativeERC20 tp then
            if match GetAccountWithoutBalance AccAddress (wCtx w) (GetERC20Contract tp) with
               | None => true
               | Some (_, codeHash) => IsEmptyCodeHash codeHash
               end
            then (Ok tt, with_store (DeleteTokenPair Sum tp (wStore w)) w)
            else convertERC20IntoCoinsForNativeToken w tp msg receiver sender
          else if IsNativeCoin tp then (Err ErrNativeConversionDisabled, w)
          else (Err ErrUndefinedOwner, w)
      end
  end.

Definition ConvertCoinNativeERC20 w (tp : TokenPair) (amount : Z) (receiver : Address) (sender : addr) : result unit * W :=
  if negb (0 <? amount) then (Ok tt, w)
  else
    let contract := GetERC20Contract tp in
    match BalanceOf AccAddress ModuleAddr w contract receiver with
    | (None, w) => (Err ErrEVMCall, w)
    | (Some balanceToken, w) =>
        let coins := [(Denom tp, amount)] in
        match SendCoinsFromAccountToModule r (bankOf w) sender Erc20Module coins with
        | (Err e, x) => (Err e, with_bankOf x w)
        | (Ok _, x) =>
            match callTransfer (with_bankOf x w) ModuleAddr contract receiver amount with
            | (Err e, w) => (Err e, w)
            | (Ok res, w) =>
                match BalanceOf AccAddress ModuleAddr w contract receiver with
                | (None, w) => (Err ErrEVMCall, w)
                | (Some balanceTokenAfter, w) =>
                    if negb (balanceTokenAfter =? balanceToken + amount) then (Err ErrBalanceInvariance, w)
                    else
                      match BurnCoins (cBank (wCtx w)) Erc20Module coins with
                      | Err e => (Err e, w)
                      | Ok b => (monitorApprovalEvent res, with_bankOf (b, cHooks (wCtx w)) w)
                      end
                end
            end
        end
    end.

(** *** Dynamic precompiles for vouchers (dynamic_precompiles.go, token_pairs.go) *)
Variable ParseHexHash : string → result string.               (** ibc-go's *)
Variable BytesToAddress : string → Address.
Variable TrimSpace : string → string.

Definition CreateNewTokenPair w (d : denom) : result TokenPair * W :=
  match NewTokenPairSTRv2 ParseHexHash BytesToAddress TrimSpace d with
  | Err e => (Err e, w)
  | Ok tp => (Ok tp, with_store (SetToken Sum tp (wStore w)) w)
  end.

Definition RegisterERC20Extension w (d : denom) : result TokenPair * W :=
  match CreateNewTokenPair w d with
  | (Err e, w) => (Err e, w)
  | (Ok tp, w) =>
      let '(res, w) := EnableDynamicPrecompiles evmDenom AccAddress r Erc20Bytecode w (GetERC20Contract tp) in
      (match res with Err e => Err e | Ok _ => Ok tp end, w)
  end.

(** *** ibc_callbacks.go *)
Variable GetFromBech32 : string → string → result addr.       (** the SDK's *)
Variable VerifyAddressFormat : addr → result unit.

(** [utils.GetEvmosAddressFromBech32]: the prefix is what precedes the first "1". *)
Fixpoint beforeOne (s : string) : string :=
  match s with
  | EmptyString => EmptyString
  | String c s => if bool_decide (c = "1"%char) then EmptyString else String c (beforeOne s)
  end.
Definition GetEvmosAddressFromBech32 (address : string) : result addr :=
  let bech32Prefix := beforeOne address in
  guard! negb (bool_decide (bech32Prefix = address)) else Registered "sdk" 7;
  match GetFromBech32 address bech32Prefix with
  | Err _ => Err (Registered "sdk" 7)
  | Ok a => _ ← VerifyAddressFormat a; Ok a
  end.
Definition GetTransferSenderRecipient (data : PacketData) : result (addr * addr) :=
  sender ← GetEvmosAddressFromBech32 (pdSender data);
  recipient ← GetEvmosAddressFromBech32 (pdReceiver data);
  Ok (sender, recipient).

Variable IsEVMChannel : string → bool.
Variable IsModuleAccount : A → addr → bool.
Variable bondDenom : result denom.

Definition OnRecvPacket w (packet : Packet) (ack : Ack) : Ack * W :=
  if negb (erc20Enabled (wStore w)) then (ack, w)
  else
    match packetData packet with
    | Err _ => (AckError (Registered "sdk" 29), w)
    | Ok data =>
        match GetTransferSenderRecipient data with
        | Err e => (AckError e, w)
        | Ok (sender, recipient) =>
            if bool_decide (sender = recipient) && negb (IsEVMChannel (DestinationChannel packet)) then (AckError ErrInvalidIBC, w)
            else if IsModuleAccount (cAuth (wCtx w)) recipient then (ack, w)
            else
              let '(d, _) := GetReceivedCoin packet (pdDenom data) (pdAmount data) in
              if String.prefix "factory/" (pdDenom data) then (ack, w)
              else
                match bondDenom with
                | Err e => (AckError e, w)
                | Ok bond =>
                    if bool_decide (d = bond) then (ack, w)
                    else
                      match GetTokenPair (wStore w) (GetTokenPairID (wStore w) d) with
                      | None =>
                          if String.prefix "ibc/" d && IsBaseDenomFromSourceChain (pdDenom data)
                          then match RegisterERC20Extension w d with (Err e, w) => (AckError e, w) | (Ok _, w) => (ack, w) end
                          else (ack, w)
                      | Some tp =>
                          if IsNativeERC20 tp then
                            if negb (Enabled tp) then (ack, w)
                            else
                              let balance := Bank.GetBalance (cBank (wCtx w)) recipient d in
                              match ConvertCoinNativeERC20 w tp balance (ethAddress recipient) recipient with
                              | (Err e, w) => (AckError e, w)
                              | (Ok _, w) => (ack, w)
                              end
                          else (ack, w)
                      end
                end
        end
    end.

Definition ConvertCoinToERC20FromPacket w (data : PacketData) : result unit * W :=
  match AccAddressFromBech32 (pdSender data) with
  | None => (Err (Plain "decoding bech32 failed"), w)
  | Some sender =>
      match GetTokenPair (wStore w) (GetTokenPairID (wStore w) (pdDenom data)) with
      | None => (Ok tt, w)
      | Some tp =>
          let '(d, amount) := GetSentCoin (pdDenom data) (pdAmount data) in
          if IsNativeCoin tp then (Ok tt, w)
          else if IsNativeERC20 tp then
            match GetParams (wStore w) with
            | Err e => (Err e, w)
            | Ok params =>
                if negb (EnableErc20 params) || negb (IsDenomRegistered (wStore w) d) then (Ok tt, w)
                else if IsModuleAccount (cAuth (wCtx w)) sender then (Ok tt, w)
                else
                  match amount with
                  | None => (Err (Plain "nil pointer dereference"), w)
                  | Some amount => ConvertCoinNativeERC20 w tp amount (ethAddress sender) sender
                  end
            end
          else (Ok tt, w)
      end
  end.

Definition OnAcknowledgementPacket w (data : PacketData) (ack : Ack) : result unit * W :=
  match ack with
  | AckError _ => ConvertCoinToERC20FromPacket w data
  | AckResult => (Ok tt, w)
  end.
Definition OnTimeoutPacket w (data : PacketData) : result unit * W := ConvertCoinToERC20FromPacket w data.

(** *** ibc_middleware.go, around the callbacks of the transfer application *)
Variable appRecv : Packet → W → Ack * W.
Variable appAck : Packet → string → W → result unit * W.
Variable appTimeout : Packet → W → result unit * W.
Variable decodeAck : string → result Ack.

Definition MiddlewareRecv w (packet : Packet) : Ack * W :=
  let '(ack, w) := appRecv packet w in
  if negb (ackSuccess ack) then (ack, w) else OnRecvPacket w packet ack.

Definition MiddlewareAck w (packet : Packet) (acknowledgement : string) : result unit * W :=
  match decodeAck acknowledgement, packetData packet with
  | Err _, _ | Ok _, Err _ => (Err (Registered "sdk" 6), w)
  | Ok ack, Ok data =>
      match appAck packet acknowledgement w with
      | (Err e, w) => (Err e, w)
      | (Ok _, w) => OnAcknowledgementPacket w data ack
      end
  end.

Definition MiddlewareTimeout w (packet : Packet) : result unit * W :=
  match packetData packet with
  | Err _ => (Err (Registered "sdk" 6), w)
  | Ok data =>
      match appTimeout packet w with
      | (Err e, w) => (Err e, w)
      | (Ok _, w) => OnTimeoutPacket w data
      end
  end.

(** *** x/ibc/transfer/keeper/msg_server.go; [sdkTransfer] is ibc-go's *)
Record MsgTransferToken := mkTransferToken { trSender : string; trDenom : denom; trAmount : Z }.
Variable sdkTransfer : MsgTransferToken → W → result unit * W.

Definition trimErc20 (d : denom) : string :=
  if String.prefix "erc20/" d then String.substring 6 (String.length d - 6) d else d.

Definition Transfer w (msg : MsgTransferToken) : result unit * W :=
  let s := wStore w in
  let pairID := GetTokenPairID s (trimErc20 (trDenom msg)) in
  if bool_decide (pairID = ""%string) then sdkTransfer msg w
  else
    match GetTokenPair s pairID with
    | None => sdkTransfer msg w      (** the zero pair is disabled *)
    | Some tp =>
        if negb (Enabled tp) then sdkTransfer msg w
        else
          match AccAddressFromBech32 (trSender msg) with
          | None => (Err (Plain "decoding bech32 failed"), w)
          | Some sender =>
              if negb (erc20Enabled s) then sdkTransfer msg w
              else
                let msg := mkTransferToken (trSender msg) (Denom tp) (trAmount msg) in
                if negb (IsNativeERC20 tp) then sdkTransfer msg w
                else
                  let balance := Bank.GetBalance (cBank (wCtx w)) sender (Denom tp) in
                  if trAmount msg <=? balance then sdkTransfer msg w
                  else
                    let difference := trAmount msg - balance in
                    match ConvertERC20 w (mkMsgConvertERC20 (AddressHex (GetERC20Contract tp)) difference
                                            (AccString sender) (AddressHex (ethAddress sender))) with
                    | (Err e, w) => (Err e, w)
                    | (Ok _, w) => sdkTransfer msg w
                    end
          end
    end.
End convert.
