(* ===== verification/Erc20Registry.v ===== *)
(** * x/erc20: names, parameters and the registry of pairs

    What cleaning a token's name achieves, when the stored parameters can be read
    back, and that the three maps of the registry stay consistent. *)

From stdpp Require Import gmap strings list sorting.
From Stdlib Require Import ZArith Lia Ascii.
From S2P Require Import Prelude Bank EvmStateDB EvmKeeper EvmTransition Erc20Types Erc20Keeper.

Open Scope Z_scope.

(** ** Names *)
Fixpoint all_chars (p : ascii → bool) (s : string) : Prop :=
  match s with EmptyString => True | String c s => p c = true ∧ all_chars p s end.

Lemma filterString_all p s : all_chars p (filterString p s).
Proof. induction s as [|c s IH]; [done|]. simpl. destruct (p c) eqn:E; [by split|done]. Qed.

Lemma removeSpecialChars_all s : all_chars isNameChar (removeSpecialChars s).
Proof.
destruct s as [|c s]; [done|]. simpl. destruct (isLetter c) eqn:E; [|apply filterString_all].
split; [|apply filterString_all]. unfold isNameChar. by rewrite E.
Qed.

Lemma substring_all p s : ∀ n m, all_chars p s → all_chars p (String.substring n m s).
Proof.
induction s as [|c s IH]; intros n m Hs; [by destruct n, m|]. destruct Hs as [Hc Hs].
destruct n as [|n], m as [|m]; simpl; (done || by apply IH || by split; [|apply IH]).
Qed.

Lemma substring_short s : ∀ n m, (String.length (String.substring n m s) <= m)%nat.
Proof.
induction s as [|c s IH]; intros n m; [destruct n, m; simpl; lia|].
destruct n as [|n], m as [|m]; simpl; [lia|specialize (IH 0%nat m); lia|apply IH|apply IH].
Qed.

Lemma substring_no_longer s : ∀ n m, (String.length (String.substring n m s) <= String.length s)%nat.
Proof.
induction s as [|c s IH]; intros n m; [by destruct n, m|].
destruct n as [|n], m as [|m]; simpl; [lia|specialize (IH 0%nat m); lia|specialize (IH n 0%nat); lia|specialize (IH n (S m)); lia].
Qed.

Lemma prefix_length p s : String.prefix p s = true → (String.length p <= String.length s)%nat.
Proof.
revert s. induction p as [|c p IH]; intros [|c' s]; simpl; try (done || lia). destruct (ascii_dec c c'); [|done]. intros H%IH. lia.
Qed.

Lemma stripPrefixes_spec fuel : ∀ s, (String.length s <= fuel)%nat →
  let t := stripPrefixes fuel s in
  String.prefix "ibc/" t = false ∧ String.prefix "erc20/" t = false ∧
  (String.length t <= String.length s)%nat ∧ (all_chars isNameChar s → all_chars isNameChar t).
Proof.
induction fuel as [|fuel IH]; intros s Hs; cbv zeta.
{ destruct s; [done|simpl in Hs; lia]. }
cbn [stripPrefixes]. destruct (String.prefix "ibc/" s) eqn:E1; [|destruct (String.prefix "erc20/" s) eqn:E2; [|done]].
- pose proof (prefix_length _ _ E1) as Hp. cbn [String.length] in Hp.
  pose proof (substring_short s 4 (String.length s - 4)) as Hsub.
  destruct (IH (String.substring 4 (String.length s - 4) s)) as (I1 & I2 & I3 & I4); [lia|].
  split_and!; [done|done|lia|]. intros Hall. by apply I4, substring_all.
- pose proof (prefix_length _ _ E2) as Hp. cbn [String.length] in Hp.
  pose proof (substring_short s 6 (String.length s - 6)) as Hsub.
  destruct (IH (String.substring 6 (String.length s - 6) s)) as (I1 & I2 & I3 & I4); [lia|].
  split_and!; [done|done|lia|]. intros Hall. by apply I4, substring_all.
Qed.

(** A cleaned name has at most 128 bytes, all of them letters, digits, slashes or
    dashes, and cannot pass for a voucher or a wrapped token: it does not start with
    "ibc/" or "erc20/", whatever the contract calls itself. *)
Theorem sanitized_name name :
  let t := SanitizeERC20Name name in
  (String.length t <= 128)%nat ∧ all_chars isNameChar t ∧
  String.prefix "ibc/" t = false ∧ String.prefix "erc20/" t = false.
Proof.
cbv zeta. unfold SanitizeERC20Name, removeInvalidPrefixes. set (s := removeSpecialChars _).
set (s1 := if (128 <? String.length s)%nat then String.substring 0 128 s else s).
assert (H1 : (String.length s1 <= 128)%nat ∧ all_chars isNameChar s1).
{ unfold s1. destruct (128 <? String.length s)%nat eqn:E.
  - split; [apply substring_short|apply substring_all, removeSpecialChars_all].
  - apply Nat.ltb_ge in E. split; [done|apply removeSpecialChars_all]. }
destruct H1 as [H1 H2]. destruct (stripPrefixes_spec (String.length s1) s1 (le_n _)) as (I1 & I2 & I3 & I4).
split_and!; [lia|by apply I4|done|done].
Qed.

(** ** Parameters *)
Lemma substring_append_l a b : String.substring 0 (String.length a) (a +:+ b) = a.
Proof. induction a as [|c a IH]; simpl; [by destruct b|by rewrite IH]. Qed.
Lemma substring_all_of b : String.substring 0 (String.length b) b = b.
Proof. induction b as [|c b IH]; simpl; [done|by rewrite IH]. Qed.
Lemma substring_append_r a b : String.substring (String.length a) (String.length b) (a +:+ b) = b.
Proof. induction a as [|c a IH]; simpl; [apply substring_all_of|done]. Qed.

Lemma cut_join spare l : Forall (fun s => String.length s = addressLength) l → ∀ fuel,
  (String.length (joinAddresses l) <= fuel)%nat → cutAddresses fuel spare (joinAddresses l) = Ok l.
Proof.
induction 1 as [|a l Ha _ IH]; intros fuel Hf; [by destruct fuel|].
cbn [joinAddresses foldr] in *. change (foldr String.append ""%string l) with (joinAddresses l) in *.
change (String.append a (joinAddresses l)) with (a +:+ joinAddresses l)%string in *. rewrite append_length in Hf.
unfold addressLength in *. destruct fuel as [|fuel]; [lia|]. cbn [cutAddresses].
rewrite bool_decide_eq_false_2 by (intros E; apply (f_equal String.length) in E; rewrite append_length in E; simpl in E; lia).
rewrite (proj2 (Nat.ltb_ge _ _)) by (rewrite !append_length; unfold addressLength; lia).
unfold addressLength. rewrite append_length, Ha. replace (42 + String.length (joinAddresses l) - 42)%nat with (String.length (joinAddresses l)) by lia.
rewrite append_assoc. rewrite <- Ha, substring_append_r, substring_append_l, IH by lia. done.
Qed.

(** What is read of a value that is too short is at best longer than it. *)
Lemma cut_short spare bz : (0 < String.length bz < addressLength)%nat →
  cutAddresses (String.length bz) spare bz =
    if (String.length (bz +:+ spare) <? addressLength)%nat then Err (Plain "slice bounds out of range")
    else Ok [String.substring 0 addressLength (bz +:+ spare)].
Proof.
intros Hl. destruct (String.length bz) as [|n] eqn:E; [lia|]. cbn [cutAddresses].
rewrite bool_decide_eq_false_2 by (by intros ->). rewrite E. destruct (_ <? _)%nat; [done|].
replace (S n - addressLength)%nat with 0%nat by lia.
assert (Hs : ∀ m t, String.substring m 0 t = ""%string) by (induction m; destruct t; simpl; auto). rewrite Hs.
by destruct n.
Qed.

Lemma sortStrings_sorted l : StronglySorted string_le (sortStrings l).
Proof. apply (StronglySorted_merge_sort string_le). Qed.
Lemma sortStrings_perm l : sortStrings l ≡ₚ l.
Proof. apply merge_sort_Permutation. Qed.
Lemma sortStrings_idem l : sortStrings (sortStrings l) = sortStrings l.
Proof. apply (StronglySorted_unique string_le); [apply sortStrings_sorted..|apply sortStrings_perm]. Qed.

Section params.
Context `{EvmEnv} {B S A : Type} `{BankOps B} `{AuthKeeper A} `{EthAddresses} `{ReadBuffer}.
Variable evmDenom : denom.
Variable AccAddress : Address → addr.
Variable r : Restriction B S.
Variable Erc20Bytecode : string.
Abbreviation setParams := (SetParams evmDenom AccAddress r Erc20Bytecode).

Lemma SetParams_keys (w : Erc20World B S A) p w' :
  setParams w p = (Ok tt, w') →
  ∃ s, wStore w' = setParamKeys (mkParams (EnableErc20 p) (sortStrings (NativePrecompiles p)) (sortStrings (DynamicPrecompiles p))) s.
Proof.
unfold SetParams. destruct (Params_Validate _); [|done]. destruct (UpdateCodeHash _ _ _ _ _ _) as [[[]|] w1]; [|done].
intros [= <-]. by exists (wStore w1).
Qed.

(** Parameters that were set are read back, in order, as long as every precompile is
    written with its prefix.  The validation also accepts an address of 40 digits
    without one; once such an address is stored alone it is never read back: the read
    takes two bytes more, a panic unless the buffer behind the value happens to have
    them. *)
Theorem stored_params (w : Erc20World B S A) p w' :
  setParams w p = (Ok tt, w') →
  (Forall (fun a => String.length a = addressLength) (NativePrecompiles p ++ DynamicPrecompiles p) →
   GetParams (wStore w') =
     Ok (mkParams (EnableErc20 p) (sortStrings (NativePrecompiles p)) (sortStrings (DynamicPrecompiles p)))) ∧
  (∀ a, DynamicPrecompiles p = [a] → String.length a = 40%nat →
   ((String.length (spareBytes (joinAddresses [a])) < 2)%nat → GetParams (wStore w') = Err (Plain "slice bounds out of range")) ∧
   ∀ q, GetParams (wStore w') = Ok q → a ∉ DynamicPrecompiles q).
Proof.
intros (s & ->)%SetParams_keys. unfold GetParams, setParamKeys, getPrecompiles.
cbn [dynamicBytes nativeBytes erc20Enabled NativePrecompiles DynamicPrecompiles EnableErc20]. split.
- intros [Hn Hd]%Forall_app. rewrite <- (sortStrings_perm (NativePrecompiles p)) in Hn.
  rewrite <- (sortStrings_perm (DynamicPrecompiles p)) in Hd. rewrite !cut_join by done. cbn [mbind result_bind].
  unfold NewParams. by rewrite !sortStrings_idem.
- intros a -> Ha. assert (sortStrings [a] = [a]) as -> by done.
  assert (Hl : String.length (joinAddresses [a]) = 40%nat).
  { change (joinAddresses [a]) with (a +:+ "")%string. rewrite append_length, Ha. done. }
  rewrite (cut_short _ (joinAddresses [a])) by (rewrite Hl; unfold addressLength; lia). split.
  + intros Hs. by rewrite (proj2 (Nat.ltb_lt _ _)) by (rewrite append_length, Hl; unfold addressLength; lia).
  + intros q. destruct (_ <? _)%nat eqn:E; [done|]. apply Nat.ltb_ge in E. cbn [mbind result_bind].
    intros (l & _ & [= <-])%bind_Ok. unfold NewParams. cbn [DynamicPrecompiles]. rewrite sortStrings_perm. intros Hin.
    apply list_elem_of_singleton in Hin. apply (f_equal String.length) in Hin.
    rewrite substring_length, Ha in Hin by done. discriminate Hin.
Qed.
End params.

(** ** The registry *)
Section registry.
Context `{EthAddresses} `{!EthAddressesLaws _}.
Variable Sum : string → string.
Implicit Types (s : Erc20Store) (tp : TokenPair).

(** Pairs are stored under their identifier, and the two indices lead exactly to them. *)
Record pairs_wf s : Prop := {
  pw_id id tp : tokenPairs s !! id = Some tp → id = GetID Sum tp ∧ id ≠ ""%string;
  pw_erc20 a id : byERC20 s !! a = Some id → ∃ tp, tokenPairs s !! id = Some tp ∧ GetERC20Contract tp = a;
  pw_denom d id : byDenom s !! d = Some id → ∃ tp, tokenPairs s !! id = Some tp ∧ Denom tp = d;
  pw_indexed id tp : tokenPairs s !! id = Some tp → byERC20 s !! GetERC20Contract tp = Some id ∧ byDenom s !! Denom tp = Some id;
}.

(** Different pairs of the registry have different contracts and different coins. *)
Lemma pairs_distinct s id id' tp tp' : pairs_wf s → tokenPairs s !! id = Some tp → tokenPairs s !! id' = Some tp' →
  GetERC20Contract tp = GetERC20Contract tp' ∨ Denom tp = Denom tp' → tp = tp'.
Proof.
intros W E E' Heq. destruct (pw_indexed s W _ _ E) as [I1 I2]. destruct (pw_indexed s W _ _ E') as [J1 J2].
destruct Heq as [Heq|Heq]; [rewrite Heq, J1 in I1|rewrite Heq, J2 in I2]; naive_solver.
Qed.

Lemma SetToken_wf s tp : pairs_wf s → byERC20 s !! GetERC20Contract tp = None → byDenom s !! Denom tp = None →
  tokenPairs s !! GetID Sum tp = None → GetID Sum tp ≠ ""%string → pairs_wf (SetToken Sum tp s).
Proof.
intros [W1 W2 W3 W4] Ha Hd Hi Hne. split; unfold SetToken, SetERC20Map, SetDenomMap, SetTokenPair; simpl.
- intros id tp' [[<- <-]|[Hn E]]%lookup_insert_Some; [done|by apply W1].
- intros a id [[<- <-]|[Hn E]]%lookup_insert_Some; [exists tp; by rewrite lookup_insert_eq|].
  destruct (W2 a id E) as (tp' & E' & <-). exists tp'. split; [|done]. rewrite lookup_insert_ne; [done|congruence].
- intros d id [[<- <-]|[Hn E]]%lookup_insert_Some; [exists tp; by rewrite lookup_insert_eq|].
  destruct (W3 d id E) as (tp' & E' & <-). exists tp'. split; [|done]. rewrite lookup_insert_ne; [done|congruence].
- intros id tp' [[<- <-]|[Hn E]]%lookup_insert_Some; [by rewrite !lookup_insert_eq|]. destruct (W4 id tp' E) as [E1 E2].
  rewrite !lookup_insert_ne; [done|congruence..].
Qed.

Lemma SetTokenPair_wf s tp tp' id : pairs_wf s → tokenPairs s !! id = Some tp → Erc20Address tp' = Erc20Address tp →
  Denom tp' = Denom tp → pairs_wf (SetTokenPair Sum tp' s).
Proof.
intros [W1 W2 W3 W4] E Ea Ed. destruct (W1 id tp E) as [Hid Hne].
assert (Hg : GetID Sum tp' = id) by (unfold GetID in *; rewrite Ea, Ed; done).
assert (Hc : GetERC20Contract tp' = GetERC20Contract tp) by (unfold GetERC20Contract; by rewrite Ea).
split; unfold SetTokenPair; rewrite Hg; simpl.
- intros j t [[<- <-]|[Hn E']]%lookup_insert_Some; [by rewrite Hg|by apply W1].
- intros a j Hj. destruct (W2 a j Hj) as (t & Et & <-). destruct (decide (j = id)) as [->|Hn].
  + exists tp'. rewrite lookup_insert_eq. split; [done|]. naive_solver.
  + exists t. by rewrite lookup_insert_ne.
- intros d j Hj. destruct (W3 d j Hj) as (t & Et & <-). destruct (decide (j = id)) as [->|Hn].
  + exists tp'. rewrite lookup_insert_eq. split; [done|]. naive_solver.
  + exists t. by rewrite lookup_insert_ne.
- intros j t [[<- <-]|[Hn E']]%lookup_insert_Some; [rewrite Hc, Ed; by apply W4|by apply W4].
Qed.

Lemma DeleteTokenPair_wf s tp id : pairs_wf s → tokenPairs s !! id = Some tp → pairs_wf (DeleteTokenPair Sum tp s).
Proof.
intros W E. destruct (pw_id s W id tp E) as [-> _]. pose proof (pairs_distinct s) as Hdis.
destruct W as [W1 W2 W3 W4]. destruct (W4 _ _ E) as [Ea Ed].
split; unfold DeleteTokenPair, deleteDenomMap, deleteERC20Map, deleteTokenPair; simpl.
- intros j t [_ Ht]%lookup_delete_Some. by apply W1.
- intros a j [Hn Hj]%lookup_delete_Some. destruct (W2 a j Hj) as (t & Et & <-). exists t. split; [|done].
  rewrite lookup_delete_ne; [done|]. intros <-. naive_solver.
- intros d j [Hn Hj]%lookup_delete_Some. destruct (W3 d j Hj) as (t & Et & <-). exists t. split; [|done].
  rewrite lookup_delete_ne; [done|]. intros <-. naive_solver.
- intros j t [Hn Ht]%lookup_delete_Some. destruct (W4 j t Ht) as [E1 E2].
  rewrite !lookup_delete_ne; [done|intros Eq; rewrite Eq in Ed; naive_solver|intros Eq; rewrite Eq in Ea; naive_solver].
Qed.

Lemma findPair_Ok s token tp : findPair s token = Ok tp → ∃ id, tokenPairs s !! id = Some tp.
Proof.
unfold findPair, GetTokenPair. destruct (bool_decide _) eqn:E; [done|]. cbn [negb]. 
destruct (tokenPairs s !! _) eqn:E'; [|done]. intros [= <-]. by eexists.
Qed.

(** In a consistent registry a registered pair is found under its contract, however the
    address is written, and under its coin. *)
Lemma findPair_registered s id tp token : pairs_wf s → tokenPairs s !! id = Some tp →
  (if IsHexAddress token then HexToAddress token = GetERC20Contract tp else token = Denom tp) → findPair s token = Ok tp.
Proof.
intros W E Ht. destruct (pw_indexed s W _ _ E) as [Ea Ed]. destruct (pw_id s W _ _ E) as [_ Hne].
unfold findPair, GetTokenPair, GetTokenPairID. destruct (IsHexAddress token); subst; [rewrite Ht, Ea|rewrite Ed]; simpl;
  rewrite bool_decide_eq_false_2 by done; cbn [negb]; by rewrite E.
Qed.
End registry.
