(* ===== verification/Erc20Example.v ===== *)
(** * x/erc20: a concrete chain, and ATOX under another name

    Hexadecimal addresses, an ABI and a token contract whose books are kept beside the
    accounts, on which the theorems of the module are evaluated.  The rule that keeps
    ATOX from leaving over IBC compares names before this module resolves them: the
    last theorem composes the two. *)

From stdpp Require Import gmap strings list sorting relations.
From Stdlib Require Import ZArith Lia Ascii.
From S2P Require Import CosmosAnte Prelude Sha256 Bank EvmStateDB EvmKeeper EvmVM EvmTransition Erc20Types Erc20Keeper Erc20Convert Erc20Registry Erc20Safety.

Open Scope Z_scope.

(** ** ATOX under another name *)
Section alias.
Context `{EvmEnv} {B S A : Type} {bankOps : BankOps B} `{AuthKeeper A} `{EthAddresses} `{!EthAddressesLaws _} `{ReadBuffer} `{Erc20Abi}.
Context {caller : EvmCaller (Erc20World B S A)}.
Variable AccAddress : Address → addr.
Variable r : Restriction B S.
Variable Sum : string → string.
Variable ModuleAddr : Address.
Variable AccAddressFromBech32 : string → option addr.
Variable IsSendEnabledCoin : B → denom → bool.
Variable ethAddress : addr → Address.
Variable AccString : addr → string.
Variable sdkTransfer : MsgTransferToken → Erc20World B S A → result unit * Erc20World B S A.

Lemma trim_alias d : trimErc20 ("erc20/" +:+ d) = d.
Proof.
unfold trimErc20. assert (String.prefix "erc20/" ("erc20/" +:+ d) = true) as -> by (by destruct d).
rewrite append_length. pose proof (substring_append_r "erc20/" d) as E. simpl in *. by rewrite Nat.sub_0_r.
Qed.

End alias.

Module Erc20Example.

(** ** Addresses in hexadecimal *)
Definition unprefixed (s : string) : string :=
  if String.prefix "0x" s || String.prefix "0X" s then String.substring 2 (String.length s - 2) s else s.
Definition pad20 (b : string) : string :=
  let n := String.length b in
  if (20 <? n)%nat then String.substring (n - 20) 20 b else (zeros (20 - n) +:+ b)%string.

#[export] Instance hexAddresses : EthAddresses := {
  IsHexAddress s := (String.length (unprefixed s) =? 40)%nat && bool_decide (is_Some (DecodeString (unprefixed s)));
  HexToAddress s := pad20 (default ""%string (DecodeString (unprefixed s)));
  AddressHex a := ("0x" +:+ encodeHex a)%string;
}.

Lemma unprefixed_hex a : unprefixed ("0x" +:+ encodeHex a) = encodeHex a.
Proof.
unfold unprefixed. assert (String.prefix "0x" ("0x" +:+ encodeHex a) = true) as -> by (by destruct (encodeHex a)). cbn [orb].
rewrite append_length. pose proof (substring_append_r "0x" (encodeHex a)) as E. simpl in *. by rewrite Nat.sub_0_r.
Qed.

#[export] Instance hexLaws : EthAddressesLaws hexAddresses.
Proof.
split; cbn [IsHexAddress HexToAddress AddressHex hexAddresses].
- intros a Ha. rewrite unprefixed_hex, encodeHex_length, Ha, DecodeString_encodeHex. by rewrite bool_decide_eq_true_2.
- intros a Ha. rewrite unprefixed_hex, DecodeString_encodeHex. change (pad20 a = a). unfold pad20. unfold is_address in Ha. rewrite Ha. done.
- intros s. unfold is_address, pad20. set (b := default _ _). destruct (20 <? String.length b)%nat eqn:E.
  + apply Nat.ltb_lt in E. apply substring_length. lia.
  + apply Nat.ltb_ge in E. rewrite append_length, zeros_length. lia.
- intros a Ha. rewrite append_length, encodeHex_length, Ha. done.
- intros s [Hs%Nat.eqb_eq _]%andb_prop. unfold unprefixed in Hs. destruct (_ || _); [|lia].
  destruct (le_lt_dec (String.length s) 42) as [|Hl]; [done|].
  rewrite substring_length in Hs by lia. lia.
Qed.

#[export] Instance noSpareBytes : ReadBuffer := fun _ => ""%string.

(** ** Accounts, and beside them the books of the token contracts *)
Definition auth : Type := gmap string Z * gmap (string * string) N.
#[export] Instance authKeeper : AuthKeeper auth := {
  AuthAccount := string * Z;
  GetAddress := fst;
  GetSequence := snd;
  SetSequence n ac := Ok (ac.1, n);
  AuthGetAccount m a := (fun n => (a, n)) <$> m.1 !! a;
  NewAccountWithAddress m a := ((a, 0), m);
  AuthSetAccount m ac := (<[ac.1 := ac.2]> m.1, m.2);
  AuthRemoveAccount m ac := (delete ac.1 m.1, m.2);
}.

#[export] Instance env : EvmEnv := {| Keccak256 s := BytesToHash (sha256 s); EVMCoinDecimals := 18 |}.
Abbreviation world := (Erc20World ledger unit auth).

Definition books (w : world) (c a : Address) : Z := Z.of_N (default 0%N ((cAuth (wCtx w)).2 !! (c, a))).
Definition setBooks (m : gmap (string * string) N) (w : world) : world :=
  with_ctx (with_auth ((cAuth (wCtx w)).1, m) (wCtx w)) w.
Definition move (w : world) (c from to : Address) (x : Z) : world :=
  let m := (cAuth (wCtx w)).2 in
  let m := <[(c, from) := Z.to_N (books w c from - x)]> m in
  setBooks (<[(c, to) := Z.to_N (Z.of_N (default 0%N (m !! (c, to))) + x)]> m) w.

Lemma books_move w c from to x a : 0 <= x <= books w c from →
  books (move w c from to x) c a = books w c a - at_addr from a x + at_addr to a x.
Proof.
intros Hx. unfold move, books, setBooks, at_addr in *. cbn.
destruct (decide (a = to)) as [->|Ht].
- rewrite lookup_insert_eq. cbn. destruct (decide (to = from)) as [->|Hf].
  + rewrite lookup_insert_eq. cbn. lia.
  + rewrite lookup_insert_ne by congruence. lia.
- rewrite lookup_insert_ne by congruence. destruct (decide (a = from)) as [->|Hf].
  + rewrite lookup_insert_eq. cbn. lia.
  + rewrite lookup_insert_ne by congruence. lia.
Qed.

(** ** An ABI in unary, and a contract *)
Definition ones (n : nat) : string := Nat.iter n (String "1"%char) ""%string.
Lemma ones_length n : String.length (ones n) = n.
Proof. induction n; simpl; auto. Qed.

#[export] Instance unaryAbi : Erc20Abi := {
  PackTransfer to x := if (String.length to =? 20)%nat && (0 <=? x) then Ok (String "t" (to +:+ ones (Z.to_nat x)))%string else Err (Plain "abi");
  PackBalanceOf a := Ok (String "b" a);
  PackName := Ok "n"%string;
  PackSymbol := Ok "s"%string;
  PackDecimals := Ok "d"%string;
  UnpackBool s := Ok (bool_decide (s = "1"%string));
  UnpackUint s := Some (Z.of_nat (String.length s));
  UnpackString s := Ok s;
  UnpackUint8 s := Ok (Z.of_nat (String.length s));
}.

Definition answer (ret : string) : result MsgEthereumTxResponse := Ok (mkResponse 0 None ret []).

Definition token (c from : Address) (data : string) (w : world) : result MsgEthereumTxResponse * world :=
  match data with
  | String "b"%char a => (answer (ones (Z.to_nat (books w c a))), w)
  | String "t"%char rest =>
      let to := String.substring 0 20 rest in
      let x := Z.of_nat (String.length rest - 20) in
      if x <=? books w c from then (answer "1", move w c from to x) else (answer "0", w)
  | String "n"%char _ => (answer "ibc/Tok-en!", w)
  | String "s"%char _ => (answer "TOK", w)
  | String "d"%char _ => (answer (ones 6), w)
  | _ => (Err (Plain "no such method"), w)
  end.

#[export] Instance evmCaller : EvmCaller world := {
  EstimateGasInternal w from to data := Ok 100000;
  ApplyMessage msg commit w :=
    match msgTo msg with
    | None => (Err (Plain "no code"), w)
    | Some c => let '(res, w') := token c (msgFrom msg) (msgData msg) w in (res, if commit then w' else w)
    end;
}.

#[export] Instance evmCallerLaws : EvmCallerLaws evmCaller.
Proof. intros msg w. cbn. destruct (msgTo msg); [|done]. by destruct (token _ _ _ _). Qed.

Definition acc (a : Address) : addr := a.
Definition moduleAddr : Address := pad20 "module".

Lemma token_honest c : honest_token (caller := evmCaller) acc moduleAddr c (fun w a => books w c a).
Proof.
split.
- intros w a x. unfold BalanceOf, CallEVM, CallEVMWithData. cbn. destruct (_ <$> _); [|done]. cbn. intros [= <-].
  rewrite ones_length. unfold books. lia.
- intros w from to x res w'. unfold callTransfer, CallEVM, CallEVMWithData. cbn [PackTransfer unaryAbi].
  destruct (_ && _) eqn:Eb; [|done]. apply andb_prop in Eb as [Hl%Nat.eqb_eq Hx%Z.leb_le].
  destruct (AuthGetAccount _ _); [|done]. cbn [EstimateGasInternal ApplyMessage evmCaller msgTo msgFrom msgData token].
  rewrite append_length, ones_length, Hl. rewrite <- Hl, substring_append_l, Hl.
  replace (Z.of_nat (20 + Z.to_nat x - 20)) with x by lia.
  destruct (x <=? books w c from) eqn:Ex; cbn; [|done]. apply Z.leb_le in Ex. intros [= <- <-].
  split_and!; [done|done|]. intros a'. by apply books_move.
- done.
- done.
Qed.

(** ** The chain: a token of which alice has 50 *)
Definition anyone : Restriction ledger unit := fun w _ to _ => (Ok to, w).
Lemma anyone_passes_denom d : passes_denom anyone d.
Proof. intros x from to amount y x' [= <- <-]. done. Qed.

Definition contract : Address := pad20 "token".
Definition alice : Address := pad20 "alice".
Definition bech32 (s : string) : option addr := if decide (s = ""%string) then None else Some s.
Definition sendEnabled (b : ledger) (d : denom) : bool := true.

Definition evm0 : EvmCtx ledger unit auth :=
  mkEvmCtx (mkLedger ∅ ∅) tt ({[alice := 0; moduleAddr := 0; contract := 1]}, {[(contract, alice) := 50%N]})
    (mkEvmKV {[contract := Bytes (Keccak256 "code")]} {[Keccak256 "code" := "code"%string]} ∅).
Definition store0 : Erc20Store := mkErc20Store ∅ ∅ ∅ true "" "".
Definition w0 : world := mkErc20World evm0 store0 ∅.

Abbreviation register := (registerERC20 acc sha256 moduleAddr (fun _ => Ok tt)).
Definition w1 : world := (register w0 contract).2.
Definition coin : denom := CreateDenom (AddressHex contract).
Definition tp1 : TokenPair := NewTokenPair contract coin OWNER_EXTERNAL.

Abbreviation convert := (ConvertERC20 acc anyone sha256 moduleAddr bech32 sendEnabled).
Abbreviation convertBack := (ConvertCoinNativeERC20 acc anyone moduleAddr).
Definition msg1 : MsgConvertERC20 := mkMsgConvertERC20 (AddressHex contract) 30 alice (AddressHex alice).
Definition w2 : world := (convert w1 msg1).2.
Definition w3 : world := (convertBack w2 tp1 10 alice alice).2.

Lemma ended_ok {A} (p : result A * world) a : p.1 = Ok a → p = (Ok a, p.2).
Proof. destruct p. cbn. by intros ->. Qed.

Lemma ok1 : (register w0 contract).1 = Ok tp1.
Proof. vm_compute. reflexivity. Qed.
Lemma run1 : register w0 contract = (Ok tp1, w1).
Proof. unfold w1. generalize ok1. generalize (register w0 contract). exact (fun p => ended_ok p tp1). Qed.
Lemma ok2 : (convert w1 msg1).1 = Ok tt.
Proof. vm_compute. reflexivity. Qed.
Lemma run2 : convert w1 msg1 = (Ok tt, w2).
Proof. unfold w2. generalize ok2. generalize (convert w1 msg1). exact (fun p => ended_ok p tt). Qed.
Lemma ok3 : (convertBack w2 tp1 10 alice alice).1 = Ok tt.
Proof. vm_compute. reflexivity. Qed.
Lemma run3 : convertBack w2 tp1 10 alice alice = (Ok tt, w3).
Proof. unfold w3. generalize ok3. generalize (convertBack w2 tp1 10 alice alice). exact (fun p => ended_ok p tt). Qed.
Lemma found1 : findPair (wStore w1) (mcContractAddress msg1) = Ok tp1.
Proof. vm_compute. reflexivity. Qed.

Lemma empty_wf : pairs_wf sha256 store0.
Proof. split; cbn [store0 tokenPairs byERC20 byDenom]; intros ? ?; by rewrite lookup_empty. Qed.

Lemma sha256_nonempty s : sha256 s ≠ ""%string.
Proof. intros E. pose proof (sha256_length s) as Hl. by rewrite E in Hl. Qed.

(** ** Witnesses *)
Lemma register_effect_witness : register w0 contract = (Ok tp1, w1) ∧ pairs_wf sha256 (wStore w1) ∧ findPair (wStore w1) coin = Ok tp1.
Proof.
split; [exact run1|].
destruct (register_effect acc sha256 moduleAddr (fun _ => Ok tt) w0 contract tp1 w1) as (H1 & _ & _ & _ & _ & _ & H2 & _).
- exact empty_wf.
- vm_compute. reflexivity.
- cbn [wStore w0 store0 tokenPairs]. rewrite dom_empty. apply not_elem_of_empty.
- exact sha256_nonempty.
- exact run1.
- split; [exact H1|exact H2].
Defined.

Lemma conversion_effect_witness : convert w1 msg1 = (Ok tt, w2) ∧
  ∃ receiver tp, findPair (wStore w1) (mcContractAddress msg1) = Ok tp ∧ bech32 (mcReceiver msg1) = Some receiver.
Proof.
split; [exact run2|].
destruct (conversion_effect acc anyone sha256 moduleAddr bech32 sendEnabled w1 msg1 w2) as (rc & tp & H1 & H2 & _).
- vm_compute. reflexivity.
- intros tp _. apply anyone_passes_denom.
- exact run2.
- exists rc, tp. split; [exact H2|exact H1].
Defined.

Lemma coin_conversion_effect_witness : convertBack w2 tp1 10 alice alice = (Ok tt, w3) ∧
  books w3 contract alice = 30 ∧ books w3 contract moduleAddr = 20 ∧ Bank.GetBalance (cBank (wCtx w3)) alice coin = 20.
Proof.
split; [exact run3|].
assert (E1 : books w2 contract alice = 20) by (vm_compute; reflexivity).
assert (E2 : books w2 contract moduleAddr = 30) by (vm_compute; reflexivity).
assert (E3 : Bank.GetBalance (cBank (wCtx w2)) alice coin = 30) by (vm_compute; reflexivity).
assert (Ec : GetERC20Contract tp1 = contract) by (vm_compute; reflexivity).
pose proof (coin_conversion_effect acc anyone moduleAddr (fun w a => books w contract a) w2 tp1 10 alice alice w3) as H.
rewrite Ec in H. specialize (H (token_honest contract) (anyone_passes_denom _) run3). rewrite decide_True in H by lia.
destruct H as (_ & _ & _ & Hb & Hk). rewrite !Hk, Hb, E1, E2, E3. split_and!; vm_compute; reflexivity.
Defined.


Definition toIbc (m : MsgTransferToken) (w : world) : result unit * world := (Ok tt, w).
Lemma toIbc_same m w w' : toIbc m w = (Ok tt, w') → w = w'.
Proof. unfold toIbc. congruence. Qed.
Abbreviation transferOverIbc := (Transfer acc anyone sha256 moduleAddr (fun a => a) bech32 (fun a => a) sendEnabled toIbc).
Definition send30 : MsgTransferToken := mkTransferToken alice coin 30.
Definition w4 : world := (transferOverIbc w1 send30).2.
Lemma ok4 : (transferOverIbc w1 send30).1 = Ok tt.
Proof. vm_compute. reflexivity. Qed.
Lemma run4 : transferOverIbc w1 send30 = (Ok tt, w4).
Proof. unfold w4. generalize ok4. generalize (transferOverIbc w1 send30). exact (fun p => ended_ok p tt). Qed.

Lemma registered1 : pairs_wf sha256 (wStore w1).
Proof.
destruct (registerERC20_spec acc sha256 moduleAddr (fun _ => Ok tt) w0 contract tp1 w1 run1) as (E1 & E2 & _ & E3 & _).
rewrite E3. apply SetToken_wf; [exact empty_wf|..|apply sha256_nonempty]; vm_compute; reflexivity.
Qed.

Lemma transfer_converts_difference_witness :
  transferOverIbc w1 send30 = (Ok tt, w4) ∧ Bank.GetBalance (cBank (wCtx w1)) alice coin = 0 ∧
  ∃ w, toIbc send30 w = (Ok tt, w4) ∧ Bank.GetBalance (cBank (wCtx w)) alice coin = 30.
Proof.
assert (E : transferOverIbc w1 send30 = (Ok tt, w4)) by exact run4.
assert (Ef : findPair (wStore w1) (trimErc20 coin) = Ok tp1) by (vm_compute; reflexivity).
assert (Eb : Bank.GetBalance (cBank (wCtx w1)) alice coin = 0) by (vm_compute; reflexivity).
assert (Ek : tokenPairs (wStore w4) ≠ ∅) by (intros Hk; apply (f_equal size) in Hk; vm_compute in Hk; discriminate).
assert (Ed : tokenPairs (DeleteTokenPair sha256 tp1 (wStore w1)) = ∅) by (vm_compute; reflexivity).
split; [exact E|]. split; [exact Eb|].
destruct (transfer_converts_difference acc anyone sha256 moduleAddr bech32 sendEnabled (fun a => a) (fun a => a) toIbc w1 send30 tp1 alice w4)
  as (w & H1 & [H2|H2]); [exact registered1|exact Ef|reflexivity|reflexivity|reflexivity|apply anyone_passes_denom|reflexivity|reflexivity|cbn [tp1 Denom NewTokenPair]; rewrite Eb; reflexivity|exact E|..].
- exfalso. apply toIbc_same in H1. subst w. apply Ek. rewrite H2. exact Ed.
- exists w. split; [exact H1|exact H2].
Defined.

(** ATOX with a pair of its own. *)
Definition atoxPair : TokenPair := mkTokenPair (AddressHex contract) "aatox" true OWNER_MODULE.
Definition w5 : world := with_store (SetToken sha256 atoxPair store0) w0.


(** ** Parameters *)
Abbreviation setParams := (SetParams "liao" acc anyone "bytecode").
Definition bare : string := "00000000000000000000000000000000000000ab".
Definition bareParams : Params := mkParams true [] [bare].
Definition w6 : world := (setParams w0 bareParams).2.
Lemma ok6 : (setParams w0 bareParams).1 = Ok tt.
Proof. vm_compute. reflexivity. Qed.
Lemma run6 : setParams w0 bareParams = (Ok tt, w6).
Proof. unfold w6. generalize ok6. generalize (setParams w0 bareParams). exact (fun p => ended_ok p tt). Qed.

Lemma stored_params_witness :
  Params_Validate bareParams = Ok tt ∧ setParams w0 bareParams = (Ok tt, w6) ∧
  GetParams (wStore w6) = Err (Plain "slice bounds out of range").
Proof.
assert (E : setParams w0 bareParams = (Ok tt, w6)) by exact run6.
split; [vm_compute; reflexivity|]. split; [exact E|].
apply (proj2 (stored_params "liao" acc anyone "bytecode" w0 bareParams w6 E) bare); [reflexivity..|]. apply Nat.lt_0_succ.
Defined.

(** ** Genesis *)
Definition lower : string := "0x00000000000000000000000000000000000000ab".
Definition upper : string := "0x00000000000000000000000000000000000000AB".
Definition twice : GenesisState :=
  mkGenesis (mkParams true [] []) [mkTokenPair lower "one" true OWNER_MODULE; mkTokenPair upper "two" true OWNER_MODULE].
Definition w7 : world := (InitGenesis "liao" acc anyone sha256 "bytecode" w0 twice).2.

(** The validation of the genesis state compares addresses as they are written, so the
    same contract in two spellings is accepted twice; the registry then has two pairs for
    it, of which only the last is found by address. *)
Theorem genesis_spellings :
  GenesisState_Validate (fun _ => Ok tt) twice = Ok tt ∧ (InitGenesis "liao" acc anyone sha256 "bytecode" w0 twice).1 = Ok tt ∧
  findPair (wStore w7) "one" = Ok (mkTokenPair lower "one" true OWNER_MODULE) ∧
  findPair (wStore w7) lower = Ok (mkTokenPair upper "two" true OWNER_MODULE) ∧ ¬ pairs_wf sha256 (wStore w7).
Proof.
assert (E1 : findPair (wStore w7) "one" = Ok (mkTokenPair lower "one" true OWNER_MODULE)) by (vm_compute; reflexivity).
assert (E2 : findPair (wStore w7) lower = Ok (mkTokenPair upper "two" true OWNER_MODULE)) by (vm_compute; reflexivity).
assert (E3 : HexToAddress lower = HexToAddress upper) by (vm_compute; reflexivity).
split; [vm_compute; reflexivity|]. split; [vm_compute; reflexivity|]. split; [exact E1|]. split; [exact E2|]. intros W.
apply findPair_Ok in E1 as [i1 E1]. apply findPair_Ok in E2 as [i2 E2].
pose proof (pairs_distinct sha256 _ _ _ _ _ W E1 E2 (or_introl E3)) as H. discriminate H.
Qed.
End Erc20Example.
