(* ===== verification/PrecompileRun.v ===== *)
(** * Precompiled contracts: one call

    Models what precompiles/common/precompile.go does around a method: reading the
    call data, running the method on the cache context and booking the call.  [Run] of
    the single precompiles differs in the method alone.  The ABI (methods by their
    identifier, encodings of arguments, results and events) and the gas that store
    accesses cost are parameters.  The gas is compared once the method has run; the
    meter of the code may also stop inside it, after a part of its writes. *)

From stdpp Require Import gmap strings list.
From Stdlib Require Import ZArith Lia.
From S2P Require Import Prelude EvmStateDB EvmJournal EvmVM.

Open Scope Z_scope.

(** ** The ABI *)
Inductive AbiValue :=
  | AbiAddress (a : Address) | AbiUint (x : Z) | AbiBool (b : bool) | AbiString (s : string)
  | AbiBytes32 (b : list Byte.byte)
  | AbiUint64 (x : Z)
  | AbiCoins (cs : list (string * Z))
  | AbiPeriods (ps : list (Z * list (string * Z))).   (** lengths and coins of vesting periods *)

Inductive CalledMethod := Receive | Fallback | Function (name : string).
Definition methodName (m : CalledMethod) : string := match m with Function n => n | _ => ""%string end.

Record Abi := mkAbi {
  MethodById : string → result string;
  UnpackInputs : string → string → result (list AbiValue);
  PackOutputs : string → list AbiValue → result string;
  PackLog : string → list AbiValue → result (list Hash * string);   (** topics and data of an event *)
  HasReceive : bool;
  HasFallback : bool;
}.

Definition execReverted : error := Plain "execution reverted".
Definition outOfGas : error := Plain "out of gas".
Definition writeProtection : error := Plain "write protection".
Definition toVMError (e : error) : VMError :=
  if decide (e = execReverted) then ErrExecutionReverted
  else if decide (e = outOfGas) then ErrOutOfGas
  else ErrOther e.

(** A call without a value (DELEGATECALL) has a nil one, which [Sign] dereferences. *)
Definition emptyCallData (abi : Abi) (value : option Z) : result CalledMethod :=
  match value with
  | None => Err (Plain "nil pointer dereference")
  | Some v =>
      if (0 <? v) && HasReceive abi then Ok Receive
      else if HasFallback abi then Ok Fallback
      else Err execReverted
  end.

Definition methodIDCallData (abi : Abi) : result CalledMethod :=
  guard! HasFallback abi else execReverted;
  Ok Fallback.

Definition standardCallData (abi : Abi) (input : string) : result CalledMethod :=
  match MethodById abi (String.substring 0 4 input) with
  | Ok name => Ok (Function name)
  | Err e => if HasFallback abi then Ok Fallback else Err e
  end.

Definition calledMethod (abi : Abi) (value : option Z) (input : string) : result CalledMethod :=
  let n := String.length input in
  if (n =? 0)%nat then emptyCallData abi value
  else if (n <? 4)%nat then methodIDCallData abi
  else standardCallData abi input.

(** The rest of [RunSetup]: the method of the call and its arguments. *)
Definition decodeCall (abi : Abi) (isTransaction : string → bool) (value : option Z) (readOnly : bool) (input : string)
    : result (CalledMethod * list AbiValue) :=
  method ← calledMethod abi value input;
  guard! negb (readOnly && isTransaction (methodName method)) else writeProtection;
  match method with
  | Function name =>
      args ← UnpackInputs abi name (String.substring 4 (String.length input - 4) input); Ok (method, args)
  | _ => Ok (method, [])
  end.

(** ** The run *)
Section run.
Context `{EvmEnv} {C : Type} `{K : StateKeeper C}.
Implicit Types (s : StateDB C).

(** The gas the meter of the context counts between two states. *)
Variable storeGas : StateDB C → StateDB C → Z.

Record Stateful := mkStateful {
  pAddress : Address;
  pAbi : Abi;
  pIsTransaction : string → bool;
  (** the method, with the balance changes it reports for the journal *)
  pHandle : Contract → CalledMethod → list AbiValue → StateDB C → result (string * list balanceChangeEntry) * StateDB C;
}.

(** [AddLog] of an event of the contract. *)
Definition emitEvent (p : Address) (abi : Abi) (name : string) (values : list AbiValue) s : result unit * StateDB C :=
  match PackLog abi name values with
  | Err e => (Err e, s)
  | Ok (topics, data) => (Ok tt, AddLog (mkLog p topics data zeroHash zeroHash 0 0) s)
  end.

(** The output and the gas left. *)
Definition runStateful (p : Stateful) (ct : Contract) (input : string) (readOnly : bool) s
    : result (string * Z) * StateDB C :=
  match RunSetup s with
  | (Err e, s) => (Err e, s)
  | (Ok snapshot, s) =>
      match decodeCall (pAbi p) (pIsTransaction p) (ctValue ct) readOnly input with
      | Err e => (Err e, s)
      | Ok (method, args) =>
          match pHandle p ct method args s with
          | (Err e, s') => (Err e, s')
          | (Ok (bz, es), s') =>
              let cost := storeGas s s' in
              if ctGas ct <? cost then (Err outOfGas, s')
              else
                match AddJournalEntries (pAddress p) es snapshot s' with
                | (Err e, s) => (Err e, s)
                | (Ok _, s) => (Ok (bz, ctGas ct - cost), s)
                end
          end
      end
  end.

(** As the machine calls it. *)
Definition asPrecompile (p : Stateful) (ct : Contract) (input : string) (readOnly : bool) (e : EVM C) : outcome * EVM C :=
  match runStateful p ct input readOnly (evmDB e) with
  | (Ok (bz, gas), s) => ((bz, gas, None), withDB s e)
  | (Err x, s) => ((""%string, ctGas ct, Some (toVMError x)), withDB s e)
  end.
End run.
Arguments mkStateful {C}.
Arguments pAddress {C}.
Arguments pAbi {C}.
Arguments pIsTransaction {C}.
Arguments pHandle {C}.

(** A part of what the context holds. *)
Class Part (C X : Type) := { view : C → X; update : X → C → C }.
Class PartLaws {C X} (P : Part C X) : Prop := {
  view_update x c : view (update x c) = x;
  update_view c : update (view c) c = c;
}.

Definition updateCtx {C X} `{Part C X} (x : X) (s : StateDB C) : StateDB C :=
  set_cache (Some (update x (storeCtx s))) s.

(** ** A call that comes straight from the signer

    As long as no account has been changed in the transaction, nothing of the state
    database is written over what the method does. *)
Section direct.
Context `{EvmEnv} {C : Type} `{K : StateKeeper C}.
Implicit Types (s t : StateDB C) (a : Address).

(** Same contexts, no new dirty accounts, and no account forgotten. *)
Record quiet s t : Prop := {
  q_ctx : ctx t = ctx s;
  q_cache : cacheCtx t = cacheCtx s;
  q_dirties : dirties t = dirties s;
  q_objects a : is_Some (stateObjects s !! a) → is_Some (stateObjects t !! a);
}.

#[export] Instance quiet_preorder : PreOrder quiet.
Proof.
split; [by split|]. intros s t u [A1 A2 A3 A4] [B1 B2 B3 B4]. split; [congruence..|]. intros a Ha. by apply B4, A4.
Qed.

Definition known a s : Prop := is_Some (stateObjects s !! a) ∨ is_Some (GetAccount (ctx s) a).

Lemma quiet_known a s t : quiet s t → known a s → known a t.
Proof. intros [Q1 _ _ Q4] [Hk|Hk]; [left; by apply Q4|right; by rewrite Q1]. Qed.

Lemma quiet_append e s : Dirtied e = None → quiet s (append e s).
Proof. intros He. unfold append. rewrite He. by split. Qed.

Lemma getStateObject_quiet a s : known a s → ∃ o, (getStateObject a s).1 = Some o ∧ quiet s (getStateObject a s).2.
Proof.
unfold known, getStateObject. destruct (stateObjects s !! a) as [o|] eqn:Eo; [by exists o|].
intros [[? ?]|[ac Hac]]; [done|]. rewrite Hac. eexists. split; [reflexivity|]. split; try done.
intros b Hb. cbn. destruct (decide (b = a)) as [->|Hne]; [rewrite Eo in Hb; by destruct Hb|].
by rewrite lookup_insert_ne by (intros E; by apply Hne).
Qed.

Lemma getOrNew_quiet a s : known a s → quiet s (getOrNewStateObject a s).2.
Proof.
intros Hk. destruct (getStateObject_quiet a s Hk) as (o & E1 & E2). unfold getOrNewStateObject.
destruct (getStateObject a s) as [x t]. simpl in *. by subst x.
Qed.

Lemma adjust_zero : AdjustExtraDecimalsBigInt 0 = 0.
Proof. unfold AdjustExtraDecimalsBigInt. by rewrite ?Z.quot_0_l, ?Zdiv_0_l by (unfold ConversionFactor; destruct (_ =? _); lia). Qed.

Lemma Transfer_quiet (e : EVM C) a b : known a (evmDB e) → known b (evmDB e) → quiet (evmDB e) (evmDB (Transfer e a b 0)).
Proof.
intros Ha Hb. unfold Transfer. cbn [evmDB withDB].
assert (Q1 : quiet (evmDB e) (SubBalance a 0 (evmDB e))).
{ unfold SubBalance. pose proof (getOrNew_quiet a _ Ha) as Q. destruct (getOrNewStateObject a _) as [o s].
  unfold objSubBalance. rewrite adjust_zero. exact Q. }
etransitivity; [exact Q1|]. unfold AddBalance. pose proof (getOrNew_quiet b _ (quiet_known _ _ _ Q1 Hb)) as Q.
destruct (getOrNewStateObject b _) as [o s]. unfold objAddBalance. rewrite adjust_zero. exact Q.
Qed.

Lemma RunSetup_fresh s : cacheCtx s = None → dirties s = ∅ → RunSetup s = (Ok (ctx s), set_cache (Some (ctx s)) s).
Proof.
intros Hc Hd. unfold RunSetup, GetCacheContext, MultiStoreSnapshot. rewrite Hc. cbn.
unfold CommitWithCacheCtx, commitWithCtx, sortedDirties. cbn. by rewrite Hd.
Qed.

Lemma AddPrecompileFn_quiet a c s t : known a s → AddPrecompileFn a c s = (Ok tt, t) → quiet s t.
Proof.
intros Hk. unfold AddPrecompileFn. pose proof (getOrNew_quiet a s Hk) as Q.
destruct (getOrNewStateObject a s) as [o s1]. destruct (_ <? _); [done|]. intros [= <-].
etransitivity; [exact Q|]. by split.
Qed.

Lemma Commit_quiet s : dirties s = ∅ → Commit s = (Ok tt, set_ctx (storeCtx s) s).
Proof. intros Hd. unfold Commit, commitWithCtx, sortedDirties, storeCtx. by rewrite Hd. Qed.

(** A method that reports no balance changes and dirties no account. *)
Definition silent (p : Stateful (C := C)) : Prop := ∀ ct m args s bz es s',
  pHandle p ct m args s = (Ok (bz, es), s') → es = [] ∧ ctx s' = ctx s ∧ dirties s' = dirties s ∧ stateObjects s' = stateObjects s.

Variable storeGas : StateDB C → StateDB C → Z.

Lemma runStateful_silent p ct input readOnly s r s' :
  silent p → cacheCtx s = None → dirties s = ∅ → known (pAddress p) s →
  runStateful storeGas p ct input readOnly s = (Ok r, s') →
  ∃ m args s1, decodeCall (pAbi p) (pIsTransaction p) (ctValue ct) readOnly input = Ok (m, args) ∧
    pHandle p ct m args (set_cache (Some (ctx s)) s) = (Ok (r.1, []), s1) ∧ storeCtx s' = storeCtx s1 ∧ ctx s' = ctx s ∧ dirties s' = ∅.
Proof.
intros Hs Hc Hd Hk. unfold runStateful. rewrite (RunSetup_fresh _ Hc Hd).
destruct (decodeCall _ _ _ _ _) as [[m args]|]; [|done]. destruct (pHandle _ _ _ _ _) as [[[bz es]|] s1] eqn:Eh; [|done].
destruct (Hs _ _ _ _ _ _ _ Eh) as (-> & E1 & E2 & E3). destruct (_ <? _); [done|].
unfold AddJournalEntries. cbn [foldl]. destruct (AddPrecompileFn _ _ _) as [[[]|] s2] eqn:Ea; [|done]. intros [= <- <-].
apply AddPrecompileFn_quiet in Ea as [Q1 Q2 Q3 _].
2:{ unfold known. rewrite E1, E3. exact Hk. }
exists m, args, s1. split; [done|]. split; [done|]. unfold storeCtx. rewrite Q1, Q2, Q3, E1, E2. by split_and!.
Qed.

Variables (setup : EVMSetup) (depth : Z) (interpreterRun : Contract → string → bool → EVM C → outcome * EVM C).
Variables (RequiredGas : Address → string → Z) (precompileRun : Address → Contract → string → bool → EVM C → outcome * EVM C).

(** A successful call of the signer without value, the first thing that happens in its
    transaction: what the commit writes is what the method left in its context. *)
Lemma direct_call p origin input gas e ret gas' e' :
  silent p → precompileRun (pAddress p) = asPrecompile storeGas p → GetPrecompileInstance setup (pAddress p) = Ok true →
  cacheCtx (evmDB e) = None → dirties (evmDB e) = ∅ → known (pAddress p) (evmDB e) → known origin (evmDB e) →
  Call setup depth interpreterRun RequiredGas precompileRun origin (pAddress p) input gas 0 e = Ok (ret, gas', None, e') →
  ∃ ct m args s s1, ctCaller ct = origin ∧ ctValue ct = Some 0 ∧
    decodeCall (pAbi p) (pIsTransaction p) (Some 0) false input = Ok (m, args) ∧
    storeCtx s = ctx (evmDB e) ∧ pHandle p ct m args s = (Ok (ret, []), s1) ∧
    Commit (evmDB e') = (Ok tt, set_ctx (storeCtx s1) (evmDB e')).
Proof.
intros Hs Hp Hi Hc Hd Ka Ko. unfold Call, CallHook. destruct (negb _); [done|]. rewrite Hi.
destruct (_ <? depth); [done|]. cbn [Z.eqb negb evmDB precompiles]. rewrite bool_decide_eq_true_2 by set_solver.
set (s0 := AddAddressToAccessList (pAddress p) (evmDB e)).
assert (Q0 : quiet (evmDB e) s0).
{ unfold s0, AddAddressToAccessList. destruct (AddAddress _ _) as [[] al]; [|by split].
  etransitivity; [|by apply quiet_append]. by split. }
cbn [Snapshot]. set (s1 := set_revisions _ _ s0). assert (Q1 : quiet (evmDB e) s1) by (etransitivity; [exact Q0|by split]).
unfold Exist. destruct (getStateObject_quiet _ _ (quiet_known _ _ _ Q1 Ka)) as (o & Eo & Q2).
destruct (getStateObject (pAddress p) s1) as [x s2]. simpl in Eo, Q2. subst x. rewrite bool_decide_eq_true_2 by done. cbn [negb andb].
assert (Q3 : quiet (evmDB e) s2) by (by etransitivity). set (e2 := withDB s2 _).
pose proof (Transfer_quiet e2 origin (pAddress p) (quiet_known _ _ _ Q3 Ko) (quiet_known _ _ _ Q3 Ka)) as Q4.
set (e3 := Transfer e2 _ _ 0) in *. assert (Q : quiet (evmDB e) (evmDB e3)) by (by etransitivity).
unfold runPrecompiledContract. destruct (_ <? RequiredGas _ _).
{ unfold finish. intros (s & _ & [=])%bind_Ok. }
rewrite Hp. unfold asPrecompile. set (ct := mkContract _ _ _ _ _ _ _).
destruct (runStateful storeGas p ct input false (evmDB e3)) as [[[bz g]|] s3] eqn:Er; cbn [finish].
2:{ intros (s & _ & [=])%bind_Ok. }
intros [= <- <- <-]. destruct Q as [Qa Qb Qc Qd].
apply runStateful_silent in Er as (m & args & t & D1 & D2 & D3 & D4 & D5); [|done|congruence|congruence|].
2:{ destruct Ka as [Ka|Ka]; [left; by apply Qd|right; by rewrite Qa]. }
exists ct, m, args, (set_cache (Some (ctx (evmDB e3))) (evmDB e3)), t. split_and!; try done.
cbn [evmDB withDB]. by rewrite Commit_quiet, D3.
Qed.
End direct.
