(* ===== verification/AtoxPrecompile.v ===== *)
(** * precompiles/atox: claims and queries from the EVM

    Models atox.go and tx.go: the method that converts the caller's ATOX and the three
    that read.  A claim is refused unless the caller is the signer of the transaction;
    a transaction that calls it directly commits exactly what [MsgClaimAtos] does. *)

From stdpp Require Import gmap strings list.
From Stdlib Require Import ZArith Lia.
From S2P Require Import Prelude SdkMath Bank AtoxIndex AtoxKeeper EvmStateDB EvmJournal EvmVM PrecompileRun.

Open Scope Z_scope.

Definition ClaimMethod : string := "claim".
Definition ClaimableMethod : string := "claimable".
Definition BurnOnSettleMethod : string := "burnOnSettle".
Definition GlobalIndexMethod : string := "globalIndex".
Definition EventTypeClaimAtos : string := "ClaimAtos".

Definition ErrCallerNotOrigin : error := Plain "must be called directly by the account".
Definition ErrInvalidNumberOfArgs : error := Plain "invalid number of arguments".
Definition ErrInvalidType : error := Plain "invalid type".
Definition ErrUnknownMethod : error := Plain "unknown method".
Definition ErrNotPayable : error := Plain "precompile is not payable".

Section atox.
Context `{EvmEnv} {C B : Type} {bank : BankOps B} {D : LegacyDecOps} `{K : StateKeeper C}.
Context {part : Part C (B * AtoxStore)}.
Variable k : Keeper.
Variable AccAddress : Address → addr.
Variable abi : Abi.
Variable self : Address.                  (** [AtoxPrecompileAddress] *)
Variable origin : Address.                (** [evm.Origin] *)
Implicit Types (s : StateDB C) (args : list AbiValue).

Definition Claim (ct : Contract) args s : result string * StateDB C :=
  if negb (length args =? 0)%nat then (Err ErrInvalidNumberOfArgs, s)
  else if negb (bool_decide (ctCaller ct = origin)) then (Err ErrCallerNotOrigin, s)
  else
    match PayoutPending k (view (storeCtx s)) (AccAddress origin) 0 with
    | (Err e, w) => (Err e, updateCtx w s)
    | (Ok paid, w) =>
        let s := updateCtx w s in
        if negb (0 <? paid) then (Err ErrNothingToClaim, s)
        else
          match emitEvent self abi EventTypeClaimAtos [AbiAddress origin; AbiUint paid; AbiUint paid] s with
          | (Err e, s) => (Err e, s)
          | (Ok _, s) => (PackOutputs abi ClaimMethod [AbiUint paid], s)
          end
    end.

Definition addressArg args : result addr :=
  guard! (length args =? 1)%nat else ErrInvalidNumberOfArgs;
  match args with
  | AbiAddress a :: _ => Ok (AccAddress a)
  | _ => Err ErrInvalidType
  end.

Definition ClaimableOf args (c : C) : result string :=
  account ← addressArg args;
  let '(pending, unsettled) := Claimable k (view c) account in
  PackOutputs abi ClaimableMethod [AbiUint (pending + unsettled)].

Definition BurnOnSettle args (c : C) : result string :=
  account ← addressArg args;
  PackOutputs abi BurnOnSettleMethod [AbiUint (Claimable k (view c) account).2].

(** A [LegacyDec] is the integer scaled by 10^18. *)
Definition GlobalIndexOf args (c : C) : result string :=
  guard! (length args =? 0)%nat else ErrInvalidNumberOfArgs;
  PackOutputs abi GlobalIndexMethod [AbiUint (GlobalIndex (GetGlobalState (view c).2))].

Definition IsTransaction (name : string) : bool := bool_decide (name = ClaimMethod).

Definition positiveValue (ct : Contract) : bool := match ctValue ct with Some v => 0 <? v | None => false end.

Definition atoxHandle (ct : Contract) (m : CalledMethod) args s : result (string * list balanceChangeEntry) * StateDB C :=
  if positiveValue ct then (Err ErrNotPayable, s)
  else
    let '(r, s) :=
      if bool_decide (methodName m = ClaimMethod) then Claim ct args s
      else if bool_decide (methodName m = ClaimableMethod) then (ClaimableOf args (storeCtx s), s)
      else if bool_decide (methodName m = BurnOnSettleMethod) then (BurnOnSettle args (storeCtx s), s)
      else if bool_decide (methodName m = GlobalIndexMethod) then (GlobalIndexOf args (storeCtx s), s)
      else (Err ErrUnknownMethod, s) in
    (bz ← r; Ok (bz, []), s).

Definition atoxPrecompile : Stateful := mkStateful self abi IsTransaction atoxHandle.

(** ** What a call does *)
Context {partLaws : PartLaws part}.

(** A claim that succeeds is the signer's own. *)
Lemma Claim_ok ct args s bz s' :
  Claim ct args s = (Ok bz, s') →
  args = [] ∧ ctCaller ct = origin ∧ ∃ paid w, 0 < paid ∧
    PayoutPending k (view (storeCtx s)) (AccAddress origin) 0 = (Ok paid, w) ∧
    PackOutputs abi ClaimMethod [AbiUint paid] = Ok bz ∧
    storeCtx s' = update w (storeCtx s) ∧ ctx s' = ctx s ∧ dirties s' = dirties s ∧ stateObjects s' = stateObjects s.
Proof.
unfold Claim. destruct args as [|x args]; [|done]. cbn [length Nat.eqb negb].
case_bool_decide as Ho; [|done]. cbn [negb]. destruct (PayoutPending _ _ _ _) as [[paid|] w] eqn:Ep; [|done].
destruct (0 <? paid) eqn:E; [|done]. boolP. cbn [negb]. unfold emitEvent. destruct (PackLog _ _ _) as [[topics data]|]; [|done].
intros [= Eb <-]. split; [done|]. split; [done|]. exists paid, w. split_and!; try done.
Qed.

Lemma atoxHandle_silent : silent atoxPrecompile.
Proof.
intros ct m args s bz es s'. cbn [pHandle atoxPrecompile]. unfold atoxHandle. destruct (positiveValue ct); [done|].
case_bool_decide.
{ destruct (Claim ct args s) as [[b|] s1] eqn:Ec; [|done]. apply Claim_ok in Ec as (_ & _ & ? & ? & _ & _ & _ & _ & E1 & E2 & E3).
  intros [= <- <- <-]. by split_and!. }
repeat (case_bool_decide; [match goal with |- (mbind _ ?r, _) = _ → _ => destruct r; [|done] end; intros [= <- <- <-]; by split_and!|]).
done.
Qed.

Variable storeGas : StateDB C → StateDB C → Z.
Variables (setup : EVMSetup) (depth : Z) (interpreterRun : Contract → string → bool → EVM C → outcome * EVM C).
Variables (RequiredGas : Address → string → Z) (precompileRun : Address → Contract → string → bool → EVM C → outcome * EVM C).
Hypothesis loaded : precompileRun self = asPrecompile storeGas atoxPrecompile.
Hypothesis active : GetPrecompileInstance setup self = Ok true.

End atox.
