(* ===== verification/TokenPrecompile.v ===== *)
(** * precompiles/erc20: a coin as an ERC-20 token

    Models tx.go, approve.go, query.go, types.go, errors.go and erc20.go.  Transfers are
    bank sends; an allowance is the spend limit, in the denomination of the pair, of the
    authorization to send that the owner has granted to the spender.  The bank, the
    authorizations of the SDK and the traces of ibc-go are the class [TokenKeepers].
    The wrapped token of precompiles/werc20 follows at the end. *)

From stdpp Require Import gmap strings list.
From Stdlib Require Import ZArith Lia Ascii.
From S2P Require Import Prelude VestingSchedule EvmStateDB EvmJournal EvmVM PrecompileRun Erc20Types Erc20Keeper.

Open Scope Z_scope.

(** [authz.Authorization] under the type of [MsgSend]. *)
Inductive Authorization :=
  | SendAuthorization (SpendLimit : Coins) (AllowList : list addr)
  | OtherAuthorization.

Record SendMsg := mkSendMsg { sFrom : addr; sTo : addr; sDenom : denom; sAmount : Z }.

Class TokenKeepers (C : Type) := {
  (** bank *)
  TokenBalance : C → addr → denom → Z;
  TokenSupply : C → denom → Z;
  GetDenomMetaData : C → denom → option Metadata;
  MsgSendServer : C → SendMsg → result unit * C;
  (** authz: grantee, then granter; expired grants are not found *)
  GetAuthorization : C → addr → addr → option (Authorization * option Z);
  SaveGrant : C → addr → addr → Authorization → option Z → result unit * C;
  DeleteGrant : C → addr → addr → result unit * C;
  DispatchActions : C → addr → SendMsg → result unit * C;
  SendAuthorization_ValidateBasic : Coins → list addr → result unit;
  (** ibc-go: the base denomination of a voucher *)
  ParseHexHash : string → result string;
  GetDenomTrace : C → string → option string;
  (** text of a registered error *)
  registeredString : string → Z → string;
}.

Definition ErrNoAuthorizationFound : error := Registered "authz" 2.
Definition ErrUnknownAuthorizationType : error := Registered "authz" 5.
Definition ErrSpenderIsOwner : error := Plain "spender cannot be the owner".
Definition ErrNegativeAmount : error := Plain "cannot approve negative values".
Definition ErrIncreaseNonPositiveValue : error := Plain "cannot increase allowance with non-positive values".
Definition ErrDecreaseNonPositiveValue : error := Plain "cannot decrease allowance with non-positive values".
Definition ErrNoAllowanceForToken : error := Plain "allowance for token does not exist".
Definition ErrSubtractMoreThanAllowance : error := Plain "subtracted value cannot be greater than existing allowance for denom".
Definition ErrCmnIntegerOverflow : error := Plain "integer overflow when increasing allowance".
Definition ErrDecreasedAllowanceBelowZero : error := Plain "ERC20: decreased allowance below zero".
Definition ErrInsufficientAllowance : error := Plain "ERC20: insufficient allowance".
Definition ErrTransferAmountExceedsBalance : error := Plain "ERC20: transfer amount exceeds balance".
Definition ErrNoIBCVoucherDenom : error := Plain "denom is not an IBC voucher".
Definition ErrDenomTraceNotFound : error := Plain "denom trace not found".
Definition ErrInvalidBaseDenom : error := Plain "invalid base denomination".
Definition ErrArguments : error := Plain "invalid number of arguments".
Definition ErrArgument : error := Plain "invalid argument".

Definition MaxUint256 : Z := 2 ^ 256 - 1.
Definition MaxBitLen : Z := 256.

(** ** Arguments (types.go) *)
Definition ParseTransferArgs (args : list AbiValue) : result (Address * Z) :=
  match args with
  | [AbiAddress to; AbiUint amount] => Ok (to, amount)
  | [_; _] => Err ErrArgument
  | _ => Err ErrArguments
  end.
Definition ParseTransferFromArgs (args : list AbiValue) : result (Address * Address * Z) :=
  match args with
  | [AbiAddress from; AbiAddress to; AbiUint amount] => Ok (from, to, amount)
  | [_; _; _] => Err ErrArgument
  | _ => Err ErrArguments
  end.
Definition ParseApproveArgs (args : list AbiValue) : result (Address * Z) := ParseTransferArgs args.
Definition ParseAllowanceArgs (args : list AbiValue) : result (Address * Address) :=
  match args with
  | [AbiAddress owner; AbiAddress spender] => Ok (owner, spender)
  | [_; _] => Err ErrArgument
  | _ => Err ErrArguments
  end.
Definition ParseBalanceOfArgs (args : list AbiValue) : result Address :=
  match args with
  | [AbiAddress account] => Ok account
  | [_] => Err ErrArgument
  | _ => Err ErrArguments
  end.

Definition updateOrAddCoin (cs : Coins) (d : denom) (x : Z) : Coins :=
  match cs !! d with
  | Some _ => <[d := x]> cs
  | None => coinsAdd cs {[d := x]}
  end.

(** [SafeAdd] of precompiles/common/types.go, on amounts that are not negative. *)
Definition SafeAdd (a b : Z) : Z * bool := (a + b, 2 ^ MaxBitLen <=? a + b).

(** ** Errors (errors.go) *)
Definition contains (s sub : string) : bool := match String.index 0 sub s with Some _ => true | None => false end.

Section token.
Context `{EvmEnv} {C : Type} `{K : StateKeeper C} `{TokenKeepers C} `{EthAddresses}.
Implicit Types (c : C) (s : StateDB C) (args : list AbiValue).

Definition errorString (e : error) : string :=
  match e with Plain s => s | Registered m n => registeredString m n end.

Definition ConvertErrToERC20Error (e : error) : error :=
  let t := errorString e in
  if contains t "spendable balance" then ErrTransferAmountExceedsBalance
  else if contains t "requested amount is more than spend limit" then ErrInsufficientAllowance
  else if contains t (errorString ErrNoAuthorizationFound) then ErrInsufficientAllowance
  else if contains t "subtracted value cannot be greater than existing allowance" then ErrDecreasedAllowanceBelowZero
  else if contains t "integer overflow when increasing allowance" then execReverted
  else if bool_decide (e = ErrNoIBCVoucherDenom) || bool_decide (e = ErrDenomTraceNotFound)
          || contains t "invalid base denomination" || contains t "display denomination not found" || contains t "invalid decimals"
  then execReverted
  else e.

Variable AccAddress : Address → addr.
Variable validDenom : denom → bool.
Variable evmDenom : denom.
Variable abi : Abi.
Variable tp : TokenPair.                   (** [p.tokenPair] *)
Variable blockTime : Z.
Variable approvalExpiration : Z.           (** [p.ApprovalExpiration] *)

Definition tokenAddress : Address := GetERC20Contract tp.

(** ** Allowances (query.go, approve.go) *)
Definition CheckAuthzExists c (grantee granter : Address) : result (Authorization * option Z) :=
  match GetAuthorization c (AccAddress grantee) (AccAddress granter) with
  | None => Err (Plain "authorization does not exist or is expired")
  | Some x => Ok x
  end.

Definition GetAuthzExpirationAndAllowance c (grantee granter : Address) : result (Authorization * option Z * Z) :=
  '(authorization, expiration) ← CheckAuthzExists c grantee granter;
  match authorization with
  | SendAuthorization limit _ => Ok (authorization, expiration, amt limit (Denom tp))
  | OtherAuthorization => Err (Plain "expected authorization to be a SendAuthorization")
  end.

Definition createAuthorization c (grantee granter : Address) (amount : Z) : result unit * C :=
  if 2 ^ MaxBitLen <=? amount then (Err (Plain "amount causes integer overflow"), c)
  else
    let limit : Coins := {[Denom tp := amount]} in
    match SendAuthorization_ValidateBasic limit [] with
    | Err e => (Err e, c)
    | Ok _ => SaveGrant c (AccAddress grantee) (AccAddress granter) (SendAuthorization limit []) (Some (blockTime + approvalExpiration))
    end.

Definition updateAuthorization c (grantee granter : Address) (amount : Z) (limit : Coins) (allow : list addr) (expiration : option Z)
    : result unit * C :=
  let limit := updateOrAddCoin limit (Denom tp) amount in
  match SendAuthorization_ValidateBasic limit allow with
  | Err e => (Err e, c)
  | Ok _ => SaveGrant c (AccAddress grantee) (AccAddress granter) (SendAuthorization limit allow) expiration
  end.

Definition removeSpendLimitOrDeleteAuthorization c (grantee granter : Address) (authorization : Authorization) (expiration : option Z)
    : result unit * C :=
  match authorization with
  | OtherAuthorization => (Err ErrUnknownAuthorizationType, c)
  | SendAuthorization limit allow =>
      match limit !! Denom tp with
      | None => (Err ErrNoAllowanceForToken, c)
      | Some x =>
          let '(newSpendLimit, hasNeg) := SafeSub limit {[Denom tp := x]} in
          if hasNeg then (Err (ConvertErrToERC20Error ErrSubtractMoreThanAllowance), c)
          else if IsZero newSpendLimit then DeleteGrant c (AccAddress grantee) (AccAddress granter)
          else SaveGrant c (AccAddress grantee) (AccAddress granter) (SendAuthorization newSpendLimit allow) expiration
      end
  end.

Definition increaseAllowance c (grantee granter : Address) (addedValue : Z) (authorization : Authorization) (expiration : option Z)
    : result Z * C :=
  match authorization with
  | OtherAuthorization => (Err ErrUnknownAuthorizationType, c)
  | SendAuthorization limit allow =>
      let '(amount, overflow) := SafeAdd (amt limit (Denom tp)) addedValue in
      if overflow then (Err (ConvertErrToERC20Error ErrCmnIntegerOverflow), c)
      else
        match updateAuthorization c grantee granter amount limit allow expiration with
        | (Err e, c) => (Err e, c)
        | (Ok _, c) => (Ok amount, c)
        end
  end.

Definition decreaseAllowance c (grantee granter : Address) (subtractedValue : Z) (authorization : Authorization) (expiration : option Z)
    : result Z * C :=
  match authorization with
  | OtherAuthorization => (Err ErrUnknownAuthorizationType, c)
  | SendAuthorization limit allow =>
      match limit !! Denom tp with
      | None => (Err ErrNoAllowanceForToken, c)
      | Some allowance =>
          let amount := allowance - subtractedValue in
          if amount <? 0 then (Err (ConvertErrToERC20Error ErrSubtractMoreThanAllowance), c)
          else
            match updateAuthorization c grantee granter amount limit allow expiration with
            | (Err e, c) => (Err e, c)
            | (Ok _, c) => (Ok amount, c)
            end
      end
  end.

(** What the three methods write, and the amount of the event. *)
Definition approveTo c (granter spender : Address) (amount : Z) : result Z * C :=
  let authorization := GetAuthorization c (AccAddress spender) (AccAddress granter) in
  let '(r, c) :=
    match authorization with
    | None =>
        if amount <? 0 then (Err ErrNegativeAmount, c)
        else if 0 <? amount then createAuthorization c spender granter amount
        else (Ok tt, c)
    | Some (a, expiration) =>
        if amount <=? 0 then removeSpendLimitOrDeleteAuthorization c spender granter a expiration
        else
          match a with
          | OtherAuthorization => (Err ErrUnknownAuthorizationType, c)
          | SendAuthorization limit allow => updateAuthorization c spender granter amount limit allow expiration
          end
    end in
  (_ ← r; Ok amount, c).

Definition increaseBy c (granter spender : Address) (addedValue : Z) : result Z * C :=
  if addedValue <=? 0 then (Err ErrIncreaseNonPositiveValue, c)
  else
    match GetAuthorization c (AccAddress spender) (AccAddress granter) with
    | None => let '(r, c) := createAuthorization c spender granter addedValue in (_ ← r; Ok addedValue, c)
    | Some (a, expiration) => increaseAllowance c spender granter addedValue a expiration
    end.

Definition decreaseBy c (granter spender : Address) (subtractedValue : Z) : result Z * C :=
  if subtractedValue <=? 0 then (Err ErrDecreaseNonPositiveValue, c)
  else
    match GetAuthzExpirationAndAllowance c spender granter with
    | Err e => (Err e, c)
    | Ok (authorization, expiration, allowance) =>
        if subtractedValue <? allowance then decreaseAllowance c spender granter subtractedValue authorization expiration
        else if subtractedValue =? allowance then
          let '(r, c) := removeSpendLimitOrDeleteAuthorization c spender granter authorization expiration in (_ ← r; Ok 0, c)
        else if allowance =? 0 then (Err ErrNoAllowanceForToken, c)
        else (Err (ConvertErrToERC20Error ErrSubtractMoreThanAllowance), c)
    end.

(** [Approve], [IncreaseAllowance] and [DecreaseAllowance]: the event names the
    contract as the owner. *)
Definition allowanceMethod (change : C → Address → Address → Z → result Z * C) (name : string) (ct : Contract) args s
    : result string * StateDB C :=
  match ParseApproveArgs args with
  | Err e => (Err e, s)
  | Ok (spender, value) =>
      let granter := ctCaller ct in
      if bool_decide (spender = granter) then (Err ErrSpenderIsOwner, s)
      else
        let '(r, c) := change (storeCtx s) granter spender value in
        let s := set_cache (Some c) s in
        match r with
        | Err e => (Err e, s)
        | Ok amount =>
            match emitEvent tokenAddress abi "Approval" [AbiAddress tokenAddress; AbiAddress spender; AbiUint amount] s with
            | (Err e, s) => (Err e, s)
            | (Ok _, s) => (PackOutputs abi name [AbiBool true], s)
            end
        end
  end.
Definition Approve := allowanceMethod approveTo "approve".
Definition IncreaseAllowance := allowanceMethod increaseBy "increaseAllowance".
Definition DecreaseAllowance := allowanceMethod decreaseBy "decreaseAllowance".

(** ** Transfers (tx.go) *)

(** The send itself: by the owner through the bank's message server, or on behalf of
    the owner through an authorization; with the allowance before it. *)
Definition sendTokens c (spender from to : Address) (amount : Z) : result (option Z) * C :=
  let msg := mkSendMsg (AccAddress from) (AccAddress to) (Denom tp) amount in
  if bool_decide (spender = from) then
    match MsgSendServer c msg with
    | (Err e, c) => (Err (ConvertErrToERC20Error e), c)
    | (Ok _, c) => (Ok None, c)
    end
  else
    match GetAuthzExpirationAndAllowance c spender from with
    | Err _ => (Err (ConvertErrToERC20Error ErrNoAuthorizationFound), c)
    | Ok (_, _, prevAllowance) =>
        match DispatchActions c (AccAddress spender) msg with
        | (Err e, c) => (Err (ConvertErrToERC20Error e), c)
        | (Ok _, c) => (Ok (Some prevAllowance), c)
        end
    end.

Definition transfer (isTransferFrom : bool) (name : string) (ct : Contract) (from to : Address) (amount : Z) s
    : result (string * list balanceChangeEntry) * StateDB C :=
  if negb (validDenom (Denom tp) && (0 <? amount)) then (Err (Plain "invalid coins"), s)
  else
    let recipientBefore := TokenBalance (storeCtx s) (AccAddress to) (Denom tp) in
    let '(r, c) := sendTokens (storeCtx s) (ctCaller ct) from to amount in
    let s := set_cache (Some c) s in
    match r with
    | Err e => (Err e, s)
    | Ok prevAllowance =>
        let es :=
          if decide (Denom tp = evmDenom) then
            let x := amount * ConversionFactor EVMCoinDecimals in
            [mkBalanceChangeEntry from x Sub; mkBalanceChangeEntry to x Add]
          else [] in
        let delivered := Z.max 0 (TokenBalance c (AccAddress to) (Denom tp) - recipientBefore) in
        match emitEvent tokenAddress abi "Transfer" [AbiAddress from; AbiAddress to; AbiUint delivered] s with
        | (Err e, s) => (Err e, s)
        | (Ok _, s) =>
            let '(r, s) :=
              if isTransferFrom then
                let newAllowance := match prevAllowance with None => MaxUint256 | Some p => p - amount end in
                emitEvent tokenAddress abi "Approval" [AbiAddress from; AbiAddress (ctCaller ct); AbiUint newAllowance] s
              else (Ok tt, s) in
            (_ ← r; bz ← PackOutputs abi name [AbiBool true]; Ok (bz, es), s)
        end
    end.

Definition Transfer (ct : Contract) args s : result (string * list balanceChangeEntry) * StateDB C :=
  match ParseTransferArgs args with
  | Err e => (Err e, s)
  | Ok (to, amount) => transfer false "transfer" ct (ctCaller ct) to amount s
  end.

Definition TransferFrom (ct : Contract) args s : result (string * list balanceChangeEntry) * StateDB C :=
  match ParseTransferFromArgs args with
  | Err e => (Err e, s)
  | Ok (from, to, amount) => transfer true "transferFrom" ct from to amount s
  end.

(** ** Queries (query.go, ibc/utils.go) *)
Definition IbcDenomTrace c (d : denom) : result string :=
  guard! String.prefix "ibc/" d else ErrNoIBCVoucherDenom;
  h ← ParseHexHash (String.substring 4 (String.length d - 4) d);
  match GetDenomTrace c h with None => Err ErrDenomTraceNotFound | Some baseDenom => Ok baseDenom end.

Definition DeriveDecimalsFromDenom (baseDenom : string) : result Z :=
  match baseDenom with
  | String "u" _ => Ok 6
  | String "a" _ => Ok 18
  | _ => Err ErrInvalidBaseDenom
  end.

Definition getBaseDenomFromIBCVoucher c (d : denom) : result string :=
  baseDenom ← IbcDenomTrace c d;
  guard! (3 <=? String.length baseDenom)%nat else ErrInvalidBaseDenom;
  Ok baseDenom.

(** [strings.ToUpper] of ASCII text. *)
Definition upperChar (x : ascii) : ascii :=
  let n := nat_of_ascii x in if (97 <=? n)%nat && (n <=? 122)%nat then ascii_of_nat (n - 32) else x.
Fixpoint ToUpper (t : string) : string :=
  match t with EmptyString => EmptyString | String x t => String (upperChar x) (ToUpper t) end.

Definition convertErr {X} (r : result X) : result X :=
  match r with Ok x => Ok x | Err e => Err (ConvertErrToERC20Error e) end.

Definition Name c : result string :=
  match GetDenomMetaData c (Denom tp) with
  | Some metadata => PackOutputs abi "name" [AbiString (mdName metadata)]
  | None =>
      baseDenom ← convertErr (getBaseDenomFromIBCVoucher c (Denom tp));
      PackOutputs abi "name"
        [AbiString (ToUpper (String.substring 1 1 baseDenom) +:+ String.substring 2 (String.length baseDenom - 2) baseDenom)]
  end.

Definition Symbol c : result string :=
  match GetDenomMetaData c (Denom tp) with
  | Some metadata => PackOutputs abi "symbol" [AbiString (mdSymbol metadata)]
  | None =>
      baseDenom ← convertErr (getBaseDenomFromIBCVoucher c (Denom tp));
      PackOutputs abi "symbol" [AbiString (ToUpper (String.substring 1 (String.length baseDenom - 1) baseDenom))]
  end.

(** The exponent of the last unit that is the display unit. *)
Definition displayExponent (metadata : Metadata) : option Z :=
  snd <$> last (filter (fun u : denom * Z => u.1 = mdDisplay metadata) (mdUnits metadata)).

Definition Decimals c : result string :=
  match GetDenomMetaData c (Denom tp) with
  | None =>
      d ← convertErr (baseDenom ← IbcDenomTrace c (Denom tp); DeriveDecimalsFromDenom baseDenom);
      PackOutputs abi "decimals" [AbiUint d]
  | Some metadata =>
      match displayExponent metadata with
      | None => Err (ConvertErrToERC20Error (Plain "display denomination not found"))
      | Some d =>
          if 255 <? d then Err (ConvertErrToERC20Error (Plain "uint8 overflow: invalid decimals"))
          else PackOutputs abi "decimals" [AbiUint d]
      end
  end.

Definition TotalSupply c : result string := PackOutputs abi "totalSupply" [AbiUint (TokenSupply c (Denom tp))].

Definition TokenBalanceOf args c : result string :=
  account ← ParseBalanceOfArgs args;
  PackOutputs abi "balanceOf" [AbiUint (TokenBalance c (AccAddress account) (Denom tp))].

Definition allowanceOf c (owner spender : Address) : Z :=
  if bool_decide (owner = spender) then MaxUint256
  else match GetAuthzExpirationAndAllowance c spender owner with Ok (_, _, x) => x | Err _ => 0 end.

Definition Allowance args c : result string :=
  '(owner, spender) ← ParseAllowanceArgs args;
  PackOutputs abi "allowance" [AbiUint (allowanceOf c owner spender)].

(** ** The contract (erc20.go) *)
Definition erc20IsTransaction (name : string) : bool :=
  bool_decide (name ∈ ["transfer"; "transferFrom"; "approve"; "increaseAllowance"; "decreaseAllowance"]%string).

Definition readOnlyMethod (r : result string) s : result (string * list balanceChangeEntry) * StateDB C :=
  (bz ← r; Ok (bz, []), s).
Definition writeMethod (x : result string * StateDB C) : result (string * list balanceChangeEntry) * StateDB C :=
  readOnlyMethod x.1 x.2.

Definition HandleMethod (ct : Contract) (m : CalledMethod) args s : result (string * list balanceChangeEntry) * StateDB C :=
  let name := methodName m in
  if bool_decide (name = "transfer"%string) then Transfer ct args s
  else if bool_decide (name = "transferFrom"%string) then TransferFrom ct args s
  else if bool_decide (name = "approve"%string) then writeMethod (Approve ct args s)
  else if bool_decide (name = "increaseAllowance"%string) then writeMethod (IncreaseAllowance ct args s)
  else if bool_decide (name = "decreaseAllowance"%string) then writeMethod (DecreaseAllowance ct args s)
  else if bool_decide (name = "name"%string) then readOnlyMethod (Name (storeCtx s)) s
  else if bool_decide (name = "symbol"%string) then readOnlyMethod (Symbol (storeCtx s)) s
  else if bool_decide (name = "decimals"%string) then readOnlyMethod (Decimals (storeCtx s)) s
  else if bool_decide (name = "totalSupply"%string) then readOnlyMethod (TotalSupply (storeCtx s)) s
  else if bool_decide (name = "balanceOf"%string) then readOnlyMethod (TokenBalanceOf args (storeCtx s)) s
  else if bool_decide (name = "allowance"%string) then readOnlyMethod (Allowance args (storeCtx s)) s
  else (Err (Plain "unknown method"), s).

Definition erc20Precompile : Stateful := mkStateful tokenAddress abi erc20IsTransaction HandleMethod.

(** A nil value is dereferenced here too. *)
Definition erc20Run (storeGas : StateDB C → StateDB C → Z) (ct : Contract) (input : string) (readOnly : bool) s
    : result (string * Z) * StateDB C :=
  match ctValue ct with
  | None => (Err (Plain "nil pointer dereference"), s)
  | Some v =>
      if 0 <? v then (Err (Plain "cannot receive funds"), s)
      else runStateful storeGas erc20Precompile ct input readOnly s
  end.

Definition RequiredGas (input : string) : Z :=
  if (String.length input <? 4)%nat then 0
  else
    match MethodById abi (String.substring 0 4 input) with
    | Err _ => 0
    | Ok name =>
        default 0 (list_to_map (M := gmap string Z)
          [("transfer", 3000000); ("transferFrom", 3000000); ("approve", 30956); ("increaseAllowance", 34605);
           ("decreaseAllowance", 34519); ("name", 3421); ("symbol", 3464); ("decimals", 427); ("totalSupply", 2477);
           ("balanceOf", 2851); ("allowance", 3246)]%string !! name)
    end.
End token.

(** ** precompiles/werc20: the coin of the EVM as a wrapped token

    Models tx.go and werc20.go over the methods of [TokenPrecompile].  A deposit sends
    the attached value back, a withdrawal only checks the balance: the coin is the
    token. *)


Section wrapped.
Context `{EvmEnv} {C : Type} `{K : StateKeeper C} `{TokenKeepers C} `{EthAddresses}.
Variable AccAddress : Address → addr.
Variable validDenom : denom → bool.
Variable evmDenom : denom.
Variable abi : Abi.
Variable tp : TokenPair.
Variables blockTime approvalExpiration : Z.
Variable BankSend : C → addr → addr → coins → result unit * C.     (** [SendCoins] of the bank *)
Implicit Types (s : StateDB C) (args : list AbiValue) (ct : Contract).
Abbreviation self := (tokenAddress tp).
Abbreviation tokenMethod := (HandleMethod AccAddress validDenom evmDenom abi tp blockTime approvalExpiration).

(** A missing value is dereferenced. *)
Definition Deposit ct s : result (string * list balanceChangeEntry) * StateDB C :=
  match ctValue ct with
  | None => (Err (Plain "nil pointer dereference"), s)
  | Some value =>
      let caller := ctCaller ct in
      match BankSend (storeCtx s) (AccAddress self) (AccAddress caller) (NewCoins evmDenom value) with
      | (Err e, c) => (Err e, set_cache (Some c) s)
      | (Ok _, c) =>
          match emitEvent self abi "Deposit" [AbiAddress caller; AbiUint value] (set_cache (Some c) s) with
          | (Err e, s) => (Err e, s)
          | (Ok _, s) => (Ok (""%string, [mkBalanceChangeEntry caller value Add; mkBalanceChangeEntry self value Sub]), s)
          end
      end
  end.

(** [args[0]] of an empty list is a panic. *)
Definition Withdraw ct args s : result (string * list balanceChangeEntry) * StateDB C :=
  match args with
  | [] => (Err (Plain "index out of range"), s)
  | AbiUint amount :: _ =>
      if TokenBalance (storeCtx s) (AccAddress (ctCaller ct)) evmDenom <? amount then (Err (Plain "account balance is lower than withdraw balance"), s)
      else
        match emitEvent self abi "Withdrawal" [AbiAddress (ctCaller ct); AbiUint amount] s with
        | (Err e, s) => (Err e, s)
        | (Ok _, s) => (Ok (""%string, []), s)
        end
  | _ => (Err (Plain "invalid argument type"), s)
  end.

(** Fallback and receive have no name. *)
Definition werc20IsTransaction (name : string) : bool :=
  bool_decide (name ∈ [""; "deposit"; "withdraw"]%string) || erc20IsTransaction name.

Definition werc20Handle ct (m : CalledMethod) args s : result (string * list balanceChangeEntry) * StateDB C :=
  match m with
  | Receive | Fallback => Deposit ct s
  | Function name =>
      if bool_decide (name = "deposit"%string) then Deposit ct s
      else if bool_decide (name = "withdraw"%string) then Withdraw ct args s
      else tokenMethod ct m args s
  end.

Definition werc20Precompile : Stateful := mkStateful self abi werc20IsTransaction werc20Handle.

Definition werc20RequiredGas (input : string) : Z :=
  if (String.length input <? 4)%nat then 23878
  else
    match MethodById abi (String.substring 0 4 input) with
    | Err _ => 0
    | Ok name =>
        if bool_decide (name = "deposit"%string) then 23878
        else if bool_decide (name = "withdraw"%string) then 9207
        else RequiredGas abi input
    end.

(** A withdrawal that succeeds moves nothing and was covered; a deposit moves exactly
    the attached value from the contract back to the caller, in the bank and in the
    entries for the journal. *)
Lemma withdraw_moves_nothing ct args s bz es s' :
  Withdraw ct args s = (Ok (bz, es), s') →
  es = [] ∧ storeCtx s' = storeCtx s ∧ ∃ x rest, args = AbiUint x :: rest ∧ x <= TokenBalance (storeCtx s) (AccAddress (ctCaller ct)) evmDenom.
Proof.
unfold Withdraw. destruct args as [|[] rest]; try done. destruct (_ <? x) eqn:E; [done|]. boolP.
unfold emitEvent. destruct (PackLog _ _ _) as [[]|]; [|done]. intros [= _ <- <-]. split_and!; [done..|]. by exists x, rest.
Qed.

Lemma deposit_returns_value ct s bz es s' :
  Deposit ct s = (Ok (bz, es), s') →
  ∃ x, ctValue ct = Some x ∧ BankSend (storeCtx s) (AccAddress self) (AccAddress (ctCaller ct)) (NewCoins evmDenom x) = (Ok tt, storeCtx s') ∧
    es = [mkBalanceChangeEntry (ctCaller ct) x Add; mkBalanceChangeEntry self x Sub].
Proof.
unfold Deposit. destruct (ctValue ct) as [x|]; [|done]. destruct (BankSend _ _ _ _) as [[[]|] c] eqn:Eb; [|done].
unfold emitEvent. destruct (PackLog _ _ _) as [[]|]; [|done]. intros [= _ <- <-]. by exists x.
Qed.
End wrapped.
