(* ===== verification/TokenAllowance.v ===== *)
(** * precompiles/erc20: allowances

    The grants of the authorization module implement the allowance table of an ERC-20
    token: every method that succeeds changes the table as the standard says, and
    nothing else of the grants.  Who is not the owner can therefore move at most what the
    owner allowed. *)

From stdpp Require Import gmap strings list relations.
From Stdlib Require Import ZArith Lia Ascii.
From S2P Require Import Prelude VestingSchedule EvmStateDB EvmJournal EvmVM PrecompileRun Erc20Types Erc20Keeper TokenPrecompile.

Open Scope Z_scope.

(** ** What the authorization module promises *)
Class TokenLaws {C} (T : TokenKeepers C) : Prop := {
  save_grant c g r a e c' : SaveGrant c g r a e = (Ok tt, c') →
    GetAuthorization c' g r = Some (a, e) ∧
    ∀ g' r', (g', r') ≠ (g, r) → GetAuthorization c' g' r' = GetAuthorization c g' r';
  delete_grant c g r c' : DeleteGrant c g r = (Ok tt, c') →
    GetAuthorization c' g r = None ∧
    ∀ g' r', (g', r') ≠ (g, r) → GetAuthorization c' g' r' = GetAuthorization c g' r';
  send_grants c m c' g r : MsgSendServer c m = (Ok tt, c') → GetAuthorization c' g r = GetAuthorization c g r;
  (** an authorization to send is charged with the amount, dropped when it is used up,
      and then the message runs *)
  dispatch_send c g m c' l al e :
    sFrom m ≠ g → GetAuthorization c g (sFrom m) = Some (SendAuthorization l al, e) →
    DispatchActions c g m = (Ok tt, c') →
    let '(rest, hasNeg) := SafeSub l {[sDenom m := sAmount m]} in
    hasNeg = false ∧
    GetAuthorization c' g (sFrom m) = (if IsZero rest then None else Some (SendAuthorization rest al, e)) ∧
    (∀ g' r', (g', r') ≠ (g, sFrom m) → GetAuthorization c' g' r' = GetAuthorization c g' r') ∧
    ∃ c1, (∀ a d, TokenBalance c1 a d = TokenBalance c a d) ∧ MsgSendServer c1 m = (Ok tt, c');
}.

Section allowances.
Context `{EvmEnv} {C : Type} `{K : StateKeeper C} {T : TokenKeepers C} {laws : TokenLaws T} `{EthAddresses}.
Variable AccAddress : Address → addr.
Context `{AccAddress_inj : !Inj (=) (=) AccAddress}.
Variable validDenom : denom → bool.
Variable evmDenom : denom.
Variable abi : Abi.
Variable tp : TokenPair.
Variable blockTime : Z.
Variable approvalExpiration : Z.
Implicit Types (c : C) (s : StateDB C) (g r : addr) (o p : Address).

(** The limit of an authorization in one denomination. *)
Definition limitOf c g r (d : denom) : Z :=
  match GetAuthorization c g r with Some (SendAuthorization l _, _) => amt l d | _ => 0 end.

Lemma allowanceOf_limit c o p : o ≠ p → allowanceOf AccAddress tp c o p = limitOf c (AccAddress p) (AccAddress o) (Denom tp).
Proof.
intros Hn. unfold allowanceOf, GetAuthzExpirationAndAllowance, CheckAuthzExists, limitOf. rewrite bool_decide_eq_false_2 by done.
by destruct (GetAuthorization _ _ _) as [[[] ?]|].
Qed.

(** [c'] differs from [c] in one limit, that of the token. *)
Definition sets g r (x : Z) c c' : Prop := ∀ g' r' d,
  limitOf c' g' r' d = if decide ((g', r') = (g, r) ∧ d = Denom tp) then x else limitOf c g' r' d.

Lemma sets_grant g r x c c' :
  (∀ d, limitOf c' g r d = if decide (d = Denom tp) then x else limitOf c g r d) →
  (∀ g' r', (g', r') ≠ (g, r) → GetAuthorization c' g' r' = GetAuthorization c g' r') → sets g r x c c'.
Proof.
intros H1 H2 g' r' d. destruct (decide ((g', r') = (g, r))) as [[= -> ->]|Hn].
- rewrite H1. repeat case_decide; naive_solver.
- unfold limitOf. rewrite H2 by done. by rewrite decide_False by naive_solver.
Qed.

Lemma SaveGrant_sets c g r l al e x c' :
  (∀ d, amt l d = if decide (d = Denom tp) then x else limitOf c g r d) →
  SaveGrant c g r (SendAuthorization l al) e = (Ok tt, c') → sets g r x c c'.
Proof.
intros Hl [H1 H2]%save_grant. apply sets_grant; [|done]. intros d. unfold limitOf at 1. by rewrite H1.
Qed.

Lemma amt_single d x d' : amt {[d := x]} d' = if decide (d' = d) then x else 0.
Proof. unfold amt. case_decide; subst; [by rewrite lookup_singleton_eq|by rewrite lookup_singleton_ne]. Qed.

Lemma amt_insert l d x d' : amt (<[d := x]> l) d' = if decide (d' = d) then x else amt l d'.
Proof. unfold amt. case_decide; subst; [by rewrite lookup_insert_eq|by rewrite lookup_insert_ne]. Qed.

Lemma amt_updateOrAddCoin l d x d' : amt (updateOrAddCoin l d x) d' = if decide (d' = d) then x else amt l d'.
Proof.
unfold updateOrAddCoin. destruct (l !! d) as [y|] eqn:E; [apply amt_insert|]. rewrite amt_add, amt_single.
case_decide; [|lia]. subst d'. unfold amt. rewrite E. simpl. lia.
Qed.

Lemma createAuthorization_sets c o p x c' :
  GetAuthorization c (AccAddress p) (AccAddress o) = None →
  createAuthorization AccAddress tp blockTime approvalExpiration c p o x = (Ok tt, c') →
  sets (AccAddress p) (AccAddress o) x c c'.
Proof.
intros Hn. unfold createAuthorization. destruct (_ <=? _); [done|]. destruct (SendAuthorization_ValidateBasic _ _); [|done].
apply SaveGrant_sets. intros d. rewrite amt_single. unfold limitOf. by rewrite Hn.
Qed.

Lemma updateAuthorization_sets c o p x l al e e' c' :
  GetAuthorization c (AccAddress p) (AccAddress o) = Some (SendAuthorization l al, e) →
  updateAuthorization AccAddress tp c p o x l al e' = (Ok tt, c') → sets (AccAddress p) (AccAddress o) x c c'.
Proof.
intros Hg. unfold updateAuthorization. destruct (SendAuthorization_ValidateBasic _ _); [|done].
apply SaveGrant_sets. intros d. rewrite amt_updateOrAddCoin. unfold limitOf. by rewrite Hg.
Qed.

Lemma IsZero_amt l d : IsZero l = true → amt l d = 0.
Proof.
unfold IsZero. intros Hz%bool_decide_eq_true. unfold amt. destruct (l !! d) as [x|] eqn:E; [|done]. by apply Hz in E.
Qed.

(** What is left of a limit after a charge, however it is stored. *)
Lemma charged_sets c g r l al e x rest c' :
  GetAuthorization c g r = Some (SendAuthorization l al, e) → (∀ d, amt rest d = amt l d - amt {[Denom tp := x]} d) →
  GetAuthorization c' g r = (if IsZero rest then None else Some (SendAuthorization rest al, e)) →
  (∀ g' r', (g', r') ≠ (g, r) → GetAuthorization c' g' r' = GetAuthorization c g' r') →
  sets g r (amt l (Denom tp) - x) c c'.
Proof.
intros Hg Hl Hg' Hf. apply sets_grant; [|done]. intros d. unfold limitOf. rewrite Hg', Hg. specialize (Hl d). rewrite amt_single in Hl.
destruct (IsZero rest) eqn:E; [rewrite (IsZero_amt _ d E) in Hl|]; case_decide; subst; lia.
Qed.

Lemma SafeSub_amt a b d : amt (SafeSub a b).1 d = amt a d - amt b d.
Proof. unfold SafeSub. cbn [fst]. rewrite amt_add, amt_opp. lia. Qed.

Lemma remove_sets c o p a e c' :
  GetAuthorization c (AccAddress p) (AccAddress o) = Some (a, e) →
  removeSpendLimitOrDeleteAuthorization AccAddress tp c p o a e = (Ok tt, c') →
  sets (AccAddress p) (AccAddress o) 0 c c'.
Proof.
intros Hg. unfold removeSpendLimitOrDeleteAuthorization. destruct a as [l al|]; [|done]. destruct (l !! Denom tp) as [x|] eqn:Ex; [|done].
pose proof (SafeSub_amt l {[Denom tp := x]}) as Hl. destruct (SafeSub l _) as [rest []]; [done|]. cbn [fst] in Hl.
assert (Hx : 0 = amt l (Denom tp) - x) by (unfold amt; rewrite Ex; simpl; lia). rewrite Hx.
destruct (IsZero rest) eqn:Ez; [intros [H1 H2]%delete_grant|intros [H1 H2]%save_grant];
  (eapply charged_sets; [exact Hg|exact Hl|rewrite Ez; exact H1|exact H2]).
Qed.

Lemma sets_same c g r : limitOf c g r (Denom tp) = 0 → sets g r 0 c c.
Proof. intros Hz. apply sets_grant; [|done]. intros d. case_decide; by subst. Qed.

Lemma approveTo_sets c o p x y c' :
  0 <= x → approveTo AccAddress tp blockTime approvalExpiration c o p x = (Ok y, c') →
  y = x ∧ sets (AccAddress p) (AccAddress o) x c c'.
Proof.
intros Hx. unfold approveTo. destruct (GetAuthorization _ _ _) as [[a e]|] eqn:Eg.
- destruct (x <=? 0) eqn:E; boolP.
  + destruct (removeSpendLimitOrDeleteAuthorization _ _ _ _ _ _ _) as [[[]|] c1] eqn:Er; [|done]. intros [= <- <-].
    replace x with 0 by lia. split; [done|]. by eapply remove_sets.
  + destruct a as [l al|]; [|done]. destruct (updateAuthorization _ _ _ _ _ _ _ _ _) as [[[]|] c1] eqn:Eu; [|done].
    intros [= <- <-]. split; [done|]. by eapply updateAuthorization_sets.
- destruct (x <? 0) eqn:E1; [done|]. destruct (0 <? x) eqn:E2; boolP.
  + destruct (createAuthorization _ _ _ _ _ _ _ _) as [[[]|] c1] eqn:Ec; [|done]. intros [= <- <-]. split; [done|].
    by eapply createAuthorization_sets.
  + intros [= <- <-]. replace x with 0 by lia. split; [done|]. apply sets_same. unfold limitOf. by rewrite Eg.
Qed.

Lemma increaseBy_sets c o p x y c' :
  increaseBy AccAddress tp blockTime approvalExpiration c o p x = (Ok y, c') →
  0 < x ∧ y = limitOf c (AccAddress p) (AccAddress o) (Denom tp) + x ∧ sets (AccAddress p) (AccAddress o) y c c'.
Proof.
unfold increaseBy. destruct (x <=? 0) eqn:E; [done|]. boolP. unfold limitOf.
destruct (GetAuthorization _ _ _) as [[a e]|] eqn:Eg.
- unfold increaseAllowance. destruct a as [l al|]; [|done]. unfold SafeAdd. destruct (_ <=? _); [done|].
  destruct (updateAuthorization _ _ _ _ _ _ _ _ _) as [[[]|] c1] eqn:Eu; [|done]. intros [= <- <-].
  split_and!; [lia|done|]. by eapply updateAuthorization_sets.
- destruct (createAuthorization _ _ _ _ _ _ _ _) as [[[]|] c1] eqn:Ec; [|done]. intros [= <- <-].
  split_and!; [lia|lia|]. by eapply createAuthorization_sets.
Qed.

Lemma decreaseBy_sets c o p x y c' :
  decreaseBy AccAddress tp c o p x = (Ok y, c') →
  0 < x <= limitOf c (AccAddress p) (AccAddress o) (Denom tp) ∧
  y = limitOf c (AccAddress p) (AccAddress o) (Denom tp) - x ∧ sets (AccAddress p) (AccAddress o) y c c'.
Proof.
unfold decreaseBy. destruct (x <=? 0) eqn:E; [done|]. boolP. unfold limitOf, GetAuthzExpirationAndAllowance, CheckAuthzExists.
destruct (GetAuthorization _ _ _) as [[a e]|] eqn:Eg; [|done]. cbn [mbind result_bind]. destruct a as [l al|]; [|done].
destruct (x <? amt l (Denom tp)) eqn:E1; boolP.
- unfold decreaseAllowance. destruct (l !! Denom tp) as [z|] eqn:Ez; [|done]. destruct (_ <? 0); [done|].
  destruct (updateAuthorization _ _ _ _ _ _ _ _ _) as [[[]|] c1] eqn:Eu; [|done]. intros [= <- <-].
  assert (Ha : amt l (Denom tp) = z) by (unfold amt; by rewrite Ez).
  split_and!; [lia|lia|lia|]. by eapply updateAuthorization_sets.
- destruct (x =? amt l (Denom tp)) eqn:E2; boolP.
  + destruct (removeSpendLimitOrDeleteAuthorization _ _ _ _ _ _ _) as [[[]|] c1] eqn:Er; [|done]. intros [= <- <-].
    split_and!; [lia|lia|lia|]. by eapply remove_sets.
  + by destruct (_ =? 0).
Qed.

Lemma sendTokens_sets c spender from to x prev c' :
  sendTokens AccAddress tp c spender from to x = (Ok prev, c') →
  let msg := mkSendMsg (AccAddress from) (AccAddress to) (Denom tp) x in
  (spender = from ∧ prev = None ∧ MsgSendServer c msg = (Ok tt, c')) ∨
  (spender ≠ from ∧ let before := limitOf c (AccAddress spender) (AccAddress from) (Denom tp) in
    prev = Some before ∧ x <= before ∧ sets (AccAddress spender) (AccAddress from) (before - x) c c' ∧
    ∃ c1, (∀ a d, TokenBalance c1 a d = TokenBalance c a d) ∧ MsgSendServer c1 msg = (Ok tt, c')).
Proof.
unfold sendTokens. cbv zeta. case_bool_decide as Hs.
{ destruct (MsgSendServer _ _) as [[[]|] c1] eqn:E; [|done]. intros [= <- <-]. by left. }
unfold GetAuthzExpirationAndAllowance, CheckAuthzExists, limitOf.
destruct (GetAuthorization _ _ _) as [[a e]|] eqn:Eg; [|done]. cbn [mbind result_bind]. destruct a as [l al|]; [|done].
destruct (DispatchActions _ _ _) as [[[]|] c1] eqn:Ed; [|done]. intros [= <- <-]. right. split; [done|].
assert (Hne : AccAddress from ≠ AccAddress spender) by (intros E; by apply (inj AccAddress) in E).
pose proof (dispatch_send c (AccAddress spender) (mkSendMsg (AccAddress from) (AccAddress to) (Denom tp) x) c1 l al e Hne Eg Ed) as H1. cbn [sDenom sAmount sFrom] in H1.
pose proof (SafeSub_amt l {[Denom tp := x]}) as Hl.
assert (Hn : (SafeSub l {[Denom tp := x]}).2 = false → x <= amt l (Denom tp)).
{ unfold SafeSub. cbn [snd]. intros Hn%bool_decide_eq_false. apply dec_stable in Hn. rewrite all_nonneg_amt in Hn.
  specialize (Hn (Denom tp)). rewrite amt_add, amt_opp, amt_single, decide_True in Hn by done. lia. }
destruct (SafeSub l _) as [rest neg]. cbn [fst snd] in *. destruct H1 as (N & G & F & M).
split_and!; [done|by apply Hn|by eapply charged_sets|done].
Qed.

(** ** The standard's table *)
Inductive TokenCall :=
  | CallTransfer (to : Address) (x : Z) | CallTransferFrom (from to : Address) (x : Z)
  | CallApprove (spender : Address) (x : Z) | CallIncrease (spender : Address) (x : Z) | CallDecrease (spender : Address) (x : Z)
  | CallQuery.

Definition tokenCall (m : CalledMethod) (args : list AbiValue) : TokenCall :=
  let name := methodName m in
  match args with
  | [AbiAddress q; AbiUint x] =>
      if decide (name = "transfer"%string) then CallTransfer q x
      else if decide (name = "approve"%string) then CallApprove q x
      else if decide (name = "increaseAllowance"%string) then CallIncrease q x
      else if decide (name = "decreaseAllowance"%string) then CallDecrease q x
      else CallQuery
  | [AbiAddress from; AbiAddress to; AbiUint x] => if decide (name = "transferFrom"%string) then CallTransferFrom from to x else CallQuery
  | _ => CallQuery
  end.

Definition table : Type := Address → Address → Z.
Definition tableSet (t : table) o p (x : Z) : table := fun o' p' => if decide ((o', p') = (o, p)) then x else t o' p'.

(** What the standard makes of a call of [caller]; [None] is a revert. *)
Definition standardAllowances (caller : Address) (call : TokenCall) (t : table) : option table :=
  match call with
  | CallTransfer _ _ | CallQuery => Some t
  | CallTransferFrom from _ x =>
      if decide (caller = from) then Some t
      else if x <=? t from caller then Some (tableSet t from caller (t from caller - x)) else None
  | CallApprove p x => Some (tableSet t caller p x)
  | CallIncrease p x => Some (tableSet t caller p (t caller p + x))
  | CallDecrease p x => if x <=? t caller p then Some (tableSet t caller p (t caller p - x)) else None
  end.

(** Integers of the ABI are unsigned. *)
Definition abi_ok (v : AbiValue) : Prop := match v with AbiUint x => 0 <= x | _ => True end.

(** [c'] has the table [t'], and no limit of another denomination has changed. *)
Definition implements c c' (t' : table) : Prop :=
  (∀ o p, o ≠ p → allowanceOf AccAddress tp c' o p = t' o p) ∧
  (∀ g r d, d ≠ Denom tp → limitOf c' g r d = limitOf c g r d).

Lemma sets_implements c c' o p x :
  sets (AccAddress p) (AccAddress o) x c c' → implements c c' (tableSet (allowanceOf AccAddress tp c) o p x).
Proof.
intros Hs. split.
- intros o' p' Hn. unfold tableSet. rewrite allowanceOf_limit by done. rewrite Hs. case_decide as E.
  + destruct E as [[= E1%(inj AccAddress) E2%(inj AccAddress)] _]. subst. by rewrite decide_True.
  + rewrite decide_False by (intros [= -> ->]; by apply E). by rewrite allowanceOf_limit.
- intros g r d Hd. rewrite Hs. by rewrite decide_False by naive_solver.
Qed.

Lemma same_implements c c' : (∀ g r, GetAuthorization c' g r = GetAuthorization c g r) →
  implements c c' (allowanceOf AccAddress tp c).
Proof.
intros Hg. split; [intros o p Hn; rewrite !allowanceOf_limit by done|intros g r d _]; unfold limitOf; by rewrite Hg.
Qed.

(** ** The methods *)
Abbreviation handle := (HandleMethod AccAddress validDenom evmDenom abi tp blockTime approvalExpiration).
Abbreviation allowance := (allowanceOf AccAddress tp).

Lemma emitEvent_ok a name vs s s' : emitEvent a abi name vs s = (Ok tt, s') →
  storeCtx s' = storeCtx s ∧ ∃ topics data, PackLog abi name vs = Ok (topics, data) ∧
    ∃ l, logs s' = logs s ++ [l] ∧ logAddress l = a ∧ Topics l = topics ∧ Data l = data.
Proof.
unfold emitEvent. destruct (PackLog _ _ _) as [[topics data]|]; [|done]. intros [= <-]. split; [done|].
exists topics, data. split; [done|]. eexists. split; [reflexivity|done].
Qed.

Lemma allowanceMethod_ok change name ct args s bz s' :
  allowanceMethod abi tp change name ct args s = (Ok bz, s') →
  ∃ p x y, args = [AbiAddress p; AbiUint x] ∧ p ≠ ctCaller ct ∧ change (storeCtx s) (ctCaller ct) p x = (Ok y, storeCtx s').
Proof.
unfold allowanceMethod, ParseApproveArgs, ParseTransferArgs. destruct args as [|[] [|[] []]]; try done.
case_bool_decide as Hn; [done|]. destruct (change _ _ _ _) as [[y|] c'] eqn:Ec; [|done].
destruct (emitEvent _ _ _ _ _) as [[[]|] s1] eqn:Ee; [|done]. apply emitEvent_ok in Ee as [Es _]. intros [= E <-].
exists a, x, y. split_and!; [done|done|]. by rewrite Es, Ec.
Qed.

Lemma transfer_ok isFrom name ct from to x s bz es s' :
  transfer AccAddress validDenom evmDenom abi tp isFrom name ct from to x s = (Ok (bz, es), s') →
  0 < x ∧ (∃ prev, sendTokens AccAddress tp (storeCtx s) (ctCaller ct) from to x = (Ok prev, storeCtx s')) ∧
  es = (if decide (Denom tp = evmDenom) then
          let y := x * ConversionFactor EVMCoinDecimals in [mkBalanceChangeEntry from y Sub; mkBalanceChangeEntry to y Add]
        else []) ∧
  ∃ topics data l,
    PackLog abi "Transfer" [AbiAddress from; AbiAddress to; AbiUint
      (Z.max 0 (TokenBalance (storeCtx s') (AccAddress to) (Denom tp) - TokenBalance (storeCtx s) (AccAddress to) (Denom tp)))] =
      Ok (topics, data) ∧
    l ∈ logs s' ∧ logAddress l = tokenAddress tp ∧ Topics l = topics ∧ Data l = data.
Proof.
unfold transfer. destruct (negb _) eqn:Ev; [done|]. apply negb_false_iff in Ev as [_ Hx]%andb_prop. boolP.
destruct (sendTokens _ _ _ _ _ _ _) as [[prev|] c'] eqn:Es; [|done].
destruct (emitEvent _ _ _ _ (set_cache _ _)) as [[[]|] s1] eqn:E1; [|done].
apply emitEvent_ok in E1 as (C1 & topics & data & P1 & l & L1 & L2). cbn in C1.
destruct isFrom.
- destruct (emitEvent _ _ _ _ s1) as [[[]|] s2] eqn:E2; [|done]. apply emitEvent_ok in E2 as (C2 & ? & ? & _ & l2 & L3 & _).
  cbn [mbind result_bind]. destruct (PackOutputs _ _ _); [|done]. intros [= <- <- <-]. rewrite C2, C1.
  split_and!; [lia|by exists prev|done|]. exists topics, data, l. split; [done|]. rewrite L3, L1. split; [set_solver|done].
- cbn [mbind result_bind]. destruct (PackOutputs _ _ _); [|done]. intros [= <- <- <-]. rewrite C1.
  split_and!; [lia|by exists prev|done|]. exists topics, data, l. split; [done|]. rewrite L1. split; [set_solver|done].
Qed.

(** The methods by what they do to the grants. *)
Variant handled ct m args s s' : Prop :=
  | handled_transfer isFrom name from to x bz es :
      tokenCall m args = (if isFrom : bool then CallTransferFrom from to x else CallTransfer to x) →
      (isFrom = false → from = ctCaller ct) →
      transfer AccAddress validDenom evmDenom abi tp isFrom name ct from to x s = (Ok (bz, es), s') → handled ct m args s s'
  | handled_approve p x y : tokenCall m args = CallApprove p x → p ≠ ctCaller ct →
      approveTo AccAddress tp blockTime approvalExpiration (storeCtx s) (ctCaller ct) p x = (Ok y, storeCtx s') → handled ct m args s s'
  | handled_increase p x y : tokenCall m args = CallIncrease p x → p ≠ ctCaller ct →
      increaseBy AccAddress tp blockTime approvalExpiration (storeCtx s) (ctCaller ct) p x = (Ok y, storeCtx s') → handled ct m args s s'
  | handled_decrease p x y : tokenCall m args = CallDecrease p x → p ≠ ctCaller ct →
      decreaseBy AccAddress tp (storeCtx s) (ctCaller ct) p x = (Ok y, storeCtx s') → handled ct m args s s'
  | handled_query : tokenCall m args = CallQuery → storeCtx s' = storeCtx s → handled ct m args s s'.

Lemma HandleMethod_ok ct m args s out s' : handle ct m args s = (Ok out, s') → handled ct m args s s'.
Proof.
unfold HandleMethod. destruct out as [bz es].
case_bool_decide as E1.
{ unfold Transfer, ParseTransferArgs. destruct args as [|[] [|[] []]]; try done. intros Ht.
  eapply (handled_transfer _ _ _ _ _ false); [unfold tokenCall; by rewrite !E1|done|exact Ht]. }
case_bool_decide as E2.
{ unfold TransferFrom, ParseTransferFromArgs. destruct args as [|[] [|[] [|[] []]]]; try done. intros Ht.
  eapply (handled_transfer _ _ _ _ _ true); [unfold tokenCall; by rewrite !E2|done|exact Ht]. }
case_bool_decide as E3.
{ unfold writeMethod, readOnlyMethod, Approve. destruct (allowanceMethod _ _ _ _ _ _ _) as [[b|] s1] eqn:Ea; [|done]. intros [= _ _ <-].
  apply allowanceMethod_ok in Ea as (p & x & y & -> & Hp & Hc). eapply handled_approve; [unfold tokenCall; by rewrite !E3|done|exact Hc]. }
case_bool_decide as E4.
{ unfold writeMethod, readOnlyMethod, IncreaseAllowance. destruct (allowanceMethod _ _ _ _ _ _ _) as [[b|] s1] eqn:Ea; [|done]. intros [= _ _ <-].
  apply allowanceMethod_ok in Ea as (p & x & y & -> & Hp & Hc). eapply handled_increase; [unfold tokenCall; by rewrite !E4|done|exact Hc]. }
case_bool_decide as E5.
{ unfold writeMethod, readOnlyMethod, DecreaseAllowance. destruct (allowanceMethod _ _ _ _ _ _ _) as [[b|] s1] eqn:Ea; [|done]. intros [= _ _ <-].
  apply allowanceMethod_ok in Ea as (p & x & y & -> & Hp & Hc). eapply handled_decrease; [unfold tokenCall; by rewrite !E5|done|exact Hc]. }
intros Hq. apply handled_query.
- unfold tokenCall. destruct args as [|[] [|[] [|[] []]]]; try done; by rewrite !decide_False.
- revert Hq. unfold readOnlyMethod. repeat (case_bool_decide; [by intros [= _ <-]|]). done.
Qed.

Lemma tokenCall_nonneg m args : Forall abi_ok args →
  match tokenCall m args with
  | CallTransfer _ x | CallTransferFrom _ _ x | CallApprove _ x | CallIncrease _ x | CallDecrease _ x => 0 <= x
  | CallQuery => True
  end.
Proof.
intros Hok. unfold tokenCall. destruct args as [|[] [|[] [|[] []]]]; try done; repeat case_decide; try done;
  rewrite !Forall_cons in Hok; naive_solver.
Qed.

Lemma handle_refines ct m args s out s' :
  Forall abi_ok args → handle ct m args s = (Ok out, s') →
  ∃ t, standardAllowances (ctCaller ct) (tokenCall m args) (allowance (storeCtx s)) = Some t ∧
    implements (storeCtx s) (storeCtx s') t.
Proof.
intros Hok H1. pose proof (tokenCall_nonneg m args Hok) as Hx. apply HandleMethod_ok in H1 as [isFrom name from to x bz es E Hf Ht|p x y E Hp Hc|p x y E Hp Hc|p x y E Hp Hc|E Hc];
  rewrite E in Hx |- *; cbn [standardAllowances].
- apply transfer_ok in Ht as (_ & (prev & Hs) & _). apply sendTokens_sets in Hs as [(Hs & _ & Hm)|(Hs & _ & Hl & Hset & _)].
  + exists (allowance (storeCtx s)). split; [destruct isFrom; cbn; [by rewrite decide_True|done]|].
    apply same_implements. intros g r. by eapply send_grants.
  + destruct isFrom; [|by rewrite Hf in Hs]. cbn. rewrite decide_False by done.
    rewrite allowanceOf_limit by done. rewrite (proj2 (Z.leb_le _ _)) by exact Hl. eexists. split; [reflexivity|]. by apply sets_implements.
- apply approveTo_sets in Hc as [_ Hset]; [|done]. eexists. split; [reflexivity|]. by apply sets_implements.
- apply increaseBy_sets in Hc as (_ & -> & Hset). eexists. split; [reflexivity|].
  rewrite <- (allowanceOf_limit (storeCtx s)) in Hset by done. by apply sets_implements.
- apply decreaseBy_sets in Hc as ([_ Hl] & -> & Hset). rewrite <- (allowanceOf_limit (storeCtx s)) in Hl, Hset by done.
  rewrite (proj2 (Z.leb_le _ _)) by exact Hl. eexists. split; [reflexivity|]. by apply sets_implements.
- exists (allowance (storeCtx s)). split; [done|]. apply same_implements. by rewrite Hc.
Qed.

(** C33: The grants implement the allowance table of the standard: a method that succeeds is
    one the standard allows, afterwards every allowance is what the standard says, and
    limits in other denominations are untouched. *)
Theorem allowances_refine ct m args s out s' :
  Forall abi_ok args → handle ct m args s = (Ok out, s') →
  ∃ t, standardAllowances (ctCaller ct) (tokenCall m args) (allowance (storeCtx s)) = Some t ∧
    implements (storeCtx s) (storeCtx s') t.
Proof.
apply handle_refines.
Qed.

(** A transfer that succeeds is one send of the bank's message server, of a positive
    amount, for the owner; the event reports what arrived, and for the coin of the EVM
    both balances are reported to the state database. *)
Theorem token_transfer_effect ct m args s bz es s' from to x :
  handle ct m args s = (Ok (bz, es), s') →
  tokenCall m args = CallTransferFrom from to x ∨ (tokenCall m args = CallTransfer to x ∧ from = ctCaller ct) →
  0 < x ∧
  (∃ c, (∀ a d, TokenBalance c a d = TokenBalance (storeCtx s) a d) ∧
     MsgSendServer c (mkSendMsg (AccAddress from) (AccAddress to) (Denom tp) x) = (Ok tt, storeCtx s')) ∧
  (ctCaller ct ≠ from → x <= allowance (storeCtx s) from (ctCaller ct)) ∧
  ∃ topics data l,
    PackLog abi "Transfer" [AbiAddress from; AbiAddress to; AbiUint
      (Z.max 0 (TokenBalance (storeCtx s') (AccAddress to) (Denom tp) - TokenBalance (storeCtx s) (AccAddress to) (Denom tp)))] =
      Ok (topics, data) ∧
    l ∈ logs s' ∧ logAddress l = tokenAddress tp ∧ Topics l = topics ∧ Data l = data.
Proof.
intros H1 Hc. apply HandleMethod_ok in H1 as [isFrom name from' to' x' bz' es' E Hf Ht|p z y E|p z y E|p z y E|E];
  [|exfalso; rewrite E in Hc; by destruct Hc as [?|[? _]]..].
assert (from' = from ∧ to' = to ∧ x' = x) as (-> & -> & ->).
{ rewrite E in Hc. destruct isFrom; destruct Hc as [Hc|[Hc ->]]; simplify_eq; split_and!; auto. }
apply transfer_ok in Ht as (Hx & (prev & Hs) & _ & Hlog). split; [done|].
apply sendTokens_sets in Hs as [(Hs & _ & Hm)|(Hs & _ & Hl & _ & Hm)].
- split_and!; [by exists (storeCtx s)|done|done].
- split_and!; [done| |done]. intros _. by rewrite allowanceOf_limit.
Qed.

(** ** Sequences of calls *)
Definition spentBy (owner spender : Address) ct (call : TokenCall) : Z :=
  match call with
  | CallTransferFrom from _ x => if decide (from = owner ∧ ctCaller ct = spender) then x else 0
  | _ => 0
  end.

(** Calls that succeed, none of them by the owner, with what [spender] moved in total. *)
Inductive calls (owner spender : Address) : StateDB C → Z → StateDB C → Prop :=
  | calls_nil s : calls owner spender s 0 s
  | calls_cons s ct m args out s1 n s2 :
      Forall abi_ok args → ctCaller ct ≠ owner → handle ct m args s = (Ok out, s1) → calls owner spender s1 n s2 →
      calls owner spender s (spentBy owner spender ct (tokenCall m args) + n) s2.

Lemma call_spends owner spender ct m args s out s' :
  owner ≠ spender → Forall abi_ok args → ctCaller ct ≠ owner → handle ct m args s = (Ok out, s') →
  let x := spentBy owner spender ct (tokenCall m args) in
  allowance (storeCtx s') owner spender = allowance (storeCtx s) owner spender - x ∧
  (0 <= allowance (storeCtx s) owner spender → 0 <= x <= allowance (storeCtx s) owner spender).
Proof.
intros Hn Hok Hc H1 x. pose proof (tokenCall_nonneg m args Hok) as Hx.
assert (∃ t, standardAllowances (ctCaller ct) (tokenCall m args) (allowance (storeCtx s)) = Some t ∧
  implements (storeCtx s) (storeCtx s') t) as (t & Ht & [Hi _]) by (by eapply handle_refines).
rewrite Hi by done. subst x. unfold spentBy, tableSet in *.
destruct (tokenCall m args) as [to z|from to z|p z|p z|p z|]; cbn in Ht.
- injection Ht as <-. lia.
- case_decide as E; [injection Ht as <-; rewrite decide_False by (intros [-> _]; done); lia|].
  destruct (z <=? _) eqn:El; [|done]. boolP. injection Ht as <-. unfold tableSet.
  destruct (decide (from = owner ∧ ctCaller ct = spender)) as [[-> <-]|Hd]; [rewrite decide_True by done; lia|].
  rewrite decide_False by naive_solver. lia.
- injection Ht as <-. unfold tableSet. rewrite decide_False by naive_solver. lia.
- injection Ht as <-. unfold tableSet. rewrite decide_False by naive_solver. lia.
- destruct (z <=? _); [|done]. injection Ht as <-. unfold tableSet. rewrite decide_False by naive_solver. lia.
- injection Ht as <-. lia.
Qed.

(** However the calls of others are mixed, a spender moves exactly what its allowance
    loses, so never more than the owner had allowed. *)
Theorem spending_within_allowance owner spender s n s' :
  owner ≠ spender → calls owner spender s n s' → 0 <= allowance (storeCtx s) owner spender →
  allowance (storeCtx s') owner spender = allowance (storeCtx s) owner spender - n ∧
  0 <= n <= allowance (storeCtx s) owner spender.
Proof.
intros Hn. induction 1 as [s|s ct m args out s1 n s2 Hok Hc Hh _ IH]; intros Hal; [lia|].
destruct (call_spends _ spender _ _ _ _ _ _ Hn Hok Hc Hh) as [E1 E2]. specialize (E2 Hal). destruct IH; lia.
Qed.

(** ** A transfer that fails *)
Lemma RevertToSnapshot_nothing s t :
  Forall (fun v => id v < nextRevisionID s) (validRevisions s) →
  entries t = entries s → validRevisions t = validRevisions (Snapshot s).2 →
  ∃ u, RevertToSnapshot (Snapshot s).1 t = Ok u ∧ storeCtx u = storeCtx t.
Proof.
intros Hid He Hv. unfold RevertToSnapshot. rewrite Hv. cbn [Snapshot fst snd validRevisions set_revisions].
assert (Hs : search (nextRevisionID s) (validRevisions s ++ [mkRevision (nextRevisionID s) (length (entries s))]) = length (validRevisions s)).
{ induction Hid as [|v vs Hlt _ IH]; cbn; [by rewrite Z.leb_refl|]. rewrite (proj2 (Z.leb_gt _ _)) by lia. by rewrite IH. }
rewrite Hs, list_lookup_middle by done. cbn [id journalIndex]. rewrite Z.eqb_refl.
unfold journalRevert. rewrite He, drop_all. cbn [rev revertLoop mbind result_bind]. eexists. split; [reflexivity|]. done.
Qed.

Lemma RunSetup_entries s sn t : RunSetup s = (Ok sn, t) → entries t = entries s ∧ validRevisions t = validRevisions s.
Proof.
unfold RunSetup, GetCacheContext, MultiStoreSnapshot. destruct (cacheCtx s) eqn:Ec; cbn.
- unfold GetCacheContext. rewrite Ec. unfold CommitWithCacheCtx. rewrite Ec. destruct (commitWithCtx _ _) as [[]]; by intros [= _ <-].
- unfold CommitWithCacheCtx. cbn. destruct (commitWithCtx _ _) as [[]]; by intros [= _ <-].
Qed.

Variable storeGas : StateDB C → StateDB C → Z.

(** When the dispatched send fails, the call fails and its frame is reverted; what the
    authorization module had written before the send (a smaller allowance, or none)
    stays in the context the transaction commits. *)
Theorem failed_spend_survives s sn s1 ct input readOnly m args from to x a e allowed err c1 :
  Forall (fun v => id v < nextRevisionID s) (validRevisions s) → ctValue ct = Some 0 →
  RunSetup (Snapshot s).2 = (Ok sn, s1) →
  decodeCall abi erc20IsTransaction (Some 0) readOnly input = Ok (m, args) →
  methodName m = "transferFrom"%string → args = [AbiAddress from; AbiAddress to; AbiUint x] → ctCaller ct ≠ from →
  validDenom (Denom tp) = true → 0 < x →
  GetAuthzExpirationAndAllowance AccAddress tp (storeCtx s1) (ctCaller ct) from = Ok (a, e, allowed) →
  DispatchActions (storeCtx s1) (AccAddress (ctCaller ct)) (mkSendMsg (AccAddress from) (AccAddress to) (Denom tp) x) = (Err err, c1) →
  ∃ s2 s3,
    erc20Run AccAddress validDenom evmDenom abi tp blockTime approvalExpiration storeGas ct input readOnly (Snapshot s).2 =
      (Err (ConvertErrToERC20Error err), s2) ∧
    RevertToSnapshot (Snapshot s).1 s2 = Ok s3 ∧ storeCtx s3 = c1.
Proof.
intros Hid Hv Hr Hdec Hm Hargs Hn Hd Hx Hg Hdis. exists (set_cache (Some c1) s1).
pose proof (RunSetup_entries _ _ _ Hr) as [E1 E2].
destruct (RevertToSnapshot_nothing s (set_cache (Some c1) s1)) as (u & Hu & Hc); [done|exact E1|exact E2|].
exists u. split_and!; [|exact Hu|exact Hc].
unfold erc20Run, runStateful. rewrite Hv, Hr. cbn [pAbi pIsTransaction pHandle erc20Precompile Z.ltb Z.compare].
rewrite Hdec. unfold HandleMethod. rewrite Hm. cbn [bool_decide]. rewrite bool_decide_eq_false_2, bool_decide_eq_true_2 by done.
unfold TransferFrom, ParseTransferFromArgs. rewrite Hargs. unfold transfer. rewrite Hd, (proj2 (Z.ltb_lt 0 x) Hx). cbn [andb negb].
unfold sendTokens. rewrite bool_decide_eq_false_2 by done. by rewrite Hg, Hdis.
Qed.
End allowances.
