(* ===== verification/PrecompileExample.v ===== *)
(** * Precompiled contracts: concrete runs

    A chain state on which the theorems on the precompiles of x/atox and of tokens are
    evaluated. *)

From stdpp Require Import gmap strings list pretty.
From Stdlib Require Import ZArith Lia Ascii.
From S2P Require Import Prelude SdkMath Bank AtoxIndex AtoxKeeper AtoxMachine VestingSchedule EvmStateDB EvmJournal EvmVM PrecompileRun AtoxPrecompile Erc20Types Erc20Keeper TokenPrecompile TokenAllowance.

Open Scope Z_scope.

Module PrecompileExample.
#[local] Existing Instance bankers_dec.
#[export] Instance env : EvmEnv := {| Keccak256 _ := zeroHash; EVMCoinDecimals := 18 |}.
Definition cfg : TxConfig := mkTxConfig zeroHash zeroHash 0 0.
Definition everyone : AccessControlType := mkAccessControlType AccessTypePermissionless [].

(** Every account exists; the examples change none through the state database. *)
#[export] Instance accounts (C : Type) : StateKeeper C := {
  GetAccount _ _ := Some (mkAccount 0 0 zeroHash);
  KGetState _ _ _ := zeroHash;
  KGetCode _ _ := None;
  KForEachStorage _ _ := [];
  SetAccount c _ _ := (Ok tt, c);
  DeleteState c _ _ := c;
  KSetState c _ _ _ := c;
  DeleteCode c _ := c;
  KSetCode c _ _ := c;
  DeleteAccount c _ := (Ok tt, c);
}.

(** Methods are named by their first four letters. *)
Definition prefixAbi (names : list string) (inputs : string → list AbiValue) : Abi := {|
  MethodById i :=
    match filter (fun n => String.substring 0 4 n = i) names with n :: _ => Ok n | [] => Err (Plain "no method") end;
  UnpackInputs _ i := Ok (inputs i);
  PackOutputs _ vs := Ok (match vs with [AbiUint x] => pretty x | _ => "true"%string end);
  PackLog _ _ := Ok ([], ""%string);
  HasReceive := false;
  HasFallback := false;
|}.

(** ** A claim *)
Definition atoxCtx : Type := ledger * AtoxStore.
#[export] Instance wholeCtx : Part atoxCtx (ledger * AtoxStore) := {| view c := c; update x _ := x |}.
#[export] Instance wholeLaws : PartLaws wholeCtx.
Proof. by split. Qed.

Definition atoxAbi : Abi := prefixAbi ["claim"%string] (fun _ => []).
Definition atoxSelf : Address := "atox".
Definition claimSetup : EVMSetup :=
  mkEVMSetup (mkRules true true true true) "alice" (mkAccessControl everyone everyone)
    (fun a => Ok (bool_decide (a = atoxSelf))) (fun _ _ => "new"%string) (fun _ _ _ => "new2"%string).
Definition noCode : Contract → string → bool → EVM atoxCtx → outcome * EVM atoxCtx := fun _ _ _ e => ((""%string, 0, None), e).
Definition atoxAt : Stateful :=
  atoxPrecompile (part := wholeCtx) AtoxChain.keeper (fun a => a) atoxAbi atoxSelf "alice".
Definition atoxRuns (a : Address) : Contract → string → bool → EVM atoxCtx → outcome * EVM atoxCtx := asPrecompile (fun _ _ => 0) atoxAt.
Definition before : EVM atoxCtx := mkEVM (New (AtoxChain.b2, AtoxChain.s2) cfg) ∅.
Definition claimed : result (outcome * EVM atoxCtx) :=
  Call claimSetup 0 noCode (fun _ _ => 0) atoxRuns "alice" atoxSelf "claim" 100 0 before.


(** ** A token

    The grants next to the balances; a dispatched message is charged to the grant before
    it is sent, as the SDK does it. *)
Record tokens := mkTokens { tBalances : gmap (addr * denom) Z; tGrants : gmap (addr * addr) (Authorization * option Z) }.

Definition balanceIn (w : tokens) (a : addr) (d : denom) : Z := default 0 (tBalances w !! (a, d)).
Definition sendIn (w : tokens) (m : SendMsg) : result unit * tokens :=
  if balanceIn w (sFrom m) (sDenom m) <? sAmount m then (Err (Plain "spendable balance is smaller: insufficient funds"), w)
  else
    let b := <[(sFrom m, sDenom m) := balanceIn w (sFrom m) (sDenom m) - sAmount m]> (tBalances w) in
    let w := mkTokens b (tGrants w) in
    (Ok tt, mkTokens (<[(sTo m, sDenom m) := balanceIn w (sTo m) (sDenom m) + sAmount m]> b) (tGrants w)).
Definition dispatchIn (w : tokens) (g : addr) (m : SendMsg) : result unit * tokens :=
  match tGrants w !! (g, sFrom m) with
  | None => (Err ErrNoAuthorizationFound, w)
  | Some (OtherAuthorization, _) => sendIn w m
  | Some (SendAuthorization l al, e) =>
      let '(rest, hasNeg) := SafeSub l {[sDenom m := sAmount m]} in
      if hasNeg then (Err (Plain "requested amount is more than spend limit"), w)
      else if negb (bool_decide (al = []) || bool_decide (sTo m ∈ al)) then (Err (Plain "cannot send to this address"), w)
      else
        let gs := if IsZero rest then delete (g, sFrom m) (tGrants w)
                  else <[(g, sFrom m) := (SendAuthorization rest al, e)]> (tGrants w) in
        sendIn (mkTokens (tBalances w) gs) m
  end.

#[export] Instance tokenKeepers : TokenKeepers tokens := {
  TokenBalance := balanceIn;
  TokenSupply _ _ := 100;
  GetDenomMetaData _ _ := None;
  MsgSendServer := sendIn;
  GetAuthorization w g r := tGrants w !! (g, r);
  SaveGrant w g r a e := (Ok tt, mkTokens (tBalances w) (<[(g, r) := (a, e)]> (tGrants w)));
  DeleteGrant w g r := (Ok tt, mkTokens (tBalances w) (delete (g, r) (tGrants w)));
  DispatchActions := dispatchIn;
  SendAuthorization_ValidateBasic _ _ := Ok tt;
  ParseHexHash _ := Err (Plain "hex");
  GetDenomTrace _ _ := None;
  registeredString m _ := m;
}.

Lemma sendIn_grants w m w' : sendIn w m = (Ok tt, w') → tGrants w' = tGrants w.
Proof. unfold sendIn. destruct (_ <? _); [done|]. by intros [= <-]. Qed.

#[export] Instance tokenLaws : TokenLaws tokenKeepers.
Proof.
split; cbn [GetAuthorization SaveGrant DeleteGrant MsgSendServer DispatchActions TokenBalance tokenKeepers].
- intros w g r a e w' [= <-]. cbn. split; [by rewrite lookup_insert_eq|]. intros g' r' Hn. by rewrite lookup_insert_ne.
- intros w g r w' [= <-]. cbn. split; [by rewrite lookup_delete_eq|]. intros g' r' Hn. by rewrite lookup_delete_ne.
- intros w m w' g r ->%sendIn_grants. done.
- intros w g m w' l al e Hn Hg. unfold dispatchIn. rewrite Hg. destruct (SafeSub _ _) as [rest []]; [done|].
  destruct (negb _); [done|]. set (gs := if IsZero rest then _ else _). intros Hs. pose proof (sendIn_grants _ _ _ Hs) as E. cbn in E.
  split; [done|]. rewrite E. split_and!.
  + unfold gs. destruct (IsZero rest); [by rewrite lookup_delete_eq|by rewrite lookup_insert_eq].
  + intros g' r' Hne. unfold gs. destruct (IsZero rest); [by rewrite lookup_delete_ne|by rewrite lookup_insert_ne].
  + eexists. split; [|exact Hs]. done.
Qed.

#[export] Instance names : EthAddresses := {| IsHexAddress _ := true; HexToAddress s := s; AddressHex a := a |}.
#[export] Instance same_inj : Inj (=) (=) (fun a : Address => a).
Proof. intros x y E. exact E. Qed.

Definition coin : TokenPair := mkTokenPair "token" "coin" true OWNER_EXTERNAL.
Definition tokenAbi : Abi :=
  prefixAbi ["approve"; "transferFrom"]%string
    (fun i => if decide (i = "ove"%string) then [AbiAddress "bob"; AbiUint 50] else [AbiAddress "alice"; AbiAddress "carol"; AbiUint 30]).
Abbreviation token := (HandleMethod (fun a => a) (fun _ => true) "liao" tokenAbi coin 0 100).
Definition by_ (caller : Address) : Contract := mkContract caller "token" (Some 0) 100 "token" None false.

(** Alice has 40 coins and lets bob spend 50. *)
Definition t0 : StateDB tokens := New (mkTokens {[("alice", "coin")%string := 40]} ∅) cfg.
Definition approveArgs : list AbiValue := [AbiAddress "bob"; AbiUint 50].
Definition spendArgs : list AbiValue := [AbiAddress "alice"; AbiAddress "carol"; AbiUint 30].
Definition t1 : StateDB tokens := (token (by_ "alice") (Function "approve") approveArgs t0).2.
Definition t2 : StateDB tokens := (token (by_ "bob") (Function "transferFrom") spendArgs t1).2.

Lemma approved : token (by_ "alice") (Function "approve") approveArgs t0 = (Ok ("true"%string, []), t1).
Proof. vm_compute. reflexivity. Qed.
Lemma spent : token (by_ "bob") (Function "transferFrom") spendArgs t1 = (Ok ("true"%string, []), t2).
Proof. vm_compute. reflexivity. Qed.
Lemma spend_args_ok : Forall abi_ok spendArgs.
Proof. repeat constructor; cbn; lia. Qed.

Lemma allowances_refine_witness :
  token (by_ "bob") (Function "transferFrom") spendArgs t1 = (Ok ("true"%string, []), t2) ∧
  allowanceOf (fun a => a) coin (storeCtx t2) "alice" "bob" = 20.
Proof.
split; [exact spent|].
assert (E1 : allowanceOf (fun a => a) coin (storeCtx t1) "alice" "bob" = 50) by (vm_compute; reflexivity).
destruct (allowances_refine (fun a => a) (fun _ => true) "liao" tokenAbi coin 0 100 (by_ "bob") (Function "transferFrom") spendArgs t1
  ("true"%string, []) t2 spend_args_ok spent) as (t & Ht & [Hi _]).
assert (Hcall : tokenCall (Function "transferFrom") spendArgs = CallTransferFrom "alice" "carol" 30) by reflexivity.
rewrite Hi by discriminate. rewrite Hcall in Ht. cbn [standardAllowances by_ ctCaller] in Ht.
rewrite decide_False, E1 in Ht by discriminate. injection Ht as <-. reflexivity.
Defined.

Lemma spending_within_allowance_witness :
  calls (fun a => a) (fun _ => true) "liao" tokenAbi coin 0 100 "alice" "bob" t1 (30 + 0) t2 ∧
  allowanceOf (fun a => a) coin (storeCtx t2) "alice" "bob" = 50 - (30 + 0).
Proof.
assert (E1 : allowanceOf (fun a => a) coin (storeCtx t1) "alice" "bob" = 50) by (vm_compute; reflexivity).
assert (R : calls (fun a => a) (fun _ => true) "liao" tokenAbi coin 0 100 "alice" "bob" t1 (30 + 0) t2).
{ refine (calls_cons _ _ _ _ _ _ _ _ _ t1 (by_ "bob") (Function "transferFrom") spendArgs _ t2 0 t2 spend_args_ok _ spent (calls_nil _ _ _ _ _ _ _ _ _ t2)).
  discriminate. }
split; [exact R|]. rewrite <- E1.
refine (proj1 (spending_within_allowance (fun a => a) (fun _ => true) "liao" tokenAbi coin 0 100 "alice" "bob" t1 (30 + 0) t2 _ R _)); [discriminate|].
rewrite E1. lia.
Defined.

Lemma token_transfer_effect_witness :
  token (by_ "bob") (Function "transferFrom") spendArgs t1 = (Ok ("true"%string, []), t2) ∧
  ∃ c, MsgSendServer c (mkSendMsg "alice" "carol" "coin" 30) = (Ok tt, storeCtx t2).
Proof.
split; [exact spent|].
destruct (token_transfer_effect (fun a => a) (fun _ => true) "liao" tokenAbi coin 0 100 (by_ "bob") (Function "transferFrom") spendArgs t1
  "true" [] t2 "alice" "carol" 30 spent (or_introl eq_refl)) as (_ & (c & _ & Hm) & _).
exists c. exact Hm.
Defined.

(** Alice has sent her coins away in the meantime, and bob tries to spend. *)
Definition poor : StateDB tokens := set_cache None (set_ctx (mkTokens ∅ (tGrants (storeCtx t1))) (New (storeCtx t1) cfg)).
Definition failedSpend : error := Plain "spendable balance is smaller: insufficient funds".
Definition setUp : StateDB tokens := (RunSetup (Snapshot poor).2).2.
Definition charged : tokens :=
  (dispatchIn (storeCtx setUp) "bob" (mkSendMsg "alice" "carol" "coin" 30)).2.

Lemma failed_spend_survives_witness :
  allowanceOf (fun a => a) coin (storeCtx poor) "alice" "bob" = 50 ∧
  ∃ s2 s3,
    erc20Run (fun a => a) (fun _ => true) "liao" tokenAbi coin 0 100 (fun _ _ => 0) (by_ "bob") "tran" false (Snapshot poor).2 =
      (Err (ConvertErrToERC20Error failedSpend), s2) ∧
    RevertToSnapshot (Snapshot poor).1 s2 = Ok s3 ∧ allowanceOf (fun a => a) coin (storeCtx s3) "alice" "bob" = 20.
Proof.
assert (E1 : allowanceOf (fun a => a) coin (storeCtx poor) "alice" "bob" = 50) by (vm_compute; reflexivity).
assert (E2 : allowanceOf (fun a => a) coin charged "alice" "bob" = 20) by (vm_compute; reflexivity).
assert (E3 : DispatchActions (storeCtx setUp) "bob" (mkSendMsg "alice" "carol" "coin" 30) = (Err failedSpend, charged)) by (vm_compute; reflexivity).
assert (E4 : RunSetup (Snapshot poor).2 = (Ok (ctx poor), setUp)) by (vm_compute; reflexivity).
assert (E5 : decodeCall tokenAbi erc20IsTransaction (Some 0) false "tran" = Ok (Function "transferFrom", spendArgs)) by (vm_compute; reflexivity).
assert (E6 : GetAuthzExpirationAndAllowance (fun a => a) coin (storeCtx setUp) "bob" "alice" =
  Ok (SendAuthorization {[ "coin"%string := 50 ]} [], Some 100, 50)) by (vm_compute; reflexivity).
split; [exact E1|].
destruct (failed_spend_survives (fun a => a) (fun _ => true) "liao" tokenAbi coin 0 100 (fun _ _ => 0) poor (ctx poor) setUp (by_ "bob") "tran" false
  (Function "transferFrom") spendArgs "alice" "carol" 30 (SendAuthorization {[ "coin"%string := 50 ]} []) (Some 100) 50 failedSpend charged)
  as (s2 & s3 & H1 & H2 & H3); [constructor|reflexivity|exact E4|exact E5|reflexivity|reflexivity|discriminate|reflexivity|lia|exact E6|exact E3|].
exists s2, s3. split; [exact H1|]. split; [exact H2|]. rewrite H3. exact E2.
Defined.
End PrecompileExample.
