(* ===== verification/BridgePrecompile.v ===== *)
(** * precompiles/bridgeadapter: outbound transfers from the EVM

    Models bridgeadapter.go and tx.go.  The only method is refused unless the caller is
    the signer; a transaction that calls it directly commits exactly what the signer's
    [MsgBridgeOut] does. *)

From stdpp Require Import gmap strings list pretty.
From Stdlib Require Import ZArith Lia.
From S2P Require Import Prelude BridgePayload BridgeLimits BridgeKeeper EvmStateDB EvmJournal EvmVM PrecompileRun AtoxPrecompile.

Open Scope Z_scope.

Definition BridgeOutMethod : string := "bridgeOut".
Definition EventTypeBridgeOut : string := "BridgeOut".

(** [copy(out[32-min(len(id), 32):], id)] into 32 zero bytes. *)
Definition messageID (msgId : list Byte.byte) : list Byte.byte :=
  let n := Nat.min (length msgId) 32 in replicate (32 - n) Byte.x00 ++ take n msgId.

Section bridge.
Context `{EvmEnv} {C W : Type} `{BridgeEnv W} `{K : StateKeeper C}.
Context {part : Part C (W * BridgeStore)}.
Variable k : Keeper.
Variable block : Ctx.
Variable AccAddress : Address → addr.
Variable AccString : addr → string.      (** [sdk.AccAddress.String] *)
Variable abi : Abi.
Variable self : Address.
Variable origin : Address.
Implicit Types (s : StateDB C) (args : list AbiValue).

(** The message the call stands for. *)
Definition bridgeOutMsg args : result MsgBridgeOut :=
  match args with
  | [x; y; z] =>
      match x with
      | AbiBytes32 recipient =>
          guard! negb (bool_decide (recipient = replicate 32 Byte.x00)) else Plain "recipient cannot be zero";
          match y with
          | AbiUint amount =>
              match z with
              | AbiUint maxFee =>
                  guard! negb ((amount <? 0) || (maxFee <? 0)) else Plain "must fit in a signed 256-bit integer";
                  guard! negb ((0 <? maxFee) && bool_decide (BaseDenom = ""%string)) else Plain "base denom is not set";
                  Ok (mkMsgBridgeOut (AccString (AccAddress origin)) recipient amount
                        (if 0 <? maxFee then NewCoins BaseDenom maxFee else []))
              | _ => Err (Plain "invalid maxFeeAmount")
              end
          | _ => Err (Plain "invalid amount")
          end
      | _ => Err (Plain "invalid recipient")
      end
  | _ => Err ErrInvalidNumberOfArgs
  end.

Definition BridgeOutCall (ct : Contract) args s : result string * StateDB C :=
  if negb (length args =? 3)%nat then (Err ErrInvalidNumberOfArgs, s)
  else if negb (bool_decide (ctCaller ct = origin)) then (Err ErrCallerNotOrigin, s)
  else
    match bridgeOutMsg args with
    | Err e => (Err e, s)
    | Ok msg =>
        let '(w, st) := view (storeCtx s) in
        match BridgeOut k block w st msg with
        | (Err e, x) => (Err e, updateCtx x s)
        | (Ok (msgId, erc20Amount), x) =>
            let s := updateCtx x s in
            match emitEvent self abi EventTypeBridgeOut
                    [AbiAddress origin; AbiBytes32 (mRecipient msg); AbiUint (mAmount msg); AbiUint erc20Amount;
                     AbiBytes32 (messageID msgId)] s with
            | (Err e, s) => (Err e, s)
            | (Ok _, s) => (PackOutputs abi BridgeOutMethod [AbiBytes32 (messageID msgId); AbiUint erc20Amount], s)
            end
        end
    end.

Definition bridgeIsTransaction (name : string) : bool := bool_decide (name = BridgeOutMethod).

Definition bridgeHandle (ct : Contract) (m : CalledMethod) args s : result (string * list balanceChangeEntry) * StateDB C :=
  if positiveValue ct then (Err ErrNotPayable, s)
  else
    let '(r, s) :=
      if bool_decide (methodName m = BridgeOutMethod) then BridgeOutCall ct args s
      else (Err ErrUnknownMethod, s) in
    (bz ← r; Ok (bz, []), s).

Definition bridgePrecompile : Stateful := mkStateful self abi bridgeIsTransaction bridgeHandle.

Context {partLaws : PartLaws part}.

Lemma BridgeOutCall_ok ct args s bz s' :
  BridgeOutCall ct args s = (Ok bz, s') →
  ctCaller ct = origin ∧ ∃ msg msgId erc20Amount x, bridgeOutMsg args = Ok msg ∧
    BridgeOut k block (view (storeCtx s)).1 (view (storeCtx s)).2 msg = (Ok (msgId, erc20Amount), x) ∧
    PackOutputs abi BridgeOutMethod [AbiBytes32 (messageID msgId); AbiUint erc20Amount] = Ok bz ∧
    storeCtx s' = update x (storeCtx s) ∧ ctx s' = ctx s ∧ dirties s' = dirties s ∧ stateObjects s' = stateObjects s.
Proof.
unfold BridgeOutCall. destruct (negb (_ =? _)%nat); [done|]. case_bool_decide as Ho; [|done]. cbn [negb].
destruct (bridgeOutMsg args) as [msg|]; [|done]. destruct (view _) as [w st] eqn:Ev.
destruct (BridgeOut _ _ _ _ _) as [[[msgId erc20Amount]|] x] eqn:Eb; [|done].
unfold emitEvent. destruct (PackLog _ _ _) as [[topics data]|]; [|done].
intros [= E <-]. split; [done|]. exists msg, msgId, erc20Amount, x. split_and!; done.
Qed.

Lemma bridgeHandle_silent : silent bridgePrecompile.
Proof.
intros ct m args s bz es s'. cbn [pHandle bridgePrecompile]. unfold bridgeHandle. destruct (positiveValue ct); [done|].
case_bool_decide; [|done]. destruct (BridgeOutCall ct args s) as [[b|] s1] eqn:Ec; [|done].
apply BridgeOutCall_ok in Ec as (_ & ? & ? & ? & ? & _ & _ & _ & _ & E1 & E2 & E3). intros [= <- <- <-]. by split_and!.
Qed.

Variable storeGas : StateDB C → StateDB C → Z.
Variables (setup : EVMSetup) (depth : Z) (interpreterRun : Contract → string → bool → EVM C → outcome * EVM C).
Variables (RequiredGas : Address → string → Z) (precompileRun : Address → Contract → string → bool → EVM C → outcome * EVM C).
Hypothesis loaded : precompileRun self = asPrecompile storeGas bridgePrecompile.
Hypothesis active : GetPrecompileInstance setup self = Ok true.

(** A transaction whose call of the bridge precompile succeeds commits exactly the state
    that a [MsgBridgeOut] of the signer leaves, with a recipient that is not zero, and
    returns the identifier of the message and the amount requested on Ethereum. *)
Theorem bridge_transaction input gas e ret gas' e' :
  cacheCtx (evmDB e) = None → dirties (evmDB e) = ∅ → known self (evmDB e) → known origin (evmDB e) →
  Call setup depth interpreterRun RequiredGas precompileRun origin self input gas 0 e = Ok (ret, gas', None, e') →
  let c := ctx (evmDB e) in
  ∃ msg msgId erc20Amount x, mSender msg = AccString (AccAddress origin) ∧ mRecipient msg ≠ replicate 32 Byte.x00 ∧ 0 <= mAmount msg ∧
    BridgeOut k block (view c).1 (view c).2 msg = (Ok (msgId, erc20Amount), x) ∧
    PackOutputs abi BridgeOutMethod [AbiBytes32 (messageID msgId); AbiUint erc20Amount] = Ok ret ∧
    ∃ s, Commit (evmDB e') = (Ok tt, s) ∧ ctx s = update x c.
Proof.
intros Hc Hd Ks Ko Hcall c.
apply (direct_call storeGas setup depth interpreterRun RequiredGas precompileRun bridgePrecompile) in Hcall
  as (ct & m & args & s & s1 & H1 & H2 & H3 & H4 & H5 & H6); try done; [|exact bridgeHandle_silent].
cbn [pHandle bridgePrecompile] in H5. unfold bridgeHandle, positiveValue in H5. rewrite H2 in H5. cbn [Z.ltb Z.compare] in H5.
case_bool_decide; [|done]. destruct (BridgeOutCall ct args s) as [[bz|] s2] eqn:Ec; [|done]. injection H5 as <- <-.
apply BridgeOutCall_ok in Ec as (_ & msg & msgId & amount & x & Em & Eb & Ep & Es & _). rewrite H4 in Eb, Es.
exists msg, msgId, amount, x.
assert (Hm : mSender msg = AccString (AccAddress origin) ∧ mRecipient msg ≠ replicate 32 Byte.x00 ∧ 0 <= mAmount msg).
{ unfold bridgeOutMsg in Em. destruct args as [|[] [|[] [|[] []]]]; try done; apply guard_Ok in Em as [G1 Em]; try done.
  apply guard_Ok in Em as [G2 Em]. apply guard_Ok in Em as [_ [= <-]]. cbn. split_and!; [done| |].
  - intros E. subst. by rewrite bool_decide_eq_true_2 in G1.
  - destruct (_ <? 0) eqn:E in G2; [done|]. boolP. lia. }
destruct Hm as (M1 & M2 & M3). split_and!; try done. eexists. split; [exact H6|]. exact Es.
Qed.
End bridge.

(** ** The bridge precompile on a concrete chain

    The genesis of [ChainExample], and a transaction of alice that calls [bridgeOut]. *)

From S2P Require Import Bank Chain ChainSafety ChainExample PrecompileExample.

Module BridgeCall.
Import SmallChain PrecompileExample.
#[local] Existing Instance SdkMath.bankers_dec.

Definition bridgeCtx : Type := BridgeWorld ledger Z * BridgeStore.
#[export] Instance wholeBridge : Part bridgeCtx (BridgeWorld ledger Z * BridgeStore) := {| view c := c; update x _ := x |}.

Definition bridgeAbi : Abi := prefixAbi ["bridgeOut"%string] (fun _ => [AbiBytes32 (word 7); AbiUint 1000; AbiUint 0]).
Definition bridgeSelf : Address := "bridge".
Definition outSetup : EVMSetup :=
  mkEVMSetup (mkRules true true true true) "alice" (mkAccessControl everyone everyone)
    (fun a => Ok (bool_decide (a = bridgeSelf))) (fun _ _ => "new"%string) (fun _ _ _ => "new2"%string).
Definition noContract : Contract → string → bool → EVM bridgeCtx → outcome * EVM bridgeCtx := fun _ _ _ e => ((""%string, 0, None), e).
#[local] Instance chainEnv : BridgeEnv (BridgeWorld ledger Z) := benv.
Definition bridgeAt : Stateful :=
  bridgePrecompile (part := wholeBridge) kb ctx1 (fun a => a) (fun a => a) bridgeAbi bridgeSelf "alice".
Definition bridgeRuns (a : Address) : Contract → string → bool → EVM bridgeCtx → outcome * EVM bridgeCtx :=
  asPrecompile (fun _ _ => 0) bridgeAt.
Definition beforeOut : EVM bridgeCtx := mkEVM (New (asBridge c0, cBridge c0) PrecompileExample.cfg) ∅.
Definition bridged : result (outcome * EVM bridgeCtx) :=
  Call outSetup 0 noContract (fun _ _ => 0) bridgeRuns "alice" bridgeSelf "bridge" 100 0 beforeOut.

Lemma bridge_transaction_witness :
  ∃ msg msgId erc20Amount x, mSender msg = "alice"%string ∧
    BridgeOut kb ctx1 (asBridge c0) (cBridge c0) msg = (Ok (msgId, erc20Amount), x).
Proof.
assert (Hok : match bridged with Ok (_, _, None, _) => true | _ => false end = true) by (vm_compute; reflexivity).
assert (∃ ret gas e', bridged = Ok (ret, gas, None, e')) as (ret & gas & e' & E).
{ destruct bridged as [[[[ret gas] [x|]] e']|]; try discriminate Hok. exists ret, gas, e'. reflexivity. }
destruct (bridge_transaction kb ctx1 (fun a => a) (fun a => a) bridgeAbi bridgeSelf "alice" (fun _ _ => 0) outSetup 0 noContract (fun _ _ => 0) bridgeRuns
  eq_refl eq_refl "bridge" 100 beforeOut ret gas e') as (msg & msgId & amount & x & H1 & _ & _ & H2 & _);
  [reflexivity|reflexivity|right; eexists; reflexivity|right; eexists; reflexivity|exact E|].
exists msg, msgId, amount, x. split; [exact H1|exact H2].
Defined.
End BridgeCall.
