(* ===== verification/FeeChecker.v ===== *)
(** * app/ante/evm/fee_checker.go: the dynamic fee of Cosmos transactions

    The fee checker that app.go gives to the fee decorator: the price of a transaction is
    its base fee plus its tip, at most the price it declares. *)

From stdpp Require Import base list strings.
From Stdlib Require Import ZArith Lia.
From S2P Require Import Prelude SdkMath FeeMarket.

Open Scope Z_scope.

Definition MaxInt64 : Z := 2 ^ 63 - 1.
Definition ErrInsufficientFee : error := Registered "sdk" 13.
Definition ErrInvalidRequest : error := Registered "sdk" 18.
Definition ErrTxDecode : error := Registered "sdk" 2.

(** What the checker reads of an [sdk.FeeTx]: its gas, its fee, and the price of each
    [ExtensionOptionDynamicFeeTx] among its options (nil or not). *)
Record FeeTx := mkFeeTx { txGas : Z; txFee : coins; dynamicFeeOptions : list (option Dec) }.

(** What it reads of the context: height, mode and the validator's own prices. *)
Record TxFeeCtx := mkTxFeeCtx { fcHeight : Z; IsCheckTx : bool; MinGasPrices : list (denom * Dec) }.

Section checker.
Context {D : LegacyDecOps}.
Variable evmDenom : denom.
Variable IsLondon : Z → bool.                    (** of the chain configuration, at a height *)
Variable DefaultPriorityReduction : Z.

Definition asInt64 (x : Z) : Z := if (- 2 ^ 63 <=? x) && (x <=? MaxInt64) then x else MaxInt64.

(** [Int.QuoRaw] panics on zero. *)
Fixpoint priorityLoop (gas : Z) (fees : coins) (priority : Z) : Z :=
  match fees with
  | [] => priority
  | (_, x) :: fees =>
      let p := asInt64 (Z.quot (Z.quot x gas) DefaultPriorityReduction) in
      priorityLoop gas fees (if (priority =? 0) || (p <? priority) then p else priority)
  end.
Definition getTxPriority (fees : coins) (gas : Z) : result Z :=
  if bool_decide (fees = []) then Ok 0
  else if gas =? 0 then Err (Plain "division by zero")
  else Ok (priorityLoop gas fees 0).

(** [Coins.IsAnyGTE] *)
Definition IsAnyGTE (cs required : coins) : bool :=
  existsb (fun '(d, x) => negb (AmountOf required d =? 0) && (AmountOf required d <=? x)) cs.

Definition checkTxFeeWithValidatorMinGasPrices (ctx : TxFeeCtx) (tx : FeeTx) : result (coins * Z) :=
  let gas := i64 (txGas tx) in
  let requiredFees := map (fun '(d, price) => (d, TruncateInt (Ceil (Dec_Mul price (NewDec gas))))) (MinGasPrices ctx) in
  guard! negb (IsCheckTx ctx && negb (forallb (fun '(_, price) => price =? 0) (MinGasPrices ctx)) && negb (IsAnyGTE (txFee tx) requiredFees))
    else ErrInsufficientFee;
  priority ← getTxPriority (txFee tx) gas;
  Ok (txFee tx, priority).

Definition effectiveGasPriceLegacyDec (baseFee feeCap tipCap : Dec) : Dec := Z.min (tipCap + baseFee) feeCap.

(** The first option counts. *)
Definition maxPriorityPrice (tx : FeeTx) : Dec :=
  match dynamicFeeOptions tx with
  | [] => NewDec MaxInt64
  | x :: _ => default ZeroDec x
  end.

Definition feeChecker (ctx : TxFeeCtx) (fees : FeeStore) (tx : FeeTx) : result (coins * Z) :=
  if negb (IsLondon (fcHeight ctx)) then checkTxFeeWithValidatorMinGasPrices ctx tx
  else
    let baseFee := default ZeroDec (GetBaseFee fees) in
    let maxPriorityPrice := maxPriorityPrice tx in
    guard! negb (maxPriorityPrice <? 0) else ErrInsufficientFee;
    let gas := txGas tx in
    guard! negb (gas =? 0) else ErrInvalidRequest;
    let feeAmtDec := NewDec (AmountOf (txFee tx) evmDenom) in
    let feeCap := Dec_QuoInt feeAmtDec gas in
    guard! negb (feeCap <? baseFee) else ErrInsufficientFee;
    let effectivePrice := effectiveGasPriceLegacyDec baseFee feeCap maxPriorityPrice in
    let effectiveFee := [(evmDenom, TruncateInt (Ceil (MulInt effectivePrice gas)))] in
    let priorityInt := TruncateInt (Dec_QuoInt (effectivePrice - baseFee) DefaultPriorityReduction) in
    Ok (effectiveFee, asInt64 priorityInt).

Definition NewDynamicFeeChecker (fees : FeeStore) (ctx : TxFeeCtx) (tx : option FeeTx) : result (coins * Z) :=
  match tx with
  | None => Err ErrTxDecode
  | Some tx =>
      if fcHeight ctx =? 0 then checkTxFeeWithValidatorMinGasPrices ctx tx
      else feeChecker ctx fees tx
  end.

Context {DL : LegacyDecLaws D}.
(** [LegacyDec.QuoInt] truncates. *)
Hypothesis QuoInt_truncates : ∀ a n, 0 <= a → 0 < n → Dec_QuoInt a n * n <= a.
Hypothesis reduction_pos : 0 < DefaultPriorityReduction.

Lemma asInt64_nonneg x : 0 <= x → 0 <= asInt64 x <= MaxInt64.
Proof. intros Hx. unfold asInt64, MaxInt64. destruct (_ && _) eqn:E; [|lia]. apply andb_prop in E as [_ E]. boolP. unfold MaxInt64 in *. lia. Qed.

(** After London a transaction that passes is charged in the coin of the EVM alone: at
    least its gas at the base fee, at most that plus its tip rounded up, and never more
    than it declares; and its priority is a 64-bit number. *)
Theorem effective_fee_bounds fees ctx tx fee priority :
  0 <= txGas tx → 0 <= AmountOf (txFee tx) evmDenom → 0 <= default ZeroDec (GetBaseFee fees) →
  IsLondon (fcHeight ctx) = true → fcHeight ctx ≠ 0 →
  NewDynamicFeeChecker fees ctx (Some tx) = Ok (fee, priority) →
  ∃ x, fee = [(evmDenom, x)] ∧ 0 <= priority <= MaxInt64 ∧ 0 <= maxPriorityPrice tx ∧
    default ZeroDec (GetBaseFee fees) * txGas tx <= x * precision ∧
    (x - 1) * precision < (default ZeroDec (GetBaseFee fees) + maxPriorityPrice tx) * txGas tx ∧
    x <= AmountOf (txFee tx) evmDenom.
Proof.
intros Hg Hf Hb Hl Hh. unfold NewDynamicFeeChecker, feeChecker. rewrite (proj2 (Z.eqb_neq _ _) Hh), Hl. cbn [negb].
set (base := default ZeroDec _) in *. set (tip := maxPriorityPrice tx). set (declared := AmountOf _ _) in *.
intros [H1 H]%guard_Ok. apply guard_Ok in H as [H2 H]. apply guard_Ok in H as [H3 H]. injection H as <- <-. boolP.
assert (Hd : 0 <= NewDec declared) by (unfold NewDec; pose proof precision_pos; nia).
assert (Hgas : 0 < txGas tx) by lia. pose proof (QuoInt_truncates _ _ Hd Hgas) as Hcap.
set (cap := Dec_QuoInt _ _) in *. set (price := effectiveGasPriceLegacyDec base cap tip).
assert (Hp : base <= price <= cap ∧ price <= base + tip) by (unfold price, effectiveGasPriceLegacyDec; lia).
pose proof (ceil_spec (MulInt price (txGas tx))) as Hc. cbv zeta in Hc. unfold MulInt in *. set (x := TruncateInt _) in *.
pose proof precision_pos as Hpos. exists x. split_and!; [done| | |lia|nia|nia|].
- apply asInt64_nonneg. rewrite TruncateInt_div by (apply Dec_QuoInt_nonneg; lia). apply Z.div_pos; [apply Dec_QuoInt_nonneg; lia|lia].
- apply asInt64_nonneg. rewrite TruncateInt_div by (apply Dec_QuoInt_nonneg; lia). apply Z.div_pos; [apply Dec_QuoInt_nonneg; lia|lia].
- unfold NewDec in *. assert ((x - 1) * precision < declared * precision) by nia. nia.
Qed.
End checker.

Module FeeCheckExample.
#[local] Existing Instance bankers_dec.
#[local] Existing Instance bankers_dec_laws.

(** 1 gwei base fee, a tip of half a gwei, and 2 gwei declared for 21000 gas. *)
Definition tx : FeeTx := mkFeeTx 21000 [("liao"%string, 42000000000000)] [Some (NewDec 500000000)].
Definition ctx : TxFeeCtx := mkTxFeeCtx 5 false [].
Definition check := NewDynamicFeeChecker "liao" (fun _ => true) 1000000 FeeExample.s0 ctx (Some tx).

Lemma quot_truncates a n : 0 <= a → 0 < n → Dec_QuoInt a n * n <= a.
Proof. intros Ha Hn. cbn [Dec_QuoInt bankers_dec]. rewrite Z.quot_div_nonneg, Z.mul_comm by lia. apply Z.mul_div_le. lia. Qed.

Lemma effective_fee_bounds_witness :
  check = Ok ([("liao"%string, 31500000000000)], 500) ∧ 31500000000000 <= AmountOf (txFee tx) "liao".
Proof.
assert (E : check = Ok ([("liao"%string, 31500000000000)], 500)) by (vm_compute; reflexivity). split; [exact E|].
destruct (effective_fee_bounds "liao" (fun _ => true) 1000000 quot_truncates
  ltac:(lia) FeeExample.s0 ctx tx [("liao"%string, 31500000000000)] 500) as (x & H1 & _ & _ & _ & _ & H2);
  [cbn; lia|vm_compute; discriminate|vm_compute; discriminate|reflexivity|discriminate|exact E|].
injection H1 as <-. exact H2.
Defined.
End FeeCheckExample.
