(* ===== verification/EvmParams.v ===== *)
(** * x/evm: parameters, precompile registry and genesis

    Models types/params.go, types/genesis.go, types/storage.go, keeper/params.go,
    keeper/precompiles.go, keeper/static_precompiles.go, the parameter message and
    genesis.go.  Addresses and hashes in hexadecimal are go-ethereum's; the syntax of
    channel identifiers is ibc-go's. *)

From stdpp Require Import gmap strings list sorting.
From Stdlib Require Import ZArith Lia Ascii.
From S2P Require Import Prelude Bank EvmStateDB EvmVM EvmKeeper Erc20Types Erc20Registry.

Open Scope Z_scope.

(** ** Extra EIPs (core/vm/eips.go, app/activators.go) *)
Definition activators : list string :=
  ["ethereum_3855"; "ethereum_3529"; "ethereum_3198"; "ethereum_2929"; "ethereum_2200"; "ethereum_1884"; "ethereum_1344";
   "atoshi_0"; "atoshi_1"; "atoshi_2"]%string.
Definition ExistsEipActivator (eipName : string) : bool := bool_decide (eipName ∈ activators).

(** [strings.Split] at the underscore. *)
Fixpoint splitUnderscore (s : string) : list string :=
  match s with
  | EmptyString => [""%string]
  | String c s =>
      if bool_decide (c = "_"%char) then ""%string :: splitUnderscore s
      else match splitUnderscore s with [] => [String c ""] | x :: l => String c x :: l end
  end.

(** Whether [strconv.Atoi] reads the text as an [int]. *)
Definition digit (c : ascii) : option Z :=
  let n := Z.of_nat (nat_of_ascii c) in if (48 <=? n) && (n <=? 57) then Some (n - 48) else None.
Fixpoint digits (acc : Z) (s : string) : option Z :=
  match s with
  | EmptyString => Some acc
  | String c s => match digit c with Some d => digits (10 * acc + d) s | None => None end
  end.
Definition unsigned (s : string) : option Z := if bool_decide (s = ""%string) then None else digits 0 s.
Definition isInt (s : string) : bool :=
  let inRange (x : option Z) := match x with Some v => (- 2 ^ 63 <=? v) && (v <? 2 ^ 63) | None => false end in
  match s with
  | String "-" t => inRange (Z.opp <$> unsigned t)
  | String "+" t => inRange (unsigned t)
  | _ => inRange (unsigned s)
  end.

Definition ValidateEIPName (eipName : string) : result unit :=
  match splitUnderscore eipName with
  | [_; number] => guard! isInt number else Plain "eip number should be convertible to int"; Ok tt
  | _ => Err (Plain "eip name does not conform to structure")
  end.

Fixpoint validateEIPs (seen eips : list string) : result unit :=
  match eips with
  | [] => Ok tt
  | eip :: eips =>
      if negb (ExistsEipActivator eip) then Err (Plain "EIP is not activateable")
      else match ValidateEIPName eip with
      | Err _ => Err (Plain "EIP name is not valid")
      | Ok _ =>
          if bool_decide (eip ∈ seen) then Err (Plain "found duplicate EIP")
          else validateEIPs (eip :: seen) eips
      end
  end.

(** ** Parameters *)
(** The access type is a number of the wire format; the list holds spellings. *)
Record AccessParam := mkAccessParam { apType : Z; apList : list string }.
Record EvmParams := mkEvmParams {
  ExtraEIPs : list string;
  AllowUnprotectedTxs : bool;
  EVMChannels : list string;
  Create : AccessParam;
  Calls : AccessParam;
  ActiveStaticPrecompiles : list string;
}.
Definition with_active (l : list string) (p : EvmParams) : EvmParams :=
  mkEvmParams (ExtraEIPs p) (AllowUnprotectedTxs p) (EVMChannels p) (Create p) (Calls p) l.
Definition with_eips (l : list string) (p : EvmParams) : EvmParams :=
  mkEvmParams l (AllowUnprotectedTxs p) (EVMChannels p) (Create p) (Calls p) (ActiveStaticPrecompiles p).

Definition P256PrecompileAddress : string := "0x0000000000000000000000000000000000000100".
Definition Bech32PrecompileAddress : string := "0x0000000000000000000000000000000000000400".
Definition StakingPrecompileAddress : string := "0x0000000000000000000000000000000000000800".
Definition DistributionPrecompileAddress : string := "0x0000000000000000000000000000000000000801".
Definition ICS20PrecompileAddress : string := "0x0000000000000000000000000000000000000802".
Definition VestingPrecompileAddress : string := "0x0000000000000000000000000000000000000803".
Definition BankPrecompileAddress : string := "0x0000000000000000000000000000000000000804".
Definition GovPrecompileAddress : string := "0x0000000000000000000000000000000000000805".
Definition SlashingPrecompileAddress : string := "0x0000000000000000000000000000000000000806".
Definition EvidencePrecompileAddress : string := "0x0000000000000000000000000000000000000807".
Definition BridgeAdapterPrecompileAddress : string := "0x0000000000000000000000000000000000000808".
Definition AtoxPrecompileAddress : string := "0x0000000000000000000000000000000000000809".

Definition AvailableStaticPrecompiles : list string :=
  [P256PrecompileAddress; Bech32PrecompileAddress; StakingPrecompileAddress; DistributionPrecompileAddress;
   ICS20PrecompileAddress; VestingPrecompileAddress; BankPrecompileAddress; GovPrecompileAddress; SlashingPrecompileAddress;
   EvidencePrecompileAddress; BridgeAdapterPrecompileAddress; AtoxPrecompileAddress].
Definition DefaultStaticPrecompiles : list string :=
  [P256PrecompileAddress; Bech32PrecompileAddress; StakingPrecompileAddress; DistributionPrecompileAddress;
   ICS20PrecompileAddress; VestingPrecompileAddress; BankPrecompileAddress; GovPrecompileAddress;
   BridgeAdapterPrecompileAddress].

Definition DefaultEvmParams : EvmParams :=
  mkEvmParams ["ethereum_3855"%string] false ["channel-10"; "channel-31"; "channel-83"]%string
    (mkAccessParam 0 []) (mkAccessParam 0 []) DefaultStaticPrecompiles.

(** [BytesToAddress] of one byte; the addresses 1 to 9 of [PrecompiledAddressesBerlin]. *)
Definition shortAddress (n : nat) : Address := (zeros 19 +:+ String (ascii_of_nat n) "")%string.
Definition PrecompiledAddressesBerlin : list Address := map shortAddress (seq 1 9).

Section params.
Context `{EthAddresses}.
Variable validChannel : string → bool.          (** [host.ChannelIdentifierValidator] *)

Definition validateChannels (channels : list string) : result unit :=
  guard! forallb validChannel channels else Registered "channel" 18; Ok tt.
Definition validateAccessType (accessType : Z) : result unit :=
  guard! (0 <=? accessType) && (accessType <=? 2) else Plain "invalid access type"; Ok tt.
Definition validateAllowlistAddresses (addresses : list string) : result unit :=
  guard! forallb (fun a => is_ok (ValidateAddress a)) addresses else Plain "invalid whitelist address"; Ok tt.
Definition AccessControlType_Validate (t : AccessParam) : result unit :=
  _ ← validateAccessType (apType t); validateAllowlistAddresses (apList t).

Fixpoint staticPrecompilesUnique (seen precompiles : list string) : result unit :=
  match precompiles with
  | [] => Ok tt
  | p :: ps =>
      if bool_decide (p ∈ seen) then Err (Plain "duplicate precompile")
      else match ValidateAddress p with
      | Err _ => Err (Plain "invalid precompile")
      | Ok _ => staticPrecompilesUnique (p :: seen) ps
      end
  end.
Definition ValidateStaticPrecompiles (precompiles : list string) : result unit :=
  _ ← staticPrecompilesUnique [] precompiles;
  guard! IsSorted precompiles else Plain "precompiles need to be sorted"; Ok tt.

Definition EvmParams_Validate (p : EvmParams) : result unit :=
  _ ← validateEIPs [] (ExtraEIPs p);
  _ ← ValidateStaticPrecompiles (ActiveStaticPrecompiles p);
  _ ← AccessControlType_Validate (Create p);
  _ ← AccessControlType_Validate (Calls p);
  validateChannels (EVMChannels p).

Definition GetActiveStaticPrecompilesAddrs (p : EvmParams) : list Address := map HexToAddress (ActiveStaticPrecompiles p).
Definition IsEVMChannel (p : EvmParams) (channel : string) : bool := bool_decide (channel ∈ EVMChannels p).

(** The access control the machine runs with ([EvmVM]): [slices.Contains] of
    [address.String()] finds the entries that are spelled that way. *)
Definition spelled (l : list string) : list Address :=
  omap (fun x => let a := HexToAddress x in if bool_decide (AddressHex a = x) then Some a else None) l.
Definition accessTypeOf (n : Z) : AccessType :=
  if n =? 0 then AccessTypePermissionless else if n =? 2 then AccessTypePermissioned else AccessTypeRestricted.
Definition accessControlType (t : AccessParam) : AccessControlType := mkAccessControlType (accessTypeOf (apType t)) (spelled (apList t)).
Definition accessControlOf (p : EvmParams) : AccessControl :=
  mkAccessControl (accessControlType (Create p)) (accessControlType (Calls p)).

(** ** keeper/params.go: the record under its key, or that of the legacy subspace *)
Record ParamStore := mkParamStore { storedParams : option EvmParams; legacyParams : EvmParams }.
Implicit Types (s : ParamStore).

Definition GetLegacyParams s : EvmParams := legacyParams s.
Definition GetEvmParams s : EvmParams := match storedParams s with Some p => p | None => GetLegacyParams s end.

Definition SetEvmParams s (p : EvmParams) : result unit * ParamStore :=
  let p := with_active (sortStrings (ActiveStaticPrecompiles p)) p in
  match EvmParams_Validate p with
  | Err e => (Err e, s)
  | Ok _ => (Ok tt, mkParamStore (Some p) (legacyParams s))
  end.

Definition appendPrecompiles (existing : list string) (addresses : list Address) : result (list string) :=
  guard! negb (existsb (fun a => bool_decide (AddressHex a ∈ existing)) addresses) else Plain "precompile already registered";
  Ok (sortStrings (existing ++ map AddressHex addresses)).

Definition EnableStaticPrecompiles s (addresses : list Address) : result unit * ParamStore :=
  let params := GetEvmParams s in
  match appendPrecompiles (ActiveStaticPrecompiles params) addresses with
  | Err e => (Err e, s)
  | Ok updated => SetEvmParams s (with_active updated params)
  end.

Definition EnableEIPs s (eips : list string) : result unit * ParamStore :=
  let params := GetEvmParams s in
  SetEvmParams s (with_eips (sortStrings (ExtraEIPs params ++ eips)) params).

(** [UpdateParams] of msg_server.go. *)
Definition EvmUpdateParams (authority : string) s (sender : string) (p : EvmParams) : result unit * ParamStore :=
  if negb (bool_decide (authority = sender)) then (Err (Registered "gov" 13), s) else SetEvmParams s p.

(** ** keeper/static_precompiles.go and keeper/precompiles.go *)
(** The addresses of the map [NewAvailableStaticPrecompiles] builds. *)
Definition availablePrecompiles : list Address := PrecompiledAddressesBerlin ++ map HexToAddress AvailableStaticPrecompiles.

Definition IsAvailableStaticPrecompile (p : EvmParams) (a : Address) : bool :=
  bool_decide (AddressHex a ∈ ActiveStaticPrecompiles p) || bool_decide (a ∈ PrecompiledAddressesBerlin).

(** Whether it is active; an active one that the map does not hold is a panic. *)
Definition GetStaticPrecompileInstance (p : EvmParams) (a : Address) : result bool :=
  if IsAvailableStaticPrecompile p a then
    guard! bool_decide (a ∈ availablePrecompiles) else Plain "precompiled contract not stored in memory"; Ok true
  else Ok false.

(** [dynamic] is [GetERC20PrecompileInstance] of x/erc20. *)
Definition InstanceOf (dynamic : Address → result bool) s (a : Address) : result bool :=
  found ← GetStaticPrecompileInstance (GetEvmParams s) a;
  if found : bool then Ok true else dynamic a.

(** ** Validated parameters *)
Lemma IsSorted_sorted l : IsSorted l = true → StronglySorted string_le l.
Proof.
intros Hs. apply Sorted_StronglySorted; [apply _|]. induction l as [|x [|y l] IH]; [constructor|by repeat constructor|].
cbn [IsSorted] in Hs. apply andb_prop in Hs as [Hx%bool_decide_eq_true Hl]. constructor; [by apply IH|by constructor].
Qed.

Lemma validated_sorted p : EvmParams_Validate p = Ok tt → sortStrings (ActiveStaticPrecompiles p) = ActiveStaticPrecompiles p.
Proof.
unfold EvmParams_Validate, ValidateStaticPrecompiles. intros (_ & _ & ([] & (_ & _ & [Hs _]%guard_Ok)%bind_Ok & _)%bind_Ok)%bind_Ok.
apply (StronglySorted_unique string_le); [apply sortStrings_sorted|by apply IsSorted_sorted|apply sortStrings_perm].
Qed.

Lemma SetEvmParams_validated s p :
  EvmParams_Validate p = Ok tt → SetEvmParams s p = (Ok tt, mkParamStore (Some p) (legacyParams s)).
Proof. intros Hv. unfold SetEvmParams. rewrite validated_sorted by done. assert (with_active (ActiveStaticPrecompiles p) p = p) as -> by (by destruct p). by rewrite Hv. Qed.

Lemma sorted_IsSorted l : StronglySorted string_le l → IsSorted l = true.
Proof.
induction 1 as [|x l Hs IH Hx]; [done|]. cbn [IsSorted]. destruct l as [|y l]; [done|].
apply Forall_cons in Hx as [Hx _]. by rewrite bool_decide_eq_true_2, IH.
Qed.

Lemma unique_spec l : ∀ seen,
  staticPrecompilesUnique seen l = Ok tt ↔ NoDup l ∧ Forall (fun x => (x ∉ seen) ∧ IsHexAddress x = true) l.
Proof.
induction l as [|x l IH]; intros seen; cbn [staticPrecompilesUnique]; [split; [by repeat constructor|done]|].
unfold ValidateAddress. rewrite NoDup_cons, Forall_cons. case_bool_decide as Hx; [naive_solver|].
destruct (IsHexAddress x) eqn:Eh; [|naive_solver]. rewrite IH, !Forall_forall. setoid_rewrite not_elem_of_cons. split.
- intros [Hn Hf]. split_and!; try done; [|naive_solver]. intros Hin. by apply Hf in Hin as [[? _] _].
- intros [[Hn Hn'] [_ Hf]]. split; [done|]. intros y Hy. destruct (Hf y Hy). split_and!; try done. by intros ->.
Qed.

(** Fewer precompiles are as valid. *)
Lemma filter_validates (P : string → Prop) `{∀ x, Decision (P x)} p :
  EvmParams_Validate p = Ok tt → EvmParams_Validate (with_active (filter P (ActiveStaticPrecompiles p)) p) = Ok tt.
Proof.
unfold EvmParams_Validate, ValidateStaticPrecompiles. destruct p as [eips un chans cr ca act]. unfold with_active.
intros (u1 & H1 & (u2 & (u3 & H3 & [Hs _]%guard_Ok)%bind_Ok & H4)%bind_Ok)%bind_Ok.
apply bind_Ok. exists u1. split; [exact H1|]. apply bind_Ok. exists tt. split; [|exact H4]. apply bind_Ok. exists tt.
destruct u3. apply unique_spec in H3 as [Hn Hf]. split.
- apply unique_spec. split; [by apply NoDup_filter|]. rewrite Forall_forall in Hf |- *. intros x [_ Hx]%list_elem_of_filter. by apply Hf.
- apply guard_Ok. split; [|done]. apply sorted_IsSorted. apply IsSorted_sorted in Hs.
  cbn in Hs |- *. clear Hn Hf H1 H4. induction Hs as [|x l Hs IH Hx]; [constructor|]. rewrite filter_cons. destruct (decide (P x)); [|exact IH].
  constructor; [exact IH|]. rewrite Forall_forall in Hx |- *. intros y [_ Hy]%list_elem_of_filter. by apply Hx.
Qed.

(** ** What is listed and what counts *)
Context `{!EthAddressesLaws _}.

Lemma spelled_elem l a : is_address a → a ∈ spelled l ↔ AddressHex a ∈ l.
Proof.
intros Ha. unfold spelled. rewrite list_elem_of_omap. split.
- intros (x & Hx & E). case_bool_decide as Es; [|done]. injection E as <-. by rewrite Es.
- intros Hin. exists (AddressHex a). split; [done|]. by rewrite hex_back, bool_decide_eq_true_2.
Qed.

Lemma SetEvmParams_stored s p s' :
  SetEvmParams s p = (Ok tt, s') → GetEvmParams s' = with_active (sortStrings (ActiveStaticPrecompiles p)) p.
Proof. unfold SetEvmParams. destruct (EvmParams_Validate _); [|done]. by intros [= <-]. Qed.

(** The registry after an update: the addresses 1 to 9 always, else those listed in
    the spelling of [Hex], which must be built in; all others are left to x/erc20. *)
Lemma registry dynamic s p s' a :
  SetEvmParams s p = (Ok tt, s') →
  InstanceOf dynamic s' a =
    if bool_decide (a ∈ PrecompiledAddressesBerlin) then Ok true
    else if bool_decide (AddressHex a ∈ ActiveStaticPrecompiles p) then
      guard! bool_decide (a ∈ map HexToAddress AvailableStaticPrecompiles) else Plain "precompiled contract not stored in memory"; Ok true
    else dynamic a.
Proof.
intros Hs. unfold InstanceOf, GetStaticPrecompileInstance, IsAvailableStaticPrecompile. rewrite (SetEvmParams_stored s p s' Hs).
assert (bool_decide (AddressHex a ∈ sortStrings (ActiveStaticPrecompiles p)) = bool_decide (AddressHex a ∈ ActiveStaticPrecompiles p)) as E.
{ apply bool_decide_ext. unfold sortStrings. by rewrite merge_sort_Permutation. }
change (ActiveStaticPrecompiles (with_active (sortStrings (ActiveStaticPrecompiles p)) p)) with (sortStrings (ActiveStaticPrecompiles p)).
rewrite E. unfold availablePrecompiles.
destruct (decide (a ∈ PrecompiledAddressesBerlin)) as [Hb|Hb].
- rewrite (bool_decide_eq_true_2 (a ∈ PrecompiledAddressesBerlin)) by done. rewrite orb_true_r, bool_decide_eq_true_2 by (apply elem_of_app; by left). done.
- rewrite (bool_decide_eq_false_2 (a ∈ PrecompiledAddressesBerlin)) by done. rewrite orb_false_r.
  assert (bool_decide (a ∈ PrecompiledAddressesBerlin ++ map HexToAddress AvailableStaticPrecompiles) =
          bool_decide (a ∈ map HexToAddress AvailableStaticPrecompiles)) as ->.
  { apply bool_decide_ext. rewrite elem_of_app. naive_solver. }
  destruct (bool_decide (AddressHex a ∈ ActiveStaticPrecompiles p)); [|done].
  by destruct (bool_decide (a ∈ map HexToAddress AvailableStaticPrecompiles)).
Qed.

(** A list of blocked callers that is written in another spelling than that of [Hex]
    passes validation and blocks nobody. *)
Theorem blocklist_spelling p x signer caller :
  IsHexAddress x = true → AddressHex (HexToAddress x) ≠ x →
  EvmParams_Validate p = Ok tt →
  let p' := mkEvmParams (ExtraEIPs p) (AllowUnprotectedTxs p) (EVMChannels p) (Create p) (mkAccessParam 0 [x]) (ActiveStaticPrecompiles p) in
  EvmParams_Validate p' = Ok tt ∧ CanCall (accessControlOf p') signer caller = true.
Proof.
intros Hx Hne Hv p'. split.
- unfold EvmParams_Validate in *. apply bind_Ok in Hv as (u1 & H1 & (u2 & H2 & (u3 & H3 & (u4 & H4 & H5)%bind_Ok)%bind_Ok)%bind_Ok).
  apply bind_Ok. exists u1. split; [exact H1|]. apply bind_Ok. exists u2. split; [exact H2|].
  apply bind_Ok. exists u3. split; [exact H3|]. apply bind_Ok. exists tt. split; [|exact H5].
  change (AccessControlType_Validate (mkAccessParam 0 [x]) = Ok tt).
  unfold AccessControlType_Validate, validateAllowlistAddresses. cbn [apList forallb mbind result_bind]. unfold ValidateAddress. by rewrite Hx.
- subst p'. unfold CanCall, allowed, accessControlOf, accessControlType. cbn. by rewrite bool_decide_eq_false_2 by done.
Qed.
End params.
