(* ===== verification/EvmGenesis.v ===== *)
(** * x/evm: genesis

    Models genesis.go, types/genesis.go and types/storage.go over the store of
    [EvmKeeper] and the parameters of [EvmParams].  An exported genesis validates and
    restores parameters, code and storage of every contract. *)

From stdpp Require Import gmap strings list sorting.
From Stdlib Require Import ZArith Lia Ascii.
From S2P Require Import Prelude Bank EvmStateDB EvmKeeper Epochs Erc20Types Erc20Registry EvmParams.

Open Scope Z_scope.

(** Hashes and byte strings in hexadecimal (go-ethereum's package common). *)
Class EthHex := {
  HashHex : Hash → string;
  HexToHash : string → Hash;
  Bytes2Hex : string → string;
  Hex2Bytes : string → string;
}.
Class EthHexLaws (E : EthHex) : Prop := {
  hash_back h : HexToHash (HashHex h) = h;
  hash_not_blank h : blank (HashHex h) = false;
  bytes_back b : Hex2Bytes (Bytes2Hex b) = b;
}.

Record State := mkState { stKey : string; stValue : string }.
Record GenesisAccount := mkGenesisAccount { gaAddress : string; gaCode : string; gaStorage : list State }.
Record EvmGenesisState := mkEvmGenesis { geAccounts : list GenesisAccount; geParams : EvmParams }.

Definition ErrInvalidState : error := Registered "evm" 2.

Section genesis.
Context `{EvmEnv} {B S A : Type} `{BankOps B} `{AuthKeeper A} `{EthAddresses} `{EthHex}.
Variable validChannel : string → bool.
Variable AccAddress : Address → addr.
Variable moduleAccountSet : bool.        (** the account of the module has an address *)
Abbreviation C := (EvmCtx B S A).
Abbreviation state := (ParamStore * EvmCtx B S A)%type.
Implicit Types (c : C) (a : Address) (w : state).

(** ** types/storage.go and types/genesis.go *)
Fixpoint Storage_Validate (seen : list string) (l : list State) : result unit :=
  match l with
  | [] => Ok tt
  | st :: l =>
      if bool_decide (stKey st ∈ seen) then Err ErrInvalidState
      else if blank (stKey st) then Err ErrInvalidState
      else Storage_Validate (stKey st :: seen) l
  end.

Definition GenesisAccount_Validate (ga : GenesisAccount) : result unit :=
  _ ← ValidateAddress (gaAddress ga); Storage_Validate [] (gaStorage ga).

Fixpoint genesisAccounts_Validate (seen : list string) (l : list GenesisAccount) : result unit :=
  match l with
  | [] => Ok tt
  | acc :: l =>
      if bool_decide (gaAddress acc ∈ seen) then Err (Plain "duplicated genesis account")
      else match GenesisAccount_Validate acc with
      | Err e => Err e
      | Ok _ => genesisAccounts_Validate (gaAddress acc :: seen) l
      end
  end.

Definition EvmGenesisState_Validate (gs : EvmGenesisState) : result unit :=
  _ ← genesisAccounts_Validate [] (geAccounts gs); EvmParams_Validate validChannel (geParams gs).

Definition DefaultEvmGenesisState : EvmGenesisState := mkEvmGenesis [] DefaultEvmParams.

(** ** genesis.go *)
Definition setStorage c a (l : list State) : C :=
  foldl (fun c st => KeeperSetState c a (HexToHash (stKey st)) (Bytes (HexToHash (stValue st)))) c l.

Definition initAccount c (account : GenesisAccount) : result unit * C :=
  let address := HexToAddress (gaAddress account) in
  match AuthGetAccount (cAuth c) (AccAddress address) with
  | None => (Err (Plain "account not found"), c)
  | Some _ =>
      let code := Hex2Bytes (gaCode account) in
      let codeHash := Keccak256 code in
      let c := if negb (IsEmptyCodeHash codeHash) then SetCodeHash c address codeHash else c in
      let c := if negb (String.length code =? 0)%nat then KeeperSetCode c codeHash code else c in
      (Ok tt, setStorage c address (gaStorage account))
  end.

Fixpoint initAccounts c (l : list GenesisAccount) : result unit * C :=
  match l with
  | [] => (Ok tt, c)
  | account :: l =>
      match initAccount c account with
      | (Err e, c) => (Err e, c)
      | (Ok _, c) => initAccounts c l
      end
  end.

Definition EvmInitGenesis w (data : EvmGenesisState) : result unit * state :=
  match SetEvmParams validChannel w.1 (geParams data) with
  | (Err e, s) => (Err e, (s, w.2))
  | (Ok _, s) =>
      if negb moduleAccountSet then (Err (Plain "the EVM module account has not been set"), (s, w.2))
      else let '(r, c) := initAccounts w.2 (geAccounts data) in (r, (s, c))
  end.

(** The contracts in key order. *)
Definition IterateContracts c : list (Address * Hash) :=
  omap (fun a => (fun v => (a, BytesToHash v)) <$> codeHashes (cKV c) !! a)
    (sortStrings (map fst (map_to_list (codeHashes (cKV c))))).

Definition GetAccountStorage c a : list State :=
  map (fun kv => mkState (HashHex kv.1) (HashHex kv.2)) (KeeperForEachStorage c a).

Definition exportAccount c (x : Address * Hash) : GenesisAccount :=
  mkGenesisAccount (AddressHex x.1) (Bytes2Hex (default ""%string (KeeperGetCode c x.2))) (GetAccountStorage c x.1).

Definition EvmExportGenesis w : EvmGenesisState :=
  mkEvmGenesis (map (exportAccount w.2) (IterateContracts w.2)) (GetEvmParams w.1).

(** ** Validation of what is exported *)
Lemma Storage_Validate_ok l : ∀ seen,
  NoDup (map stKey l) → Forall (fun st => blank (stKey st) = false ∧ stKey st ∉ seen) l → Storage_Validate seen l = Ok tt.
Proof.
induction l as [|st l IH]; intros seen Hn Hf; [done|]. cbn. apply NoDup_cons in Hn as [Hn1 Hn2].
apply Forall_cons in Hf as [[Hb Hs] Hf]. rewrite bool_decide_eq_false_2, Hb by done. apply IH; [done|].
rewrite Forall_forall in Hf |- *. intros x Hx. destruct (Hf x Hx) as [Hx1 Hx2]. split; [done|].
apply not_elem_of_cons. split; [|done]. intros E. apply Hn1. rewrite <- E. by apply list_elem_of_fmap_2.
Qed.

Lemma genesisAccounts_Validate_ok l : ∀ seen,
  NoDup (map gaAddress l) → Forall (fun ga => GenesisAccount_Validate ga = Ok tt ∧ gaAddress ga ∉ seen) l →
  genesisAccounts_Validate seen l = Ok tt.
Proof.
induction l as [|ga l IH]; intros seen Hn Hf; [done|]. cbn. apply NoDup_cons in Hn as [Hn1 Hn2].
apply Forall_cons in Hf as [[Hb Hs] Hf]. rewrite bool_decide_eq_false_2, Hb by done. apply IH; [done|].
rewrite Forall_forall in Hf |- *. intros x Hx. destruct (Hf x Hx) as [Hx1 Hx2]. split; [done|].
apply not_elem_of_cons. split; [|done]. intros E. apply Hn1. rewrite <- E. by apply list_elem_of_fmap_2.
Qed.

Context `{!EthAddressesLaws _} `{!EthHexLaws _}.

Lemma omap_keys {K V V'} (f : K → option V) (g : V → V') l :
  (omap (fun k => (fun v => (k, g v)) <$> f k) l).*1 = filter (fun k => is_Some (f k)) l.
Proof.
induction l as [|k l IH]; [done|]. cbn [omap list_omap]. rewrite filter_cons. destruct (f k) eqn:E; cbn.
- rewrite decide_True by (by eexists). by rewrite <- IH.
- rewrite decide_False by (by intros []). exact IH.
Qed.

(** The keys of one address, without repetition. *)
Lemma keys_of_nodup {V} a (l : list ((Address * Hash) * V)) :
  NoDup l.*1 → NoDup (omap (fun kv => if decide (kv.1.1 = a) then Some kv.1.2 else None) l).
Proof.
induction l as [|[[b k] v] l IH]; [constructor|]. intros [Hn1 Hn2]%NoDup_cons. cbn [omap list_omap fst snd].
destruct (decide (b = a)) as [->|]; [|by apply IH]. constructor; [|by apply IH].
intros ([[b' k'] v'] & Hin & Hd)%list_elem_of_omap. cbn in Hd. destruct (decide (b' = a)) as [->|]; [|done]. injection Hd as ->.
apply Hn1. by apply (list_elem_of_fmap_2 fst) in Hin.
Qed.

Lemma ForEachStorage_nodup c a : NoDup (KeeperForEachStorage c a).*1.
Proof.
unfold KeeperForEachStorage. rewrite (omap_keys (fun k => storage (cKV c) !! (a, k)) BytesToHash).
apply NoDup_filter. rewrite merge_sort_Permutation. apply keys_of_nodup, NoDup_fst_map_to_list.
Qed.

Lemma ForEachStorage_lookup c a k :
  (list_to_map (KeeperForEachStorage c a) : gmap Hash Hash) !! k = BytesToHash <$> storage (cKV c) !! (a, k).
Proof.
destruct (storage (cKV c) !! (a, k)) as [v|] eqn:E; cbn.
- apply elem_of_list_to_map_1; [apply ForEachStorage_nodup|]. unfold KeeperForEachStorage. apply list_elem_of_omap. exists k.
  rewrite E. split; [|done]. rewrite merge_sort_Permutation. apply list_elem_of_omap. exists ((a, k), v).
  by rewrite elem_of_map_to_list, decide_True.
- apply not_elem_of_list_to_map_1. rewrite ForEachStorage_keys, E. by intros [].
Qed.

Lemma IterateContracts_keys c a : a ∈ (IterateContracts c).*1 ↔ is_Some (codeHashes (cKV c) !! a).
Proof.
unfold IterateContracts. rewrite (omap_keys (fun k => codeHashes (cKV c) !! k) BytesToHash), list_elem_of_filter.
split; [by intros [? _]|]. intros [v Hv]. split; [by eexists|]. rewrite sortStrings_perm.
apply list_elem_of_fmap. exists (a, v). by rewrite elem_of_map_to_list.
Qed.

Lemma IterateContracts_nodup c : NoDup (IterateContracts c).*1.
Proof.
unfold IterateContracts. rewrite (omap_keys (fun k => codeHashes (cKV c) !! k) BytesToHash).
apply NoDup_filter. rewrite sortStrings_perm. apply NoDup_fst_map_to_list.
Qed.

Lemma IterateContracts_elem c a h : (a, h) ∈ IterateContracts c → ∃ v, codeHashes (cKV c) !! a = Some v ∧ h = BytesToHash v.
Proof.
intros (b & _ & Hb)%list_elem_of_omap. destruct (codeHashes (cKV c) !! b) as [v|] eqn:E; [|done]. injection Hb as -> <-. by exists v.
Qed.

(** ** Loading *)
Definition sameRest c c' : Prop := cBank c' = cBank c ∧ cHooks c' = cHooks c ∧ cAuth c' = cAuth c.

Lemma setStorage_spec a l : NoDup l.*1 → ∀ c,
  let c' := setStorage c a (map (fun kv : Hash * Hash => mkState (HashHex kv.1) (HashHex kv.2)) l) in
  sameRest c c' ∧ codeHashes (cKV c') = codeHashes (cKV c) ∧ codes (cKV c') = codes (cKV c) ∧
  ∀ b k, storage (cKV c') !! (b, k) =
    if decide (b = a) then match (list_to_map l : gmap Hash Hash) !! k with
                           | Some v => Some (Bytes v) | None => storage (cKV c) !! (a, k) end
    else storage (cKV c) !! (b, k).
Proof.
unfold setStorage. induction l as [|[k0 v0] l IH]; intros Hn c; cbn [map foldl].
- split_and!; try done. intros b k. by destruct (decide (b = a)) as [->|].
- apply NoDup_cons in Hn as [Hn1 Hn2]. cbn [stKey stValue fst snd]. rewrite !hash_back.
  destruct (IH Hn2 (KeeperSetState c a k0 (Bytes v0))) as ((I1 & I2 & I3) & I4 & I5 & I6). split_and!; try done.
  intros b k. rewrite I6. cbn [list_to_map foldr uncurry]. destruct (decide (b = a)) as [->|Hb].
  + destruct (decide (k = k0)) as [->|Hk].
    * rewrite lookup_insert_eq, not_elem_of_list_to_map_1 by done. cbn. by rewrite lookup_insert_eq.
    * rewrite lookup_insert_ne by done. destruct (_ !! k); [done|]. cbn. by rewrite lookup_insert_ne by congruence.
  + cbn. by rewrite lookup_insert_ne by congruence.
Qed.

(** What the store holds of a contract, as commits leave it. *)
Definition contract_ok c (x : Address * Hash) : Prop :=
  is_address x.1 ∧ x.2 ≠ EmptyCodeHash ∧ ∃ code, KeeperGetCode c x.2 = Some code ∧ Keccak256 code = x.2.

Lemma nonempty_code code : Keccak256 code ≠ EmptyCodeHash → (String.length code =? 0)%nat = false.
Proof. intros Hne. apply Nat.eqb_neq. intros El. apply Hne. by destruct code. Qed.

(** One exported account, loaded. *)
Lemma initAccount_export c x c0 :
  contract_ok c x → is_Some (AuthGetAccount (cAuth c0) (AccAddress x.1)) →
  ∃ c', initAccount c0 (exportAccount c x) = (Ok tt, c') ∧ sameRest c0 c' ∧
    codeHashes (cKV c') = <[x.1 := Bytes x.2]> (codeHashes (cKV c0)) ∧
    (∀ h, codes (cKV c') !! h = if decide (h = x.2) then codes (cKV c) !! h else codes (cKV c0) !! h) ∧
    ∀ b k, storage (cKV c') !! (b, k) =
      if decide (b = x.1) then match storage (cKV c) !! (x.1, k) with
                               | Some v => Some (Bytes (BytesToHash v)) | None => storage (cKV c0) !! (x.1, k) end
      else storage (cKV c0) !! (b, k).
Proof.
intros (Ha & Hne & code & Hc & Hk) [ac Hac]. destruct x as [a h]. cbn [fst snd] in *. subst h.
unfold initAccount, exportAccount, GetAccountStorage. cbn [gaAddress gaCode gaStorage fst snd]. rewrite hex_back, Hac by done.
rewrite Hc. cbn [default]. rewrite bytes_back. unfold IsEmptyCodeHash. rewrite bool_decide_eq_false_2, nonempty_code by done. cbn [negb].
eexists. split; [reflexivity|]. set (c1 := KeeperSetCode _ _ _).
destruct (setStorage_spec a (KeeperForEachStorage c a) (ForEachStorage_nodup c a) c1) as ((I1 & I2 & I3) & I4 & I5 & I6).
split_and!; [done..| |].
- intros h. rewrite I5. cbn. destruct (decide (h = Keccak256 code)) as [->|]; [|by rewrite lookup_insert_ne].
  by rewrite lookup_insert_eq.
- intros b k. rewrite I6, ForEachStorage_lookup. destruct (decide _) as [->|]; [|done]. by destruct (storage (cKV c) !! _).
Qed.

Lemma initAccounts_export c l : NoDup l.*1 → Forall (contract_ok c) l → ∀ c0,
  Forall (fun x => is_Some (AuthGetAccount (cAuth c0) (AccAddress x.1))) l →
  ∃ c', initAccounts c0 (map (exportAccount c) l) = (Ok tt, c') ∧ sameRest c0 c' ∧
    (∀ a, codeHashes (cKV c') !! a =
       match (list_to_map l : gmap Address Hash) !! a with Some h => Some (Bytes h) | None => codeHashes (cKV c0) !! a end) ∧
    (∀ h, codes (cKV c') !! h = if decide (h ∈ l.*2) then codes (cKV c) !! h else codes (cKV c0) !! h) ∧
    ∀ a k, storage (cKV c') !! (a, k) =
      if decide (a ∈ l.*1) then match storage (cKV c) !! (a, k) with
                                | Some v => Some (Bytes (BytesToHash v)) | None => storage (cKV c0) !! (a, k) end
      else storage (cKV c0) !! (a, k).
Proof.
induction l as [|[a h] l IH]; intros Hn Hok c0 Hau; cbn [map initAccounts].
- exists c0. split_and!; try done; intros *; by rewrite decide_False by (intros []%elem_of_nil).
- apply NoDup_cons in Hn as [Hn1 Hn2]. apply Forall_cons in Hok as [Hx Hok]. apply Forall_cons in Hau as [Ha Hau].
  destruct (initAccount_export c (a, h) c0 Hx Ha) as (c1 & -> & (R1 & R2 & R3) & E1 & E2 & E3). cbn [fst snd] in *.
  destruct (IH Hn2 Hok c1) as (c' & -> & (S1 & S2 & S3) & F1 & F2 & F3); [by rewrite R3|].
  exists c'. split_and!; [done|split_and!; congruence|..].
  + intros b. rewrite F1, E1. cbn [list_to_map foldr uncurry]. destruct (decide (b = a)) as [->|].
    * by rewrite !lookup_insert_eq, not_elem_of_list_to_map_1.
    * by rewrite !lookup_insert_ne.
  + intros h'. rewrite F2, E2. cbn. destruct (decide (h' ∈ l.*2)) as [Hin|Hin]; [by rewrite decide_True by (by right)|].
    destruct (decide (h' = h)) as [->|]; [by rewrite decide_True by left|]. by rewrite decide_False by (by intros [?|?]%elem_of_cons).
  + intros b k. rewrite F3, E3. cbn. destruct (decide (b = a)) as [->|Hb].
    * rewrite decide_False, decide_True by (done || left). done.
    * destruct (decide (b ∈ l.*1)); [by rewrite decide_True by (by right)|]. by rewrite decide_False by (by intros [?|?]%elem_of_cons).
Qed.

(** A context whose contracts are as commits leave them. *)
Definition contracts_ok c : Prop :=
  Forall (contract_ok c) (IterateContracts c) ∧ ∀ a, codeHashes (cKV c) !! a ≠ Some ""%string.

Lemma export_validates c ps :
  contracts_ok c → EvmParams_Validate validChannel (GetEvmParams ps) = Ok tt →
  EvmGenesisState_Validate (EvmExportGenesis (ps, c)) = Ok tt.
Proof.
intros [Hok _] Hv. unfold EvmGenesisState_Validate. apply bind_Ok. exists tt. split; [|exact Hv]. cbn [geAccounts EvmExportGenesis fst snd].
rewrite Forall_forall in Hok.
apply genesisAccounts_Validate_ok.
- rewrite map_map. pose proof (IterateContracts_nodup c) as Hn. induction (IterateContracts c) as [|x l IH]; [constructor|].
  apply NoDup_cons in Hn as [Hn1 Hn2]. cbn. constructor; [|apply IH; [intros y Hy; apply Hok; by right|done]].
  intros (y & E & Hy)%list_elem_of_fmap. cbn in E. apply (f_equal HexToAddress) in E.
  rewrite !hex_back in E by (apply Hok; by (left || right)). apply Hn1. rewrite E. by apply list_elem_of_fmap_2.
- apply Forall_forall. intros ga (x & -> & Hx)%list_elem_of_fmap. split; [|intros []%elem_of_nil].
  unfold GenesisAccount_Validate, ValidateAddress. cbn [gaAddress gaStorage exportAccount]. rewrite hex_is_hex by (by apply Hok).
  cbn [mbind result_bind]. unfold GetAccountStorage. apply Storage_Validate_ok.
  + rewrite map_map. apply (NoDup_fmap_1 HexToHash). rewrite <- list_fmap_compose.
    pose proof (ForEachStorage_nodup c x.1) as Hn. erewrite list_fmap_ext; [exact Hn|]. intros i [k v] _. apply hash_back.
  + apply Forall_forall. intros st (kv & -> & _)%list_elem_of_fmap. split; [apply hash_not_blank|intros []%elem_of_nil].
Qed.

(** C37: An exported genesis validates and, loaded into a store without contracts in which
    their accounts exist, gives back the parameters and for every contract its code
    hash, its code and every slot; nobody else becomes a contract or gets a slot, and
    accounts and balances are untouched. *)
Theorem evm_genesis_roundtrip ps c ps0 c0 :
  contracts_ok c → EvmParams_Validate validChannel (GetEvmParams ps) = Ok tt → moduleAccountSet = true →
  cKV c0 = mkEvmKV ∅ ∅ ∅ → (∀ a, is_Some (codeHashes (cKV c) !! a) → is_Some (AuthGetAccount (cAuth c0) (AccAddress a))) →
  let g := EvmExportGenesis (ps, c) in
  EvmGenesisState_Validate g = Ok tt ∧ ∃ ps' c', EvmInitGenesis (ps0, c0) g = (Ok tt, (ps', c')) ∧
    GetEvmParams ps' = GetEvmParams ps ∧ sameRest c0 c' ∧
    (∀ a, is_Some (codeHashes (cKV c) !! a) →
       KeeperGetCodeHash c' a = KeeperGetCodeHash c a ∧
       KeeperGetCode c' (KeeperGetCodeHash c a) = KeeperGetCode c (KeeperGetCodeHash c a) ∧
       ∀ k, KeeperGetState c' a k = KeeperGetState c a k) ∧
    (∀ a, codeHashes (cKV c) !! a = None → KeeperIsContract c' a = false ∧ ∀ k, KeeperGetState c' a k = zeroHash).
Proof.
intros Hok Hv Hm Hkv Hau g. split; [by apply export_validates|]. destruct Hok as [Hok Hlen].
destruct (initAccounts_export c (IterateContracts c)) with (c0 := c0) as (c' & Hi & Hs & F1 & F2 & F3); [apply IterateContracts_nodup|done| |].
{ apply Forall_forall. intros [a h] Hx%(list_elem_of_fmap_2 fst). by apply Hau, IterateContracts_keys. }
rewrite Hkv in F1, F2, F3. cbn [codeHashes codes storage] in F1, F2, F3.
exists (mkParamStore (Some (GetEvmParams ps)) (legacyParams ps0)), c'. split_and!; [|done..| |].
- unfold EvmInitGenesis. cbn [geParams geAccounts g EvmExportGenesis fst snd]. rewrite SetEvmParams_validated by done. rewrite Hm. cbn [negb]. by rewrite Hi.
- intros a [v Hv']. pose proof (proj2 (IterateContracts_keys c a) (mk_is_Some _ _ Hv')) as Hin.
  assert (Hel : (a, BytesToHash v) ∈ IterateContracts c).
  { apply list_elem_of_fmap in Hin as ([a' h'] & -> & Hel). cbn in *. destruct (IterateContracts_elem _ _ _ Hel) as (v' & E & ->). congruence. }
  assert (HC : KeeperGetCodeHash c a = BytesToHash v).
  { unfold KeeperGetCodeHash. rewrite Hv'. destruct (String.length v =? 0)%nat eqn:El; [|done]. apply Nat.eqb_eq in El. destruct v; [|done]. by apply Hlen in Hv'. }
  rewrite HC. split_and!.
  + unfold KeeperGetCodeHash. rewrite F1, (elem_of_list_to_map_1 _ _ (BytesToHash v)) by (done || apply IterateContracts_nodup).
    by rewrite Bytes_length, BytesToHash_Bytes.
  + unfold KeeperGetCode. rewrite F2, decide_True; [done|]. by apply (list_elem_of_fmap_2 snd) in Hel.
  + intros k. unfold KeeperGetState, GetFastState. rewrite F3, decide_True by done. destruct (storage (cKV c) !! (a, k)) as [w|]; [|done].
    rewrite Bytes_length, BytesToHash_Bytes. cbn. destruct (String.length w =? 0)%nat eqn:El; [|done]. apply Nat.eqb_eq in El. by destruct w.
- intros a Hn. assert (Hin : a ∉ (IterateContracts c).*1) by (rewrite IterateContracts_keys, Hn; by intros []). split.
  + unfold KeeperIsContract. rewrite F1, not_elem_of_list_to_map_1 by done. by rewrite bool_decide_eq_false_2 by (by intros []).
  + intros k. unfold KeeperGetState, GetFastState. by rewrite F3, decide_False by done.
Qed.
End genesis.

(** ** x/evm genesis and parameters: evaluation

    A store with one contract, exported and loaded again; the defaults; and a list
    whose spelling makes it ineffective. *)

From S2P Require Import Sha256 EvmVM Erc20Example.

Module EvmGenesisExample.
Import Erc20Example.Erc20Example.

#[export] Instance hex : EthHex := {
  HashHex h := ("0x" +:+ encodeHex (Bytes h))%string;
  HexToHash s := BytesToHash (default ""%string (DecodeString (unprefixed s)));
  Bytes2Hex := encodeHex;
  Hex2Bytes s := default ""%string (DecodeString s);
}.
#[export] Instance hexHashLaws : EthHexLaws hex.
Proof.
split; cbn [HashHex HexToHash Bytes2Hex Hex2Bytes hex].
- intros h. rewrite unprefixed_hex, DecodeString_encodeHex. apply BytesToHash_Bytes.
- done.
- intros b. by rewrite DecodeString_encodeHex.
Qed.

Definition anyChannel (_ : string) : bool := true.
Definition contract : Address := pad20 "token".
Definition code : string := "PUSH".
Definition slot : Hash := BytesToHash "k".
Definition kv : EvmKV :=
  mkEvmKV {[contract := Bytes (Keccak256 code)]} {[Keccak256 code := code]} {[(contract, slot) := "v"%string]}.
Definition accounts : auth := ({[acc contract := 1]}, ∅).
Definition c : EvmCtx ledger unit auth := mkEvmCtx (mkLedger ∅ ∅) tt accounts kv.
Definition c0 : EvmCtx ledger unit auth := mkEvmCtx (mkLedger ∅ ∅) tt accounts (mkEvmKV ∅ ∅ ∅).
Definition ps : ParamStore := mkParamStore (Some DefaultEvmParams) DefaultEvmParams.

Lemma contracts : contracts_ok c.
Proof.
split.
- assert (IterateContracts c = [(contract, Keccak256 code)]) as -> by (vm_compute; reflexivity).
  constructor; [|constructor]. split_and!.
  + reflexivity.
  + intros E. apply (f_equal (fun h => bool_decide (h = EmptyCodeHash))) in E. vm_compute in E. done.
  + exists code. split; vm_compute; reflexivity.
- intros a. unfold c, kv, cKV, codeHashes. destruct (decide (a = contract)) as [->|]; [by rewrite lookup_singleton_eq|by rewrite lookup_singleton_ne].
Qed.

Lemma evm_genesis_roundtrip_witness :
  EvmGenesisState_Validate anyChannel (EvmExportGenesis (ps, c)) = Ok tt ∧
  ∃ ps' c', EvmInitGenesis anyChannel acc true (ps, c0) (EvmExportGenesis (ps, c)) = (Ok tt, (ps', c')) ∧
    KeeperGetState c' contract slot = KeeperGetState c contract slot.
Proof.
destruct (evm_genesis_roundtrip anyChannel acc true ps c ps c0) as (Hv & ps' & c' & Hi & _ & _ & Hc & _).
- exact contracts.
- vm_compute. reflexivity.
- reflexivity.
- reflexivity.
- intros a [v Hv]. unfold c, kv, cKV, codeHashes in Hv. apply lookup_singleton_Some in Hv as [<- _].
  exists (contract, 1). vm_compute. reflexivity.
- split; [exact Hv|]. exists ps', c'. split; [exact Hi|]. apply Hc. eexists. apply lookup_singleton_eq.
Defined.

(** The defaults pass validation; the ATOX precompile is built in and not among them. *)
Example defaults :
  EvmParams_Validate anyChannel DefaultEvmParams = Ok tt ∧
  GetStaticPrecompileInstance DefaultEvmParams (HexToAddress BridgeAdapterPrecompileAddress) = Ok true ∧
  GetStaticPrecompileInstance DefaultEvmParams (HexToAddress AtoxPrecompileAddress) = Ok false.
Proof. vm_compute. done. Qed.

(** An address that is not built in passes validation, and calls to it panic. *)
Definition unknown : Address := pad20 "unknown".
Example unknown_precompile :
  EvmParams_Validate anyChannel (with_active [AddressHex unknown] DefaultEvmParams) = Ok tt ∧
  GetStaticPrecompileInstance (with_active [AddressHex unknown] DefaultEvmParams) unknown =
    Err (Plain "precompiled contract not stored in memory").
Proof. vm_compute. done. Qed.

(** The same address in two spellings. *)
Definition blocked : string := "0xABCDEFABCDEFABCDEFABCDEFABCDEFABCDEFABCD".
Lemma blocklist_spelling_witness :
  let p := mkEvmParams ["ethereum_3855"%string] false ["channel-10"; "channel-31"; "channel-83"]%string
             (mkAccessParam 0 []) (mkAccessParam 0 [blocked]) DefaultStaticPrecompiles in
  EvmParams_Validate anyChannel p = Ok tt ∧ CanCall (accessControlOf p) (HexToAddress blocked) (HexToAddress blocked) = true.
Proof.
apply (blocklist_spelling anyChannel DefaultEvmParams blocked (HexToAddress blocked) (HexToAddress blocked)).
- vm_compute. reflexivity.
- intros E. apply (f_equal (fun s => bool_decide (s = blocked))) in E. vm_compute in E. done.
- vm_compute. reflexivity.
Defined.
End EvmGenesisExample.
