(* ===== verification/Upgrade.v ===== *)
(** * app/upgrades/v20_4: the upgrade after the bridge incident

    Models upgrades.go: new rate limits for the bridge, the interchain-accounts host
    and the ICS-20 precompile switched off, and two movements of funds that run
    isolated: the return of ATOX stuck at a contract, and the clawback of ATOS that
    a replay had issued, from the holder's balance, unbonding entries and
    delegations.  The bank is that of [Bank]; the staking module of the SDK, the
    migrations of the modules and the bech32 encoding are parameters.  The handlers
    of v19.2 to v20.3 follow at the end. *)

From stdpp Require Import gmap strings list sorting.
From Stdlib Require Import ZArith Lia.
From S2P Require Import Prelude SdkMath Erc20Types EvmStateDB EvmParams BridgeLimits BridgeKeeper Bank.

Open Scope Z_scope.

Definition StuckAtoxHolder : string := "atoshi1c2mpcwc2us4juqax2tpeksa26eul7lerxfvmdn".
Definition StuckAtoxDenom : denom := "aatox".
Definition StuckAtoxRecipient : string := "atoshi160nyl9p32gtw9sarddtmt6w4lqf5jwcu49h7nr".
Definition ClawbackTarget : string := "atoshi17q4u05f7pf0ztk5t8z2gs7yaegwz3pnkhj03d5".
Definition ClawbackAtos : Z := 44000000.
Definition MigrationPoolName : string := "migration_pool".
Definition NotBondedPoolName : string := "not_bonded_tokens_pool".
Definition BondedPoolName : string := "bonded_tokens_pool".

(** ** The staking module *)
Record UnbondingEntry := mkUnbondingEntry {
  CreationHeight : Z; UnbondingId : Z; EntryBalance : Z; InitialBalance : Z; UnbondingOnHoldRefCount : Z;
}.
Record UnbondingDelegation := mkUnbondingDelegation { ubdDelegator : string; ubdValidator : string; Entries : list UnbondingEntry }.
Record Delegation := mkDelegation { dValidator : string; dShares : Dec }.

(** Over its own state [K]; unbonding runs hooks that move coins too. *)
Class StakingKeeper (B S K : Type) := {
  Validator : Type;
  ValAddressFromBech32 : string → option addr;
  GetDelegatorDelegations : K → addr → Z → result (list Delegation);
  GetValidator : K → addr → result Validator;
  SharesFromTokensTruncated : Validator → Z → result Dec;
  IsBonded : Validator → bool;
  Unbond : (B * S) * K → addr → addr → Dec → result Z * ((B * S) * K);
  GetUnbondingDelegations : K → addr → Z → result (list UnbondingDelegation);
  SetUnbondingDelegation : K → UnbondingDelegation → result unit * K;
  RemoveUnbondingDelegation : K → UnbondingDelegation → result unit * K;
}.

(** Parameters of the interchain-accounts host. *)
Record ICAParams := mkICAParams { HostEnabled : bool; AllowMessages : list string }.

Record UpCtx (B S K : Type) := mkUpCtx {
  uBank : B * S; uStake : K; uBridge : BridgeStore; uICA : ICAParams; uEvm : ParamStore;
}.
Arguments mkUpCtx {B S K}.
Arguments uBank {B S K}.
Arguments uStake {B S K}.
Arguments uBridge {B S K}.
Arguments uICA {B S K}.
Arguments uEvm {B S K}.

(** ** The new limits *)
Definition atos (n : Z) : Z := n * 10 ^ 18.
Definition retuned (p : Params) : Params := {|
  Enabled := Enabled p; EthereumDomain := EthereumDomain p; TierReleaseVault := TierReleaseVault p;
  AtosPerErc20 := AtosPerErc20 p; BridgeEnabled := BridgeEnabled p; MailboxId := MailboxId p;
  RemoteBridgeVault := RemoteBridgeVault p; GlobalDailyCap := atos 100000000; GlobalDailyCapBpsOfPool := 4;
  PerAddressDailyBps := 3000; MinTransferOut := MinTransferOut p; SmallTransferThreshold := SmallTransferThreshold p;
  SmallQuotaBps := SmallQuotaBps p; CrisisPoolBps := CrisisPoolBps p; IsmId := IsmId p;
  InboundDailyCap := atos 600000000; InboundDailyCapBpsOfPool := 30; RateLimitsDisabled := RateLimitsDisabled p;
  pMaxTransferIn := atos 100000000; pMaxTransferOut := atos 60000000; InboundPerAddressDailyBps := 1670;
  pInboundSmallThreshold := atos 1000000; Guardians := Guardians p;
|}.
Definition retuneRateLimits (k : Keeper) (s : BridgeStore) : result BridgeStore := SetParams k s (retuned (GetParams s)).

(** ** Switches *)
Definition closeICAHost (wired : bool) (p : ICAParams) : ICAParams :=
  if negb wired then p
  else if negb (HostEnabled p) && bool_decide (AllowMessages p = []) then p
  else mkICAParams false [].

Section evm.
Context `{EthAddresses}.
Variable validChannel : string → bool.
Definition notICS20 (l : list string) : list string := filter (fun a => HexToAddress a ≠ HexToAddress ICS20PrecompileAddress) l.
Definition dropICS20Precompile (wired : bool) (s : ParamStore) : ParamStore :=
  if negb wired then s
  else
    let p := GetEvmParams s in
    let kept := notICS20 (ActiveStaticPrecompiles p) in
    if (length kept =? length (ActiveStaticPrecompiles p))%nat then s
    else (SetEvmParams validChannel s (with_active kept p)).2.
End evm.

(** ** Unbonding entries *)
Definition entry_le (e f : UnbondingEntry) : Prop :=
  CreationHeight e < CreationHeight f ∨ CreationHeight e = CreationHeight f ∧ UnbondingId e <= UnbondingId f.
#[export] Instance entry_le_dec : RelDecision entry_le.
Proof. intros e f. unfold entry_le. apply _. Defined.
Definition ubd_le (x y : UnbondingDelegation) : Prop := string_le (ubdValidator x) (ubdValidator y).
#[export] Instance ubd_le_dec : RelDecision ubd_le.
Proof. intros x y. unfold ubd_le. apply _. Defined.
Definition del_le (x y : Delegation) : Prop := string_le (dValidator x) (dValidator y).
#[export] Instance del_le_dec : RelDecision del_le.
Proof. intros x y. unfold del_le. apply _. Defined.

Definition withBalance (x : Z) (e : UnbondingEntry) : UnbondingEntry :=
  mkUnbondingEntry (CreationHeight e) (UnbondingId e) x (InitialBalance e) (UnbondingOnHoldRefCount e).

(** Whether an entry stays as it is. *)
Definition untouched (remaining : Z) (e : UnbondingEntry) : bool :=
  negb (0 <? remaining) || negb (0 <? EntryBalance e) || (0 <? UnbondingOnHoldRefCount e).

(** What is still owed, what was taken, and the entries kept. *)
Fixpoint takeEntries (remaining : Z) (es : list UnbondingEntry) : Z * Z * list UnbondingEntry :=
  match es with
  | [] => (remaining, 0, [])
  | e :: es =>
      if untouched remaining e then
        let '(remaining, taken, kept) := takeEntries remaining es in (remaining, taken, e :: kept)
      else
        let take := Z.min (EntryBalance e) remaining in
        let e := withBalance (EntryBalance e - take) e in
        let '(remaining, taken, kept) := takeEntries (remaining - take) es in
        (remaining, take + taken, if 0 <? EntryBalance e then e :: kept else kept)
  end.

(** What can be taken of unbonding entries. *)
Definition reach (es : list UnbondingEntry) : Z :=
  foldr (fun e x => (if (0 <? EntryBalance e) && negb (0 <? UnbondingOnHoldRefCount e) then EntryBalance e else 0) + x) 0 es.
Definition balances (es : list UnbondingEntry) : Z := foldr (fun e x => EntryBalance e + x) 0 es.

Lemma reach_cons e es :
  reach (e :: es) = (if (0 <? EntryBalance e) && negb (0 <? UnbondingOnHoldRefCount e) then EntryBalance e else 0) + reach es.
Proof. done. Qed.
Lemma balances_cons e es : balances (e :: es) = EntryBalance e + balances es.
Proof. done. Qed.
Lemma reach_nonneg es : 0 <= reach es.
Proof.
induction es as [|e es IH]; [done|]. rewrite reach_cons.
destruct (0 <? EntryBalance e) eqn:E; cbn [andb]; [|lia]. destruct (negb _); boolP; lia.
Qed.

Lemma reach_perm es fs : es ≡ₚ fs → reach es = reach fs.
Proof. induction 1; rewrite ?reach_cons in *; lia. Qed.
Lemma balances_perm es fs : es ≡ₚ fs → balances es = balances fs.
Proof. induction 1; unfold balances in *; cbn; lia. Qed.

(** Everything reachable is taken up to what is owed, and what was taken is what the
    entries lose; held entries stay as they are. *)
Lemma takeEntries_spec es : ∀ x rest taken kept, 0 <= x → takeEntries x es = (rest, taken, kept) →
  taken = Z.min x (reach es) ∧ rest = x - taken ∧ balances kept = balances es - taken ∧
  ∀ e, 0 < UnbondingOnHoldRefCount e → e ∈ kept ↔ e ∈ es.
Proof.
induction es as [|e es IH]; intros x rest taken kept Hx; cbn [takeEntries].
- intros [= <- <- <-]. cbn. split_and!; [lia|lia|lia|done].
- pose proof (reach_nonneg es) as Hr. unfold untouched. rewrite reach_cons, balances_cons.
  destruct (negb (0 <? x) || negb (0 <? EntryBalance e) || (0 <? UnbondingOnHoldRefCount e)) eqn:Eu.
  + destruct (takeEntries x es) as [[rest' taken'] kept'] eqn:E. intros [= -> -> <-].
    destruct (IH _ _ _ _ Hx E) as (I1 & I2 & I3 & I4). split_and!; [|done| |].
    * destruct (0 <? x) eqn:E1, (0 <? EntryBalance e) eqn:E2, (0 <? UnbondingOnHoldRefCount e); cbn in *; try done; boolP; lia.
    * rewrite balances_cons. lia.
    * intros f Hf. rewrite !elem_of_cons, I4 by done. done.
  + apply orb_false_iff in Eu as [[E1 E2]%orb_false_iff E3]. apply negb_false_iff in E1, E2.
    rewrite E2, E3. cbn [andb negb EntryBalance withBalance]. remember (Z.min (EntryBalance e) x) as t eqn:Ht.
    destruct (takeEntries (x - t) es) as [[rest' taken'] kept'] eqn:E. intros [= <- <- <-]. boolP.
    destruct (IH (x - t) rest' taken' kept') as (I1 & I2 & I3 & I4); [lia|exact E|]. split_and!; [lia|lia| |].
    * destruct (0 <? EntryBalance e - t) eqn:E4; rewrite ?balances_cons; cbn [EntryBalance withBalance]; boolP; lia.
    * intros f Hf. assert (Hne : f ≠ e) by (intros ->; lia).
      assert (Hne' : f ≠ withBalance (EntryBalance e - t) e) by (intros ->; cbn in Hf; lia).
      destruct (0 <? _); rewrite ?elem_of_cons, I4 by done; naive_solver.
Qed.

Section funds.
Context {B S K : Type} `{BankOps B} `{StakingKeeper B S K}.
Variable r : Restriction B S.
Variable AccAddressFromBech32 : string → option addr.
Variable BaseDenom : denom.
Abbreviation state := ((B * S) * K)%type.
Implicit Types (w : state).

Fixpoint unbondingLoop (ubds : list UnbondingDelegation) (remaining : Z) w : result Z * state :=
  match ubds with
  | [] => (Ok remaining, w)
  | ubd :: ubds =>
      if negb (0 <? remaining) then (Ok remaining, w)
      else
        let '(remaining, taken, kept) := takeEntries remaining (merge_sort entry_le (Entries ubd)) in
        if negb (0 <? taken) then unbondingLoop ubds remaining w
        else
          let ubd := mkUnbondingDelegation (ubdDelegator ubd) (ubdValidator ubd) kept in
          let '(res, k) :=
            if bool_decide (kept = []) then RemoveUnbondingDelegation w.2 ubd else SetUnbondingDelegation w.2 ubd in
          match res with
          | Err e => (Err e, (w.1, k))
          | Ok _ =>
              match SendCoinsFromModuleToModule r w.1 NotBondedPoolName MigrationPoolName (NewCoins BaseDenom taken) with
              | (Err e, b) => (Err e, (b, k))
              | (Ok _, b) => unbondingLoop ubds remaining (b, k)
              end
          end
  end.

Definition clawbackUnbonding (target : addr) (remaining : Z) w : result Z * state :=
  match GetUnbondingDelegations w.2 target 100 with
  | Err e => (Err e, w)
  | Ok ubds => unbondingLoop (merge_sort ubd_le ubds) remaining w
  end.

(** ** Delegations *)
Definition takeDelegation (target : addr) (d : Delegation) (remaining : Z) w : result Z * state :=
  match ValAddressFromBech32 (dValidator d) with
  | None => (Err (Plain "validator address"), w)
  | Some valAddr =>
      match GetValidator w.2 valAddr with
      | Err e => (Err e, w)
      | Ok val =>
          match SharesFromTokensTruncated val remaining with
          | Err e => (Err e, w)
          | Ok want =>
              let shares := if want <? dShares d then want else dShares d in
              if negb (0 <? shares) then (Ok remaining, w)
              else
                match Unbond w target valAddr shares with
                | (Err e, w) => (Err e, w)
                | (Ok returned, w) =>
                    if negb (0 <? returned) then (Ok remaining, w)
                    else
                      let source := if IsBonded val then BondedPoolName else NotBondedPoolName in
                      match SendCoinsFromModuleToModule r w.1 source MigrationPoolName (NewCoins BaseDenom returned) with
                      | (Err e, b) => (Err e, (b, w.2))
                      | (Ok _, b) => (Ok (remaining - returned), (b, w.2))
                      end
                end
          end
      end
  end.

Fixpoint delegationLoop (target : addr) (ds : list Delegation) (remaining : Z) w : result Z * state :=
  match ds with
  | [] => (Ok remaining, w)
  | d :: ds =>
      if negb (0 <? remaining) then (Ok remaining, w)
      else
        match takeDelegation target d remaining w with
        | (Err e, w) => (Err e, w)
        | (Ok remaining, w) => delegationLoop target ds remaining w
        end
  end.

(** The balance, then unbonding entries, then delegations. *)
Definition takeLiquid (target : addr) (remaining : Z) w : result Z * state :=
  let bal := GetBalance w.1.1 target BaseDenom in
  if negb (0 <? bal) then (Ok remaining, w)
  else
    let take := Z.min bal remaining in
    match SendCoins r w.1 target (ModuleAddress MigrationPoolName) (NewCoins BaseDenom take) with
    | (Err e, b) => (Err e, (b, w.2))
    | (Ok _, b) => (Ok (remaining - take), (b, w.2))
    end.

Definition clawback w : result unit * state :=
  match AccAddressFromBech32 ClawbackTarget with
  | None => (Err (Plain "target address"), w)
  | Some target =>
      match takeLiquid target (atos ClawbackAtos) w with
      | (Err e, w) => (Err e, w)
      | (Ok remaining, w) =>
          if negb (0 <? remaining) then (Ok tt, w)
          else
            match clawbackUnbonding target remaining w with
            | (Err e, w) => (Err e, w)
            | (Ok remaining, w) =>
                if negb (0 <? remaining) then (Ok tt, w)
                else
                  match GetDelegatorDelegations w.2 target 100 with
                  | Err e => (Err e, w)
                  | Ok dels => let '(res, w) := delegationLoop target (merge_sort del_le dels) remaining w in (_ ← res; Ok tt, w)
                  end
            end
      end
  end.

(** ** The stuck ATOX *)
Definition recoverStuckAtox w : result unit * state :=
  if bool_decide (StuckAtoxRecipient = ""%string) then (Err (Plain "no recipient configured"), w)
  else match AccAddressFromBech32 StuckAtoxHolder with
  | None => (Err (Plain "holder address"), w)
  | Some from =>
      match AccAddressFromBech32 StuckAtoxRecipient with
      | None => (Err (Plain "recipient address"), w)
      | Some to =>
          let bal := GetBalance w.1.1 from StuckAtoxDenom in
          if negb (0 <? bal) then (Err (Plain "holder has nothing to recover"), w)
          else let '(res, b) := SendCoins r w.1 from to (NewCoins StuckAtoxDenom bal) in (res, (b, w.2))
      end
  end.

(** Neither an error nor a panic leaves anything behind. *)
Definition isolate (step : state → result unit * state) w : result unit * state :=
  match step w with
  | (Err e, _) => (Err e, w)
  | (Ok _, w') => (Ok tt, w')
  end.

(** ** The handler *)
Context `{EthAddresses}.
Variable validChannel : string → bool.
Variable k : Keeper.
Variables icaWired evmWired : bool.
Variable RunMigrations : UpCtx B S K → result unit * UpCtx B S K.

Definition upgradeHandler (c : UpCtx B S K) : result unit * UpCtx B S K :=
  match RunMigrations c with
  | (Err e, c) => (Err e, c)
  | (Ok _, c) =>
      match retuneRateLimits k (uBridge c) with
      | Err e => (Err e, c)
      | Ok bridge =>
          let ica := closeICAHost icaWired (uICA c) in
          let evm := dropICS20Precompile validChannel evmWired (uEvm c) in
          let w := (isolate recoverStuckAtox (uBank c, uStake c)).2 in
          let w := (isolate clawback w).2 in
          (Ok tt, mkUpCtx w.1 w.2 bridge ica evm)
      end
  end.

(** ** What the clawback takes *)
Context `{!BankLaws _}.
(** Restrictions let sends of the base coin pass as they are. *)
Hypothesis r_passes : ∀ v from to x y v', r v from to [(BaseDenom, x)] = (Ok y, v') → y = to ∧ v'.1 = v.1.
(** The coins that hooks of staking move never come from or go to the migration pool. *)
Hypothesis unbond_leaves_pool : ∀ w a v x y w', Unbond w a v x = (Ok y, w') →
  GetBalance w'.1.1 (ModuleAddress MigrationPoolName) BaseDenom = GetBalance w.1.1 (ModuleAddress MigrationPoolName) BaseDenom.
(** Shares that truncation gives for an amount are worth at most that amount. *)
Hypothesis unbond_at_most : ∀ w a v val x want shares y w',
  GetValidator w.2 v = Ok val → SharesFromTokensTruncated val x = Ok want → shares <= want →
  Unbond w a v shares = (Ok y, w') → y <= x.

Definition pool w : Z := GetBalance w.1.1 (ModuleAddress MigrationPoolName) BaseDenom.

Lemma send_to_pool b from x b' :
  0 < x → from ≠ ModuleAddress MigrationPoolName →
  SendCoins r b from (ModuleAddress MigrationPoolName) (NewCoins BaseDenom x) = (Ok tt, b') →
  GetBalance b'.1 (ModuleAddress MigrationPoolName) BaseDenom = GetBalance b.1 (ModuleAddress MigrationPoolName) BaseDenom + x.
Proof.
intros Hx Hne. unfold NewCoins. rewrite (proj2 (Z.eqb_neq x 0)) by lia. destruct b as [b s].
intros (b1 & to' & b2 & s2 & b3 & E1 & E2 & E3 & ->)%send_spec. apply r_passes in E2 as [-> E2]. cbn in *. subst b2.
assert (Hv : coins_valid [(BaseDenom, x)]) by (repeat constructor; cbn; lia).
apply sub_spec in E1 as (_ & E1 & _); [|done]. apply add_spec in E3 as (E3 & _); [|done].
rewrite E3, E1, at_addr_eq, (at_addr_ne from) by done. cbn. rewrite decide_True by done. lia.
Qed.

Lemma module_send_to_pool b m x b' :
  0 < x → m ≠ MigrationPoolName →
  SendCoinsFromModuleToModule r b m MigrationPoolName (NewCoins BaseDenom x) = (Ok tt, b') →
  GetBalance b'.1 (ModuleAddress MigrationPoolName) BaseDenom = GetBalance b.1 (ModuleAddress MigrationPoolName) BaseDenom + x.
Proof. rewrite send_module_module. intros Hx Hm. apply send_to_pool; [done|]. by intros ?%ModuleAddress_inj. Qed.

Definition reachable (ubds : list UnbondingDelegation) : Z := foldr (fun u x => reach (Entries u) + x) 0 ubds.
Lemma reachable_perm l l' : l ≡ₚ l' → reachable l = reachable l'.
Proof. induction 1; unfold reachable in *; cbn; lia. Qed.
Lemma reachable_nonneg l : 0 <= reachable l.
Proof. induction l as [|u l IH]; cbn; [done|]. pose proof (reach_nonneg (Entries u)). fold (reachable l). lia. Qed.

Lemma unbondingLoop_spec l : ∀ x w rest w', 0 <= x → unbondingLoop l x w = (Ok rest, w') →
  rest = x - Z.min x (reachable l) ∧ pool w' = pool w + (x - rest).
Proof.
induction l as [|u l IH]; intros x w rest w' Hx; cbn [unbondingLoop].
{ intros [= -> ->]. cbn. lia. }
cbn [reachable foldr]. fold (reachable l). pose proof (reachable_nonneg l) as Hl. pose proof (reach_nonneg (Entries u)) as Hu.
destruct (0 <? x) eqn:Ex; cbn [negb]; boolP; [|intros [= -> ->]; lia].
destruct (takeEntries x _) as [[x' t] kept] eqn:Et. apply takeEntries_spec in Et as (T1 & T2 & _); [|done].
rewrite (reach_perm _ (Entries u)) in T1 by apply merge_sort_Permutation.
destruct (0 <? t) eqn:E0; cbn [negb]; boolP.
- destruct (if bool_decide (kept = []) then _ else _) as [[|e] k1]; [|done].
  destruct (SendCoinsFromModuleToModule _ _ _ _ _) as [[[]|] b] eqn:Es; [|done]. intros Hi.
  apply module_send_to_pool in Es; [|done|done]. apply IH in Hi as [I1 I2]; [|lia]. unfold pool in *. cbn in I2. lia.
- intros Hi. apply IH in Hi as [I1 I2]; lia.
Qed.

Lemma takeDelegation_spec a d x w rest w' : 0 <= x → takeDelegation a d x w = (Ok rest, w') →
  0 <= rest <= x ∧ pool w' = pool w + (x - rest).
Proof.
intros Hx. unfold takeDelegation. destruct (ValAddressFromBech32 _) as [v|]; [|done]. destruct (GetValidator w.2 v) as [val|] eqn:Ev; [|done].
destruct (SharesFromTokensTruncated val x) as [want|] eqn:Ew; [|done]. set (shares := if _ <? _ then _ else _).
destruct (0 <? shares); cbn [negb]; [|intros [= -> ->]; lia]. destruct (Unbond _ _ _ _) as [[y|] w1] eqn:Eu; [|done].
assert (Hy : y <= x).
{ apply (unbond_at_most _ _ _ _ _ _ _ _ _ Ev Ew) in Eu; [done|]. unfold shares. destruct (want <? dShares d) eqn:El; boolP; lia. }
apply unbond_leaves_pool in Eu. destruct (0 <? y) eqn:E0; cbn [negb]; boolP; [|intros [= -> ->]; unfold pool; lia].
destruct (SendCoinsFromModuleToModule _ _ _ _ _) as [[[]|] b] eqn:Es; [|done]. intros [= <- <-].
apply module_send_to_pool in Es; [|done|by destruct (IsBonded val)]. unfold pool in *. cbn. lia.
Qed.

Lemma delegationLoop_spec a l : ∀ x w rest w', 0 <= x → delegationLoop a l x w = (Ok rest, w') →
  0 <= rest <= x ∧ pool w' = pool w + (x - rest).
Proof.
induction l as [|d l IH]; intros x w rest w' Hx; cbn [delegationLoop]; [intros [= -> ->]; lia|].
destruct (0 <? x) eqn:Ex; cbn [negb]; [|intros [= -> ->]; lia].
destruct (takeDelegation a d x w) as [[x1|] w1] eqn:Ed; [|done]. apply takeDelegation_spec in Ed as [? ?]; [|done].
intros Hi. apply IH in Hi as [? ?]; lia.
Qed.

Lemma takeLiquid_spec a x w rest w' : 0 < x → a ≠ ModuleAddress MigrationPoolName → takeLiquid a x w = (Ok rest, w') →
  rest = x - Z.min x (GetBalance w.1.1 a BaseDenom) ∧ pool w' = pool w + (x - rest) ∧ w'.2 = w.2.
Proof.
intros Hx Hne. unfold takeLiquid. pose proof (balance_nonneg w.1.1 a BaseDenom). destruct (0 <? _) eqn:E0; cbn [negb]; boolP; [|intros [= -> ->]; split_and!; [lia|lia|done]].
destruct (SendCoins _ _ _ _ _) as [[[]|] b] eqn:Es; [|done]. intros [= <- <-]. cbn.
apply send_to_pool in Es; [|lia|done]. unfold pool in *. cbn. split_and!; [lia|lia|done].
Qed.

(** C35: A clawback that goes through never takes more than the amount the replay had issued;
    up to that amount it takes at least what is liquid and what is in unbonding entries
    that no module holds, and all of it goes to the migration pool. *)
Theorem clawback_bounded target w w' :
  AccAddressFromBech32 ClawbackTarget = Some target → target ≠ ModuleAddress MigrationPoolName →
  clawback w = (Ok tt, w') →
  0 <= pool w' - pool w <= atos ClawbackAtos ∧
  ∀ ubds, GetUnbondingDelegations w.2 target 100 = Ok ubds →
    Z.min (atos ClawbackAtos) (GetBalance w.1.1 target BaseDenom + reachable ubds) <= pool w' - pool w.
Proof.
intros Ht Hne. unfold clawback. rewrite Ht. assert (Hpos : 0 < atos ClawbackAtos) by done. revert Hpos. generalize (atos ClawbackAtos). intros cap Hcap.
pose proof (balance_nonneg w.1.1 target BaseDenom) as Hb.
destruct (takeLiquid target cap w) as [[x1|] w1] eqn:E1; [|done]. apply takeLiquid_spec in E1 as (L1 & L2 & L3); [|done|done].
destruct (0 <? x1) eqn:X1; cbn [negb]; boolP; [|intros [= <-]; split; [lia|]; intros ubds _; lia].
unfold clawbackUnbonding. rewrite L3. destruct (GetUnbondingDelegations w.2 target 100) as [ubds|]; [|done].
destruct (unbondingLoop _ _ _) as [[x2|] w2] eqn:E2; [|done]. apply unbondingLoop_spec in E2 as [U1 U2]; [|lia].
rewrite (reachable_perm _ ubds) in U1 by apply merge_sort_Permutation. pose proof (reachable_nonneg ubds) as Hr.
destruct (0 <? x2) eqn:X2; cbn [negb]; boolP; [|intros [= <-]; split; [lia|]; intros ? [= <-]; lia].
destruct (GetDelegatorDelegations _ _ _) as [dels|]; [|done]. destruct (delegationLoop _ _ _ _) as [[x3|] w3] eqn:E3; [|done].
apply delegationLoop_spec in E3 as [D1 D2]; [|lia]. cbn [mbind result_bind]. intros [= <-]. split; [lia|]. intros ? [= <-]. lia.
Qed.
Lemma isolate_all_or_nothing step w :
  step w = (Ok tt, (isolate step w).2) ∨ (∃ e w', step w = (Err e, w')) ∧ (isolate step w).2 = w.
Proof. unfold isolate. destruct (step w) as [[[]|e] w']; [by left|]. right. split; [by exists e, w'|done]. Qed.

Lemma retuned_valid f p : Params_Validate f p = Ok tt → Params_Validate f (retuned p) = Ok tt.
Proof.
unfold Params_Validate. intros Hv. repeat (apply guard_Ok in Hv as [? Hv]). apply bind_Ok in Hv as ([] & Hg & Hv).
repeat (apply guard_Ok in Hv as [? Hv]). repeat (apply guard_Ok; split; [reflexivity || assumption|]).
apply bind_Ok. exists tt. split; [exact Hg|]. repeat (apply guard_Ok; split; [reflexivity || assumption|]). reflexivity.
Qed.

Lemma retune_succeeds s p : GetParams s = p → Params_Validate (BridgeKeeper.AccAddressFromBech32 k) p = Ok tt →
  ∃ s', retuneRateLimits k s = Ok s' ∧ GetParams s' = retuned p ∧ sReceiptState s' = sReceiptState s ∧ sRateLimit s' = sRateLimit s.
Proof. intros <- Hv. unfold retuneRateLimits, SetParams. rewrite retuned_valid by done. cbn [mbind result_bind]. by eexists. Qed.

Lemma drop_spec s : EvmParams_Validate validChannel (GetEvmParams s) = Ok tt →
  ActiveStaticPrecompiles (GetEvmParams (dropICS20Precompile validChannel true s)) = notICS20 (ActiveStaticPrecompiles (GetEvmParams s)).
Proof.
intros Hv. unfold dropICS20Precompile. cbn [negb]. destruct (_ =? _)%nat eqn:El.
- apply Nat.eqb_eq in El. unfold notICS20 in *. symmetry. induction (ActiveStaticPrecompiles _) as [|x l IH]; [done|].
  rewrite filter_cons in *. destruct (decide _); cbn in El.
  + f_equal. apply IH. lia.
  + pose proof (length_filter (fun a => HexToAddress a ≠ HexToAddress ICS20PrecompileAddress) l). lia.
- rewrite SetEvmParams_validated; [done|]. by apply filter_validates.
Qed.

(** C36: The upgrade cannot stop the chain: once the migrations have run on valid
    parameters it succeeds whatever the holders have done.  The limits are the new
    ones, the host is closed, the ICS-20 precompile is off and all others as before,
    and each movement of funds happened as a whole or not at all. *)
Theorem upgrade_completes c c1 :
  RunMigrations c = (Ok tt, c1) → Params_Validate (BridgeKeeper.AccAddressFromBech32 k) (GetParams (uBridge c1)) = Ok tt →
  EvmParams_Validate validChannel (GetEvmParams (uEvm c1)) = Ok tt → icaWired = true → evmWired = true →
  ∃ c2, upgradeHandler c = (Ok tt, c2) ∧ GetParams (uBridge c2) = retuned (GetParams (uBridge c1)) ∧
    uICA c2 = mkICAParams false [] ∧
    (∀ x, x ∈ ActiveStaticPrecompiles (GetEvmParams (uEvm c2)) ↔
       x ∈ ActiveStaticPrecompiles (GetEvmParams (uEvm c1)) ∧ HexToAddress x ≠ HexToAddress ICS20PrecompileAddress) ∧
    ∃ w, let w0 := (uBank c1, uStake c1) in let w2 := (uBank c2, uStake c2) in
      (recoverStuckAtox w0 = (Ok tt, w) ∨ (∃ e w', recoverStuckAtox w0 = (Err e, w')) ∧ w = w0) ∧
      (clawback w = (Ok tt, w2) ∨ (∃ e w', clawback w = (Err e, w')) ∧ w2 = w).
Proof.
intros Hm Hp He Hi Hw. destruct (retune_succeeds _ _ eq_refl Hp) as (s & Hs & Hg & _). unfold upgradeHandler. rewrite Hm, Hs.
eexists. split; [reflexivity|]. cbn [uBridge uICA uEvm uBank uStake]. split_and!; [done| | |].
- rewrite Hi. unfold closeICAHost. destruct (uICA c1) as [[] l]; cbn; [done|]. by case_bool_decide; subst.
- intros x. rewrite Hw, drop_spec by done. unfold notICS20. rewrite list_elem_of_filter. tauto.
- exists (isolate recoverStuckAtox (uBank c1, uStake c1)).2. split; [apply isolate_all_or_nothing|].
  pose proof (isolate_all_or_nothing clawback (isolate recoverStuckAtox (uBank c1, uStake c1)).2) as Hc.
  by destruct (isolate clawback _).2 as [[]].
Qed.
End funds.

(** ** app/upgrades/v20_4: evaluation

    A holder with a balance, two unbonding entries of which one is held by another
    module, and a delegation to a slashed validator. *)

From S2P Require Import Erc20Example.

Module UpgradeExample.
Import Erc20Example.Erc20Example.

(** ** A staking module: tokens and shares of validators, delegations, entries *)
Record stake := mkStake { vals : gmap string (Z * Z); dels : list Delegation; ubds : list UnbondingDelegation }.

Definition validator (k : stake) (v : addr) : result (Z * Z) :=
  match vals k !! v with
  | Some (tokens, shares) => guard! (0 <? tokens) && (0 <? shares) else Plain "empty validator"; Ok (tokens, shares)
  | None => Err (Plain "validator not found")
  end.
Definition drop (v : addr) (x : Dec) (d : Delegation) : Delegation :=
  if bool_decide (dValidator d = v) then mkDelegation v (dShares d - x) else d.
Definition unbond (w : (ledger * unit) * stake) (a v : addr) (x : Dec) : result Z * ((ledger * unit) * stake) :=
  match validator w.2 v with
  | Err e => (Err e, w)
  | Ok (tokens, shares) =>
      let y := x * tokens / shares in
      (Ok y, (w.1, mkStake (<[v := (tokens - y, shares - x)]> (vals w.2)) (map (drop v x) (dels w.2)) (ubds w.2)))
  end.

#[export] Instance staking : StakingKeeper ledger unit stake := {
  Validator := Z * Z;
  ValAddressFromBech32 x := Some x;
  GetDelegatorDelegations k _ _ := Ok (dels k);
  GetValidator := validator;
  SharesFromTokensTruncated val x := Ok (val.2 * x / val.1);
  IsBonded _ := true;
  Unbond := unbond;
  GetUnbondingDelegations k _ _ := Ok (ubds k);
  SetUnbondingDelegation k u := (Ok tt, mkStake (vals k) (dels k) (map (fun x => if bool_decide (ubdValidator x = ubdValidator u) then u else x) (ubds k)));
  RemoveUnbondingDelegation k u := (Ok tt, mkStake (vals k) (dels k) (filter (fun x => ubdValidator x ≠ ubdValidator u) (ubds k)));
}.

Lemma unbond_pool w a v x y w' : unbond w a v x = (Ok y, w') → w'.1 = w.1.
Proof. unfold unbond. destruct (validator w.2 v) as [[tokens shares]|]; [|done]. by intros [= _ <-]. Qed.

Lemma unbond_truncated w a v val x want shares y w' :
  validator w.2 v = Ok val → Ok (val.2 * x / val.1) = Ok want → shares <= want → unbond w a v shares = (Ok y, w') → y <= x.
Proof.
unfold unbond. intros Hv [= <-] Hs. rewrite Hv. destruct val as [tokens total]. intros [= <- _]. cbn in Hs.
unfold validator in Hv. destruct (vals w.2 !! v) as [[]|]; [|done]. apply guard_Ok in Hv as [[Ht Hp]%andb_prop [= -> ->]]. boolP.
transitivity (total * x / total); [|rewrite Z.mul_comm, Z.div_mul by lia; done].
apply Z.div_le_mono; [done|]. pose proof (Z.mul_div_le (total * x) tokens Ht). nia.
Qed.

Definition holder : addr := ClawbackTarget.
Definition base : denom := AtoshiBaseDenom.
Definition bank : ledger :=
  mkLedger (list_to_map [((holder, base), 5000000000000000000000000%N); ((l_module NotBondedPoolName, base), 8000000000000000000000000%N);
    ((l_module BondedPoolName, base), 45000000000000000000000000%N); ((StuckAtoxHolder, StuckAtoxDenom), 7%N)]) ∅.
Definition entries : list UnbondingEntry :=
  [mkUnbondingEntry 20 2 (atos 2000000) (atos 2000000) 1; mkUnbondingEntry 10 1 (atos 6000000) (atos 6000000) 0].
Definition k0 : stake :=
  mkStake {["val"%string := (atos 45000000, atos 50000000 * 10 ^ 18)]} [mkDelegation "val" (atos 40000000 * 10 ^ 18)]
    [mkUnbondingDelegation holder "val" entries].
Definition w0 : (ledger * unit) * stake := ((bank, tt), k0).
Definition bech32 (s : string) : option addr := Some s.
Definition after := (clawback anyone bech32 base w0).2.

Lemma anyone_checks (v : ledger * unit) from to (x : Z) y v' : anyone v from to [(base, x)] = (Ok y, v') → y = to ∧ v'.1 = v.1.
Proof. by intros [= <- <-]. Qed.
Lemma pool_kept (w : (ledger * unit) * stake) a v x y w' : Unbond w a v x = (Ok y, w') →
  GetBalance w'.1.1 (ModuleAddress MigrationPoolName) base = GetBalance w.1.1 (ModuleAddress MigrationPoolName) base.
Proof. intros E%unbond_pool. by rewrite E. Qed.
Lemma paired {A W} (x : result A * W) a : x.1 = Ok a → x = (Ok a, x.2).
Proof. destruct x. cbn. by intros ->. Qed.

(** All but one unit is recovered: 5 million from the balance, 6 from the entry that
    nobody holds, 33 from the delegation, where converting to shares and back loses
    one. *)
Lemma clawback_bounded_witness :
  0 <= pool base after - pool base w0 <= atos ClawbackAtos ∧ atos 11000000 <= pool base after - pool base w0 ∧
  pool base after - pool base w0 = atos ClawbackAtos - 1.
Proof.
assert (Hok : (clawback anyone bech32 base w0).1 = Ok tt) by (vm_compute; reflexivity).
assert (Hne : holder ≠ ModuleAddress MigrationPoolName) by (vm_compute; discriminate).
assert (Ht : bech32 ClawbackTarget = Some holder) by reflexivity.
pose proof (clawback_bounded anyone bech32 base anyone_checks pool_kept unbond_truncated holder w0 after Ht Hne (paired _ _ Hok)) as [Hb Hl].
split; [exact Hb|]. split; [|vm_compute; reflexivity]. specialize (Hl (ubds k0) eq_refl).
assert (E : Z.min (atos ClawbackAtos) (GetBalance w0.1.1 holder base + reachable (ubds k0)) = atos 11000000) by (vm_compute; reflexivity).
rewrite E in Hl. exact Hl.
Defined.

Definition bridge : Keeper := mkKeeper "gov" (fun x => Some x) (fun _ => ""%string) (fun msg => Body msg).
Definition c0 : UpCtx ledger unit stake :=
  mkUpCtx (bank, tt) k0 emptyBridgeStore (mkICAParams true ["*"%string]) (mkParamStore (Some DefaultEvmParams) DefaultEvmParams).
Definition anyChannel (_ : string) : bool := true.

Lemma upgrade_completes_witness :
  ∃ c, upgradeHandler anyone bech32 base anyChannel bridge true true (fun c => (Ok tt, c)) c0 = (Ok tt, c) ∧
    uICA c = mkICAParams false [] ∧ pMaxTransferIn (GetParams (uBridge c)) = atos 100000000.
Proof.
destruct (upgrade_completes anyone bech32 base anyChannel bridge true true (fun c => (Ok tt, c)) c0 c0) as (c & Hc & Hp & Hi & _).
- reflexivity.
- vm_compute. reflexivity.
- vm_compute. reflexivity.
- reflexivity.
- reflexivity.
- exists c. split; [exact Hc|]. split; [exact Hi|]. by rewrite Hp.
Defined.
End UpgradeExample.

(** ** app/upgrades v19.2 to v20.3

    The earlier handlers, over the modules they change: code for the ERC-20
    extensions, refreshed energy snapshots, inflation switched off, delegations of
    energy limited to a day.  The migrations of the modules are a parameter. *)

From S2P Require Import Prelude SdkMath Bank EnergyTypes EnergyKeeper EvmStateDB EvmKeeper Erc20Types Erc20Keeper Inflation.

(** ** v19.2: [true] when the migrations ran *)
Section v19_2.
Context `{EvmEnv} {B S A : Type} `{BankOps B} `{AuthKeeper A} `{EthAddresses} `{ReadBuffer}.
Variable evmDenom : denom.
Variable AccAddress : Address → addr.
Variable r : Restriction B S.
Variable Erc20Bytecode : string.
Abbreviation W := (Erc20World B S A).
Abbreviation register := (RegisterERC20CodeHash evmDenom AccAddress r Erc20Bytecode).

Fixpoint addCodeLoop (pairs : list TokenPair) (w : W) : result unit * W :=
  match pairs with
  | [] => (Ok tt, w)
  | tp :: pairs =>
      if negb (IsNativeCoin tp) then addCodeLoop pairs w
      else match register w (GetERC20Contract tp) with
      | (Err e, w) => (Err e, w)
      | (Ok _, w) => addCodeLoop pairs w
      end
  end.
Definition AddCodeToERC20Extensions (w : W) : result unit * W := addCodeLoop (GetTokenPairs (wStore w)) w.

Definition upgradeV19_2 (RunMigrations : W → result unit * W) (w : W) : result bool * W :=
  match AddCodeToERC20Extensions w with
  | (Ok _, w) => (Ok false, w)
  | (Err _, w) => let '(x, w) := RunMigrations w in (_ ← x; Ok true, w)
  end.

(** The migrations run only when the step before them has failed. *)
Lemma v19_2_migrates RunMigrations w w' :
  upgradeV19_2 RunMigrations w = (Ok true, w') → ∃ e, (AddCodeToERC20Extensions w).1 = Err e.
Proof. unfold upgradeV19_2. destruct (AddCodeToERC20Extensions w) as [[[]|e] w1]; [done|]. by exists e. Qed.
End v19_2.

(** ** v20.1 and v20.3: x/energy *)
Section energy.
Context {B : Type} `{BankOps B}.
Variable k : EnergyKeeper.Keeper.
Variable RunMigrations : EnergyStore → result unit * EnergyStore.

Definition upgradeV20_1 (ctx : Ctx) (b : B) (s : EnergyStore) : result unit * EnergyStore :=
  match RunMigrations s with
  | (Err e, s) => (Err e, s)
  | (Ok _, s) => (Ok tt, (RefreshAllSnapshots k ctx b s).2)
  end.

Definition oneDay (p : EnergyTypes.Params) : EnergyTypes.Params := {|
  EnergyEnabled := EnergyEnabled p; TxEnergyHoldingThreshold := TxEnergyHoldingThreshold p;
  TxEnergyPerThreshold := TxEnergyPerThreshold p; TxEnergyMaxAccrueWindow := TxEnergyMaxAccrueWindow p;
  DeployHoldingThreshold := DeployHoldingThreshold p; DeployEnergyCapacity := DeployEnergyCapacity p;
  DeployRecoverDays := DeployRecoverDays p; InsufficientGasPrice := InsufficientGasPrice p;
  SubsidizedMsgTypeUrls := SubsidizedMsgTypeUrls p; PrivacyRelayerWhitelist := PrivacyRelayerWhitelist p;
  pDefaultDelegationDurationSeconds := 86400; MaxDelegationDurationSeconds := 86400;
|}.
Definition upgradeV20_3 (s : EnergyStore) : result unit * EnergyStore :=
  match RunMigrations s with
  | (Err e, s) => (Err e, s)
  | (Ok _, s) =>
      match EnergyKeeper.SetParams k s (oneDay (EnergyKeeper.GetParams s)) with
      | Err e => (Err e, s)
      | Ok s => (Ok tt, s)
      end
  end.

Lemma v20_3_succeeds s s1 :
  RunMigrations s = (Ok tt, s1) → EnergyTypes.Validate (EnergyKeeper.AccAddressFromBech32 k) (EnergyKeeper.GetParams s1) = Ok tt →
  ∃ s', upgradeV20_3 s = (Ok tt, s') ∧ EnergyKeeper.GetParams s' = oneDay (EnergyKeeper.GetParams s1) ∧ sAccounts s' = sAccounts s1.
Proof.
intros Hm Hv. unfold upgradeV20_3, EnergyKeeper.SetParams. rewrite Hm.
assert (EnergyTypes.Validate (EnergyKeeper.AccAddressFromBech32 k) (oneDay (EnergyKeeper.GetParams s1)) = Ok tt) as ->.
{ unfold EnergyTypes.Validate in *. repeat (apply guard_Ok in Hv as [? Hv]). repeat (apply guard_Ok; split; [reflexivity || assumption|]). done. }
cbn [mbind result_bind]. by eexists.
Qed.
End energy.

(** ** v20.2: x/inflation *)
Section inflation.
Context {D : LegacyDecOps} {PW : DecPower} {B S : Type} {ops : BankOps B}.
Variable k : InflationKeeper B S.
Variable r : Restriction B S.
Variable RunMigrations : InflationCtx B S → result unit * InflationCtx B S.

Definition disabled (p : Inflation.Params) : Inflation.Params :=
  Inflation.mkParams (MintDenom p) (Exponential p) (Distribution p) false.
Definition upgradeV20_2 (w : InflationCtx B S) : result unit * InflationCtx B S :=
  match RunMigrations w with
  | (Err e, w) => (Err e, w)
  | (Ok _, w) =>
      let p := infParams (iStore w) in
      (Ok tt, if EnableInflation p then with_istore (SetInflationParams (iStore w) (disabled p)) w else w)
  end.

(** After it no end of an epoch mints anything. *)
Lemma v20_2_stops_minting w w1 id n :
  upgradeV20_2 w = (Ok tt, w1) → ∃ w2, infAfterEpochEnd k r w1 id n = Ok w2 ∧ iBank w2 = iBank w1 ∧
    EnableInflation (infParams (iStore w2)) = false.
Proof.
unfold upgradeV20_2. destruct (RunMigrations w) as [[]  w0]; [|done]. intros [= <-].
assert (Ho : ∀ w, EnableInflation (infParams (iStore w)) = false → ∃ w2, infAfterEpochEnd k r w id n = Ok w2 ∧ iBank w2 = iBank w ∧
  EnableInflation (infParams (iStore w2)) = false).
{ intros w' E. unfold infAfterEpochEnd. rewrite E. cbn [negb]. destruct (decide _); eexists; by split_and!. }
destruct (EnableInflation (infParams (iStore w0))) eqn:E; by apply Ho.
Qed.
End inflation.
