(* ===== verification/VestingPrecompile.v ===== *)
(** * precompiles/vesting

    Models types.go, tx.go, query.go, approve.go and [Run] of vesting.go: the messages
    of x/vesting ([VestingKeeper]) as calls of contracts and wallets.  Grants of the
    authz module of the SDK are the class [GrantKeeper]. *)

From stdpp Require Import gmap strings list.
From Stdlib Require Import ZArith Lia.
From S2P Require Import Prelude Bank VestingSchedule VestingAccount VestingKeeper EvmStateDB EvmJournal EvmVM PrecompileRun.

Open Scope Z_scope.

Definition ErrDifferentFromOrigin : error := Plain "tx origin address does not match the from address".
Definition ErrDifferentFunderOrigin : error := Plain "tx origin address does not match the funder address".
Definition ErrAuthzDoesNotExistOrExpired : error := Plain "authorization does not exist or is expired".
Definition ErrArgs : error := Plain "invalid number of arguments".
Definition ErrType : error := Plain "invalid type".
Definition ErrInvalidMsgType : error := Plain "invalid message type".

Definition FundVestingAccountMsgURL : string := "/evmos.vesting.v2.MsgFundVestingAccount".
Definition UpdateVestingFunderMsgURL : string := "/evmos.vesting.v2.MsgUpdateVestingFunder".
Definition ClawbackMsgURL : string := "/evmos.vesting.v2.MsgClawback".
Definition DefaultExpirationDuration : Z := 365 * 24 * 3600.

Class GrantKeeper (C : Type) := {
  (** an authorization of the granter for the grantee that has not expired *)
  HasGrant : C → addr → addr → string → bool;
  (** a generic authorization for a type of message, until a time *)
  SaveGenericGrant : C → addr → addr → string → Z → result unit * C;
}.

(** [validateBasicArgs] *)
Definition validateBasicArgs (args : list AbiValue) (n : nat) : result (Address * Address) :=
  guard! (length args =? n)%nat else ErrArgs;
  match args with
  | AbiAddress funder :: AbiAddress vesting :: _ => Ok (funder, vesting)
  | _ => Err ErrType
  end.

(** A list of coins that is a valid [sdk.Coins]: sorted without repetition, positive. *)
Fixpoint sortedCoins (cs : list (string * Z)) : bool :=
  match cs with
  | [] => true
  | (d, x) :: cs' =>
      (0 <? x) && match cs' with [] => true | (d', _) :: _ => bool_decide (string_le d d' ∧ d ≠ d') end && sortedCoins cs'
  end.

Section precompile.
Context `{EvmEnv} {C B S A G : Type} `{BankOps B} `{AccountKeeper A} `{GovKeeper G} `{K : StateKeeper C} `{GrantKeeper C}.
Context {part : Part C (VestingCtx B S A G)}.
Abbreviation V := (VestingCtx B S A G).
Variable k : Keeper B S.
Variable r : Restriction B S.
Variable AccAddress : Address → addr.
Variable validDenom : string → bool.          (** [sdk.ValidateDenom] *)
Variable evmDenom : denom.
Variable zero : Address.
Variable abi : Abi.
Variable self : Address.                      (** [VestingPrecompileAddress] *)
Variable blockTime : Z.
Variable origin : Address.
Implicit Types (s : StateDB C) (args : list AbiValue) (ct : Contract).

Definition text (a : Address) : string := AddressString k (AccAddress a).

(** ** types.go *)
Definition NewMsgCreateClawbackVestingAccount args : result (MsgCreate * Address * Address) :=
  '(funder, vesting) ← validateBasicArgs args 3;
  match args with
  | [_; _; AbiBool enable] =>
      let msg := mkMsgCreate (text funder) (text vesting) enable in
      _ ← MsgCreate_ValidateBasic k msg; Ok (msg, funder, vesting)
  | _ => Err ErrType
  end.

(** [sdk.NewCoin] panics on a negative amount or an invalid denomination. *)
Definition newCoins (ps : list (Z * list (string * Z))) : result unit :=
  guard! forallb (fun p => forallb (fun c => validDenom c.1 && (0 <=? c.2)) p.2) ps else Plain "panic: invalid coin"; Ok tt.

(** The periods as [ValidateBasic] reads them. *)
Fixpoint createCosmosPeriodsFromPeriod (ps : list (Z * list (string * Z))) : result Periods :=
  match ps with
  | [] => Ok []
  | (len, cs) :: ps =>
      guard! negb (len <? 1) else ErrInvalidRequest;
      guard! sortedCoins cs else ErrInvalidCoins;
      l ← createCosmosPeriodsFromPeriod ps; Ok (mkPeriod len (list_to_map cs) :: l)
  end.

Definition NewMsgFundVestingAccount args : result (MsgFund * Address * Address) :=
  '(funder, vesting) ← validateBasicArgs args 5;
  match args with
  | [_; _; AbiUint64 startTime; AbiPeriods lockup; AbiPeriods vestingPeriods] =>
      _ ← newCoins vestingPeriods;
      _ ← newCoins lockup;
      _ ← bech32 k (text funder);
      v ← bech32 k (text vesting); _ ← notZero k v;
      lockup ← createCosmosPeriodsFromPeriod lockup;
      vestingPeriods ← createCosmosPeriodsFromPeriod vestingPeriods;
      let msg := mkMsgFund (text funder) (text vesting) (i64 startTime) lockup vestingPeriods in
      _ ← MsgFund_ValidateBasic k msg; Ok (msg, funder, vesting)
  | _ => Err ErrType
  end.

Definition NewMsgClawback args : result (MsgClawback * Address * Address * Address) :=
  '(funder, account) ← validateBasicArgs args 3;
  match args with
  | [_; _; AbiAddress dest] =>
      let msg := mkMsgClawback (text funder) (text account) (text dest) in
      _ ← MsgClawback_ValidateBasic k msg; Ok (msg, funder, account, dest)
  | _ => Err ErrType
  end.

Definition NewMsgUpdateVestingFunder args : result (MsgUpdateFunder * Address * Address * Address) :=
  guard! (length args =? 3)%nat else ErrArgs;
  match args with
  | [AbiAddress funder; AbiAddress newFunder; AbiAddress vesting] =>
      let msg := mkMsgUpdateFunder (text funder) (text newFunder) (text vesting) in
      _ ← MsgUpdateFunder_ValidateBasic k msg; Ok (msg, funder, newFunder, vesting)
  | _ => Err ErrType
  end.

Definition NewMsgConvertVestingAccount args : result (string * Address) :=
  guard! (length args =? 1)%nat else ErrArgs;
  match args with
  | [AbiAddress vesting] => _ ← MsgConvert_ValidateBasic k (text vesting); Ok (text vesting, vesting)
  | _ => Err ErrType
  end.

Definition checkApprovalArgs args : result (Address * string) :=
  guard! (length args =? 2)%nat else ErrArgs;
  match args with
  | [AbiAddress grantee; AbiString typeURL] =>
      guard! negb (bool_decide (grantee = zero)) else Plain "invalid granter address";
      guard! negb (bool_decide (typeURL = ""%string)) else Plain "invalid method";
      Ok (grantee, typeURL)
  | _ => Err ErrType
  end.

(** ** tx.go *)

(** The funder acts itself, as the signer or as the calling contract; a contract that
    acts for the signer needs a grant. *)
Definition funderMayAct ct (funder : Address) (url : string) (e : error) (c : C) : result unit :=
  let isContractCaller := negb (bool_decide (ctCaller ct = origin)) in
  let isContractFunder := bool_decide (ctCaller ct = funder) && isContractCaller in
  guard! isContractFunder || bool_decide (origin = funder) else e;
  guard! negb (isContractCaller && negb isContractFunder && negb (HasGrant c (AccAddress (ctCaller ct)) (AccAddress funder) url))
    else ErrAuthzDoesNotExistOrExpired;
  Ok tt.

(** The message on the module, then the event and the output. *)
Definition runMessage {X} (run : V → result X * V) (name event : string) (values : list AbiValue)
    (output : X → list AbiValue) (entries : X → list balanceChangeEntry) s : result (string * list balanceChangeEntry) * StateDB C :=
  match run (view (storeCtx s)) with
  | (Err e, v) => (Err e, updateCtx v s)
  | (Ok x, v) =>
      let s := updateCtx v s in
      match emitEvent self abi event values s with
      | (Err e, s) => (Err e, s)
      | (Ok _, s) => (bz ← PackOutputs abi name (output x); Ok (bz, entries x), s)
      end
  end.

(** What a contract call moved of the coin of the EVM, for the journal. *)
Definition movedEntries ct (from to : Address) (moved : Coins) : list balanceChangeEntry :=
  let x := default 0 (moved !! evmDenom) in
  if negb (bool_decide (ctCaller ct = origin)) && (0 <? x) then
    let amt := x * ConversionFactor EVMCoinDecimals in [mkBalanceChangeEntry from amt Sub; mkBalanceChangeEntry to amt Add]
  else [].

Definition CreateAccountCall args s : result (string * list balanceChangeEntry) * StateDB C :=
  match NewMsgCreateClawbackVestingAccount args with
  | Err e => (Err e, s)
  | Ok (msg, funder, vesting) =>
      if negb (bool_decide (origin = vesting)) then (Err ErrDifferentFromOrigin, s)
      else runMessage (fun v => CreateClawbackVestingAccount k v msg) "createClawbackVestingAccount" "CreateClawbackVestingAccount"
             [AbiAddress funder; AbiAddress vesting] (fun _ => [AbiBool true]) (fun _ => []) s
  end.

Definition fundedCoins (msg : MsgFund) : Coins :=
  let vestingCoins := TotalAmount (mfVestingPeriods msg) in
  let lockedUpCoins := TotalAmount (mfLockup msg) in
  if IsZero vestingCoins && (bool_decide (lockedUpCoins ≠ ∅) && IsValid lockedUpCoins) then lockedUpCoins else vestingCoins.

Definition FundCall ct args s : result (string * list balanceChangeEntry) * StateDB C :=
  match NewMsgFundVestingAccount args with
  | Err e => (Err e, s)
  | Ok (msg, funder, vesting) =>
      match funderMayAct ct funder FundVestingAccountMsgURL ErrDifferentFromOrigin (storeCtx s) with
      | Err e => (Err e, s)
      | Ok _ =>
          runMessage (fun v => FundVestingAccount k r v msg) "fundVestingAccount" "FundVestingAccount"
            ([AbiAddress funder; AbiAddress vesting] ++ drop 2 args) (fun _ => [AbiBool true])
            (fun _ => movedEntries ct funder vesting (fundedCoins msg)) s
      end
  end.

Definition ClawbackCall ct args s : result (string * list balanceChangeEntry) * StateDB C :=
  match NewMsgClawback args with
  | Err e => (Err e, s)
  | Ok (msg, funder, account, dest) =>
      match funderMayAct ct funder ClawbackMsgURL ErrDifferentFunderOrigin (storeCtx s) with
      | Err e => (Err e, s)
      | Ok _ =>
          runMessage (fun v => Clawback k r blockTime v msg) "clawback" "Clawback"
            [AbiAddress funder; AbiAddress account; AbiAddress dest] (fun coins => [AbiCoins (coinList coins)])
            (movedEntries ct account dest) s
      end
  end.

Definition UpdateFunderCall ct args s : result (string * list balanceChangeEntry) * StateDB C :=
  match NewMsgUpdateVestingFunder args with
  | Err e => (Err e, s)
  | Ok (msg, funder, newFunder, vesting) =>
      match funderMayAct ct funder UpdateVestingFunderMsgURL ErrDifferentFunderOrigin (storeCtx s) with
      | Err e => (Err e, s)
      | Ok _ =>
          runMessage (fun v => UpdateVestingFunder k v msg) "updateVestingFunder" "UpdateVestingFunder"
            [AbiAddress funder; AbiAddress vesting; AbiAddress newFunder] (fun _ => [AbiBool true]) (fun _ => []) s
      end
  end.

Definition ConvertCall args s : result (string * list balanceChangeEntry) * StateDB C :=
  match NewMsgConvertVestingAccount args with
  | Err e => (Err e, s)
  | Ok (msg, vesting) =>
      runMessage (fun v => ConvertVestingAccount k blockTime v msg) "convertVestingAccount" "ConvertVestingAccount"
        [AbiAddress vesting] (fun _ => [AbiBool true]) (fun _ => []) s
  end.

(** ** approve.go and query.go

    The event of an approval names the granter as grantee and the grantee as granter. *)
Definition VestingApprove args s : result (string * list balanceChangeEntry) * StateDB C :=
  match checkApprovalArgs args with
  | Err e => (Err e, s)
  | Ok (grantee, typeURL) =>
      if negb (bool_decide (typeURL ∈ [FundVestingAccountMsgURL; ClawbackMsgURL; UpdateVestingFunderMsgURL])) then (Err ErrInvalidMsgType, s)
      else
        match SaveGenericGrant (storeCtx s) (AccAddress grantee) (AccAddress origin) typeURL (blockTime + DefaultExpirationDuration) with
        | (Err e, c) => (Err e, set_cache (Some c) s)
        | (Ok _, c) =>
            match emitEvent self abi "Approval" [AbiAddress origin; AbiAddress grantee; AbiString typeURL] (set_cache (Some c) s) with
            | (Err e, s) => (Err e, s)
            | (Ok _, s) => (bz ← PackOutputs abi "approve" [AbiBool true]; Ok (bz, []), s)
            end
        end
  end.

Definition BalancesCall args (c : C) : result string :=
  guard! (length args =? 1)%nat else ErrArgs;
  match args with
  | [AbiAddress a] =>
      '(locked, unvested, vested) ← Balances k blockTime (view c) (text a);
      PackOutputs abi "balances" [AbiCoins (coinList locked); AbiCoins (coinList unvested); AbiCoins (coinList vested)]
  | _ => Err ErrType
  end.

(** ** vesting.go *)
Definition vestingIsTransaction (name : string) : bool :=
  bool_decide (name ∈ ["createClawbackVestingAccount"; "fundVestingAccount"; "clawback"; "updateVestingFunder"; "convertVestingAccount"; "approve"]%string).

Definition vestingHandle ct (m : CalledMethod) args s : result (string * list balanceChangeEntry) * StateDB C :=
  let name := methodName m in
  if bool_decide (name = "approve"%string) then VestingApprove args s
  else if bool_decide (name = "createClawbackVestingAccount"%string) then CreateAccountCall args s
  else if bool_decide (name = "fundVestingAccount"%string) then FundCall ct args s
  else if bool_decide (name = "clawback"%string) then ClawbackCall ct args s
  else if bool_decide (name = "updateVestingFunder"%string) then UpdateFunderCall ct args s
  else if bool_decide (name = "convertVestingAccount"%string) then ConvertCall args s
  else if bool_decide (name = "balances"%string) then (bz ← BalancesCall args (storeCtx s); Ok (bz, []), s)
  else (Ok (""%string, []), s).

Definition vestingPrecompile : Stateful := mkStateful self abi vestingIsTransaction vestingHandle.

(** ** What a call does *)
Context {partLaws : PartLaws part}.

(** The messages a funder signs. *)
Inductive FunderMsg := VFund (m : MsgFund) | VClawback (m : MsgClawback) | VUpdate (m : MsgUpdateFunder).
Definition funderOf (m : FunderMsg) : string :=
  match m with VFund m => mfFunder m | VClawback m => mcFunder m | VUpdate m => muFunder m end.
Definition urlOf (m : FunderMsg) : string :=
  match m with VFund _ => FundVestingAccountMsgURL | VClawback _ => ClawbackMsgURL | VUpdate _ => UpdateVestingFunderMsgURL end.
Definition execute (m : FunderMsg) (v : V) : result unit * V :=
  match m with
  | VFund m => FundVestingAccount k r v m
  | VClawback m => let '(x, v) := Clawback k r blockTime v m in (_ ← x; Ok tt, v)
  | VUpdate m => UpdateVestingFunder k v m
  end.

Lemma emitEvent_ctx event values s s' : emitEvent self abi event values s = (Ok tt, s') → storeCtx s' = storeCtx s.
Proof. unfold emitEvent. destruct (PackLog _ _ _) as [[]|]; [|done]. by intros [= <-]. Qed.

Lemma runMessage_ok {X} (run : V → result X * V) name event values output entries s bz es s' :
  runMessage run name event values output entries s = (Ok (bz, es), s') →
  ∃ x, run (view (storeCtx s)) = (Ok x, view (storeCtx s')) ∧ es = entries x.
Proof.
unfold runMessage. destruct (run _) as [[x|] v]; [|done]. destruct (emitEvent _ _ _ _ _) as [[[]|] s1] eqn:Ee; [|done].
apply emitEvent_ctx in Ee. intros [= (y & _ & [= <- <-])%bind_Ok <-]. exists x. split; [|done]. rewrite Ee.
unfold updateCtx, storeCtx at 2. cbn. by rewrite view_update.
Qed.

Lemma funderMayAct_ok ct funder url e c : funderMayAct ct funder url e c = Ok tt →
  (funder = origin ∨ funder = ctCaller ct) ∧
  (ctCaller ct ≠ origin → funder ≠ ctCaller ct → HasGrant c (AccAddress (ctCaller ct)) (AccAddress funder) url = true).
Proof.
unfold funderMayAct. intros [Q1 [Q2 _]%guard_Ok]%guard_Ok.
destruct (decide (ctCaller ct = origin)) as [E|E].
- rewrite (bool_decide_eq_true_2 _ E), andb_false_r in Q1. cbn in Q1. apply bool_decide_eq_true in Q1. naive_solver.
- rewrite (bool_decide_eq_false_2 _ E), !andb_true_r in Q1, Q2. destruct (decide (ctCaller ct = funder)) as [F|F]; [naive_solver|].
  rewrite (bool_decide_eq_false_2 _ F) in Q1, Q2. cbn in Q1, Q2. apply bool_decide_eq_true in Q1. rewrite negb_involutive in Q2. naive_solver.
Qed.

Lemma validateBasicArgs_ok args n a b : validateBasicArgs args n = Ok (a, b) → ∃ rest, args = AbiAddress a :: AbiAddress b :: rest.
Proof.
unfold validateBasicArgs. intros [_ E]%guard_Ok. destruct args as [|[] [|[] rest]]; try discriminate E. injection E as -> ->. by eexists.
Qed.

Lemma NewMsgFund_ok args msg funder vesting :
  NewMsgFundVestingAccount args = Ok (msg, funder, vesting) → (∃ rest, args = AbiAddress funder :: rest) ∧ mfFunder msg = text funder.
Proof.
unfold NewMsgFundVestingAccount. intros ([f v] & (rest & ->)%validateBasicArgs_ok & Hr)%bind_Ok.
destruct rest as [|[] [|[] [|[] []]]]; try discriminate Hr.
repeat (apply bind_Ok in Hr as (? & _ & Hr)). injection Hr as <- <- <-. split; [by eexists|done].
Qed.

Lemma NewMsgClawback_ok args msg funder account dest :
  NewMsgClawback args = Ok (msg, funder, account, dest) → (∃ rest, args = AbiAddress funder :: rest) ∧ mcFunder msg = text funder.
Proof.
unfold NewMsgClawback. intros ([f v] & (rest & ->)%validateBasicArgs_ok & Hr)%bind_Ok.
destruct rest as [|[] []]; try discriminate Hr. apply bind_Ok in Hr as (? & _ & Hr). injection Hr as <- <- <- <-. split; [by eexists|done].
Qed.

Lemma NewMsgUpdate_ok args msg funder new vesting :
  NewMsgUpdateVestingFunder args = Ok (msg, funder, new, vesting) → (∃ rest, args = AbiAddress funder :: rest) ∧ muFunder msg = text funder.
Proof.
unfold NewMsgUpdateVestingFunder. intros [_ Hr]%guard_Ok. destruct args as [|[] [|[] [|[] []]]]; try discriminate Hr.
apply bind_Ok in Hr as (? & _ & Hr). injection Hr as <- <- <- <-. split; [by eexists|done].
Qed.

Definition pairOf (x : Z) (from to : Address) : list balanceChangeEntry := [mkBalanceChangeEntry from x Sub; mkBalanceChangeEntry to x Add].
Lemma movedEntries_shape ct from to moved :
  movedEntries ct from to moved = [] ∨ ctCaller ct ≠ origin ∧ ∃ x, 0 <= x ∧ movedEntries ct from to moved = pairOf x from to.
Proof.
unfold movedEntries, pairOf. destruct (negb _ && _) eqn:E; [|by left]. right. apply andb_prop in E as [E1%negb_true_iff%bool_decide_eq_false E2]. boolP.
split; [done|]. eexists. split; [|reflexivity]. unfold ConversionFactor. destruct (_ =? _); lia.
Qed.

(** C38: A call on behalf of a funder that succeeds is that funder's message: the funder is
    the signer or the calling contract, a contract that acts for the signer holds its
    grant, the module's state is the one the message leaves, and the balance changes
    reported to the journal cancel out and are reported for contracts only. *)
Theorem vesting_call_authorised ct m args s bz es s' :
  vestingHandle ct m args s = (Ok (bz, es), s') →
  methodName m ∈ ["fundVestingAccount"; "clawback"; "updateVestingFunder"]%string →
  ∃ funder rest msg, args = AbiAddress funder :: rest ∧ funderOf msg = text funder ∧
    (funder = origin ∨ funder = ctCaller ct) ∧
    (ctCaller ct ≠ origin → funder ≠ ctCaller ct → HasGrant (storeCtx s) (AccAddress (ctCaller ct)) (AccAddress funder) (urlOf msg) = true) ∧
    execute msg (view (storeCtx s)) = (Ok tt, view (storeCtx s')) ∧
    (es = [] ∨ ctCaller ct ≠ origin ∧ ∃ x from to, 0 <= x ∧ es = pairOf x from to).
Proof.
intros Hh Hm. unfold vestingHandle in Hh. set_unfold in Hm. destruct Hm as [Hm|[Hm|[Hm|[]]]]; rewrite Hm in Hh; cbn [bool_decide] in Hh.
- unfold FundCall in Hh. destruct (NewMsgFundVestingAccount args) as [[[msg funder] vesting]|] eqn:En; [|done].
  destruct (funderMayAct _ _ _ _ _) as [[]|] eqn:Ef; [|done]. apply funderMayAct_ok in Ef as [F1 F2].
  apply runMessage_ok in Hh as ([] & Hr & ->). apply NewMsgFund_ok in En as [[rest ->] En].
  exists funder, rest, (VFund msg). split_and!; try done.
  destruct (movedEntries_shape ct funder vesting (fundedCoins msg)) as [E|(E & x & Hx & E')]; [by left|]. right. split; [done|]. by exists x, funder, vesting.
- unfold ClawbackCall in Hh. destruct (NewMsgClawback args) as [[[[msg funder] account] dest]|] eqn:En; [|done].
  destruct (funderMayAct _ _ _ _ _) as [[]|] eqn:Ef; [|done]. apply funderMayAct_ok in Ef as [F1 F2].
  apply runMessage_ok in Hh as (coins & Hr & ->). apply NewMsgClawback_ok in En as [[rest ->] En].
  exists funder, rest, (VClawback msg). split_and!; try done; [by cbn; rewrite Hr|].
  destruct (movedEntries_shape ct account dest coins) as [E|(E & x & Hx & E')]; [by left|]. right. split; [done|]. by exists x, account, dest.
- unfold UpdateFunderCall in Hh. destruct (NewMsgUpdateVestingFunder args) as [[[[msg funder] new] vesting]|] eqn:En; [|done].
  destruct (funderMayAct _ _ _ _ _) as [[]|] eqn:Ef; [|done]. apply funderMayAct_ok in Ef as [F1 F2].
  apply runMessage_ok in Hh as ([] & Hr & ->). apply NewMsgUpdate_ok in En as [[rest ->] En].
  exists funder, rest, (VUpdate msg). split_and!; try done. by left.
Qed.
End precompile.

(** ** The vesting precompile on a concrete chain

    The account of [VestingExample]; its funder signs a transaction to a contract that
    claws back, with and without a grant for the contract. *)

From S2P Require Import VestingExample PrecompileExample.

Module VestingCall.
Import VestingExample PrecompileExample.

(** The module's state and the grants, as grantee, granter and type of message. *)
Definition vctx : Type := VestingCtx ledger unit VestingExample.accounts gov * list (addr * addr * string).
#[export] Instance vestingPart : Part vctx (VestingCtx ledger unit VestingExample.accounts gov) := {| view c := c.1; update x c := (x, c.2) |}.
#[export] Instance vestingPartLaws : PartLaws vestingPart.
Proof. split; [done|]. by intros []. Qed.
#[export] Instance grants : GrantKeeper vctx := {
  HasGrant c grantee granter url := bool_decide ((grantee, granter, url) ∈ c.2);
  SaveGenericGrant c grantee granter url _ := (Ok tt, (c.1, (grantee, granter, url) :: c.2));
}.

Definition packAbi : Abi := prefixAbi [] (fun _ => []).
Definition call (c : vctx) (caller : Address) (name : string) (args : list AbiValue) :=
  vestingHandle k anyone (fun a => a) (fun _ => true) "atos" "zero" packAbi "vesting" 1200 "fund"
    (mkContract caller "vesting" (Some 0) 100 "vesting" None false) (Function name) args (New c cfg).
Definition clawbackArgs : list AbiValue := [AbiAddress "fund"; AbiAddress "vest"; AbiAddress "dest"].
Definition granted : vctx := (w2, [("router", "fund", ClawbackMsgURL)]).

(** The contract needs the grant, and so does not the signer itself. *)
Example contract_needs_grant :
  (call (w2, []) "router" "clawback" clawbackArgs).1 = Err ErrAuthzDoesNotExistOrExpired ∧
  (call granted "router" "clawback" clawbackArgs).1 = Ok ("true"%string, pairOf 60 "vest" "dest") ∧
  (call (w2, []) "fund" "clawback" clawbackArgs).1 = Ok ("true"%string, []).
Proof. split_and!; vm_compute; reflexivity. Qed.

Definition clawed := call granted "router" "clawback" clawbackArgs.

Lemma vesting_call_authorised_witness :
  ∃ msg, funderOf msg = "fund"%string ∧ execute k anyone 1200 msg (view granted) = (Ok tt, view (storeCtx clawed.2)).
Proof.
assert (Hok : clawed.1 = Ok ("true"%string, pairOf 60 "vest" "dest")) by (vm_compute; reflexivity).
assert (E : clawed = (Ok ("true"%string, pairOf 60 "vest" "dest"), clawed.2)) by (rewrite <- Hok; apply surjective_pairing).
unfold clawed, call in E.
destruct (vesting_call_authorised k anyone (fun a => a) (fun _ => true) "atos" "zero" packAbi "vesting" 1200 "fund" _ _ _ _ _ _ _ E)
  as (funder & rest & msg & Ha & Hf & _ & _ & Hx & _).
{ apply elem_of_cons. right. apply elem_of_cons. left. reflexivity. }
injection Ha as <- _. exists msg. split; [exact Hf|exact Hx].
Defined.
End VestingCall.
