(* ===== verification/Indexer.v ===== *)
(** * indexer and rpc/types/events.go: Ethereum transactions by hash and by number

    Models kv_indexer.go over a key-value database and the parsing of the events of a
    transaction.  The database holds bytes; the protobuf encoding of a result and the
    hexadecimal encoding of hashes are parameters.  A failed read or write of the
    database is not modelled; a batch is written as a whole.  The service that feeds
    the index is the Module [IndexerService]. *)

From stdpp Require Import countable gmap strings list sorting.
From Stdlib Require Import ZArith Lia Ascii.
From S2P Require Import Prelude EvmStateDB Erc20Types Erc20Registry OracleKeeper OracleSafety EvmParams TokenPrecompile.

Open Scope Z_scope.

(** ** Results of a block *)
Record Event := mkEvent { evType : string; Attributes : list (string * string) }.
Record ExecTxResult := mkExecTxResult { Code : Z; Log : string; resGasUsed : Z; Events : list Event }.
Record EthMsg := mkEthMsg { ethHash : string; ethGas : Z }.
(** The type URLs of the extension options, if the transaction has any; a message that
    is no Ethereum transaction is [None]. *)
Record Tx := mkTx { extensionOptions : option (list string); txMsgs : list (option EthMsg) }.

Definition EventTypeEthereumTx : string := "ethereum_tx".
Definition AttributeKeyEthereumTxHash : string := "ethereumTxHash".
Definition AttributeKeyTxIndex : string := "txIndex".
Definition AttributeKeyTxGasUsed : string := "txGasUsed".
Definition AttributeKeyEthereumTxFailed : string := "ethereumTxFailed".
Definition ExceedBlockGasLimitError : string := "out of gas in location: block gas meter; gasWanted:".
Definition StateDBCommitError : string := "failed to commit stateDB".

Record ParsedTx := mkParsedTx { pMsgIndex : Z; pHash : Hash; pEthTxIndex : Z; pGasUsed : Z; pFailed : bool }.
Record ParsedTxs := mkParsedTxs { Txs : list ParsedTx; TxHashes : gmap Hash nat }.
Inductive EventFormat := eventFormatUnknown | eventFormat1 | eventFormat2.

Record TxResult := mkTxResult {
  Height : Z; TxIndex : Z; MsgIndex : Z; EthTxIndex : Z; Failed : bool; GasUsed : Z; CumulativeGasUsed : Z;
}.

Definition panic {A} : result A := Err (Plain "panic").

(** [strconv.ParseUint] in base ten. *)
Definition ParseUint (bits : Z) (s : string) : result Z :=
  match unsigned s with
  | Some v => guard! (v <? 2 ^ bits) else Plain "value out of range"; Ok v
  | None => Err (Plain "invalid syntax")
  end.

Definition TxSucessOrExpectedFailure (res : ExecTxResult) : bool :=
  (Code res =? 0) || contains (Log res) ExceedBlockGasLimitError || contains (Log res) StateDBCommitError.

Section parse.
Variable HexToHash : string → Hash.

Definition NewParsedTx (msgIndex : Z) : ParsedTx := mkParsedTx msgIndex zeroHash (-1) 0 false.

Definition fillTxAttribute (tx : ParsedTx) (key value : string) : result ParsedTx :=
  if bool_decide (key = AttributeKeyEthereumTxHash) then
    Ok (mkParsedTx (pMsgIndex tx) (HexToHash value) (pEthTxIndex tx) (pGasUsed tx) (pFailed tx))
  else if bool_decide (key = AttributeKeyTxIndex) then
    i ← ParseUint 31 value; Ok (mkParsedTx (pMsgIndex tx) (pHash tx) i (pGasUsed tx) (pFailed tx))
  else if bool_decide (key = AttributeKeyTxGasUsed) then
    g ← ParseUint 64 value; Ok (mkParsedTx (pMsgIndex tx) (pHash tx) (pEthTxIndex tx) g (pFailed tx))
  else if bool_decide (key = AttributeKeyEthereumTxFailed) then
    Ok (mkParsedTx (pMsgIndex tx) (pHash tx) (pEthTxIndex tx) (pGasUsed tx) (0 <? String.length value)%nat)
  else Ok tx.

Fixpoint fillTxAttributes (tx : ParsedTx) (attrs : list (string * string)) : result ParsedTx :=
  match attrs with
  | [] => Ok tx
  | (key, value) :: attrs => tx ← fillTxAttribute tx key value; fillTxAttributes tx attrs
  end.

Definition newTx (p : ParsedTxs) (attrs : list (string * string)) : result ParsedTxs :=
  let msgIndex := length (Txs p) in
  tx ← fillTxAttributes (NewParsedTx (Z.of_nat msgIndex)) attrs;
  Ok (mkParsedTxs (Txs p ++ [tx]) (<[pHash tx := msgIndex]> (TxHashes p))).

(** [p.Txs[eventIndex]] outside the list is a panic. *)
Definition updateTx (p : ParsedTxs) (eventIndex : nat) (attrs : list (string * string)) : result ParsedTxs :=
  tx ← fillTxAttributes (NewParsedTx (Z.of_nat eventIndex)) attrs;
  match Txs p !! eventIndex with
  | None => panic
  | Some old =>
      let hashes := if bool_decide (pHash tx = pHash old) then TxHashes p else <[pHash tx := eventIndex]> (TxHashes p) in
      Ok (mkParsedTxs (<[eventIndex := tx]> (Txs p)) hashes)
  end.

(** [next] is the number of events of the second part so far. *)
Fixpoint parseEvents (format : EventFormat) (next : nat) (p : ParsedTxs) (events : list Event) : result ParsedTxs :=
  match events with
  | [] => Ok p
  | event :: events =>
      if negb (bool_decide (evType event = EventTypeEthereumTx)) then parseEvents format next p events
      else
        let attrs := Attributes event in
        let format :=
          match format with
          | eventFormatUnknown => if (2 <? length attrs)%nat then eventFormat1 else eventFormat2
          | f => f
          end in
        if (length attrs =? 2)%nat then p ← newTx p attrs; parseEvents format next p events
        else match format with
        | eventFormat1 => p ← newTx p attrs; parseEvents format (S next) p events
        | _ => p ← updateTx p next attrs; parseEvents format (S next) p events
        end
  end.

Definition withGas (g : Z) (tx : ParsedTx) : ParsedTx := mkParsedTx (pMsgIndex tx) (pHash tx) (pEthTxIndex tx) g (pFailed tx).
Definition failedWith (g : Z) (tx : ParsedTx) : ParsedTx := mkParsedTx (pMsgIndex tx) (pHash tx) (pEthTxIndex tx) g true.

(** Every parsed transaction takes the gas limit of its message. *)
Fixpoint chargeLimits (txs : list ParsedTx) (msgs : list (option EthMsg)) : result (list ParsedTx) :=
  match txs with
  | [] => Ok []
  | tx :: txs =>
      match msgs with
      | Some m :: msgs => l ← chargeLimits txs msgs; Ok (failedWith (ethGas m) tx :: l)
      | _ => panic
      end
  end.

Definition ParseTxResult (result : ExecTxResult) (tx : Tx) : Prelude.result ParsedTxs :=
  p ← parseEvents eventFormatUnknown 0 (mkParsedTxs [] ∅) (Events result);
  let txs := match Txs p with [x] => [withGas (u64 (resGasUsed result)) x] | l => l end in
  txs ← if negb (Code result =? 0) then chargeLimits txs (txMsgs tx) else Ok txs;
  Ok (mkParsedTxs txs (TxHashes p)).

Definition GetTxByHash (p : ParsedTxs) (h : Hash) : option ParsedTx := i ← TxHashes p !! h; Txs p !! i.
Definition GetTxByMsgIndex (p : ParsedTxs) (i : Z) : option ParsedTx :=
  if (i <? 0) || (Z.of_nat (length (Txs p)) <=? i) then None else Txs p !! Z.to_nat i.
Definition GetTxByTxIndex (p : ParsedTxs) (txIndex : Z) : option ParsedTx :=
  match Txs p with [] => None | x :: _ => GetTxByMsgIndex p (txIndex - pEthTxIndex x) end.
Definition AccumulativeGasUsed (p : ParsedTxs) (msgIndex : nat) : result Z :=
  guard! (msgIndex <? length (Txs p))%nat else Plain "index out of range";
  Ok (foldl (fun x tx => u64 (x + pGasUsed tx)) 0 (take (S msgIndex) (Txs p))).

Definition ParseTxIndexerResult (height index : Z) (result : ExecTxResult) (tx : Tx) (getter : ParsedTxs → option ParsedTx)
    : Prelude.result TxResult :=
  match ParseTxResult result tx with
  | Err _ => Err (Plain "failed to parse tx events")
  | Ok txs =>
      match getter txs with
      | None => Err (Plain "ethereum tx not found in msgs")
      | Some p =>
          cum ← if pMsgIndex p <? 0 then Ok 0 else AccumulativeGasUsed txs (Z.to_nat (pMsgIndex p));
          Ok (mkTxResult height index (pMsgIndex p) (pEthTxIndex p) (pFailed p) (pGasUsed p) cum)
      end
  end.
End parse.

(** ** The index (kv_indexer.go) *)
Definition TxHashKey (h : Hash) : string := String "001"%char (Bytes h).
Definition TxIndexKey (blockNumber txIndex : Z) : string := String "002"%char (beBytes 8 blockNumber (beBytes 8 txIndex "")).
Definition TxIndexKeyLength : nat := 17.

Definition u32 (x : Z) : Z := x mod 2 ^ 32.
Definition i32 (x : Z) : Z := (x + 2 ^ 31) mod 2 ^ 32 - 2 ^ 31.

Definition isEthTx (tx : Tx) : bool :=
  match extensionOptions tx with
  | Some [url] => bool_decide (url = "/ethermint.evm.v1.ExtensionOptionsEthereumTx"%string)
  | _ => false
  end.

Section index.
Variable HexToHash : string → Hash.
Variable TxDecoder : string → result Tx.
Variable Marshal : TxResult → string.
Variable Unmarshal : string → result TxResult.
Abbreviation DB := (gmap string string).
Implicit Types (db : DB).

Abbreviation entry := (Hash * TxResult)%type.

(** One message: nothing when the events do not tell about it. *)
Definition messageResult (height txIndex msgIndex ethTxIndex cumulative : Z) (result : ExecTxResult) (txs : ParsedTxs) (m : EthMsg)
    : option TxResult :=
  let res failed gas := mkTxResult height (u32 txIndex) (u32 msgIndex) ethTxIndex failed gas (u64 (cumulative + gas)) in
  if negb (Code result =? 0) then Some (res true (ethGas m))
  else match GetTxByMsgIndex txs msgIndex with
  | None => None
  | Some p => Some (res (pFailed p) (pGasUsed p))
  end.

Fixpoint indexMsgs (height txIndex : Z) (result : ExecTxResult) (txs : ParsedTxs) (msgIndex ethTxIndex cumulative : Z)
    (msgs : list (option EthMsg)) : Prelude.result (Z * list entry) :=
  match msgs with
  | [] => Ok (ethTxIndex, [])
  | None :: _ => panic
  | Some m :: msgs =>
      match messageResult height txIndex msgIndex ethTxIndex cumulative result txs m with
      | None => indexMsgs height txIndex result txs (msgIndex + 1) ethTxIndex cumulative msgs
      | Some res =>
          '(n, l) ← indexMsgs height txIndex result txs (msgIndex + 1) (i32 (ethTxIndex + 1)) (CumulativeGasUsed res) msgs;
          Ok (n, (HexToHash (ethHash m), res) :: l)
      end
  end.

(** The batch of one transaction, and the next number. *)
Definition indexTx (height txIndex ethTxIndex : Z) (bz : string) (result : ExecTxResult) : Prelude.result (Z * list entry) :=
  if negb (TxSucessOrExpectedFailure result) then Ok (ethTxIndex, [])
  else match TxDecoder bz with
  | Err _ => Ok (ethTxIndex, [])
  | Ok tx =>
      if negb (isEthTx tx) then Ok (ethTxIndex, [])
      else match ParseTxResult HexToHash result tx with
      | Err e => if bool_decide (e = Plain "panic") then panic else Ok (ethTxIndex, [])
      | Ok txs => indexMsgs height txIndex result txs 0 ethTxIndex 0 (txMsgs tx)
      end
  end.

(** [txResults[txIndex]] outside the list is a panic. *)
Fixpoint indexTxs (height txIndex ethTxIndex : Z) (txs : list string) (results : list ExecTxResult) : Prelude.result (list entry) :=
  match txs with
  | [] => Ok []
  | bz :: txs =>
      match results with
      | [] => panic
      | res :: results =>
          '(n, l) ← indexTx height txIndex ethTxIndex bz res;
          rest ← indexTxs height (txIndex + 1) n txs results;
          Ok (l ++ rest)
      end
  end.

Definition saveTxResult db (e : entry) : DB :=
  <[TxIndexKey (Height e.2) (EthTxIndex e.2) := Bytes e.1]> (<[TxHashKey e.1 := Marshal e.2]> db).

Definition IndexBlock db (height : Z) (txs : list string) (results : list ExecTxResult) : result DB :=
  l ← indexTxs height 0 0 txs results; Ok (foldl saveTxResult db l).

Definition GetByTxHash db (h : Hash) : result TxResult :=
  match db !! TxHashKey h with
  | None => Err (Plain "tx not found")
  | Some bz => if (String.length bz =? 0)%nat then Err (Plain "tx not found") else Unmarshal bz
  end.

Definition GetByBlockAndIndex db (blockNumber txIndex : Z) : result TxResult :=
  match db !! TxIndexKey blockNumber txIndex with
  | None => Err (Plain "tx not found")
  | Some bz => if (String.length bz =? 0)%nat then Err (Plain "tx not found") else GetByTxHash db (BytesToHash bz)
  end.

(** [BigEndianToUint64], and back to [int64]. *)
Fixpoint beValue (acc : Z) (s : string) : Z :=
  match s with EmptyString => acc | String c s => beValue (256 * acc + Z.of_N (N_of_ascii c)) s end.
Definition parseBlockNumberFromKey (key : string) : result Z :=
  guard! (String.length key =? TxIndexKeyLength)%nat else Plain "wrong tx index key length";
  Ok (i64 (beValue 0 (String.substring 1 8 key))).

(** The keys of the numbers in order. *)
Definition isIndexKey (key : string) : Prop := match key with String c _ => c = "002"%char | _ => False end.
#[export] Instance isIndexKey_dec key : Decision (isIndexKey key).
Proof. destruct key; apply _. Defined.
Definition indexKeys db : list string := sortStrings (filter isIndexKey (map fst (map_to_list db))).
Definition LoadLastBlock db : result Z := match last (indexKeys db) with None => Ok (-1) | Some key => parseBlockNumberFromKey key end.
Definition LoadFirstBlock db : result Z := match indexKeys db with [] => Ok (-1) | key :: _ => parseBlockNumberFromKey key end.

(** ** Numbers *)
Definition numbered (height start : Z) (l : list entry) : Prop :=
  ∀ j e, l !! j = Some e → EthTxIndex e.2 = start + Z.of_nat j ∧ Height e.2 = height.

Lemma numbered_app height start l l' :
  numbered height start l → numbered height (start + Z.of_nat (length l)) l' → numbered height start (l ++ l').
Proof.
intros N1 N2 j e [He|[Hj He]]%lookup_app_Some; [by apply N1|]. destruct (N2 _ _ He) as [E1 E2]. split; [lia|done].
Qed.

Lemma i32_small x : 0 <= x < 2 ^ 31 → i32 x = x.
Proof. intros Hx. unfold i32. rewrite Z.mod_small; lia. Qed.

Lemma indexMsgs_numbered height i res txs msgs : ∀ mi eth cum n l,
  0 <= eth → indexMsgs height i res txs mi eth cum msgs = Ok (n, l) → eth + Z.of_nat (length l) < 2 ^ 31 →
  n = eth + Z.of_nat (length l) ∧ numbered height eth l.
Proof.
induction msgs as [|[m|] msgs IH]; intros mi eth cum n l He; cbn [indexMsgs]; [|destruct (messageResult _ _ _ _ _ _ _ _) as [x|] eqn:Em|done].
- intros [= <- <-] _. split; [cbn; lia|]. by intros j x [=].
- intros ([n' l'] & Hi & [= <- <-])%bind_Ok Hb. cbn [length] in Hb. rewrite Nat2Z.inj_succ in Hb. rewrite i32_small in Hi by lia.
  apply IH in Hi as [-> Hn]; [|lia|lia]. split; [cbn [length]; lia|].
  intros [|j] e; cbn [lookup list_lookup].
  + intros [= <-]. cbn. unfold messageResult in Em. destruct (negb _); [|destruct (GetTxByMsgIndex _ _); [|done]]; injection Em as <-; cbn; split; [lia|done|lia|done].
  + intros Hj. destruct (Hn j e Hj) as [E1 E2]. split; [lia|done].
- intros Hi Hb. by eapply IH.
Qed.

Lemma indexTxs_numbered height txs : ∀ i eth results l,
  0 <= eth → indexTxs height i eth txs results = Ok l → eth + Z.of_nat (length l) < 2 ^ 31 → numbered height eth l.
Proof.
induction txs as [|bz txs IH]; intros i eth [|res results] l He; cbn [indexTxs]; try done.
1,2: intros [= <-] _; by intros j x [=].
intros ([n l1] & H1 & (l2 & H2 & [= <-])%bind_Ok)%bind_Ok Hb. rewrite length_app in Hb.
assert (Hn : n = eth + Z.of_nat (length l1) ∧ numbered height eth l1).
{ unfold indexTx in H1. destruct (negb _); [injection H1 as <- <-; split; [cbn; lia|by intros j x [=]]|].
  destruct (TxDecoder bz) as [tx|err0]; [|injection H1 as <- <-; split; [cbn; lia|by intros j x [=]]].
  destruct (negb _); [injection H1 as <- <-; split; [cbn; lia|by intros j x [=]]|].
  destruct (ParseTxResult _ _ _) as [p|err]; [apply indexMsgs_numbered in H1; [done|done|lia]|].
  destruct (bool_decide _); [done|]. injection H1 as <- <-. split; [cbn; lia|by intros j x [=]]. }
destruct Hn as [-> Hn]. apply numbered_app; [done|]. eapply IH; [|exact H2|]; lia.
Qed.

(** ** Keys *)
Lemma compare_refl s : String.compare s s = Eq.
Proof. induction s as [|c s IH]; [done|]. cbn. unfold Ascii.compare. by rewrite N.compare_refl. Qed.
Lemma beBytes_inj n x y a b : beBytes n x a = beBytes n y b → x mod 2 ^ (8 * Z.of_nat n) = y mod 2 ^ (8 * Z.of_nat n) ∧ a = b.
Proof.
intros E. assert (Hc : String.compare (beBytes n x a) (beBytes n y b) = Eq) by (rewrite E; apply compare_refl).
rewrite beBytes_compare in Hc. destruct (_ ?= _) eqn:Ez; [|done|done]. apply Z.compare_eq in Ez. split; [done|]. by apply String.compare_eq_iff.
Qed.

Lemma TxIndexKey_inj b i b' i' : TxIndexKey b i = TxIndexKey b' i' → b mod 2 ^ 64 = b' mod 2 ^ 64 ∧ i mod 2 ^ 64 = i' mod 2 ^ 64.
Proof.
unfold TxIndexKey. intros E. assert (E' : beBytes 8 b (beBytes 8 i "") = beBytes 8 b' (beBytes 8 i' "")) by congruence.
apply beBytes_inj in E' as [Eb [Ei _]%beBytes_inj]. done.
Qed.
Lemma TxHashKey_inj h h' : TxHashKey h = TxHashKey h' → h = h'.
Proof. unfold TxHashKey. intros [= E]. by apply Bytes_inj. Qed.
Lemma keys_differ h b i : TxHashKey h ≠ TxIndexKey b i.
Proof. done. Qed.

(** ** Lookups after a batch *)
Lemma saves_other_hash h l : ∀ db, h ∉ l.*1 → foldl saveTxResult db l !! TxHashKey h = db !! TxHashKey h.
Proof.
induction l as [|e l IH]; intros db Hn; [done|]. rewrite fmap_cons, not_elem_of_cons in Hn. destruct Hn as [Hh Hn].
cbn [foldl]. rewrite IH by done. unfold saveTxResult.
rewrite lookup_insert_ne by (intros E; symmetry in E; by apply keys_differ in E).
apply lookup_insert_ne. intros E. by apply TxHashKey_inj in E.
Qed.

Lemma saves_other_index key l : ∀ db, (∀ h, key ≠ TxHashKey h) → (∀ e, e ∈ l → TxIndexKey (Height e.2) (EthTxIndex e.2) ≠ key) →
  foldl saveTxResult db l !! key = db !! key.
Proof.
induction l as [|e l IH]; intros db Hk Hn; [done|]. cbn [foldl]. rewrite IH; [|done|intros x Hx; apply Hn; by apply list_elem_of_further].
unfold saveTxResult. rewrite lookup_insert_ne by (apply Hn, list_elem_of_here). apply lookup_insert_ne. intros E. by apply (Hk e.1).
Qed.

Lemma saves_hash h r j l db : l !! j = Some (h, r) → (∀ k r', (j < k)%nat → l !! k ≠ Some (h, r')) →
  foldl saveTxResult db l !! TxHashKey h = Some (Marshal r).
Proof.
intros Hj Hlast. rewrite <- (take_drop_middle l j _ Hj), foldl_app. cbn [foldl].
rewrite saves_other_hash; [|intros ([h' r'] & E & [k Hk]%list_elem_of_lookup)%list_elem_of_fmap].
- unfold saveTxResult. rewrite lookup_insert_ne by (intros E; symmetry in E; by apply keys_differ in E). apply lookup_insert_eq.
- cbn in E. subst h'. rewrite lookup_drop in Hk. apply (Hlast (S j + k)%nat r'); [lia|done].
Qed.

Lemma saves_index height l j h r db : numbered height 0 l → Z.of_nat (length l) < 2 ^ 31 → l !! j = Some (h, r) →
  foldl saveTxResult db l !! TxIndexKey height (Z.of_nat j) = Some (Bytes h).
Proof.
intros HN Hb Hj. destruct (HN _ _ Hj) as [En Eh]. cbn in En, Eh. pose proof (lookup_lt_Some _ _ _ Hj) as Hlt.
rewrite <- (take_drop_middle l j _ Hj), foldl_app. cbn [foldl].
rewrite saves_other_index; [| |intros e [k Hk]%list_elem_of_lookup E].
- unfold saveTxResult. cbn [fst snd]. rewrite En, Eh. apply lookup_insert_eq.
- intros h' E. symmetry in E. by apply keys_differ in E.
- rewrite lookup_drop in Hk. pose proof (lookup_lt_Some _ _ _ Hk) as Hk'. destruct (HN _ _ Hk) as [En' _]. rewrite En' in E.
  apply TxIndexKey_inj in E as [_ E]. rewrite !Z.mod_small in E by lia. lia.
Qed.

(** C39: A block that is indexed gives its Ethereum transactions consecutive numbers from
    zero.  A transaction is found by its number exactly as by its hash, and its hash
    finds the last entry the block has for it; hashes the block does not have and
    other heights keep what they had. *)
Theorem index_lookup db db' height txs results :
  (∀ r, Unmarshal (Marshal r) = Ok r) → (∀ r, Height r ≠ 0 → Marshal r ≠ ""%string) → 0 < height < 2 ^ 63 →
  IndexBlock db height txs results = Ok db' →
  ∃ l, indexTxs height 0 0 txs results = Ok l ∧
    (Z.of_nat (length l) < 2 ^ 31 → ∀ j h r, l !! j = Some (h, r) →
       Height r = height ∧ EthTxIndex r = Z.of_nat j ∧
       GetByBlockAndIndex db' height (Z.of_nat j) = GetByTxHash db' h ∧
       ((∀ k r', (j < k)%nat → l !! k ≠ Some (h, r')) → GetByTxHash db' h = Ok r)) ∧
    (∀ h, h ∉ l.*1 → GetByTxHash db' h = GetByTxHash db h) ∧
    (Z.of_nat (length l) < 2 ^ 31 → ∀ b i, 0 <= b < 2 ^ 63 → b ≠ height → db' !! TxIndexKey b i = db !! TxIndexKey b i).
Proof.
intros Hrt Hne Hh (l & Hl & [= <-])%bind_Ok. exists l. split_and!; [done| | |].
- intros Hb j h r Hj. assert (HN : numbered height 0 l) by (eapply indexTxs_numbered; [|exact Hl|]; lia).
  destruct (HN _ _ Hj) as [En Eh]. cbn in En, Eh. split_and!; [done|done| |].
  + unfold GetByBlockAndIndex. rewrite (saves_index height l j h r) by done. by rewrite Bytes_length, BytesToHash_Bytes.
  + intros Hlast. unfold GetByTxHash. rewrite (saves_hash h r j l db) by done.
    destruct (Marshal r) as [|c s] eqn:Em; [by destruct (Hne r); [lia|]|]. cbn. by rewrite <- Em.
- intros h Hn. unfold GetByTxHash. by rewrite saves_other_hash.
- intros Hb b i Hbb Hbh. apply saves_other_index; [intros h E; symmetry in E; by apply keys_differ in E|].
  intros e [k Hk]%list_elem_of_lookup E. assert (HN : numbered height 0 l) by (eapply indexTxs_numbered; [|exact Hl|]; lia).
  destruct (HN _ _ Hk) as [_ Eh]. apply TxIndexKey_inj in E as [E _]. rewrite Eh, !Z.mod_small in E by lia. lia.
Qed.
End index.

(** ** server/indexer_service.go: following the chain

    The service that hands new blocks to the index.  Two goroutines run: one reads the
    headers of new blocks, the other indexes; their steps are events that interleave in
    any order.  A fetch that fails leaves the inner loop, an indexing error is logged
    and the block is not tried again. *)


Module IndexerService.

(** Between two rounds of the outer loop, or inside the inner one at a height. *)
Inductive Phase := Outer | Inner (i : Z).

Record EVMIndexerService := mkService {
  latestBlock : Z;
  lastBlock : Z;
  newBlockSignal : bool;
  phase : Phase;
  (** Every height given to [IndexBlock] and whether it succeeded, in order. *)
  handled : list (Z * bool);
}.
Implicit Types (s : EVMIndexerService).

Inductive ServiceEvent :=
  | NewHeader (height : Z)
  (** The wait ends by the signal or by the timeout. *)
  | Signalled
  | TimedOut
  (** The outer loop finds blocks to index. *)
  | Enter
  (** One round of the inner loop; whether both fetches worked (the results are then
      those of the height asked for) and whether the indexing did. *)
  | Round (fetched indexed : bool).

(** [OnStart] up to its loops; an empty index starts at the present. *)
Definition OnStart (latest lastIndexed : Z) : EVMIndexerService :=
  mkService latest (if lastIndexed =? -1 then latest else lastIndexed) false Outer [].

Definition step (e : ServiceEvent) s : option EVMIndexerService :=
  match e, phase s with
  | NewHeader h, _ =>
      if latestBlock s <? h then Some (mkService h (lastBlock s) true (phase s) (handled s)) else Some s
  | Signalled, Outer =>
      if (latestBlock s <=? lastBlock s) && newBlockSignal s
      then Some (mkService (latestBlock s) (lastBlock s) false Outer (handled s)) else None
  | TimedOut, Outer => if latestBlock s <=? lastBlock s then Some s else None
  | Enter, Outer =>
      if latestBlock s <=? lastBlock s then None
      else Some (mkService (latestBlock s) (lastBlock s) (newBlockSignal s) (Inner (lastBlock s + 1)) (handled s))
  | Round fetched indexed, Inner i =>
      if negb ((i <=? latestBlock s) && fetched) then Some (mkService (latestBlock s) (lastBlock s) (newBlockSignal s) Outer (handled s))
      else Some (mkService (latestBlock s) i (newBlockSignal s) (Inner (i + 1)) (handled s ++ [(i, indexed)]))
  | _, _ => None
  end.

Fixpoint run (es : list ServiceEvent) s : option EVMIndexerService :=
  match es with [] => Some s | e :: es => s' ← step e s; run es s' end.

(** The heights from [a + 1] on. *)
Definition from (a : Z) (n : nat) : list Z := map (fun k => a + 1 + Z.of_nat k) (seq 0 n).

Record inv (latest0 start : Z) s : Prop := {
  inv_latest : latest0 <= latestBlock s;
  inv_handled : (handled s).*1 = from start (length (handled s));
  inv_last : lastBlock s = start + Z.of_nat (length (handled s));
  inv_bound : handled s = [] ∨ lastBlock s <= latestBlock s;
  inv_phase : ∀ i, phase s = Inner i → i = lastBlock s + 1;
}.

Lemma from_snoc a n : from a (S n) = from a n ++ [a + 1 + Z.of_nat n].
Proof. unfold from. by rewrite seq_S, map_app. Qed.

Lemma step_inv latest0 start e s s' : inv latest0 start s → step e s = Some s' → inv latest0 start s'.
Proof.
intros [I1 I2 I3 I4 I5]. destruct s as [l a n p hs]; cbn in *. unfold step; cbn.
destruct e as [h| | | |f x]; [destruct (Z.ltb_spec l h)|destruct p as [|i]; [|done]..|destruct p as [|i]; [done|]].
- intros [= <-]. split; cbn; [lia|done|done| |done]. destruct I4; [by left|right; lia].
- intros [= <-]. by split.
- destruct (_ && _) eqn:E; intros [= <-]. by split.
- destruct (l <=? a); intros [= <-]. by split.
- destruct (Z.leb_spec l a); intros [= <-]. split; cbn; try done. by intros i [= <-].
- specialize (I5 i eq_refl). destruct (negb _) eqn:E; intros [= <-]; [split; cbn; done|].
  apply negb_false_iff, andb_prop in E as [E _]. apply Z.leb_le in E. split; cbn [handled lastBlock latestBlock phase]; [done| |rewrite length_app; cbn; lia|right; lia|by intros ? [= <-]].
  rewrite fmap_app, I2, length_app. change (length [(i, x)]) with 1%nat. rewrite Nat.add_1_r, from_snoc, I5, I3. cbn [fmap list_fmap fst]. do 2 f_equal. lia.
Qed.

Lemma run_inv latest0 start es : ∀ s s', inv latest0 start s → run es s = Some s' → inv latest0 start s'.
Proof.
induction es as [|e es IH]; intros s s' Hi; [by intros [= <-]|]. cbn. intros (s1 & H1 & H2)%bind_Some.
by eapply IH, H2; eapply step_inv.
Qed.

(** However the two goroutines interleave, the heights given to the index are the
    consecutive ones after the block it started from, each once and in order, and
    never one the chain does not have; the latest height never decreases. *)
Theorem blocks_in_order es latest lastIndexed s :
  run es (OnStart latest lastIndexed) = Some s →
  let start := if lastIndexed =? -1 then latest else lastIndexed in
  (handled s).*1 = from start (length (handled s)) ∧ lastBlock s = start + Z.of_nat (length (handled s)) ∧
  (handled s = [] ∨ lastBlock s <= latestBlock s) ∧ latest <= latestBlock s.
Proof.
intros Hr. assert (inv latest (if lastIndexed =? -1 then latest else lastIndexed) s) as [].
{ eapply run_inv; [|exact Hr]. split; cbn; [lia|done|lia|by left|done]. }
by split_and!.
Qed.

(** Rounds whose fetches work. *)
Lemma rounds_catch_up latest sig n : ∀ a hs, latest = a + Z.of_nat n →
  ∃ hs', run (replicate (S n) (Round true true)) (mkService latest a sig (Inner (a + 1)) hs) = Some (mkService latest latest sig Outer hs').
Proof.
induction n as [|n IH]; intros a hs E.
- exists hs. rewrite E. cbn. rewrite (proj2 (Z.leb_gt _ _)) by lia. cbn. do 2 f_equal; lia.
- destruct (IH (a + 1) (hs ++ [(a + 1, true)]) ltac:(lia)) as [hs' Hr]. exists hs'. rewrite replicate_S. cbn [run]. unfold step at 1; cbn [phase latestBlock].
  rewrite (proj2 (Z.leb_le _ _)) by lia. exact Hr.
Qed.

(** From the outer loop, with working fetches and no new header meanwhile, the service
    catches up with the chain in one round per missing block. *)
Theorem service_catches_up s : phase s = Outer → lastBlock s < latestBlock s →
  ∃ s', run (Enter :: replicate (S (Z.to_nat (latestBlock s - lastBlock s))) (Round true true)) s = Some s' ∧
    lastBlock s' = latestBlock s ∧ phase s' = Outer.
Proof.
destruct s as [l a n p hs]. cbn [phase lastBlock latestBlock]. intros -> Hl.
destruct (rounds_catch_up l n (Z.to_nat (l - a)) a hs ltac:(lia)) as [hs' Hr].
exists (mkService l l n Outer hs'). split; [|done]. cbn [run]. unfold step at 1; cbn [phase latestBlock lastBlock].
rewrite (proj2 (Z.leb_gt _ _)) by lia. exact Hr.
Qed.

(** A block whose indexing fails is passed over: no later round is for it. *)
Lemma failed_block_skipped es latest lastIndexed s j k h :
  run es (OnStart latest lastIndexed) = Some s → handled s !! j = Some (h, false) → handled s !! k = Some (h, true) → False.
Proof.
intros Hr Hj Hk. pose proof (run_inv latest (if lastIndexed =? -1 then latest else lastIndexed) es (OnStart latest lastIndexed) s) as Hi.
destruct Hi as [_ Hh _ _ _]; [split; cbn; [lia|done|lia|by left|done]|done|].
assert (Hat : ∀ i b, handled s !! i = Some (h, b) → h = (if lastIndexed =? -1 then latest else lastIndexed) + 1 + Z.of_nat i).
{ intros i b Hi. assert (Hf : (handled s).*1 !! i = Some h) by (by rewrite list_lookup_fmap, Hi). rewrite Hh in Hf. unfold from in Hf.
  apply list_lookup_fmap_Some in Hf as (x & -> & [-> _]%lookup_seq). lia. }
assert (j = k) as -> by (pose proof (Hat _ _ Hj); pose proof (Hat _ _ Hk); lia). by rewrite Hj in Hk.
Qed.

(** A header that comes while the service indexes, and a block whose indexing fails. *)
Definition trace : list ServiceEvent :=
  [TimedOut; NewHeader 6; Enter; Round true true; NewHeader 8; Round true false; Round false true; Enter; Round true true; Round true true; Signalled].
Definition after : EVMIndexerService := mkService 8 8 false Outer [(6, true); (7, false); (8, true)].
Lemma blocks_in_order_witness :
  run trace (OnStart 5 (-1)) = Some after ∧ (handled after).*1 = from 5 3 ∧ lastBlock after = 5 + 3.
Proof.
assert (Hr : run trace (OnStart 5 (-1)) = Some after) by reflexivity.
destruct (blocks_in_order trace 5 (-1) after Hr) as (E1 & E2 & _). split; [exact Hr|split; [exact E1|exact E2]].
Defined.
End IndexerService.

(** ** The transaction index: evaluation

    A block of two Ethereum transactions around one that is not, indexed and read back;
    a result is encoded as the digits of a number. *)

From S2P Require Import EvmGenesis.

Module IndexerExample.
Import EvmGenesisExample.

Fixpoint digitsOf (p : positive) : string :=
  match p with xH => "1" | xO p => String "0"%char (digitsOf p) | xI p => String "+"%char (digitsOf p) end%string.
Fixpoint ofDigits (s : string) : option positive :=
  match s with
  | EmptyString => None
  | String c s => if bool_decide (c = "1"%char) then Some xH else p ← ofDigits s; Some (if bool_decide (c = "0"%char) then xO p else xI p)
  end.
Lemma digits_back p : ofDigits (digitsOf p) = Some p.
Proof. induction p as [p IH|p IH|]; cbn; [by rewrite IH|by rewrite IH|done]. Qed.

Abbreviation fields := (Z * Z * Z * Z * bool * Z * Z)%type.
Definition toFields (r : TxResult) : fields :=
  (Height r, TxIndex r, MsgIndex r, EthTxIndex r, Failed r, GasUsed r, CumulativeGasUsed r).
Definition ofFields (f : fields) : TxResult := let '(a, b, c, d, e, g, h) := f in mkTxResult a b c d e g h.
Definition Marshal (r : TxResult) : string := digitsOf (encode (toFields r)).
Definition Unmarshal (s : string) : result TxResult :=
  match ofDigits s ≫= (decode (A:=fields)) with Some f => Ok (ofFields f) | None => Err (Plain "proto") end.

Lemma results_back r : Unmarshal (Marshal r) = Ok r.
Proof. unfold Unmarshal, Marshal. rewrite digits_back. cbn [mbind option_bind]. rewrite decode_encode. by destruct r. Qed.
Lemma results_present r : Height r ≠ 0 → Marshal r ≠ ""%string.
Proof. intros _. unfold Marshal. by destruct (encode _). Qed.

Definition hex1 : string := HashHex (BytesToHash "first").
Definition hex2 : string := HashHex (BytesToHash "second").
Definition h1 : Hash := HexToHash hex1.
Definition h2 : Hash := HexToHash hex2.
Definition evmOption : option (list string) := Some ["/ethermint.evm.v1.ExtensionOptionsEthereumTx"%string].
Definition TxDecoder (bz : string) : result Tx :=
  if bool_decide (bz = "eth1"%string) then Ok (mkTx evmOption [Some (mkEthMsg hex1 21000)])
  else if bool_decide (bz = "eth2"%string) then Ok (mkTx evmOption [Some (mkEthMsg hex2 50000)])
  else if bool_decide (bz = "send"%string) then Ok (mkTx None [None])
  else Err (Plain "decode").
Definition done1 : ExecTxResult :=
  mkExecTxResult 0 "" 21000
    [mkEvent "ethereum_tx" [("ethereumTxHash", hex1); ("txIndex", "0")];
     mkEvent "ethereum_tx" [("amount", "1"); ("ethereumTxHash", hex1); ("txIndex", "0"); ("txGasUsed", "21000")]]%string.
Definition sent : ExecTxResult := mkExecTxResult 0 "" 100 [].
(** The second one did not fit in the block. *)
Definition outOfGas : ExecTxResult :=
  mkExecTxResult 11 "out of gas in location: block gas meter; gasWanted:50000" 50000 [].

Definition txs : list string := ["eth1"; "send"; "junk"; "eth2"]%string.
Definition results : list ExecTxResult := [done1; sent; sent; outOfGas].
Abbreviation index := (IndexBlock HexToHash TxDecoder Marshal ∅ 7 txs results).
Definition db' : gmap string string := match index with Ok d => d | Err _ => ∅ end.

Definition r1 : TxResult := mkTxResult 7 0 0 0 false 21000 21000.
Definition r2 : TxResult := mkTxResult 7 3 0 1 true 50000 50000.

Lemma indexed : index = Ok db'.
Proof.
unfold db'. assert (H : (match index with Ok _ => true | Err _ => false end) = true) by (vm_compute; reflexivity). by destruct index as [d|e]; [|discriminate H].
Qed.

Lemma index_lookup_witness :
  index = Ok db' ∧ ∃ l, indexTxs HexToHash TxDecoder 7 0 0 txs results = Ok l ∧ l = [(h1, r1); (h2, r2)] ∧
    GetByTxHash Unmarshal db' h2 = Ok r2 ∧ GetByBlockAndIndex Unmarshal db' 7 1 = Ok r2.
Proof.
split; [exact indexed|].
destruct (index_lookup HexToHash TxDecoder Marshal Unmarshal ∅ db' 7 txs results results_back results_present ltac:(lia) indexed)
  as (l & Hl & Hfound & _ & _).
exists l. split; [exact Hl|]. assert (El : Ok l = Ok [(h1, r1); (h2, r2)]) by (rewrite <- Hl; vm_compute; reflexivity).
injection El as ->. split; [done|]. destruct (Hfound ltac:(cbn; lia) 1%nat h2 r2 eq_refl) as (_ & _ & Hg & Hlast).
assert (Hone : ∀ k r', (1 < k)%nat → [(h1, r1); (h2, r2)] !! k ≠ Some (h2, r')) by (intros [|[|k]] r' Hk; [lia|lia|discriminate]).
split; [exact (Hlast Hone)|exact (eq_trans Hg (Hlast Hone))].
Defined.
End IndexerExample.
